(* ===== verification/_CoqProject ===== *)
-Q . S2P
Prelude.v
LockRanges.v
FileLocks.v
LockOps.v
LockReplay.v
Serialization.v
Text.v
Wire.v
URaft.v
Election.v
Controller.v
Slices.v
Goals.v
Assignment.v
GoalMerge.v
RichACL.v
AclMasks.v
AclPosix.v
AclText.v
AclStorage.v
Nodes.v
FileSize.v
NodeAcl.v
Trash.v
Quota.v
FsTree.v
FsTreeInv.v
FsTreeNodes.v
FsTreeEdges.v
DirQuota.v
FsMeta.v
FsMetaInv.v
FsCreate.v
FsMetaSteps.v
FsMetaFields.v
FsOps.v
FsAttrOps.v
FsRestore.v
Changelog.v
ChangelogText.v
Tasks.v
FsKinds.v
FsKindsOps.v
FsOpsRead.v
FsReplay.v
FsServe.v
FsServeFiles.v
FsServeTrash.v
FsServeAttr.v
FsServeTasks.v
FsHistory.v
FsVersions.v
FsTheorems.v
FsPaths.v
FsDivergence.v
ChangelogReplay.v
