(* ===== verification/Prelude.v ===== *)
(** * LeilFS: a verification development of the metadata server

    LeilFS is a distributed file system.  A metadata server (src/src/master) keeps the tree, the locks
    and the chunk tables; shadow servers follow it by replaying its changelog; chunkservers keep the
    parts of chunks; clients mount the file system; a daemon beside every metadata server (src/src/uraft)
    elects the one that is the master.  All of them talk in packets of one serialization framework
    (src/src/common, src/src/protocol).  This library models the file system of the metadata server, its
    locks, the elections, the wire format and the goals of chunks by definitions that follow the C++ code
    function by function, and proves what makes them correct.  Paths below are relative to src/src.

    ** The files

    - Prelude (this file): machine integers with their wrap-around, the algorithms of the C++ standard
      library that the sources use on sorted vectors (lower_bound, merge, unique, remove_if), the class
      [KeyOrder] that states what an element type promises to a container sorted by key, and lemmas on
      lists shared by the components.

    Locks.
    - LockRanges: the byte-range locks of one file, [LockRange] and the container LockRanges
      (master/locks.h, master/locks.cc: insert, fits, findCollision and the LockRange methods).
    - FileLocks: the lock tables and waiting queues of all files (class FileLocks of the same sources:
      apply, unlock, gatherCandidates, removePending, copyToVector, load and store).
    - LockOps: the lock operations of the metadata server (lockOperation, flockOperation,
      posixLockOperation and the others of master/filesystem_operations.cc), the handlers of client
      packets and the release of a closed session (master/matoclserv.cc), the changelog entries and
      their replay on a shadow (master/restore.cc).
    - LockReplay: the relation between the locks of a master and of the shadow that replays its entries.

    Wire format.
    - Serialization: integers as bytes (common/datapack.h) and the overload sets serializedSize,
      serialize, deserialize (common/serialization.h and its macros).  A type's overloads are a record
      [Codec]; the class [Lawful] is the interface that packets and files rely on.
    - Text: decimal numbers as printf writes and strtoull, strtol and std::stoull read them.
    - Wire: the types the framework composes from integers, strings and containers, packets (protocol/packet.h, packet.cc), and
      the lock section of the metadata file (protocol/lock_info.h, master/locks.cc).

    Elections.
    - URaft: the election protocol (uraft/uraft.h, uraft/uraft.cc), one definition per handler, and a
      cluster of nodes over a network that loses, reorders and duplicates packets.
    - Election: election safety of the cluster, and runs that show its limits.
    - Controller: the controller of the local metadata server (uraft/uraftcontroller.h, .cc), which
      contains a uRaft node and drives the promote, demote and dead commands.

    Goals of chunks.
    - Slices: slice types and chunk part types (common/slice_traits.h, common/chunk_part_type.h).
    - Goals: labels, slices and goals (common/goal.h, common/goal.cc).
    - Assignment: the auction algorithm (common/linear_assignment_optimizer.h).
    - GoalMerge: the merge of slices and goals (mergeIn of common/goal.cc), which calls the auction.

    Nodes, permissions and quotas.
    - RichACL, AclMasks, AclPosix: access control lists, their masks, and the conversion of POSIX lists
      (common/richacl.h, richacl.cc, richacl_compat.cc, richacl_posix_convert.cc,
      common/access_control_list.h).
    - AclText: both kinds of lists as text (common/richacl_string.cc, common/access_control_list.cc).
    - AclStorage: the storage that keeps equal lists once (master/acl_storage.h, acl_storage.cc).
    - Nodes, FileSize: the nodes with their stored form and chunk table, and the sizes that statistics and
      quotas count (master/filesystem_node_types.h, .cc, master/filesystem_node.cc).
    - NodeAcl: permission checks and lists of nodes (master/filesystem_node.cc).
    - Trash: the containers of detached files (master/filesystem_trash_reserved_files.h).
    - Quota, DirQuota: limits and usage of owners, limits of directories along the tree
      (common/quota_database.h, .cc, master/filesystem_quota.cc).

    The file system.  [Metadata] (FsMeta) is the record of the containers of FilesystemMetadata.
    - FsTree: edges between directories and nodes and the statistics of directories; FsTreeInv,
      FsTreeNodes, FsTreeEdges: the invariant [tree_ok], and the tree as a set of edges.
    - FsMeta: the operations on nodes (master/filesystem_node.cc); FsMetaInv, FsMetaSteps, FsMetaFields,
      FsCreate: the invariant [meta_ok] and that the operations keep it.
    - FsOps, FsAttrOps: the requests of clients, the cleaners and the operations with which a shadow
      applies entries of the changelog (master/filesystem_operations.cc), in the monad [Op] of a status
      or result, the metadata and the entries written.
    - FsRestore: the dispatch of entries on a shadow (master/restore.cc).
    - Changelog: the lines of the changelog, how they are written (changeLog and escapeName) and read
      back (the macros, restore_line, restore and load_changelog of master/restore.cc and
      master/changelog.cc); ChangelogText: every entry that fits is read back.
    - Tasks: the task manager and the tasks of recursive removal and of trash times
      (master/task_manager.h, .cc, recursive_remove_task.cc, settrashtime_task.cc).  The class [Task] is
      what the manager asks of a task.
    - FsKinds, FsKindsOps: no operation changes the kind of a node, on which waiting tasks rely.
    - FsOpsRead, FsReplay, FsServe, FsServeFiles, FsServeTrash, FsServeAttr, FsServeTasks: what each
      request does; [ends] is the specification they are proved against.
    - FsHistory: requests, jobs and cleaners in any order, from a new file system on (fs_new of
      master/metadata_backend_file.cc).
    - FsVersions: the version of the metadata counts the entries, on the master and on a shadow.
    - FsTheorems, FsPaths, ChangelogReplay: the theorems about every history.  FsDivergence: the requests
      that the code does not treat as it means to, and what it does instead.

    ** How the code is modelled

    Objects are records, mutating methods return the new record, enums are inductive types or the
    integers of the source where the integer matters.  A failed assertion is [None] (in the cluster,
    [AssertionFailed]), and so are a pointer that leads nowhere, a cast to a class that the object has
    not, an overflow of a signed integer and a recursion that does not end; an exception of the
    deserializer is [Throw], a read past the end of the buffer [Overrun].  Integers are [Z], with the
    wrap-around written where a value can leave its type.  A sorted vector is a list; a hash map keyed by
    inode is a [gmap]; a pointer to a node is its inode number.  Handlers that send packets, call
    callbacks or ask other components return the list of these effects.  Timers are armed flags: an armed
    timer may fire at any moment.  What the operating system, a script or the pool of inodes answers is
    an argument of the operation that asks for it.

    ** What the theorems show

    The file system.  Along every history of requests, steps of jobs and rounds of the cleaners: no
    assertion fails, no pointer leads nowhere and every loop ends, and a request that ends with an error
    has changed nothing; a shadow that replays the changelog has exactly the metadata of the master, and so
    has a server that loads the text of the changelog over metadata that were saved at any time; the
    nodes form one tree; counters, statistics, link counts and the usage of quotas are those of the tree.
    The cleaners end, remove only what has expired or is reserved, and leave something only when their
    watchdog stops them; rename, undel and the paths in the trash do what they promise; the quota test of a
    move is exact.

    Histories are those of sessions that distinguish case, with requests that are [allowed] (FsHistory).
    On the one hand the rest of the server gives what a request needs ([environment]): numbers of inodes
    that are new, numbers for the names of detached files, a session.  On the other hand the request is one
    that the code treats as it means to ([sound]).  Left out are the rename of a directory into itself,
    undel that makes a directory below one with a list, setAttr without a mode on a node with a list, symlinks
    whose target has 65536 bytes or more, lists that their text in the changelog does not give back, and entries of quotas
    that set a usage.  The theorems of FsDivergence say, for every state of a history, that the rename does not end, and that after undel,
    setAttr and the setting of a list with kAutoSetMode the shadow has other lists or modes than the master.
    One more is about a rename over a pipe, which is refused for a limit of sizes although it adds nothing.

    Permissions.  The storage of lists refines a map from inodes to lists; the assertions on modes and
    masks never fail, as long as no snapshot overwrites a node with a list by a source of other permissions,
    after which they do; a list that was set decides the permissions of those whom it is asked about; the
    permissions of a new node are bounded by its mode; a default POSIX list locks the owning group out of a
    directory that had no list; lists and modes convert into each other.

    Locks.  A lock table is a function from bytes to who holds them and how ([holders]).  Inserting a
    request refines the overlay of the request on that function, and terminates; a request is granted
    exactly when no other owner's conflicting lock is in the way; every reachable table is well formed
    and no two ranges of it, one of them exclusive, overlap; unlocking takes exactly what was asked; the operation of the
    server returns the status and grants that the specification gives; closing a session leaves none of
    its locks; whole-file locks leave no waiting request that could be granted.  A shadow that replays
    the entries of blocking requests has the master's tables with the request ids forgotten; three
    theorems show the histories for which it has not.

    Serialization.  For every type of the universe, what is serialized has the announced size, and is
    read back exactly when no string or container has more than a million elements; reading any bytes never leaves the buffer; packets, nodes and the lock section of the
    metadata file round trip; trailing bytes and oversized headers are refused, the latter only below
    2^31.

    Elections.  No two nodes lead a term at once, terms do not decrease, and only one assertion can
    fail, as long as no follower steps down in its term because its metadata server died; examples of runs
    show two presidents when one does, a second leader of a term after a demotion, and a leader stopped
    by a delayed heartbeat.

    Controller.  One slow command runs at a time; the outcome of a promotion in every case; the back-off
    formula; the handling of a dead metadata server; a blocked follower stays a follower.  Two theorems
    show requests lost by a timeout and a follower that keeps the floating IP.

    Slices and goals.  Slice types and part identifiers are bijective encodings; the parts of a chunk
    add up to the chunk; the union of labels is the least that satisfies both; the auction terminates
    with an optimal assignment and without overflow; a merged slice is nearest to what was asked, and a
    merged goal has the slices of both.

    ** Bounds and fuel

    The loop of LockRanges.insert has fuel twice the number of ranges plus two; a measure shows that this
    is enough.  The loops of the auction have fuel from the spread of the values and the problem's size,
    which a potential shows to be enough.  Walks along the parents of a node have one more than the
    number of nodes, which the tree's invariant shows to be enough; a run of a cleaner has one step more
    than there are detached files, which it removes one by one.  So no theorem is about a run that stops early.  The page-by-page
    listing of a session's locks has its number of pages as fuel, and the theorem asks that the pages
    hold the listing (the source loops until a short page).  A round of jobs has a number of steps, as in
    the source; its watchdog ends a round earlier, which is a smaller number.  Deserialization loops run
    over the count read, which the source limits to a million elements.  All other recursions are
    structural.  Terms of elections stay below 2^64 - 1; the number of copies of a label union below
    2^16; the paths of detached files are numbered up to the limit of the source.

    ** What is not modelled

    The chunk tables and the chunkserver connections of the metadata server, snapshots of trees, goals of trees,
    extended attributes and checksums; the chunkserver, the client, the tools, the key-value backend, and
    everything that is sockets, files, threads or processes.  Within the modelled parts: durations of
    timers and restarts of nodes in elections; transactions and storage hooks of the key-value backend;
    the fences of bulk operations, which are open in the backend that is modelled; the text of the changelog
    entries of locks and of operations outside the model; the attributes, descriptions of jobs and
    statistics returned to clients; automatic repair of files.  The clock behind the watchdog of the cleaners
    is an argument: the answers of its calls, whatever they are.  Of snapshots only the attributes that
    they copy onto an existing node are modelled (NodeAcl).  Sessions whose directories ignore case
    are modelled, but the theorems about histories leave them out. *)
From stdpp Require Export base list gmap option numbers sorting.
From Stdlib Require Export ZArith Lia Bool.

#[global] Open Scope Z_scope.

(** ** Machine integers

    A [w]-bit unsigned integer of the source is a [Z] in [0, 2^w); arithmetic that can leave the
    range is followed by the wrap-around of the C++ type. *)

Definition wrap (w x : Z) : Z := x mod 2 ^ w.
Definition u8 (x : Z) : Z := wrap 8 x.
Definition u16 (x : Z) : Z := wrap 16 x.
Definition u32 (x : Z) : Z := wrap 32 x.
Definition u64 (x : Z) : Z := wrap 64 x.

(** Sums, differences and products of the unsigned types, in a scope of their own. *)
Declare Scope leil_scope.
Delimit Scope leil_scope with leil.
Notation "x '+u32' y" := (u32 (x + y)) (at level 50, left associativity) : leil_scope.
Notation "x '+u64' y" := (u64 (x + y)) (at level 50, left associativity) : leil_scope.
Notation "x '-u64' y" := (u64 (x - y)) (at level 50, left associativity) : leil_scope.
Notation "x '*u32' y" := (u32 (x * y)) (at level 40, left associativity) : leil_scope.
Notation "x '*u64' y" := (u64 (x * y)) (at level 40, left associativity) : leil_scope.

(** Conversion of an unsigned value to the signed type of the same width (two's complement). *)
Definition to_signed (w x : Z) : Z :=
  let y := wrap w x in if y <? 2 ^ (w - 1) then y else y - 2 ^ w.

Definition is_uint (w x : Z) : Prop := 0 <= x < 2 ^ w.
Definition is_sint (w x : Z) : Prop := - 2 ^ (w - 1) <= x < 2 ^ (w - 1).

#[export] Instance is_uint_dec w x : Decision (is_uint w x).
Proof. unfold is_uint. apply _. Defined.
#[export] Instance is_sint_dec w x : Decision (is_sint w x).
Proof. unfold is_sint. apply _. Defined.

Definition uint64_max : Z := 18446744073709551615.
Definition uint32_max : Z := 4294967295.
Definition int64_max : Z := 9223372036854775807.

(** ** The parts of <algorithm> the sources use *)

(** The partition point of [l] for [p]: what std::lower_bound and std::upper_bound return on a
    range that is partitioned by [p] (the documented precondition of both). *)
Fixpoint partition_point {A} (p : A -> bool) (l : list A) : nat :=
  match l with
  | [] => 0%nat
  | x :: l' => if p x then S (partition_point p l') else 0%nat
  end.

(** container.erase(std::remove_if(first, last, p), last) *)
Definition remove_if {A} (p : A -> bool) (l : list A) : list A :=
  List.filter (fun x => negb (p x)) l.
#[global] Arguments remove_if : simpl never.

(** std::merge with a comparison: stable, the first range wins on equivalent elements. *)
Fixpoint std_merge {A} (lt : A -> A -> bool) (l1 : list A) : list A -> list A :=
  fix inner (l2 : list A) : list A :=
    match l1, l2 with
    | [], _ => l2
    | _, [] => l1
    | x :: l1', y :: l2' => if lt y x then y :: inner l2' else x :: std_merge lt l1' l2
    end.

(** std::unique followed by erase: of every run of equal elements the first stays. *)
Fixpoint std_unique_from {A} (eqb : A -> A -> bool) (x : A) (l : list A) : list A :=
  match l with
  | [] => [x]
  | y :: l' => if eqb x y then std_unique_from eqb x l' else x :: std_unique_from eqb y l'
  end.

Definition std_unique {A} (eqb : A -> A -> bool) (l : list A) : list A :=
  match l with
  | [] => []
  | x :: l' => std_unique_from eqb x l'
  end.

(** ** Lemmas on the list algorithms *)

Section algorithms.
Context {A : Type}.
Implicit Types (p : A -> bool) (l : list A) (x : A).

Lemma partition_point_le p l : (partition_point p l <= length l)%nat.
Proof. induction l as [|x l IH]; simpl; [lia|]. destruct (p x); lia. Qed.

(** Everything before the partition point satisfies [p]. *)
Lemma partition_point_take p l : Forall (fun x => p x = true) (take (partition_point p l) l).
Proof.
  induction l as [|x l IH]; simpl; [constructor|].
  destruct (p x) eqn:E; simpl; constructor; auto.
Qed.

Lemma partition_point_drop p l x l' :
  drop (partition_point p l) l = x :: l' -> p x = false.
Proof.
  induction l as [|y l IH]; simpl; [discriminate|].
  destruct (p y) eqn:E; simpl; [auto|]. congruence.
Qed.

Lemma elem_of_remove_if p l x : x ∈ remove_if p l <-> x ∈ l /\ p x = false.
Proof.
  unfold remove_if. rewrite !list_elem_of_In, filter_In.
  destruct (p x); naive_solver.
Qed.

Lemma remove_if_app p l1 l2 : remove_if p (l1 ++ l2) = remove_if p l1 ++ remove_if p l2.
Proof. apply List.filter_app. Qed.

Lemma remove_if_cons p x l :
  remove_if p (x :: l) = if p x then remove_if p l else x :: remove_if p l.
Proof. unfold remove_if. simpl. by destruct (p x). Qed.

Lemma remove_if_all_false p l : Forall (fun x => p x = false) l -> remove_if p l = l.
Proof.
  induction 1 as [|x l E ? IH]; [done|]. by rewrite remove_if_cons, E, IH.
Qed.

Lemma StronglySorted_remove_if (R : relation A) p l :
  StronglySorted R l -> StronglySorted R (remove_if p l).
Proof.
  induction 1 as [|x l ? IH HF]; [constructor|].
  rewrite remove_if_cons. destruct (p x); [done|]. constructor; [done|].
  rewrite Forall_forall in *. intros y [Hy _]%elem_of_remove_if. auto.
Qed.

Lemma find_app p l1 l2 :
  List.find p (l1 ++ l2) =
    match List.find p l1 with Some x => Some x | None => List.find p l2 end.
Proof. induction l1 as [|x l1 IH]; simpl; [done|]. by destruct (p x). Qed.

Lemma find_None_iff p l : List.find p l = None <-> Forall (fun x => p x = false) l.
Proof.
  induction l as [|x l IH]; simpl; [by split|].
  rewrite Forall_cons. destruct (p x) eqn:E; naive_solver.
Qed.
End algorithms.

Lemma difference_singleton_id `{Countable K} (X : gset K) (k : K) : k ∉ X -> X ∖ {[k]} = X.
Proof. set_solver. Qed.

Lemma difference_singleton_empty `{Countable K} (X : gset K) (k : K) :
  X <> ∅ -> X ∖ {[k]} = ∅ -> X = {[k]}.
Proof.
  intros [x Hx]%set_choose_L E. apply set_eq. intros y.
  assert (forall z, z ∈ X -> z = k) as Hz.
  { intros z Hz. destruct (decide (z = k)) as [|N]; [done|].
    exfalso. apply (not_elem_of_empty (C := gset K) z). rewrite <- E.
    by rewrite elem_of_difference, elem_of_singleton. }
  rewrite elem_of_singleton.
  split; [apply Hz|]. intros ->. by rewrite <- (Hz x Hx).
Qed.

(** Containers kept sorted by a key: a comparison and an equality test on the elements that only
    look at the key. The element lists then stand for finite sets of keys. *)
Section key_set.
Context {A K : Type} `{Countable K} (key : A -> K).
Implicit Types (l : list A) (a : A).

Definition key_set l : gset K := list_to_set (key <$> l).

Lemma elem_of_key_set l k : k ∈ key_set l <-> exists a, a ∈ l /\ key a = k.
Proof. unfold key_set. rewrite elem_of_list_to_set, list_elem_of_fmap. naive_solver. Qed.

Lemma key_set_app l1 l2 : key_set (l1 ++ l2) = key_set l1 ∪ key_set l2.
Proof. unfold key_set. by rewrite fmap_app, list_to_set_app_L. Qed.

Lemma key_set_cons a l : key_set (a :: l) = {[key a]} ∪ key_set l.
Proof. done. Qed.
End key_set.

Section key_sorted.
Context {A K : Type} `{Countable K} (key : A -> K) (klt : relation K) `{!StrictOrder klt}.
Implicit Types (l : list A) (a b x : A).

Definition key_sorted l : Prop := StronglySorted (fun a b => klt (key a) (key b)) l.
Definition key_weakly_sorted l : Prop := StronglySorted (fun a b => ~ klt (key b) (key a)) l.

Lemma klt_asym k1 k2 : klt k1 k2 -> ~ klt k2 k1.
Proof. intros ? ?. apply (irreflexivity klt k1). by etrans. Qed.

Lemma key_sorted_weaken l : key_sorted l -> key_weakly_sorted l.
Proof.
  unfold key_sorted, key_weakly_sorted. induction 1 as [|a l ? IH HF]; constructor; auto.
  eapply Forall_impl; [exact HF|]. simpl. intros b. apply klt_asym.
Qed.

Lemma key_sorted_NoDup l : key_sorted l -> NoDup (key <$> l).
Proof.
  unfold key_sorted. induction 1 as [|a l ? IH HF]; simpl; constructor; auto.
  rewrite list_elem_of_fmap. intros (b & E & Hb). rewrite Forall_forall in HF.
  specialize (HF b Hb). rewrite E in HF. by apply (irreflexivity klt _ HF).
Qed.

(** Two sorted containers hold the same keys iff they agree element by element. *)
Lemma key_sorted_unique l1 l2 :
  key_sorted l1 -> key_sorted l2 -> key_set key l1 = key_set key l2 -> key <$> l1 = key <$> l2.
Proof.
  intros H1 H2 E. apply (StronglySorted_unique_strong klt).
  - intros k1 k2 _ _ L1 L2. destruct (klt_asym _ _ L1 L2).
  - apply StronglySorted_fmap with (R1 := fun a b => klt (key a) (key b)); auto.
  - apply StronglySorted_fmap with (R1 := fun a b => klt (key a) (key b)); auto.
  - apply NoDup_Permutation; auto using key_sorted_NoDup.
    intros k. unfold key_set in E.
    rewrite <- !(elem_of_list_to_set (C := gset K)). by rewrite E.
Qed.
End key_sorted.

(** The interface between a container and its element type: operator< and operator== of the
    elements compare the keys by a strict total order. *)
Class KeyOrder {A K : Type} `{Countable K} (key : A -> K) (klt : relation K)
    (lt eqb : A -> A -> bool) := {
  key_order_strict :: StrictOrder klt;
  klt_total : forall k1 k2, klt k1 k2 \/ k1 = k2 \/ klt k2 k1;
  lt_spec : forall a b, lt a b = true <-> klt (key a) (key b);
  eqb_spec : forall a b, eqb a b = true <-> key a = key b;
}.

(** std::lower_bound on containers sorted by a key. *)
Section key_search.
Context {A K : Type} `{Countable K} {key : A -> K} {klt : relation K}.
Context {lt eqb : A -> A -> bool} `{!KeyOrder key klt lt eqb}.
Implicit Types (l : list A) (a b x : A).

Lemma lt_false_iff a b : lt a b = false <-> ~ klt (key a) (key b).
Proof. rewrite <- lt_spec. destruct (lt a b); intuition congruence. Qed.

(** lower_bound in a sorted container finds the element with the key, if there is one. *)
Lemma partition_point_absent l c :
  key_sorted key klt l ->
  match l !! partition_point (fun o => lt o c) l with
  | Some o => key o <> key c
  | None => True
  end -> key c ∉ key_set key l.
Proof.
  intros S. induction S as [|a l S IH F]; simpl; [set_solver|].
  destruct (lt a c) eqn:E; simpl.
  - apply lt_spec in E. intros Hl. rewrite key_set_cons. specialize (IH Hl).
    intros [Hk|Hk]%elem_of_union; [|done]. apply elem_of_singleton in Hk.
    rewrite Hk in E. by apply (irreflexivity klt _ E).
  - intros Hne. apply lt_false_iff in E. rewrite key_set_cons.
    intros [Hk|Hk]%elem_of_union; [set_solver|].
    apply elem_of_key_set in Hk as (x & Hx & Ex). rewrite Forall_forall in F.
    specialize (F x Hx). rewrite Ex in F. done.
Qed.

Lemma partition_point_present l c o :
  key_sorted key klt l ->
  l !! partition_point (fun x => lt x c) l = Some o -> key o = key c ->
  let l' := take (partition_point (fun x => lt x c) l) l
            ++ drop (S (partition_point (fun x => lt x c) l)) l in
  key_sorted key klt l' /\ key_set key l' = key_set key l ∖ {[key c]}.
Proof.
  intros S. induction S as [|a l S IH F]; simpl; [done|].
  destruct (lt a c) eqn:E; simpl.
  - apply lt_spec in E. intros Hl Hk. destruct (IH Hl Hk) as [S' E'].
    split.
    + constructor; [done|]. rewrite Forall_forall in *. intros x [Hx|Hx]%elem_of_app.
      * apply F. by eapply subseteq_take.
      * apply F. by eapply subseteq_drop.
    + rewrite !key_set_cons, E', difference_union_distr_l_L. f_equal.
      assert (key a <> key c); [|set_solver]. intros Ek. rewrite Ek in E.
      by apply (irreflexivity klt _ E).
  - intros [= <-] Ek. rewrite drop_0. split; [done|]. rewrite key_set_cons, Ek.
    assert (key c ∉ key_set key l); [|set_solver].
    intros (x & Hx & Ex)%elem_of_key_set. rewrite Forall_forall in F.
    specialize (F x Hx). rewrite Ek, Ex in F. by apply (irreflexivity klt _ F).
Qed.
End key_search.

(** std::merge and std::unique on containers sorted by a key. *)
Section key_algorithms.
Context {A K : Type} `{Countable K} {key : A -> K} {klt : relation K}.
Context {lt eqb : A -> A -> bool} `{!KeyOrder key klt lt eqb}.
Implicit Types (l : list A) (a b x : A).

Lemma std_merge_cons x l1 y l2 :
  std_merge lt (x :: l1) (y :: l2) =
    if lt y x then y :: std_merge lt (x :: l1) l2 else x :: std_merge lt l1 (y :: l2).
Proof. done. Qed.

Lemma std_merge_nil_r l : std_merge lt l [] = l.
Proof. by destruct l. Qed.

Lemma elem_of_std_merge l1 l2 x : x ∈ std_merge lt l1 l2 <-> x ∈ l1 \/ x ∈ l2.
Proof.
  revert l2. induction l1 as [|a l1 IH1]; intros l2; [destruct l2; simpl; set_solver|].
  induction l2 as [|b l2 IH2]; [rewrite std_merge_nil_r; set_solver|].
  rewrite std_merge_cons. destruct (lt b a); rewrite elem_of_cons, ?IH1, ?IH2; set_solver.
Qed.

(** Below an element of a weakly sorted list nothing of the list is smaller. *)
Lemma nlt_trans k1 k2 k3 : ~ klt k2 k1 -> ~ klt k3 k2 -> ~ klt k3 k1.
Proof.
  intros N1 N2 L. destruct (klt_total (klt := klt) k2 k1) as [?|[->|L']]; [done|done|].
  apply N2. by etrans.
Qed.

Lemma std_merge_sorted l1 l2 :
  key_weakly_sorted key klt l1 -> key_weakly_sorted key klt l2 ->
  key_weakly_sorted key klt (std_merge lt l1 l2).
Proof.
  unfold key_weakly_sorted. intros S1. revert l2.
  induction S1 as [|a l1 S1 IH1 F1]; intros l2 S2; [by destruct l2|].
  induction S2 as [|b l2 S2 IH2 F2]; [rewrite std_merge_nil_r; by constructor|].
  rewrite std_merge_cons. rewrite Forall_forall in F1, F2.
  destruct (lt b a) eqn:E; constructor.
  - done.
  - apply lt_spec in E. apply Forall_forall. intros x Hx. apply elem_of_std_merge in Hx.
    rewrite elem_of_cons in Hx. destruct Hx as [[->|Hx]|Hx]; [by apply (klt_asym klt)| |auto].
    eapply nlt_trans; [|by apply F1]. by apply (klt_asym klt).
  - apply IH1. by constructor; [|apply Forall_forall].
  - apply lt_false_iff in E. apply Forall_forall. intros x Hx. apply elem_of_std_merge in Hx.
    rewrite elem_of_cons in Hx. destruct Hx as [Hx|[->|Hx]]; [auto|done|].
    eapply nlt_trans; [exact E|]. auto.
Qed.

Lemma elem_of_std_unique_from a l x : x ∈ std_unique_from eqb a l -> x = a \/ x ∈ l.
Proof.
  revert a. induction l as [|b l IH]; intros a; simpl; [set_solver|].
  destruct (eqb a b); [intros ?%IH; set_solver|].
  rewrite elem_of_cons. intros [->|?%IH]; set_solver.
Qed.

Lemma std_unique_from_key_set a l :
  key_set key (std_unique_from eqb a l) = {[key a]} ∪ key_set key l.
Proof.
  revert a. induction l as [|b l IH]; intros a; simpl; [done|].
  destruct (eqb a b) eqn:E.
  - apply eqb_spec in E. rewrite IH, !key_set_cons, <- E. set_solver.
  - by rewrite !key_set_cons, IH.
Qed.

Lemma std_unique_from_sorted a l :
  key_weakly_sorted key klt (a :: l) -> key_sorted key klt (std_unique_from eqb a l).
Proof.
  unfold key_weakly_sorted, key_sorted. revert a.
  induction l as [|b l IH]; intros a S; simpl; [repeat constructor|].
  apply StronglySorted_inv in S as [S F]. pose proof F as [Nab Fl]%Forall_cons.
  apply StronglySorted_inv in S as [S Fb]. destruct (eqb a b) eqn:E.
  - apply IH. constructor; [done|]. rewrite Forall_forall in *. auto.
  - constructor; [apply IH; by constructor|]. apply Forall_forall. intros x Hx.
    assert (klt (key a) (key b)) as L.
    { destruct (klt_total (klt := klt) (key a) (key b)) as [?|[Ek|?]]; [done| |done].
      apply eqb_spec in Ek. congruence. }
    apply elem_of_std_unique_from in Hx as [->|Hx]; [done|].
    rewrite Forall_forall in Fb. specialize (Fb x Hx).
    destruct (klt_total (klt := klt) (key b) (key x)) as [?|[<-|?]]; [by etrans|done|done].
Qed.

(** Merging two sorted containers and dropping duplicates is set union. *)
Lemma merge_unique_sorted l1 l2 :
  key_sorted key klt l1 -> key_sorted key klt l2 ->
  key_sorted key klt (std_unique eqb (std_merge lt l1 l2)).
Proof.
  intros S1%key_sorted_weaken S2%key_sorted_weaken; try apply _.
  pose proof (std_merge_sorted _ _ S1 S2) as S.
  destruct (std_merge lt l1 l2); [constructor|]. by apply std_unique_from_sorted.
Qed.

Lemma merge_unique_key_set l1 l2 :
  key_set key (std_unique eqb (std_merge lt l1 l2)) = key_set key l1 ∪ key_set key l2.
Proof.
  assert (key_set key (std_merge lt l1 l2) = key_set key l1 ∪ key_set key l2) as <-.
  { apply set_eq. intros k. rewrite elem_of_union, !elem_of_key_set.
    setoid_rewrite elem_of_std_merge. firstorder. }
  destruct (std_merge lt l1 l2); [done|]. apply std_unique_from_key_set.
Qed.
End key_algorithms.

Lemma elem_of_concat {A} (x : A) (ls : list (list A)) :
  x ∈ concat ls <-> exists l, l ∈ ls /\ x ∈ l.
Proof.
  rewrite list_elem_of_In, in_concat. setoid_rewrite list_elem_of_In. naive_solver.
Qed.

Lemma lookup_alter_cases {A} (f : A -> A) (l : list A) (i j : nat) (b : A) :
  alter f i l !! j = Some b ->
  (i = j /\ exists a, l !! j = Some a /\ b = f a) \/ (i <> j /\ l !! j = Some b).
Proof.
  destruct (decide (i = j)) as [->|Hij].
  - rewrite list_lookup_alter_eq, fmap_Some. naive_solver.
  - rewrite list_lookup_alter_ne by done. auto.
Qed.

(** ** Loops

    A loop is a step function that continues with a new state or returns.  [run] makes up to [p]
    steps; the number is binary, so that a bound like 2^64 costs nothing to a loop that returns. *)

Fixpoint run {St R : Type} (step : St -> St + R) (p : positive) (s : St) : St + R :=
  match p with
  | xH => step s
  | xO p => match run step p s with inl s' => run step p s' | inr r => inr r end
  | xI p =>
    match step s with
    | inl s' => match run step p s' with inl s'' => run step p s'' | inr r => inr r end
    | inr r => inr r
    end
  end.

(** Enough steps for every loop below. *)
Definition loop_bound : positive := (2 ^ 64)%positive.

Section loops.
Context {St R : Type} (step : St -> St + R) (Inv : St -> Prop) (Post : R -> Prop) (measure : St -> Z).
Hypothesis step_ok : forall s, Inv s ->
  match step s with inl s' => Inv s' /\ 0 <= measure s' < measure s | inr r => Post r end.

Lemma run_progress p s :
  Inv s ->
  match run step p s with
  | inl s' => Inv s' /\ 0 <= measure s' <= measure s - Z.pos p
  | inr r => Post r
  end.
Proof.
  revert s. induction p as [p IH|p IH|]; intros s Hs; cbn [run].
  - pose proof (step_ok s Hs) as H1. destruct (step s) as [s1|r]; [|done]. destruct H1 as [H1 M1].
    pose proof (IH s1 H1) as H2. destruct (run step p s1) as [s2|r]; [|done]. destruct H2 as [H2 M2].
    pose proof (IH s2 H2) as H3. destruct (run step p s2) as [s3|r]; [|done]. destruct H3. split; [done|lia].
  - pose proof (IH s Hs) as H1. destruct (run step p s) as [s1|r]; [|done]. destruct H1 as [H1 M1].
    pose proof (IH s1 H1) as H2. destruct (run step p s1) as [s2|r]; [|done]. destruct H2. split; [done|lia].
  - pose proof (step_ok s Hs) as H1. destruct (step s); [|done]. destruct H1. split; [done|lia].
Qed.

(** A loop whose measure starts below the bound returns. *)
Lemma run_returns p s :
  Inv s -> measure s < Z.pos p -> exists r, run step p s = inr r /\ Post r.
Proof.
  intros Hs Hm. pose proof (run_progress p s Hs) as H. destruct (run step p s) as [s'|r]; [|eauto].
  destruct H as [_ H]. lia.
Qed.
End loops.
