(* ===== verification/LockRanges.v ===== *)
(** Byte-range locks of one file: [LockRange], its owners and the container [LockRanges]
    (src/master/locks.h, src/master/locks.cc).

    Data and operations first, then the abstract view of a lock table (which owners hold which
    kind of lock on every byte) and the proof that [insert] refines the overlay of one request on
    that view. *)
From S2P Require Import Prelude.

(** ** Data *)

(** LockRange::Owner *)
Record Owner := MkOwner {
  owner : Z;      (* uint64_t *)
  sessionid : Z;  (* uint32_t *)
  reqid : Z;      (* uint32_t *)
  msgid : Z;      (* uint32_t *)
}.

#[export] Instance Owner_eq_dec : EqDecision Owner.
Proof. solve_decision. Defined.

(** operator== of owners ignores reqid and msgid. *)
Definition Owner_eqb (a b : Owner) : bool :=
  (owner a =? owner b) && (sessionid a =? sessionid b).

Definition Owner_ltb (a b : Owner) : bool :=
  (owner a <? owner b) || ((owner a =? owner b) && (sessionid a <? sessionid b)).

(** LockRange::Type: the enumerators, and the values of the underlying uint8_t a static_cast can
    produce that are not enumerators. *)
Inductive LockType :=
  | kInvalid | kUnlock | kShared | kExclusive
  | kOther (raw : Z).

#[export] Instance LockType_eq_dec : EqDecision LockType.
Proof. solve_decision. Defined.

Record LockRange := MkLock {
  type : LockType;
  start : Z;  (* uint64_t *)
  end_ : Z;   (* uint64_t *)
  owners : list Owner;
}.

(** The constructor LockRange(type, start, end, first). *)
Definition Lock (t : LockType) (s e : Z) (first : Owner) : LockRange := MkLock t s e [first].

Definition set_type (t : LockType) (r : LockRange) := MkLock t (start r) (end_ r) (owners r).
Definition set_start (s : Z) (r : LockRange) := MkLock (type r) s (end_ r) (owners r).
Definition set_end (e : Z) (r : LockRange) := MkLock (type r) (start r) e (owners r).
Definition set_owners (os : list Owner) (r : LockRange) := MkLock (type r) (start r) (end_ r) os.

(** operator== of compact_vector<Owner>: same size and element-wise ==. *)
Fixpoint owners_eqb (a b : list Owner) : bool :=
  match a, b with
  | [], [] => true
  | x :: a', y :: b' => Owner_eqb x y && owners_eqb a' b'
  | _, _ => false
  end.

Definition overlaps (r other : LockRange) : bool :=
  (start r <? end_ other) && (start other <? end_ r).

Definition sticks (r other : LockRange) : bool :=
  (start r =? end_ other) || (start other =? end_ r).

Definition shared (r : LockRange) : bool := bool_decide (type r = kShared).
Definition exclusive (r : LockRange) : bool := bool_decide (type r = kExclusive).
Definition valid (r : LockRange) : bool := bool_decide (type r <> kInvalid).

Definition unlocking (r : LockRange) : bool :=
  bool_decide (type r = kUnlock) || (length (owners r) =? 0)%nat.

Definition markUnlocking (r : LockRange) : LockRange := set_type kUnlock r.

(** owner(): asserts that there is exactly one owner; [None] is the failed assertion. *)
Definition the_owner (r : LockRange) : option Owner :=
  match owners r with [o] => Some o | _ => None end.

(** std::binary_search over the owners. *)
Definition hasOwner (r : LockRange) (candidate : Owner) : bool :=
  match owners r !! partition_point (fun o => Owner_ltb o candidate) (owners r) with
  | Some o => negb (Owner_ltb candidate o)
  | None => false
  end.

Definition eraseOwner (candidate : Owner) (r : LockRange) : LockRange :=
  let it := partition_point (fun o => Owner_ltb o candidate) (owners r) in
  match owners r !! it with
  | Some o => if Owner_eqb o candidate
              then set_owners (take it (owners r) ++ drop (S it) (owners r)) r
              else r
  | None => r
  end.

Definition addOwners (other : list Owner) (r : LockRange) : LockRange :=
  set_owners (std_unique Owner_eqb (std_merge Owner_ltb (owners r) other)) r.

(** operator< on ranges, the order of the pending queue. *)
Definition range_ltb (r other : LockRange) : bool :=
  (start r <? start other) || ((start r =? start other) && (end_ r <? end_ other)).

(** ** LockRanges *)

(** First index whose start is not below [offset] (lower_bound), moved back by one unless it is
    the first; and the index one past the last start not above [offset] (upper_bound). *)
Definition search_start (data : list LockRange) (offset : Z) : nat :=
  let s := partition_point (fun other => start other <? offset) data in
  match s with O => O | S s' => s' end.

Definition search_end (data : list LockRange) (offset : Z) : nat :=
  partition_point (fun other => negb (offset <? start other)) data.

(** The elements the iterator range [start, end) of the two searches visits. *)
Definition search_window (data : list LockRange) (range : LockRange) : list LockRange :=
  let s := search_start data (start range) in
  let e := search_end data (end_ range) in
  take (e - s)%nat (drop s data).

Definition collides (range other : LockRange) : bool :=
  overlaps range other &&
  ((negb (shared range) || negb (shared other)) && negb (owners_eqb (owners other) (owners range))).

Definition findCollision (data : list LockRange) (range : LockRange) : option LockRange :=
  if unlocking range then None
  else List.find (collides range) (search_window data range).

Definition fits (data : list LockRange) (range : LockRange) : bool :=
  match findCollision data range with None => true | Some _ => false end.

(** One iteration of the loop of insert(). The state is the requested range, the elements of
    [start, it) and the elements of [it, end). Inserting at [it] and advancing puts the new
    element at the end of [done_] and leaves [it] on the old element. *)
Record insert_state := MkInsert {
  ist_range : LockRange;
  ist_done : list LockRange;
  ist_todo : list LockRange;
}.

Inductive insert_step_result :=
  | Continue (s : insert_state)
  | Stop                (* loop condition false, or break *)
  | AssertFailed.

(** The owners and type that the part of [other] covered by [range] gets. *)
Definition absorb (range : LockRange) (same_owners : bool) (piece : LockRange)
  : option LockRange :=
  if same_owners then Some (set_type (type range) piece)
  else if unlocking range then
    match the_owner range with
    | Some o => Some (eraseOwner o piece)
    | None => None
    end
  else Some (addOwners (owners range) piece).

Definition insert_step (st : insert_state) : insert_step_result :=
  let range := ist_range st in
  let done_ := ist_done st in
  match ist_todo st with
  | [] => Stop
  | other :: rest =>
    if negb (start range <? end_ range) then Stop
    else
    let same_owners := owners_eqb (owners range) (owners other) in
    if sticks range other && same_owners && bool_decide (type range = type other) then
      Continue (MkInsert
        (set_end (Z.max (end_ range) (end_ other))
          (set_start (Z.min (start range) (start other)) range))
        (done_ ++ [markUnlocking other]) rest)
    else if end_ range <=? start other then Stop
    else if negb (overlaps range other) then Continue (MkInsert range (done_ ++ [other]) rest)
    else if negb (same_owners || (shared range && shared other) || unlocking range) then
      AssertFailed
    else if start range <? start other then
      let tmp := set_end (start other) range in
      Continue (MkInsert (set_start (start other) range) (done_ ++ [tmp]) (other :: rest))
    else if start range =? start other then
      if end_ range <? end_ other then
        let tmp := set_end (end_ range) other in
        let other' := set_start (end_ range) other in
        let range' := set_start (end_ other) range in
        match absorb range same_owners tmp with
        | Some tmp' => Continue (MkInsert range' (done_ ++ [tmp']) (other' :: rest))
        | None => AssertFailed
        end
      else
        match absorb range same_owners other with
        | Some other' =>
          Continue (MkInsert (set_start (end_ other) range) (done_ ++ [other']) rest)
        | None => AssertFailed
        end
    else
      let tmp := set_end (start range) other in
      let other' := set_start (start range) other in
      Continue (MkInsert range (done_ ++ [tmp]) (other' :: rest))
  end.

Inductive insert_result :=
  | Finished (s : insert_state)
  | Aborted
  | OutOfFuel.

Fixpoint insert_loop (fuel : nat) (st : insert_state) : insert_result :=
  match fuel with
  | O => OutOfFuel
  | S fuel' =>
    match insert_step st with
    | Stop => Finished st
    | AssertFailed => Aborted
    | Continue st' => insert_loop fuel' st'
    end
  end.

(** Every element of the window takes at most two iterations, plus the one that stops. *)
Definition insert_fuel (todo : list LockRange) : nat := (2 * length todo + 2)%nat.

(** insert(): [None] is a failed assertion (or lack of fuel, excluded by [insert_ok]). *)
Definition insert (data : list LockRange) (range : LockRange) : option (list LockRange) :=
  let s := search_start data (start range) in
  let e := search_end data (end_ range) in
  let window := search_window data range in
  match insert_loop (insert_fuel window) (MkInsert range [] window) with
  | Finished st =>
    let range' := ist_range st in
    let left := if start range' <? end_ range' then [range'] else [] in
    Some (take s data
          ++ remove_if unlocking (ist_done st ++ left ++ ist_todo st)
          ++ drop (Nat.max s e) data)
  | _ => None
  end.

(** ** Owner lists as sets *)

(** What identifies an owner: the FUSE owner and the session. *)
Definition okey (o : Owner) : Z * Z := (owner o, sessionid o).

Definition okey_lt (a b : Z * Z) : Prop := a.1 < b.1 \/ (a.1 = b.1 /\ a.2 < b.2).

#[export] Instance okey_lt_strict : StrictOrder okey_lt.
Proof.
  split.
  - intros [a b]. unfold complement, okey_lt. simpl. lia.
  - intros [a b] [c d] [e f]. unfold okey_lt. simpl. lia.
Qed.

#[export] Instance Owner_key_order : KeyOrder okey okey_lt Owner_ltb Owner_eqb.
Proof.
  split.
  - apply _.
  - intros [a b] [c d]. unfold okey_lt. simpl.
    destruct (decide (a = c)) as [->|]; [|lia]. destruct (decide (b = d)) as [->|]; [auto|lia].
  - intros a b. unfold Owner_ltb, okey_lt, okey. simpl. lia.
  - intros a b. unfold Owner_eqb, okey. rewrite andb_true_iff, !Z.eqb_eq.
    split; [intros [-> ->]; done|by intros [= -> ->]].
Qed.

Abbreviation owner_set := (key_set okey).
Abbreviation owners_sorted := (key_sorted okey okey_lt).

Lemma owners_eqb_fmap a b : owners_eqb a b = true <-> okey <$> a = okey <$> b.
Proof.
  revert b. induction a as [|x a IH]; intros [|y b]; try (split; done).
  csimpl. rewrite andb_true_iff, eqb_spec, IH.
  split; [by intros [-> ->]|by intros [? ?]%cons_eq_inj].
Qed.

Lemma owners_eqb_spec a b :
  owners_sorted a -> owners_sorted b -> owners_eqb a b = true <-> owner_set a = owner_set b.
Proof.
  intros Sa Sb. rewrite owners_eqb_fmap. split.
  - unfold key_set. by intros ->.
  - by apply (key_sorted_unique okey okey_lt).
Qed.

Lemma eraseOwner_sorted c r :
  owners_sorted (owners r) -> owners_sorted (owners (eraseOwner c r)).
Proof.
  intros S. unfold eraseOwner. destruct (_ !! _) as [o|] eqn:E; [|done].
  destruct (Owner_eqb o c) eqn:Eo; [|done]. apply eqb_spec in Eo.
  by apply partition_point_present with (o := o).
Qed.

Lemma eraseOwner_set c r :
  owners_sorted (owners r) -> owner_set (owners (eraseOwner c r)) = owner_set (owners r) ∖ {[okey c]}.
Proof.
  intros S. unfold eraseOwner.
  pose proof (partition_point_absent (lt := Owner_ltb) _ c S) as Ha.
  destruct (_ !! _) as [o|] eqn:E; [|by rewrite difference_singleton_id by auto].
  destruct (Owner_eqb o c) eqn:Eo.
  - apply eqb_spec in Eo.
    by apply partition_point_present with (o := o).
  - rewrite difference_singleton_id; [done|]. apply Ha. intros Ek%eqb_spec. congruence.
Qed.

Lemma addOwners_sorted os r :
  owners_sorted os -> owners_sorted (owners r) -> owners_sorted (owners (addOwners os r)).
Proof. intros. by apply merge_unique_sorted. Qed.

Lemma addOwners_set os r :
  owner_set (owners (addOwners os r)) = owner_set (owners r) ∪ owner_set os.
Proof. apply merge_unique_key_set. Qed.

Lemma hasOwner_spec r c :
  owners_sorted (owners r) -> hasOwner r c = true <-> okey c ∈ owner_set (owners r).
Proof.
  intros S. unfold hasOwner.
  pose proof (partition_point_absent (lt := Owner_ltb) _ c S) as Ha.
  destruct (_ !! _) as [o|] eqn:E.
  - assert (Owner_ltb o c = false) as Eoc.
    { eapply (partition_point_drop (fun o => Owner_ltb o c)). by apply drop_S. }
    rewrite negb_true_iff, !lt_false_iff in *. split.
    + intros N. destruct (klt_total (klt := okey_lt) (okey o) (okey c)) as [?|[Ek|?]]; [done| |done].
      apply elem_of_key_set. exists o. split; [by eapply list_elem_of_lookup_2|done].
    + intros Hin L. apply Ha; [|done]. intros Ek. rewrite Ek in L.
      by apply (irreflexivity okey_lt _ L).
  - split; [done|]. intros Hin. by specialize (Ha I).
Qed.

Lemma owner_set_empty os : owner_set os = ∅ <-> os = [].
Proof. destruct os; [done|]. rewrite key_set_cons. split; [set_solver|done]. Qed.

(** ** The abstract view of a lock table

    For every byte, the kind of lock and the set of owners that hold it. *)

Definition covers (x : Z) (r : LockRange) : bool := (start r <=? x) && (x <? end_ r).

Definition view (r : LockRange) : LockType * gset (Z * Z) := (type r, owner_set (owners r)).

Definition holders (data : list LockRange) (x : Z) : option (LockType * gset (Z * Z)) :=
  view <$> List.find (covers x) data.

(** A stored range: non-empty, shared or exclusive, with a sorted non-empty set of owners, a
    single one if it is exclusive. *)
Definition wf_range (r : LockRange) : Prop :=
  start r < end_ r /\
  (type r = kShared \/ (type r = kExclusive /\ length (owners r) = 1%nat)) /\
  owners r <> [] /\ owners_sorted (owners r).

Definition before (a b : LockRange) : Prop := end_ a <= start b.

(** A lock table: well-formed ranges, in order and disjoint. *)
Definition wf_table (data : list LockRange) : Prop :=
  Forall wf_range data /\ StronglySorted before data.

(** What the code passes to insert(): a request of one owner to lock or to unlock. *)
Definition wf_request (r : LockRange) : Prop :=
  (type r = kUnlock \/ type r = kShared \/ type r = kExclusive) /\ length (owners r) = 1%nat.

(** The effect of a request on one byte it covers. *)
Definition overlay (r : LockRange) (cur : option (LockType * gset (Z * Z)))
  : option (LockType * gset (Z * Z)) :=
  match cur with
  | None => if unlocking r then None else Some (view r)
  | Some (t, os) =>
    if decide (os = owner_set (owners r)) then
      if unlocking r then None else Some (type r, os)
    else if unlocking r then Some (t, os ∖ owner_set (owners r))
    else Some (t, os ∪ owner_set (owners r))
  end.

Lemma holders_app l1 l2 x :
  holders (l1 ++ l2) x = match holders l1 x with Some v => Some v | None => holders l2 x end.
Proof. unfold holders. rewrite find_app. by destruct (List.find _ l1). Qed.

Lemma holders_cons r l x :
  holders (r :: l) x = if covers x r then Some (view r) else holders l x.
Proof. unfold holders. simpl. by destruct (covers x r). Qed.

Lemma holders_None l x : (forall r, r ∈ l -> covers x r = false) -> holders l x = None.
Proof.
  intros Hl. unfold holders. replace (List.find (covers x) l) with (@None LockRange); [done|].
  symmetry. apply find_None_iff, Forall_forall, Hl.
Qed.

Lemma holders_left l x : (forall a, a ∈ l -> end_ a <= x) -> holders l x = None.
Proof. intros Hl. apply holders_None. intros a Ha%Hl. unfold covers. lia. Qed.

Lemma holders_right l x : (forall b, b ∈ l -> x < start b) -> holders l x = None.
Proof. intros Hl. apply holders_None. intros b Hb%Hl. unfold covers. lia. Qed.

Lemma wf_range_unlocking r : wf_range r -> unlocking r = false.
Proof.
  intros (_ & Ht & Ho & _). unfold unlocking. rewrite bool_decide_eq_false_2 by (by destruct Ht as [->|[-> _]]).
  by destruct (owners r).
Qed.

Lemma wf_request_sorted r : wf_request r -> owners_sorted (owners r).
Proof. intros [_ Hl]. destruct (owners r) as [|o [|]]; simplify_eq/=. repeat constructor. Qed.

Lemma wf_request_owner r :
  wf_request r -> exists o, owners r = [o] /\ the_owner r = Some o.
Proof.
  intros [_ Hl]. unfold the_owner. destruct (owners r) as [|o [|]]; simplify_eq/=. eauto.
Qed.

Lemma unlocking_request r : wf_request r -> unlocking r = bool_decide (type r = kUnlock).
Proof.
  intros [_ Hl]. unfold unlocking. rewrite Hl. simpl. by rewrite orb_false_r.
Qed.

Lemma wf_table_app l1 l2 :
  wf_table (l1 ++ l2) <->
  wf_table l1 /\ wf_table l2 /\ (forall a b, a ∈ l1 -> b ∈ l2 -> before a b).
Proof. unfold wf_table. rewrite Forall_app, StronglySorted_app. naive_solver. Qed.

Lemma wf_table_cons r l :
  wf_table (r :: l) <-> wf_range r /\ wf_table l /\ (forall b, b ∈ l -> before r b).
Proof. unfold wf_table. rewrite Forall_cons, StronglySorted_cons, (Forall_forall (before r)). naive_solver. Qed.

Lemma wf_table_singleton r : wf_range r -> wf_table [r].
Proof. intros. apply wf_table_cons. split_and!; [done|by repeat constructor|set_solver]. Qed.

Lemma owners_length_size os : owners_sorted os -> length os = size (owner_set os).
Proof.
  intros S%(key_sorted_NoDup okey okey_lt). unfold key_set.
  by rewrite size_list_to_set, length_fmap.
Qed.

(** Cutting a stored range keeps it well-formed. *)
Lemma wf_range_cut r s e :
  wf_range r -> s < e -> wf_range (set_start s (set_end e r)).
Proof. intros (_ & ? & ? & ?) ?. by split_and!. Qed.

(** ** The loop of insert() *)

(** What the assertion in the loop allows for a stored range the request overlaps. *)
Definition compatible (range other : LockRange) : bool :=
  owners_eqb (owners range) (owners other) || (shared range && shared other) || unlocking range.

Lemma absorb_total range same piece :
  wf_request range -> exists piece', absorb range same piece = Some piece'.
Proof.
  intros (o & _ & Ho)%wf_request_owner. unfold absorb. rewrite Ho.
  destruct same; [eauto|]. destruct (unlocking range); eauto.
Qed.

Lemma absorb_bounds range same piece piece' :
  absorb range same piece = Some piece' -> start piece' = start piece /\ end_ piece' = end_ piece.
Proof.
  unfold absorb, eraseOwner. intros. repeat case_match; simplify_eq; done.
Qed.

Lemma wf_range_not_kUnlock r : wf_range r -> bool_decide (type r = kUnlock) = false.
Proof. intros (_ & Ht & _). apply bool_decide_eq_false_2. by destruct Ht as [->|[-> _]]. Qed.

Lemma no_owners_iff os : (length os =? 0)%nat = bool_decide (owner_set os = ∅).
Proof.
  destruct (decide (owner_set os = ∅)) as [E|E].
  - rewrite bool_decide_eq_true_2 by done. apply owner_set_empty in E. by rewrite E.
  - rewrite bool_decide_eq_false_2 by done. rewrite owner_set_empty in E. by destruct os.
Qed.

Lemma owner_set_request r o : owners r = [o] -> owner_set (owners r) = {[okey o]}.
Proof. intros ->. unfold key_set. simpl. apply (right_id_L ∅ (∪)). Qed.

(** The absorbed piece shows exactly the overlay of the request, or is dropped. *)
Lemma absorb_view range piece piece' :
  wf_request range -> wf_range piece ->
  absorb range (owners_eqb (owners range) (owners piece)) piece = Some piece' ->
  overlay range (Some (view piece)) = if unlocking piece' then None else Some (view piece').
Proof.
  intros Hr Hp. pose proof Hp as (_ & _ & Hne & Sp).
  pose proof (wf_request_sorted _ Hr) as Sr.
  destruct (wf_request_owner _ Hr) as (o & Eo & Ho).
  pose proof (owners_eqb_spec _ _ Sr Sp) as Hsame. rewrite <- owner_set_empty in Hne.
  unfold absorb, overlay, view. rewrite Ho.
  destruct (owners_eqb (owners range) (owners piece)).
  - rewrite decide_True by (symmetry; by apply Hsame). intros [= <-]. unfold unlocking at 2.
    rewrite (unlocking_request _ Hr), no_owners_iff. simpl.
    by rewrite (bool_decide_eq_false_2 (owner_set _ = ∅)), orb_false_r by done.
  - rewrite decide_False by (intros E; symmetry in E; apply Hsame in E; done).
    destruct (unlocking range) eqn:Eu; intros [= <-]; unfold unlocking; rewrite no_owners_iff.
    + assert (type (eraseOwner o piece) = type piece) as ->
        by (unfold eraseOwner; repeat case_match; done).
      rewrite eraseOwner_set, (owner_set_request _ _ Eo), (wf_range_not_kUnlock _ Hp) by done.
      rewrite bool_decide_eq_false_2; [done|].
      intros E%difference_singleton_empty; [|done]. rewrite <- (owner_set_request _ _ Eo) in E.
      symmetry in E. by apply Hsame in E.
    + rewrite addOwners_set. simpl. rewrite (wf_range_not_kUnlock _ Hp).
      rewrite bool_decide_eq_false_2; [done|]. intros [? _]%empty_union_L. done.
Qed.

Lemma absorb_wf range piece piece' :
  wf_request range -> wf_range piece -> compatible range piece = true ->
  absorb range (owners_eqb (owners range) (owners piece)) piece = Some piece' ->
  unlocking piece' = false -> wf_range piece'.
Proof.
  intros Hr Hp Hc Ha Hu. pose proof Hp as (Hb & Ht & Hne & Sp).
  pose proof (wf_request_sorted _ Hr) as Sr.
  destruct (wf_request_owner _ Hr) as (o & Eo & Ho).
  unfold unlocking in Hu. apply orb_false_iff in Hu as [Hu1%bool_decide_eq_false Hu2%Nat.eqb_neq].
  rewrite length_zero_iff_nil in Hu2. destruct (absorb_bounds _ _ _ _ Ha) as [Es Ee].
  unfold wf_range. rewrite Es, Ee. unfold absorb, compatible in Ha, Hc. rewrite Ho in Ha.
  destruct (owners_eqb _ _) eqn:E; [|destruct (unlocking range) eqn:Eu]; simplify_eq/=.
  - apply owners_eqb_fmap in E. split_and!; [done| |done|done].
    destruct Hr as [[?|[?|?]] Hl]; [done|by left|right]. split; [done|].
    by rewrite <- (length_fmap okey), <- E, length_fmap.
  - assert (type (eraseOwner o piece) = type piece) as ->
      by (unfold eraseOwner; repeat case_match; done).
    split_and!; [done| |done|by apply eraseOwner_sorted].
    destruct Ht as [?|[? Hl]]; [by left|right]. split; [done|].
    pose proof (eraseOwner_sorted o piece Sp) as S'.
    pose proof (owners_length_size _ S') as L'. rewrite eraseOwner_set in L' by done.
    rewrite owners_length_size in Hl by done.
    assert (size (owner_set (owners piece) ∖ {[okey o]}) <= size (owner_set (owners piece)))%nat
      as Hle by (apply subseteq_size, subseteq_difference_l, reflexivity).
    destruct (owners (eraseOwner o piece)); [done|]. simpl in *. lia.
  - apply orb_true_iff in Hc as [Hc|Hc]; [|done]. apply andb_true_iff in Hc as [_ Hs].
    apply bool_decide_eq_true in Hs.
    split_and!; [done|by left|done|by apply (addOwners_sorted (owners range) piece)].
Qed.

Abbreviation live := (remove_if unlocking).

Lemma live_singleton r : live [r] = if unlocking r then [] else [r].
Proof. unfold remove_if. simpl. by destruct (unlocking r). Qed.

Lemma wf_table_live l : wf_table l -> live l = l.
Proof.
  intros [HF _]. apply remove_if_all_false. eapply Forall_impl; [exact HF|].
  simpl. apply wf_range_unlocking.
Qed.

(** The request laid over the table: the specification of insert(). *)
Definition overlaid (range : LockRange) (h : Z -> option (LockType * gset (Z * Z))) (x : Z)
  : option (LockType * gset (Z * Z)) :=
  if covers x range then overlay range (h x) else h x.

(** The loop invariant. [l] are the live elements already passed, [t] the elements still in the
    window, [suf] those behind it. What remains of the request, laid over all of them, is the
    target. *)
Record insert_inv (target : Z -> option (LockType * gset (Z * Z)))
    (range : LockRange) (l t suf : list LockRange) : Prop := {
  inv_request : wf_request range;
  inv_l : wf_table l;
  inv_t : wf_table (t ++ suf);
  inv_mid : forall a b, a ∈ l -> b ∈ t ++ suf -> before a b;
  inv_left : start range < end_ range -> forall a, a ∈ l -> end_ a <= start range;
  inv_suf : forall b, b ∈ suf -> end_ range <= start b;
  inv_compat : forall o, o ∈ t -> overlaps range o = true -> compatible range o = true;
  inv_view : forall x, overlaid range (holders (l ++ t ++ suf)) x = target x;
}.

Lemma holders_insert l o r x :
  (forall a, a ∈ l -> end_ a <= start o) ->
  holders (l ++ o :: r) x = if covers x o then Some (view o) else holders (l ++ r) x.
Proof.
  intros Hl. rewrite !holders_app, holders_cons. destruct (covers x o) eqn:E; [|done].
  rewrite holders_left; [done|]. intros a Ha%Hl. unfold covers in E. lia.
Qed.

Lemma holders_gap l r x :
  (forall a, a ∈ l -> end_ a <= x) -> (forall b, b ∈ r -> x < start b) ->
  holders (l ++ r) x = None.
Proof. intros Hl Hr. by rewrite holders_app, holders_left, holders_right. Qed.

Lemma holders_live_insert l p r x :
  (forall a, a ∈ l -> end_ a <= start p) ->
  holders ((l ++ live [p]) ++ r) x =
    if covers x p && negb (unlocking p) then Some (view p) else holders (l ++ r) x.
Proof.
  intros Hl. rewrite <- app_assoc, live_singleton. destruct (unlocking p); simpl.
  - by rewrite andb_false_r.
  - rewrite andb_true_r. by apply holders_insert.
Qed.

Lemma elem_of_snoc_live a l p : a ∈ l ++ live [p] -> a ∈ l \/ a = p.
Proof.
  rewrite elem_of_app, live_singleton. destruct (unlocking p); set_solver.
Qed.

Lemma wf_table_snoc_live l p :
  wf_table l -> (unlocking p = false -> wf_range p) -> (forall a, a ∈ l -> end_ a <= start p) ->
  wf_table (l ++ live [p]).
Proof.
  intros Hl Hp Hb. apply wf_table_app. rewrite live_singleton.
  destruct (unlocking p) eqn:E; (split_and!; [done| |]).
  - by repeat constructor.
  - set_solver.
  - auto using wf_table_singleton.
  - intros a b Ha ->%list_elem_of_singleton. by apply Hb.
Qed.

Section step.
Context (target : Z -> option (LockType * gset (Z * Z))).
Context (range other : LockRange) (l rest suf : list LockRange).
Context (Inv : insert_inv target range l (other :: rest) suf).
Context (Hloop : start range < end_ range).

Lemma step_other_wf : wf_range other.
Proof. pose proof (inv_t _ _ _ _ _ Inv) as H. by apply wf_table_cons in H as [? _]. Qed.

Lemma step_rest_wf : wf_table (rest ++ suf).
Proof. pose proof (inv_t _ _ _ _ _ Inv) as H. by apply wf_table_cons in H as (_ & ? & _). Qed.

Lemma step_before_rest b : b ∈ rest ++ suf -> end_ other <= start b.
Proof.
  pose proof (inv_t _ _ _ _ _ Inv) as H. apply wf_table_cons in H as (_ & _ & Hb). apply Hb.
Qed.

Lemma step_after_l a : a ∈ l -> end_ a <= start other /\ end_ a <= start range.
Proof.
  intros Ha. split; [|by apply (inv_left _ _ _ _ _ Inv)].
  apply (inv_mid _ _ _ _ _ Inv); [done|]. by left.
Qed.

Lemma step_l_rest a b : a ∈ l -> b ∈ rest ++ suf -> end_ a <= start b.
Proof. intros ? ?. apply (inv_mid _ _ _ _ _ Inv); [done|]. by right. Qed.

Lemma step_before_suf b : b ∈ suf -> end_ range <= start b /\ end_ other <= start b.
Proof.
  intros Hb. split; [by apply (inv_suf _ _ _ _ _ Inv)|].
  apply step_before_rest, elem_of_app. by right.
Qed.

Lemma step_rest_bounds o :
  o ∈ rest -> end_ other <= start o /\ start o < end_ o /\ start other < end_ other.
Proof.
  intros Ho. assert (o ∈ rest ++ suf) as Ho' by (apply elem_of_app; by left).
  pose proof (proj1 step_rest_wf) as HF. rewrite Forall_forall in HF.
  destruct (HF o Ho') as [? _]. destruct step_other_wf as [? _].
  split_and!; [by apply step_before_rest|done|done].
Qed.

(** Compatibility carries over to a request that overlaps no more of the rest. *)
Lemma step_compat r :
  type r = type range -> owners r = owners range ->
  (forall o, o ∈ rest -> overlaps r o = true -> overlaps range o = true) ->
  forall o, o ∈ rest -> overlaps r o = true -> compatible r o = true.
Proof.
  intros Et Eo Hov o Ho Hr. assert (compatible r o = compatible range o) as ->.
  { unfold compatible, shared, unlocking. by rewrite Et, Eo. }
  apply (inv_compat _ _ _ _ _ Inv); [by right|auto].
Qed.

(** The view before the iteration, as a function of the head of the window. *)
Lemma step_view x :
  target x =
    if covers x range then
      overlay range (if covers x other then Some (view other) else holders (l ++ rest ++ suf) x)
    else if covers x other then Some (view other) else holders (l ++ rest ++ suf) x.
Proof.
  rewrite <- (inv_view _ _ _ _ _ Inv x). unfold overlaid. simpl.
  rewrite holders_insert; [done|]. intros a Ha. by apply step_after_l.
Qed.

Lemma step_gap x :
  start other <= x -> x < end_ other -> holders (l ++ rest ++ suf) x = None.
Proof.
  intros ? ?. apply holders_gap.
  - intros a [? _]%step_after_l. lia.
  - intros b ?%step_before_rest. lia.
Qed.

Lemma merge_inv :
  sticks range other = true -> owners_eqb (owners range) (owners other) = true ->
  type range = type other ->
  insert_inv target
    (set_end (Z.max (end_ range) (end_ other))
      (set_start (Z.min (start range) (start other)) range))
    l rest suf.
Proof.
  intros Hst Hsame Ht. pose proof step_other_wf as Ho. pose proof Ho as (Hb & _ & _ & So).
  pose proof (inv_request _ _ _ _ _ Inv) as Hreq.
  apply owners_eqb_spec in Hsame; [|by apply wf_request_sorted|done].
  unfold sticks in Hst. split; simpl.
  - done.
  - apply (inv_l _ _ _ _ _ Inv).
  - apply step_rest_wf.
  - intros a b. apply step_l_rest.
  - intros _ a Ha%step_after_l. lia.
  - intros b Hb'%step_before_suf. lia.
  - apply step_compat; [done..|]. intros o Ho'%step_rest_bounds. unfold overlaps. simpl. lia.
  - intros x. rewrite (step_view x). unfold overlaid. simpl.
    destruct (covers x other) eqn:Eo.
    + assert (covers x range = false) as -> by (unfold covers in *; lia).
      assert (covers x (set_end (Z.max (end_ range) (end_ other))
                (set_start (Z.min (start range) (start other)) range)) = true) as ->
        by (unfold covers in *; simpl; lia).
      rewrite step_gap by (unfold covers in *; lia). simpl.
      assert (unlocking (set_end (Z.max (end_ range) (end_ other))
                (set_start (Z.min (start range) (start other)) range)) = false) as ->.
      { unfold unlocking. simpl. rewrite Ht, (wf_range_not_kUnlock _ Ho), no_owners_iff, Hsame.
        rewrite <- no_owners_iff. destruct Ho as (_ & _ & ? & _). by destruct (owners other). }
      unfold view. simpl. by rewrite Ht, Hsame.
    + assert (covers x (set_end (Z.max (end_ range) (end_ other))
                (set_start (Z.min (start range) (start other)) range)) = covers x range) as ->
        by (unfold covers in *; simpl; lia).
      done.
Qed.

Lemma skip_inv :
  end_ other <= start range -> insert_inv target range (l ++ [other]) rest suf.
Proof.
  intros Hle. pose proof step_other_wf as Ho. split.
  - apply Inv.
  - apply wf_table_app. split_and!; [apply Inv|by apply wf_table_singleton|].
    intros a b Ha ->%list_elem_of_singleton. by apply step_after_l.
  - apply step_rest_wf.
  - intros a b [Ha| ->%list_elem_of_singleton]%elem_of_app Hb.
    + by apply step_l_rest.
    + by apply step_before_rest.
  - intros _ a [Ha| ->%list_elem_of_singleton]%elem_of_app; [by apply step_after_l|done].
  - apply Inv.
  - intros o Hin. apply (inv_compat _ _ _ _ _ Inv). by right.
  - intros x. rewrite <- app_assoc. apply (inv_view _ _ _ _ _ Inv x).
Qed.

Lemma fill_inv :
  start range < start other -> start other < end_ range ->
  insert_inv target (set_start (start other) range)
    (l ++ live [set_end (start other) range]) (other :: rest) suf.
Proof.
  intros Hlt Hov. pose proof (inv_request _ _ _ _ _ Inv) as Hreq.
  assert (forall a, a ∈ l -> end_ a <= start (set_end (start other) range)) as Hl
    by (intros a Ha; by apply step_after_l).
  split.
  - done.
  - apply wf_table_snoc_live; [apply Inv| |done]. intros Hu.
    destruct (wf_request_owner _ Hreq) as (o & Eo & _).
    destruct Hreq as [Ht Hn]. split_and!; simpl; [done| |by rewrite Eo|].
    + destruct Ht as [Ht|[Ht|Ht]]; [|by left|by right].
      unfold unlocking in Hu. simpl in Hu. by rewrite Ht in Hu.
    + by apply wf_request_sorted.
  - apply Inv.
  - intros a b [Ha| ->]%elem_of_snoc_live Hb.
    + by apply (inv_mid _ _ _ _ _ Inv).
    + unfold before. simpl. apply elem_of_cons in Hb as [->|Hb]; [done|].
      pose proof (step_before_rest _ Hb). destruct step_other_wf as [? _]. lia.
  - simpl. intros _ a [Ha| ->]%elem_of_snoc_live; [by apply step_after_l|done].
  - apply Inv.
  - intros o Hin Ho. apply (inv_compat _ _ _ _ _ Inv o Hin). unfold overlaps in *. simpl in Ho. lia.
  - intros x. rewrite <- (inv_view _ _ _ _ _ Inv x). unfold overlaid.
    rewrite holders_live_insert by done.
    assert (forall c, overlay (set_start (start other) range) c = overlay range c) as -> by done.
    change (unlocking (set_end (start other) range)) with (unlocking range).
    destruct (covers x (set_end (start other) range)) eqn:Et; simpl.
    + assert (covers x range = true) as -> by (unfold covers in *; simpl in *; lia).
      assert (covers x (set_start (start other) range) = false) as ->
        by (unfold covers in *; simpl in *; lia).
      assert (holders (l ++ other :: rest ++ suf) x = None) as ->.
      { apply holders_gap.
        - intros a [_ ?]%step_after_l. unfold covers in *. simpl in *. lia.
        - intros b [->|Hb%step_before_rest]%elem_of_cons; unfold covers in *; simpl in *; [lia|].
          destruct step_other_wf as [? _]. lia. }
      simpl. by destruct (unlocking range).
    + assert (covers x (set_start (start other) range) = covers x range) as ->
        by (unfold covers in *; simpl in *; lia).
      done.
Qed.

Lemma cut_inv :
  start other < start range -> start range < end_ other ->
  insert_inv target range (l ++ [set_end (start range) other])
    (set_start (start range) other :: rest) suf.
Proof.
  intros Hlt Hov. pose proof step_other_wf as Ho.
  assert (wf_range (set_end (start range) other)) as Hw1
    by (apply (wf_range_cut other (start other) (start range)); done).
  assert (wf_range (set_start (start range) other)) as Hw2
    by (apply (wf_range_cut other (start range) (end_ other)); done).
  assert (forall a, a ∈ l -> end_ a <= start (set_end (start range) other)) as Hl
    by (intros a Ha; by apply step_after_l).
  split.
  - apply Inv.
  - apply wf_table_app. split_and!; [apply Inv|by apply wf_table_singleton|].
    intros a b Ha ->%list_elem_of_singleton. by apply Hl.
  - apply wf_table_cons. split_and!; [done|apply step_rest_wf|]. apply step_before_rest.
  - intros a b Ha [->|Hb]%elem_of_cons.
    + apply elem_of_app in Ha as [[_ ?]%step_after_l| ->%list_elem_of_singleton];
        unfold before; simpl; lia.
    + apply elem_of_app in Ha as [Ha| ->%list_elem_of_singleton]; [by apply step_l_rest|].
      unfold before. simpl. pose proof (step_before_rest _ Hb). lia.
  - intros _ a [Ha| ->%list_elem_of_singleton]%elem_of_app; [by apply step_after_l|done].
  - apply Inv.
  - intros o [->|Hin]%elem_of_cons Hr.
    + apply (inv_compat _ _ _ _ _ Inv other); [by left|]. unfold overlaps in *. simpl in Hr. lia.
    + apply (inv_compat _ _ _ _ _ Inv o); [by right|done].
  - intros x. rewrite (step_view x). unfold overlaid. rewrite <- app_assoc. simpl.
    rewrite holders_insert, holders_insert by (simpl; intros a Ha; by apply step_after_l).
    destruct (covers x (set_end (start range) other)) eqn:E1;
      destruct (covers x (set_start (start range) other)) eqn:E2;
      destruct (covers x other) eqn:E3; unfold covers in *; simpl in *; done || lia.
Qed.

(** The two cases in which the covered part of [other] absorbs the request: [piece'] replaces
    [other] on [start other, e). *)
Lemma absorb_view_at piece' e x :
  start range = start other -> e <= end_ range -> e <= end_ other ->
  absorb range (owners_eqb (owners range) (owners other)) (set_end e other) = Some piece' ->
  start other <= x < e ->
  target x = if unlocking piece' then None else Some (view piece').
Proof.
  intros Es Her Heo Ha Hx. rewrite (step_view x).
  assert (covers x range = true) as -> by (unfold covers; lia).
  assert (covers x other = true) as -> by (unfold covers; lia).
  change (view other) with (view (set_end e other)).
  apply absorb_view; [apply Inv| |done].
  apply (wf_range_cut other (start other) e); [apply step_other_wf|lia].
Qed.

Lemma absorb_done_wf piece' e :
  start range = start other -> start other < e -> e <= end_ range -> e <= end_ other ->
  absorb range (owners_eqb (owners range) (owners other)) (set_end e other) = Some piece' ->
  wf_table (l ++ live [piece']) /\
  (forall a, a ∈ l ++ live [piece'] -> end_ a <= e).
Proof.
  intros Es Hse Her Heo Ha. destruct (absorb_bounds _ _ _ _ Ha) as [Es' Ee']. simpl in *.
  split.
  - apply wf_table_snoc_live; [apply Inv| |].
    + intros Hu. apply (absorb_wf range (set_end e other)); [apply Inv| | |done|done].
      * apply (wf_range_cut other (start other) e); [apply step_other_wf|lia].
      * apply (inv_compat _ _ _ _ _ Inv other); [by left|]. unfold overlaps.
        pose proof step_other_wf as [? _]. lia.
    + intros a Ha'%step_after_l. lia.
  - intros a [Ha'%step_after_l| ->]%elem_of_snoc_live; lia.
Qed.

Lemma part_inv piece' :
  start range = start other -> end_ range < end_ other ->
  absorb range (owners_eqb (owners range) (owners other)) (set_end (end_ range) other)
    = Some piece' ->
  insert_inv target (set_start (end_ other) range)
    (l ++ live [piece']) (set_start (end_ range) other :: rest) suf.
Proof.
  intros Es He Ha. pose proof step_other_wf as Ho.
  destruct (absorb_done_wf piece' (end_ range)) as [Hw Hend]; [lia..|done|].
  destruct (absorb_bounds _ _ _ _ Ha) as [Es' Ee']. simpl in Es', Ee'.
  split; simpl.
  - apply Inv.
  - done.
  - apply wf_table_cons. split_and!; [|apply step_rest_wf|apply step_before_rest].
    apply (wf_range_cut other (end_ range) (end_ other)); done.
  - intros a b Ha'%Hend [->|Hb%step_before_rest]%elem_of_cons; unfold before; simpl; lia.
  - lia.
  - apply Inv.
  - intros o [->|Ho'%step_rest_bounds]%elem_of_cons Hr; unfold overlaps in Hr; simpl in Hr; lia.
  - intros x. unfold overlaid.
    assert (covers x (set_start (end_ other) range) = false) as ->
      by (unfold covers; simpl; lia).
    rewrite holders_insert by (intros a Ha'%Hend; simpl; lia).
    rewrite holders_live_insert by (intros a Ha'%step_after_l; lia).
    destruct (decide (start other <= x < end_ range)) as [Hx|Hx].
    + rewrite (absorb_view_at piece' (end_ range) x) by (done || lia).
      assert (covers x (set_start (end_ range) other) = false) as -> by (unfold covers; simpl; lia).
      assert (covers x piece' = true) as -> by (unfold covers; lia).
      rewrite step_gap by lia. by destruct (unlocking piece').
    + rewrite (step_view x). assert (covers x range = false) as -> by (unfold covers; lia).
      assert (covers x piece' = false) as -> by (unfold covers; lia). simpl.
      assert (covers x (set_start (end_ range) other) = covers x other) as ->
        by (unfold covers; simpl; lia).
      done.
Qed.

Lemma whole_inv piece' :
  start range = start other -> end_ other <= end_ range ->
  absorb range (owners_eqb (owners range) (owners other)) other = Some piece' ->
  insert_inv target (set_start (end_ other) range) (l ++ live [piece']) rest suf.
Proof.
  intros Es He Ha. pose proof step_other_wf as Ho. pose proof Ho as [Hb _].
  assert (set_end (end_ other) other = other) as Eother by (by destruct other).
  rewrite <- Eother in Ha at 2.
  destruct (absorb_done_wf piece' (end_ other)) as [Hw Hend]; [lia..|done|].
  destruct (absorb_bounds _ _ _ _ Ha) as [Es' Ee']. simpl in Es', Ee'.
  split; simpl.
  - apply Inv.
  - done.
  - apply step_rest_wf.
  - intros a b Ha'%Hend Hb'%step_before_rest; unfold before; lia.
  - intros _ a. apply Hend.
  - intros b Hb'%step_before_suf. lia.
  - apply step_compat; [done..|]. intros o Ho'%step_rest_bounds. unfold overlaps. simpl. lia.
  - intros x. unfold overlaid. simpl.
    rewrite holders_live_insert by (intros a Ha'%step_after_l; lia).
    destruct (decide (start other <= x < end_ other)) as [Hx|Hx].
    + rewrite (absorb_view_at piece' (end_ other) x) by (done || lia).
      assert (covers x (set_start (end_ other) range) = false) as -> by (unfold covers; simpl; lia).
      assert (covers x piece' = true) as -> by (unfold covers; lia).
      rewrite step_gap by lia. by destruct (unlocking piece').
    + rewrite (step_view x). assert (covers x other = false) as -> by (unfold covers; lia).
      assert (covers x piece' = false) as -> by (unfold covers; lia). simpl.
      assert (covers x (set_start (end_ other) range) = covers x range) as ->
        by (unfold covers; simpl; lia).
      done.
Qed.
End step.

(** ** The whole loop *)

Definition state_inv target (pre suf : list LockRange) (st : insert_state) : Prop :=
  insert_inv target (ist_range st) (pre ++ live (ist_done st)) (ist_todo st) suf.

(** Iterations left: two per element of the window, one when the head starts with the request. *)
Definition insert_measure (st : insert_state) : nat :=
  if start (ist_range st) <? end_ (ist_range st) then
    (2 * length (ist_todo st) +
     match ist_todo st with
     | o :: _ => if (start (ist_range st) =? start o)%Z then 0 else 1
     | [] => 0
     end)%nat
  else 0%nat.

(** When the loop stops, nothing of the window is left in front of the rest of the request. *)
Definition stopped (st : insert_state) : Prop :=
  start (ist_range st) < end_ (ist_range st) ->
  forall b, b ∈ ist_todo st -> end_ (ist_range st) <= start b.

Lemma live_snoc d p : live (d ++ [p]) = live d ++ live [p].
Proof. apply remove_if_app. Qed.

Lemma live_wf_singleton r : wf_range r -> live [r] = [r].
Proof. intros H. by rewrite live_singleton, wf_range_unlocking. Qed.

Lemma insert_step_ok target pre suf st :
  state_inv target pre suf st ->
  match insert_step st with
  | Continue st' => state_inv target pre suf st' /\ (insert_measure st' < insert_measure st)%nat
  | Stop => stopped st
  | AssertFailed => False
  end.
Proof.
  destruct st as [range d [|other rest]]; unfold state_inv, insert_step, stopped; simpl.
  { intros _ _ b Hb. by apply elem_of_nil in Hb. }
  intros Inv. destruct (Z.ltb_spec (start range) (end_ range)) as [Hloop|]; simpl; [|lia].
  pose proof (step_other_wf _ _ _ _ _ _ Inv) as Ho.
  pose proof (inv_request _ _ _ _ _ Inv) as Hreq. pose proof Ho as [Hb _].
  set (same := owners_eqb (owners range) (owners other)).
  unfold insert_measure; simpl. rewrite (proj2 (Z.ltb_lt _ _) Hloop).
  destruct (sticks range other && same && bool_decide (type range = type other)) eqn:Em.
  { apply andb_true_iff in Em as [[Em1 Em2]%andb_true_iff Em3%bool_decide_eq_true].
    simpl. rewrite live_snoc, live_singleton, app_nil_r. simpl.
    split; [by apply (merge_inv _ _ other)|]. repeat case_match; simpl; lia. }
  clear Em. destruct (Z.leb_spec (end_ range) (start other)) as [Hle|Hgt].
  { intros _ b [->|Hb']%elem_of_cons; [done|].
    assert (end_ other <= start b); [|lia].
    apply (step_before_rest _ _ _ _ _ _ Inv), elem_of_app. by left. }
  destruct (overlaps range other) eqn:Eov; simpl.
  2: { rewrite live_snoc, live_wf_singleton, app_assoc by done. unfold overlaps in Eov.
       split; [apply (skip_inv _ _ other); [done..|lia]|]. repeat case_match; simpl; lia. }
  assert (compatible range other = true) as Hc
    by (apply (inv_compat _ _ _ _ _ Inv); [by left|done]).
  unfold compatible in Hc. fold same in Hc. rewrite Hc. simpl. unfold overlaps in Eov.
  destruct (Z.ltb_spec (start range) (start other)) as [Hlt|Hge]; simpl.
  { rewrite live_snoc, app_assoc. split; [by apply fill_inv|].
    rewrite (proj2 (Z.ltb_lt _ _) Hgt), Z.eqb_refl, (proj2 (Z.eqb_neq _ _)) by lia. lia. }
  destruct (Z.eqb_spec (start range) (start other)) as [Heq|Hne].
  - destruct (Z.ltb_spec (end_ range) (end_ other)) as [Hel|Heg].
    + destruct (absorb_total range same (set_end (end_ range) other) Hreq) as [p Hp].
      rewrite Hp. simpl. rewrite live_snoc, app_assoc. split; [by apply part_inv|].
      rewrite (proj2 (Z.ltb_ge _ _)) by lia. lia.
    + destruct (absorb_total range same other Hreq) as [p Hp].
      rewrite Hp. simpl. rewrite live_snoc, app_assoc. split; [by apply whole_inv|].
      repeat case_match; simpl; lia.
  - simpl. rewrite live_snoc, app_assoc, live_wf_singleton.
    + split; [apply cut_inv; [done..|lia|lia]|].
      rewrite (proj2 (Z.ltb_lt _ _) Hloop), Z.eqb_refl. lia.
    + apply (wf_range_cut other (start other) (start range)); [done|lia].
Qed.

Lemma insert_loop_ok target pre suf fuel st :
  state_inv target pre suf st -> (insert_measure st < fuel)%nat ->
  exists st', insert_loop fuel st = Finished st' /\ state_inv target pre suf st' /\ stopped st'.
Proof.
  revert st. induction fuel as [|fuel IH]; intros st Inv Hm; [lia|]. simpl.
  pose proof (insert_step_ok _ _ _ _ Inv) as Hstep.
  destruct (insert_step st) as [st'| |]; [|by eauto|done].
  destruct Hstep as [Inv' Hm']. apply IH; [done|lia].
Qed.

Lemma insert_measure_fuel range todo :
  (insert_measure (MkInsert range [] todo) < insert_fuel todo)%nat.
Proof. unfold insert_measure, insert_fuel. simpl. repeat case_match; simpl; lia. Qed.

Lemma insert_final target pre suf st :
  state_inv target pre suf st -> stopped st ->
  let range := ist_range st in
  let left := if start range <? end_ range then [range] else [] in
  let data := pre ++ live (ist_done st ++ left ++ ist_todo st) ++ suf in
  wf_table data /\ forall x, holders data x = target x.
Proof.
  intros Inv Hstop. destruct st as [range d t]. unfold state_inv, stopped in *. simpl in *.
  pose proof (inv_t _ _ _ _ _ Inv) as Ht. pose proof Ht as (Ht' & _ & _)%wf_table_app.
  rewrite !remove_if_app, (wf_table_live t Ht').
  destruct (Z.ltb_spec (start range) (end_ range)) as [Hlt|Hge].
  - specialize (Hstop Hlt).
    assert (forall b, b ∈ t ++ suf -> end_ range <= start b) as Hright.
    { intros b [Hb|Hb]%elem_of_app; [auto|by apply (inv_suf _ _ _ _ _ Inv)]. }
    assert (forall a, a ∈ pre ++ live d -> end_ a <= start range) as Hleft
      by (by apply (inv_left _ _ _ _ _ Inv)).
    replace (pre ++ (live d ++ live [range] ++ t) ++ suf)
      with (((pre ++ live d) ++ live [range]) ++ t ++ suf) by (by rewrite <- !app_assoc).
    split.
    + apply wf_table_app. split_and!; [|done|].
      * apply wf_table_snoc_live; [apply Inv| |done]. intros Hu.
        pose proof (inv_request _ _ _ _ _ Inv) as Hreq. pose proof Hreq as [Hty Hn].
        rewrite unlocking_request in Hu by done. apply bool_decide_eq_false in Hu.
        split_and!; [done|naive_solver| |by apply wf_request_sorted].
        by destruct (owners range).
      * intros a b [Ha| ->]%elem_of_snoc_live Hb; [by apply (inv_mid _ _ _ _ _ Inv)|].
        by apply Hright.
    + intros x. rewrite <- (inv_view _ _ _ _ _ Inv x), holders_live_insert by done.
      unfold overlaid. destruct (covers x range) eqn:E; [|done]. simpl. unfold covers in E.
      rewrite holders_gap; [simpl; by destruct (unlocking range)| |].
      * intros a Ha%Hleft. lia.
      * intros b Hb%Hright. lia.
  - replace (pre ++ (live d ++ live [] ++ t) ++ suf) with ((pre ++ live d) ++ t ++ suf)
      by (by rewrite <- !app_assoc). split.
    + apply wf_table_app. split_and!; [apply Inv|done|apply (inv_mid _ _ _ _ _ Inv)].
    + intros x. rewrite <- (inv_view _ _ _ _ _ Inv x). unfold overlaid.
      assert (covers x range = false) as -> by (unfold covers; lia). done.
Qed.

(** ** The two binary searches *)

Lemma partition_point_mono {A} (p q : A -> bool) l :
  (forall x, p x = true -> q x = true) -> (partition_point p l <= partition_point q l)%nat.
Proof.
  intros Hpq. induction l as [|x l IH]; simpl; [lia|].
  destruct (p x) eqn:E; [rewrite (Hpq _ E); lia|]. destruct (q x); lia.
Qed.

Section search.
Context (data : list LockRange) (range : LockRange) (Hwf : wf_table data).
Context (Hrange : start range <= end_ range).

Let s := search_start data (start range).
Let e := search_end data (end_ range).

Lemma search_start_le : (s <= partition_point (fun o => start o <? start range)%Z data)%nat.
Proof. unfold s, search_start. destruct (partition_point _ _); lia. Qed.

Lemma search_start_le_end : (s <= e)%nat.
Proof.
  etrans; [apply search_start_le|]. apply partition_point_mono. intros o. simpl. lia.
Qed.

Lemma search_split : data = take s data ++ search_window data range ++ drop e data.
Proof.
  unfold search_window. fold s e. pose proof search_start_le_end.
  rewrite <- (take_drop s data) at 1. f_equal.
  rewrite <- (take_drop (e - s)%nat (drop s data)) at 1. f_equal.
  rewrite drop_drop. f_equal. lia.
Qed.

(** Everything in front of the window ends before the request starts. *)
Lemma search_before a : a ∈ take s data -> end_ a <= start range.
Proof.
  intros Ha. unfold s, search_start in Ha.
  destruct (partition_point (fun o => start o <? start range) data) as [|k] eqn:Ek;
    [by apply elem_of_nil in Ha|].
  pose proof (partition_point_take (fun o => start o <? start range) data) as HF.
  rewrite Ek in HF. pose proof (partition_point_le (fun o => start o <? start range) data) as Hle.
  rewrite Ek in Hle. destruct (lookup_lt_is_Some_2 data k) as [m Hm]; [lia|].
  rewrite (take_S_r _ _ m) in HF by done. apply Forall_app in HF as [_ HF].
  apply Forall_cons in HF as [Hlt _]. apply Z.ltb_lt in Hlt.
  assert (before a m); [|unfold before in *; lia].
  destruct Hwf as [_ HS]. rewrite <- (take_drop_middle data k m Hm) in HS.
  apply StronglySorted_app in HS as (HS & _ & _). apply HS; [done|by left].
Qed.

(** Everything behind the window starts after the request ends. *)
Lemma search_after b : b ∈ drop e data -> end_ range < start b.
Proof.
  intros Hb. unfold e, search_end in Hb. remember (drop _ data) as tl eqn:Etl.
  destruct tl as [|m tl]; [by apply elem_of_nil in Hb|].
  pose proof (partition_point_drop (fun o => negb (end_ range <? start o)) data m tl
                (eq_sym Etl)) as Hm.
  simpl in Hm. apply elem_of_cons in Hb as [->|Hb]; [lia|].
  destruct Hwf as [HF HS].
  rewrite <- (take_drop (partition_point (fun o => negb (end_ range <? start o)) data) data),
    <- Etl in HS, HF.
  apply StronglySorted_app in HS as (_ & _ & HS). apply StronglySorted_inv in HS as [_ HB].
  rewrite Forall_forall in HB. specialize (HB b Hb). unfold before in HB.
  apply Forall_app in HF as [_ [[Hw _] _]%Forall_cons]. lia.
Qed.

Lemma search_window_overlap o : o ∈ data -> overlaps range o = true -> o ∈ search_window data range.
Proof.
  intros Ho Hov. rewrite search_split in Ho. unfold overlaps in Hov.
  apply elem_of_app in Ho as [Ho%search_before|[Ho|Ho%search_after]%elem_of_app]; [lia|done|lia].
Qed.
End search.

Lemma search_window_subset data range o : o ∈ search_window data range -> o ∈ data.
Proof. unfold search_window. intros Ho%subseteq_take%subseteq_drop. done. Qed.

Lemma owners_eqb_sym a b : owners_eqb a b = owners_eqb b a.
Proof.
  destruct (owners_eqb a b) eqn:E1, (owners_eqb b a) eqn:E2; try done.
  - apply owners_eqb_fmap in E1. symmetry in E1. apply owners_eqb_fmap in E1. congruence.
  - apply owners_eqb_fmap in E2. symmetry in E2. apply owners_eqb_fmap in E2. congruence.
Qed.

Lemma fits_compatible data range :
  wf_table data -> start range <= end_ range -> fits data range = true ->
  forall o, o ∈ data -> overlaps range o = true -> compatible range o = true.
Proof.
  intros Hwf Hle Hf o Ho Hov. unfold fits, findCollision in Hf. unfold compatible.
  destruct (unlocking range) eqn:Eu; [by rewrite orb_true_r|].
  destruct (List.find _ _) eqn:E; [done|]. apply find_None_iff in E.
  rewrite Forall_forall in E.
  specialize (E o (search_window_overlap _ _ Hwf Hle o Ho Hov)). unfold collides in E.
  rewrite Hov, owners_eqb_sym in E. destruct (owners_eqb _ _), (shared range), (shared o); done.
Qed.

Lemma holders_elem data o x :
  wf_table data -> o ∈ data -> covers x o = true -> holders data x = Some (view o).
Proof.
  intros Hwf Ho Hx. apply list_elem_of_split in Ho as (l1 & l2 & ->).
  apply wf_table_app in Hwf as (_ & _ & Hb). rewrite holders_insert, Hx; [done|].
  intros a Ha. apply Hb; [done|by left].
Qed.

Lemma holders_Some data x v :
  holders data x = Some v -> exists o, o ∈ data /\ covers x o = true /\ v = view o.
Proof.
  unfold holders. destruct (List.find _ _) as [o|] eqn:E; [|done]. intros [= <-].
  apply find_some in E as [Ho%list_elem_of_In Hx]. eauto.
Qed.

Lemma insert_ok data range :
  wf_table data -> wf_request range -> start range <= end_ range -> fits data range = true ->
  exists data', insert data range = Some data' /\ wf_table data' /\
    forall x, holders data' x = overlaid range (holders data) x.
Proof.
  intros Hwf Hreq Hle Hfit. pose proof (search_split data range Hle) as Hsplit.
  pose proof (search_start_le_end data range Hle) as Hse. unfold insert.
  rewrite Nat.max_r by done.
  set (s := search_start _ _) in *. set (e := search_end _ _) in *.
  set (w := search_window data range) in *.
  assert (state_inv (overlaid range (holders data)) (take s data) (drop e data)
            (MkInsert range [] w)) as Inv.
  { pose proof Hwf as Hwf'. rewrite Hsplit in Hwf'.
    apply wf_table_app in Hwf' as (Hpre & Hrest & Hmid).
    unfold state_inv. simpl. rewrite app_nil_r. split; try done.
    - intros _ a. by apply search_before.
    - intros b Hb%search_after; [lia|done..].
    - intros o Ho. apply (fits_compatible data); [done..|]. by eapply search_window_subset.
    - intros x. by rewrite <- Hsplit. }
  destruct (insert_loop_ok _ _ _ _ _ Inv (insert_measure_fuel range w))
    as (st & -> & Inv' & Hstop).
  destruct (insert_final _ _ _ _ Inv' Hstop) as [Hwf' Hview]. eauto.
Qed.

(** The condition under which a request may be granted, on the abstract view. *)
Definition grantable (range : LockRange) (h : Z -> option (LockType * gset (Z * Z))) : Prop :=
  forall x t os, covers x range = true -> h x = Some (t, os) ->
    (type range = kShared /\ t = kShared) \/ os = owner_set (owners range).

Lemma fits_grantable data range :
  wf_table data -> wf_request range -> start range < end_ range ->
  fits data range = true <-> (unlocking range = true \/ grantable range (holders data)).
Proof.
  intros Hwf Hreq Hlt. pose proof (wf_request_sorted _ Hreq) as Sr. split.
  - intros Hf. destruct (unlocking range) eqn:Eu; [by left|right]. intros x t os Hx Hh.
    apply holders_Some in Hh as (o & Ho & Hxo & [= -> ->]).
    assert (overlaps range o = true) as Hov by (unfold overlaps, covers in *; lia).
    assert (compatible range o = true) as Hc by (apply (fits_compatible data); [done|lia|done..]).
    unfold compatible in Hc.
    rewrite Eu, orb_false_r in Hc. destruct Hwf as [HF _]. rewrite Forall_forall in HF.
    apply orb_true_iff in Hc as [Hc|[H1 H2]%andb_true_iff].
    + right. symmetry. apply owners_eqb_spec; [done| |done]. by apply HF.
    + left. by apply bool_decide_eq_true in H1, H2.
  - intros Hg. unfold fits, findCollision. destruct (unlocking range) eqn:Eu; [done|].
    destruct Hg as [?|Hg]; [done|]. destruct (List.find _ _) as [o|] eqn:E; [|done].
    exfalso. apply find_some in E as [Ho Hc]. apply list_elem_of_In, search_window_subset in Ho.
    unfold collides in Hc. apply andb_true_iff in Hc as [Hov [Hs Hne]%andb_true_iff].
    pose proof Hwf as [HF _]. rewrite Forall_forall in HF. destruct (HF o Ho) as (Hb & _ & _ & So).
    set (x := Z.max (start range) (start o)). unfold overlaps in Hov.
    assert (covers x o = true) as Hxo by (unfold covers, x; lia).
    destruct (Hg x (type o) (owner_set (owners o))) as [[H1 H2]|Heq].
    + unfold covers, x. lia.
    + by apply holders_elem.
    + unfold shared in Hs. by rewrite !bool_decide_eq_true_2 in Hs.
    + apply owners_eqb_spec in Heq; [|done..]. by rewrite Heq in Hne.
Qed.

(** C3: For a table that is in order and a non-empty request of one owner that unlocks or that the
    holders of the bytes allow, insert() fails no assertion, terminates, keeps the table sorted,
    disjoint and well-formed, and changes what is held on every byte exactly as the request says:
    bytes outside the request keep their lock, covered bytes get the overlay of the request (take
    over or release the owner's own lock, join a shared lock, leave another owner's lock). *)
Theorem insert_refines data range :
  wf_table data -> wf_request range -> start range < end_ range ->
  unlocking range = true \/ grantable range (holders data) ->
  exists data', insert data range = Some data' /\ wf_table data' /\
    forall x, holders data' x = overlaid range (holders data) x.
Proof. intros ??? Hg%fits_grantable; [|done..]. apply insert_ok; [done..|lia|done]. Qed.

(** The collision check, which looks only at the window found by two binary searches, accepts a
    request iff it unlocks, or every byte it covers is free, held by the same owner alone, or
    both locks are shared. *)
Theorem fits_iff_grantable data range :
  wf_table data -> wf_request range -> start range < end_ range ->
  fits data range = true <-> (unlocking range = true \/ grantable range (holders data)).
Proof. apply fits_grantable. Qed.

(** ** Witnesses *)

Definition ex_owner (n : Z) : Owner := MkOwner n 1 0 0.

Definition ex_table : list LockRange :=
  [MkLock kShared 10 20 [ex_owner 1; ex_owner 2]; MkLock kExclusive 30 40 [ex_owner 3]].

Lemma wf_range_single t s e o :
  s < e -> t = kShared \/ t = kExclusive -> wf_range (Lock t s e o).
Proof. intros ? Ht. split_and!; simpl; [done|naive_solver|done|repeat constructor]. Qed.

Lemma ex_table_wf : wf_table ex_table.
Proof.
  apply wf_table_cons. split_and!.
  - split_and!; simpl; [lia|by left|done|]. repeat constructor.
  - apply wf_table_singleton, wf_range_single; [lia|by right].
  - intros b ->%list_elem_of_singleton. unfold before. simpl. lia.
Qed.

Definition ex_request : LockRange := Lock kShared 5 25 (ex_owner 3).

Lemma insert_refines_witness :
  exists data', insert ex_table ex_request = Some data' /\ wf_table data' /\
    forall x, holders data' x = overlaid ex_request (holders ex_table) x.
Proof.
  apply (insert_refines ex_table ex_request).
  - apply ex_table_wf.
  - split; [by right; left|reflexivity].
  - simpl. lia.
  - apply fits_grantable; [apply ex_table_wf|split; [by right; left|reflexivity]|simpl; lia|].
    vm_compute. reflexivity.
Defined.

Lemma fits_iff_grantable_witness :
  fits ex_table ex_request = true <->
  (unlocking ex_request = true \/ grantable ex_request (holders ex_table)).
Proof.
  apply (fits_iff_grantable ex_table ex_request).
  - apply ex_table_wf.
  - split; [by right; left|reflexivity].
  - simpl. lia.
Defined.
