(* ===== verification/FileLocks.v ===== *)
(** The lock tables of all files: [FileLocks], its active locks and its queues of waiting requests
    (src/master/locks.h, src/master/locks.cc).

    Operations, the invariant they keep, what a granted lock means, and the effect of an operation
    on everybody else. *)
From S2P Require Import Prelude LockRanges.

(** ** State *)

Record FileLocks := MkFileLocks {
  active_locks : gmap Z (list LockRange);
  pending_locks : gmap Z (list LockRange);
}.

Definition empty_locks : FileLocks := MkFileLocks ∅ ∅.

(** Both maps are std::unordered_map<uint32_t, ...>: an inode number is converted to 32 bits. *)
Definition ikey (inode : Z) : Z := u32 inode.

Definition set_active (a : gmap Z (list LockRange)) (fl : FileLocks) : FileLocks :=
  MkFileLocks a (pending_locks fl).
Definition set_pending (p : gmap Z (list LockRange)) (fl : FileLocks) : FileLocks :=
  MkFileLocks (active_locks fl) p.

(** ** Operations *)

(** Insertion of a request into a queue at the lower_bound of operator<. *)
Definition queue_insert (lock : LockRange) (queue : list LockRange) : list LockRange :=
  let it := partition_point (fun other => range_ltb other lock) queue in
  take it queue ++ lock :: drop it queue.

Definition enqueue (inode : Z) (lock : LockRange) (fl : FileLocks) : FileLocks :=
  let queue := default [] (pending_locks fl !! ikey inode) in
  set_pending (<[ikey inode := queue_insert lock queue]> (pending_locks fl)) fl.

(** apply(): the new state and whether the lock was placed; [None] is a failed assertion. *)
Definition apply_lock (inode : Z) (lock : LockRange) (nonblocking : bool) (fl : FileLocks)
  : option (FileLocks * bool) :=
  let k := ikey inode in
  let locks := default [] (active_locks fl !! k) in
  let fl1 := set_active (<[k := locks]> (active_locks fl)) fl in
  if fits locks lock then
    match insert locks lock with
    | None => None
    | Some locks' =>
      if (length locks' =? 0)%nat
      then Some (set_active (delete k (active_locks fl1)) fl1, true)
      else Some (set_active (<[k := locks']> (active_locks fl1)) fl1, true)
    end
  else if negb nonblocking && negb (unlocking lock)
       then Some (enqueue inode lock fl1, false)
       else Some (fl1, false).

Definition sharedLock inode s e (o : Owner) nonblocking :=
  apply_lock inode (Lock kShared s e o) nonblocking.

Definition exclusiveLock inode s e (o : Owner) nonblocking :=
  apply_lock inode (Lock kExclusive s e o) nonblocking.

(** unlock(inode, start, end, owner) *)
Definition unlock_range inode s e (o : Owner) :=
  apply_lock inode (Lock kUnlock s e o) false.

(** unlock(inode) *)
Definition unlock_inode (inode : Z) (fl : FileLocks) : FileLocks :=
  set_active (delete (ikey inode) (active_locks fl)) fl.

Definition find_collision (inode : Z) (t : LockType) (s e : Z) (o : Owner) (fl : FileLocks)
  : option LockRange :=
  match active_locks fl !! ikey inode with
  | None => None
  | Some locks => findCollision locks (Lock t s e o)
  end.

(** The lambda of unlock(inode, pred) on one lock: the new bounds of the affected range and the
    lock that stays, if any owner does. *)
Definition unlock_one (pred : Owner -> bool) (bounds : Z * Z) (lock : LockRange)
  : (Z * Z) * option LockRange :=
  let kept := remove_if pred (owners lock) in
  let bounds' := if (length kept =? length (owners lock))%nat then bounds
                 else (Z.min bounds.1 (start lock), Z.max bounds.2 (end_ lock)) in
  (bounds', if (length kept =? 0)%nat then None else Some (set_owners kept lock)).

#[global] Arguments unlock_one : simpl never.

Fixpoint unlock_all (pred : Owner -> bool) (bounds : Z * Z) (locks : list LockRange)
  : (Z * Z) * list LockRange :=
  match locks with
  | [] => (bounds, [])
  | lock :: rest =>
    let '(bounds', kept) := unlock_one pred bounds lock in
    let '(bounds'', rest') := unlock_all pred bounds' rest in
    (bounds'', match kept with Some l => l :: rest' | None => rest' end)
  end.

(** unlock(inode, pred): the affected range and the new state. An entry left without locks stays
    in the map. *)
Definition unlock_pred (inode : Z) (pred : Owner -> bool) (fl : FileLocks)
  : (Z * Z) * FileLocks :=
  match active_locks fl !! ikey inode with
  | None => ((uint64_max, 0), fl)
  | Some locks =>
    let '(bounds, locks') := unlock_all pred (uint64_max, 0) locks in
    (bounds, set_active (<[ikey inode := locks']> (active_locks fl)) fl)
  end.

(** gatherCandidates(): the requests moved out of the queue and the new state. *)
Definition gatherCandidates (inode s e : Z) (fl : FileLocks) : list LockRange * FileLocks :=
  match pending_locks fl !! ikey inode with
  | None => ([], fl)
  | Some queue =>
    let first := search_start queue s in
    let last := search_end queue e in
    (take (last - first)%nat (drop first queue),
     set_pending (<[ikey inode := take first queue ++ drop (Nat.max first last) queue]>
                   (pending_locks fl)) fl)
  end.

Definition removePending (inode : Z) (pred : LockRange -> bool) (fl : FileLocks) : FileLocks :=
  match pending_locks fl !! ikey inode with
  | None => fl
  | Some queue =>
    let queue' := remove_if pred queue in
    if (length queue' =? 0)%nat
    then set_pending (delete (ikey inode) (pending_locks fl)) fl
    else set_pending (<[ikey inode := queue']> (pending_locks fl)) fl
  end.

(** clear() drops the active locks only. *)
Definition clear_locks (fl : FileLocks) : FileLocks := set_active ∅ fl.

(** insertActive() and insertPending(), used when restoring from a key-value store. *)
Definition insertActive (inode : Z) (lock : LockRange) (fl : FileLocks) : option FileLocks :=
  match insert (default [] (active_locks fl !! ikey inode)) lock with
  | Some locks => Some (set_active (<[ikey inode := locks]> (active_locks fl)) fl)
  | None => None
  end.

Definition insertPending (inode : Z) (lock : LockRange) (fl : FileLocks) : FileLocks :=
  enqueue inode lock fl.

(** ** Listing, saving and loading *)

(** safs_locks::Info (src/protocol/lock_info.h) *)
Record Info := MkInfo {
  info_version : Z;   (* uint32_t *)
  info_inode : Z;     (* inode_t *)
  info_owner : Z;     (* uint64_t *)
  info_sessionid : Z; (* uint32_t *)
  info_type : Z;      (* uint16_t *)
  info_start : Z;     (* uint64_t *)
  info_end : Z;       (* uint64_t *)
}.

(** static_cast between LockRange::Type and the integers of safs_locks. *)
Definition type_raw (t : LockType) : Z :=
  match t with
  | kInvalid => 0 | kUnlock => 1 | kShared => 2 | kExclusive => 4 | kOther raw => raw
  end.

Definition type_of_raw (raw : Z) : LockType :=
  let v := u8 raw in
  if v =? 0 then kInvalid else if v =? 1 then kUnlock else if v =? 2 then kShared
  else if v =? 4 then kExclusive else kOther v.

Definition info_of (inode : Z) (lock : LockRange) (o : Owner) : Info :=
  MkInfo 0 inode (owner o) (sessionid o) (u16 (type_raw (type lock))) (start lock) (end_ lock).

(** The inner loop of copyToVector: the entries written, and the count that is left; the whole
    listing returns when it reaches zero. *)
Fixpoint copy_owners (inode : Z) (lock : LockRange) (os : list Owner) (count : Z)
  : list Info * Z :=
  match os with
  | [] => ([], count)
  | o :: os' =>
    if count - 1 <=? 0 then ([info_of inode lock o], count - 1)
    else let '(out, c) := copy_owners inode lock os' (count - 1) in
         (info_of inode lock o :: out, c)
  end.

(** The loop over the locks of one file, from position [pos]. *)
Fixpoint copy_locks (inode : Z) (locks : list LockRange) (index pos count : Z)
  : list Info * Z * Z :=
  match locks with
  | [] => ([], pos, count)
  | lock :: rest =>
    let size := Z.of_nat (length (owners lock)) in
    if pos + size <=? index then copy_locks inode rest index (pos + size) count
    else
      let skip := Z.max (index - pos) 0 in
      let '(out, count') := copy_owners inode lock (drop (Z.to_nat skip) (owners lock)) count in
      if count' <=? 0 then (out, pos + skip, count')
      else let '(out', pos', count'') := copy_locks inode rest index (pos + skip) count' in
           (out ++ out', pos', count'')
  end.

Definition copyInodeToVector (locks : list LockRange) (inode index count : Z) : list Info :=
  if count <=? 0 then [] else (copy_locks inode locks index 0 count).1.1.

(** copyToVector over the entries of a map, in its iteration order. *)
Fixpoint copy_entries (entries : list (Z * list LockRange)) (index pos count : Z) : list Info :=
  match entries with
  | [] => []
  | (inode, locks) :: rest =>
    let '(out, pos', count') := copy_locks inode locks index pos count in
    if count' <=? 0 then out else out ++ copy_entries rest index pos' count'
  end.

Definition copyToVector (entries : list (Z * list LockRange)) (index count : Z) : list Info :=
  if count <=? 0 then [] else copy_entries entries index 0 count.

Definition copyActiveInode (fl : FileLocks) (inode index count : Z) : list Info :=
  match active_locks fl !! ikey inode with
  | None => []
  | Some locks => copyInodeToVector locks inode index count
  end.

Definition copyPendingInode (fl : FileLocks) (inode index count : Z) : list Info :=
  match pending_locks fl !! ikey inode with
  | None => []
  | Some locks => copyInodeToVector locks inode index count
  end.

(** store(): the records written, one for every owner of every lock. *)
Definition store_lock (inode : Z) (lock : LockRange) : list Info :=
  info_of inode lock <$> owners lock.

Definition store_entries (entries : list (Z * list LockRange)) : list Info :=
  concat ((fun e => concat (store_lock e.1 <$> e.2)) <$> entries).

(** The lock load() builds from a record. *)
Definition lock_of_info (i : Info) : LockRange :=
  Lock (type_of_raw (info_type i)) (info_start i) (info_end i)
    (MkOwner (info_owner i) (info_sessionid i) 0 0).

Fixpoint load_active (infos : list Info) (fl : FileLocks) : option FileLocks :=
  match infos with
  | [] => Some fl
  | i :: rest =>
    match insertActive (info_inode i) (lock_of_info i) fl with
    | Some fl' => load_active rest fl'
    | None => None
    end
  end.

Fixpoint load_pending (infos : list Info) (fl : FileLocks) : FileLocks :=
  match infos with
  | [] => fl
  | i :: rest =>
    let k := ikey (info_inode i) in
    let queue := default [] (pending_locks fl !! k) in
    load_pending rest (set_pending (<[k := queue ++ [lock_of_info i]]> (pending_locks fl)) fl)
  end.

(** load(): first the active locks, then the queues. *)
Definition load (active pending : list Info) (fl : FileLocks) : option FileLocks :=
  match load_active active fl with
  | Some fl' => Some (load_pending pending fl')
  | None => None
  end.

(** ** Invariant *)

(** A waiting request: one owner, asks for a shared or an exclusive lock on a non-empty range. *)
Definition wf_waiting (r : LockRange) : Prop :=
  (type r = kShared \/ type r = kExclusive) /\ length (owners r) = 1%nat /\ start r < end_ r.

Definition range_le (a b : LockRange) : Prop := range_ltb b a = false.

Definition wf_queue (q : list LockRange) : Prop :=
  Forall wf_waiting q /\ StronglySorted range_le q.

Definition wf_locks (fl : FileLocks) : Prop :=
  map_Forall (fun _ => wf_table) (active_locks fl) /\
  map_Forall (fun _ => wf_queue) (pending_locks fl).

(** The table of a file and who holds a byte of it. *)
Definition table (fl : FileLocks) (inode : Z) : list LockRange :=
  default [] (active_locks fl !! ikey inode).

Definition waiting (fl : FileLocks) (inode : Z) : list LockRange :=
  default [] (pending_locks fl !! ikey inode).

Definition holds (fl : FileLocks) (inode x : Z) (t : LockType) (k : Z * Z) : Prop :=
  exists os, holders (table fl inode) x = Some (t, os) /\ k ∈ os.

#[export] Instance range_le_trans : Transitive range_le.
Proof. intros a b c. unfold range_le, range_ltb. lia. Qed.

Lemma wf_waiting_request r : wf_waiting r -> wf_request r.
Proof. intros (Ht & Hn & _). split; [by right|done]. Qed.

Lemma wf_waiting_unlocking r : wf_waiting r -> unlocking r = false.
Proof.
  intros H. rewrite (unlocking_request _ (wf_waiting_request _ H)).
  apply bool_decide_eq_false_2. by destruct H as [[->| ->] _].
Qed.

Lemma table_wf fl inode : wf_locks fl -> wf_table (table fl inode).
Proof.
  intros [Ha _]. unfold table. destruct (_ !! _) eqn:E; simpl; [by eapply Ha|].
  by repeat constructor.
Qed.

Lemma waiting_wf fl inode : wf_locks fl -> wf_queue (waiting fl inode).
Proof.
  intros [_ Hp]. unfold waiting. destruct (_ !! _) eqn:E; simpl; [by eapply Hp|].
  by repeat constructor.
Qed.

Lemma wf_locks_active fl k l :
  wf_locks fl -> wf_table l -> wf_locks (set_active (<[k:=l]> (active_locks fl)) fl).
Proof. intros [Ha Hp] Hl. split; [by apply map_Forall_insert_2|done]. Qed.

Lemma wf_locks_active_delete fl k :
  wf_locks fl -> wf_locks (set_active (delete k (active_locks fl)) fl).
Proof. intros [Ha Hp]. split; [by apply map_Forall_delete|done]. Qed.

Lemma wf_locks_pending fl k q :
  wf_locks fl -> wf_queue q -> wf_locks (set_pending (<[k:=q]> (pending_locks fl)) fl).
Proof. intros [Ha Hp] Hl. split; [done|by apply map_Forall_insert_2]. Qed.

Lemma wf_locks_pending_delete fl k :
  wf_locks fl -> wf_locks (set_pending (delete k (pending_locks fl)) fl).
Proof. intros [Ha Hp]. split; [done|by apply map_Forall_delete]. Qed.

(** The tables after storing one. *)
Lemma table_set_active fl k l i :
  table (set_active (<[k:=l]> (active_locks fl)) fl) i =
    if decide (k = ikey i) then l else table fl i.
Proof.
  unfold table. simpl. rewrite lookup_insert. by case_decide.
Qed.

Lemma table_set_active_delete fl k i :
  table (set_active (delete k (active_locks fl)) fl) i =
    if decide (k = ikey i) then [] else table fl i.
Proof. unfold table. simpl. rewrite lookup_delete. by case_decide. Qed.

Lemma table_set_pending fl p i : table (set_pending p fl) i = table fl i.
Proof. done. Qed.

Lemma waiting_set_pending fl k q i :
  waiting (set_pending (<[k:=q]> (pending_locks fl)) fl) i =
    if decide (k = ikey i) then q else waiting fl i.
Proof. unfold waiting. simpl. rewrite lookup_insert. by case_decide. Qed.

Lemma waiting_set_active fl a i : waiting (set_active a fl) i = waiting fl i.
Proof. done. Qed.

Create HintDb locks.
#[export] Hint Resolve wf_locks_active wf_locks_active_delete wf_locks_pending
  wf_locks_pending_delete table_wf waiting_wf wf_waiting_request : locks.

(** *** The queues *)

Lemma queue_insert_Permutation lock q : queue_insert lock q ≡ₚ lock :: q.
Proof.
  unfold queue_insert. rewrite <- Permutation_middle, take_drop. done.
Qed.

Lemma queue_insert_wf lock q : wf_waiting lock -> wf_queue q -> wf_queue (queue_insert lock q).
Proof.
  intros Hl [HF HS]. split.
  - rewrite queue_insert_Permutation. by constructor.
  - unfold queue_insert. set (p := fun other => range_ltb other lock).
    pose proof (partition_point_take p q) as Hlt. rewrite Forall_forall in Hlt.
    assert (forall b, b ∈ drop (partition_point p q) q -> range_le lock b) as Hge.
    { intros b Hb. remember (drop _ q) as tl eqn:Etl.
      destruct tl as [|m tl]; [by apply elem_of_nil in Hb|].
      pose proof (partition_point_drop p q m tl (eq_sym Etl)) as Hm.
      apply elem_of_cons in Hb as [->|Hb]; [done|].
      transitivity m; [done|].
      rewrite <- (take_drop (partition_point p q) q), <- Etl in HS.
      apply StronglySorted_app in HS as (_ & _ & HS). apply StronglySorted_inv in HS as [_ HB].
      rewrite Forall_forall in HB. auto. }
    rewrite <- (take_drop (partition_point p q) q) in HS.
    apply StronglySorted_app in HS as (Hmid & Hs1 & Hs2).
    apply StronglySorted_app. split_and!; [|done|].
    + intros a b Ha [->|Hb]%elem_of_cons; [|by apply Hmid].
      specialize (Hlt a Ha). unfold p in Hlt. unfold range_le, range_ltb in *. lia.
    + apply StronglySorted_cons. split; [apply Forall_forall; exact Hge|done].
Qed.

(** ** apply() *)

(** What apply() does, in terms of tables and queues. *)
Inductive applied (inode : Z) (lock : LockRange) (nonblocking : bool) (fl : FileLocks)
  : FileLocks -> bool -> Prop :=
  | ApplyPlaced fl' :
      fits (table fl inode) lock = true ->
      (forall i x, holders (table fl' i) x =
        if decide (ikey inode = ikey i) then overlaid lock (holders (table fl inode)) x
        else holders (table fl i) x) ->
      (forall i, waiting fl' i = waiting fl i) ->
      applied inode lock nonblocking fl fl' true
  | ApplyRefused fl' :
      fits (table fl inode) lock = false ->
      (forall i, table fl' i = table fl i) ->
      (forall i, waiting fl' i =
        if decide (ikey inode = ikey i) then
          if nonblocking then waiting fl inode else queue_insert lock (waiting fl inode)
        else waiting fl i) ->
      applied inode lock nonblocking fl fl' false.

Lemma apply_lock_ok inode lock nonblocking fl :
  wf_locks fl -> wf_request lock -> start lock < end_ lock ->
  exists fl' ok, apply_lock inode lock nonblocking fl = Some (fl', ok) /\ wf_locks fl' /\
    applied inode lock nonblocking fl fl' ok.
Proof.
  intros Hwf Hreq Hlt. unfold apply_lock. fold (table fl inode).
  set (fl1 := set_active (<[ikey inode:=table fl inode]> (active_locks fl)) fl).
  assert (wf_locks fl1) as Hwf1 by (apply wf_locks_active; auto with locks).
  assert (forall i, table fl1 i = table fl i) as Ht1.
  { intros i. unfold fl1. rewrite table_set_active. case_decide as E; [|done].
    unfold table. by rewrite E. }
  destruct (fits (table fl inode) lock) eqn:Ef.
  - destruct (insert_ok (table fl inode) lock) as (l' & -> & Hl' & Hv);
      [auto with locks|done|lia|done|].
    destruct (length l' =? 0)%nat eqn:El; (eexists _, true; split_and!; [done|auto with locks|]).
    + constructor; [done| |done]. intros i x. rewrite table_set_active_delete, Ht1.
      case_decide; [|done]. rewrite <- Hv. by destruct l'.
    + constructor; [done| |done]. intros i x. rewrite table_set_active, Ht1.
      case_decide; [|done]. by rewrite <- Hv.
  - assert (unlocking lock = false) as Hu.
    { unfold fits, findCollision in Ef. by destruct (unlocking lock). }
    rewrite Hu, andb_true_r. destruct nonblocking; simpl; eexists _, false;
      (split_and!; [done| |constructor; [done|done|]]).
    + done.
    + intros i. unfold waiting. simpl. by case_decide as E; [rewrite E|].
    + apply wf_locks_pending; [done|]. apply queue_insert_wf; [|by apply waiting_wf].
      destruct Hreq as [Hty Hn]. split_and!; [|done|done].
      destruct Hty as [Hty|Hty]; [|done]. unfold unlocking in Hu. by rewrite Hty in Hu.
    + intros i. unfold enqueue. by rewrite waiting_set_pending.
Qed.

(** *** What a granted request holds *)

Lemma overlay_owner lock o cur t os :
  owners lock = [o] -> unlocking lock = false -> overlay lock cur = Some (t, os) -> okey o ∈ os.
Proof.
  intros Ho Hu. pose proof (owner_set_request _ _ Ho) as Hs. unfold overlay. rewrite Hu.
  destruct cur as [[t' os']|]; [case_decide as E|]; intros [= <- <-]; rewrite ?Hs, ?E; set_solver.
Qed.

(** A placed request changes nothing for the other owners. *)
Lemma overlay_other lock o cur t k :
  owners lock = [o] -> k <> okey o ->
  (exists os, overlay lock cur = Some (t, os) /\ k ∈ os) <-> (exists os, cur = Some (t, os) /\ k ∈ os).
Proof.
  intros Ho Hk. pose proof (owner_set_request _ _ Ho) as Hs. unfold overlay, view. rewrite Hs.
  assert (k ∉ ({[okey o]} : gset (Z * Z))) as Hn by (by rewrite elem_of_singleton).
  destruct cur as [[t' os']|]; [case_decide as E; [subst os'|]|]; destruct (unlocking lock);
    (split; [intros (os & [= <- <-] & Hin)|intros (os & [= <- <-] & Hin)]);
    try done; eexists; (split; [done|]).
  - by apply elem_of_difference in Hin as [? _].
  - by apply elem_of_difference.
  - by apply elem_of_union in Hin as [?|?].
  - apply elem_of_union. by left.
Qed.

Lemma grantable_overlay lock o cur :
  owners lock = [o] -> wf_waiting lock ->
  (forall t os, cur = Some (t, os) ->
    (type lock = kShared /\ t = kShared) \/ os = owner_set (owners lock)) ->
  exists os, overlay lock cur = Some (type lock, os) /\ okey o ∈ os /\
    (type lock = kExclusive -> os = {[okey o]}).
Proof.
  intros Ho Hw Hg. pose proof (owner_set_request _ _ Ho) as Hs.
  pose proof (wf_waiting_unlocking _ Hw) as Hu. unfold overlay, view. rewrite Hu, Hs.
  destruct cur as [[t os]|].
  - specialize (Hg t os eq_refl). rewrite Hs in Hg. case_decide as E; [subst os|].
    + eexists. split_and!; [done|by apply elem_of_singleton|done].
    + destruct Hg as [[Ht ->]|?]; [|done]. rewrite Ht. eexists.
      split_and!; [done| |done]. apply elem_of_union_r. by apply elem_of_singleton.
  - eexists. split_and!; [done|by apply elem_of_singleton|done].
Qed.

(** ** Removal of owners: unlock(inode, pred) *)

Lemma remove_if_sublist {A} (p : A -> bool) l : sublist (remove_if p l) l.
Proof.
  induction l as [|x l IH]; [constructor|]. rewrite remove_if_cons.
  destruct (p x); by constructor.
Qed.

Lemma remove_if_length_all {A} (p : A -> bool) l :
  length (remove_if p l) = length l -> remove_if p l = l.
Proof.
  induction l as [|x l IH]; [done|]. rewrite remove_if_cons.
  pose proof (sublist_length _ _ (remove_if_sublist p l)).
  destruct (p x); simpl; intros E; [lia|]. f_equal. apply IH. lia.
Qed.

Lemma StronglySorted_sublist {A} (R : relation A) l1 l2 :
  sublist l1 l2 -> StronglySorted R l2 -> StronglySorted R l1.
Proof.
  induction 1 as [|x l1 l2 Hs IH|x l1 l2 Hs IH]; intros HS; [done| |].
  - apply StronglySorted_cons in HS as [HF HS]. apply StronglySorted_cons. split; [|auto].
    rewrite Forall_forall in *. intros y Hy. apply HF. by eapply sublist_subseteq.
  - apply StronglySorted_cons in HS as [_ HS]. auto.
Qed.

Lemma unlock_one_wf pred bounds lock l' :
  wf_range lock -> (unlock_one pred bounds lock).2 = Some l' ->
  wf_range l' /\ start l' = start lock /\ end_ l' = end_ lock.
Proof.
  intros (Hb & Ht & Hne & HS). unfold unlock_one. simpl.
  destruct (length (remove_if pred (owners lock)) =? 0)%nat eqn:E; [done|].
  intros [= <-]. apply Nat.eqb_neq in E. split; [|done].
  split_and!; [done| | |].
  - simpl. destruct Ht as [?|[? Hl]]; [by left|right]. split; [done|].
    pose proof (sublist_length _ _ (remove_if_sublist pred (owners lock))). lia.
  - simpl. intros E'. by rewrite E' in E.
  - simpl. eapply StronglySorted_sublist; [apply remove_if_sublist|done].
Qed.

Lemma unlock_all_cons pred bounds lock rest :
  unlock_all pred bounds (lock :: rest) =
    let one := unlock_one pred bounds lock in
    let all := unlock_all pred one.1 rest in
    (all.1, match one.2 with Some l => l :: all.2 | None => all.2 end).
Proof. cbn [unlock_all]. destruct (unlock_one pred bounds lock). cbn. by destruct (unlock_all _ _ _). Qed.

Lemma unlock_all_wf pred bounds locks :
  wf_table locks -> wf_table (unlock_all pred bounds locks).2 /\
  (forall l', l' ∈ (unlock_all pred bounds locks).2 ->
    exists l, l ∈ locks /\ start l = start l' /\ end_ l = end_ l').
Proof.
  revert bounds. induction locks as [|lock rest IH]; intros bounds Hwf.
  { split; [done|]. simpl. set_solver. }
  apply wf_table_cons in Hwf as (Hl & Hr & Hb). rewrite unlock_all_cons. cbn zeta.
  pose proof (unlock_one_wf pred bounds lock) as Hw.
  destruct (unlock_one pred bounds lock) as [b1 kept]. cbn [fst snd] in *.
  destruct (IH b1 Hr) as [Hwf' Hsub]. destruct kept as [l'|].
  - destruct (Hw l' Hl eq_refl) as (Hl' & Es & Ee). split.
    + apply wf_table_cons. split_and!; [done|done|]. intros b Hb'.
      destruct (Hsub b Hb') as (c & Hc & Ec & _). specialize (Hb c Hc). unfold before in *. lia.
    + intros m [->|Hm]%elem_of_cons; [exists lock; split; [by left|done]|].
      destruct (Hsub m Hm) as (c & Hc & ?). exists c. split; [by right|done].
  - split; [done|]. intros m Hm. destruct (Hsub m Hm) as (c & Hc & ?). exists c.
    split; [by right|done].
Qed.

(** Removing the owners [kp] selects from what is held on a byte. *)
Definition without (kp : Z * Z -> bool) (cur : option (LockType * gset (Z * Z)))
  : option (LockType * gset (Z * Z)) :=
  match cur with
  | None => None
  | Some (t, os) =>
    let os' := filter (fun k => kp k = false) os in
    if decide (os' = ∅) then None else Some (t, os')
  end.

Section without.
Context (pred : Owner -> bool) (kp : Z * Z -> bool) (Hkp : forall o, pred o = kp (okey o)).

Lemma owner_set_remove_if os :
  owner_set (remove_if pred os) = filter (fun k => kp k = false) (owner_set os).
Proof.
  apply set_eq. intros k. rewrite elem_of_filter, !elem_of_key_set.
  setoid_rewrite elem_of_remove_if. setoid_rewrite Hkp. split.
  - intros (o & [Ho Hp] & <-). eauto.
  - intros (Hp & o & Ho & <-). eauto.
Qed.

Lemma unlock_one_view bounds lock :
  without kp (Some (view lock)) = view <$> (unlock_one pred bounds lock).2.
Proof.
  unfold without, view, unlock_one. simpl. rewrite <- owner_set_remove_if, no_owners_iff.
  case_decide as E; [by rewrite bool_decide_eq_true_2|by rewrite bool_decide_eq_false_2].
Qed.

Lemma unlock_all_view bounds locks x :
  wf_table locks ->
  holders (unlock_all pred bounds locks).2 x = without kp (holders locks x).
Proof.
  revert bounds. induction locks as [|lock rest IH]; intros bounds Hwf; [done|].
  apply wf_table_cons in Hwf as (Hl & Hr & Hb). rewrite unlock_all_cons. cbn zeta.
  pose proof (unlock_one_view bounds lock) as Hv.
  pose proof (unlock_one_wf pred bounds lock) as Hw.
  destruct (unlock_one pred bounds lock) as [b1 kept]. cbn [fst snd] in *.
  pose proof (IH b1 Hr) as IHx. pose proof (unlock_all_wf pred b1 rest Hr) as [_ Hsub].
  rewrite (holders_cons lock). destruct (covers x lock) eqn:Ex.
  - rewrite Hv. destruct kept as [l'|]; simpl.
    + destruct (Hw l' Hl eq_refl) as (_ & Es & Ee). rewrite holders_cons.
      unfold covers in *. by rewrite Es, Ee, Ex.
    + apply holders_right. intros m Hm. destruct (Hsub m Hm) as (c & Hc & Ec & _).
      specialize (Hb c Hc). unfold before, covers in *. lia.
  - destruct kept as [l'|]; [|done].
    destruct (Hw l' Hl eq_refl) as (_ & Es & Ee). rewrite holders_cons.
    unfold covers in *. rewrite Es, Ee, Ex. done.
Qed.

Lemma unlock_all_mono b l :
  (unlock_all pred b l).1.1 <= b.1 /\ b.2 <= (unlock_all pred b l).1.2.
Proof.
  revert b. induction l as [|lock rest IH]; intros b; [simpl; lia|].
  rewrite unlock_all_cons. cbn zeta. specialize (IH (unlock_one pred b lock).1).
  unfold unlock_one in *. destruct (_ =? length (owners lock))%nat; simpl in *; lia.
Qed.

(** Every byte whose owners changed lies in the range that is returned. *)
Lemma unlock_all_bounds bounds locks x :
  wf_table locks -> holders (unlock_all pred bounds locks).2 x <> holders locks x ->
  (unlock_all pred bounds locks).1.1 <= x < (unlock_all pred bounds locks).1.2.
Proof.
  intros Hwf. rewrite unlock_all_view by done. revert bounds.
  induction locks as [|lock rest IH]; intros bounds; [done|].
  apply wf_table_cons in Hwf as (Hl & Hr & Hb). rewrite holders_cons, unlock_all_cons. cbn zeta.
  destruct (covers x lock) eqn:Ex; [|by apply IH]. intros Hne. unfold covers in Ex.
  pose proof (unlock_all_mono (unlock_one pred bounds lock).1 rest) as Hmono.
  unfold unlock_one in *.
  destruct (length (remove_if pred (owners lock)) =? length (owners lock))%nat eqn:El;
    [|simpl in *; lia].
  exfalso. apply Hne. apply Nat.eqb_eq, remove_if_length_all in El.
  unfold without, view. rewrite <- owner_set_remove_if, El.
  case_decide as E; [|done]. apply owner_set_empty in E. by destruct Hl as (_ & _ & ? & _).
Qed.
End without.

(** ** Queues: gatherCandidates() and removePending() *)

Lemma gatherCandidates_ok inode s e fl q fl' :
  wf_locks fl -> gatherCandidates inode s e fl = (q, fl') ->
  wf_locks fl' /\ Forall wf_waiting q /\
  waiting fl inode ≡ₚ q ++ waiting fl' inode /\
  (forall i, ikey i <> ikey inode -> waiting fl' i = waiting fl i) /\
  (forall i, table fl' i = table fl i).
Proof.
  intros Hwf. unfold gatherCandidates.
  destruct (pending_locks fl !! ikey inode) as [queue|] eqn:E; intros [= <- <-].
  2: by split_and!.
  pose proof (waiting_wf fl inode Hwf) as [HF HS]. unfold waiting at 1. rewrite E. simpl.
  unfold waiting in HF, HS. rewrite E in HF, HS. simpl in HF, HS.
  set (a := search_start queue s). set (b := search_end queue e).
  assert (queue ≡ₚ take (b - a) (drop a queue) ++ take a queue ++ drop (a `max` b) queue) as HP.
  { rewrite app_assoc, (Permutation_app_comm (take (b - a) _) (take a _)), <- app_assoc.
    rewrite <- (take_drop a queue) at 1. f_equiv.
    rewrite <- (take_drop (b - a) (drop a queue)) at 1. f_equiv. rewrite drop_drop.
    f_equiv. lia. }
  split_and!.
  - apply wf_locks_pending; [done|]. split.
    + rewrite HP in HF. by apply Forall_app in HF as [_ ?].
    + rewrite <- (take_drop a queue) in HS. apply StronglySorted_app in HS as (Hm & H1 & H2).
      replace (drop (a `max` b) queue) with (drop (b - a) (drop a queue))
        by (rewrite drop_drop; f_equal; lia).
      rewrite <- (take_drop (b - a) (drop a queue)) in H2.
      apply StronglySorted_app in H2 as (_ & _ & H2). apply StronglySorted_app.
      split_and!; [|done|done]. intros x y Hx Hy. apply Hm; [done|]. by eapply subseteq_drop.
  - by apply Forall_take, Forall_drop.
  - rewrite waiting_set_pending, decide_True by done. done.
  - intros i Hi. by rewrite waiting_set_pending, decide_False.
  - done.
Qed.

Lemma removePending_wf inode pred fl : wf_locks fl -> wf_locks (removePending inode pred fl).
Proof.
  intros Hwf. unfold removePending. destruct (_ !! _) as [q|] eqn:E; [|done].
  destruct (_ =? _)%nat; [by apply wf_locks_pending_delete|]. apply wf_locks_pending; [done|].
  destruct Hwf as [_ Hp]. destruct (Hp _ _ E) as [HF HS]. split.
  - rewrite Forall_forall in *. intros r [Hr _]%elem_of_remove_if. auto.
  - by apply StronglySorted_remove_if.
Qed.

Lemma unlock_pred_wf inode pred fl : wf_locks fl -> wf_locks (unlock_pred inode pred fl).2.
Proof.
  intros Hwf. unfold unlock_pred. destruct (_ !! _) as [l|] eqn:E; [|done].
  pose proof (unlock_all_wf pred (uint64_max, 0) l) as Hu.
  destruct (unlock_all _ _ _) as [b l']. simpl in *. apply wf_locks_active; [done|].
  apply Hu. by apply (proj1 Hwf _ _ E).
Qed.

(** ** The lock server as a transition system *)

(** The operations the file system performs on a [FileLocks]. *)
Inductive lock_step (fl : FileLocks) : FileLocks -> Prop :=
  | StepApply inode lock nonblocking fl' ok :
      wf_request lock -> start lock < end_ lock ->
      apply_lock inode lock nonblocking fl = Some (fl', ok) -> lock_step fl fl'
  | StepUnlockInode inode : lock_step fl (unlock_inode inode fl)
  | StepUnlockPred inode pred : lock_step fl (unlock_pred inode pred fl).2
  | StepGather inode s e : lock_step fl (gatherCandidates inode s e fl).2
  | StepRemovePending inode pred : lock_step fl (removePending inode pred fl)
  | StepClear : lock_step fl (clear_locks fl).

Lemma lock_step_wf fl fl' : wf_locks fl -> lock_step fl fl' -> wf_locks fl'.
Proof.
  intros Hwf. destruct 1 as [inode lock nb fl' ok Hreq Hlt Ha|inode|inode pred|inode s e|inode pred|].
  - destruct (apply_lock_ok inode lock nb fl) as (fl2 & ok2 & Ha2 & ? & _); [done..|].
    rewrite Ha in Ha2. by simplify_eq.
  - by apply wf_locks_active_delete.
  - by apply unlock_pred_wf.
  - destruct (gatherCandidates inode s e fl) as [q fl'] eqn:E.
    by destruct (gatherCandidates_ok _ _ _ _ _ _ Hwf E).
  - by apply removePending_wf.
  - destruct Hwf as [_ ?]. by split.
Qed.

Lemma empty_locks_wf : wf_locks empty_locks.
Proof. split; apply map_Forall_empty. Qed.

Lemma reachable_wf fl : rtc lock_step empty_locks fl -> wf_locks fl.
Proof.
  intros Hr. refine (rtc_ind_r wf_locks empty_locks empty_locks_wf _ fl Hr).
  intros fl1 fl2 _ Hs Hwf. by eapply lock_step_wf.
Qed.

Lemma wf_exclusive fl inode x k k' t :
  wf_locks fl -> holds fl inode x kExclusive k -> holds fl inode x t k' -> k' = k.
Proof.
  intros Hwf (os & Hh & Hk) (os' & Hh' & Hk'). rewrite Hh in Hh'. simplify_eq.
  apply holders_Some in Hh as (o & Ho & _ & [= Et ->]).
  destruct (table_wf fl inode Hwf) as [HF _]. rewrite Forall_forall in HF.
  destruct (HF o Ho) as (_ & [Et'|[_ Hl]] & _ & _); [congruence|].
  destruct (owners o) as [|p [|]]; simplify_eq/=. rewrite key_set_cons in *.
  unfold key_set in *. simpl in *. set_solver.
Qed.

(** Ranges that cover the same byte are the same entry of the table. *)
Lemma wf_table_once l : wf_table l -> forall n n' r r' x,
  l !! n = Some r -> l !! n' = Some r' -> covers x r = true -> covers x r' = true -> n' = n.
Proof.
  induction l as [|a l IH]; intros Hwf n n' r r' x H1 H2 Hx Hx'; [done|]. apply wf_table_cons in Hwf as (_ & Hwf & Hb).
  unfold covers in *. destruct n as [|n], n' as [|n']; simplify_eq/=; [done|..].
  - apply list_elem_of_lookup_2, Hb in H2. unfold before in H2. lia.
  - apply list_elem_of_lookup_2, Hb in H1. unfold before in H1. lia.
  - f_equal. by eapply (IH Hwf n n' r r' x).
Qed.

(** ** Properties *)

(** C32: In every state the lock server can reach, an exclusive lock excludes everybody else: if two entries of the table
    of a file cover one byte and the first is exclusive, they are the same entry of the table, and it has one owner.  So no
    second range, shared or exclusive, of this or another owner overlaps an exclusive one. *)
Theorem lock_mutual_exclusion fl inode x n n' r r' :
  rtc lock_step empty_locks fl ->
  table fl inode !! n = Some r -> table fl inode !! n' = Some r' -> covers x r = true -> covers x r' = true ->
  type r = kExclusive -> n' = n /\ exists o, owners r = [o].
Proof.
  intros Hr%reachable_wf H1 H2 Hx Hx' Ht. pose proof (table_wf fl inode Hr) as Hwf. split; [by eapply wf_table_once|].
  destruct Hwf as [HF _]. rewrite Forall_lookup in HF. destruct (HF n r H1) as (_ & [?|[_ Hl]] & _); [congruence|].
  destruct (owners r) as [|o [|]]; simplify_eq/=. by exists o.
Qed.

(** A request for a shared or exclusive lock never fails an assertion. It is granted iff every
    byte it covers is free, held by its owner alone, or both are shared; a granted request makes
    its owner hold a lock of the requested kind on every byte (alone, if exclusive); a refused one
    changes no table and is queued unless it is non-blocking; in all cases what other owners hold,
    on any file, stays as it was. *)
Theorem apply_lock_spec inode lock o nonblocking fl :
  wf_locks fl -> wf_waiting lock -> owners lock = [o] ->
  exists fl' ok, apply_lock inode lock nonblocking fl = Some (fl', ok) /\ wf_locks fl' /\
    (ok = true <-> grantable lock (holders (table fl inode))) /\
    (ok = true -> forall x, covers x lock = true ->
      exists os, holders (table fl' inode) x = Some (type lock, os) /\ okey o ∈ os /\
        (type lock = kExclusive -> os = {[okey o]})) /\
    (ok = false -> (forall i, table fl' i = table fl i) /\
      waiting fl' inode =
        if nonblocking then waiting fl inode else queue_insert lock (waiting fl inode)) /\
    (forall i x t k, k <> okey o -> holds fl' i x t k <-> holds fl i x t k).
Proof.
  intros Hwf Hw Ho. pose proof (wf_waiting_request _ Hw) as Hreq.
  pose proof (wf_waiting_unlocking _ Hw) as Hu. pose proof Hw as (_ & _ & Hlt).
  destruct (apply_lock_ok inode lock nonblocking fl) as (fl' & ok & Ha & Hwf' & Happ); [done..|].
  pose proof (fits_grantable _ lock (table_wf fl inode Hwf) Hreq Hlt) as Hg.
  exists fl', ok. destruct Happ as [fl' Hf Hv _|fl' Hf Ht Hq]; rewrite Hf in Hg.
  - assert (grantable lock (holders (table fl inode))) as Hgr
      by (destruct (proj1 Hg eq_refl); [congruence|done]).
    split_and!; try done.
    + intros _ x Hx. rewrite Hv, decide_True by done. unfold overlaid. rewrite Hx.
      apply grantable_overlay; [done..|]. intros t os Hh. by apply (Hgr x).
    + intros i x t k Hk. unfold holds. rewrite Hv. case_decide as E; [|done].
      assert (table fl i = table fl inode) as -> by (unfold table; by rewrite E).
      unfold overlaid. destruct (covers x lock); [by eapply overlay_other|done].
  - split_and!; try done.
    + split; [done|]. intros G. by rewrite Hg; right.
    + intros _. split; [done|]. by rewrite Hq, decide_True.
    + intros i x t k _. unfold holds. by rewrite Ht.
Qed.

Lemma unlock_range_ok inode s e o fl :
  wf_locks fl -> s < e ->
  exists fl', unlock_range inode s e o fl = Some (fl', true) /\ wf_locks fl' /\
    (forall x t, s <= x < e -> ~ holds fl' inode x t (okey o)) /\
    (forall i x t k, (k <> okey o \/ ~ s <= x < e \/ ikey i <> ikey inode) ->
      holds fl' i x t k <-> holds fl i x t k) /\
    (forall i, waiting fl' i = waiting fl i).
Proof.
  intros Hwf Hlt. set (lock := Lock kUnlock s e o).
  assert (wf_request lock) as Hreq by (split; [by left|done]).
  destruct (apply_lock_ok inode lock false fl) as (fl' & ok & Ha & Hwf' & Happ); [done..|].
  exists fl'. unfold unlock_range. fold lock. rewrite Ha.
  destruct Happ as [fl' Hf Hv Hw|fl' Hf _ _]; [|done]. split_and!; try done.
  - intros x t Hx (os & Hh & Hin). rewrite Hv, decide_True in Hh by done. unfold overlaid in Hh.
    assert (covers x lock = true) as E by (unfold covers; simpl; lia). rewrite E in Hh.
    unfold overlay in Hh. rewrite (owner_set_request lock o eq_refl) in Hh. simpl in Hh.
    destruct (holders _ x) as [[t' os']|]; [|done]. case_decide; [done|]. simplify_eq.
    set_solver.
  - intros i x t k Hcase. unfold holds. rewrite Hv. case_decide as E; [|done].
    assert (table fl i = table fl inode) as -> by (unfold table; by rewrite E).
    unfold overlaid. destruct (covers x lock) eqn:Ex; [|done].
    unfold covers in Ex. simpl in Ex. eapply overlay_other; [done|].
    destruct Hcase as [?|[?|?]]; [done|lia|done].
Qed.

(** unlock(inode, start, end, owner) always succeeds; afterwards the owner holds nothing on the
    range, and everything else any owner holds, on any byte of any file, is unchanged, as are the
    queues. *)
Theorem unlock_range_spec inode s e o fl :
  wf_locks fl -> s < e ->
  exists fl', unlock_range inode s e o fl = Some (fl', true) /\ wf_locks fl' /\
    (forall x t, s <= x < e -> ~ holds fl' inode x t (okey o)) /\
    (forall i x t k, (k <> okey o \/ ~ s <= x < e \/ ikey i <> ikey inode) ->
      holds fl' i x t k <-> holds fl i x t k) /\
    (forall i, waiting fl' i = waiting fl i).
Proof. apply unlock_range_ok. Qed.

(** unlock(inode, pred) for the owners of one session removes that session from every byte of
    the file and nobody else, keeps the tables well-formed, and returns a range that contains
    every byte whose owners changed. *)
Theorem unlock_session_spec inode sid fl :
  wf_locks fl ->
  let r := unlock_pred inode (fun o => sessionid o =? sid) fl in
  wf_locks r.2 /\
  (forall i x, holders (table r.2 i) x =
    if decide (ikey i = ikey inode)
    then without (fun k => k.2 =? sid) (holders (table fl i) x)
    else holders (table fl i) x) /\
  (forall x, holders (table r.2 inode) x <> holders (table fl inode) x ->
    r.1.1 <= x < r.1.2).
Proof.
  intros Hwf r. split; [by apply unlock_pred_wf|].
  pose proof (table_wf fl inode Hwf) as Htab. subst r. unfold unlock_pred.
  destruct (active_locks fl !! ikey inode) as [l|] eqn:E.
  - assert (table fl inode = l) as El by (unfold table; by rewrite E). rewrite El in Htab.
    pose proof (unlock_all_view (fun o => sessionid o =? sid) (fun k => k.2 =? sid)
                  (fun _ => eq_refl) (uint64_max, 0) l) as Hv.
    pose proof (unlock_all_bounds (fun o => sessionid o =? sid) (fun k => k.2 =? sid)
                  (fun _ => eq_refl) (uint64_max, 0) l) as Hb.
    destruct (unlock_all _ _ l) as [b l'] eqn:Eu. simpl in *. split.
    + intros i x. rewrite table_set_active. case_decide as E1.
      * rewrite decide_True, Hv by done. f_equal. unfold table. by rewrite <- E1, E.
      * by rewrite decide_False by congruence.
    + intros x. rewrite table_set_active, decide_True, El by done. by apply Hb.
  - simpl. split; [|done]. intros i x. case_decide as E1; [|done].
    unfold table. by rewrite E1, E.
Qed.

(** ** Listing in pages *)

Lemma copy_owners_ok inode lock os count :
  0 < count ->
  copy_owners inode lock os count =
    (take (Z.to_nat count) (info_of inode lock <$> os), Z.max 0 (count - Z.of_nat (length os))).
Proof.
  revert count. induction os as [|o os IH]; intros count Hc; cbn [copy_owners].
  { csimpl. rewrite take_nil. f_equal. simpl. lia. }
  replace (Z.to_nat count) with (S (Z.to_nat (count - 1))) by lia. csimpl.
  destruct (Z.leb_spec (count - 1) 0) as [Hle|Hgt].
  - replace (Z.to_nat (count - 1)) with 0%nat by lia. rewrite take_0. f_equal. lia.
  - rewrite IH by lia. f_equal. lia.
Qed.

Lemma length_store_locks inode locks :
  length (concat (store_lock inode <$> locks)) =
    sum_list_with (fun l => length (owners l)) locks.
Proof.
  induction locks as [|l locks IH]; [done|]. csimpl. rewrite length_app, IH.
  unfold store_lock. by rewrite length_fmap.
Qed.

Lemma copy_locks_ok inode locks index pos count :
  0 < count -> 0 <= pos <= index ->
  let flat := drop (Z.to_nat (index - pos)) (concat (store_lock inode <$> locks)) in
  let total := Z.of_nat (length (concat (store_lock inode <$> locks))) in
  let res := copy_locks inode locks index pos count in
  res.1.1 = take (Z.to_nat count) flat /\
  res.2 = Z.max 0 (count - Z.of_nat (length flat)) /\
  (0 < res.2 -> res.1.2 = Z.min index (pos + total)).
Proof.
  revert pos count. induction locks as [|lock rest IH]; intros pos count Hc Hp; cbn zeta.
  { csimpl. rewrite drop_nil, take_nil. simpl. split_and!; [done|lia|lia]. }
  csimpl. set (B := concat (store_lock inode <$> rest)) in *.
  assert (length (store_lock inode lock) = length (owners lock)) as Hlen by apply length_fmap.
  destruct (Z.leb_spec (pos + Z.of_nat (length (owners lock))) index) as [Hle|Hgt].
  - rewrite drop_app_ge by lia. specialize (IH (pos + Z.of_nat (length (owners lock))) count).
    cbn zeta in IH. destruct IH as (IH1 & IH2 & IH3); [lia|lia|].
    rewrite IH2 in IH3. rewrite IH1, IH2.
    replace (Z.to_nat (index - (pos + Z.of_nat (length (owners lock)))))
      with (Z.to_nat (index - pos) - length (store_lock inode lock))%nat in * by lia.
    split_and!; [done|done|]. intros H%IH3. rewrite length_app. lia.
  - rewrite Z.max_l by lia. rewrite copy_owners_ok by done. rewrite drop_app_le by lia.
    set (A := drop (Z.to_nat (index - pos)) (store_lock inode lock)).
    assert (info_of inode lock <$> drop (Z.to_nat (index - pos)) (owners lock) = A) as ->
      by apply fmap_drop.
    assert (length (drop (Z.to_nat (index - pos)) (owners lock)) = length A) as ->
      by (unfold A; rewrite !length_drop; lia).
    rewrite !length_app.
    destruct (Z.leb_spec (Z.max 0 (count - Z.of_nat (length A))) 0) as [Hz|Hz]; simpl.
    + rewrite take_app_le by lia. split_and!; [done|lia|lia].
    + specialize (IH (pos + (index - pos)) (Z.max 0 (count - Z.of_nat (length A)))).
      cbn zeta in IH. destruct IH as (IH1 & IH2 & IH3); [lia|lia|].
      destruct (copy_locks _ _ _ _ _) as [[out' pos'] count'']. simpl in *.
      replace (Z.to_nat (index - (pos + (index - pos)))) with 0%nat in * by lia.
      rewrite drop_0 in *. split_and!.
      * rewrite IH1, (take_ge A) by lia. rewrite take_app_ge by lia. f_equal. f_equal. lia.
      * lia.
      * intros Hpos. rewrite IH3 by done. lia.
Qed.

Lemma copyInode_page locks inode index count :
  0 <= index ->
  copyInodeToVector locks inode index count =
    take (Z.to_nat count) (drop (Z.to_nat index) (concat (store_lock inode <$> locks))).
Proof.
  intros Hi. unfold copyInodeToVector. destruct (Z.leb_spec count 0) as [Hle|Hgt].
  - by replace (Z.to_nat count) with 0%nat by lia.
  - destruct (copy_locks_ok inode locks index 0 count) as (-> & _ & _); [done|lia|].
    by rewrite Z.sub_0_r.
Qed.

(** Listing the locks of one file from a given index returns exactly that page of the flat list of
    (lock, owner) pairs: at most [count] entries from position [index] on. *)
Theorem copyInodeToVector_page locks inode index count :
  0 <= index ->
  copyInodeToVector locks inode index count =
    take (Z.to_nat count) (drop (Z.to_nat index) (concat (store_lock inode <$> locks))).
Proof. apply copyInode_page. Qed.

Lemma copy_entries_ok entries index pos count :
  0 < count -> 0 <= pos <= index ->
  copy_entries entries index pos count =
    take (Z.to_nat count) (drop (Z.to_nat (index - pos)) (store_entries entries)).
Proof.
  revert pos count. induction entries as [|[inode locks] rest IH]; intros pos count Hc Hp.
  { unfold store_entries. simpl. by rewrite drop_nil, take_nil. }
  cbn [copy_entries]. unfold store_entries. csimpl. fold (store_entries rest).
  set (A := concat (store_lock inode <$> locks)).
  destruct (copy_locks_ok inode locks index pos count) as (H1 & H2 & H3); [done|done|].
  destruct (copy_locks inode locks index pos count) as [[out pos'] count']. simpl in *. fold A in H1, H2, H3.
  rewrite length_drop in H2.
  destruct (Z.leb_spec count' 0) as [Hz|Hz].
  - rewrite H1, drop_app, take_app_le; [done|]. rewrite length_drop. lia.
  - rewrite IH, H1, H3 by lia. rewrite drop_app, take_app, length_drop.
    f_equal. f_equal; [lia|]. f_equal. lia.
Qed.

Lemma copyToVector_page entries index count :
  0 <= index ->
  copyToVector entries index count =
    take (Z.to_nat count) (drop (Z.to_nat index) (store_entries entries)).
Proof.
  intros Hi. unfold copyToVector. destruct (Z.leb_spec count 0) as [Hle|Hgt].
  - by replace (Z.to_nat count) with 0%nat by lia.
  - rewrite copy_entries_ok by lia. by rewrite Z.sub_0_r.
Qed.

(** ** Saving and loading *)

Lemma type_of_raw_raw t : t = kShared \/ t = kExclusive -> type_of_raw (u16 (type_raw t)) = t.
Proof. by intros [->| ->]. Qed.

Lemma load_active_app l1 l2 fl :
  load_active (l1 ++ l2) fl =
    match load_active l1 fl with Some fl' => load_active l2 fl' | None => None end.
Proof.
  revert fl. induction l1 as [|i l1 IH]; intros fl; simpl; [done|].
  by destruct (insertActive _ _ _).
Qed.

(** [fl'] has the table with view [h] for the key [k], and is [fl] otherwise. *)
Definition updates_table (k : Z) (h : Z -> option (LockType * gset (Z * Z)))
    (fl fl' : FileLocks) : Prop :=
  wf_locks fl' /\ pending_locks fl' = pending_locks fl /\
  (forall i, ikey i <> k -> table fl' i = table fl i) /\
  (forall i x, ikey i = k -> holders (table fl' i) x = h x).

Section load_lock.
Context (k : Z) (Hk : ikey k = k) (r : LockRange) (Hr : wf_range r).
Context (h0 : Z -> option (LockType * gset (Z * Z))).

(** The view while the owners of [r] are loaded one by one. *)
Definition loading (os : list Owner) (x : Z) : option (LockType * gset (Z * Z)) :=
  if covers x r then (if decide (os = []) then None else Some (type r, owner_set os)) else h0 x.

Lemma load_one_owner os1 o os2 fl :
  owners r = os1 ++ o :: os2 -> wf_locks fl ->
  (forall x, holders (table fl k) x = loading os1 x) ->
  exists fl', insertActive k (lock_of_info (info_of k r o)) fl = Some fl' /\
    updates_table k (loading (os1 ++ [o])) fl fl'.
Proof.
  intros Eos Hwf Hv. pose proof Hr as (Hb & Ht & _ & HS).
  assert (lock_of_info (info_of k r o) =
          Lock (type r) (start r) (end_ r) (MkOwner (owner o) (sessionid o) 0 0)) as ->.
  { unfold lock_of_info. simpl. rewrite type_of_raw_raw; [done|].
    by destruct Ht as [?|[? _]]; [left|right]. }
  set (o' := MkOwner (owner o) (sessionid o) 0 0).
  set (lock := Lock (type r) (start r) (end_ r) o').
  assert (okey o' = okey o) as Ek by done.
  assert (wf_request lock) as Hreq by (split; [destruct Ht as [?|[? _]]; auto|done]).
  assert (unlocking lock = false) as Hu.
  { rewrite unlocking_request by done. apply bool_decide_eq_false_2. simpl.
    by destruct Ht as [->|[-> _]]. }
  assert (okey o ∉ owner_set os1) as Hfresh.
  { intros (p & Hp & Ep)%elem_of_key_set. rewrite Eos in HS.
    apply StronglySorted_app in HS as (HS & _ & _). specialize (HS p o Hp ltac:(by left)).
    rewrite Ep in HS. by apply (irreflexivity okey_lt _ HS). }
  assert (forall x, covers x lock = covers x r) as Hcov by done.
  assert (fits (table fl k) lock = true) as Hfit.
  { apply fits_grantable; [by apply table_wf|done|done|]. right.
    intros x t os Hx Hh. rewrite Hv in Hh. unfold loading in Hh. rewrite <- Hcov, Hx in Hh.
    case_decide as En; [done|]. simplify_eq. left. simpl.
    destruct Ht as [?|[_ Hl]]; [done|]. exfalso. rewrite Eos in Hl.
    rewrite length_app in Hl. simpl in Hl. destruct os1; [done|]. simpl in Hl. lia. }
  destruct (insert_ok (table fl k) lock) as (l' & Hi & Hl' & Hv');
    [by apply table_wf|done|simpl; lia|done|].
  unfold insertActive. fold (table fl k). rewrite Hi. eexists. split; [done|]. split_and!.
  - by apply wf_locks_active.
  - done.
  - intros i Hi'. rewrite table_set_active, decide_False; [done|congruence].
  - intros i x Ei. rewrite table_set_active, decide_True, Hv' by congruence.
    unfold overlaid. rewrite Hv, Hcov. unfold loading.
    destruct (covers x r) eqn:Ex; [|done].
    rewrite (decide_False (P := os1 ++ [o] = [])) by (by destruct os1).
    rewrite key_set_app, key_set_cons. unfold overlay. rewrite Hu.
    rewrite (owner_set_request lock o' eq_refl), Ek. case_decide as En.
    + subst os1. unfold view. rewrite (owner_set_request lock o' eq_refl), Ek. simpl.
      do 2 f_equal. unfold key_set. simpl. by rewrite (left_id_L ∅ (∪)), (right_id_L ∅ (∪)).
    + rewrite decide_False.
      * do 2 f_equal. unfold key_set. simpl. by rewrite (right_id_L ∅ (∪)).
      * intros E. apply Hfresh. rewrite E. by apply elem_of_singleton.
Qed.

Lemma load_owners os1 os2 fl :
  owners r = os1 ++ os2 -> wf_locks fl ->
  (forall x, holders (table fl k) x = loading os1 x) ->
  exists fl', load_active (info_of k r <$> os2) fl = Some fl' /\
    updates_table k (loading (owners r)) fl fl'.
Proof.
  revert os1 fl. induction os2 as [|o os2 IH]; intros os1 fl Eos Hwf Hv.
  - exists fl. rewrite app_nil_r in Eos. subst os1. split; [done|]. split_and!; try done.
    intros i x Ei. rewrite <- Hv. unfold table. by rewrite Ei, Hk.
  - destruct (load_one_owner os1 o os2 fl) as (fl1 & E1 & Hwf1 & Hp1 & Ho1 & Hv1); [done..|].
    destruct (IH (os1 ++ [o]) fl1) as (fl2 & E2 & Hwf2 & Hp2 & Ho2 & Hv2);
      [by rewrite <- app_assoc|done|intros x; by apply Hv1|].
    exists fl2. csimpl. rewrite E1. split; [done|]. split_and!; [done|congruence| |done].
    intros i Hi. by rewrite Ho2, Ho1.
Qed.
End load_lock.

Lemma load_table k locks1 locks2 fl :
  ikey k = k -> wf_table (locks1 ++ locks2) -> wf_locks fl ->
  (forall x, holders (table fl k) x = holders locks1 x) ->
  exists fl', load_active (concat (store_lock k <$> locks2)) fl = Some fl' /\
    updates_table k (holders (locks1 ++ locks2)) fl fl'.
Proof.
  intros Hk. revert locks1 fl. induction locks2 as [|r locks2 IH]; intros locks1 fl Hwt Hwf Hv.
  { exists fl. rewrite app_nil_r. split; [done|]. split_and!; try done.
    intros i x Ei. rewrite <- Hv. unfold table. by rewrite Ei, Hk. }
  pose proof Hwt as (Hw1 & (Hr & Hw2 & Hbr)%wf_table_cons & Hmid)%wf_table_app.
  assert (forall a, a ∈ locks1 -> end_ a <= start r) as Hbefore
    by (intros a Ha; apply Hmid; [done|by left]).
  destruct (load_owners k Hk r Hr (holders locks1)) with (os1 := @nil Owner) (os2 := owners r)
    (fl := fl) as (fl1 & E1 & Hwf1 & Hp1 & Ho1 & Hv1); [done|done| |].
  { intros x. rewrite Hv. unfold loading. destruct (covers x r) eqn:Ex; [|done]. simpl.
    apply holders_left. intros a Ha%Hbefore. unfold covers in Ex. lia. }
  destruct (IH (locks1 ++ [r]) fl1) as (fl2 & E2 & Hwf2 & Hp2 & Ho2 & Hv2).
  { by rewrite <- app_assoc. } { done. }
  { intros x. rewrite Hv1 by done. unfold loading. rewrite holders_insert, app_nil_r by done.
    destruct (covers x r); [|done]. rewrite decide_False; [done|]. apply Hr. }
  exists fl2. csimpl. rewrite load_active_app. unfold store_lock at 1. rewrite E1.
  split; [done|]. split_and!; [done|congruence| |].
  - intros i Hi. by rewrite Ho2, Ho1.
  - intros i x Ei. rewrite Hv2 by done. by rewrite <- app_assoc.
Qed.

Lemma store_entries_cons k locks entries :
  store_entries ((k, locks) :: entries) =
    concat (store_lock k <$> locks) ++ store_entries entries.
Proof. done. Qed.

Lemma load_active_entries entries fl :
  NoDup entries.*1 -> Forall (fun e => ikey e.1 = e.1 /\ wf_table e.2) entries -> wf_locks fl ->
  (forall e, e ∈ entries -> table fl e.1 = []) ->
  exists fl', load_active (store_entries entries) fl = Some fl' /\ wf_locks fl' /\
    pending_locks fl' = pending_locks fl /\
    forall i x, holders (table fl' i) x =
      match list_find (fun e => e.1 = ikey i) entries with
      | Some (_, e) => holders e.2 x
      | None => holders (table fl i) x
      end.
Proof.
  revert fl. induction entries as [|[k locks] entries IH]; intros fl Hnd HF Hwf Hempty.
  { exists fl. split_and!; done. }
  apply Forall_cons in HF as [[Hk Hwt] HF]. csimpl in Hnd. simpl in Hk, Hwt, Hnd.
  apply NoDup_cons in Hnd as [Hnin Hnd].
  destruct (load_table k [] locks fl) as (fl1 & E1 & Hwf1 & Hp1 & Ho1 & Hv1); [done..| |].
  { intros x. pose proof (Hempty (k, locks) ltac:(by left)) as Hk0. simpl in Hk0. by rewrite Hk0. }
  destruct (IH fl1) as (fl2 & E2 & Hwf2 & Hp2 & Hv2); [done..| |].
  { intros [k' l'] He. simpl. rewrite Ho1; [by apply (Hempty (k', l')); right|].
    intros Ek. apply Hnin. rewrite Forall_forall in HF. destruct (HF _ He) as [Hk' _].
    simpl in Hk'. rewrite <- Ek, Hk'. apply list_elem_of_fmap. by exists (k', l'). }
  exists fl2. rewrite store_entries_cons, load_active_app, E1.
  split_and!; [done|done|congruence|]. intros i x. rewrite Hv2. simpl.
  destruct (list_find (fun e => e.1 = ikey i) entries) as [[n e]|] eqn:Ef.
  - case_decide as Ek; [|done]. exfalso. apply Hnin. simpl in Ek.
    apply list_find_Some in Ef as (Hl & Ee & _). apply list_elem_of_fmap. exists e.
    split; [congruence|]. by eapply list_elem_of_lookup_2.
  - case_decide as Ek; simpl in Ek |- *; [by apply Hv1|]. by rewrite Ho1.
Qed.

(** What load() makes of a queued request: the ids of the client's request are not saved. *)
Definition forget_owner (o : Owner) : Owner := MkOwner (owner o) (sessionid o) 0 0.

Definition forget_request (r : LockRange) : LockRange :=
  set_owners (forget_owner <$> owners r) r.

Lemma lock_of_waiting k r :
  wf_waiting r -> lock_of_info <$> store_lock k r = [forget_request r].
Proof.
  intros (Ht & Hn & _). unfold store_lock, forget_request.
  destruct (owners r) as [|o [|]] eqn:Eo; simplify_eq/=.
  unfold lock_of_info. simpl. by rewrite type_of_raw_raw.
Qed.

Lemma load_pending_queue k q1 q2 fl :
  ikey k = k -> Forall wf_waiting q2 -> waiting fl k = q1 ->
  let fl' := load_pending (concat (store_lock k <$> q2)) fl in
  active_locks fl' = active_locks fl /\
  (forall i, waiting fl' i =
    if decide (ikey i = k) then q1 ++ (forget_request <$> q2) else waiting fl i).
Proof.
  intros Hk HF. revert q1 fl. induction HF as [|r q2 Hr HF IH]; intros q1 fl Hq; cbn zeta.
  { split; [done|]. intros i. case_decide as E; [|done]. rewrite app_nil_r, <- Hq.
    unfold waiting. by rewrite Hk, E. }
  pose proof (lock_of_waiting k r Hr) as Hlock.
  destruct Hr as (_ & Hn & _). destruct (owners r) as [|o [|]] eqn:Eo; [done| |done].
  assert (store_lock k r = [info_of k r o]) as Es by (unfold store_lock; by rewrite Eo).
  rewrite Es in Hlock. apply cons_eq_inj in Hlock as [Hlock _].
  rewrite fmap_cons, concat_cons, Es. cbn [app load_pending info_of info_inode].
  rewrite Hk, Hlock.
  set (fl1 := set_pending _ fl).
  assert (forall i, waiting fl1 i =
            if decide (k = ikey i) then q1 ++ [forget_request r] else waiting fl i) as Hw1.
  { intros i. unfold fl1. rewrite waiting_set_pending. rewrite <- Hq. unfold waiting at 2.
    by rewrite Hk. }
  destruct (IH (q1 ++ [forget_request r]) fl1) as [IHa IHw].
  { by rewrite Hw1, decide_True by congruence. }
  split; [exact IHa|]. intros i. etrans; [exact (IHw i)|]. rewrite Hw1.
  case_decide; [by rewrite <- app_assoc|]. rewrite decide_False by congruence. done.
Qed.

Lemma load_pending_app xs ys fl :
  load_pending (xs ++ ys) fl = load_pending ys (load_pending xs fl).
Proof. revert fl. induction xs as [|x xs IH]; intros fl; simpl; [done|]. by rewrite IH. Qed.

Lemma load_pending_entries entries fl :
  NoDup entries.*1 ->
  Forall (fun e => ikey e.1 = e.1 /\ Forall wf_waiting e.2) entries ->
  (forall e, e ∈ entries -> waiting fl e.1 = []) ->
  let fl' := load_pending (store_entries entries) fl in
  active_locks fl' = active_locks fl /\
  forall i, waiting fl' i =
    match list_find (fun e => e.1 = ikey i) entries with
    | Some (_, e) => forget_request <$> e.2
    | None => waiting fl i
    end.
Proof.
  revert fl. induction entries as [|[k q] entries IH]; intros fl Hnd HF Hempty; cbn zeta.
  { done. }
  apply Forall_cons in HF as [[Hk Hq] HF]. csimpl in Hnd. simpl in Hk, Hq, Hnd.
  apply NoDup_cons in Hnd as [Hnin Hnd].
  destruct (load_pending_queue k [] q fl) as [Ha1 Hw1]; [done|done| |].
  { apply (Hempty (k, q)). by left. }
  rewrite store_entries_cons, load_pending_app.
  destruct (IH (load_pending (concat (store_lock k <$> q)) fl)) as [Ha2 Hw2]; [done|done| |].
  { intros [k' q'] He. simpl. rewrite Hw1, decide_False; [by apply (Hempty (k', q')); right|].
    intros Ek. apply Hnin. rewrite Forall_forall in HF. destruct (HF _ He) as [Hk' _].
    simpl in Hk'. rewrite <- Ek, Hk'. apply list_elem_of_fmap. by exists (k', q'). }
  split; [congruence|]. intros i. rewrite Hw2. simpl.
  destruct (list_find (fun e => e.1 = ikey i) entries) as [[n e]|] eqn:Ef.
  - case_decide as Ek; [|done]. exfalso. apply Hnin. simpl in Ek.
    apply list_find_Some in Ef as (Hl & Ee & _). apply list_elem_of_fmap. exists e.
    split; [congruence|]. by eapply list_elem_of_lookup_2.
  - case_decide as Ek; simpl in Ek |- *; rewrite Hw1; [by rewrite decide_True|].
    by rewrite decide_False by congruence.
Qed.

Lemma list_find_entries {A} (m : gmap Z A) (entries : list (Z * A)) k :
  entries ≡ₚ map_to_list m ->
  snd <$> list_find (fun e => e.1 = k) entries = (fun v => (k, v)) <$> m !! k.
Proof.
  intros HP. destruct (list_find _ entries) as [[n [k' v]]|] eqn:Ef; simpl.
  - apply list_find_Some in Ef as (Hl & Ee & _). simpl in Ee. subst k'.
    apply list_elem_of_lookup_2 in Hl. rewrite HP in Hl.
    apply elem_of_map_to_list in Hl. by rewrite Hl.
  - apply list_find_None in Ef. destruct (m !! k) as [v|] eqn:Em; [|done]. exfalso.
    apply elem_of_map_to_list in Em. rewrite <- HP in Em.
    rewrite Forall_forall in Ef. by apply (Ef _ Em).
Qed.

Lemma NoDup_entries {A} (m : gmap Z A) (entries : list (Z * A)) :
  entries ≡ₚ map_to_list m -> NoDup entries.*1.
Proof. intros HP. rewrite HP. apply NoDup_fst_map_to_list. Qed.

Lemma Forall_entries {A} (P : Z -> A -> Prop) (m : gmap Z A) (entries : list (Z * A)) :
  entries ≡ₚ map_to_list m -> map_Forall P m -> Forall (fun e => P e.1 e.2) entries.
Proof.
  intros HP Hm. rewrite HP. apply Forall_forall. intros [k v] He%elem_of_map_to_list.
  by apply (Hm k v).
Qed.

(** The keys of both maps are 32-bit inode numbers. *)
Definition wf_keys (fl : FileLocks) : Prop :=
  map_Forall (fun k _ => ikey k = k) (active_locks fl) /\
  map_Forall (fun k _ => ikey k = k) (pending_locks fl).

(** The metadata round trip of a lock structure.  store() writes one record per owner of each
    lock, in the iteration order of its two hash maps (any order [ea], [ep] of their entries);
    load() into an empty structure never fails and gives a well-formed set of tables in which every
    byte of every file has the holders it had, and queues with the same requests in the same order,
    the client's request ids excepted, which are not saved. *)
Lemma store_load fl ea ep :
  wf_locks fl -> wf_keys fl ->
  ea ≡ₚ map_to_list (active_locks fl) -> ep ≡ₚ map_to_list (pending_locks fl) ->
  exists fl', load (store_entries ea) (store_entries ep) empty_locks = Some fl' /\
    (forall i, wf_table (table fl' i)) /\
    (forall i x, holders (table fl' i) x = holders (table fl i) x) /\
    (forall i, waiting fl' i = forget_request <$> waiting fl i).
Proof.
  intros [Hwa Hwp] [Hka Hkp] HPa HPp.
  destruct (load_active_entries ea empty_locks) as (fl1 & E1 & Hwf1 & Hp1 & Hv1).
  { by eapply NoDup_entries. }
  { apply (Forall_entries (fun k l => ikey k = k /\ wf_table l) _ _ HPa).
    intros k l Hl. split; [by apply (Hka k l)|by apply (Hwa k l)]. }
  { split; apply map_Forall_empty. }
  { done. }
  destruct (load_pending_entries ep fl1) as [Ha2 Hw2].
  { by eapply NoDup_entries. }
  { apply (Forall_entries (fun k l => ikey k = k /\ Forall wf_waiting l) _ _ HPp).
    intros k l Hl. split; [by apply (Hkp k l)|by apply (Hwp k l)]. }
  { intros e _. unfold waiting. by rewrite Hp1. }
  unfold load. rewrite E1. eexists. split; [done|].
  assert (forall i, table (load_pending (store_entries ep) fl1) i = table fl1 i) as Ht.
  { intros i. unfold table. by rewrite Ha2. }
  split_and!.
  - intros i. rewrite Ht. by apply table_wf.
  - intros i x. rewrite Ht, Hv1. pose proof (list_find_entries _ _ (ikey i) HPa) as Hf.
    unfold table at 2. destruct (list_find _ ea) as [[n e]|], (active_locks fl !! ikey i);
      simplify_eq/=; done.
  - intros i. rewrite Hw2. pose proof (list_find_entries _ _ (ikey i) HPp) as Hf.
    unfold waiting at 2. destruct (list_find _ ep) as [[n e]|], (pending_locks fl !! ikey i);
      simplify_eq/=; [done|]. unfold waiting. by rewrite Hp1.
Qed.

(** ** Witnesses *)

Definition ex_wait : LockRange := Lock kExclusive 12 18 (ex_owner 3).

(** A file with a shared lock of two owners, an exclusive lock, and one request waiting. *)
Definition ex_locks : FileLocks := MkFileLocks {[7 := ex_table]} {[7 := [ex_wait]]}.

Lemma ex_wait_wf : wf_waiting ex_wait.
Proof. split_and!; simpl; [by right|done|lia]. Qed.

Lemma ex_locks_wf : wf_locks ex_locks.
Proof.
  split; apply map_Forall_singleton.
  - apply ex_table_wf.
  - split; [apply Forall_singleton, ex_wait_wf|repeat constructor].
Qed.

(** Two owners locked ranges of a fresh file, and a third was refused one that overlaps them. *)
Definition ex_first : LockRange := Lock kExclusive 0 12 (ex_owner 1).

Definition ex_granted : FileLocks := MkFileLocks {[7 := [ex_first; ex_wait]]} ∅.

Lemma ex_granted_steps : rtc lock_step empty_locks ex_granted.
Proof.
  eapply (rtc_l _ _ (MkFileLocks {[7 := [ex_wait]]} ∅)).
  { eapply (StepApply _ 7 ex_wait true _ true); [|simpl; lia|vm_compute; reflexivity]. apply wf_waiting_request, ex_wait_wf. }
  assert (wf_request ex_first) as Hf by (apply wf_waiting_request; split_and!; simpl; [by right|done|lia]).
  eapply (rtc_l _ _ ex_granted).
  { eapply (StepApply _ 7 ex_first true _ true); [done|simpl; lia|vm_compute; reflexivity]. }
  apply rtc_once. eapply (StepApply _ 7 (Lock kShared 4 14 (ex_owner 2)) true _ false); [|simpl; lia|vm_compute; reflexivity].
  apply wf_waiting_request. split_and!; simpl; [by left|done|lia].
Qed.

(** The first range does not cover the byte 15, which the second owner has alone. *)
Lemma lock_mutual_exclusion_witness : (exists o, owners ex_wait = [o]) /\ ~ covers 15 ex_first = true.
Proof.
  split.
  - exact (proj2 (lock_mutual_exclusion ex_granted 7 15 1 1 ex_wait ex_wait ex_granted_steps eq_refl eq_refl eq_refl eq_refl eq_refl)).
  - intros H. pose proof (proj1 (lock_mutual_exclusion ex_granted 7 15 1 0 ex_wait ex_first ex_granted_steps eq_refl eq_refl eq_refl H eq_refl)) as E.
    discriminate E.
Defined.

Lemma apply_lock_spec_witness :
  exists fl' ok, apply_lock 7 ex_wait false ex_locks = Some (fl', ok) /\ wf_locks fl'.
Proof.
  destruct (apply_lock_spec 7 ex_wait (ex_owner 3) false ex_locks) as (fl' & ok & H & Hwf & _).
  - apply ex_locks_wf.
  - apply ex_wait_wf.
  - reflexivity.
  - by exists fl', ok.
Defined.

Lemma unlock_range_spec_witness :
  exists fl', unlock_range 7 12 35 (ex_owner 3) ex_locks = Some (fl', true) /\
    forall x t, 12 <= x < 35 -> ~ holds fl' 7 x t (okey (ex_owner 3)).
Proof.
  destruct (unlock_range_spec 7 12 35 (ex_owner 3) ex_locks) as (fl' & H & _ & Hn & _).
  - apply ex_locks_wf.
  - lia.
  - by exists fl'.
Defined.

Lemma unlock_session_spec_witness :
  wf_locks (unlock_pred 7 (fun o => sessionid o =? 1) ex_locks).2.
Proof. apply (unlock_session_spec 7 1 ex_locks). apply ex_locks_wf. Defined.

Lemma copyInodeToVector_page_witness :
  copyInodeToVector ex_table 7 1 1 =
    take 1 (drop 1 (concat (store_lock 7 <$> ex_table))).
Proof. apply (copyInodeToVector_page ex_table 7 1 1). lia. Defined.
