(* ===== verification/LockOps.v ===== *)
(** The lock operations of the metadata server: what the master does for a client's request
    (src/master/filesystem_operations.cc, src/master/matoclserv.cc), the changelog entries it
    writes, and how a shadow replays them (src/master/restore.cc).

    A [LockServer] is the part of the metadata these operations touch: the flock and the posix lock
    structures, the inodes that exist, the metadata version and the entries written so far.  An
    operation returns [None] when an assertion fails, else its status, the new state and the owners
    of the requests it granted from the queue. *)
From stdpp Require Import base gmap sets list sorting.
From Stdlib Require Import ZArith Lia.
From S2P Require Import Prelude LockRanges FileLocks.
Open Scope Z_scope.

(** ** Constants *)

Definition SAUNAFS_STATUS_OK : Z := 0.
Definition SAUNAFS_ERROR_ENOENT : Z := 3.
Definition SAUNAFS_ERROR_EINVAL : Z := 6.
Definition SAUNAFS_ERROR_WAITING : Z := 50.

(** safs_locks: operations and kinds of lock. *)
Definition op_unlock : Z := 1.
Definition op_shared : Z := 2.
Definition op_exclusive : Z := 4.
Definition op_nonblock : Z := 16.
Definition op_release : Z := 32.
Definition kFlock : Z := 0.
Definition kPosix : Z := 1.

(** ** State *)

Inductive ChangeEntry :=
  | FLCK (kind inode s e owner sessionid oper : Z)
  | CLRLCK (kind inode sessionid : Z)
  | FLCKINODE (kind inode : Z)
  | RMPLOCK (kind ownerid sessionid inode reqid : Z).

Record LockServer := MkServer {
  flockLocks : FileLocks;
  posixLocks : FileLocks;
  nodes : gset Z;
  metadataVersion : Z;
  changelog : list ChangeEntry;
}.

Definition set_flock (fl : FileLocks) (s : LockServer) :=
  MkServer fl (posixLocks s) (nodes s) (metadataVersion s) (changelog s).
Definition set_posix (fl : FileLocks) (s : LockServer) :=
  MkServer (flockLocks s) fl (nodes s) (metadataVersion s) (changelog s).

(** changeLog() on the master; a shadow only counts the version. *)
Definition log_change (master : bool) (entry : ChangeEntry) (s : LockServer) : LockServer :=
  MkServer (flockLocks s) (posixLocks s) (nodes s) (u64 (metadataVersion s + 1))
    (if master then changelog s ++ [entry] else changelog s).

(** checkLockPermissions() for the contexts the lock requests use, which carry no session: only the
    existence of the node is checked. *)
Definition checkLockPermissions (ns : gset Z) (inode : Z) : Z :=
  if decide (inode ∈ ns) then SAUNAFS_STATUS_OK else SAUNAFS_ERROR_ENOENT.

(** ** Operations on one lock structure *)

(** lock.owner(): a waiting request has one owner. *)
Definition owner_pred (pred : Owner -> bool) (lock : LockRange) : bool :=
  match the_owner lock with Some o => pred o | None => false end.

(** The loop over the gathered candidates: apply each, collect the owners of those granted. *)
Fixpoint apply_candidates (inode : Z) (queue : list LockRange) (fl : FileLocks)
  : option (FileLocks * list Owner) :=
  match queue with
  | [] => Some (fl, [])
  | candidate :: rest =>
    match apply_lock inode candidate false fl with
    | None => None
    | Some (fl', ok) =>
      match apply_candidates inode rest fl' with
      | None => None
      | Some (fl'', applied) => Some (fl'', if ok then owners candidate ++ applied else applied)
      end
    end
  end.

Definition manageLockTryLockPending (inode s e : Z) (fl : FileLocks)
  : option (FileLocks * list Owner) :=
  let '(queue, fl') := gatherCandidates inode s e fl in apply_candidates inode queue fl'.

(** The switch of lockOperation(): the result of the operation and the range to retry, or [None]
    for an unknown operation. *)
Definition lock_switch (inode s e : Z) (o : Owner) (oper : Z) (nonblocking : bool)
  (fl : FileLocks) : option (option (FileLocks * bool) * (Z * Z)) :=
  if oper =? op_shared then Some (sharedLock inode s e o nonblocking fl, (s, e))
  else if oper =? op_exclusive then Some (exclusiveLock inode s e o nonblocking fl, (s, e))
  else if oper =? op_release then
    let fl1 := removePending inode
      (owner_pred (fun p => (sessionid p =? sessionid o) && (owner p =? owner o))) fl in
    Some (unlock_range inode 0 uint64_max o fl1, (0, uint64_max))
  else if oper =? op_unlock then Some (unlock_range inode s e o fl, (s, e))
  else None.

Definition lockOperation (ns : gset Z) (inode s e : Z) (o : Owner) (oper : Z)
  (nonblocking : bool) (fl : FileLocks) : option (Z * FileLocks * list Owner) :=
  let status := checkLockPermissions ns inode in
  if negb (status =? SAUNAFS_STATUS_OK) then Some (status, fl, [])
  else
    match lock_switch inode s e o oper nonblocking fl with
    | None => Some (SAUNAFS_ERROR_EINVAL, fl, [])
    | Some (None, _) => None
    | Some (Some (fl1, success), (s', e')) =>
      let status := if success then SAUNAFS_STATUS_OK else SAUNAFS_ERROR_WAITING in
      if oper =? op_exclusive then Some (status, fl1, [])
      else
        match manageLockTryLockPending inode s' e' fl1 with
        | None => None
        | Some (fl2, applied) => Some (status, fl2, applied)
        end
    end.

(** ** Operations of the server *)

Definition op_result := option (Z * LockServer * list Owner).

Definition flockOperation (master : bool) (inode : Z) (o : Owner) (oper : Z)
  (nonblocking : bool) (s : LockServer) : op_result :=
  match lockOperation (nodes s) inode 0 1 o oper nonblocking (flockLocks s) with
  | None => None
  | Some (status, fl, applied) =>
    Some (status,
      log_change master (FLCK kFlock inode 0 1 (owner o) (sessionid o) oper) (set_flock fl s),
      applied)
  end.

Definition posixLockOperation (master : bool) (inode st en : Z) (o : Owner) (oper : Z)
  (nonblocking : bool) (s : LockServer) : op_result :=
  match lockOperation (nodes s) inode st en o oper nonblocking (posixLocks s) with
  | None => None
  | Some (status, fl, applied) =>
    Some (status,
      log_change master (FLCK kPosix inode st en (owner o) (sessionid o) oper) (set_posix fl s),
      applied)
  end.

(** posixLockProbe(): status, and type, start and length of the lock reported. *)
Definition posixLockProbe (inode st en : Z) (o : Owner) (oper : Z) (s : LockServer)
  : Z * option (Z * Z * Z) :=
  if negb (oper =? op_shared) && negb (oper =? op_exclusive) && negb (oper =? op_unlock)
  then (SAUNAFS_ERROR_EINVAL, None)
  else
    let status := checkLockPermissions (nodes s) inode in
    if negb (status =? SAUNAFS_STATUS_OK) then (status, None)
    else
      match find_collision inode (type_of_raw oper) st en o (posixLocks s) with
      | None => (SAUNAFS_STATUS_OK, None)
      | Some c =>
        (SAUNAFS_ERROR_WAITING,
         Some (type_raw (type c), start c, Z.min (u64 (end_ c - start c)) int64_max))
      end.

Definition select (kind : Z) (s : LockServer) : option (FileLocks * (FileLocks -> LockServer)) :=
  if kind =? kFlock then Some (flockLocks s, fun fl => set_flock fl s)
  else if kind =? kPosix then Some (posixLocks s, fun fl => set_posix fl s)
  else None.

Definition locksClearSession (master : bool) (kind inode sid : Z) (s : LockServer) : op_result :=
  match select kind s with
  | None => Some (SAUNAFS_ERROR_EINVAL, s, [])
  | Some (fl, put) =>
    let fl1 := removePending inode (owner_pred (fun p => sessionid p =? sid)) fl in
    let '((lo, hi), fl2) := unlock_pred inode (fun p => sessionid p =? sid) fl1 in
    let '(queue, fl3) := if lo <? hi then gatherCandidates inode lo hi fl2 else ([], fl2) in
    Some (SAUNAFS_STATUS_OK, log_change master (CLRLCK kind inode sid) (put fl3),
          concat (owners <$> queue))
  end.

Definition locksUnlockInode (master : bool) (kind inode : Z) (s : LockServer) : op_result :=
  match select kind s with
  | None => Some (SAUNAFS_ERROR_EINVAL, s, [])
  | Some (fl, put) =>
    let hi := if kind =? kFlock then 1 else uint64_max in
    match manageLockTryLockPending inode 0 hi (unlock_inode inode fl) with
    | None => None
    | Some (fl', applied) =>
      Some (SAUNAFS_STATUS_OK, log_change master (FLCKINODE kind inode) (put fl'), applied)
    end
  end.

Definition locksRemovePending (master : bool) (kind ownerid sid inode req : Z) (s : LockServer)
  : op_result :=
  match select kind s with
  | None => Some (SAUNAFS_ERROR_EINVAL, s, [])
  | Some (fl, put) =>
    let fl' := removePending inode
      (owner_pred (fun p => (owner p =? ownerid) && (sessionid p =? sid) && (reqid p =? req))) fl in
    Some (SAUNAFS_STATUS_OK, log_change master (RMPLOCK kind ownerid sid inode req) (put fl'), [])
  end.

Definition locksListInode (kind : Z) (pending : bool) (inode index max : Z) (s : LockServer)
  : Z * list Info :=
  match select kind s with
  | None => (SAUNAFS_ERROR_EINVAL, [])
  | Some (fl, _) =>
    (SAUNAFS_STATUS_OK,
     if pending then copyPendingInode fl inode index max else copyActiveInode fl inode index max)
  end.

(** ** Client requests *)

(** The range of a SETLK or GETLK request; [None] answers EINVAL.  Length 0 means up to the end. *)
Definition setlk_range (l_start l_len : Z) : option (Z * Z) :=
  if (l_start <? 0) || (l_len <? 0) then None
  else Some (l_start, if l_len =? 0 then uint64_max else u64 (u64 l_start + u64 l_len)).

(** op &= ~kNonblock *)
Definition split_nonblock (op : Z) : bool * Z :=
  if negb (Z.land op op_nonblock =? 0) then (true, Z.land op (Z.lnot op_nonblock)) else (false, op).

(** What a client's lock request gets: [Some status] is a reply, [None] no reply (a release, or a
    blocking request that waits); with the new state and the owners to wake up. *)
Definition lock_reply (op : Z) (nonblocking : bool) (status : Z) : option Z :=
  if op =? op_release then None
  else if nonblocking || negb (status =? SAUNAFS_ERROR_WAITING) then Some status else None.

(** matoclserv_run_lock_op() without a transaction: after an error nobody is woken up. *)
Definition run_lock_op (r : op_result) : op_result :=
  match r with
  | Some (status, s, applied) =>
    if negb (status =? SAUNAFS_STATUS_OK) && negb (status =? SAUNAFS_ERROR_WAITING)
    then Some (status, s, []) else r
  | None => None
  end.

Definition fuse_flock (sid msg inode own req op : Z) (s : LockServer)
  : option (option Z * LockServer * list Owner) :=
  let '(nonblocking, op') := split_nonblock op in
  match run_lock_op (flockOperation true inode (MkOwner own sid req msg) op' nonblocking s) with
  | None => None
  | Some (status, s', wake) => Some (lock_reply op' nonblocking status, s', wake)
  end.

Definition fuse_setlk (sid msg inode own req l_type l_start l_len : Z) (s : LockServer)
  : option (option Z * LockServer * list Owner) :=
  match setlk_range l_start l_len with
  | None => Some (Some SAUNAFS_ERROR_EINVAL, s, [])
  | Some (st, en) =>
    let '(nonblocking, op') := split_nonblock (u16 l_type) in
    match run_lock_op
            (posixLockOperation true inode st en (MkOwner own sid req msg) op' nonblocking s) with
    | None => None
    | Some (status, s', wake) => Some (lock_reply op' nonblocking status, s', wake)
    end
  end.

(** ** Releasing the locks of a closed session *)

Definition list_limit : Z := 1024.

(** One of the four listings of matocl_session_lock_owners(), page by page. *)
Fixpoint list_pages (fuel : nat) (kind : Z) (pending : bool) (inode sid offset : Z)
  (s : LockServer) : list Z :=
  match fuel with
  | O => []
  | S fuel' =>
    let page := (locksListInode kind pending inode offset list_limit s).2 in
    let own := info_owner <$> filter (fun i => info_sessionid i = sid) page in
    if Z.of_nat (length page) <? list_limit then own
    else own ++ list_pages fuel' kind pending inode sid (offset + list_limit) s
  end.

(** The std::set of owners, iterated by kind, then by owner. *)
Definition session_lock_owners (fuel : nat) (inode sid : Z) (s : LockServer) : list (Z * Z) :=
  let found kind := elements (C := gset Z) (list_to_set
    (list_pages fuel kind false inode sid 0 s ++ list_pages fuel kind true inode sid 0 s)) in
  (pair kFlock <$> merge_sort Z.le (found kFlock)) ++ (pair kPosix <$> merge_sort Z.le (found kPosix)).

Definition release_owner (inode sid : Z) (ko : Z * Z) (s : LockServer) : op_result :=
  if ko.1 =? kFlock
  then flockOperation true inode (MkOwner ko.2 sid 0 0) op_release false s
  else posixLockOperation true inode 0 uint64_max (MkOwner ko.2 sid 0 0) op_release false s.

Fixpoint release_owners (inode sid : Z) (os : list (Z * Z)) (s : LockServer)
  : option (Z * LockServer * list (Owner * Z)) :=
  match os with
  | [] => Some (SAUNAFS_STATUS_OK, s, [])
  | ko :: rest =>
    match release_owner inode sid ko s with
    | None => None
    | Some (released, s', applied) =>
      if negb (released =? SAUNAFS_STATUS_OK) then Some (released, s', [])
      else
        match release_owners inode sid rest s' with
        | None => None
        | Some (status, s'', wake) =>
          Some (status, s'',
            ((fun w => (w, ko.1)) <$> filter (fun w => sessionid w <> sid) applied) ++ wake)
        end
    end
  end.

(** matocl_locks_release() *)
Definition locks_release (inode sid : Z) (os : list (Z * Z)) (s : LockServer)
  : option (Z * LockServer * list (Owner * Z)) :=
  if decide (inode ∈ nodes s) then release_owners inode sid os s
  else
    match locksClearSession true kFlock inode sid s with
    | None => None
    | Some (_, s1, a1) =>
      match locksClearSession true kPosix inode sid s1 with
      | None => None
      | Some (_, s2, a2) =>
        Some (SAUNAFS_STATUS_OK, s2, ((fun w => (w, kFlock)) <$> a1) ++ ((fun w => (w, kPosix)) <$> a2))
      end
    end.

(** ** Replay on a shadow *)

(** do_lock_op(), do_lock_clear_session(), do_lock_unlock_inode() and do_remove_pending_op(): the
    status restore() sees and the shadow's new state.  Request ids are not in the entries, and
    every lock request is replayed as a blocking one. *)
Definition restore_entry (entry : ChangeEntry) (s : LockServer) : option (Z * LockServer) :=
  match entry with
  | FLCK kind inode st en own sid oper =>
    let o := MkOwner own sid 0 0 in
    let r := if kind =? kFlock then flockOperation false inode o (u16 oper) false s
             else if kind =? kPosix then posixLockOperation false inode st en o (u16 oper) false s
             else Some (SAUNAFS_ERROR_EINVAL, s, []) in
    match r with
    | None => None
    | Some (status, s', _) =>
      Some (if status =? SAUNAFS_ERROR_WAITING then SAUNAFS_STATUS_OK else status, s')
    end
  | CLRLCK kind inode sid =>
    (fun r => (r.1.1, r.1.2)) <$> locksClearSession false kind inode sid s
  | FLCKINODE kind inode =>
    (fun r => (r.1.1, r.1.2)) <$> locksUnlockInode false kind inode s
  | RMPLOCK kind ownerid sid inode req =>
    (fun r => (r.1.1, r.1.2)) <$> locksRemovePending false kind ownerid sid inode req s
  end.

(** restore() stops at the first entry that does not return OK. *)
Fixpoint restore_entries (entries : list ChangeEntry) (s : LockServer) : option LockServer :=
  match entries with
  | [] => Some s
  | entry :: rest =>
    match restore_entry entry s with
    | Some (status, s') =>
      if status =? SAUNAFS_STATUS_OK then restore_entries rest s' else None
    | None => None
    end
  end.

(** ** Retrying the queue *)

(** The holder of a byte, whatever the kind of lock. *)
Definition holds_some (fl : FileLocks) (inode x : Z) (k : Z * Z) : Prop :=
  exists t, holds fl inode x t k.

(** The keys of the owners of a list of requests. *)
Definition request_keys (q : list LockRange) : list (Z * Z) := okey <$> concat (owners <$> q).

(** What granting the requests [granted] from the queue of [inode] does to the tables: each has its
    range, nobody loses a byte, and nobody else gets one. *)
Record grants (inode : Z) (granted : list LockRange) (fl fl' : FileLocks) : Prop := MkGrants {
  grants_held : forall r o x, r ∈ granted -> owners r = [o] -> covers x r = true ->
    holds_some fl' inode x (okey o);
  grants_keep : forall i x k, holds_some fl i x k -> holds_some fl' i x k;
  grants_only : forall i x t k, k ∉ request_keys granted -> holds fl' i x t k <-> holds fl i x t k;
}.

Lemma wf_waiting_owner r : wf_waiting r -> exists o, owners r = [o].
Proof. intros (_ & Hn & _). destruct (owners r) as [|o [|]]; simplify_eq/=. by exists o. Qed.

Lemma request_keys_cons r o q :
  owners r = [o] -> request_keys (r :: q) = okey o :: request_keys q.
Proof. intros Ho. unfold request_keys. csimpl. by rewrite Ho. Qed.

Lemma grants_nil inode fl : grants inode [] fl fl.
Proof. split; [|done|done]. intros r o x Hr. by apply elem_of_nil in Hr. Qed.

Lemma grants_same inode granted fl fl1 fl' :
  (forall i, table fl1 i = table fl i) -> grants inode granted fl1 fl' -> grants inode granted fl fl'.
Proof.
  intros Ht [H1 H2 H3]. split; [done| |].
  - intros i x k Hk. apply H2. unfold holds_some, holds in *. by rewrite Ht.
  - intros i x t k Hk. rewrite H3 by done. unfold holds. by rewrite Ht.
Qed.

(** One placed request: the lock it leaves on the bytes it covers. *)
Lemma placed_holders inode r o nonblocking fl fl' x :
  wf_locks fl -> wf_waiting r -> owners r = [o] -> applied inode r nonblocking fl fl' true ->
  covers x r = true ->
  exists os, holders (table fl' inode) x = Some (type r, os) /\ okey o ∈ os /\
    (type r = kExclusive -> os = {[okey o]}).
Proof.
  intros Hwf Hr Ho Happ Hx. pose proof (wf_waiting_unlocking _ Hr) as Hu.
  inversion Happ as [fl2 Hf Hv Hw|]; subst fl2.
  pose proof (fits_grantable _ r (table_wf fl inode Hwf) (wf_waiting_request _ Hr)) as Hg.
  destruct (proj1 (Hg (proj2 (proj2 Hr))) Hf) as [?|Hgr]; [congruence|].
  destruct (grantable_overlay r o (holders (table fl inode) x)) as (os & Hos & Hin); [done..| |].
  { intros t os. by apply Hgr. }
  exists os. split; [|done]. rewrite Hv, decide_True by done. unfold overlaid. by rewrite Hx.
Qed.

Lemma placed_grants inode r nonblocking fl fl' :
  wf_locks fl -> wf_waiting r -> applied inode r nonblocking fl fl' true -> grants inode [r] fl fl'.
Proof.
  intros Hwf Hr Happ. destruct (wf_waiting_owner r Hr) as [o Ho].
  pose proof (wf_waiting_unlocking _ Hr) as Hu.
  inversion Happ as [fl2 Hf Hv Hw|]; subst fl2.
  assert (forall x, covers x r = true -> holds_some fl' inode x (okey o)) as Hgot.
  { intros x Hx. destruct (placed_holders inode r o nonblocking fl fl' x) as (os & Hh & Hin & _);
      [done..|]. by exists (type r), os. }
  assert (forall i x t k, k <> okey o -> holds fl' i x t k <-> holds fl i x t k) as Honly.
  { intros i x t k Hk. unfold holds. rewrite Hv. case_decide as E; [|done].
    assert (table fl i = table fl inode) as -> by (unfold table; by rewrite E).
    unfold overlaid. destruct (covers x r); [by eapply overlay_other|done]. }
  split.
  - intros r' o' x ->%list_elem_of_singleton Ho' Hx. rewrite Ho in Ho'. simplify_eq. by apply Hgot.
  - intros i x k [t Hk]. destruct (decide (k = okey o)) as [->|Hne].
    + unfold holds_some, holds in *. rewrite Hv. case_decide as E; [|by eauto].
      assert (table fl i = table fl inode) as Et by (unfold table; by rewrite E).
      rewrite Et in Hk. destruct (covers x r) eqn:Ex; [|unfold overlaid; rewrite Ex; by eauto].
      destruct (Hgot x Ex) as (t' & os & Hh & Hin). rewrite Hv, decide_True in Hh by done. eauto.
    + exists t. by apply Honly.
  - intros i x t k Hk. apply Honly. intros ->. apply Hk. rewrite (request_keys_cons r o) by done.
    by left.
Qed.

Lemma grants_trans inode g1 g2 fl fl1 fl2 :
  grants inode g1 fl fl1 -> grants inode g2 fl1 fl2 -> grants inode (g1 ++ g2) fl fl2.
Proof.
  intros [A1 A2 A3] [B1 B2 B3]. split.
  - intros r o x [Hr|Hr]%elem_of_app Ho Hx; [|by eapply B1]. eapply B2, A1; done.
  - intros i x k Hk. by apply B2, A2.
  - intros i x t k Hk. unfold request_keys in Hk. rewrite fmap_app, concat_app, fmap_app in Hk.
    apply not_elem_of_app in Hk as [Hk1 Hk2]. rewrite B3 by done. by apply A3.
Qed.

(** The result of retrying: every waiting request is granted or waits again, the reported owners
    are those of the granted ones. *)
Definition retried (inode : Z) (waiting0 : list LockRange) (fl fl' : FileLocks)
  (reported : list Owner) : Prop :=
  wf_locks fl' /\
  (forall i, ikey i <> ikey inode -> waiting fl' i = waiting fl i) /\
  exists granted, reported = concat (owners <$> granted) /\
    waiting0 ≡ₚ granted ++ waiting fl' inode /\ grants inode granted fl fl'.

Lemma apply_candidates_ok inode q fl :
  wf_locks fl -> Forall wf_waiting q ->
  exists fl' reported, apply_candidates inode q fl = Some (fl', reported) /\
    retried inode (q ++ waiting fl inode) fl fl' reported.
Proof.
  intros Hwf HF. revert fl Hwf. induction HF as [|r q Hr HF IH]; intros fl Hwf; simpl.
  { exists fl, []. split; [done|]. split_and!; [done..|]. exists [].
    split_and!; [done..|apply grants_nil]. }
  destruct (apply_lock_ok inode r false fl) as (fl1 & ok & Ha & Hwf1 & Happ);
    [done|by apply wf_waiting_request|apply Hr|].
  destruct (IH fl1 Hwf1) as (fl2 & reported & Hc & Hwf2 & Ho & granted & -> & HP & Hg).
  rewrite Ha, Hc. eexists _, _. split; [done|]. split; [done|].
  destruct ok.
  - pose proof (placed_grants _ _ _ _ _ Hwf Hr Happ) as Hg1.
    inversion Happ as [? _ _ Hw|]; subst. split; [intros i Hi; by rewrite Ho, Hw|].
    exists (r :: granted). split_and!; [done| |by apply (grants_trans _ [r] _ _ fl1)].
    simpl. f_equiv. rewrite Hw in HP. done.
  - inversion Happ as [|? _ Ht Hw]; subst. split.
    { intros i Hi. rewrite Ho, Hw, decide_False; [done..|congruence]. }
    exists granted. split_and!; [done| |by eapply grants_same].
    rewrite Hw, decide_True in HP by done. rewrite queue_insert_Permutation in HP. rewrite <- HP.
    by rewrite Permutation_middle.
Qed.

Lemma try_pending_ok inode s e fl :
  wf_locks fl ->
  exists fl' reported, manageLockTryLockPending inode s e fl = Some (fl', reported) /\
    retried inode (waiting fl inode) fl fl' reported.
Proof.
  intros Hwf. unfold manageLockTryLockPending.
  destruct (gatherCandidates inode s e fl) as [q fl1] eqn:Eg.
  destruct (gatherCandidates_ok _ _ _ _ _ _ Hwf Eg) as (Hwf1 & HF & HP & Ho & Ht).
  destruct (apply_candidates_ok inode q fl1 Hwf1 HF)
    as (fl' & reported & Ha & Hwf' & Ho' & granted & Hr & HP' & Hg).
  exists fl', reported. split; [done|]. split; [done|]. split.
  - intros i Hi. by rewrite Ho', Ho.
  - exists granted. split_and!; [done| |by eapply grants_same]. by rewrite HP.
Qed.

(** ** lockOperation() *)

Lemma waiting_removePending inode pred fl i :
  waiting (removePending inode pred fl) i =
    if decide (ikey inode = ikey i) then remove_if pred (waiting fl inode) else waiting fl i.
Proof.
  unfold removePending. destruct (pending_locks fl !! ikey inode) as [q|] eqn:E.
  - assert (waiting fl inode = q) as -> by (unfold waiting; by rewrite E).
    destruct (Nat.eqb_spec (length (remove_if pred q)) 0) as [El|Hl].
    + unfold waiting. simpl. case_decide as Ek.
      * rewrite <- Ek, lookup_delete_eq. by apply nil_length_inv in El as ->.
      * by rewrite lookup_delete_ne.
    + by rewrite waiting_set_pending.
  - case_decide as Ek; [|done]. unfold waiting. by rewrite <- Ek, E.
Qed.

Lemma table_removePending inode pred fl i : table (removePending inode pred fl) i = table fl i.
Proof. unfold removePending. destruct (_ !! _); [|done]. by case_match. Qed.

(** The two operations that ask for a lock, and the lock they ask for. *)
Definition locking (oper : Z) : Prop := oper = op_shared \/ oper = op_exclusive.

Definition asked (oper s e : Z) (o : Owner) : LockRange :=
  Lock (if oper =? op_shared then kShared else kExclusive) s e o.

Definition mine (o : Owner) : LockRange -> bool :=
  owner_pred (fun p => (sessionid p =? sessionid o) && (owner p =? owner o)).

(** The requests that wait after the operation proper, before the queue is retried. *)
Definition queued_after (oper s e : Z) (o : Owner) (refused nonblocking : bool)
  (q : list LockRange) : list LockRange :=
  if oper =? op_release then remove_if (mine o) q
  else if refused && negb nonblocking then asked oper s e o :: q else q.

(** The state after the switch of lockOperation(). *)
Record switched (inode s e : Z) (o : Owner) (oper : Z) (nonblocking : bool)
  (fl fl1 : FileLocks) (success : bool) : Prop := MkSwitched {
  switched_wf : wf_locks fl1;
  switched_queue :
    waiting fl1 inode ≡ₚ queued_after oper s e o (negb success) nonblocking (waiting fl inode);
  switched_locking : locking oper ->
    success = true <-> grantable (asked oper s e o) (holders (table fl inode));
  switched_unlocking : ~ locking oper -> success = true;
  switched_held : locking oper -> success = true -> forall x, s <= x < e ->
    exists os, holders (table fl1 inode) x = Some (type (asked oper s e o), os) /\ okey o ∈ os /\
      (type (asked oper s e o) = kExclusive -> os = {[okey o]});
  switched_released : oper = op_release -> forall x t, 0 <= x < uint64_max ->
    ~ holds fl1 inode x t (okey o);
  switched_unlocked : oper = op_unlock -> forall x t, s <= x < e -> ~ holds fl1 inode x t (okey o);
  switched_others : forall i x t k, k <> okey o -> holds fl1 i x t k <-> holds fl i x t k;
  switched_outside : locking oper ->
    forall i x, holds_some fl i x (okey o) -> holds_some fl1 i x (okey o);
  switched_refused : success = false -> forall i, table fl1 i = table fl i;
  switched_elsewhere : forall i, ikey i <> ikey inode -> waiting fl1 i = waiting fl i;
}.

Lemma asked_wf oper s e o : s < e -> wf_waiting (asked oper s e o).
Proof. intros H. split_and!; simpl; [case_match; auto|done|done]. Qed.

Lemma covers_asked oper s e o x : s <= x < e -> covers x (asked oper s e o) = true.
Proof. unfold covers, asked. simpl. lia. Qed.

Lemma switch_locking_ok inode s e o oper nonblocking fl :
  wf_locks fl -> s < e -> locking oper ->
  exists fl1 success, apply_lock inode (asked oper s e o) nonblocking fl = Some (fl1, success) /\
    switched inode s e o oper nonblocking fl fl1 success.
Proof.
  intros Hwf Hlt Hop. pose proof (asked_wf oper s e o Hlt) as Hw.
  pose proof (wf_waiting_request _ Hw) as Hreq.
  destruct (apply_lock_ok inode (asked oper s e o) nonblocking fl)
    as (fl1 & ok & Ha & Hwf1 & Happ); [done..|].
  pose proof (fits_grantable _ _ (table_wf fl inode Hwf) Hreq Hlt) as Hg.
  assert ((oper =? op_release) = false) as Er
    by (unfold op_release; destruct Hop as [->| ->]; done).
  assert (oper <> op_release) as Er' by (by apply Z.eqb_neq in Er).
  exists fl1, ok. split; [done|]. destruct ok.
  - destruct (placed_grants _ _ _ _ _ Hwf Hw Happ) as [H1 H2 H3].
    inversion Happ as [fl2 Hf Hv Hq|]; subst fl2. split; try done.
    + unfold queued_after. rewrite Er, Hq. done.
    + intros _. split; [intros _|done]. destruct (proj1 Hg Hf) as [Hu|?]; [|done].
      by rewrite wf_waiting_unlocking in Hu.
    + intros _ _ x Hx. eapply (placed_holders _ (asked oper s e o) o nonblocking fl); try done.
      by apply covers_asked.
    + intros E. subst oper. by destruct Hop.
    + intros i x t k Hk. apply H3. rewrite (request_keys_cons _ o) by done. 
      intros [?|?%elem_of_nil]%elem_of_cons; done.
    + intros _ i x. apply H2.
  - inversion Happ as [|fl2 Hf Ht Hq]; subst fl2. split; try done.
    + unfold queued_after. rewrite Er, Hq, decide_True by done. destruct nonblocking; [done|].
      by rewrite queue_insert_Permutation.
    + intros _. split; [done|]. intros G. rewrite Hf in Hg. by rewrite Hg; right.
    + intros E. subst oper. by destruct Hop.
    + intros i x t k _. unfold holds. by rewrite Ht.
    + intros _ i x. unfold holds_some, holds. by rewrite Ht.
    + intros i Hi. by rewrite Hq, decide_False by congruence.
Qed.

Lemma switch_unlock_ok inode s e o nonblocking fl :
  wf_locks fl -> s < e ->
  exists fl1, unlock_range inode s e o fl = Some (fl1, true) /\
    switched inode s e o op_unlock nonblocking fl fl1 true.
Proof.
  intros Hwf Hlt. destruct (unlock_range_ok inode s e o fl) as (fl1 & Hu & Hwf1 & Hn & Ho & Hw);
    [done..|].
  exists fl1. split; [done|]. split; try done.
  - by rewrite Hw.
  - by intros [?|?].
  - by intros [?|?].
  - intros i x t k Hk. apply Ho. by left.
  - by intros [?|?].
Qed.

Lemma switch_release_ok inode s e o nonblocking fl :
  wf_locks fl ->
  exists fl1, unlock_range inode 0 uint64_max o (removePending inode (mine o) fl) = Some (fl1, true) /\
    switched inode s e o op_release nonblocking fl fl1 true.
Proof.
  intros Hwf. set (fl0 := removePending inode (mine o) fl).
  destruct (unlock_range_ok inode 0 uint64_max o fl0) as (fl1 & Hu & Hwf1 & Hn & Ho & Hw);
    [by apply removePending_wf|done|].
  assert (forall i x t k, holds fl0 i x t k <-> holds fl i x t k) as H0.
  { intros i x t k. unfold holds, fl0. by rewrite table_removePending. }
  exists fl1. split; [done|]. split; try done.
  - rewrite Hw. unfold fl0. by rewrite waiting_removePending, decide_True.
  - by intros [?|?].
  - by intros [?|?].
  - intros i x t k Hk. rewrite <- H0. apply Ho. by left.
  - by intros [?|?].
  - intros i Hi. rewrite Hw. unfold fl0. by rewrite waiting_removePending, decide_False by congruence.
Qed.

(** The operations lockOperation() knows. *)
Definition known_op (oper : Z) : Prop := locking oper \/ oper = op_release \/ oper = op_unlock.

Lemma lock_switch_ok inode s e o oper nonblocking fl :
  wf_locks fl -> s < e -> known_op oper ->
  exists fl1 success range, lock_switch inode s e o oper nonblocking fl =
      Some (Some (fl1, success), range) /\
    switched inode s e o oper nonblocking fl fl1 success /\
    (range = (s, e) \/ range = (0, uint64_max)).
Proof.
  intros Hwf Hlt Hop.
  destruct Hop as [[->| ->]|[->| ->]].
  - destruct (switch_locking_ok inode s e o op_shared nonblocking fl) as (fl1 & ok & Ha & Hs);
      [done|done|by left|]. exists fl1, ok, (s, e). split; [|by auto]. unfold lock_switch, sharedLock.
    simpl. unfold asked in Ha. simpl in Ha. by rewrite Ha.
  - destruct (switch_locking_ok inode s e o op_exclusive nonblocking fl) as (fl1 & ok & Ha & Hs);
      [done|done|by right|]. exists fl1, ok, (s, e). split; [|by auto]. unfold lock_switch, exclusiveLock.
    simpl. unfold asked in Ha. simpl in Ha. by rewrite Ha.
  - destruct (switch_release_ok inode s e o nonblocking fl) as (fl1 & Ha & Hs); [done|].
    exists fl1, true, (0, uint64_max). split; [|by auto]. unfold lock_switch. simpl. unfold mine in Ha. by rewrite Ha.
  - destruct (switch_unlock_ok inode s e o nonblocking fl) as (fl1 & Ha & Hs); [done..|].
    exists fl1, true, (s, e). split; [|by auto]. unfold lock_switch. simpl. by rewrite Ha.
Qed.

Lemma checkLockPermissions_ok ns inode :
  inode ∈ ns -> checkLockPermissions ns inode = SAUNAFS_STATUS_OK.
Proof. intros H. unfold checkLockPermissions. by rewrite decide_True. Qed.

Definition op_status (success : bool) : Z :=
  if success then SAUNAFS_STATUS_OK else SAUNAFS_ERROR_WAITING.

(** The whole operation: the switch, then the retry of the queue. *)
Lemma lockOperation_ok ns inode s e o oper nonblocking fl :
  wf_locks fl -> inode ∈ ns -> s < e -> known_op oper ->
  exists success fl1 fl' reported,
    lockOperation ns inode s e o oper nonblocking fl = Some (op_status success, fl', reported) /\
    switched inode s e o oper nonblocking fl fl1 success /\
    retried inode (waiting fl1 inode) fl1 fl' reported.
Proof.
  intros Hwf Hin Hlt Hop. unfold lockOperation. rewrite checkLockPermissions_ok by done.
  cbn [negb Z.eqb SAUNAFS_STATUS_OK].
  destruct (lock_switch_ok inode s e o oper nonblocking fl) as (fl1 & ok & [s' e'] & -> & Hs & _);
    [done..|].
  exists ok, fl1. destruct (oper =? op_exclusive) eqn:Ex.
  - exists fl1, []. split; [done|]. split; [done|]. split; [apply Hs|]. split; [done|].
    exists []. split_and!; [done..|apply grants_nil].
  - destruct (try_pending_ok inode s' e' fl1) as (fl' & reported & -> & Hr); [apply Hs|].
    by exists fl', reported.
Qed.

(** C10: A lock, unlock or release request on an existing file always completes.  A request for a
    lock answers OK iff it is compatible with the holders, and then its owner holds every byte of
    the range; an unlock always answers OK.  No waiting request is lost: those waiting before, plus
    the new one if it must wait, minus those a release withdraws, are the ones granted now and
    reported to their clients, and the ones that wait on.  A granted request holds its range, and no
    owner but the requesting one loses a byte of any file. *)
Theorem lockOperation_spec ns inode s e o oper nonblocking fl :
  wf_locks fl -> inode ∈ ns -> s < e -> known_op oper ->
  exists success fl' granted,
    lockOperation ns inode s e o oper nonblocking fl =
      Some (op_status success, fl', concat (owners <$> granted)) /\
    wf_locks fl' /\
    (locking oper -> success = true <-> grantable (asked oper s e o) (holders (table fl inode))) /\
    (~ locking oper -> success = true) /\
    (locking oper -> success = true -> forall x, s <= x < e -> holds_some fl' inode x (okey o)) /\
    queued_after oper s e o (negb success) nonblocking (waiting fl inode) ≡ₚ
      granted ++ waiting fl' inode /\
    (forall r p x, r ∈ granted -> owners r = [p] -> covers x r = true ->
      holds_some fl' inode x (okey p)) /\
    (forall i x k, k <> okey o -> holds_some fl i x k -> holds_some fl' i x k).
Proof.
  intros Hwf Hin Hlt Hop.
  destruct (lockOperation_ok ns inode s e o oper nonblocking fl)
    as (ok & fl1 & fl' & reported & He & Hs & Hwf' & Ho & granted & -> & HP & Hg); [done..|].
  destruct Hs, Hg. exists ok, fl', granted. split_and!; try done.
  - intros H1 H2 x Hx. destruct (switched_held0 H1 H2 x Hx) as (os & Hh & Hk & _).
    apply grants_keep0. by exists (type (asked oper s e o)), os.
  - rewrite <- HP. by symmetry.
  - intros i x k Hk [t Ht]. apply grants_keep0. exists t. by apply switched_others0.
Qed.

(** ** Releasing a session *)

(** An owner holds no byte below the last one of the file, and has no request waiting. *)
Definition gone (inode : Z) (k : Z * Z) (fl : FileLocks) : Prop :=
  (forall x t, 0 <= x < uint64_max -> ~ holds fl inode x t k) /\
  k ∉ request_keys (waiting fl inode).

Lemma request_keys_Permutation q q' : q ≡ₚ q' -> request_keys q ≡ₚ request_keys q'.
Proof. intros H. unfold request_keys. by rewrite H. Qed.

Lemma request_keys_app q q' : request_keys (q ++ q') = request_keys q ++ request_keys q'.
Proof. unfold request_keys. by rewrite fmap_app, concat_app, fmap_app. Qed.

Lemma elem_of_request_keys k q :
  k ∈ request_keys q <-> exists r o, r ∈ q /\ o ∈ owners r /\ okey o = k.
Proof.
  unfold request_keys. rewrite list_elem_of_fmap. setoid_rewrite elem_of_concat.
  setoid_rewrite list_elem_of_fmap. naive_solver.
Qed.

Lemma mine_key o r p : owners r = [p] -> mine o r = bool_decide (okey p = okey o).
Proof.
  intros Hp. unfold mine, owner_pred, the_owner. rewrite Hp. unfold okey.
  case_bool_decide as E.
  - injection E as -> ->. by rewrite !Z.eqb_refl.
  - apply andb_false_iff. destruct (Z.eqb_spec (sessionid p) (sessionid o)); [right|by left].
    apply Z.eqb_neq. intros ?. apply E. congruence.
Qed.

(** A withdrawn owner has no request left, and no other owner gains one. *)
Lemma request_keys_release o q :
  Forall wf_waiting q ->
  (okey o ∉ request_keys (remove_if (mine o) q)) /\
  (forall k, k ∈ request_keys (remove_if (mine o) q) -> k ∈ request_keys q).
Proof.
  intros HF. rewrite Forall_forall in HF. split.
  - intros (r & p & [Hr Hm]%elem_of_remove_if & Hp & Ek)%elem_of_request_keys.
    destruct (wf_waiting_owner r (HF _ Hr)) as [p' Ep]. rewrite Ep in Hp.
    apply list_elem_of_singleton in Hp as ->. rewrite (mine_key o r p') in Hm by done.
    by apply bool_decide_eq_false in Hm.
  - intros k (r & p & [Hr _]%elem_of_remove_if & Hp & Ek)%elem_of_request_keys.
    apply elem_of_request_keys. eauto.
Qed.

(** One release: the owner is gone, and an owner that was gone stays so. *)
Lemma release_ok ns inode s e o fl :
  wf_locks fl -> inode ∈ ns -> s < e ->
  exists fl' reported,
    lockOperation ns inode s e o op_release false fl = Some (SAUNAFS_STATUS_OK, fl', reported) /\
    wf_locks fl' /\ gone inode (okey o) fl' /\
    (forall k, gone inode k fl -> gone inode k fl') /\
    (forall i x k, k <> okey o -> holds_some fl i x k -> holds_some fl' i x k).
Proof.
  intros Hwf Hin Hlt.
  destruct (lockOperation_ok ns inode s e o op_release false fl)
    as (ok & fl1 & fl' & reported & He & Hs & Hwf' & Ho & granted & -> & HP & Hg);
    [done|done|done|by right; left|].
  destruct Hs as [Hwf1 Hq _ Hu _ Hrel _ Hoth _ _ _]. rewrite Hu in He by (by intros [?|?]).
  rewrite HP in Hq. unfold queued_after in Hq. cbn in Hq.
  pose proof (request_keys_Permutation _ _ Hq) as Hk. rewrite request_keys_app in Hk.
  pose proof (waiting_wf fl inode Hwf) as [HF _].
  destruct (request_keys_release o _ HF) as [Hgone Hsub].
  assert (forall k, k ∉ request_keys (remove_if (mine o) (waiting fl inode)) ->
    (k ∉ request_keys granted) /\ (k ∉ request_keys (waiting fl' inode))) as Hnone.
  { intros k Hn. rewrite <- Hk in Hn. by apply not_elem_of_app in Hn. }
  exists fl', (concat (owners <$> granted)). split; [done|]. split; [done|]. split_and!.
  - destruct (Hnone _ Hgone) as [Hn1 Hn2]. split; [|done]. intros x t Hx Hh.
    apply (grants_only _ _ _ _ Hg) in Hh; [|done]. by eapply Hrel.
  - intros k [Hk1 Hk2]. destruct (Hnone k) as [Hn1 Hn2]; [by intros ?%Hsub|].
    split; [|done]. intros x t Hx Hh. apply (grants_only _ _ _ _ Hg) in Hh; [|done].
    destruct (decide (k = okey o)) as [->|Hne]; [by eapply Hrel|].
    eapply Hk1; [done|]. by apply Hoth.
  - intros i x k Hne [t Ht]. apply (grants_keep _ _ _ _ Hg). exists t. by apply Hoth.
Qed.

Definition wf_server (s : LockServer) : Prop := wf_locks (flockLocks s) /\ wf_locks (posixLocks s).

(** The structure a kind of lock lives in. *)
Definition locks_of (kind : Z) (s : LockServer) : FileLocks :=
  if kind =? kFlock then flockLocks s else posixLocks s.

Lemma release_owner_ok inode sid kind own s :
  wf_server s -> inode ∈ nodes s ->
  exists s' reported, release_owner inode sid (kind, own) s = Some (SAUNAFS_STATUS_OK, s', reported) /\
    wf_server s' /\ nodes s' = nodes s /\ gone inode (own, sid) (locks_of kind s') /\
    (forall b k, gone inode k (locks_of b s) -> gone inode k (locks_of b s')) /\
    (forall b i x k, k <> (own, sid) -> holds_some (locks_of b s) i x k ->
      holds_some (locks_of b s') i x k).
Proof.
  intros [Hf Hp] Hin. unfold release_owner. simpl.
  destruct (kind =? kFlock) eqn:Ek.
  - destruct (release_ok (nodes s) inode 0 1 (MkOwner own sid 0 0) (flockLocks s))
      as (fl' & rep & He & Hwf' & Hg & Hk & Ho); [done|done|lia|].
    unfold flockOperation. rewrite He. eexists _, _. split; [done|]. split_and!; [done|done| | |].
    + unfold locks_of. by rewrite Ek.
    + intros b k. unfold locks_of. destruct (b =? kFlock); simpl; auto.
    + intros b i x k. unfold locks_of. destruct (b =? kFlock); simpl; auto.
  - destruct (release_ok (nodes s) inode 0 uint64_max (MkOwner own sid 0 0) (posixLocks s))
      as (fl' & rep & He & Hwf' & Hg & Hk & Ho); [done|done|done|].
    unfold posixLockOperation. rewrite He. eexists _, _. split; [done|]. split_and!; [done|done| | |].
    + unfold locks_of. by rewrite Ek.
    + intros b k. unfold locks_of. destruct (b =? kFlock); simpl; auto.
    + intros b i x k. unfold locks_of. destruct (b =? kFlock); simpl; auto.
Qed.

Lemma release_owners_ok inode sid os s :
  wf_server s -> inode ∈ nodes s ->
  exists s' wake, release_owners inode sid os s = Some (SAUNAFS_STATUS_OK, s', wake) /\
    wf_server s' /\ nodes s' = nodes s /\
    (forall kind own, (kind, own) ∈ os -> gone inode (own, sid) (locks_of kind s')) /\
    (forall b k, gone inode k (locks_of b s) -> gone inode k (locks_of b s')) /\
    (forall b i x k, k.2 <> sid -> holds_some (locks_of b s) i x k ->
      holds_some (locks_of b s') i x k).
Proof.
  revert s. induction os as [|[kind own] os IH]; intros s Hwf Hin; cbn [release_owners].
  { exists s, []. split_and!; [done..| |done|done]. intros kind own ?%elem_of_nil. done. }
  destruct (release_owner_ok inode sid kind own s) as (s1 & rep & -> & Hwf1 & Hn1 & Hg1 & Hk1 & Ho1);
    [done..|].
  destruct (IH s1) as (s2 & wake & -> & Hwf2 & Hn2 & Hg2 & Hk2 & Ho2); [done|by rewrite Hn1|].
  eexists _, _. split; [done|]. split_and!; [done|congruence| |auto|].
  - intros kind' own' [E|?]%elem_of_cons; [|auto]. simplify_eq. by apply Hk2.
  - intros b i x k Hne Hh. apply Ho2, Ho1; [done| |done]. intros ->. done.
Qed.

(** The flat list that the pages of one listing cover. *)
Definition listing (kind : Z) (pending : bool) (inode : Z) (s : LockServer) : list Info :=
  concat (store_lock inode <$>
    (if pending then waiting (locks_of kind s) inode else table (locks_of kind s) inode)).

Lemma locksListInode_page kind pending inode index s :
  kind = kFlock \/ kind = kPosix -> 0 <= index ->
  (locksListInode kind pending inode index list_limit s).2 =
    take 1024 (drop (Z.to_nat index) (listing kind pending inode s)).
Proof.
  intros Hk Hi.
  assert (exists put, select kind s = Some (locks_of kind s, put)) as [put Hs]
    by (destruct Hk as [->| ->]; by eexists).
  unfold locksListInode. rewrite Hs. simpl. unfold listing, copyPendingInode, copyActiveInode.
  destruct pending; [unfold waiting|unfold table]; destruct (_ !! ikey inode); simpl;
    by rewrite ?copyInode_page, ?drop_nil.
Qed.

Lemma list_pages_ok fuel kind pending inode sid offset s :
  kind = kFlock \/ kind = kPosix -> 0 <= offset ->
  Z.of_nat (length (listing kind pending inode s)) < offset + 1024 * Z.of_nat fuel ->
  list_pages fuel kind pending inode sid offset s =
    info_owner <$> filter (fun i => info_sessionid i = sid)
      (drop (Z.to_nat offset) (listing kind pending inode s)).
Proof.
  intros Hk. revert offset. induction fuel as [|fuel IH]; intros offset Ho Hlen; cbn [list_pages].
  { rewrite drop_ge by lia. done. }
  rewrite locksListInode_page by done. set (l := drop (Z.to_nat offset) _).
  assert (Z.of_nat (length l) < 1024 * Z.of_nat (S fuel)) as Hl
    by (unfold l; rewrite length_drop; lia).
  rewrite length_take. unfold list_limit.
  destruct (Z.ltb_spec (Z.of_nat (1024 `min` length l)) 1024) as [Hs|Hs].
  - rewrite take_ge by lia. done.
  - rewrite IH by lia. rewrite Z2Nat.inj_add by lia.
    rewrite <- drop_drop. fold l. change (Z.to_nat 1024) with 1024%nat.
    rewrite <- (take_drop 1024 l) at 3. by rewrite filter_app, fmap_app.
Qed.

(** Enough pages for the longest of the four listings. *)
Definition pages_enough (fuel : nat) (inode : Z) (s : LockServer) : Prop :=
  forall (kind : Z) (pending : bool), Z.of_nat (length (listing kind pending inode s)) < 1024 * Z.of_nat fuel.

Lemma listed_owner kind (pending : bool) fuel inode own sid s :
  kind = kFlock \/ kind = kPosix -> pages_enough fuel inode s ->
  (exists r o, r ∈ (if pending then waiting (locks_of kind s) inode
                    else table (locks_of kind s) inode) /\
    o ∈ owners r /\ okey o = (own, sid)) ->
  own ∈ list_pages fuel kind pending inode sid 0 s.
Proof.
  intros Hk Hp (r & o & Hr & Ho & [= <- <-]). rewrite list_pages_ok; [|done|lia|apply Hp].
  simpl. rewrite drop_0. apply list_elem_of_fmap. exists (info_of inode r o). split; [done|].
  apply list_elem_of_filter. split; [done|]. apply elem_of_concat.
  exists (store_lock inode r). split; apply list_elem_of_fmap; eauto.
Qed.

Lemma session_lock_owners_complete fuel kind inode own sid s :
  kind = kFlock \/ kind = kPosix -> pages_enough fuel inode s ->
  (exists (pending : bool) r o, r ∈ (if pending then waiting (locks_of kind s) inode
                    else table (locks_of kind s) inode) /\
    o ∈ owners r /\ okey o = (own, sid)) ->
  (kind, own) ∈ session_lock_owners fuel inode sid s.
Proof.
  intros Hk Hp (pending & Hex).
  pose proof (listed_owner kind pending fuel inode own sid s Hk Hp Hex) as Hin.
  unfold session_lock_owners. apply elem_of_app.
  assert (own ∈ merge_sort Z.le (elements (C := gset Z) (list_to_set
    (list_pages fuel kind false inode sid 0 s ++ list_pages fuel kind true inode sid 0 s)))) as H.
  { rewrite merge_sort_Permutation, elem_of_elements, elem_of_list_to_set, elem_of_app.
    destruct pending; auto. }
  destruct Hk as [->| ->]; [left|right]; apply list_elem_of_fmap; eauto.
Qed.

(** An owner that is listed nowhere is gone already. *)
Lemma unlisted_gone fuel kind inode own sid s :
  kind = kFlock \/ kind = kPosix -> pages_enough fuel inode s ->
  (kind, own) ∉ session_lock_owners fuel inode sid s -> gone inode (own, sid) (locks_of kind s).
Proof.
  intros Hk Hp Hn. split.
  - intros x t _ (os & Hh & Hin). apply Hn, session_lock_owners_complete; [done..|].
    apply holders_Some in Hh as (r & Hr & _ & [= _ ->]).
    apply elem_of_key_set in Hin as (o & Ho & Ek). exists false. eauto.
  - intros (r & o & Hr & Ho & Ek)%elem_of_request_keys. apply Hn, session_lock_owners_complete; [done..|].
    exists true. eauto.
Qed.

(** C12: Closing a session releases everything it has on an open file: after listing the owners page
    by page and releasing them one by one, no owner of the session holds a byte of the file or has
    a request waiting for it, neither flock nor posix, although releasing one owner may grant
    requests of another; and no other session loses a byte of any file. *)
Theorem session_release_complete fuel inode sid s :
  wf_server s -> inode ∈ nodes s -> pages_enough fuel inode s ->
  exists s' wake,
    locks_release inode sid (session_lock_owners fuel inode sid s) s =
      Some (SAUNAFS_STATUS_OK, s', wake) /\
    (forall own, gone inode (own, sid) (flockLocks s') /\ gone inode (own, sid) (posixLocks s')) /\
    (forall i x k, k.2 <> sid ->
      (holds_some (flockLocks s) i x k -> holds_some (flockLocks s') i x k) /\
      (holds_some (posixLocks s) i x k -> holds_some (posixLocks s') i x k)).
Proof.
  intros Hwf Hin Hp. unfold locks_release. rewrite decide_True by done.
  destruct (release_owners_ok inode sid (session_lock_owners fuel inode sid s) s)
    as (s' & wake & -> & _ & _ & Hg & Hk & Ho); [done..|].
  exists s', wake. split; [done|].
  assert (forall kind own, kind = kFlock \/ kind = kPosix -> gone inode (own, sid) (locks_of kind s')) as H.
  { intros kind own Hkind.
    destruct (decide ((kind, own) ∈ session_lock_owners fuel inode sid s)); [by apply Hg|].
    by eapply Hk, unlisted_gone. }
  split.
  - intros own. split; [by apply (H kFlock); left|by apply (H kPosix); right].
  - intros i x k Hne. split; [by apply (Ho kFlock)|by apply (Ho kPosix)].
Qed.

(** ** Nobody waits for a free flock *)

(** No request that waits for the file could be granted now. *)
Definition settled (fl : FileLocks) (inode : Z) : Prop :=
  forall r, r ∈ waiting fl inode -> ~ grantable r (holders (table fl inode)).

(** A request as flockOperation() makes it: the whole-file lock is the range [0, 1). *)
Definition whole_file (r : LockRange) : Prop := wf_waiting r /\ start r = 0 /\ end_ r = 1.

(** For such a request, what counts is who holds byte 0. *)
Lemma grantable_whole r o h :
  whole_file r -> owners r = [o] ->
  grantable r h <-> (forall t os, h 0 = Some (t, os) ->
    (type r = kShared /\ t = kShared) \/ os = {[okey o]}).
Proof.
  intros (_ & Hs & He) Ho. unfold grantable. rewrite (owner_set_request r o Ho). split.
  - intros H t os. apply H. unfold covers. rewrite Hs, He. done.
  - intros H x t os Hx. unfold covers in Hx. assert (x = 0) as -> by lia. apply H.
Qed.

Lemma settled_same inode fl fl' :
  (forall i, table fl' i = table fl i) -> waiting fl' inode ≡ₚ waiting fl inode ->
  settled fl inode -> settled fl' inode.
Proof. intros Ht Hw Hs r Hr. rewrite Ht. apply Hs. by rewrite <- Hw. Qed.

(** Candidates that cannot be granted are all put back. *)
Lemma apply_candidates_frozen inode q fl fl' reported :
  wf_locks fl -> Forall wf_waiting q ->
  (forall r, r ∈ q -> ~ grantable r (holders (table fl inode))) ->
  apply_candidates inode q fl = Some (fl', reported) ->
  (forall i, table fl' i = table fl i) /\ waiting fl' inode ≡ₚ q ++ waiting fl inode.
Proof.
  intros Hwf HF. revert fl fl' reported Hwf.
  induction HF as [|r q Hr HF IH]; intros fl fl' reported Hwf Hn; cbn [apply_candidates].
  { by intros [= <- <-]. }
  destruct (apply_lock_ok inode r false fl) as (fl1 & ok & -> & Hwf1 & Happ);
    [done|by apply wf_waiting_request|apply Hr|].
  destruct (apply_candidates inode q fl1) as [[fl2 rep]|] eqn:Ea; [|done].
  intros [= <- _]. inversion Happ as [? Hf Hv Hw|? Hf Ht Hw]; subst.
  { exfalso. apply (Hn r); [by left|].
    apply (fits_grantable _ _ (table_wf fl inode Hwf) (wf_waiting_request _ Hr)) in Hf;
      [|apply Hr]. destruct Hf as [Hf|]; [|done]. by rewrite wf_waiting_unlocking in Hf. }
  destruct (IH fl1 fl2 rep Hwf1) as [Ht' Hw']; [|done|].
  { intros r' Hr'. rewrite Ht. apply Hn. by right. }
  split; [intros i; by rewrite Ht', Ht|]. rewrite Hw', Hw, decide_True by done.
  rewrite queue_insert_Permutation. simpl. by rewrite Permutation_middle.
Qed.

(** One granted whole-file request leaves the requests of other owners ungrantable, unless its
    owner gave up an exclusive lock for it. *)
Lemma placed_still_refused inode r p nonblocking fl fl1 w o :
  wf_locks fl -> whole_file r -> owners r = [p] -> applied inode r nonblocking fl fl1 true ->
  holders (table fl inode) 0 <> Some (kExclusive, {[okey p]}) ->
  whole_file w -> owners w = [o] -> okey o <> okey p ->
  ~ grantable w (holders (table fl inode)) -> ~ grantable w (holders (table fl1 inode)).
Proof.
  intros Hwf Hr Hp Happ Hx Hw Ho Hne Hng.
  assert (covers 0 r = true) as Hc by (destruct Hr as (_ & E1 & E2); unfold covers; rewrite E1, E2; done).
  destruct (placed_holders inode r p nonblocking fl fl1 0) as (os & Hh & Hin & _);
    [done|apply Hr|done..|].
  rewrite (grantable_whole w o) by done. intros Hg. destruct (Hg _ _ Hh) as [[Ew Er]|E].
  2: { rewrite E in Hin. apply elem_of_singleton in Hin. done. }
  apply Hng. rewrite (grantable_whole w o) by done. intros t os' Hh'.
  inversion Happ as [? Hf Hv _|]; subst.
  apply (fits_grantable _ _ (table_wf fl inode Hwf) (wf_waiting_request _ (proj1 Hr))) in Hf;
    [|apply Hr]. destruct Hf as [Hf|Hf]; [by rewrite wf_waiting_unlocking in Hf by apply Hr|].
  rewrite (grantable_whole r p) in Hf by done. destruct (Hf _ _ Hh') as [[_ Ht]| ->]; [by left|].
  assert (wf_range_type : t = kShared \/ t = kExclusive).
  { apply holders_Some in Hh' as (l & Hl & _ & [= -> _]).
    destruct (table_wf fl inode Hwf) as [HF _]. rewrite Forall_forall in HF.
    destruct (HF l Hl) as (_ & [?|[? _]] & _); auto. }
  destruct wf_range_type as [->| ->]; [by left|done].
Qed.

(** The retry loop over whole-file requests of distinct owners: afterwards no request that was put
    back could be granted. *)
Lemma apply_candidates_settle inode q fl fl' reported :
  wf_locks fl -> Forall whole_file q -> Forall whole_file (waiting fl inode) ->
  NoDup (request_keys (q ++ waiting fl inode)) -> settled fl inode ->
  (forall k, k ∈ request_keys q -> holders (table fl inode) 0 <> Some (kExclusive, {[k]})) ->
  apply_candidates inode q fl = Some (fl', reported) -> settled fl' inode.
Proof.
  intros Hwf HF. revert fl fl' reported Hwf.
  induction HF as [|r q Hr HF IH]; intros fl fl' reported Hwf Hww Hnd Hs Hx;
    cbn [apply_candidates]. { by intros [= <- <-]. }
  destruct (wf_waiting_owner r (proj1 Hr)) as [p Hp].
  rewrite <- app_comm_cons, (request_keys_cons r p) in Hnd by done.
  apply NoDup_cons in Hnd as [Hnin Hnd]. rewrite (request_keys_cons r p) in Hx by done.
  destruct (apply_lock_ok inode r false fl) as (fl1 & ok & -> & Hwf1 & Happ);
    [done|by apply wf_waiting_request, Hr|apply Hr|].
  destruct (apply_candidates inode q fl1) as [[fl2 rep]|] eqn:Ea; [|done].
  intros [= <- _]. rewrite request_keys_app, elem_of_app in Hnin. destruct ok.
  - inversion Happ as [? Hf Hv Hw|]; subst. apply (IH fl1 fl2 rep); rewrite ?Hw; try done.
    + intros w Hin. rewrite Hw in Hin. rewrite Forall_forall in Hww. pose proof (Hww w Hin) as Hwh.
      destruct (wf_waiting_owner w (proj1 Hwh)) as [o Ho].
      apply (placed_still_refused inode r p false fl fl1 w o); try done; [apply Hx; by left| |by apply Hs].
      intros E. apply Hnin. right. apply elem_of_request_keys. exists w, o. rewrite Ho.
      split; [done|]. split; [by left|done].
    + intros k Hk. assert (covers 0 r = true) as Hc
        by (destruct Hr as (_ & E1 & E2); unfold covers; rewrite E1, E2; done).
      destruct (placed_holders inode r p false fl fl1 0) as (os & Hh & Hin & _);
        [done|apply Hr|done..|]. rewrite Hh. intros [= _ ->].
      apply elem_of_singleton in Hin. apply Hnin. left. by rewrite Hin.
  - inversion Happ as [|? Hf Ht Hw]; subst.
    assert (waiting fl1 inode ≡ₚ r :: waiting fl inode) as HP.
    { by rewrite Hw, decide_True, queue_insert_Permutation by done. }
    apply (IH fl1 fl2 rep); try done.
    + rewrite HP. by constructor.
    + rewrite (request_keys_Permutation (q ++ waiting fl1 inode) (r :: q ++ waiting fl inode)).
      2: { rewrite HP. by rewrite Permutation_middle. }
      rewrite (request_keys_cons r p), request_keys_app by done. constructor; [|by rewrite <- request_keys_app].
      rewrite elem_of_app. done.
    + intros w Hin. rewrite HP in Hin. rewrite Ht. apply elem_of_cons in Hin as [->|Hin]; [|by apply Hs].
      intros G. rewrite (proj2 (fits_grantable _ r (table_wf fl inode Hwf)
        (wf_waiting_request _ (proj1 Hr)) (proj2 (proj2 (proj1 Hr))))) in Hf; [done|by right].
    + intros k Hk. rewrite Ht. apply Hx. by right.
Qed.

Lemma partition_point_all {A} (p : A -> bool) l :
  Forall (fun x => p x = true) l -> partition_point p l = length l.
Proof. induction 1 as [|x l Hx _ IH]; simpl; [done|]. by rewrite Hx, IH. Qed.

(** The whole-file queue is gathered completely. *)
Lemma gather_whole inode e fl q fl' :
  0 <= e -> Forall whole_file (waiting fl inode) -> gatherCandidates inode 0 e fl = (q, fl') ->
  q = waiting fl inode /\ waiting fl' inode = [] /\ forall i, table fl' i = table fl i.
Proof.
  intros He HF. unfold gatherCandidates, waiting in *.
  destruct (pending_locks fl !! ikey inode) as [queue|] eqn:E; simpl in *; intros [= <- <-].
  2: by rewrite E.
  assert (search_start queue 0 = 0%nat) as ->.
  { unfold search_start. destruct HF as [|r queue (_ & Hs & _) _]; [done|]. simpl. by rewrite Hs. }
  assert (search_end queue e = length queue) as ->.
  { apply partition_point_all. eapply Forall_impl; [exact HF|]. intros r (_ & Hs & _).
    simpl. rewrite Hs. lia. }
  rewrite Nat.sub_0_r, drop_0, firstn_all, Nat.max_r, take_0, drop_all by lia. simpl.
  split; [done|]. split; [|done]. by rewrite lookup_insert_eq.
Qed.

Lemma whole_not_release_queue o q : Forall whole_file q -> Forall whole_file (remove_if (mine o) q).
Proof.
  rewrite !Forall_forall. intros H r [Hr _]%elem_of_remove_if. auto.
Qed.

Lemma request_keys_NoDup_release o q : NoDup (request_keys q) -> NoDup (request_keys (remove_if (mine o) q)).
Proof.
  intros H. eapply sublist_NoDup; [exact H|]. unfold request_keys. apply fmap_sublist.
  clear H. induction q as [|r q IH]; [done|]. rewrite remove_if_cons. csimpl.
  destruct (mine o r); csimpl; [by apply sublist_inserts_l|by apply sublist_app].
Qed.

(** After the switch, a whole-file request that waits is not the exclusive lock of its own owner. *)
Lemma switched_not_own inode o oper nonblocking fl fl1 success k :
  wf_locks fl -> switched inode 0 1 o oper nonblocking fl fl1 success ->
  Forall whole_file (waiting fl inode) -> settled fl inode -> oper <> op_exclusive ->
  success = true -> known_op oper -> k ∈ request_keys (waiting fl inode) ->
  holders (table fl1 inode) 0 <> Some (kExclusive, {[k]}).
Proof.
  intros Hwf Hs HF Hset Hne -> Hop Hk E.
  assert (k <> okey o) as Hko.
  { intros ->. assert (holds fl1 inode 0 kExclusive (okey o)) as Hh
      by (eexists; split; [exact E|by apply elem_of_singleton]).
    destruct Hop as [Hop|[->| ->]].
    - destruct (switched_held _ _ _ _ _ _ _ _ _ Hs Hop eq_refl 0) as (os & Hh' & _); [lia|].
      rewrite E in Hh'. destruct Hop as [->| ->]; [|done]. simplify_eq.
    - eapply (switched_released _ _ _ _ _ _ _ _ _ Hs); [done| |exact Hh]. done.
    - eapply (switched_unlocked _ _ _ _ _ _ _ _ _ Hs); [done| |exact Hh]. lia. }
  assert (holds fl1 inode 0 kExclusive k) as Hh
    by (eexists; split; [exact E|by apply elem_of_singleton]).
  apply (switched_others _ _ _ _ _ _ _ _ _ Hs) in Hh; [|done].
  apply elem_of_request_keys in Hk as (r & p & Hr & Hp & Ek).
  rewrite Forall_forall in HF. pose proof (HF r Hr) as Hwr.
  destruct (wf_waiting_owner r (proj1 Hwr)) as [p' Ep]. rewrite Ep in Hp.
  apply list_elem_of_singleton in Hp as ->.
  apply (Hset r Hr). rewrite (grantable_whole r p') by done.
  intros t os Hh'. right. destruct Hh as (os' & Hh'' & Hin). rewrite Hh'' in Hh'. simplify_eq.
  apply set_eq. intros k'. rewrite elem_of_singleton. split; [|by intros ->].
  intros Hk'. eapply (wf_exclusive fl inode 0); [done|by exists os|by exists os].
Qed.

(** An exclusive request settles the file without a retry. *)
Lemma switched_exclusive_settled inode o nonblocking fl fl1 success :
  wf_locks fl -> switched inode 0 1 o op_exclusive nonblocking fl fl1 success ->
  Forall whole_file (waiting fl inode) -> settled fl inode -> settled fl1 inode.
Proof.
  intros Hwf Hs HF Hset r Hr. pose proof (switched_queue _ _ _ _ _ _ _ _ _ Hs) as Hq.
  assert (locking op_exclusive) as Hl by (by right).
  assert (whole_file (asked op_exclusive 0 1 o)) as Hwa by (split; [by apply asked_wf|done]).
  pose proof (switched_locking _ _ _ _ _ _ _ _ _ Hs Hl) as Hg.
  destruct success; unfold queued_after in Hq; simpl in Hq; rewrite Hq in Hr.
  - destruct (switched_held _ _ _ _ _ _ _ _ _ Hs Hl eq_refl 0) as (os & Hh & Hin & Hos); [lia|].
    rewrite Hos in Hh by done. rewrite Forall_forall in HF. pose proof (HF r Hr) as Hwr.
    destruct (wf_waiting_owner r (proj1 Hwr)) as [p Hp]. rewrite (grantable_whole r p) by done.
    intros G. destruct (G _ _ Hh) as [[_ ?]|E]; [done|]. apply (Hset r Hr).
    rewrite (grantable_whole r p) by done. intros t os' Hh'. right.
    destruct (proj1 (grantable_whole _ o _ Hwa eq_refl) (proj1 Hg eq_refl) _ _ Hh') as [[? _]|Eo];
      [done|]. rewrite Eo. done.
  - rewrite (switched_refused _ _ _ _ _ _ _ _ _ Hs) by done. destruct nonblocking; simpl in Hr; [by apply Hset|].
    apply elem_of_cons in Hr as [->|Hr]; [|by apply Hset]. intros G. by apply Hg in G.
Qed.

(** The retry after a granted shared request, an unlock or a release. *)
Lemma retry_settles inode o oper nonblocking fl fl1 e fl' reported :
  wf_locks fl -> switched inode 0 1 o oper nonblocking fl fl1 true ->
  Forall whole_file (waiting fl inode) -> NoDup (request_keys (waiting fl inode)) ->
  settled fl inode -> oper <> op_exclusive -> known_op oper -> 0 <= e ->
  manageLockTryLockPending inode 0 e fl1 = Some (fl', reported) -> settled fl' inode.
Proof.
  intros Hwf Hs HF Hnd Hset Hne Hop He. unfold manageLockTryLockPending.
  destruct (gatherCandidates inode 0 e fl1) as [q fl2] eqn:Eg.
  pose proof (switched_queue _ _ _ _ _ _ _ _ _ Hs) as Hq. unfold queued_after in Hq. cbn [negb andb] in Hq.
  assert (Forall whole_file (waiting fl1 inode)) as HF1.
  { rewrite Hq. destruct (oper =? op_release); [by apply whole_not_release_queue|done]. }
  destruct (gather_whole inode e fl1 q fl2 He HF1 Eg) as (-> & Hw2 & Ht2).
  destruct (gatherCandidates_ok _ _ _ _ _ _ (switched_wf _ _ _ _ _ _ _ _ _ Hs) Eg) as (Hwf2 & _).
  apply apply_candidates_settle; rewrite ?Hw2, ?app_nil_r; try done.
  - rewrite (request_keys_Permutation _ _ Hq).
    destruct (oper =? op_release); [by apply request_keys_NoDup_release|done].
  - intros r Hr. rewrite Hw2 in Hr. by apply elem_of_nil in Hr.
  - intros k Hk. rewrite Ht2. apply (switched_not_own inode o oper nonblocking fl fl1 true); try done.
    rewrite (request_keys_Permutation _ _ Hq) in Hk.
    destruct (oper =? op_release); [|done].
    apply (request_keys_release o (waiting fl inode)); [|done].
    eapply Forall_impl; [exact HF|]. by intros r [? _].
Qed.

(** The retry after a refused request finds nothing to grant either. *)
Lemma refused_settles inode s e o oper nonblocking fl fl1 lo hi fl' reported :
  wf_locks fl -> switched inode s e o oper nonblocking fl fl1 false -> known_op oper ->
  settled fl inode -> manageLockTryLockPending inode lo hi fl1 = Some (fl', reported) ->
  settled fl' inode.
Proof.
  intros Hwf Hs Hop Hset. unfold manageLockTryLockPending.
  destruct (gatherCandidates inode lo hi fl1) as [q fl2] eqn:Eg. intros Ha.
  destruct (gatherCandidates_ok _ _ _ _ _ _ (switched_wf _ _ _ _ _ _ _ _ _ Hs) Eg)
    as (Hwf2 & HF & HP & _ & Ht2).
  assert (settled fl1 inode) as Hset1.
  { pose proof (switched_queue _ _ _ _ _ _ _ _ _ Hs) as Hq. unfold queued_after in Hq.
    assert (locking oper) as Hl.
    { destruct Hop as [?|Hop]; [done|]. exfalso.
      assert (~ locking oper) as Hnl by (destruct Hop as [->| ->]; by intros [?|?]).
      by apply (switched_unlocking _ _ _ _ _ _ _ _ _ Hs) in Hnl. }
    assert ((oper =? op_release) = false) as Er by (by destruct Hl as [->| ->]).
    rewrite Er in Hq. intros r Hr. rewrite (switched_refused _ _ _ _ _ _ _ _ _ Hs) by done.
    rewrite Hq in Hr. destruct nonblocking; [by apply Hset|].
    apply elem_of_cons in Hr as [->|Hr]; [|by apply Hset]. intros G.
    by apply (switched_locking _ _ _ _ _ _ _ _ _ Hs Hl) in G. }
  destruct (apply_candidates_frozen inode q fl2 fl' reported) as [Ht Hw]; try done.
  { intros r Hr. rewrite Ht2. apply Hset1. rewrite HP. apply elem_of_app. by left. }
  apply (settled_same inode fl1); [intros i; by rewrite Ht, Ht2| |done]. by rewrite Hw, HP.
Qed.

(** One request: none that still waits could be granted. *)
Lemma flock_step_settled ns inode o oper nonblocking fl :
  wf_locks fl -> Forall whole_file (waiting fl inode) ->
  NoDup (request_keys (waiting fl inode)) -> settled fl inode -> inode ∈ ns -> known_op oper ->
  exists status fl' reported,
    lockOperation ns inode 0 1 o oper nonblocking fl = Some (status, fl', reported) /\
    settled fl' inode.
Proof.
  intros Hwf HF Hnd Hset Hin Hop. unfold lockOperation. rewrite checkLockPermissions_ok by done.
  cbn [negb Z.eqb SAUNAFS_STATUS_OK].
  destruct (lock_switch_ok inode 0 1 o oper nonblocking fl)
    as (fl1 & ok & [s' e'] & -> & Hs & Hrange); [done|lia|done|].
  assert (s' = 0 /\ 0 <= e') as [-> He] by (destruct Hrange; simplify_eq; done).
  destruct (Z.eqb_spec oper op_exclusive) as [->|Hne].
  { eexists _, _, _. split; [done|]. by eapply switched_exclusive_settled. }
  destruct (try_pending_ok inode 0 e' fl1) as (fl' & reported & Ht & _); [apply Hs|].
  rewrite Ht. eexists _, _, _. split; [done|]. destruct ok; [by eapply retry_settles|].
  eapply refused_settles; done.
Qed.

(** ** Histories of flock requests *)

(** Only the entries of one file differ. *)
Definition elsewhere (inode : Z) (fl fl' : FileLocks) : Prop :=
  forall i, ikey i <> ikey inode -> table fl' i = table fl i /\ waiting fl' i = waiting fl i.

#[local] Instance elsewhere_preorder inode : PreOrder (elsewhere inode).
Proof.
  split; [done|]. intros fl1 fl2 fl3 H1 H2 i Hi. destruct (H1 i Hi) as [<- <-]. by apply H2.
Qed.

Lemma apply_lock_elsewhere inode lock nb fl fl' ok :
  apply_lock inode lock nb fl = Some (fl', ok) -> elsewhere inode fl fl'.
Proof.
  unfold apply_lock, enqueue. intros H i Hi. assert (ikey inode <> ikey i) as Hi' by congruence.
  repeat case_match; simplify_eq/=; unfold table, waiting; simpl; by rewrite ?lookup_delete_ne, ?lookup_insert_ne by done.
Qed.

Lemma removePending_elsewhere inode pred fl : elsewhere inode fl (removePending inode pred fl).
Proof.
  intros i Hi. rewrite table_removePending, waiting_removePending, decide_False by congruence. done.
Qed.

Lemma apply_candidates_elsewhere inode q : forall fl fl' reported,
  apply_candidates inode q fl = Some (fl', reported) -> elsewhere inode fl fl'.
Proof.
  induction q as [|r q IH]; intros fl fl' reported; cbn [apply_candidates]; [by intros [= <- _]|].
  destruct (apply_lock inode r false fl) as [[fl1 ok]|] eqn:Ea; [|done].
  destruct (apply_candidates inode q fl1) as [[fl2 rep]|] eqn:Ec; [|done]. intros [= <- _].
  etransitivity; [by eapply apply_lock_elsewhere|by eapply IH].
Qed.

Lemma try_pending_elsewhere inode s e fl fl' reported :
  manageLockTryLockPending inode s e fl = Some (fl', reported) -> elsewhere inode fl fl'.
Proof.
  unfold manageLockTryLockPending, gatherCandidates. intros H.
  destruct (pending_locks fl !! ikey inode) as [q|]; apply apply_candidates_elsewhere in H; [|done].
  etransitivity; [|exact H]. intros i Hi. unfold table, waiting. simpl. by rewrite lookup_insert_ne by congruence.
Qed.

Lemma lockOperation_elsewhere ns inode s e o oper nb fl status fl' reported :
  lockOperation ns inode s e o oper nb fl = Some (status, fl', reported) -> elsewhere inode fl fl'.
Proof.
  unfold lockOperation. destruct (negb _); [by intros [= _ <- _]|].
  destruct (lock_switch inode s e o oper nb fl) as [[[[fl1 ok]|] [s' e']]|] eqn:Es; [|done|by intros [= _ <- _]].
  assert (elsewhere inode fl fl1) as H1.
  { unfold lock_switch, sharedLock, exclusiveLock, unlock_range in Es. repeat case_match; simplify_eq;
      try by eapply apply_lock_elsewhere. etransitivity; [apply removePending_elsewhere|by eapply apply_lock_elsewhere]. }
  destruct (oper =? op_exclusive); [by intros [= _ <- _]|].
  destruct (manageLockTryLockPending inode s' e' fl1) as [[fl2 rep]|] eqn:Et; [|done]. intros [= _ <- _].
  etransitivity; [exact H1|by eapply try_pending_elsewhere].
Qed.

(** What flock requests leave of one file: whole-file requests of different owners wait, and none of them could be
    granted. *)
Definition quiet_file (fl : FileLocks) (inode : Z) : Prop :=
  Forall whole_file (waiting fl inode) /\ NoDup (request_keys (waiting fl inode)) /\ settled fl inode.

Definition quiet_flocks (fl : FileLocks) : Prop := wf_locks fl /\ forall inode, quiet_file fl inode.

(** The requests of a server in any order: an owner that waits for a file does not ask for another lock of it; requests
    for posix locks, for unknown files and with unknown operations may come too. *)
Inductive flock_run : LockServer -> Prop :=
  | flock_start s : flockLocks s = empty_locks -> flock_run s
  | flock_request s inode o oper nb status s' reported :
      flock_run s ->
      (locking oper -> nb = false -> okey o ∉ request_keys (waiting (flockLocks s) inode)) ->
      flockOperation true inode o oper nb s = Some (status, s', reported) -> flock_run s'
  | flock_other s inode st en o oper nb status s' reported :
      flock_run s -> posixLockOperation true inode st en o oper nb s = Some (status, s', reported) -> flock_run s'
  | flock_interrupt s ownerid sid inode req status s' reported :
      flock_run s -> locksRemovePending true kFlock ownerid sid inode req s = Some (status, s', reported) -> flock_run s'
  | flock_unlock s kind inode status s' reported :
      flock_run s -> locksUnlockInode true kind inode s = Some (status, s', reported) -> flock_run s'.

Lemma quiet_elsewhere inode fl fl' :
  elsewhere inode fl fl' -> quiet_file fl' inode -> (forall i, quiet_file fl i) -> forall i, quiet_file fl' i.
Proof.
  intros He Hq H i. destruct (decide (ikey i = ikey inode)) as [E|Hi].
  - assert (table fl' i = table fl' inode /\ waiting fl' i = waiting fl' inode) as [Et Ew]
      by (unfold table, waiting; by rewrite E). unfold quiet_file, settled in *. by rewrite Et, Ew.
  - destruct (He i Hi) as [Et Ew]. specialize (H i). unfold quiet_file, settled in *. by rewrite Et, Ew.
Qed.

Lemma request_keys_sublist q q' : q `sublist_of` q' -> NoDup (request_keys q') -> NoDup (request_keys q).
Proof.
  intros Hs Hnd. eapply sublist_NoDup; [exact Hnd|]. unfold request_keys. apply fmap_sublist. clear Hnd.
  induction Hs as [|r q q' Hs IH|r q q' Hs IH]; csimpl; [done|by apply sublist_app|by apply sublist_inserts_l].
Qed.

Lemma quiet_removePending fl inode pred :
  quiet_flocks fl -> quiet_flocks (removePending inode pred fl).
Proof.
  intros [Hwf H]. split; [by apply removePending_wf|]. destruct (H inode) as (HF & Hnd & Hset).
  eapply quiet_elsewhere; [apply removePending_elsewhere| |done].
  unfold quiet_file, settled. rewrite table_removePending, waiting_removePending, decide_True by done. split_and!.
  - rewrite Forall_forall in *. intros r [Hr _]%elem_of_remove_if. by apply HF.
  - eapply request_keys_sublist; [apply remove_if_sublist|done].
  - intros r [Hr _]%elem_of_remove_if. by apply Hset.
Qed.

(** What waits after an operation waited before, or is the new request. *)
Lemma queue_quiet oper o refused nb q :
  Forall whole_file q -> NoDup (request_keys q) -> (~ locking oper -> refused = false) ->
  (locking oper -> nb = false -> okey o ∉ request_keys q) ->
  Forall whole_file (queued_after oper 0 1 o refused nb q) /\ NoDup (request_keys (queued_after oper 0 1 o refused nb q)).
Proof.
  intros HF Hnd Href Hnew. unfold queued_after. destruct (Z.eqb_spec oper op_release) as [->|Hr].
  { split; [by apply whole_not_release_queue|by apply request_keys_NoDup_release]. }
  destruct refused; [|done]. destruct nb; [done|]. cbn [andb negb].
  assert (locking oper) as Hl.
  { unfold locking in *. destruct (decide (oper = op_shared \/ oper = op_exclusive)) as [?|Hn]; [done|]. by apply Href in Hn. }
  rewrite (request_keys_cons _ o) by done. split; constructor; try done; [|by apply Hnew].
  split; [by apply asked_wf|done].
Qed.

Lemma quiet_Permutation q q' :
  q ≡ₚ q' -> Forall whole_file q -> NoDup (request_keys q) -> Forall whole_file q' /\ NoDup (request_keys q').
Proof. intros HP HF Hnd. split; [by rewrite <-HP|by rewrite <-(request_keys_Permutation _ _ HP)]. Qed.

Lemma quiet_tail granted q :
  Forall whole_file (granted ++ q) -> NoDup (request_keys (granted ++ q)) -> Forall whole_file q /\ NoDup (request_keys q).
Proof.
  intros HF Hnd. apply Forall_app in HF as [_ HF]. rewrite request_keys_app in Hnd. by apply NoDup_app in Hnd as (_ & _ & Hnd).
Qed.

Lemma quiet_request ns inode o oper nb fl status fl' reported :
  quiet_flocks fl -> (locking oper -> nb = false -> okey o ∉ request_keys (waiting fl inode)) ->
  lockOperation ns inode 0 1 o oper nb fl = Some (status, fl', reported) -> quiet_flocks fl'.
Proof.
  intros [Hwf H] Hnew E. pose proof (lockOperation_elsewhere _ _ _ _ _ _ _ _ _ _ _ E) as He. destruct (H inode) as (HF & Hnd & Hset).
  destruct (decide (inode ∈ ns)) as [Hin|Hin].
  2: { unfold lockOperation, checkLockPermissions in E. rewrite decide_False in E by done. cbn in E. by simplify_eq. }
  destruct (decide (known_op oper)) as [Hop|Hop].
  2: { unfold lockOperation in E. rewrite checkLockPermissions_ok in E by done. cbn [negb Z.eqb SAUNAFS_STATUS_OK] in E.
       unfold lock_switch in E. unfold known_op, locking in Hop.
       rewrite !(proj2 (Z.eqb_neq _ _)) in E by (intros ->; tauto). by simplify_eq. }
  destruct (lockOperation_ok ns inode 0 1 o oper nb fl) as (ok & fl1 & fl2 & rep & E' & Hs & Hwf' & _ & granted & _ & HP & _); [done|done|lia|done|].
  assert (fl2 = fl') as -> by congruence.
  destruct (flock_step_settled ns inode o oper nb fl) as (? & fl3 & ? & E2 & Hset'); [done..|]. assert (fl3 = fl') as -> by congruence.
  split; [done|]. eapply quiet_elsewhere; [exact He| |done].
  destruct (queue_quiet oper o (negb ok) nb (waiting fl inode)) as [HF1 Hnd1]; try done.
  { intros Hl. by rewrite (switched_unlocking _ _ _ _ _ _ _ _ _ Hs Hl). }
  destruct (quiet_Permutation _ (granted ++ waiting fl' inode) (transitivity (symmetry (switched_queue _ _ _ _ _ _ _ _ _ Hs)) HP) HF1 Hnd1) as [HF2 Hnd2].
  destruct (quiet_tail _ _ HF2 Hnd2). done.
Qed.

(** All locks of a file are dropped, and all that wait are tried. *)
Lemma quiet_unlock inode fl fl' reported :
  quiet_flocks fl -> manageLockTryLockPending inode 0 1 (unlock_inode inode fl) = Some (fl', reported) -> quiet_flocks fl'.
Proof.
  intros [Hwf H] E. destruct (H inode) as (HF & Hnd & _). set (fl0 := unlock_inode inode fl) in *.
  assert (wf_locks fl0) as Hwf0 by (by apply wf_locks_active_delete).
  assert (table fl0 inode = [] /\ waiting fl0 inode = waiting fl inode) as [Et Ew]
    by (unfold table, waiting; simpl; by rewrite lookup_delete_eq).
  assert (elsewhere inode fl fl0) as He by (intros i Hi; unfold table, waiting; simpl; by rewrite lookup_delete_ne by congruence).
  destruct (try_pending_ok inode 0 1 fl0 Hwf0) as (fl2 & rep & E' & Hwf' & _ & granted & _ & HP & _). assert (fl2 = fl') as -> by congruence.
  split; [done|]. eapply quiet_elsewhere; [etransitivity; [exact He|by eapply try_pending_elsewhere]| |done].
  rewrite Ew in HP. destruct (quiet_Permutation _ _ HP HF Hnd) as [HF2 Hnd2]. destruct (quiet_tail _ _ HF2 Hnd2) as [HF3 Hnd3].
  split_and!; [done|done|]. unfold manageLockTryLockPending in E'. destruct (gatherCandidates inode 0 1 fl0) as [q fl3] eqn:Eg.
  destruct (gather_whole inode 1 fl0 q fl3) as (-> & Hw & Ht); [lia|by rewrite Ew|done|].
  eapply apply_candidates_settle; [| | | | | |exact E']; rewrite ?Hw, ?app_nil_r, ?Ew, ?Ht, ?Et; try done.
  - by destruct (gatherCandidates_ok _ _ _ _ _ _ Hwf0 Eg) as [? _].
  - intros r Hr. rewrite Hw in Hr. by apply elem_of_nil in Hr.
Qed.

Lemma flock_run_quiet s : flock_run s -> quiet_flocks (flockLocks s).
Proof.
  induction 1 as [s E|s inode o oper nb status s' reported _ IH Hnew E|s inode st en o oper nb status s' reported _ IH E|
    s own sid inode req status s' reported _ IH E|s kind inode status s' reported _ IH E].
  - rewrite E. split; [apply empty_locks_wf|]. intros inode. assert (waiting empty_locks inode = []) as Ew by (unfold waiting; simpl; by rewrite lookup_empty).
    unfold quiet_file, settled. rewrite Ew. split_and!; [constructor|constructor|]. intros r Hr. by apply elem_of_nil in Hr.
  - unfold flockOperation in E. destruct (lockOperation _ _ _ _ _ _ _ _) as [[[st fl] ap]|] eqn:El; [|done]. simplify_eq.
    by eapply quiet_request.
  - unfold posixLockOperation in E. destruct (lockOperation _ _ _ _ _ _ _ _) as [[[st' fl] ap]|]; [|done]. by simplify_eq.
  - cbn [locksRemovePending select kFlock Z.eqb] in E. simplify_eq. by apply quiet_removePending.
  - unfold locksUnlockInode, select in E. destruct (Z.eqb_spec kind kFlock) as [->|Hk].
    + cbn [kFlock Z.eqb] in E. destruct (manageLockTryLockPending _ _ _ _) as [[fl ap]|] eqn:El; [|done]. simplify_eq. by eapply quiet_unlock.
    + destruct (kind =? kPosix); [|by simplify_eq]. destruct (manageLockTryLockPending _ _ _ _) as [[fl ap]|]; [|done]. by simplify_eq.
Qed.

(** C11: Nobody waits for a flock that is free for the taking.  From empty tables on, after any requests for flocks and
    posix locks, interrupts of waiting requests and unlocks of whole files, in any order, no flock request that waits
    could be granted.  An owner that waits for a file does not ask for another lock of it. *)
Theorem flock_settled s inode r :
  flock_run s -> r ∈ waiting (flockLocks s) inode -> ~ grantable r (holders (table (flockLocks s) inode)).
Proof. intros H%flock_run_quiet. destruct H as [_ H]. by apply H. Qed.

(** ** Witnesses *)

Lemma lockOperation_spec_witness :
  exists success fl' granted,
    lockOperation {[7]} 7 12 35 (ex_owner 3) op_unlock false ex_locks =
      Some (op_status success, fl', concat (owners <$> granted)).
Proof.
  destruct (lockOperation_spec {[7]} 7 12 35 (ex_owner 3) op_unlock false ex_locks)
    as (success & fl' & granted & H & _).
  - apply ex_locks_wf.
  - by apply elem_of_singleton.
  - lia.
  - by right; right.
  - by exists success, fl', granted.
Defined.

Definition ex_server : LockServer := MkServer empty_locks ex_locks {[7]} 0 [].

Lemma session_release_complete_witness :
  exists s' wake, locks_release 7 1 (session_lock_owners 1 7 1 ex_server) ex_server =
      Some (SAUNAFS_STATUS_OK, s', wake) /\
    forall own, gone 7 (own, 1) (flockLocks s') /\ gone 7 (own, 1) (posixLocks s').
Proof.
  destruct (session_release_complete 1 7 1 ex_server) as (s' & wake & H & Hg & _).
  - split; [apply empty_locks_wf|apply ex_locks_wf].
  - cbn [nodes ex_server]. by apply elem_of_singleton.
  - intros kind pending. unfold listing, locks_of.
    destruct (kind =? kFlock), pending; vm_compute; reflexivity.
  - exists s', wake. split; [exact H|exact Hg].
Defined.

(** Owner 1 takes the file, owners 2 and 3 wait for it, owner 1 gives it back. *)
Definition flock_of (n oper : Z) (s : LockServer) : LockServer :=
  match flockOperation true 7 (ex_owner n) oper false s with Some (_, s', _) => s' | None => s end.

Definition ex_handed_over : LockServer :=
  flock_of 1 op_unlock (flock_of 3 op_exclusive (flock_of 2 op_exclusive (flock_of 1 op_exclusive (set_posix empty_locks ex_server)))).

Lemma flock_of_run n oper s :
  flock_run s -> bool_decide (okey (ex_owner n) ∉ request_keys (waiting (flockLocks s) 7)) = true -> flock_run (flock_of n oper s).
Proof.
  intros H Hn%bool_decide_eq_true. unfold flock_of. destruct (flockOperation _ _ _ _ _ _) as [[[st s'] rep]|] eqn:E; [|done].
  by eapply flock_request.
Qed.

Lemma ex_handed_over_run : flock_run ex_handed_over.
Proof. do 4 (apply flock_of_run; [|vm_compute; reflexivity]). by apply flock_start. Qed.

(** Owner 3 now has the file; owner 2 waits, and could not be granted it. *)
Lemma flock_settled_witness :
  exists r, waiting (flockLocks ex_handed_over) 7 = [r] /\ ~ grantable r (holders (table (flockLocks ex_handed_over) 7)).
Proof.
  exists (Lock kExclusive 0 1 (ex_owner 2)). assert (waiting (flockLocks ex_handed_over) 7 = [Lock kExclusive 0 1 (ex_owner 2)]) as E
    by (vm_compute; reflexivity). split; [exact E|].
  apply (flock_settled ex_handed_over 7 (Lock kExclusive 0 1 (ex_owner 2)) ex_handed_over_run). rewrite E. by left.
Defined.


