(* ===== verification/LockReplay.v ===== *)
(** How a shadow's lock structures relate to the master's.  The changelog carries neither the ids of
    a client's request nor whether it was blocking, and the owners of a lock are compared without
    those ids.  So every operation on the lock structures commutes with forgetting the ids, and a
    shadow that replays a history of blocking requests has the master's tables and queues with the
    ids forgotten.  Three kinds of history fall outside: refused non-blocking requests, requests
    that fail, and interrupted waits; for each there is a theorem that shows the divergence. *)
From stdpp Require Import base gmap sets list sorting.
From Stdlib Require Import ZArith Lia.
From S2P Require Import Prelude LockRanges FileLocks LockOps.
Open Scope Z_scope.

Abbreviation F := forget_request.
Abbreviation Fo := forget_owner.

(** ** One lock *)

Lemma forget_set_start x r : F (set_start x r) = set_start x (F r).
Proof. done. Qed.
Lemma forget_set_end x r : F (set_end x r) = set_end x (F r).
Proof. done. Qed.
Lemma forget_set_type t r : F (set_type t r) = set_type t (F r).
Proof. done. Qed.

Lemma Owner_eqb_forget a b : Owner_eqb (Fo a) (Fo b) = Owner_eqb a b.
Proof. done. Qed.
Lemma Owner_ltb_forget a b : Owner_ltb (Fo a) (Fo b) = Owner_ltb a b.
Proof. done. Qed.

Lemma owners_eqb_forget xs ys : owners_eqb (Fo <$> xs) (Fo <$> ys) = owners_eqb xs ys.
Proof.
  revert ys. induction xs as [|x xs IH]; intros [|y ys]; csimpl; try done.
  by rewrite Owner_eqb_forget, IH.
Qed.

Lemma owners_forget r : owners (F r) = Fo <$> owners r.
Proof. done. Qed.

Lemma unlocking_forget r : unlocking (F r) = unlocking r.
Proof. unfold unlocking. simpl. by rewrite length_fmap. Qed.

Lemma the_owner_forget r : the_owner (F r) = Fo <$> the_owner r.
Proof. unfold the_owner. simpl. by destruct (owners r) as [|o [|]]. Qed.

Lemma partition_point_fmap {A B} (f : A -> B) (p : B -> bool) l :
  partition_point p (f <$> l) = partition_point (fun x => p (f x)) l.
Proof. induction l as [|x l IH]; csimpl; [done|]. by rewrite IH. Qed.

Lemma partition_point_ext {A} (p q : A -> bool) l :
  (forall x, p x = q x) -> partition_point p l = partition_point q l.
Proof. intros H. induction l as [|x l IH]; simpl; [done|]. by rewrite H, IH. Qed.

Lemma eraseOwner_forget o r : eraseOwner (Fo o) (F r) = F (eraseOwner o r).
Proof.
  unfold eraseOwner. rewrite owners_forget, partition_point_fmap.
  rewrite (partition_point_ext _ (fun x => Owner_ltb x o)) by done.
  set (n := partition_point _ _). rewrite list_lookup_fmap.
  destruct (owners r !! n) as [p|]; simpl; [|done]. rewrite Owner_eqb_forget.
  destruct (Owner_eqb p o); [|done]. unfold F, set_owners. simpl. f_equal.
  by rewrite fmap_app, fmap_take, fmap_drop.
Qed.

Lemma std_merge_forget xs ys :
  std_merge Owner_ltb (Fo <$> xs) (Fo <$> ys) = Fo <$> std_merge Owner_ltb xs ys.
Proof.
  revert ys. induction xs as [|x xs IHx]; intros ys; [by destruct ys|].
  induction ys as [|y ys IHy]; [by rewrite !std_merge_nil_r|].
  rewrite !fmap_cons, !std_merge_cons. rewrite Owner_ltb_forget.
  destruct (Owner_ltb y x); csimpl; f_equal; [exact IHy|]. rewrite <- fmap_cons. apply IHx.
Qed.

Lemma std_unique_forget xs : std_unique Owner_eqb (Fo <$> xs) = Fo <$> std_unique Owner_eqb xs.
Proof.
  destruct xs as [|x xs]; [done|]. csimpl. revert x. induction xs as [|y xs IH]; intros x; [done|].
  csimpl. rewrite Owner_eqb_forget. destruct (Owner_eqb x y); [apply IH|]. csimpl. by rewrite IH.
Qed.

Lemma addOwners_forget os r : addOwners (Fo <$> os) (F r) = F (addOwners os r).
Proof.
  unfold addOwners, F, set_owners. simpl. f_equal. by rewrite std_merge_forget, std_unique_forget.
Qed.

(** ** One table *)

Section searches.
Context (p : LockRange -> bool).
Hypothesis p_forget : forall r, p (F r) = p r.

Lemma partition_point_forget l : partition_point p (F <$> l) = partition_point p l.
Proof. rewrite partition_point_fmap. by apply partition_point_ext. Qed.

Lemma find_forget l : List.find p (F <$> l) = F <$> List.find p l.
Proof. induction l as [|r l IH]; csimpl; [done|]. rewrite p_forget. by destruct (p r). Qed.

Lemma remove_if_forget l : remove_if p (F <$> l) = F <$> remove_if p l.
Proof.
  induction l as [|r l IH]; csimpl; [done|]. rewrite !remove_if_cons, p_forget, IH. by destruct (p r).
Qed.
End searches.

Lemma search_start_forget l x : search_start (F <$> l) x = search_start l x.
Proof. unfold search_start. by rewrite partition_point_forget. Qed.

Lemma search_end_forget l x : search_end (F <$> l) x = search_end l x.
Proof. unfold search_end. by rewrite partition_point_forget. Qed.

Lemma search_window_forget l r : search_window (F <$> l) (F r) = F <$> search_window l r.
Proof.
  unfold search_window. rewrite search_start_forget, search_end_forget. simpl.
  by rewrite fmap_take, fmap_drop.
Qed.

Lemma collides_forget r o : collides (F r) (F o) = collides r o.
Proof. unfold collides. by rewrite !owners_forget, owners_eqb_forget. Qed.

Lemma findCollision_forget l r : findCollision (F <$> l) (F r) = F <$> findCollision l r.
Proof.
  unfold findCollision. rewrite unlocking_forget, search_window_forget.
  destruct (unlocking r); [done|]. induction (search_window l r) as [|o w IH]; csimpl; [done|].
  rewrite collides_forget. by destruct (collides r o).
Qed.

Lemma fits_forget l r : fits (F <$> l) (F r) = fits l r.
Proof. unfold fits. rewrite findCollision_forget. by destruct (findCollision l r). Qed.

Lemma absorb_forget r same piece : absorb (F r) same (F piece) = F <$> absorb r same piece.
Proof.
  unfold absorb. rewrite unlocking_forget, the_owner_forget. destruct same; [done|].
  destruct (unlocking r); simpl.
  - destruct (the_owner r); simpl; [by rewrite eraseOwner_forget|done].
  - by rewrite addOwners_forget.
Qed.

Definition forget_state (st : insert_state) : insert_state :=
  MkInsert (F (ist_range st)) (F <$> ist_done st) (F <$> ist_todo st).

Definition forget_step (r : insert_step_result) : insert_step_result :=
  match r with Continue st => Continue (forget_state st) | _ => r end.

Lemma forget_state_snoc r dn x td :
  forget_state (MkInsert r (dn ++ [x]) td) = MkInsert (F r) ((F <$> dn) ++ [F x]) (F <$> td).
Proof. unfold forget_state. simpl. by rewrite fmap_app. Qed.

Lemma insert_step_forget st : insert_step (forget_state st) = forget_step (insert_step st).
Proof.
  destruct st as [r dn [|o td]]; [done|]. unfold insert_step, forget_state.
  cbn [ist_range ist_done ist_todo fmap list_fmap].
  rewrite !owners_forget, owners_eqb_forget, unlocking_forget.
  change (sticks (F r) (F o)) with (sticks r o). change (overlaps (F r) (F o)) with (overlaps r o).
  change (shared (F r)) with (shared r). change (shared (F o)) with (shared o).
  change (type (F r)) with (type r). change (type (F o)) with (type o).
  change (start (F r)) with (start r). change (start (F o)) with (start o).
  change (end_ (F r)) with (end_ r). change (end_ (F o)) with (end_ o).
  destruct (negb (start r <? end_ r)); [done|].
  destruct (sticks r o && _ && _); [cbn [forget_step]; by rewrite forget_state_snoc|].
  destruct (end_ r <=? start o); [done|].
  destruct (negb (overlaps r o)); [cbn [forget_step]; by rewrite forget_state_snoc|].
  destruct (negb _); [done|].
  destruct (start r <? start o); [cbn [forget_step]; by rewrite forget_state_snoc|].
  destruct (start r =? start o); [|cbn [forget_step]; by rewrite forget_state_snoc].
  destruct (end_ r <? end_ o).
  - rewrite <- forget_set_end, absorb_forget.
    destruct (absorb r _ _) as [t|]; [|done]. cbn [fmap option_fmap option_map forget_step]. by rewrite forget_state_snoc.
  - rewrite absorb_forget. destruct (absorb r _ _) as [t|]; [|done]. cbn [fmap option_fmap option_map forget_step]. by rewrite forget_state_snoc.
Qed.

Lemma insert_loop_forget fuel st :
  insert_loop fuel (forget_state st) =
    match insert_loop fuel st with Finished st' => Finished (forget_state st') | r => r end.
Proof.
  revert st. induction fuel as [|fuel IH]; intros st; [done|]. cbn [insert_loop].
  rewrite insert_step_forget. by destruct (insert_step st); cbn [forget_step].
Qed.

Lemma insert_forget (l : list LockRange) r :
  insert (F <$> l) (F r) = fmap (M := list) F <$> insert l r.
Proof.
  unfold insert. rewrite search_window_forget. unfold insert_fuel. rewrite length_fmap.
  rewrite search_start_forget, search_end_forget.
  change (MkInsert (F r) [] (F <$> search_window l r)) with (forget_state (MkInsert r [] (search_window l r))).
  rewrite insert_loop_forget.
  destruct (insert_loop _ _) as [st| |]; [|done|done]. simpl. f_equal.
  rewrite !fmap_app, <- fmap_take, <- fmap_drop. f_equal. f_equal.
  rewrite <- remove_if_forget by apply unlocking_forget. rewrite !fmap_app. f_equal. f_equal. f_equal.
  by destruct (start (ist_range st) <? end_ (ist_range st)).
Qed.

(** ** A lock structure *)

Definition forget_locks (fl : FileLocks) : FileLocks :=
  MkFileLocks (fmap (M := list) F <$> active_locks fl) (fmap (M := list) F <$> pending_locks fl).

Abbreviation G := forget_locks.

Lemma default_fmap_forget (m : gmap Z (list LockRange)) k :
  default [] ((fmap (M := list) F <$> m) !! k) = F <$> default [] (m !! k).
Proof. rewrite lookup_fmap. by destruct (m !! k). Qed.

Lemma table_forget fl i : table (G fl) i = F <$> table fl i.
Proof. apply default_fmap_forget. Qed.

Lemma waiting_forget fl i : waiting (G fl) i = F <$> waiting fl i.
Proof. apply default_fmap_forget. Qed.

Lemma set_active_forget m fl : G (set_active m fl) = set_active (fmap (M := list) F <$> m) (G fl).
Proof. done. Qed.

Lemma set_pending_forget m fl : G (set_pending m fl) = set_pending (fmap (M := list) F <$> m) (G fl).
Proof. done. Qed.

Lemma queue_insert_forget r q : queue_insert (F r) (F <$> q) = F <$> queue_insert r q.
Proof.
  unfold queue_insert. rewrite partition_point_fmap.
  rewrite (partition_point_ext _ (fun o => range_ltb o r)) by done.
  by rewrite fmap_app, fmap_cons, fmap_take, fmap_drop.
Qed.

Lemma enqueue_forget inode r fl : enqueue inode (F r) (G fl) = G (enqueue inode r fl).
Proof.
  unfold enqueue. rewrite set_pending_forget, fmap_insert, <- queue_insert_forget.
  simpl. by rewrite default_fmap_forget.
Qed.

(** Operations that keep to the ids they are given: the result on the forgotten state is the
    forgotten result. *)
Lemma apply_lock_forget inode r nonblocking fl :
  apply_lock inode (F r) nonblocking (G fl) =
    (fun p => (G p.1, p.2)) <$> apply_lock inode r nonblocking fl.
Proof.
  unfold apply_lock. fold (table (G fl) inode) (table fl inode).
  rewrite table_forget, fits_forget, insert_forget, unlocking_forget.
  assert (set_active (<[ikey inode:=F <$> table fl inode]> (active_locks (G fl))) (G fl) =
          G (set_active (<[ikey inode:=table fl inode]> (active_locks fl)) fl)) as ->
    by (rewrite set_active_forget, (fmap_insert (M := gmap Z)); done).
  set (fl1 := set_active _ fl). destruct (fits _ _).
  - destruct (insert _ _) as [l|]; [|done]. simpl. rewrite length_fmap. destruct (length l =? 0)%nat; simpl.
    + rewrite set_active_forget, fmap_delete. done.
    + do 2 f_equal. rewrite set_active_forget. f_equal. symmetry. apply fmap_insert.
  - destruct (negb nonblocking && negb (unlocking r)); simpl; [|done]. by rewrite enqueue_forget.
Qed.

Lemma gatherCandidates_forget inode s e fl :
  gatherCandidates inode s e (G fl) =
    (F <$> (gatherCandidates inode s e fl).1, G (gatherCandidates inode s e fl).2).
Proof.
  unfold gatherCandidates. simpl. rewrite lookup_fmap.
  destruct (pending_locks fl !! ikey inode) as [q|]; simpl; [|done].
  rewrite search_start_forget, search_end_forget, set_pending_forget, fmap_insert.
  by rewrite fmap_app, !fmap_take, !fmap_drop.
Qed.

Lemma removePending_forget inode p fl :
  (forall r, p (F r) = p r) -> removePending inode p (G fl) = G (removePending inode p fl).
Proof.
  intros Hp. unfold removePending. simpl. rewrite lookup_fmap.
  destruct (pending_locks fl !! ikey inode) as [q|]; simpl; [|done].
  rewrite remove_if_forget, length_fmap by done. destruct (_ =? 0)%nat.
  - by rewrite set_pending_forget, fmap_delete.
  - by rewrite set_pending_forget, fmap_insert.
Qed.

Lemma remove_if_owners_forget (p : Owner -> bool) os :
  (forall o, p (Fo o) = p o) -> remove_if p (Fo <$> os) = Fo <$> remove_if p os.
Proof.
  intros Hp. induction os as [|o os IH]; csimpl; [done|].
  rewrite !remove_if_cons, Hp, IH. by destruct (p o).
Qed.

Lemma unlock_all_forget p b l :
  (forall o, p (Fo o) = p o) ->
  unlock_all p b (F <$> l) = ((unlock_all p b l).1, F <$> (unlock_all p b l).2).
Proof.
  intros Hp. revert b. induction l as [|r l IH]; intros b; [done|].
  rewrite fmap_cons. cbn [unlock_all]. unfold unlock_one.
  rewrite !owners_forget, remove_if_owners_forget, !length_fmap by done. simpl.
  rewrite IH. destruct (unlock_all p _ l) as [b' l']. simpl.
  by destruct (length (remove_if p (owners r)) =? 0)%nat.
Qed.

Lemma unlock_pred_forget inode p fl :
  (forall o, p (Fo o) = p o) ->
  unlock_pred inode p (G fl) = ((unlock_pred inode p fl).1, G (unlock_pred inode p fl).2).
Proof.
  intros Hp. unfold unlock_pred. simpl. rewrite lookup_fmap.
  destruct (active_locks fl !! ikey inode) as [l|]; simpl; [|done].
  rewrite unlock_all_forget by done. destruct (unlock_all _ _ l) as [b l']. simpl.
  by rewrite set_active_forget, fmap_insert.
Qed.

Lemma unlock_inode_forget inode fl : unlock_inode inode (G fl) = G (unlock_inode inode fl).
Proof. unfold unlock_inode. rewrite set_active_forget. simpl. by rewrite fmap_delete. Qed.

(** ** The operations of the server *)

Definition forget_op (p : FileLocks * list Owner) : FileLocks * list Owner := (G p.1, Fo <$> p.2).

Lemma apply_candidates_forget inode q fl :
  apply_candidates inode (F <$> q) (G fl) = forget_op <$> apply_candidates inode q fl.
Proof.
  revert fl. induction q as [|r q IH]; intros fl; [done|]. rewrite fmap_cons.
  cbn [apply_candidates]. rewrite apply_lock_forget.
  destruct (apply_lock inode r false fl) as [[fl1 ok]|]; simpl; [|done]. rewrite IH.
  destruct (apply_candidates inode q fl1) as [[fl2 ap]|]; simpl; [|done]. unfold forget_op.
  destruct ok; simpl; [|done]. by rewrite fmap_app.
Qed.

Lemma try_pending_forget inode s e fl :
  manageLockTryLockPending inode s e (G fl) = forget_op <$> manageLockTryLockPending inode s e fl.
Proof.
  unfold manageLockTryLockPending. rewrite gatherCandidates_forget.
  destruct (gatherCandidates inode s e fl) as [q fl']. simpl. apply apply_candidates_forget.
Qed.

Lemma owner_pred_forget p r : (forall o, p (Fo o) = p o) -> owner_pred p (F r) = owner_pred p r.
Proof. intros Hp. unfold owner_pred. rewrite the_owner_forget. destruct (the_owner r); simpl; auto. Qed.

Definition forget_switch (x : option (FileLocks * bool) * (Z * Z))
  : option (FileLocks * bool) * (Z * Z) :=
  ((fun p : FileLocks * bool => (G p.1, p.2)) <$> x.1, x.2).

Lemma lock_switch_forget inode s e o oper nonblocking fl :
  lock_switch inode s e (Fo o) oper nonblocking (G fl) =
    forget_switch <$> lock_switch inode s e o oper nonblocking fl.
Proof.
  unfold lock_switch, sharedLock, exclusiveLock, unlock_range.
  change (Lock kShared s e (Fo o)) with (F (Lock kShared s e o)).
  change (Lock kExclusive s e (Fo o)) with (F (Lock kExclusive s e o)).
  change (Lock kUnlock s e (Fo o)) with (F (Lock kUnlock s e o)).
  change (Lock kUnlock 0 uint64_max (Fo o)) with (F (Lock kUnlock 0 uint64_max o)).
  repeat case_match; simpl; rewrite ?removePending_forget, ?apply_lock_forget; try done.
  intros r. by apply owner_pred_forget.
Qed.

Lemma lockOperation_forget ns inode s e o oper nonblocking fl :
  lockOperation ns inode s e (Fo o) oper nonblocking (G fl) =
    (fun x : Z * FileLocks * list Owner => (x.1.1, G x.1.2, Fo <$> x.2)) <$>
      lockOperation ns inode s e o oper nonblocking fl.
Proof.
  unfold lockOperation. destruct (negb _); [done|]. rewrite lock_switch_forget.
  destruct (lock_switch _ _ _ _ _ _ _) as [[[[fl1 ok]|] [s' e']]|]; simpl; [|done|done].
  destruct (oper =? op_exclusive); [done|]. rewrite try_pending_forget.
  by destruct (manageLockTryLockPending _ _ _ _) as [[fl2 ap]|].
Qed.

(** ** Histories *)

(** What a client or an administrator asks the master to do. *)
Inductive LockEvent :=
  | EvFlock (inode : Z) (o : Owner) (oper : Z) (nonblocking : bool)
  | EvPosix (inode s e : Z) (o : Owner) (oper : Z) (nonblocking : bool)
  | EvClearSession (kind inode sid : Z)
  | EvUnlockInode (kind inode : Z)
  | EvInterrupt (kind ownerid sid inode req : Z).

Definition run_event (ev : LockEvent) (s : LockServer) : op_result :=
  match ev with
  | EvFlock inode o oper nb => flockOperation true inode o oper nb s
  | EvPosix inode st en o oper nb => posixLockOperation true inode st en o oper nb s
  | EvClearSession kind inode sid => locksClearSession true kind inode sid s
  | EvUnlockInode kind inode => locksUnlockInode true kind inode s
  | EvInterrupt kind own sid inode req => locksRemovePending true kind own sid inode req s
  end.

(** The outcomes a shadow can follow: success, or a blocking request that waits. *)
Definition followed (ev : LockEvent) (status : Z) : bool :=
  match ev with
  | EvFlock _ _ _ nb | EvPosix _ _ _ _ _ nb =>
    (status =? SAUNAFS_STATUS_OK) || ((status =? SAUNAFS_ERROR_WAITING) && negb nb)
  | EvClearSession _ _ _ | EvUnlockInode _ _ => status =? SAUNAFS_STATUS_OK
  | EvInterrupt _ _ _ _ _ => false
  end.

(** A history of the master all of whose events a shadow can follow. *)
Inductive master_run (s : LockServer) : list LockEvent -> LockServer -> Prop :=
  | RunNil : master_run s [] s
  | RunCons ev evs status s1 reported s2 :
      run_event ev s = Some (status, s1, reported) -> followed ev status = true ->
      master_run s1 evs s2 -> master_run s (ev :: evs) s2.

(** The shadow has the master's locks up to the ids of requests. *)
Definition tracks (m s : LockServer) : Prop :=
  flockLocks s = G (flockLocks m) /\ posixLocks s = G (posixLocks m) /\
  nodes s = nodes m /\ metadataVersion s = metadataVersion m.

(** Once a lock request is granted, whether it would have waited makes no difference. *)
Lemma apply_lock_granted inode r nb nb' fl fl' :
  apply_lock inode r nb fl = Some (fl', true) -> apply_lock inode r nb' fl = Some (fl', true).
Proof.
  unfold apply_lock. destruct (fits _ _); [done|]. by destruct (negb nb && _).
Qed.

Lemma lock_switch_granted inode s e o oper nb nb' fl fl' range :
  lock_switch inode s e o oper nb fl = Some (Some (fl', true), range) ->
  lock_switch inode s e o oper nb' fl = Some (Some (fl', true), range).
Proof.
  unfold lock_switch, sharedLock, exclusiveLock.
  repeat case_match; try done; intros [= Ha <-];
    by rewrite (apply_lock_granted _ _ nb nb' _ _ Ha).
Qed.

Lemma lockOperation_granted ns inode s e o oper nb nb' fl fl' reported :
  lockOperation ns inode s e o oper nb fl = Some (SAUNAFS_STATUS_OK, fl', reported) ->
  lockOperation ns inode s e o oper nb' fl = Some (SAUNAFS_STATUS_OK, fl', reported).
Proof.
  unfold lockOperation. destruct (negb _); [done|].
  destruct (lock_switch inode s e o oper nb fl) as [[[[fl1 ok]|] [s' e']]|] eqn:E; [|done|done].
  destruct ok.
  - by rewrite (lock_switch_granted _ _ _ _ _ nb nb' _ _ _ E).
  - destruct (oper =? op_exclusive); [done|].
    by destruct (manageLockTryLockPending _ _ _ _) as [[fl2 ap]|].
Qed.

Lemma lockOperation_known ns inode s e o oper nb fl status fl' reported :
  lockOperation ns inode s e o oper nb fl = Some (status, fl', reported) ->
  status = SAUNAFS_STATUS_OK \/ status = SAUNAFS_ERROR_WAITING -> u16 oper = oper.
Proof.
  unfold lockOperation. destruct (checkLockPermissions ns inode =? SAUNAFS_STATUS_OK) eqn:E; simpl.
  - assert (lock_switch inode s e o oper nb fl = None \/ u16 oper = oper) as Hcase.
    { unfold lock_switch. repeat case_match; try (by left); right;
        repeat match goal with H : (oper =? _) = true |- _ => apply Z.eqb_eq in H; subst oper end;
        done. }
    destruct Hcase as [->|?]; [|done]. intros [= <- _ _] [?|?]; done.
  - unfold checkLockPermissions in *. case_decide; [done|]. intros [= <- _ _] [?|?]; done.
Qed.

(** What replaying one lock request does, given what the master did. *)
Lemma lockOperation_replayed ns inode s e o oper nb fl status fl' reported :
  lockOperation ns inode s e o oper nb fl = Some (status, fl', reported) ->
  ((status =? SAUNAFS_STATUS_OK) || ((status =? SAUNAFS_ERROR_WAITING) && negb nb)) = true ->
  lockOperation ns inode s e (Fo o) (u16 oper) false (G fl) = Some (status, G fl', Fo <$> reported).
Proof.
  intros He Hst. rewrite lockOperation_forget.
  assert (status = SAUNAFS_STATUS_OK \/ (status = SAUNAFS_ERROR_WAITING /\ nb = false)) as Hs.
  { apply orb_true_iff in Hst as [?%Z.eqb_eq|[?%Z.eqb_eq ?%negb_true_iff]%andb_true_iff]; auto. }
  rewrite (lockOperation_known _ _ _ _ _ _ _ _ _ _ _ He) by tauto.
  destruct Hs as [->|[-> ->]].
  - by rewrite (lockOperation_granted _ _ _ _ _ _ nb false _ _ _ He).
  - by rewrite He.
Qed.

Lemma tracks_log m s entry entry' :
  tracks m s -> tracks (log_change true entry m) (log_change false entry' s).
Proof. intros (? & ? & ? & ?). split_and!; simpl; congruence. Qed.

Lemma tracks_flock m s fl : tracks m s -> tracks (set_flock fl m) (set_flock (G fl) s).
Proof. intros (? & ? & ? & ?). by split_and!. Qed.

Lemma tracks_posix m s fl : tracks m s -> tracks (set_posix fl m) (set_posix (G fl) s).
Proof. intros (? & ? & ? & ?). by split_and!. Qed.

Lemma select_tracks kind m s fl put :
  tracks m s -> select kind m = Some (fl, put) ->
  exists put', select kind s = Some (G fl, put') /\
    forall fl', tracks (put fl') (put' (G fl')) /\ changelog (put fl') = changelog m.
Proof.
  intros T. pose proof T as (Tf & Tp & _). unfold select.
  destruct (kind =? kFlock); [|destruct (kind =? kPosix); [|done]];
    intros [= <- <-]; eexists; rewrite ?Tf, ?Tp; (split; [done|]); intros fl'.
  - by split; [apply tracks_flock|].
  - by split; [apply tracks_posix|].
Qed.

(** The master logged [entry], and replaying it takes the shadow along. *)
Definition replayed (m m' s : LockServer) : Prop :=
  exists entry s', changelog m' = changelog m ++ [entry] /\
    restore_entry entry s = Some (SAUNAFS_STATUS_OK, s') /\ tracks m' s'.

Lemma followed_status ev status :
  followed ev status = true ->
  (if status =? SAUNAFS_ERROR_WAITING then SAUNAFS_STATUS_OK else status) = SAUNAFS_STATUS_OK.
Proof.
  destruct ev; simpl; intros H;
    try apply orb_true_iff in H as [H|[H _]%andb_true_iff]; try done;
    by apply Z.eqb_eq in H as ->.
Qed.

Lemma flock_replayed inode o oper nb m status m' reported s :
  flockOperation true inode o oper nb m = Some (status, m', reported) ->
  followed (EvFlock inode o oper nb) status = true -> tracks m s -> replayed m m' s.
Proof.
  intros He Hf T. pose proof T as (Tf & _ & Tn & _). unfold flockOperation in He.
  destruct (lockOperation (nodes m) _ _ _ _ _ _ _) as [[[stt fl'] ap]|] eqn:E; [|done].
  simplify_eq. eexists _, _. split; [done|].
  cbn [restore_entry kFlock Z.eqb]. unfold flockOperation. rewrite Tf, Tn.
  change (MkOwner (owner o) (sessionid o) 0 0) with (Fo o).
  rewrite (lockOperation_replayed _ _ _ _ _ _ _ _ _ _ _ E Hf).
  rewrite (followed_status _ _ Hf). split; [done|]. by apply tracks_log, tracks_flock.
Qed.

Lemma posix_replayed inode st en o oper nb m status m' reported s :
  posixLockOperation true inode st en o oper nb m = Some (status, m', reported) ->
  followed (EvPosix inode st en o oper nb) status = true -> tracks m s -> replayed m m' s.
Proof.
  intros He Hf T. pose proof T as (_ & Tp & Tn & _). unfold posixLockOperation in He.
  destruct (lockOperation (nodes m) _ _ _ _ _ _ _) as [[[stt fl'] ap]|] eqn:E; [|done].
  simplify_eq. eexists _, _. split; [done|].
  unfold restore_entry. change (kPosix =? kFlock) with false. change (kPosix =? kPosix) with true.
  cbv zeta iota. unfold posixLockOperation. rewrite Tp, Tn.
  change (MkOwner (owner o) (sessionid o) 0 0) with (Fo o).
  rewrite (lockOperation_replayed _ _ _ _ _ _ _ _ _ _ _ E Hf).
  rewrite (followed_status _ _ Hf). split; [done|]. by apply tracks_log, tracks_posix.
Qed.

Lemma clear_session_replayed kind inode sid m status m' reported s :
  locksClearSession true kind inode sid m = Some (status, m', reported) ->
  status = SAUNAFS_STATUS_OK -> tracks m s -> replayed m m' s.
Proof.
  intros He Hst T. unfold locksClearSession in He.
  destruct (select kind m) as [[fl put]|] eqn:Es; [|by simplify_eq].
  destruct (select_tracks _ _ _ _ _ T Es) as (put' & Es' & Hput).
  destruct (unlock_pred inode _ _) as [[lo hi] fl2] eqn:Eu.
  destruct (if lo <? hi then gatherCandidates inode lo hi fl2 else ([], fl2)) as [q fl3] eqn:Eg.
  simplify_eq. eexists _, _. split; [by simpl; rewrite (proj2 (Hput _))|].
  cbn [restore_entry]. unfold locksClearSession. rewrite Es'.
  rewrite removePending_forget by (intros r; by apply owner_pred_forget).
  rewrite unlock_pred_forget, Eu by done. cbn [fst snd].
  assert ((if lo <? hi then gatherCandidates inode lo hi (G fl2) else ([], G fl2)) = (F <$> q, G fl3)) as ->.
  { rewrite gatherCandidates_forget. destruct (lo <? hi); [by rewrite Eg|by simplify_eq]. }
  split; [done|]. by apply tracks_log, Hput.
Qed.

Lemma unlock_inode_replayed kind inode m status m' reported s :
  locksUnlockInode true kind inode m = Some (status, m', reported) ->
  status = SAUNAFS_STATUS_OK -> tracks m s -> replayed m m' s.
Proof.
  intros He Hst T. unfold locksUnlockInode in He.
  destruct (select kind m) as [[fl put]|] eqn:Es; [|by simplify_eq].
  destruct (select_tracks _ _ _ _ _ T Es) as (put' & Es' & Hput).
  destruct (manageLockTryLockPending _ _ _ _) as [[fl' ap]|] eqn:E; [|done].
  simplify_eq. eexists _, _. split; [by simpl; rewrite (proj2 (Hput _))|].
  cbn [restore_entry]. unfold locksUnlockInode. rewrite Es', unlock_inode_forget, try_pending_forget, E.
  split; [done|]. by apply tracks_log, Hput.
Qed.

Lemma event_replayed ev m status m' reported s :
  run_event ev m = Some (status, m', reported) -> followed ev status = true -> tracks m s ->
  replayed m m' s.
Proof.
  destruct ev as [inode o oper nb|inode st en o oper nb|kind inode sid|kind inode|];
    cbn [run_event]; intros He Hf T.
  - by eapply flock_replayed.
  - by eapply posix_replayed.
  - apply Z.eqb_eq in Hf. by eapply clear_session_replayed.
  - apply Z.eqb_eq in Hf. by eapply unlock_inode_replayed.
  - done.
Qed.

(** C7: A shadow keeps up with the master.  For every history of lock, unlock and release requests
    that are granted or that wait, of cleared sessions and of files unlocked by the administrator,
    a shadow that tracks the master before replays the entries the master logged without an error
    and then tracks it again: the same tables and the same queues, up to the ids of the requests. *)
Theorem replay_tracks_master m evs m' s :
  master_run m evs m' -> tracks m s ->
  exists entries s', changelog m' = changelog m ++ entries /\
    restore_entries entries s = Some s' /\ tracks m' s'.
Proof.
  intros Hrun. revert s. induction Hrun as [m|m ev evs status m1 rep m2 He Hf Hrun IH]; intros s T.
  { exists [], s. by rewrite app_nil_r. }
  destruct (event_replayed _ _ _ _ _ _ He Hf T) as (entry & s1 & Hlog & Hre & T1).
  destruct (IH s1 T1) as (entries & s2 & Hlog2 & Hre2 & T2).
  exists (entry :: entries), s2. split_and!; [|by cbn [restore_entries]; rewrite Hre|done].
  rewrite Hlog2, Hlog, <- app_assoc. done.
Qed.

(** ** Histories a shadow cannot follow *)

Lemma queue_insert_length r q : length (queue_insert r q) = S (length q).
Proof. rewrite (Permutation_length (queue_insert_Permutation r q)). done. Qed.

Lemma enqueue_waiting inode r fl :
  waiting (enqueue inode r fl) inode = queue_insert r (waiting fl inode).
Proof. unfold enqueue. by rewrite waiting_set_pending, decide_True. Qed.

(** A refused non-blocking request makes the shadow diverge.  The master answers WAITING and
    queues nothing, but logs the request; the shadow replays it as a blocking one, so its queue for
    the file has one request more than the master's, and the two states do not agree any more. *)
Theorem refused_nonblocking_diverges m s inode o m' reported :
  tracks m s ->
  flockOperation true inode o op_exclusive true m = Some (SAUNAFS_ERROR_WAITING, m', reported) ->
  exists entry s', changelog m' = changelog m ++ [entry] /\
    restore_entry entry s = Some (SAUNAFS_STATUS_OK, s') /\
    length (waiting (flockLocks s') inode) = S (length (waiting (flockLocks m') inode)) /\
    ~ tracks m' s'.
Proof.
  intros T. pose proof T as (Tf & _ & Tn & _). unfold flockOperation.
  destruct (lockOperation _ _ _ _ _ _ _ _) as [[[st fl'] ap]|] eqn:E; [|done].
  intros [= -> <- <-]. eexists _, _. split; [done|]. unfold restore_entry.
  change (kFlock =? kFlock) with true. change (u16 op_exclusive) with op_exclusive.
  cbv zeta iota. unfold flockOperation. rewrite Tf, Tn.
  change (MkOwner (owner o) (sessionid o) 0 0) with (Fo o). rewrite lockOperation_forget.
  unfold lockOperation in E |- *. unfold checkLockPermissions in E |- *. case_decide; [|done].
  cbn [negb Z.eqb SAUNAFS_STATUS_OK lock_switch op_exclusive op_shared Pos.eqb] in E |- *.
  unfold exclusiveLock, apply_lock in E |- *. fold (table (flockLocks m) inode) in E |- *.
  destruct (fits _ _) eqn:Ef.
  { destruct (insert _ _); [|done]. by destruct (_ =? 0)%nat. }
  simpl in E |- *. injection E as <- <-.
  split; [done|].
  match goal with |- ?P /\ _ => assert P as Hlen end.
  { cbn [flockLocks log_change set_flock]. rewrite waiting_forget, length_fmap, enqueue_waiting, queue_insert_length. done. }
  split; [done|]. intros (Hf & _). simpl in Hf, Hlen.
  rewrite Hf, waiting_forget, length_fmap in Hlen. lia.
Qed.

(** A request that fails stops the replay.  A lock request for a file that does not exist is
    answered with ENOENT and yet logged, and a shadow that replays the entry stops with an error. *)
Theorem failed_request_stops_replay m s inode o oper nonblocking :
  tracks m s -> inode ∉ nodes m ->
  exists entry m', flockOperation true inode o oper nonblocking m =
      Some (SAUNAFS_ERROR_ENOENT, m', []) /\
    changelog m' = changelog m ++ [entry] /\ restore_entries [entry] s = None.
Proof.
  intros (_ & _ & Tn & _) Hn. unfold flockOperation, lockOperation, checkLockPermissions.
  rewrite decide_False by done. eexists _, _. split; [done|]. split; [done|].
  cbn [restore_entries restore_entry kFlock Z.eqb].
  unfold flockOperation, lockOperation, checkLockPermissions. rewrite Tn.
  by rewrite decide_False.
Qed.

(** An interrupted wait stays on the shadow.  Withdrawing the waiting request with a given
    (non-zero) id removes it on the master; the replay of the entry looks for the id among requests
    that were queued without one, and removes nothing. *)
Theorem interrupt_not_replayed m s own sid inode req m' reported r o :
  tracks m s -> req <> 0 ->
  r ∈ waiting (flockLocks m) inode -> owners r = [o] ->
  owner o = own -> sessionid o = sid -> reqid o = req ->
  locksRemovePending true kFlock own sid inode req m = Some (SAUNAFS_STATUS_OK, m', reported) ->
  exists s', restore_entry (RMPLOCK kFlock own sid inode req) s = Some (SAUNAFS_STATUS_OK, s') /\
    (r ∉ waiting (flockLocks m') inode) /\ F r ∈ waiting (flockLocks s') inode.
Proof.
  intros (Tf & _) Hreq Hr Ho E1 E2 E3. subst own sid req.
  set (p := owner_pred (fun p => (owner p =? owner o) && (sessionid p =? sessionid o) && (reqid p =? reqid o))).
  intros [= <- <-]. eexists. split; [done|]. simpl. fold p.
  rewrite !waiting_removePending, !decide_True by done. rewrite Tf, waiting_forget. split.
  - intros [_ Hp]%elem_of_remove_if. unfold p, owner_pred, the_owner in Hp. rewrite Ho in Hp.
    rewrite !Z.eqb_refl in Hp. done.
  - apply elem_of_remove_if. split; [by apply list_elem_of_fmap_2|].
    unfold p, owner_pred. rewrite the_owner_forget. destruct (the_owner r); [|done].
    cbn [fmap option_fmap option_map forget_owner reqid]. apply andb_false_iff. right.
    apply Z.eqb_neq. congruence.
Qed.

(** ** A posix request that waits in vain *)

Definition empty_server (ns : gset Z) : LockServer := MkServer empty_locks empty_locks ns 0 [].

Definition ex_who (n : Z) : Owner := MkOwner n 1 n n.

(** Owner 1 holds [50, 60) and owner 4 [150, 160); owner 2 waits for [0, 100) and owner 3 for
    [1, 200); then owner 1 unlocks. *)
Definition ex_history : list LockEvent :=
  [EvPosix 7 50 60 (ex_who 1) op_exclusive false;
   EvPosix 7 150 160 (ex_who 4) op_exclusive false;
   EvPosix 7 0 100 (ex_who 2) op_exclusive false;
   EvPosix 7 1 200 (ex_who 3) op_exclusive false;
   EvPosix 7 50 60 (ex_who 1) op_unlock false].

Fixpoint run_events (evs : list LockEvent) (s : LockServer) : option LockServer :=
  match evs with
  | [] => Some s
  | ev :: rest =>
    match run_event ev s with
    | Some (status, s', _) => if followed ev status then run_events rest s' else None
    | None => None
    end
  end.

Lemma run_events_master_run evs s s' : run_events evs s = Some s' -> master_run s evs s'.
Proof.
  revert s. induction evs as [|ev evs IH]; intros s; simpl.
  - intros [= ->]. constructor.
  - destruct (run_event ev s) as [[[st s1] rep]|] eqn:E; [|done].
    destruct (followed ev st) eqn:Ef; [|done]. intros H. econstructor; eauto.
Qed.

(** A posix request can wait in vain.  The queue is sorted by the start of the range, and after
    an unlock only the requests that start inside the unlocked range, and the one before them, are
    retried.  There is a history after which a request waits although no other owner holds a byte
    of its range. *)
Theorem posix_lost_wakeup :
  exists m r, master_run (empty_server {[7]}) ex_history m /\
    r ∈ waiting (posixLocks m) 7 /\ grantable r (holders (table (posixLocks m) 7)).
Proof.
  destruct (run_events ex_history (empty_server {[7]})) as [m|] eqn:E; [|by vm_compute in E].
  exists m, (Lock kExclusive 0 100 (ex_who 2)). split; [by apply run_events_master_run|].
  vm_compute in E. injection E as <-. split.
  - vm_compute. by left.
  - intros x t os Hx Hh. exfalso. apply holders_Some in Hh as (l & Hl & Hc & _).
    apply list_elem_of_singleton in Hl as ->. unfold covers in *. simpl in *. lia.
Qed.

(** ** Witnesses *)

(** The master and the shadow of the example: owner 1 has file 7, owner 2 (request 5) waits. *)
Definition ex_req : Owner := MkOwner 2 1 5 6.
Definition ex_fl : FileLocks :=
  MkFileLocks {[7 := [Lock kExclusive 0 1 (MkOwner 1 1 3 4)]]} {[7 := [Lock kExclusive 0 1 ex_req]]}.
Definition ex_master : LockServer := MkServer ex_fl empty_locks {[7]} 10 [].
Definition ex_shadow : LockServer := MkServer (G ex_fl) (G empty_locks) {[7]} 10 [].

Lemma ex_tracks : tracks ex_master ex_shadow.
Proof. split_and!; done. Qed.

Lemma replay_tracks_master_witness :
  exists m' entries s', master_run (empty_server {[7]}) ex_history m' /\
    restore_entries entries (empty_server {[7]}) = Some s' /\ tracks m' s'.
Proof.
  destruct (run_events ex_history (empty_server {[7]})) as [m'|] eqn:E; [|by vm_compute in E].
  apply run_events_master_run in E.
  destruct (replay_tracks_master (empty_server {[7]}) ex_history m' (empty_server {[7]}))
    as (entries & s' & _ & Hr & T).
  - exact E.
  - split_and!; [|reflexivity..]. reflexivity.
  - by exists m', entries, s'.
Defined.

Definition ex_after_refused : LockServer :=
  log_change true (FLCK kFlock 7 0 1 3 1 op_exclusive)
    (set_flock (set_active (<[7 := table ex_fl 7]> (active_locks ex_fl)) ex_fl) ex_master).

Lemma refused_nonblocking_diverges_witness :
  exists s', length (waiting (flockLocks s') 7) = S (length (waiting (flockLocks ex_after_refused) 7)) /\
    ~ tracks ex_after_refused s'.
Proof.
  destruct (refused_nonblocking_diverges ex_master ex_shadow 7 (MkOwner 3 1 8 9) ex_after_refused [])
    as (entry & s' & _ & _ & Hl & Hn).
  - apply ex_tracks.
  - vm_compute. reflexivity.
  - by exists s'.
Defined.

Lemma failed_request_stops_replay_witness :
  exists entry m', flockOperation true 8 (MkOwner 3 1 8 9) op_shared false ex_master =
      Some (SAUNAFS_ERROR_ENOENT, m', []) /\
    restore_entries [entry] ex_shadow = None.
Proof.
  destruct (failed_request_stops_replay ex_master ex_shadow 8 (MkOwner 3 1 8 9) op_shared false)
    as (entry & m' & H & _ & Hr).
  - apply ex_tracks.
  - cbn [nodes ex_master]. rewrite elem_of_singleton. lia.
  - by exists entry, m'.
Defined.

Definition ex_after_interrupt : LockServer :=
  log_change true (RMPLOCK kFlock 2 1 7 5) (set_flock (set_pending ∅ ex_fl) ex_master).

Lemma interrupt_not_replayed_witness :
  exists s', restore_entry (RMPLOCK kFlock 2 1 7 5) ex_shadow = Some (SAUNAFS_STATUS_OK, s') /\
    F (Lock kExclusive 0 1 ex_req) ∈ waiting (flockLocks s') 7.
Proof.
  destruct (interrupt_not_replayed ex_master ex_shadow 2 1 7 5 ex_after_interrupt []
              (Lock kExclusive 0 1 ex_req) ex_req) as (s' & Hr & _ & Hin).
  - apply ex_tracks.
  - lia.
  - apply list_elem_of_singleton. reflexivity.
  - reflexivity.
  - reflexivity.
  - reflexivity.
  - reflexivity.
  - vm_compute. reflexivity.
  - by exists s'.
Defined.
