(* ===== verification/Serialization.v ===== *)
(** The wire format: packing of integers (src/common/datapack.h) and the serialization framework
    (src/common/serialization.h, src/common/serialization_macros.h).

    A byte is a [Z] in [0, 256), a buffer a list of bytes.  A reader has the bytes at the source
    pointer and the count of bytes left that the caller passed; the two need not agree, so reading
    past the end of the buffer is a result of its own, [Overrun].  Each overload set serializedSize /
    serialize / deserialize of a type is a [Codec]; [Lawful] is what the rest of the system relies
    on, and every codec of the framework is an instance of it. *)
From S2P Require Import Prelude.

(** ** Packing integers *)

Definition put8bit (val : Z) : list Z := [Z.land val 255].

Definition put16bit (val : Z) : list Z := [Z.land (Z.shiftr val 8) 255; Z.land val 255].

Definition put32bit (val : Z) : list Z :=
  [Z.land (Z.shiftr val 24) 255; Z.land (Z.shiftr val 16) 255; Z.land (Z.shiftr val 8) 255;
   Z.land val 255].

Definition put64bit (val : Z) : list Z :=
  [Z.land (Z.shiftr val 56) 255; Z.land (Z.shiftr val 48) 255; Z.land (Z.shiftr val 40) 255;
   Z.land (Z.shiftr val 32) 255; Z.land (Z.shiftr val 24) 255; Z.land (Z.shiftr val 16) 255;
   Z.land (Z.shiftr val 8) 255; Z.land val 255].

(** Byte [i] at the source pointer. *)
Definition at_ (p : list Z) (i : nat) : Z := nth i p 0.

Definition get8bit (p : list Z) : Z := u8 (at_ p 0).

Definition get16bit (p : list Z) : Z := u16 (u32 (at_ p 1 + u32 (256 * at_ p 0))).

Definition get32bit (p : list Z) : Z :=
  u32 (at_ p 3 + u32 (256 * u32 (at_ p 2 + u32 (256 * u32 (at_ p 1 + u32 (256 * at_ p 0)))))).

Definition get64bit (p : list Z) : Z :=
  Z.lor (u64 (Z.shiftl (get32bit p) 32)) (get32bit (drop 4 p)).

(** ** Readers *)

Inductive result (A : Type) : Type :=
  | Ok (a : A)
  | Throw           (* IncorrectDeserializationException *)
  | Overrun.        (* a read past the end of the buffer *)
Arguments Ok {A} a.
Arguments Throw {A}.
Arguments Overrun {A}.

(** The source pointer and bytesLeftInBuffer. *)
Definition source : Type := list Z * Z.
Definition reader (A : Type) : Type := source -> result (A * source).

#[global] Instance reader_ret : MRet reader := fun A a s => Ok (a, s).
#[global] Instance reader_bind : MBind reader := fun A B f m s =>
  match m s with Ok (a, s') => f a s' | Throw => Throw | Overrun => Overrun end.
Definition throw {A} : reader A := fun _ => Throw.

(** verifySize() for a value of [n] bytes, then the read of its bytes. *)
Definition read_bytes (n : nat) : reader (list Z) := fun '(src, room) =>
  if room <? Z.of_nat n then Throw
  else if (length src <? n)%nat then Overrun
  else Ok (take n src, (drop n src, room - Z.of_nat n)).

Fixpoint read_n {A} (n : nat) (d : reader A) : reader (list A) :=
  match n with
  | O => mret []
  | S n' => x ← d; xs ← read_n n' d; mret (x :: xs)
  end.

(** ** Codecs *)

Record Codec (A : Type) := MkCodec {
  serializedSize : A -> Z;      (* uint32_t *)
  serialize : A -> list Z;
  deserialize : reader A;
}.
Arguments MkCodec {A} & _ _ _.
Arguments serializedSize {A}.
Arguments serialize {A}.
Arguments deserialize {A}.

Definition put_bool (value : bool) : list Z := put8bit (if value then 1 else 0).

Definition get_bool : reader bool :=
  p ← read_bytes 1; if 1 <? get8bit p then throw else mret (negb (get8bit p =? 0)).

Definition bool_codec : Codec bool := MkCodec (fun _ => 1) put_bool get_bool.

Definition uint8_codec : Codec Z := MkCodec (fun _ => 1) put8bit
  (p ← read_bytes 1; mret (get8bit p)).
Definition int8_codec : Codec Z := MkCodec (fun _ => 1) (fun value => put8bit (u8 value))
  (p ← read_bytes 1; mret (to_signed 8 (get8bit p))).
Definition uint16_codec : Codec Z := MkCodec (fun _ => 2) put16bit
  (p ← read_bytes 2; mret (get16bit p)).
Definition uint32_codec : Codec Z := MkCodec (fun _ => 4) put32bit
  (p ← read_bytes 4; mret (get32bit p)).
Definition uint64_codec : Codec Z := MkCodec (fun _ => 8) put64bit
  (p ← read_bytes 8; mret (get64bit p)).
Definition int16_codec : Codec Z := MkCodec (fun _ => 2) (fun value => put16bit (u16 value))
  (p ← read_bytes 2; mret (to_signed 16 (get16bit p))).
Definition int32_codec : Codec Z := MkCodec (fun _ => 4) put32bit
  (p ← read_bytes 4; mret (to_signed 32 (get32bit p))).
Definition int64_codec : Codec Z := MkCodec (fun _ => 8) (fun value => put64bit (u64 value))
  (p ← read_bytes 8; mret (to_signed 64 (get64bit p))).

Definition kMaxDeserializedBytesCount : Z := 33554432.   (* 32 MiB *)
Definition kMaxDeserializedElementsCount : Z := 1000000.

(** A string: its length plus one, its bytes, a zero. *)
Definition take_string (size : Z) : reader (list Z) := fun '(src, room) =>
  if kMaxDeserializedElementsCount <? size then Throw
  else if room <? size then Throw
  else if size =? 0 then Throw
  else if (length src <? Z.to_nat size)%nat then Overrun
  else if negb (at_ src (Z.to_nat (size - 1)) =? 0) then Throw
  else Ok (take (Z.to_nat (size - 1)) src, (drop (Z.to_nat size) src, room - size)).

Definition get_string : reader (list Z) := size ← deserialize uint32_codec; take_string size.

Definition string_size (value : list Z) : Z := u32 (4 + Z.of_nat (length value) + 1).

Definition put_string (value : list Z) : list Z :=
  put32bit (u32 (Z.of_nat (length value) + 1)) ++ value ++ put8bit 0.

Definition string_codec : Codec (list Z) := MkCodec string_size put_string get_string.

Definition pair_size {A B} (ca : Codec A) (cb : Codec B) (p : A * B) : Z :=
  u32 (serializedSize ca p.1 + serializedSize cb p.2).

Definition put_pair {A B} (ca : Codec A) (cb : Codec B) (p : A * B) : list Z :=
  serialize ca p.1 ++ serialize cb p.2.

Definition get_pair {A B} (ca : Codec A) (cb : Codec B) : reader (A * B) :=
  a ← deserialize ca; b ← deserialize cb; mret (a, b).

(** A pair, and a list of arguments as a right-nested tuple. *)
Definition pair_codec {A B} (ca : Codec A) (cb : Codec B) : Codec (A * B) :=
  MkCodec (pair_size ca cb) (put_pair ca cb) (get_pair ca cb).

(** std::unique_ptr *)
Definition ptr_size {A} (c : Codec A) (p : option A) : Z :=
  match p with
  | Some a => u32 (serializedSize bool_codec true + serializedSize c a)
  | None => serializedSize bool_codec false
  end.

Definition put_ptr {A} (c : Codec A) (p : option A) : list Z :=
  match p with
  | Some a => serialize bool_codec true ++ serialize c a
  | None => serialize bool_codec false
  end.

Definition get_ptr {A} (c : Codec A) : reader (option A) :=
  isNotEmpty ← deserialize bool_codec;
  if isNotEmpty : bool then a ← deserialize c; mret (Some a) else mret None.

Definition option_codec {A} (c : Codec A) : Codec (option A) :=
  MkCodec (ptr_size c) (put_ptr c) (get_ptr c).

(** The sum of the sizes of the elements, as a loop over uint32_t. *)
Definition sum_sizes {A} (c : Codec A) (start : Z) (xs : list A) : Z :=
  foldl (fun ret x => u32 (ret + serializedSize c x)) start xs.

Definition array_size {A} (c : Codec A) (xs : list A) : Z := sum_sizes c 0 xs.

Definition put_array {A} (c : Codec A) (xs : list A) : list Z := concat (serialize c <$> xs).

Definition get_array {A} (n : nat) (c : Codec A) : reader (list A) := read_n n (deserialize c).

Definition array_codec {A} (n : nat) (c : Codec A) : Codec (list A) :=
  MkCodec (array_size c) (put_array c) (get_array n c).

(** A container: the number of elements, then the elements.  [build] makes the container of the
    elements read (a vector keeps them as they are). *)
Definition container_size {A} (c : Codec A) (xs : list A) : Z :=
  sum_sizes c (serializedSize uint32_codec (u32 (Z.of_nat (length xs)))) xs.

Definition put_container {A} (c : Codec A) (xs : list A) : list Z :=
  put32bit (u32 (Z.of_nat (length xs))) ++ concat (serialize c <$> xs).

Definition get_elements {A} (c : Codec A) : reader (list A) :=
  size ← deserialize uint32_codec;
  if kMaxDeserializedElementsCount <? size then throw else read_n (Z.to_nat size) (deserialize c).

Definition container_codec {A} (build : list A -> list A) (c : Codec A) : Codec (list A) :=
  MkCodec (container_size c) (put_container c) (xs ← get_elements c; mret (build xs)).

(** std::vector, small_vector, compact_vector, and flat_set and flat_map through their data(). *)
Definition vector_codec {A} (c : Codec A) : Codec (list A) := container_codec (fun xs => xs) c.

(** std::set and std::map as the sorted list of their elements; inserting an element that is
    equivalent to one in the container does nothing. *)
Definition set_insert {A} (lt : A -> A -> bool) (s : list A) (x : A) : list A :=
  let it := partition_point (fun y => lt y x) s in
  match s !! it with
  | Some y => if lt x y then take it s ++ x :: drop it s else s
  | None => s ++ [x]
  end.

Definition set_codec {A} (lt : A -> A -> bool) (c : Codec A) : Codec (list A) :=
  container_codec (foldl (set_insert lt) []) c.

Definition map_codec {K V} (lt : K -> K -> bool) (ck : Codec K) (cv : Codec V)
  : Codec (list (K * V)) :=
  set_codec (fun x y => lt x.1 y.1) (pair_codec ck cv).

(** A class with generated methods: the tuple of its fields. *)
Definition class_codec {A B} (fields : A -> B) (make : B -> A) (c : Codec B) : Codec A := MkCodec
  (fun a => serializedSize c (fields a))
  (fun a => serialize c (fields a))
  (b ← deserialize c; mret (make b)).

(** A generated enum class of [n] values: one byte, checked when read. *)
Definition enum_codec (n : Z) : Codec Z := MkCodec (fun _ => 1) put8bit
  (v ← deserialize uint8_codec; if n <=? v then throw else mret v).

(** ** The main interface *)

(** serialize(buffer, ...): [None] when the final assertion fails (the size computed does not match
    the bytes written). *)
Definition serialize_buffer {A} (c : Codec A) (a : A) : option (list Z) :=
  let bytes := serialize c a in
  if serializedSize c a =? Z.of_nat (length bytes) then Some bytes else None.

(** deserialize(sourceBuffer, sourceBufferSize, ...): the value and the bytes not used. *)
Definition deserialize_buffer {A} (c : Codec A) (buffer : list Z) (size : Z) : result (A * Z) :=
  if kMaxDeserializedBytesCount <? size then Throw
  else match deserialize c (buffer, size) with
       | Ok (a, (_, room)) => Ok (a, room)
       | Throw => Throw
       | Overrun => Overrun
       end.

(** ** Integers as bytes *)

Abbreviation bytes := (Forall (is_uint 8)).

Lemma land_255 x : Z.land x 255 = x mod 2 ^ 8.
Proof. change 255 with (Z.ones 8). by rewrite Z.land_ones. Qed.

Lemma is_byte x : is_uint 8 (Z.land x 255).
Proof. rewrite land_255. apply Z.mod_pos_bound. lia. Qed.

(** The last byte of a number, and the number without it. *)
Lemma mod_split k x :
  0 <= k -> x mod 2 ^ (k + 8) = 256 * ((x / 256) mod 2 ^ k) + x mod 256.
Proof.
  intros Hk. rewrite Z.add_comm, Z.pow_add_r by lia. change (2 ^ 8) with 256.
  rewrite Z.rem_mul_r by (try apply Z.pow_pos_nonneg; lia). lia.
Qed.

Lemma shiftr_byte x n : 0 <= n -> Z.shiftr x (n + 8) = Z.shiftr x n / 256.
Proof.
  intros Hn. rewrite !Z.shiftr_div_pow2 by lia. rewrite Z.pow_add_r by lia.
  rewrite Z.div_div by (try apply Z.pow_pos_nonneg; lia). done.
Qed.

Lemma shiftr_8 x : Z.shiftr x 8 = x / 256.
Proof. exact (Z.shiftr_div_pow2 x 8 ltac:(lia)). Qed.

Lemma shiftr_16 x : Z.shiftr x 16 = x / 256 / 256.
Proof. change 16 with (8 + 8). by rewrite (shiftr_byte x 8), shiftr_8. Qed.

Lemma shiftr_24 x : Z.shiftr x 24 = x / 256 / 256 / 256.
Proof. change 24 with (16 + 8). by rewrite (shiftr_byte x 16), shiftr_16. Qed.

Lemma wrap_small w x : is_uint w x -> wrap w x = x.
Proof. intros [? ?]. by apply Z.mod_small. Qed.

Lemma wrap_range w x : 0 <= w -> is_uint w (wrap w x).
Proof. intros Hw. apply Z.mod_pos_bound. by apply Z.pow_pos_nonneg; lia. Qed.

Lemma to_signed_wrap w x : 1 <= w -> is_sint w x -> to_signed w (wrap w x) = x.
Proof.
  intros Hw [Hl Hu]. unfold to_signed, wrap. rewrite Z.mod_mod by (apply Z.pow_nonzero; lia).
  assert (2 ^ w = 2 * 2 ^ (w - 1)) as Ew by (rewrite <- Z.pow_succ_r by lia; f_equal; lia).
  assert (0 < 2 ^ (w - 1)) as Hp by (apply Z.pow_pos_nonneg; lia).
  destruct (Z_le_gt_dec 0 x).
  - rewrite Z.mod_small by lia. destruct (Z.ltb_spec x (2 ^ (w - 1))); lia.
  - assert (x mod 2 ^ w = x + 2 ^ w) as ->.
    { symmetry. apply (Zmod_unique _ _ (-1)); lia. }
    destruct (Z.ltb_spec (x + 2 ^ w) (2 ^ (w - 1))); lia.
Qed.

Lemma to_signed_range w x : 1 <= w -> is_sint w (to_signed w x).
Proof.
  intros Hw. unfold to_signed. destruct (wrap_range w x ltac:(lia)) as [Hl Hu].
  assert (2 ^ w = 2 * 2 ^ (w - 1)) as Ew by (rewrite <- Z.pow_succ_r by lia; f_equal; lia).
  unfold is_sint. destruct (Z.ltb_spec (wrap w x) (2 ^ (w - 1))); lia.
Qed.

Lemma get8_put8 x rest : get8bit (put8bit x ++ rest) = x mod 2 ^ 8.
Proof.
  unfold get8bit, at_. simpl. unfold u8. rewrite wrap_small by apply is_byte. apply land_255.
Qed.

Lemma u32_id x : 0 <= x < 4294967296 -> u32 x = x.
Proof. apply (wrap_small 32). Qed.

(** Drops the wrap-arounds that do nothing, innermost first. *)
Ltac drop_u32 :=
  repeat match goal with
         | |- context [u32 ?e] =>
           lazymatch e with context [u32 _] => fail | _ => rewrite (u32_id e) by lia end
         end.

Lemma get16_put16 x rest : get16bit (put16bit x ++ rest) = x mod 2 ^ 16.
Proof.
  unfold get16bit, at_. simpl nth. rewrite !land_255. change (2 ^ 8) with 256.
  rewrite shiftr_8.
  pose proof (Z.mod_pos_bound x 256 eq_refl). pose proof (Z.mod_pos_bound (x / 256) 256 eq_refl).
  drop_u32. unfold u16. rewrite wrap_small by (split; [lia|change (2 ^ 16) with 65536; lia]).
  change 16 with (8 + 8). rewrite mod_split by lia. change (2 ^ 8) with 256. lia.
Qed.

Lemma get32_put32 x rest : get32bit (put32bit x ++ rest) = x mod 2 ^ 32.
Proof.
  unfold get32bit, at_. simpl nth. rewrite !land_255. change (2 ^ 8) with 256.
  rewrite shiftr_8, shiftr_16, shiftr_24.
  pose proof (Z.mod_pos_bound x 256 eq_refl). pose proof (Z.mod_pos_bound (x / 256) 256 eq_refl).
  pose proof (Z.mod_pos_bound (x / 256 / 256) 256 eq_refl).
  pose proof (Z.mod_pos_bound (x / 256 / 256 / 256) 256 eq_refl).
  drop_u32.
  change 32 with (8 + 8 + 8 + 8). rewrite !mod_split by lia. change (2 ^ 8) with 256. lia.
Qed.

(** The high half is written first. *)
Lemma put64_split x : put64bit x = put32bit (Z.shiftr x 32) ++ put32bit x.
Proof. unfold put64bit, put32bit. simpl. by rewrite !Z.shiftr_shiftr by lia. Qed.

Lemma lor_shiftl h l : 0 <= l < 2 ^ 32 -> Z.lor (Z.shiftl h 32) l = h * 2 ^ 32 + l.
Proof.
  intros Hl. rewrite <- Z.shiftl_mul_pow2 by lia. rewrite <- Z.add_lor_land.
  assert (Z.land (Z.shiftl h 32) l = 0) as ->; [|lia].
  rewrite <- (Z.mod_small l (2 ^ 32)) by done. rewrite <- Z.land_ones by lia.
  rewrite (Z.land_comm l), Z.land_assoc, Z.land_ones, Z.shiftl_mul_pow2 by lia.
  by rewrite Z.mod_mul by lia.
Qed.

Lemma get64_put64 x rest : get64bit (put64bit x ++ rest) = x mod 2 ^ 64.
Proof.
  unfold get64bit. rewrite put64_split, <- app_assoc, get32_put32.
  rewrite drop_app_length' by done. rewrite get32_put32.
  rewrite Z.shiftr_div_pow2 by lia.
  set (h := (x / 2 ^ 32) mod 2 ^ 32). set (l := x mod 2 ^ 32).
  assert (0 <= h < 2 ^ 32) as Hh by (apply Z.mod_pos_bound; lia).
  assert (0 <= l < 2 ^ 32) as Hl by (apply Z.mod_pos_bound; lia).
  unfold u64. rewrite wrap_small, lor_shiftl by (rewrite ?Z.shiftl_mul_pow2 by lia; unfold is_uint; lia).
  assert (x mod 2 ^ 64 = l + 2 ^ 32 * h) as ->; [|lia].
  change (2 ^ 64) with (2 ^ 32 * 2 ^ 32). apply Z.rem_mul_r; lia.
Qed.

(** ** What a codec promises *)

Definition size_of (bs : list Z) : Z := Z.of_nat (length bs).

(** A reader that is told no more bytes than there are reads inside the buffer, and accounts for
    what it reads. *)
Definition reads_within {A} (d : reader A) : Prop :=
  forall src room, 0 <= room <= size_of src ->
    match d (src, room) with
    | Ok (_, (src', room')) =>
      exists used, src = used ++ src' /\ room' = room - size_of used /\ 0 <= room'
    | Throw => True
    | Overrun => False
    end.

(** What it reads satisfies [P]. *)
Definition yields {A} (d : reader A) (P : A -> Prop) : Prop :=
  forall src room a st, bytes src -> d (src, room) = Ok (a, st) -> P a /\ bytes st.1.

(** [a] is read back from the bytes [bs], whatever follows. *)
Definition reads_back {A} (d : reader A) (bs : list Z) (a : A) : Prop :=
  forall rest room, size_of bs <= room ->
    d (bs ++ rest, room) = Ok (a, (rest, room - size_of bs)).

Class Lawful {A} (c : Codec A) (P : A -> Prop) : Prop := {
  lawful_size a : P a -> serializedSize c a = u32 (size_of (serialize c a));
  lawful_bytes a : P a -> bytes (serialize c a);
  lawful_get a : P a -> reads_back (deserialize c) (serialize c a) a;
  lawful_within : reads_within (deserialize c);
  lawful_yields : yields (deserialize c) P;
}.

(** ** Rules for readers *)

Lemma size_of_app x y : size_of (x ++ y) = size_of x + size_of y.
Proof. unfold size_of. rewrite length_app. lia. Qed.

Lemma size_of_nonneg x : 0 <= size_of x.
Proof. unfold size_of. lia. Qed.

Lemma within_ret {A} (a : A) : reads_within (mret a).
Proof.
  intros src room H. exists []. change (size_of []) with 0. simpl. split_and!; [done|lia|lia].
Qed.

Lemma within_throw {A} : reads_within (@throw A).
Proof. done. Qed.

Lemma within_bind_if {A B} (m : reader A) (f : A -> reader B) (P : A -> Prop) :
  reads_within m -> (forall s a s', m s = Ok (a, s') -> P a) -> (forall a, P a -> reads_within (f a)) ->
  reads_within (m ≫= f).
Proof.
  intros Hm HP Hf src room H. specialize (Hm src room H). unfold mbind, reader_bind.
  destruct (m (src, room)) as [[a [src' room']]| |] eqn:E; [|done|done].
  destruct Hm as (used & -> & -> & Hr).
  specialize (Hf a (HP _ _ _ E) src' (room - size_of used)).
  rewrite size_of_app in H. specialize (Hf ltac:(lia)).
  destruct (f a _) as [[b [src'' room'']]| |]; [|done|done].
  destruct Hf as (used' & -> & -> & Hr'). exists (used ++ used').
  rewrite <- app_assoc, size_of_app. split_and!; [done|lia|lia].
Qed.

Lemma within_bind {A B} (m : reader A) (f : A -> reader B) :
  reads_within m -> (forall a, reads_within (f a)) -> reads_within (m ≫= f).
Proof. intros Hm Hf. by apply (within_bind_if _ _ (fun _ => True)). Qed.

Lemma within_read_bytes n : reads_within (read_bytes n).
Proof.
  intros src room H. unfold read_bytes. destruct (Z.ltb_spec room (Z.of_nat n)); [done|].
  unfold size_of in *. destruct (Nat.ltb_spec (length src) n); [lia|].
  exists (take n src). rewrite take_drop, length_take. split_and!; [done|lia|lia].
Qed.

Lemma within_read_n {A} n (d : reader A) : reads_within d -> reads_within (read_n n d).
Proof.
  intros Hd. induction n as [|n IH]; simpl; [apply within_ret|].
  apply within_bind; [done|]. intros x. apply within_bind; [done|]. intros xs. apply within_ret.
Qed.

Lemma yields_ret {A} (a : A) (P : A -> Prop) : P a -> yields (mret a) P.
Proof. by intros H src room b st Hs [= <- <-]. Qed.

Lemma yields_throw {A} (P : A -> Prop) : yields throw P.
Proof. by intros src room b st Hs E. Qed.

Lemma yields_bind {A B} (m : reader A) (f : A -> reader B) P Q :
  yields m P -> (forall a, P a -> yields (f a) Q) -> yields (m ≫= f) Q.
Proof.
  intros Hm Hf src room b st Hs. unfold mbind, reader_bind.
  destruct (m (src, room)) as [[a [src' room']]| |] eqn:E; [|done|done].
  destruct (Hm _ _ _ _ Hs E) as [HP Hs']. by apply Hf.
Qed.

Lemma yields_read_bytes n : yields (read_bytes n) (fun p => length p = n /\ bytes p).
Proof.
  intros src room p st Hs. unfold read_bytes. destruct (room <? _); [done|].
  destruct (Nat.ltb_spec (length src) n); [done|]. intros [= <- <-].
  split_and!; [rewrite length_take; lia|by apply Forall_take|by apply Forall_drop].
Qed.

Lemma yields_read_n {A} n (d : reader A) P :
  yields d P -> yields (read_n n d) (fun xs => length xs = n /\ Forall P xs).
Proof.
  intros Hd. induction n as [|n IH]; simpl; [by apply yields_ret|].
  eapply yields_bind; [done|]. intros x Hx. eapply yields_bind; [done|]. intros xs [Hl Hxs].
  apply yields_ret. split; [by simpl; rewrite Hl|by constructor].
Qed.

Lemma back_ret {A} (a : A) : reads_back (mret a) [] a.
Proof. intros rest room H. change (size_of []) with 0. by rewrite Z.sub_0_r. Qed.

Lemma back_bind {A B} (m : reader A) (f : A -> reader B) bs bs' a b :
  reads_back m bs a -> reads_back (f a) bs' b -> reads_back (m ≫= f) (bs ++ bs') b.
Proof.
  intros Hm Hf rest room H. rewrite size_of_app in H. pose proof (size_of_nonneg bs').
  unfold mbind, reader_bind. rewrite <- app_assoc, Hm, Hf by lia. do 3 f_equal.
  rewrite size_of_app. lia.
Qed.

Lemma back_map {A B} (m : reader A) (g : A -> B) bs a :
  reads_back m bs a -> reads_back (x ← m; mret (g x)) bs (g a).
Proof.
  intros Hm rest room H. unfold mbind, reader_bind. by rewrite Hm.
Qed.

Lemma back_read_bytes n bs : length bs = n -> reads_back (read_bytes n) bs bs.
Proof.
  intros <- rest room H. unfold read_bytes, size_of in *.
  destruct (Z.ltb_spec room (Z.of_nat (length bs))); [lia|].
  destruct (Nat.ltb_spec (length (bs ++ rest)) (length bs)) as [Hl|_];
    [rewrite length_app in Hl; lia|].
  by rewrite take_app_length, drop_app_length.
Qed.

Lemma back_read_n {A} (d : reader A) (ser : A -> list Z) xs :
  Forall (fun x => reads_back d (ser x) x) xs ->
  reads_back (read_n (length xs) d) (concat (ser <$> xs)) xs.
Proof.
  induction 1 as [|x xs Hx _ IH]; simpl; [apply back_ret|].
  eapply back_bind; [done|]. rewrite <- (app_nil_r (concat _)).
  eapply back_bind; [done|]. apply back_ret.
Qed.

Create HintDb wire.
#[export] Hint Resolve within_ret within_throw within_bind within_read_bytes within_read_n
  lawful_within lawful_bytes lawful_get : wire.

(** ** Integers *)

Lemma get64_range p : is_uint 64 (get64bit p).
Proof.
  unfold get64bit.
  destruct (wrap_range 32 (at_ p 3 + u32 (256 * u32 (at_ p 2 + u32 (256 * u32 (at_ p 1 + u32 (256 * at_ p 0)))))))
    as [H1 H2]; [lia|].
  assert (0 <= get32bit (drop 4 p) < 2 ^ 32) as Hl by (apply wrap_range; lia).
  change (0 <= get32bit p) in H1. change (get32bit p < 2 ^ 32) in H2.
  unfold u64. rewrite wrap_small, lor_shiftl
    by (rewrite ?Z.shiftl_mul_pow2 by lia; unfold is_uint; lia).
  unfold is_uint. lia.
Qed.

(** A value of a fixed number of bytes. *)
Lemma fixed_lawful {A} n (size : A -> Z) (put : A -> list Z) (get : list Z -> A) (P : A -> Prop) :
  Z.of_nat n < 2 ^ 32 ->
  (forall a, P a -> size a = Z.of_nat n /\ length (put a) = n /\ bytes (put a) /\ get (put a) = a) ->
  (forall p, length p = n -> bytes p -> P (get p)) ->
  Lawful (MkCodec size put (p ← read_bytes n; mret (get p))) P.
Proof.
  intros Hn Hput Hget. split; simpl.
  - intros a (-> & Hl & _)%Hput. unfold size_of. rewrite Hl. symmetry. apply wrap_small.
    split; [lia|done].
  - by intros a (_ & _ & Hb & _)%Hput.
  - intros a Ha. destruct (Hput a Ha) as (_ & Hl & _ & Hg). rewrite <- Hg at 2.
    apply back_map. by apply back_read_bytes.
  - auto with wire.
  - eapply yields_bind; [apply yields_read_bytes|]. intros p [Hl Hp]. apply yields_ret. auto.
Qed.

Lemma put_bytes8 x : bytes (put8bit x).
Proof. repeat constructor; apply is_byte. Qed.
Lemma put_bytes16 x : bytes (put16bit x).
Proof. repeat constructor; apply is_byte. Qed.
Lemma put_bytes32 x : bytes (put32bit x).
Proof. repeat constructor; apply is_byte. Qed.
Lemma put_bytes64 x : bytes (put64bit x).
Proof. repeat constructor; apply is_byte. Qed.

Lemma get8_put8' x : get8bit (put8bit x) = wrap 8 x.
Proof. rewrite <- (app_nil_r (put8bit x)). apply get8_put8. Qed.
Lemma get16_put16' x : get16bit (put16bit x) = wrap 16 x.
Proof. rewrite <- (app_nil_r (put16bit x)). apply get16_put16. Qed.
Lemma get32_put32' x : get32bit (put32bit x) = wrap 32 x.
Proof. rewrite <- (app_nil_r (put32bit x)). apply get32_put32. Qed.
Lemma get64_put64' x : get64bit (put64bit x) = wrap 64 x.
Proof. rewrite <- (app_nil_r (put64bit x)). apply get64_put64. Qed.

Lemma wrap_wrap w x : 0 <= w -> wrap w (wrap w x) = wrap w x.
Proof. intros Hw. apply wrap_small. by apply wrap_range. Qed.

#[export] Instance uint8_lawful : Lawful uint8_codec (is_uint 8).
Proof.
  apply fixed_lawful; [done| |intros; by apply wrap_range].
  intros a Ha. rewrite get8_put8', wrap_small by done. split_and!; [done|done|apply put_bytes8|done].
Qed.

#[export] Instance uint16_lawful : Lawful uint16_codec (is_uint 16).
Proof.
  apply fixed_lawful; [done| |intros; by apply wrap_range].
  intros a Ha. rewrite get16_put16', wrap_small by done. split_and!; [done|done|apply put_bytes16|done].
Qed.

#[export] Instance uint32_lawful : Lawful uint32_codec (is_uint 32).
Proof.
  apply fixed_lawful; [done| |intros; by apply wrap_range].
  intros a Ha. rewrite get32_put32', wrap_small by done. split_and!; [done|done|apply put_bytes32|done].
Qed.

#[export] Instance uint64_lawful : Lawful uint64_codec (is_uint 64).
Proof.
  apply fixed_lawful; [done| |intros; by apply get64_range].
  intros a Ha. rewrite get64_put64', wrap_small by done. split_and!; [done|done|apply put_bytes64|done].
Qed.

#[export] Instance int8_lawful : Lawful int8_codec (is_sint 8).
Proof.
  apply (fixed_lawful 1 _ _ (fun p => to_signed 8 (get8bit p))); [done| |intros; by apply to_signed_range].
  intros a Ha. unfold u8. rewrite get8_put8', wrap_wrap, to_signed_wrap by done.
  split_and!; [done|done|apply put_bytes8|done].
Qed.

#[export] Instance int16_lawful : Lawful int16_codec (is_sint 16).
Proof.
  apply (fixed_lawful 2 _ _ (fun p => to_signed 16 (get16bit p))); [done| |intros; by apply to_signed_range].
  intros a Ha. unfold u16. rewrite get16_put16', wrap_wrap, to_signed_wrap by done.
  split_and!; [done|done|apply put_bytes16|done].
Qed.

#[export] Instance int32_lawful : Lawful int32_codec (is_sint 32).
Proof.
  apply (fixed_lawful 4 _ _ (fun p => to_signed 32 (get32bit p))); [done| |intros; by apply to_signed_range].
  intros a Ha. rewrite get32_put32', to_signed_wrap by done.
  split_and!; [done|done|apply put_bytes32|done].
Qed.

#[export] Instance int64_lawful : Lawful int64_codec (is_sint 64).
Proof.
  apply (fixed_lawful 8 _ _ (fun p => to_signed 64 (get64bit p))); [done| |intros; by apply to_signed_range].
  intros a Ha. unfold u64. rewrite get64_put64', wrap_wrap, to_signed_wrap by done.
  split_and!; [done|done|apply put_bytes64|done].
Qed.

(** ** Composite types *)

Lemma u32_u32_l x y : u32 (u32 x + y) = u32 (x + y).
Proof. unfold u32, wrap. by rewrite Zplus_mod_idemp_l. Qed.
Lemma u32_u32_r x y : u32 (x + u32 y) = u32 (x + y).
Proof. unfold u32, wrap. by rewrite Zplus_mod_idemp_r. Qed.

#[export] Instance bool_lawful : Lawful bool_codec (fun _ => True).
Proof.
  split; cbn [serializedSize serialize deserialize bool_codec]; unfold put_bool, get_bool.
  - done.
  - intros a _. apply put_bytes8.
  - intros [] _ rest room H; unfold mbind, reader_bind;
      rewrite (back_read_bytes 1) by done; rewrite get8_put8'; done.
  - apply within_bind; [auto with wire|]. intros p. case_match; auto with wire.
  - eapply yields_bind; [apply yields_read_bytes|]. intros p _. case_match; [apply yields_throw|].
    by apply yields_ret.
Qed.

#[export] Instance enum_lawful n : 0 <= n <= 256 -> Lawful (enum_codec n) (fun v => 0 <= v < n).
Proof.
  intros Hn. assert (forall a, 0 <= a < n -> is_uint 8 a) as Hu.
  { intros a Ha. unfold is_uint. change (2 ^ 8) with 256. lia. }
  split; unfold enum_codec; cbn [serializedSize serialize deserialize].
  - intros a Ha. by apply (lawful_size (c := uint8_codec)), Hu.
  - intros a Ha. apply put_bytes8.
  - intros a Ha rest room H. unfold mbind, reader_bind.
    rewrite (lawful_get (c := uint8_codec) a (Hu a Ha)) by done.
    destruct (Z.leb_spec n a); [lia|done].
  - apply within_bind; [apply (lawful_within (c := uint8_codec))|].
    intros v. case_match; auto with wire.
  - eapply yields_bind; [apply (lawful_yields (c := uint8_codec))|]. intros v [Hv _].
    destruct (Z.leb_spec n v); [apply yields_throw|]. by apply yields_ret.
Qed.

#[export] Instance pair_lawful {A B} (ca : Codec A) (cb : Codec B) P Q :
  Lawful ca P -> Lawful cb Q -> Lawful (pair_codec ca cb) (fun p => P p.1 /\ Q p.2).
Proof.
  intros La Lb. split; cbn [serializedSize serialize deserialize pair_codec];
    unfold pair_size, put_pair, get_pair.
  - intros [a b] [Ha Hb]. simpl. rewrite (lawful_size a Ha), (lawful_size b Hb), size_of_app.
    by rewrite u32_u32_l, u32_u32_r.
  - intros [a b] [Ha Hb]. apply Forall_app. split; by apply lawful_bytes.
  - intros [a b] [Ha Hb]. simpl. eapply back_bind; [by apply lawful_get|].
    rewrite <- (app_nil_r (serialize cb b)). eapply back_bind; [by apply lawful_get|].
    apply back_ret.
  - apply within_bind; [apply lawful_within|]. intros a.
    apply within_bind; [apply lawful_within|]. intros b. apply within_ret.
  - eapply yields_bind; [apply lawful_yields|]. intros a Ha.
    eapply yields_bind; [apply lawful_yields|]. intros b Hb. by apply yields_ret.
Qed.

#[export] Instance option_lawful {A} (c : Codec A) P :
  Lawful c P -> Lawful (option_codec c) (from_option P True).
Proof.
  intros L. split; unfold option_codec; cbn [serializedSize serialize deserialize];
    unfold ptr_size, put_ptr, get_ptr.
  - intros [a|] Ha; [|done]. rewrite (lawful_size a Ha), size_of_app, u32_u32_r. done.
  - intros [a|] Ha; [|apply put_bytes8]. apply Forall_app. split; [apply put_bytes8|by apply lawful_bytes].
  - intros [a|] Ha.
    + eapply back_bind; [by apply (lawful_get (c := bool_codec))|]. apply back_map. by apply lawful_get.
    + rewrite <- (app_nil_r (serialize bool_codec false)).
      eapply back_bind; [by apply (lawful_get (c := bool_codec))|]. apply back_ret.
  - apply within_bind; [apply (lawful_within (c := bool_codec))|]. intros [].
    + apply within_bind; [apply lawful_within|]. intros a. apply within_ret.
    + apply within_ret.
  - eapply yields_bind; [apply (lawful_yields (c := bool_codec))|]. intros [] _.
    + eapply yields_bind; [apply lawful_yields|]. intros a Ha. by apply yields_ret.
    + by apply yields_ret.
Qed.

Lemma sum_sizes_ok {A} (c : Codec A) P `{!Lawful c P} start xs :
  Forall P xs -> is_uint 32 start ->
  sum_sizes c start xs = u32 (start + size_of (concat (serialize c <$> xs))).
Proof.
  intros HF. revert start. unfold sum_sizes. induction HF as [|x xs Hx HF IH]; intros start Hs.
  { simpl. change (size_of []) with 0. rewrite Z.add_0_r. symmetry. by apply wrap_small. }
  cbn [foldl fmap list_fmap concat]. rewrite IH by (by apply wrap_range).
  rewrite (lawful_size x Hx), size_of_app, u32_u32_r, u32_u32_l. f_equal. lia.
Qed.

Lemma bytes_concat {A} (c : Codec A) P `{!Lawful c P} xs :
  Forall P xs -> bytes (concat (serialize c <$> xs)).
Proof.
  induction 1 as [|x xs Hx HF IH]; simpl; [constructor|]. apply Forall_app.
  split; [by apply lawful_bytes|done].
Qed.

Lemma Forall_lawful_get {A} (c : Codec A) P `{!Lawful c P} xs :
  Forall P xs -> Forall (fun x => reads_back (deserialize c) (serialize c x) x) xs.
Proof. intros HF. eapply Forall_impl; [exact HF|]. intros x Hx. by apply lawful_get. Qed.

#[export] Instance array_lawful {A} n (c : Codec A) P :
  Lawful c P -> Lawful (array_codec n c) (fun xs => length xs = n /\ Forall P xs).
Proof.
  intros L. split; unfold array_codec; cbn [serializedSize serialize deserialize];
    unfold array_size, put_array, get_array.
  - intros xs [_ HF]. by rewrite (sum_sizes_ok c P).
  - intros xs [_ HF]. by eapply bytes_concat.
  - intros xs [<- HF]. apply back_read_n. by eapply Forall_lawful_get.
  - apply within_read_n. apply lawful_within.
  - apply yields_read_n, lawful_yields.
Qed.

(** std::vector and the containers that serialize as one. *)
Definition max_elements {A} (xs : list A) : Prop :=
  Z.of_nat (length xs) <= kMaxDeserializedElementsCount.

Lemma get_elements_back {A} (c : Codec A) P `{!Lawful c P} xs :
  max_elements xs -> Forall P xs ->
  reads_back (get_elements c)
    (put32bit (u32 (Z.of_nat (length xs))) ++ concat (serialize c <$> xs)) xs.
Proof.
  intros Hmax HF. unfold max_elements in Hmax. assert (is_uint 32 (Z.of_nat (length xs))) as Hu.
  { split; [lia|]. unfold kMaxDeserializedElementsCount in Hmax. change (2 ^ 32) with 4294967296. lia. }
  unfold u32. rewrite wrap_small by done.
  eapply back_bind; [by apply (lawful_get (c := uint32_codec))|].
  destruct (Z.ltb_spec kMaxDeserializedElementsCount (Z.of_nat (length xs))); [lia|].
  rewrite Nat2Z.id. apply back_read_n. by eapply Forall_lawful_get.
Qed.

Lemma get_elements_within {A} (c : Codec A) P `{!Lawful c P} : reads_within (get_elements c).
Proof.
  apply within_bind; [apply (lawful_within (c := uint32_codec))|]. intros size.
  case_match; [apply within_throw|]. apply within_read_n. apply lawful_within.
Qed.

Lemma get_elements_yields {A} (c : Codec A) P `{!Lawful c P} :
  yields (get_elements c) (fun xs => max_elements xs /\ Forall P xs).
Proof.
  eapply yields_bind; [apply (lawful_yields (c := uint32_codec))|]. intros size Hs.
  destruct (Z.ltb_spec kMaxDeserializedElementsCount size); [apply yields_throw|].
  intros src room xs st Hb E.
  destruct (yields_read_n _ _ _ (lawful_yields (c := c)) _ _ _ _ Hb E) as [[Hl HF] Hst].
  split; [|done]. split; [|done]. unfold max_elements. rewrite Hl. destruct Hs. lia.
Qed.

(** A container whose [build] keeps the lists that satisfy [I], and always gives such a list. *)
Lemma container_lawful {A} (build : list A -> list A) (I : list A -> Prop) (c : Codec A) P :
  Lawful c P -> (forall xs, I xs -> build xs = xs) ->
  (forall xs, Forall P xs -> I (build xs) /\ Forall P (build xs) /\ (length (build xs) <= length xs)%nat) ->
  Lawful (container_codec build c) (fun xs => max_elements xs /\ Forall P xs /\ I xs).
Proof.
  intros L Hid Hbuild. split; unfold container_codec; cbn [serializedSize serialize deserialize];
    unfold container_size, put_container.
  - intros xs (Hmax & HF & _). rewrite (sum_sizes_ok c P) by done. by rewrite size_of_app.
  - intros xs (_ & HF & _). apply Forall_app. split; [apply put_bytes32|by eapply bytes_concat].
  - intros xs (Hmax & HF & HI). rewrite <- (Hid xs HI) at 3. apply back_map.
    by eapply get_elements_back.
  - apply within_bind; [by eapply get_elements_within|]. intros xs. apply within_ret.
  - eapply yields_bind; [by eapply get_elements_yields|]. intros xs [Hmax HF]. apply yields_ret.
    destruct (Hbuild xs HF) as (HI & HF' & Hl). split_and!; [|done|done].
    unfold max_elements in *. lia.
Qed.

#[export] Instance vector_lawful {A} (c : Codec A) P :
  Lawful c P -> Lawful (vector_codec c) (fun xs => max_elements xs /\ Forall P xs /\ True).
Proof. intros L. by apply container_lawful. Qed.

(** std::set and std::map *)
Section sets.
Context {A : Type} (lt : A -> A -> bool).
Hypothesis lt_trans : forall x y z, lt x y = true -> lt y z = true -> lt x z = true.

Abbreviation sorted := (StronglySorted (fun x y => lt x y = true)).

Lemma partition_point_all_true (p : A -> bool) l :
  Forall (fun x => p x = true) l -> partition_point p l = length l.
Proof. induction 1 as [|x l Hx _ IH]; simpl; [done|]. by rewrite Hx, IH. Qed.

Lemma set_insert_last s x : Forall (fun y => lt y x = true) s -> set_insert lt s x = s ++ [x].
Proof.
  intros H. unfold set_insert. rewrite partition_point_all_true by done.
  by rewrite lookup_ge_None_2.
Qed.

Lemma set_build_sorted acc xs :
  sorted (acc ++ xs) -> foldl (set_insert lt) acc xs = acc ++ xs.
Proof.
  revert acc. induction xs as [|x xs IH]; intros acc HS; simpl; [by rewrite app_nil_r|].
  rewrite set_insert_last.
  - rewrite IH; rewrite <- app_assoc; done.
  - apply StronglySorted_app in HS as (Hlt & _ & _). apply Forall_forall. intros y Hy.
    apply Hlt; [done|by left].
Qed.

(** The three cases of an insertion. *)
Lemma set_insert_cases s x :
  set_insert lt s x = s \/
  exists s1 s2, s = s1 ++ s2 /\ set_insert lt s x = s1 ++ x :: s2 /\
    Forall (fun y => lt y x = true) s1 /\ (forall y s2', s2 = y :: s2' -> lt x y = true).
Proof.
  unfold set_insert. set (it := partition_point _ s).
  pose proof (partition_point_take (fun y => lt y x) s) as Htake. fold it in Htake.
  destruct (s !! it) as [y|] eqn:E.
  - destruct (lt x y) eqn:El; [|by left]. right. exists (take it s), (drop it s).
    rewrite take_drop. split_and!; try done. intros z s2' Hz.
    rewrite (drop_S _ _ _ E) in Hz. by simplify_eq.
  - right. exists s, []. rewrite app_nil_r. split_and!; try done.
    apply lookup_ge_None in E. by rewrite take_ge in Htake by lia.
Qed.

Lemma set_insert_sorted s x : sorted s -> sorted (set_insert lt s x).
Proof.
  intros HS. destruct (set_insert_cases s x) as [->|(s1 & s2 & -> & -> & H1 & H2)]; [done|].
  rewrite Forall_forall in H1. apply StronglySorted_app in HS as (Hlt & HS1 & HS2).
  assert (forall y, y ∈ s2 -> lt x y = true) as Hx.
  { destruct s2 as [|z s2]; [by intros y ?%elem_of_nil|]. specialize (H2 z s2 eq_refl).
    intros y [->|Hy]%elem_of_cons; [done|]. apply (lt_trans x z y); [done|].
    apply StronglySorted_cons in HS2 as [Hz _]. rewrite Forall_forall in Hz. by apply Hz. }
  apply StronglySorted_app. split_and!; [|done|].
  - intros a b Ha [->|Hb]%elem_of_cons; [by apply H1|by apply Hlt].
  - apply StronglySorted_cons. split; [|done]. by apply Forall_forall.
Qed.

Lemma set_insert_Forall P s x : Forall P s -> P x -> Forall P (set_insert lt s x).
Proof.
  intros HF Hx. destruct (set_insert_cases s x) as [->|(s1 & s2 & -> & -> & _)]; [done|].
  apply Forall_app in HF as [? ?]. apply Forall_app. split; [done|by constructor].
Qed.

Lemma set_insert_length s x : (length (set_insert lt s x) <= S (length s))%nat.
Proof.
  destruct (set_insert_cases s x) as [->|(s1 & s2 & -> & -> & _)]; [lia|].
  rewrite !length_app. simpl. lia.
Qed.

Lemma set_build_ok P acc xs :
  sorted acc -> Forall P acc -> Forall P xs ->
  sorted (foldl (set_insert lt) acc xs) /\ Forall P (foldl (set_insert lt) acc xs) /\
  (length (foldl (set_insert lt) acc xs) <= length acc + length xs)%nat.
Proof.
  intros HS HF HFx. revert acc HS HF. induction HFx as [|x xs Hx HFx IH]; intros acc HS HF; simpl.
  { split_and!; [done|done|lia]. }
  destruct (IH (set_insert lt acc x)) as (H1 & H2 & H3).
  - by apply set_insert_sorted.
  - by apply set_insert_Forall.
  - split_and!; [done|done|]. pose proof (set_insert_length acc x). lia.
Qed.

Lemma set_lawful (c : Codec A) P :
  Lawful c P ->
  Lawful (set_codec lt c) (fun xs => max_elements xs /\ Forall P xs /\ sorted xs).
Proof.
  intros L. apply container_lawful; [done| |].
  - intros xs HS. by apply (set_build_sorted []).
  - intros xs HF. destruct (set_build_ok P [] xs) as (H1 & H2 & H3); [constructor|constructor|done|].
    done.
Qed.
End sets.

Lemma map_lawful {K V} (lt : K -> K -> bool) (ck : Codec K) (cv : Codec V) P Q :
  (forall x y z, lt x y = true -> lt y z = true -> lt x z = true) ->
  Lawful ck P -> Lawful cv Q ->
  Lawful (map_codec lt ck cv) (fun xs => max_elements xs /\ Forall (fun p => P p.1 /\ Q p.2) xs /\
    StronglySorted (fun x y => lt x.1 y.1 = true) xs).
Proof.
  intros Ht La Lb. apply set_lawful; [|apply _]. intros x y z. apply Ht.
Qed.

(** Strings *)
Definition string_ok (value : list Z) : Prop :=
  bytes value /\ Z.of_nat (length value) + 1 <= kMaxDeserializedElementsCount.

Lemma take_string_within size : is_uint 32 size -> reads_within (take_string size).
Proof.
  intros [Hs _] src room H. unfold take_string. unfold size_of in *.
  destruct (kMaxDeserializedElementsCount <? size); [done|].
  destruct (Z.ltb_spec room size); [done|]. destruct (Z.eqb_spec size 0); [done|].
  destruct (Nat.ltb_spec (length src) (Z.to_nat size)); [lia|].
  destruct (negb _); [done|].
  exists (take (Z.to_nat size) src). rewrite take_drop, length_take. split_and!; [done|lia|lia].
Qed.

Lemma take_string_yields size : is_uint 32 size -> yields (take_string size) string_ok.
Proof.
  intros [Hs _] src room value st Hb. unfold take_string.
  destruct (Z.ltb_spec kMaxDeserializedElementsCount size); [done|].
  destruct (room <? size); [done|]. destruct (Z.eqb_spec size 0); [done|].
  destruct (Nat.ltb_spec (length src) (Z.to_nat size)); [done|].
  destruct (negb _); [done|]. intros [= <- <-]. split; [|by apply Forall_drop].
  split; [by apply Forall_take|]. rewrite length_take. lia.
Qed.

Lemma take_string_back value :
  string_ok value -> reads_back (take_string (Z.of_nat (length value) + 1)) (value ++ put8bit 0) value.
Proof.
  intros [Hb Hl] rest room H. rewrite size_of_app in *.
  change (size_of (put8bit 0)) with 1 in *. unfold size_of in *.
  set (n := Z.of_nat (length value) + 1) in *. unfold take_string.
  assert (Z.to_nat n = S (length value)) as En by lia.
  assert (Z.to_nat (n - 1) = length value) as En' by lia.
  rewrite <- app_assoc, En, En'.
  destruct (Z.ltb_spec kMaxDeserializedElementsCount n); [lia|].
  destruct (Z.ltb_spec room n); [lia|]. destruct (Z.eqb_spec n 0); [lia|].
  destruct (Nat.ltb_spec (length (value ++ put8bit 0 ++ rest)) (S (length value))) as [Hc|_];
    [rewrite !length_app in Hc; simpl in Hc; lia|].
  unfold at_. rewrite app_nth2, Nat.sub_diag by lia. simpl.
  rewrite take_app_length. f_equal. f_equal. f_equal.
  rewrite <- (Nat.add_1_r (length value)), <- drop_drop, drop_app_length. done.
Qed.

Lemma uint32_always s n s' : deserialize uint32_codec s = Ok (n, s') -> is_uint 32 n.
Proof.
  unfold uint32_codec. cbn [deserialize]. unfold mbind, reader_bind.
  destruct (read_bytes 4 s) as [[p st]| |]; [|done|done]. intros [= <- <-]. by apply wrap_range.
Qed.

#[export] Instance string_lawful : Lawful string_codec string_ok.
Proof.
  assert (forall value, string_ok value -> is_uint 32 (Z.of_nat (length value) + 1)) as Hu.
  { intros value [_ Hl]. split; [lia|]. unfold kMaxDeserializedElementsCount in Hl.
    change (2 ^ 32) with 4294967296. lia. }
  split; unfold string_codec; cbn [serializedSize serialize deserialize];
    unfold string_size, put_string.
  - intros value Hv. f_equal. unfold size_of. rewrite !length_app. simpl. lia.
  - intros value [Hb _]. rewrite !Forall_app. split_and!; [apply put_bytes32|done|apply put_bytes8].
  - intros value Hv. unfold u32. rewrite wrap_small by (by apply Hu).
    eapply back_bind; [by apply (lawful_get (c := uint32_codec)), Hu|]. by apply take_string_back.
  - eapply within_bind_if; [apply (lawful_within (c := uint32_codec))|apply uint32_always|].
    apply take_string_within.
  - eapply yields_bind; [apply (lawful_yields (c := uint32_codec))|]. apply take_string_yields.
Qed.

(** Classes with generated methods *)
Lemma class_lawful {A B} (fields : A -> B) (make : B -> A) (c : Codec B) P :
  Lawful c P -> (forall a, make (fields a) = a) -> (forall b, fields (make b) = b) ->
  Lawful (class_codec fields make c) (fun a => P (fields a)).
Proof.
  intros L Hmf Hfm. split; unfold class_codec; cbn [serializedSize serialize deserialize].
  - intros a Ha. by apply lawful_size.
  - intros a Ha. by apply lawful_bytes.
  - intros a Ha. rewrite <- (Hmf a) at 2. apply back_map. by apply lawful_get.
  - apply within_bind; [apply lawful_within|]. intros b. apply within_ret.
  - eapply yields_bind; [apply lawful_yields|]. intros b Hb. apply yields_ret. by rewrite Hfm.
Qed.

(** ** Reading back exactly what fits *)

(** Reading the bytes of [a] gives [a] back when it fits, and an exception when it does not. *)
Definition reads_exactly {A} (d : reader A) (bs : list Z) (a : A) (fits : bool) : Prop :=
  forall rest room, size_of bs <= room ->
    d (bs ++ rest, room) = if fits then Ok (a, (rest, room - size_of bs)) else Throw.

(** A codec that writes every value of [V], and refuses to read those over the limits. *)
Class Exact {A} (c : Codec A) (V : A -> Prop) (fits : A -> bool) : Prop := {
  exact_size a : V a -> serializedSize c a = u32 (size_of (serialize c a));
  exact_bytes a : V a -> bytes (serialize c a);
  exact_get a : V a -> reads_exactly (deserialize c) (serialize c a) a (fits a);
}.

Lemma lawful_exact {A} (c : Codec A) P : Lawful c P -> Exact c P (fun _ => true).
Proof.
  intros L. split; [apply lawful_size|apply lawful_bytes|]. intros a Ha. by apply lawful_get.
Qed.

Lemma exactly_ret {A} (a : A) : reads_exactly (mret a) [] a true.
Proof. apply back_ret. Qed.

Lemma exactly_bind {A B} (m : reader A) (f : A -> reader B) bs bs' a b ok ok' :
  reads_exactly m bs a ok -> reads_exactly (f a) bs' b ok' ->
  reads_exactly (m ≫= f) (bs ++ bs') b (ok && ok').
Proof.
  intros Hm Hf rest room H. rewrite size_of_app in *. pose proof (size_of_nonneg bs').
  unfold mbind, reader_bind. rewrite <- app_assoc, Hm by lia. destruct ok; [|done].
  rewrite Hf by lia. destruct ok'; [|done]. simpl. do 3 f_equal. lia.
Qed.

Lemma exactly_map {A B} (m : reader A) (g : A -> B) bs a ok :
  reads_exactly m bs a ok -> reads_exactly (x ← m; mret (g x)) bs (g a) ok.
Proof.
  intros Hm. rewrite <- (app_nil_r bs), <- (andb_true_r ok).
  eapply exactly_bind; [done|apply exactly_ret].
Qed.

#[export] Instance pair_exact {A B} (ca : Codec A) (cb : Codec B) P Q f g :
  Exact ca P f -> Exact cb Q g ->
  Exact (pair_codec ca cb) (fun p => P p.1 /\ Q p.2) (fun p => f p.1 && g p.2).
Proof.
  intros La Lb. split; cbn [serializedSize serialize deserialize pair_codec];
    unfold pair_size, put_pair, get_pair.
  - intros [a b] [Ha Hb]. simpl. rewrite (exact_size a Ha), (exact_size b Hb), size_of_app.
    by rewrite u32_u32_l, u32_u32_r.
  - intros [a b] [Ha Hb]. apply Forall_app. split; by apply exact_bytes.
  - intros [a b] [Ha Hb]. simpl. eapply exactly_bind; [by apply exact_get|].
    apply (exactly_map _ (pair a)). by apply exact_get.
Qed.

#[export] Instance option_exact {A} (c : Codec A) P f :
  Exact c P f -> Exact (option_codec c) (from_option P True) (from_option f true).
Proof.
  intros L. split; unfold option_codec; cbn [serializedSize serialize deserialize];
    unfold ptr_size, put_ptr, get_ptr.
  - intros [a|] Ha; [|done]. rewrite (exact_size a Ha), size_of_app, u32_u32_r. done.
  - intros [a|] Ha; [|apply put_bytes8]. apply Forall_app. split; [apply put_bytes8|by apply exact_bytes].
  - intros [a|] Ha.
    + apply (exactly_bind _ _ _ _ true _ true); [by apply (lawful_get (c := bool_codec))|].
      apply (exactly_map _ Some). by apply exact_get.
    + rewrite <- (app_nil_r (serialize bool_codec false)).
      apply (exactly_bind _ _ _ _ false _ true true); [by apply (lawful_get (c := bool_codec))|].
      apply exactly_ret.
Qed.

Section exact_elements.
Context {A : Type} (c : Codec A) (V : A -> Prop) (fits : A -> bool) `{!Exact c V fits}.

Lemma sum_sizes_exact start xs :
  Forall V xs -> is_uint 32 start ->
  sum_sizes c start xs = u32 (start + size_of (concat (serialize c <$> xs))).
Proof.
  intros HF. revert start. unfold sum_sizes. induction HF as [|x xs Hx HF IH]; intros start Hs.
  { simpl. change (size_of []) with 0. rewrite Z.add_0_r. symmetry. by apply wrap_small. }
  cbn [foldl fmap list_fmap concat]. rewrite IH by (by apply wrap_range).
  rewrite (exact_size x Hx), size_of_app, u32_u32_r, u32_u32_l. f_equal. lia.
Qed.

Lemma concat_exact xs : Forall V xs -> bytes (concat (serialize c <$> xs)).
Proof.
  induction 1 as [|x xs Hx HF IH]; simpl; [constructor|]. apply Forall_app.
  split; [by apply exact_bytes|done].
Qed.

Lemma read_n_exact xs :
  Forall V xs ->
  reads_exactly (read_n (length xs) (deserialize c)) (concat (serialize c <$> xs)) xs (forallb fits xs).
Proof.
  induction 1 as [|x xs Hx _ IH]; simpl; [apply exactly_ret|].
  eapply exactly_bind; [by apply exact_get|]. by apply (exactly_map _ (cons x)).
Qed.

#[export] Instance array_exact n :
  Exact (array_codec n c) (fun xs => length xs = n /\ Forall V xs) (forallb fits).
Proof.
  split; unfold array_codec; cbn [serializedSize serialize deserialize];
    unfold array_size, put_array, get_array.
  - intros xs [_ HF]. by rewrite sum_sizes_exact.
  - intros xs [_ HF]. by apply concat_exact.
  - intros xs [<- HF]. by apply read_n_exact.
Qed.

Definition elements_fit (xs : list A) : bool :=
  (Z.of_nat (length xs) <=? kMaxDeserializedElementsCount) && forallb fits xs.

Lemma get_elements_exact xs :
  is_uint 32 (Z.of_nat (length xs)) -> Forall V xs ->
  reads_exactly (get_elements c)
    (put32bit (u32 (Z.of_nat (length xs))) ++ concat (serialize c <$> xs)) xs (elements_fit xs).
Proof.
  intros Hu HF. unfold u32. rewrite wrap_small by done.
  apply (exactly_bind _ _ _ _ (Z.of_nat (length xs)) _ true (elements_fit xs));
    [by apply (lawful_get (c := uint32_codec))|].
  unfold elements_fit. destruct (Z.ltb_spec kMaxDeserializedElementsCount (Z.of_nat (length xs))).
  - by rewrite (proj2 (Z.leb_gt _ _)).
  - rewrite (proj2 (Z.leb_le _ _)) by done. rewrite Nat2Z.id. by apply read_n_exact.
Qed.

(** A container whose [build] keeps the lists that satisfy [I]. *)
Lemma container_exact (build : list A -> list A) (I : list A -> Prop) :
  (forall xs, I xs -> build xs = xs) ->
  Exact (container_codec build c)
    (fun xs => is_uint 32 (Z.of_nat (length xs)) /\ Forall V xs /\ I xs) elements_fit.
Proof.
  intros Hid. split; unfold container_codec; cbn [serializedSize serialize deserialize];
    unfold container_size, put_container.
  - intros xs (_ & HF & _). rewrite sum_sizes_exact by done. by rewrite size_of_app.
  - intros xs (_ & HF & _). apply Forall_app. split; [apply put_bytes32|by apply concat_exact].
  - intros xs (Hu & HF & HI). rewrite <- (Hid xs HI) at 3. apply exactly_map.
    by apply get_elements_exact.
Qed.
End exact_elements.

(** A string of bytes, of a length that is a uint32_t with its final zero. *)
Definition string_value (value : list Z) : Prop :=
  bytes value /\ is_uint 32 (Z.of_nat (length value) + 1).

Definition string_fits (value : list Z) : bool :=
  Z.of_nat (length value) + 1 <=? kMaxDeserializedElementsCount.

#[export] Instance string_exact : Exact string_codec string_value string_fits.
Proof.
  split; unfold string_codec; cbn [serializedSize serialize deserialize];
    unfold string_size, put_string.
  - intros value Hv. f_equal. unfold size_of. rewrite !length_app. simpl. lia.
  - intros value [Hb _]. rewrite !Forall_app. split_and!; [apply put_bytes32|done|apply put_bytes8].
  - intros value [Hb Hu]. unfold u32. rewrite wrap_small by done.
    apply (exactly_bind _ _ _ _ (Z.of_nat (length value) + 1) _ true (string_fits value));
      [by apply (lawful_get (c := uint32_codec))|].
    unfold string_fits. destruct (Z.leb_spec (Z.of_nat (length value) + 1) kMaxDeserializedElementsCount).
    + by apply take_string_back.
    + intros rest room _. unfold take_string. by rewrite (proj2 (Z.ltb_lt _ _)).
Qed.

(** ** The main interface *)

Lemma serialize_buffer_ok {A} (c : Codec A) P `{!Lawful c P} a :
  P a -> size_of (serialize c a) < 2 ^ 32 -> serialize_buffer c a = Some (serialize c a).
Proof.
  intros Ha Hs. unfold serialize_buffer. rewrite (lawful_size a Ha). unfold u32.
  rewrite wrap_small by (split; [apply size_of_nonneg|done]). unfold size_of. by rewrite Z.eqb_refl.
Qed.

Lemma deserialize_buffer_ok {A} (c : Codec A) P `{!Lawful c P} a rest :
  P a -> size_of (serialize c a ++ rest) <= kMaxDeserializedBytesCount ->
  deserialize_buffer c (serialize c a ++ rest) (size_of (serialize c a ++ rest)) = Ok (a, size_of rest).
Proof.
  intros Ha Hs. unfold deserialize_buffer.
  destruct (Z.ltb_spec kMaxDeserializedBytesCount (size_of (serialize c a ++ rest))); [lia|].
  rewrite size_of_app in *. rewrite lawful_get by (done || (pose proof (size_of_nonneg rest); lia)).
  do 2 f_equal. lia.
Qed.

Lemma deserialize_buffer_within {A} (c : Codec A) P `{!Lawful c P} buffer size :
  0 <= size <= size_of buffer ->
  match deserialize_buffer c buffer size with
  | Ok (_, left_over) => 0 <= left_over <= size
  | Throw => True
  | Overrun => False
  end.
Proof.
  intros H. unfold deserialize_buffer. destruct (_ <? _); [done|].
  pose proof (lawful_within (c := c) buffer size H) as Hw.
  destruct (deserialize c _) as [[a [src room]]| |]; [|done|done].
  destruct Hw as (used & _ & -> & Hr). pose proof (size_of_nonneg used). lia.
Qed.
