(* ===== verification/Text.v ===== *)
(** Text as the sources write and read it: characters as their codes, decimal numbers of printf and std::to_string, and
    the conversions strtoul, strtoull and std::stoull of the C and C++ libraries. *)
From Stdlib Require Import String Ascii.
From S2P Require Import Prelude.

Definition chr (a : ascii) : Z := Z.of_N (N_of_ascii a).
Definition txt (s : string) : list Z := chr <$> list_ascii_of_string s.
Arguments chr a%_char_scope.
Arguments txt s%_string_scope.

(** ** Decimal numbers *)

Definition is_digit (c : Z) : bool := (48 <=? c) && (c <=? 57).

(** The digits of a number of at most [fuel] digits. *)
Fixpoint digits (fuel : nat) (x : Z) : list Z :=
  match fuel with
  | O => []
  | S fuel => (if x <? 10 then [] else digits fuel (x / 10)) ++ [48 + x mod 10]
  end.

(** An unsigned number of 64 bits has at most 20 digits. *)
Definition dec (x : Z) : list Z := digits 20 x.

(** isspace() *)
Definition is_space (c : Z) : bool := (c =? 32) || (9 <=? c) && (c <=? 13).

Fixpoint skip_spaces (p : list Z) : list Z :=
  match p with
  | c :: p' => if is_space c then skip_spaces p' else p
  | [] => []
  end.

Fixpoint read_digits (value : Z) (p : list Z) : Z * list Z :=
  match p with
  | c :: p' => if is_digit c then read_digits (10 * value + (c - 48)) p' else (value, p)
  | [] => (value, [])
  end.

Definition starts_digit (p : list Z) : bool := match p with c :: _ => is_digit c | [] => false end.

(** White space and a sign before a number. *)
Definition sign (p : list Z) : bool * list Z :=
  match skip_spaces p with
  | c :: q => if c =? 45 then (true, q) else if c =? 43 then (false, q) else (false, c :: q)
  | [] => (false, [])
  end.

(** strtoull(p, &end, 10) and, with 64-bit longs, strtoul(): the value and the text at [end]. *)
Definition strtoull (p : list Z) : Z * list Z :=
  let '(negative, q) := sign p in
  if starts_digit q then
    let '(value, q) := read_digits 0 q in
    (if uint64_max <? value then uint64_max else if negative then u64 (- value) else value, q)
  else (0, p).

(** strtol() with 64-bit longs. *)
Definition strtol (p : list Z) : Z * list Z :=
  let '(negative, q) := sign p in
  if starts_digit q then
    let '(value, q) := read_digits 0 q in
    (if negative then Z.max (- 2 ^ 63) (- value) else Z.min int64_max value, q)
  else (0, p).

(** std::stoull(): an exception when there is no number or when it is out of range. *)
Definition stoull (p : list Z) : option (Z * list Z) :=
  let '(negative, q) := sign p in
  if starts_digit q then
    let '(value, q) := read_digits 0 q in
    if uint64_max <? value then None else Some (if negative then u64 (- value) else value, q)
  else None.

(** ** Lemmas *)

Lemma digits_small fuel x : 0 <= x -> Forall (fun c => is_digit c = true) (digits fuel x).
Proof.
  revert x. induction fuel as [|fuel IH]; intros x Hx; simpl; [constructor|]. apply Forall_app. split.
  - destruct (x <? 10); [constructor|]. apply IH. apply Z.div_pos; lia.
  - repeat constructor. unfold is_digit. pose proof (Z.mod_pos_bound x 10 ltac:(lia)). lia.
Qed.

Lemma digits_not_nil fuel x : (0 < fuel)%nat -> digits fuel x <> [].
Proof. destruct fuel; [lia|]. intros _ H%app_nil. by destruct H. Qed.

Lemma dec_digits x : 0 <= x -> Forall (fun c => is_digit c = true) (dec x).
Proof. apply digits_small. Qed.

Lemma dec_head x : 0 <= x -> exists c rest, dec x = c :: rest /\ is_digit c = true.
Proof.
  intros Hx. pose proof (dec_digits x Hx) as H. destruct (dec x) as [|c rest] eqn:E; [by apply (digits_not_nil 20 x) in E; [|lia]|].
  apply Forall_cons in H as [H _]. by exists c, rest.
Qed.

Lemma read_digits_app fuel : forall value x rest,
  0 <= x < 10 ^ Z.of_nat fuel -> starts_digit rest = false ->
  exists k, read_digits value (digits fuel x ++ rest) = (value * 10 ^ k + x, rest).
Proof.
  assert (forall value l rest, Forall (fun c => is_digit c = true) l ->
    read_digits value (l ++ rest) = read_digits (read_digits value l).1 rest) as Happ.
  { intros value l rest H. revert value. induction H as [|c l Hc H IH]; intros value; [done|]. cbn [app read_digits]. rewrite Hc. apply IH. }
  intros value x rest Hx Hrest. rewrite Happ by (apply digits_small; lia).
  assert (forall value x, 0 <= x < 10 ^ Z.of_nat fuel -> exists k, (read_digits value (digits fuel x)).1 = value * 10 ^ k + x) as Hval.
  { clear value x rest Hx Hrest. induction fuel as [|fuel IH]; intros value x Hx.
    - simpl in Hx. exists 0. simpl. lia.
    - cbn [digits]. destruct (Z.ltb_spec x 10) as [Hs|Hs].
      + exists 1. cbn [app read_digits]. rewrite Z.mod_small by lia. assert (is_digit (48 + x) = true) as -> by (unfold is_digit; lia). simpl. lia.
      + assert (0 <= x / 10 < 10 ^ Z.of_nat fuel) as Hq.
        { split; [apply Z.div_pos; lia|]. apply Z.div_lt_upper_bound; [lia|]. replace (Z.of_nat (S fuel)) with (1 + Z.of_nat fuel) in Hx by lia.
          rewrite Z.pow_add_r in Hx by lia. lia. }
        rewrite Happ by (apply digits_small; lia). destruct (IH value _ Hq) as [k Hk]. rewrite Hk. cbn [read_digits].
        pose proof (Z.mod_pos_bound x 10 ltac:(lia)). assert (is_digit (48 + x mod 10) = true) as -> by (unfold is_digit; lia).
        destruct (Z.le_gt_cases 0 k) as [Hk0|Hk0].
        * exists (k + 1). rewrite Z.pow_add_r by lia. cbn [fst]. pose proof (Z.div_mod x 10 ltac:(lia)). lia.
        * rewrite Z.pow_neg_r by lia. exists (-1). rewrite Z.pow_neg_r by lia. cbn [fst]. pose proof (Z.div_mod x 10 ltac:(lia)). lia. }
  destruct (Hval value x Hx) as [k Hk]. exists k. rewrite Hk. destruct rest as [|c rest]; [done|]. simpl in *. by rewrite Hrest.
Qed.

Lemma read_dec x rest : is_uint 64 x -> starts_digit rest = false -> read_digits 0 (dec x ++ rest) = (x, rest).
Proof.
  intros Hx Hr. unfold dec. destruct (read_digits_app 20 0 x rest) as [k ->]; [|done|f_equal; lia].
  unfold is_uint in Hx. assert (2 ^ 64 <= 10 ^ Z.of_nat 20) by (vm_compute; discriminate). lia.
Qed.

Lemma digit_plain c : is_digit c = true -> is_space c = false /\ (c =? 45) = false /\ (c =? 43) = false.
Proof. unfold is_digit, is_space. lia. Qed.

Lemma sign_dec x rest : 0 <= x -> sign (dec x ++ rest) = (false, dec x ++ rest) /\ starts_digit (dec x ++ rest) = true.
Proof.
  intros Hx. destruct (dec_head x Hx) as (c & l & -> & Hc). destruct (digit_plain c Hc) as (H1 & H2 & H3).
  unfold sign. cbn [app skip_spaces starts_digit]. by rewrite H1, H2, H3.
Qed.

Lemma not_over x : is_uint 64 x -> (uint64_max <? x) = false.
Proof. unfold is_uint, uint64_max. lia. Qed.

(** A number is read back, whatever follows it but a digit. *)
Lemma strtoull_dec x rest : is_uint 64 x -> starts_digit rest = false -> strtoull (dec x ++ rest) = (x, rest).
Proof.
  intros Hx Hr. destruct (sign_dec x rest) as [E1 E2]; [apply Hx|]. unfold strtoull. by rewrite E1, E2, read_dec, not_over.
Qed.

Lemma stoull_dec x rest : is_uint 64 x -> starts_digit rest = false -> stoull (dec x ++ rest) = Some (x, rest).
Proof.
  intros Hx Hr. destruct (sign_dec x rest) as [E1 E2]; [apply Hx|]. unfold stoull. by rewrite E1, E2, read_dec, not_over.
Qed.

Lemma strtol_dec x rest : is_uint 32 x -> starts_digit rest = false -> strtol (dec x ++ rest) = (x, rest).
Proof.
  unfold is_uint. intros Hx Hr. destruct (sign_dec x rest) as [E1 E2]; [lia|]. unfold strtol. rewrite E1, E2, read_dec; [|unfold is_uint; lia|done].
  f_equal. unfold int64_max. lia.
Qed.
