(* ===== verification/Wire.v ===== *)
(** Messages on the wire.  The types that the serialization framework builds from integers, booleans and
    strings by pairs, pointers, arrays, vectors, sets and maps, the keys of sets and maps being integers,
    booleans, strings or pairs of keys, are the [wire] types, and the codec of each is lawful.  serialize()
    writes any value, deserialize() refuses a string or container of more than a million elements
    ([wire_fits]).  Then the packets
    (src/protocol/packet.h, src/protocol/packet.cc), and the lock records of the metadata file
    (src/protocol/lock_info.h, src/master/locks.cc). *)
From S2P Require Import Prelude Serialization LockRanges FileLocks.

(** ** All wire types *)

(** Keys of sets and maps: the types with an order of their own. *)
Inductive wkey :=
  | KBool | KUint8 | KUint16 | KUint32 | KUint64 | KInt8 | KInt16 | KInt32 | KInt64 | KString
  | KPair (a b : wkey).

Inductive wire :=
  | WBool | WUint8 | WUint16 | WUint32 | WUint64 | WInt8 | WInt16 | WInt32 | WInt64 | WString
  | WPair (a b : wire)
  | WPtr (a : wire)
  | WArray (n : nat) (a : wire)
  | WVector (a : wire)
  | WSet (k : wkey)
  | WMap (k : wkey) (v : wire).

Fixpoint key_type (k : wkey) : Type :=
  match k with
  | KBool => bool
  | KString => list Z
  | KPair a b => key_type a * key_type b
  | _ => Z
  end.

Fixpoint wire_type (t : wire) : Type :=
  match t with
  | WBool => bool
  | WUint8 | WUint16 | WUint32 | WUint64 | WInt8 | WInt16 | WInt32 | WInt64 => Z
  | WString => list Z
  | WPair a b => wire_type a * wire_type b
  | WPtr a => option (wire_type a)
  | WArray _ a | WVector a => list (wire_type a)
  | WSet k => list (key_type k)
  | WMap k v => list (key_type k * wire_type v)
  end.

(** operator< of std::string: lexicographic on the bytes. *)
Fixpoint string_ltb (x y : list Z) : bool :=
  match x, y with
  | _, [] => false
  | [], _ :: _ => true
  | a :: x', b :: y' => (a <? b) || ((a =? b) && string_ltb x' y')
  end.

(** operator< of a key; that of std::pair compares the first components, then the second ones. *)
Fixpoint key_ltb (k : wkey) : key_type k -> key_type k -> bool :=
  match k with
  | KBool => fun x y => negb x && y
  | KString => string_ltb
  | KPair a b => fun x y =>
      key_ltb a x.1 y.1 || (negb (key_ltb a y.1 x.1) && key_ltb b x.2 y.2)
  | KUint8 | KUint16 | KUint32 | KUint64 | KInt8 | KInt16 | KInt32 | KInt64 => Z.ltb
  end.

Fixpoint key_codec (k : wkey) : Codec (key_type k) :=
  match k with
  | KBool => bool_codec
  | KUint8 => uint8_codec
  | KUint16 => uint16_codec
  | KUint32 => uint32_codec
  | KUint64 => uint64_codec
  | KInt8 => int8_codec
  | KInt16 => int16_codec
  | KInt32 => int32_codec
  | KInt64 => int64_codec
  | KString => string_codec
  | KPair a b => pair_codec (key_codec a) (key_codec b)
  end.

Fixpoint wire_codec (t : wire) : Codec (wire_type t) :=
  match t with
  | WBool => bool_codec
  | WUint8 => uint8_codec
  | WUint16 => uint16_codec
  | WUint32 => uint32_codec
  | WUint64 => uint64_codec
  | WInt8 => int8_codec
  | WInt16 => int16_codec
  | WInt32 => int32_codec
  | WInt64 => int64_codec
  | WString => string_codec
  | WPair a b => pair_codec (wire_codec a) (wire_codec b)
  | WPtr a => option_codec (wire_codec a)
  | WArray n a => array_codec n (wire_codec a)
  | WVector a => vector_codec (wire_codec a)
  | WSet k => set_codec (key_ltb k) (key_codec k)
  | WMap k v => map_codec (key_ltb k) (key_codec k) (wire_codec v)
  end.

(** What a reader can yield: integers in range, strings and containers of at most a million
    elements, sets and maps sorted by their keys. *)
Fixpoint key_ok (k : wkey) : key_type k -> Prop :=
  match k with
  | KBool => fun _ => True
  | KUint8 => is_uint 8
  | KUint16 => is_uint 16
  | KUint32 => is_uint 32
  | KUint64 => is_uint 64
  | KInt8 => is_sint 8
  | KInt16 => is_sint 16
  | KInt32 => is_sint 32
  | KInt64 => is_sint 64
  | KString => string_ok
  | KPair a b => fun p => key_ok a p.1 /\ key_ok b p.2
  end.

Fixpoint wire_ok (t : wire) : wire_type t -> Prop :=
  match t with
  | WBool => fun _ => True
  | WUint8 => is_uint 8
  | WUint16 => is_uint 16
  | WUint32 => is_uint 32
  | WUint64 => is_uint 64
  | WInt8 => is_sint 8
  | WInt16 => is_sint 16
  | WInt32 => is_sint 32
  | WInt64 => is_sint 64
  | WString => string_ok
  | WPair a b => fun p => wire_ok a p.1 /\ wire_ok b p.2
  | WPtr a => from_option (wire_ok a) True
  | WArray n a => fun xs => length xs = n /\ Forall (wire_ok a) xs
  | WVector a => fun xs => max_elements xs /\ Forall (wire_ok a) xs /\ True
  | WSet k => fun xs => max_elements xs /\ Forall (key_ok k) xs /\
      StronglySorted (fun x y => key_ltb k x y = true) xs
  | WMap k v => fun xs => max_elements xs /\ Forall (fun p => key_ok k p.1 /\ wire_ok v p.2) xs /\
      StronglySorted (fun x y => key_ltb k x.1 y.1 = true) xs
  end.

(** The values a program can have: integers in range, sets and maps sorted by their keys, lengths
    that are a uint32_t.  No limit of the wire is part of this. *)
Fixpoint key_value (k : wkey) : key_type k -> Prop :=
  match k with
  | KString => string_value
  | KPair a b => fun p => key_value a p.1 /\ key_value b p.2
  | k' => key_ok k'
  end.

Fixpoint wire_value (t : wire) : wire_type t -> Prop :=
  match t with
  | WString => string_value
  | WPair a b => fun p => wire_value a p.1 /\ wire_value b p.2
  | WPtr a => from_option (wire_value a) True
  | WArray n a => fun xs => length xs = n /\ Forall (wire_value a) xs
  | WVector a => fun xs => is_uint 32 (Z.of_nat (length xs)) /\ Forall (wire_value a) xs /\ True
  | WSet k => fun xs => is_uint 32 (Z.of_nat (length xs)) /\ Forall (key_value k) xs /\
      StronglySorted (fun x y => key_ltb k x y = true) xs
  | WMap k v => fun xs => is_uint 32 (Z.of_nat (length xs)) /\
      Forall (fun p => key_value k p.1 /\ wire_value v p.2) xs /\
      StronglySorted (fun x y => key_ltb k x.1 y.1 = true) xs
  | t' => wire_ok t'
  end.

(** Whether no string and no container of the value is over kMaxDeserializedElementsCount. *)
Fixpoint key_fits (k : wkey) : key_type k -> bool :=
  match k with
  | KString => string_fits
  | KPair a b => fun p => key_fits a p.1 && key_fits b p.2
  | _ => fun _ => true
  end.

Fixpoint wire_fits (t : wire) : wire_type t -> bool :=
  match t with
  | WString => string_fits
  | WPair a b => fun p => wire_fits a p.1 && wire_fits b p.2
  | WPtr a => from_option (wire_fits a) true
  | WArray _ a => forallb (wire_fits a)
  | WVector a => elements_fit (wire_fits a)
  | WSet k => elements_fit (key_fits k)
  | WMap k v => elements_fit (fun p => key_fits k p.1 && wire_fits v p.2)
  | _ => fun _ => true
  end.

Lemma string_ltb_trans x y z : string_ltb x y = true -> string_ltb y z = true -> string_ltb x z = true.
Proof.
  revert y z. induction x as [|a x IH]; intros [|b y] [|c z]; simpl; try done.
  rewrite !orb_true_iff, !andb_true_iff, !Z.ltb_lt, !Z.eqb_eq.
  intros [?|[-> ?]] [?|[-> ?]]; [left; lia|left; lia|left; lia|right; split; [done|by eapply IH]].
Qed.

Lemma string_ltb_total x y : string_ltb x y = false -> string_ltb y x = false -> x = y.
Proof.
  revert y. induction x as [|a x IH]; intros [|b y]; simpl; try done.
  rewrite !orb_false_iff, !andb_false_iff, !Z.ltb_ge, !Z.eqb_neq.
  intros [? [?|Hx]] [? [?|Hy]]; [lia|lia|lia|]. f_equal; [lia|auto].
Qed.

Lemma key_ltb_total k x y : key_ltb k x y = false -> key_ltb k y x = false -> x = y.
Proof.
  induction k as [| | | | | | | | | |a IHa b IHb]; simpl in *; try (rewrite !Z.ltb_ge; lia).
  - by destruct x, y.
  - apply string_ltb_total.
  - destruct x as [x1 x2], y as [y1 y2]. simpl. rewrite !orb_false_iff.
    intros [Hxy Hx2] [Hyx Hy2]. rewrite Hxy in Hy2. rewrite Hyx in Hx2.
    f_equal; [by apply IHa|by apply IHb].
Qed.

Lemma key_ltb_trans k x y z : key_ltb k x y = true -> key_ltb k y z = true -> key_ltb k x z = true.
Proof.
  induction k as [| | | | | | | | | |a IHa b IHb]; simpl in *; try (rewrite !Z.ltb_lt; lia).
  - by destruct x, y, z.
  - apply string_ltb_trans.
  - destruct x as [x1 x2], y as [y1 y2], z as [z1 z2]. simpl.
    rewrite !orb_true_iff, !andb_true_iff, !negb_true_iff.
    intros [Hxy|[Hyx Hxy]] [Hyz|[Hzy Hyz]].
    + left. by eapply IHa.
    + left. destruct (key_ltb a y1 z1) eqn:E; [by eapply IHa|].
      by rewrite <- (key_ltb_total a y1 z1 E Hzy).
    + left. destruct (key_ltb a x1 y1) eqn:E; [by eapply IHa|].
      by rewrite (key_ltb_total a x1 y1 E Hyx).
    + destruct (key_ltb a x1 z1) eqn:E; [by left|]. right. split; [|by eapply IHb].
      destruct (key_ltb a z1 x1) eqn:E'; [|done].
      destruct (key_ltb a x1 y1) eqn:E''.
      * by rewrite (IHa _ _ _ E' E'') in Hzy.
      * by rewrite <- (key_ltb_total a x1 y1 E'' Hyx), E' in Hzy.
Qed.

#[export] Instance key_lawful k : Lawful (key_codec k) (key_ok k).
Proof. induction k; simpl; apply _. Qed.

#[export] Instance wire_lawful t : Lawful (wire_codec t) (wire_ok t).
Proof.
  induction t as [| | | | | | | | | |a IHa b IHb|a IHa|n a IHa|a IHa|k|k v IHv]; simpl; try apply _.
  - apply set_lawful; [apply key_ltb_trans|apply _].
  - apply map_lawful; [apply key_ltb_trans|apply _|done].
Qed.

#[export] Instance key_exact k : Exact (key_codec k) (key_value k) (key_fits k).
Proof. induction k; simpl; try apply _; (eapply lawful_exact; apply _). Qed.

#[export] Instance wire_exact t : Exact (wire_codec t) (wire_value t) (wire_fits t).
Proof.
  induction t as [| | | | | | | | | |a IHa b IHb|a IHa|n a IHa|a IHa|k|k v IHv]; simpl;
    try apply _; try (eapply lawful_exact; apply _).
  - by apply (container_exact _ (wire_value a)).
  - refine (container_exact _ (key_value k) _ _ _ _). intros xs. apply (set_build_sorted _ []).
  - refine (container_exact _ (fun p => key_value k p.1 /\ wire_value v p.2) _ _ _ _).
    intros xs. apply (set_build_sorted _ []).
Qed.

(** C8: Every message survives the wire, or is refused.  For every [wire] type and every
    value of it that takes at most 32 MiB, serialize() fills a buffer of exactly the size it
    computed in advance, with bytes; deserialize() of that buffer gives the value back and uses all
    of it when no string (with its final zero) and no container of the value has more than a
    million elements, and throws when one has.  Sets and maps may have booleans, integers,
    strings and pairs of those as keys. *)
Theorem wire_roundtrip (t : wire) (a : wire_type t) :
  wire_value t a -> size_of (serialize (wire_codec t) a) <= kMaxDeserializedBytesCount ->
  exists buffer, serialize_buffer (wire_codec t) a = Some buffer /\ bytes buffer /\
    deserialize_buffer (wire_codec t) buffer (size_of buffer) =
      if wire_fits t a then Ok (a, 0) else Throw.
Proof.
  intros Ha Hs. exists (serialize (wire_codec t) a). split_and!.
  - unfold serialize_buffer. rewrite (exact_size a Ha). unfold kMaxDeserializedBytesCount in Hs.
    pose proof (size_of_nonneg (serialize (wire_codec t) a)).
    rewrite u32_id by lia.
    unfold size_of. by rewrite Z.eqb_refl.
  - by eapply exact_bytes.
  - unfold deserialize_buffer. rewrite (proj2 (Z.ltb_ge _ _)) by done.
    pose proof (exact_get (c := wire_codec t) a Ha [] _ (Z.le_refl _)) as H.
    rewrite app_nil_r in H. rewrite H. destruct (wire_fits t a); [|done]. do 2 f_equal. lia.
Qed.

(** C9: Reading a message never leaves the buffer.  Whatever the bytes are, a message that is told
    no more bytes than the buffer has is read inside the buffer or rejected; what is read is a
    value of its type, with every integer in range and every container within the limit. *)
Theorem wire_safe (t : wire) (buffer : list Z) (size : Z) :
  bytes buffer -> 0 <= size <= size_of buffer ->
  match deserialize_buffer (wire_codec t) buffer size with
  | Ok (a, unused) => wire_ok t a /\ 0 <= unused <= size
  | Throw => True
  | Overrun => False
  end.
Proof.
  intros Hb Hs. pose proof (deserialize_buffer_within (wire_codec t) _ buffer size Hs) as Hw.
  unfold deserialize_buffer in *. destruct (_ <? _); [done|].
  destruct (deserialize (wire_codec t) (buffer, size)) as [[a [src room]]| |] eqn:E; [|done|done].
  split; [|done]. by destruct (lawful_yields (c := wire_codec t) (P := wire_ok t) _ _ _ _ Hb E).
Qed.

(** ** Packets *)

Record PacketHeader := MkHeader { header_type : Z; header_length : Z }.

Definition header_codec : Codec PacketHeader :=
  class_codec (fun h => (header_type h, header_length h)) (fun p => MkHeader p.1 p.2)
    (pair_codec uint32_codec uint32_codec).

Definition kMaxOldPacketType : Z := 1000.
Definition kMinSauPacketType : Z := 1001.
Definition kMaxSauPacketType : Z := 2000.

Definition isSauPacketType (h : PacketHeader) : bool :=
  (kMinSauPacketType <=? header_type h) && (header_type h <=? kMaxSauPacketType).
Definition isOldPacketType (h : PacketHeader) : bool := header_type h <=? kMaxOldPacketType.

Section packets.
Context {A : Type} (c : Codec A).

Abbreviation versioned := (pair_codec uint32_codec c).

(** serializePacketPrefix(); serializePacket() and buildPacket() are the case without extra
    length.  [None] is a failed assertion. *)
Definition serializePacketPrefix (extraLength type version : Z) (data : A) : option (list Z) :=
  if (kMinSauPacketType <=? type) && (type <=? kMaxSauPacketType) then
    let len := u32 (serializedSize versioned (version, data) + extraLength) in
    serialize_buffer (pair_codec header_codec versioned) (MkHeader type len, (version, data))
  else None.

Definition serializePacket : Z -> Z -> A -> option (list Z) := serializePacketPrefix 0.

(** serializeLegacyPacketPrefix() and serializeLegacyPacket(): without a version. *)
Definition serializeLegacyPacketPrefix (extraLength type : Z) (data : A) : option (list Z) :=
  if type <=? kMaxOldPacketType then
    let len := u32 (serializedSize c data + extraLength) in
    serialize_buffer (pair_codec header_codec c) (MkHeader type len, data)
  else None.

Definition serializeLegacyPacket : Z -> A -> option (list Z) := serializeLegacyPacketPrefix 0.

Definition deserializePacketHeader (source : list Z) (bytesInBuffer : Z) : result PacketHeader :=
  match deserialize_buffer header_codec source bytesInBuffer with
  | Ok (h, _) => Ok h | Throw => Throw | Overrun => Overrun
  end.

Definition deserializePacketVersionNoHeader (source : list Z) (bytesInBuffer : Z) : result Z :=
  match deserialize_buffer uint32_codec source bytesInBuffer with
  | Ok (v, _) => Ok v | Throw => Throw | Overrun => Overrun
  end.

(** deserializeAndIgnore() of the version, then the data; the bytes not used. *)
Definition packet_data (source : list Z) (bytesInBuffer : Z) : result (A * Z) :=
  match deserialize uint32_codec (source, bytesInBuffer) with
  | Ok (_, (src, room)) => deserialize_buffer c src room
  | Throw => Throw
  | Overrun => Overrun
  end.

Definition deserializePacketDataNoHeader (source : list Z) (bytesInBuffer : Z) : result A :=
  match packet_data source bytesInBuffer with
  | Ok (a, _) => Ok a | Throw => Throw | Overrun => Overrun
  end.

Definition deserializeAllPacketDataNoHeader (source : list Z) (bytesInBuffer : Z) : result A :=
  match packet_data source bytesInBuffer with
  | Ok (a, bytesNotUsed) => if 0 <? bytesNotUsed then Throw else Ok a
  | Throw => Throw
  | Overrun => Overrun
  end.

Definition deserializePacketDataSkipHeader (source : list Z) (bytesInBuffer : Z) : result A :=
  match deserialize header_codec (source, bytesInBuffer) with
  | Ok (_, (src, room)) => deserializePacketDataNoHeader src room
  | Throw => Throw
  | Overrun => Overrun
  end.

Definition deserializeAllLegacyPacketDataNoHeader (source : list Z) (bytesInBuffer : Z) : result A :=
  match deserialize_buffer c source bytesInBuffer with
  | Ok (a, bytesNotUsed) => if 0 <? bytesNotUsed then Throw else Ok a
  | Throw => Throw
  | Overrun => Overrun
  end.

Definition verifyPacketVersionNoHeader (source : list Z) (bytesInBuffer expectedVersion : Z)
  : result unit :=
  match deserializePacketVersionNoHeader source bytesInBuffer with
  | Ok actual => if actual =? expectedVersion then Ok tt else Throw
  | Throw => Throw
  | Overrun => Overrun
  end.
End packets.

(** receivePacket(): the header and the data of one packet, read from the bytes a connection
    delivers before it ends or times out. *)
Inductive received :=
  | Received (h : PacketHeader) (data rest : list Z)
  | ConnectionFailed      (* Exception, connection closed *)
  | TooBig                (* Exception *)
  | BadAllocation.        (* resize() to a size no vector can have *)

Definition receivePacket (stream : list Z) : received :=
  if (length stream <? 8)%nat then ConnectionFailed
  else
    match deserializePacketHeader (take 8 stream) 8 with
    | Ok h =>
      let payloadSize := to_signed 32 (header_length h) in
      if kMaxDeserializedBytesCount <? payloadSize then TooBig
      else if payloadSize <? 0 then BadAllocation
      else
        let rest := drop 8 stream in
        if (length rest <? Z.to_nat payloadSize)%nat then ConnectionFailed
        else Received h (take (Z.to_nat payloadSize) rest) (drop (Z.to_nat payloadSize) rest)
    | _ => ConnectionFailed
    end.

#[export] Instance header_lawful :
  Lawful header_codec (fun h => is_uint 32 (header_type h) /\ is_uint 32 (header_length h)).
Proof.
  refine (class_lawful (fun h => (header_type h, header_length h)) (fun p => MkHeader p.1 p.2)
    (pair_codec uint32_codec uint32_codec) (fun p => is_uint 32 p.1 /\ is_uint 32 p.2) _ _ _).
  - by intros [].
  - by intros [].
Qed.

Lemma header_bytes h : length (serialize header_codec h) = 8%nat.
Proof. done. Qed.

(** The header at the start of a stream is read from its first eight bytes. *)
Lemma read_header h rest :
  is_uint 32 (header_type h) -> is_uint 32 (header_length h) ->
  deserializePacketHeader (take 8 (serialize header_codec h ++ rest)) 8 = Ok h.
Proof.
  intros Ht Hl. rewrite take_app_length' by done. unfold deserializePacketHeader.
  pose proof (deserialize_buffer_ok header_codec _ h []) as H. rewrite app_nil_r in H.
  change (size_of (serialize header_codec h)) with 8 in H. by rewrite H.
Qed.

(** What receivePacket() does with a stream that starts with a header. *)
Lemma receive_header h payload rest :
  is_uint 32 (header_type h) -> is_uint 32 (header_length h) ->
  header_length h <= kMaxDeserializedBytesCount -> size_of payload = header_length h ->
  receivePacket (serialize header_codec h ++ payload ++ rest) = Received h payload rest.
Proof.
  intros Ht Hl Hmax Hsize. unfold receivePacket. rewrite length_app, header_bytes.
  destruct (Nat.ltb_spec (8 + length (payload ++ rest)) 8); [lia|].
  rewrite read_header by done.
  assert (to_signed 32 (header_length h) = header_length h) as ->.
  { unfold to_signed. rewrite wrap_small by done. unfold kMaxDeserializedBytesCount in Hmax.
    destruct (Z.ltb_spec (header_length h) (2 ^ (32 - 1))); [done|].
    change (2 ^ (32 - 1)) with 2147483648 in *. lia. }
  destruct (Z.ltb_spec kMaxDeserializedBytesCount (header_length h)); [lia|].
  destruct (Z.ltb_spec (header_length h) 0); [destruct Hl; lia|].
  rewrite drop_app_length' by done. unfold size_of in Hsize.
  assert (Z.to_nat (header_length h) = length payload) as -> by lia.
  rewrite length_app. destruct (Nat.ltb_spec (length payload + length rest) (length payload)); [lia|].
  by rewrite take_app_length, drop_app_length.
Qed.

Section packet_theorems.
Context {A : Type} (c : Codec A) (P : A -> Prop) `{HL : !Lawful c P}.

Abbreviation payload version data := (serialize (pair_codec uint32_codec c) (version, data)).

Lemma payload_app version data : payload version data = put32bit version ++ serialize c data.
Proof. done. Qed.

(** serializePacket() writes the header with the length of the payload, then the payload. *)
Lemma serializePacket_ok type version data :
  kMinSauPacketType <= type <= kMaxSauPacketType -> is_uint 32 version -> P data ->
  size_of (payload version data) <= kMaxDeserializedBytesCount ->
  let h := MkHeader type (size_of (payload version data)) in
  serializePacket c type version data = Some (serialize header_codec h ++ payload version data) /\
  is_uint 32 (header_type h) /\ is_uint 32 (header_length h).
Proof.
  intros Ht Hv Hd Hs. unfold serializePacket, serializePacketPrefix.
  destruct (Z.leb_spec kMinSauPacketType type); [|lia].
  destruct (Z.leb_spec type kMaxSauPacketType); [|lia]. cbn [andb].
  rewrite (lawful_size (c := pair_codec uint32_codec c) (version, data)) by done.
  set (n := size_of (payload version data)) in *.
  unfold kMinSauPacketType, kMaxSauPacketType, kMaxDeserializedBytesCount in *.
  assert (0 <= n) as Hn by apply size_of_nonneg.
  assert (is_uint 32 type) as Hut by (unfold is_uint; lia).
  assert (is_uint 32 n) as Hun by (unfold is_uint; lia).
  assert (u32 (u32 n + 0) = n) as ->.
  { unfold u32. rewrite (wrap_small 32 n) by done. rewrite Z.add_0_r. by apply wrap_small. }
  cbn zeta. split; [|done]. eapply serialize_buffer_ok; [apply _|done|].
  change (size_of (serialize header_codec (MkHeader type n) ++ payload version data) < 2 ^ 32).
  rewrite size_of_app. fold n.
  change (size_of (serialize header_codec _)) with 8. 
  change (8 + size_of (payload version data) < 2 ^ 32). fold n. lia.
Qed.

(** The version and the data of a payload, with [extra] bytes after it. *)
Lemma read_payload version data extra :
  is_uint 32 version -> P data ->
  size_of (payload version data ++ extra) <= kMaxDeserializedBytesCount ->
  deserializePacketVersionNoHeader (payload version data ++ extra)
    (size_of (payload version data ++ extra)) = Ok version /\
  packet_data c (payload version data ++ extra) (size_of (payload version data ++ extra)) =
    Ok (data, size_of extra).
Proof.
  intros Hv Hd Hs. rewrite payload_app, <- app_assoc in *. split.
  - unfold deserializePacketVersionNoHeader.
    by rewrite (deserialize_buffer_ok uint32_codec _ version).
  - unfold packet_data. set (x := serialize c data ++ extra) in *.
    pose proof (lawful_get (c := uint32_codec) version Hv x (size_of (put32bit version ++ x))) as Hg.
    change (serialize uint32_codec version) with (put32bit version) in Hg.
    rewrite size_of_app in *. pose proof (size_of_nonneg x). change (size_of (put32bit version)) with 4 in *.
    rewrite Hg by lia. replace (4 + size_of x - 4) with (size_of x) by lia.
    unfold x. apply (deserialize_buffer_ok c P); [done|]. fold x. lia.
Qed.
End packet_theorems.

(** A packet arrives as it was sent.  Serializing a packet of a valid type, sending it down a
    connection and receiving it gives a header with the type and the length of the payload, the
    payload, and the bytes that follow on the connection; the payload passes the check of its
    version and no other, and gives the data back. *)
Theorem packet_roundtrip t type version (data : wire_type t) rest :
  kMinSauPacketType <= type <= kMaxSauPacketType -> is_uint 32 version -> wire_ok t data ->
  size_of (serialize (wire_codec t) data) + 4 <= kMaxDeserializedBytesCount ->
  exists packet payload, serializePacket (wire_codec t) type version data = Some packet /\
    receivePacket (packet ++ rest) = Received (MkHeader type (size_of payload)) payload rest /\
    (forall v, verifyPacketVersionNoHeader payload (size_of payload) v =
      if version =? v then Ok tt else Throw) /\
    deserializeAllPacketDataNoHeader (wire_codec t) payload (size_of payload) = Ok data.
Proof.
  intros Ht Hv Hd Hs. set (p := serialize (pair_codec uint32_codec (wire_codec t)) (version, data)).
  assert (size_of p <= kMaxDeserializedBytesCount) as Hp.
  { unfold p. rewrite payload_app, size_of_app. change (size_of (put32bit version)) with 4. lia. }
  destruct (serializePacket_ok (wire_codec t) (wire_ok t) type version data)
    as (He & Hut & Hul); [done..|]. fold p in He, Hut, Hul.
  eexists _, p. split; [exact He|]. split.
  { rewrite <- app_assoc. by apply receive_header. }
  destruct (read_payload (wire_codec t) (wire_ok t) version data []) as [H1 H2];
    [done|done|by rewrite app_nil_r|]. rewrite app_nil_r in H1, H2. fold p in H1, H2. split.
  - intros v. unfold verifyPacketVersionNoHeader. by rewrite H1.
  - unfold deserializeAllPacketDataNoHeader. by rewrite H2.
Qed.

(** Trailing bytes are rejected.  A payload followed by at least one more byte is refused by the
    functions that want all of the buffer, and read by those that want a prefix of it. *)
Theorem trailing_bytes_rejected t version (data : wire_type t) extra :
  is_uint 32 version -> wire_ok t data -> extra <> [] ->
  size_of (serialize (wire_codec t) data) + 4 + size_of extra <= kMaxDeserializedBytesCount ->
  let payload := serialize (pair_codec uint32_codec (wire_codec t)) (version, data) ++ extra in
  deserializeAllPacketDataNoHeader (wire_codec t) payload (size_of payload) = Throw /\
  deserializePacketDataNoHeader (wire_codec t) payload (size_of payload) = Ok data.
Proof.
  intros Hv Hd Hx Hs. cbn zeta.
  destruct (read_payload (wire_codec t) (wire_ok t) version data extra) as [_ H]; [done|done| |].
  { rewrite payload_app, !size_of_app. change (size_of (put32bit version)) with 4. lia. }
  unfold deserializeAllPacketDataNoHeader, deserializePacketDataNoHeader. rewrite H.
  split; [|done]. destruct (Z.ltb_spec 0 (size_of extra)); [done|].
  destruct extra; [done|]. unfold size_of in *. simpl in *. lia.
Qed.

(** The limit on the size of a packet has a hole.  A header whose length is over the limit but
    below 2^31 is refused as too big; a length from 2^31 on is negative as an int32_t, passes the
    check, and is used to resize the buffer. *)
Theorem receive_limit h rest :
  is_uint 32 (header_type h) -> is_uint 32 (header_length h) ->
  kMaxDeserializedBytesCount < header_length h ->
  receivePacket (serialize header_codec h ++ rest) =
    if header_length h <? 2 ^ 31 then TooBig else BadAllocation.
Proof.
  intros Ht Hl Hmax. unfold receivePacket. rewrite length_app, header_bytes.
  destruct (Nat.ltb_spec (8 + length rest) 8); [lia|]. rewrite read_header by done.
  unfold to_signed. rewrite wrap_small by done. change (2 ^ (32 - 1)) with (2 ^ 31).
  destruct Hl as [Hl0 Hl]. destruct (Z.ltb_spec (header_length h) (2 ^ 31)).
  - destruct (Z.ltb_spec kMaxDeserializedBytesCount (header_length h)); [done|lia].
  - unfold kMaxDeserializedBytesCount in *.
    destruct (Z.ltb_spec 33554432 (header_length h - 2 ^ 32)); [lia|].
    destruct (Z.ltb_spec (header_length h - 2 ^ 32) 0); [done|lia].
Qed.

(** ** The lock section of the metadata file *)

Definition info_codec : Codec Info :=
  class_codec
    (fun i => (info_version i, (info_inode i, (info_owner i, (info_sessionid i,
              (info_type i, (info_start i, info_end i)))))))
    (fun '(v, (i, (o, (s, (t, (b, e)))))) => MkInfo v i o s t b e)
    (pair_codec uint32_codec (pair_codec uint32_codec (pair_codec uint64_codec
      (pair_codec uint32_codec (pair_codec uint16_codec (pair_codec uint64_codec uint64_codec)))))).

(** store(): the number of records, then each record. *)
Definition store_section (infos : list Info) : list Z :=
  serialize uint64_codec (u64 (Z.of_nat (length infos))) ++ concat (serialize info_codec <$> infos).

Definition store_file (active pending : list (Z * list LockRange)) : list Z :=
  store_section (store_entries active) ++ store_section (store_entries pending).

(** load(): the records of one section, and the rest of the file. *)
Fixpoint load_records (n : nat) (file : list Z) : result (list Info * list Z) :=
  match n with
  | O => Ok ([], file)
  | S n' =>
    match deserialize info_codec (file, 38) with
    | Ok (i, (rest, _)) =>
      match load_records n' rest with
      | Ok (is_, rest') => Ok (i :: is_, rest')
      | Throw => Throw
      | Overrun => Overrun
      end
    | Throw => Throw
    | Overrun => Overrun
    end
  end.

Definition load_section (file : list Z) : result (list Info * list Z) :=
  match deserialize uint64_codec (file, 8) with
  | Ok (count, (rest, _)) => load_records (Z.to_nat count) rest
  | Throw => Throw
  | Overrun => Overrun
  end.

Definition load_file (file : list Z) (fl : FileLocks) : option FileLocks :=
  match load_section file with
  | Ok (active, rest) =>
    match load_section rest with
    | Ok (pending, _) => load active pending fl
    | _ => None
    end
  | _ => None
  end.

Definition info_ok (i : Info) : Prop :=
  is_uint 32 (info_version i) /\ is_uint 32 (info_inode i) /\ is_uint 64 (info_owner i) /\
  is_uint 32 (info_sessionid i) /\ is_uint 16 (info_type i) /\ is_uint 64 (info_start i) /\
  is_uint 64 (info_end i).

#[export] Instance info_lawful : Lawful info_codec info_ok.
Proof.
  refine (class_lawful
    (fun i => (info_version i, (info_inode i, (info_owner i, (info_sessionid i,
              (info_type i, (info_start i, info_end i)))))))
    (fun '(v, (i, (o, (s, (t, (b, e)))))) => MkInfo v i o s t b e) _
    (fun p => is_uint 32 p.1 /\ is_uint 32 p.2.1 /\ is_uint 64 p.2.2.1 /\ is_uint 32 p.2.2.2.1 /\
      is_uint 16 p.2.2.2.2.1 /\ is_uint 64 p.2.2.2.2.2.1 /\ is_uint 64 p.2.2.2.2.2.2) _ _ _).
  - do 6 (refine (pair_lawful _ _ _ _ _ _)).
  - by intros [].
  - by intros (? & ? & ? & ? & ? & ? & ?).
Qed.

Lemma load_records_ok infos rest :
  Forall info_ok infos ->
  load_records (length infos) (concat (serialize info_codec <$> infos) ++ rest) = Ok (infos, rest).
Proof.
  induction 1 as [|i infos Hi HF IH]; [done|]. cbn [load_records length fmap list_fmap concat].
  rewrite <- app_assoc, (lawful_get (c := info_codec) i Hi) by done. by rewrite IH.
Qed.

Lemma load_section_ok infos rest :
  Forall info_ok infos -> Z.of_nat (length infos) < 2 ^ 64 ->
  load_section (store_section infos ++ rest) = Ok (infos, rest).
Proof.
  intros HF Hl. unfold load_section, store_section. rewrite <- app_assoc.
  unfold u64. rewrite wrap_small by (split; [lia|done]).
  rewrite (lawful_get (c := uint64_codec)) by (done || (split; [lia|done])).
  rewrite Nat2Z.id. by apply load_records_ok.
Qed.

(** Locks whose numbers fit the fields of a record. *)
Definition lock_in_range (r : LockRange) : Prop :=
  is_uint 64 (start r) /\ is_uint 64 (end_ r) /\
  Forall (fun o => is_uint 64 (owner o) /\ is_uint 32 (sessionid o)) (owners r).

Definition entries_in_range (entries : list (Z * list LockRange)) : Prop :=
  Forall (fun e => is_uint 32 e.1 /\ Forall lock_in_range e.2) entries /\
  Z.of_nat (length (store_entries entries)) < 2 ^ 64.

Lemma store_entries_ok entries : entries_in_range entries -> Forall info_ok (store_entries entries).
Proof.
  intros [HF _]. apply Forall_forall. unfold store_entries. intros i (l & Hl & Hi)%elem_of_concat.
  apply list_elem_of_fmap in Hl as ([k locks] & -> & He). rewrite Forall_forall in HF.
  destruct (HF _ He) as [Hk HFl]. simpl in *.
  apply elem_of_concat in Hi as (is_ & His & Hi). apply list_elem_of_fmap in His as (r & -> & Hr).
  apply list_elem_of_fmap in Hi as (o & -> & Ho). rewrite Forall_forall in HFl.
  destruct (HFl r Hr) as (Hs & He' & HFo). rewrite Forall_forall in HFo. destruct (HFo o Ho).
  split_and!; simpl; try done. by apply wrap_range.
Qed.

(** C33: The lock section of the metadata file survives a restart.  Whatever the iteration order of
    the hash maps, the bytes that store() writes for the active and the waiting locks are read back
    by load() without an error, and give tables in which every byte of every file has the holders
    it had, and queues with the same requests in the same order, without the ids of the clients'
    requests, which are not saved. *)
Theorem locks_file_roundtrip fl ea ep :
  wf_locks fl -> wf_keys fl ->
  ea ≡ₚ map_to_list (active_locks fl) -> ep ≡ₚ map_to_list (pending_locks fl) ->
  entries_in_range ea -> entries_in_range ep ->
  exists fl', load_file (store_file ea ep) empty_locks = Some fl' /\
    (forall i, wf_table (table fl' i)) /\
    (forall i x, holders (table fl' i) x = holders (table fl i) x) /\
    (forall i, waiting fl' i = forget_request <$> waiting fl i).
Proof.
  intros Hwf Hk Ha Hp Ra Rp. unfold load_file, store_file.
  rewrite load_section_ok by (try apply store_entries_ok; apply Ra || done).
  rewrite <- (app_nil_r (store_section (store_entries ep))).
  rewrite load_section_ok by (try apply store_entries_ok; apply Rp || done).
  by apply store_load.
Qed.

(** ** Witnesses *)

(** A message with a list of named numbers and an optional flag. *)
Definition ex_wire : wire := WPair (WVector (WPair WUint32 WString)) (WPtr WBool).
Definition ex_value : wire_type ex_wire := ([(7, [97; 98]); (4294967295, [])], Some true).

Lemma ex_value_ok : wire_ok ex_wire ex_value.
Proof.
  assert (forall n s, is_uint 32 n -> string_ok s -> wire_ok (WPair WUint32 WString) (n, s)) as H by done.
  split; [|done]. split; [vm_compute; discriminate|]. split; [|done].
  repeat constructor; simpl; try lia; vm_compute; discriminate.
Qed.

Lemma ex_value_value : wire_value ex_wire ex_value.
Proof.
  assert (forall n s, is_uint 32 n -> string_value s -> wire_value (WPair WUint32 WString) (n, s)) as H by done.
  split; [|done]. split; [vm_compute; split; [discriminate|reflexivity]|]. split; [|done].
  repeat constructor; simpl; try lia; vm_compute; discriminate.
Qed.

Lemma wire_roundtrip_witness :
  exists buffer, serialize_buffer (wire_codec ex_wire) ex_value = Some buffer /\ bytes buffer /\
    deserialize_buffer (wire_codec ex_wire) buffer (size_of buffer) =
      if wire_fits ex_wire ex_value then Ok (ex_value, 0) else Throw.
Proof.
  apply (wire_roundtrip ex_wire ex_value).
  - apply ex_value_value.
  - vm_compute. discriminate.
Defined.

Lemma wire_safe_witness :
  match deserialize_buffer (wire_codec WString) [0; 0; 0; 200; 1] 5 with
  | Ok (a, unused) => wire_ok WString a /\ 0 <= unused <= 5
  | Throw => True
  | Overrun => False
  end.
Proof.
  apply (wire_safe WString [0; 0; 0; 200; 1] 5).
  - repeat constructor; simpl; lia.
  - vm_compute. split; discriminate.
Defined.

Lemma packet_roundtrip_witness :
  exists packet payload, serializePacket (wire_codec ex_wire) 1500 3 ex_value = Some packet /\
    receivePacket (packet ++ [1; 2]) = Received (MkHeader 1500 (size_of payload)) payload [1; 2] /\
    deserializeAllPacketDataNoHeader (wire_codec ex_wire) payload (size_of payload) = Ok ex_value.
Proof.
  destruct (packet_roundtrip ex_wire 1500 3 ex_value [1; 2]) as (packet & payload & H1 & H2 & _ & H4).
  - vm_compute. split; discriminate.
  - vm_compute. split; [discriminate|reflexivity].
  - apply ex_value_ok.
  - vm_compute. discriminate.
  - exists packet, payload. split; [exact H1|]. split; [exact H2|exact H4].
Defined.

Lemma trailing_bytes_rejected_witness :
  deserializeAllPacketDataNoHeader (wire_codec WUint16) [0; 0; 0; 3; 1; 2; 9] 7 = Throw.
Proof.
  apply (trailing_bytes_rejected WUint16 3 258 [9]).
  - vm_compute. split; [discriminate|reflexivity].
  - vm_compute. split; [discriminate|reflexivity].
  - discriminate.
  - vm_compute. discriminate.
Defined.

Lemma receive_limit_witness :
  receivePacket (serialize header_codec (MkHeader 1001 4000000000) ++ []) = BadAllocation.
Proof.
  apply (receive_limit (MkHeader 1001 4000000000) []).
  - vm_compute. split; [discriminate|reflexivity].
  - vm_compute. split; [discriminate|reflexivity].
  - vm_compute. reflexivity.
Defined.

Lemma ex_entries_in_range entries :
  Forall (fun e => is_uint 32 e.1 /\ Forall lock_in_range e.2) entries ->
  (Z.of_nat (length (store_entries entries)) <? 2 ^ 64) = true -> entries_in_range entries.
Proof. intros H1 H2. split; [done|by apply Z.ltb_lt]. Qed.

Lemma locks_file_roundtrip_witness :
  exists fl', load_file (store_file [(7, ex_table)] [(7, [ex_wait])]) empty_locks = Some fl' /\
    (forall i, waiting fl' i = forget_request <$> waiting ex_locks i).
Proof.
  destruct (locks_file_roundtrip ex_locks [(7, ex_table)] [(7, [ex_wait])])
    as (fl' & H & _ & _ & Hw).
  - apply ex_locks_wf.
  - split; by apply map_Forall_singleton.
  - unfold ex_locks. cbn [active_locks pending_locks]. by rewrite map_to_list_singleton.
  - unfold ex_locks. cbn [active_locks pending_locks]. by rewrite map_to_list_singleton.
  - apply ex_entries_in_range; [|reflexivity]. repeat constructor; simpl; lia.
  - apply ex_entries_in_range; [|reflexivity]. repeat constructor; simpl; lia.
  - exists fl'. split; [exact H|exact Hw].
Defined.
