(* ===== verification/URaft.v ===== *)
(** Leader election of the metadata servers: the uRaft protocol (src/uraft/uraft.h,
    src/uraft/uraft.cc).

    A node is the record [Raft] of its state; every handler is a function to the new state and the
    effects it has (packets sent, callbacks called), or [None] when an assertion fails.  The world is
    the list of nodes and the list of packets ever sent: a packet stays in the list when it is
    delivered, so packets may be lost, reordered and duplicated.  Timers are armed flags: a timer that
    is armed may fire at any moment, one that is not cannot.  Nodes do not restart in the model (a
    restarted node has forgotten its term and vote). *)
From S2P Require Import Prelude.

(** ** State *)

Inductive RaftType := kFollower | kCandidate | kLeader.

#[export] Instance RaftType_eq_dec : EqDecision RaftType.
Proof. solve_decision. Defined.

Record Options := MkOptions {
  election_timeout_min : Z;
  heartbeat_period : Z;
  quorum : Z;
  quorum_loss_grace_heartbeats : Z;
}.

(** What a node knows of the others. *)
Record NodeInfo := MkInfo {
  ni_data_version : Z;
  ni_heartbeat : Z;
  vote_granted : bool;
  recv : bool;
}.

Record Raft := MkRaft {
  id : nat;
  type : RaftType;
  current_term : Z;
  voted_for : option nat;     (* -1 is None *)
  leader_id : option nat;
  local_time : Z;
  president : bool;
  loyalty_agreement : bool;
  data_version : Z;
  node_ : list NodeInfo;
  block_leader_promotion : bool;
  quorum_loss_streak : Z;
  elector : bool;             (* isElectorNode() *)
  election_timer : bool;      (* armed *)
}.

(** Assignments to the fields. *)
Definition set_type t s := MkRaft (id s) t (current_term s) (voted_for s) (leader_id s)
  (local_time s) (president s) (loyalty_agreement s) (data_version s) (node_ s)
  (block_leader_promotion s) (quorum_loss_streak s) (elector s) (election_timer s).
Definition set_term t s := MkRaft (id s) (type s) t (voted_for s) (leader_id s)
  (local_time s) (president s) (loyalty_agreement s) (data_version s) (node_ s)
  (block_leader_promotion s) (quorum_loss_streak s) (elector s) (election_timer s).
Definition set_voted_for v s := MkRaft (id s) (type s) (current_term s) v (leader_id s)
  (local_time s) (president s) (loyalty_agreement s) (data_version s) (node_ s)
  (block_leader_promotion s) (quorum_loss_streak s) (elector s) (election_timer s).
Definition set_leader_id l s := MkRaft (id s) (type s) (current_term s) (voted_for s) l
  (local_time s) (president s) (loyalty_agreement s) (data_version s) (node_ s)
  (block_leader_promotion s) (quorum_loss_streak s) (elector s) (election_timer s).
Definition set_local_time t s := MkRaft (id s) (type s) (current_term s) (voted_for s) (leader_id s)
  t (president s) (loyalty_agreement s) (data_version s) (node_ s)
  (block_leader_promotion s) (quorum_loss_streak s) (elector s) (election_timer s).
Definition set_president p s := MkRaft (id s) (type s) (current_term s) (voted_for s) (leader_id s)
  (local_time s) p (loyalty_agreement s) (data_version s) (node_ s)
  (block_leader_promotion s) (quorum_loss_streak s) (elector s) (election_timer s).
Definition set_loyalty l s := MkRaft (id s) (type s) (current_term s) (voted_for s) (leader_id s)
  (local_time s) (president s) l (data_version s) (node_ s)
  (block_leader_promotion s) (quorum_loss_streak s) (elector s) (election_timer s).
Definition set_data_version v s := MkRaft (id s) (type s) (current_term s) (voted_for s) (leader_id s)
  (local_time s) (president s) (loyalty_agreement s) v (node_ s)
  (block_leader_promotion s) (quorum_loss_streak s) (elector s) (election_timer s).
Definition set_node l s := MkRaft (id s) (type s) (current_term s) (voted_for s) (leader_id s)
  (local_time s) (president s) (loyalty_agreement s) (data_version s) l
  (block_leader_promotion s) (quorum_loss_streak s) (elector s) (election_timer s).
Definition set_block_promotion b s := MkRaft (id s) (type s) (current_term s) (voted_for s)
  (leader_id s) (local_time s) (president s) (loyalty_agreement s) (data_version s) (node_ s)
  b (quorum_loss_streak s) (elector s) (election_timer s).
Definition set_streak n s := MkRaft (id s) (type s) (current_term s) (voted_for s) (leader_id s)
  (local_time s) (president s) (loyalty_agreement s) (data_version s) (node_ s)
  (block_leader_promotion s) n (elector s) (election_timer s).
Definition set_timer b s := MkRaft (id s) (type s) (current_term s) (voted_for s) (leader_id s)
  (local_time s) (president s) (loyalty_agreement s) (data_version s) (node_ s)
  (block_leader_promotion s) (quorum_loss_streak s) (elector s) b.

(** ** Packets and effects *)

Inductive Rpc :=
  | AppendEntries (term : Z) (node_id : nat) (time version : Z)
  | RequestVote (term : Z) (node_id : nat) (time version : Z)
  | AEResponse (term : Z) (result : bool) (req_time version : Z)
  | RVResponse (term : Z) (result : bool) (req_time version : Z).

Definition rpc_term (r : Rpc) : Z :=
  match r with
  | AppendEntries t _ _ _ | RequestVote t _ _ _ | AEResponse t _ _ _ | RVResponse t _ _ _ => t
  end.

Inductive Effect :=
  | Send (dst : nat) (r : Rpc)
  | NodePromote
  | NodeDemote
  | NodeLeader (leader : nat).

(** ** The handlers *)

(** The effect of a handler: [None] is a failed assertion. *)
Definition outcome : Type := option (Raft * list Effect).

Definition startElectionTimer (s : Raft) : Raft := set_timer true s.
Definition cancel_election_timer (s : Raft) : Raft := set_timer false s.

(** signLoyaltyAgreement(); the timer that ends the agreement is [LoyaltyExpired]. *)
Definition signLoyaltyAgreement (s : Raft) : Raft := set_loyalty true s.

Definition voteCount (opt : Options) (count_loyal : bool) (s : Raft) : Z :=
  Z.of_nat (length (List.filter (fun node =>
    let time_from_loyalty_vote := to_signed 32 (u64 (heartbeat_period opt *
      u64 (u64 (local_time s - ni_heartbeat node) + 1))) in
    (negb count_loyal && vote_granted node) ||
    (count_loyal && (time_from_loyalty_vote <=? election_timeout_min opt))) (node_ s))).

Inductive StepDownPolicy := kRaftOnly | kDemoteIfPresident.

Definition stepDownToFollower (policy : StepDownPolicy) (newTerm : Z) (s : Raft)
  : Raft * list Effect :=
  let wasPresident := president s in
  let s := if 0 <? newTerm then set_term newTerm s else s in
  let s := set_leader_id None (set_voted_for None (set_president false (set_type kFollower s))) in
  let s := set_streak 0 s in
  let effects := match policy with
                 | kDemoteIfPresident => if wasPresident then [NodeDemote] else []
                 | kRaftOnly => []
                 end in
  (startElectionTimer s, effects).

Definition checkTerm (r : Rpc) (s : Raft) : outcome :=
  if current_term s <? rpc_term r then
    if president s && bool_decide (type s = kFollower) then None
    else Some (stepDownToFollower kDemoteIfPresident (rpc_term r) s)
  else Some (s, []).

(** sendHeartbeat(): to every node but this one. *)
Definition sendHeartbeat (s : Raft) : list Effect :=
  (fun i => Send i (AppendEntries (current_term s) (id s) (local_time s) (data_version s))) <$>
    List.filter (fun i => negb (i =? id s)%nat) (seq 0 (length (node_ s))).

(** sendRequestForVotes(): to every node whose answer is missing. *)
Definition sendRequestForVotes (s : Raft) : list Effect :=
  (fun i => Send i (RequestVote (current_term s) (id s) (local_time s) (data_version s))) <$>
    List.filter (fun i => match node_ s !! i with Some n => negb (recv n) | None => false end)
      (seq 0 (length (node_ s))).

(** electionTimeout(); [version] is what nodeGetVersion() returns. *)
Definition electionTimeout (opt : Options) (version : Z) (s : Raft) : Raft * list Effect :=
  let s := set_timer false s in
  if block_leader_promotion s then (startElectionTimer s, [])
  else
    let s := set_voted_for (Some (id s)) (set_term (u64 (current_term s + 1)) (set_type kCandidate s)) in
    let cleared := (fun n => MkInfo (ni_data_version n) (ni_heartbeat n) false false) <$> node_ s in
    let s := set_node (<[id s := MkInfo (data_version s) (local_time s) true true]> cleared) s in
    if 1 <? quorum opt then
      let s := set_data_version version s in
      (startElectionTimer s, sendRequestForVotes s)
    else (set_type kLeader s, [NodePromote]).

(** The second half of heartbeat(): what a node with (or without) a loyal quorum sends. *)
Definition heartbeat_sends (has_quorum : bool) (s : Raft) : Raft * list Effect :=
  let requests := if bool_decide (type s = kCandidate) then sendRequestForVotes s else [] in
  if bool_decide (type s = kLeader) then
    if negb (president s) && has_quorum
    then (set_president true s, requests ++ sendHeartbeat s ++ [NodePromote])
    else (s, requests ++ sendHeartbeat s)
  else (s, requests).

(** The first lines of heartbeat(): the local clock. *)
Definition tick (s : Raft) : Raft :=
  let s := set_local_time (u64 (local_time s + 1)) s in
  set_node (alter (fun n => MkInfo (ni_data_version n) (local_time s) (vote_granted n) (recv n))
              (id s) (node_ s)) s.

(** heartbeat() *)
Definition heartbeat (opt : Options) (s : Raft) : outcome :=
  let s := tick s in
  let has_quorum := bool_decide (type s = kLeader) && (quorum opt <=? voteCount opt true s) in
  if president s then
    if bool_decide (type s = kFollower) then None
    else if negb has_quorum then
      let s := set_streak (quorum_loss_streak s + 1) s in
      if quorum_loss_streak s <? quorum_loss_grace_heartbeats opt then Some (s, sendHeartbeat s)
      else Some (stepDownToFollower kDemoteIfPresident 0 s)
    else Some (heartbeat_sends has_quorum (set_streak 0 s))
  else Some (heartbeat_sends has_quorum s).

(** rpcAppend() *)
Definition rpcAppend (from : nat) (term time vers version : Z) (s : Raft) : outcome :=
  if bool_decide (type s = kLeader) then None
  else if term <? current_term s then
    Some (s, [Send from (AEResponse (current_term s) false time (data_version s))])
  else
    let s := if elector s then set_data_version (Z.max (data_version s) vers) s else s in
    let s := if negb (bool_decide (leader_id s = Some from)) && negb (elector s)
             then set_data_version version s else s in
    let res := AEResponse (current_term s) true time (data_version s) in
    let leader := if bool_decide (leader_id s = Some from) then [] else [NodeLeader from] in
    let s := signLoyaltyAgreement (set_leader_id (Some from) s) in
    Some (startElectionTimer (set_type kFollower s), leader ++ [Send from res]).

(** rpcAppendResponse() *)
Definition rpcAppendResponse (from : nat) (term req_time vers : Z) (s : Raft) : Raft :=
  if term <? current_term s then s
  else if negb (bool_decide (type s = kLeader)) then s
  else set_node (alter (fun n => MkInfo vers (Z.max (ni_heartbeat n) req_time) true true)
                   from (node_ s)) s.

(** rpcReqVote() *)
Definition rpcReqVote (from : nat) (term time vers version : Z) (s : Raft) : Raft * list Effect :=
  let s := if bool_decide (voted_for s = None) && negb (elector s)
           then set_data_version version s else s in
  let result :=
    bool_decide (type s = kFollower) && (current_term s <=? term) && (data_version s <=? vers) &&
    ((loyalty_agreement s && bool_decide (leader_id s = Some from)) ||
     (negb (loyalty_agreement s) &&
      (bool_decide (voted_for s = None) || bool_decide (voted_for s = Some from)))) in
  let res := RVResponse (current_term s) result time (data_version s) in
  (if result then startElectionTimer (set_voted_for (Some from) s) else s, [Send from res]).

(** rpcReqVoteResponse() *)
Definition rpcReqVoteResponse (opt : Options) (from : nat) (term : Z) (result : bool) (s : Raft)
  : Raft * list Effect :=
  if term <? current_term s then (s, [])
  else if negb (bool_decide (type s = kCandidate)) then (s, [])
  else
    let s := set_node (alter (fun n => MkInfo (ni_data_version n) (ni_heartbeat n) result true)
                         from (node_ s)) s in
    if quorum opt <=? voteCount opt false s then
      let s := set_leader_id (Some (id s)) (set_type kLeader s) in
      (cancel_election_timer s, sendHeartbeat s)
    else (s, []).

(** receivePacket(): the term first, then the handler of the packet's type. *)
Definition receivePacket (opt : Options) (from : nat) (r : Rpc) (version : Z) (s : Raft) : outcome :=
  match checkTerm r s with
  | None => None
  | Some (s1, e1) =>
    let more (x : Raft * list Effect) := Some (x.1, e1 ++ x.2) in
    match r with
    | AppendEntries term _ time vers =>
      match rpcAppend from term time vers version s1 with
      | Some x => more x
      | None => None
      end
    | RequestVote term _ time vers => more (rpcReqVote from term time vers version s1)
    | AEResponse term _ req_time vers => more (rpcAppendResponse from term req_time vers s1, [])
    | RVResponse term result _ _ => more (rpcReqVoteResponse opt from term result s1)
    end
  end.

(** demoteLeader() *)
Definition demoteLeader (s : Raft) : Raft * list Effect :=
  if bool_decide (type s = kFollower) then (s, []) else stepDownToFollower kRaftOnly 0 s.

(** init() of node [i] of [n]: the fields are those of the constructor. *)
Definition init (n i : nat) (opt : Options) (is_elector : bool) : Raft :=
  MkRaft i kFollower 0 None None
    (u64 (Z.quot (election_timeout_min opt) (heartbeat_period opt) + 1)) false true 0
    (replicate n (MkInfo 0 0 false false)) false 0 is_elector true.

(** The options of a cluster of [n] servers, with the quorum init() computes. *)
Definition cluster_options (emin period grace : Z) (n : nat) : Options :=
  MkOptions emin period (Z.of_nat n / 2 + 1) grace.

(** ** The cluster *)

Record Packet := MkPacket { src : nat; dst : nat; rpc : Rpc }.

Record World := MkWorld { nodes : list Raft; net : list Packet }.

(** What may happen next.  [version] is what nodeGetVersion() returns if it is called. *)
Inductive Event :=
  | ElectionTimeout (i : nat) (version : Z)
  | Heartbeat (i : nat)
  | Deliver (k : nat) (version : Z)     (* the [k]-th packet of the network *)
  | LoyaltyExpired (i : nat)
  | DemoteLeader (i : nat)              (* demoteLeader() *)
  | MetadataDead (i : nat)              (* checkNodeStatus() finds the metadata server dead *)
  | BlockPromotion (i : nat) (block : bool).

Inductive Outcome := Next (w : World) | AssertionFailed | Disabled.

Definition packets (i : nat) (effects : list Effect) : list Packet :=
  omap (fun e => match e with Send d r => Some (MkPacket i d r) | _ => None end) effects.

(** Node [i] runs a handler. *)
Definition run_node (i : nat) (f : Raft -> outcome) (w : World) : Outcome :=
  match nodes w !! i with
  | None => Disabled
  | Some s =>
    match f s with
    | None => AssertionFailed
    | Some (s', effects) => Next (MkWorld (<[i := s']> (nodes w)) (net w ++ packets i effects))
    end
  end.

(** The node that handles an event, and the handler; [None] when the event cannot happen.  Election
    timers fire only when armed, and terms stay below the largest 64-bit number. *)
Definition handler (opt : Options) (e : Event) (w : World) : option (nat * (Raft -> outcome)) :=
  match e with
  | ElectionTimeout i version =>
    s ← nodes w !! i;
    if election_timer s && (current_term s <? uint64_max)
    then Some (i, fun s => Some (electionTimeout opt version s)) else None
  | Heartbeat i => Some (i, heartbeat opt)
  | Deliver k version =>
    p ← net w !! k;
    Some (dst p, receivePacket opt (src p) (rpc p) version)
  | LoyaltyExpired i => Some (i, fun s => Some (set_loyalty false s, []))
  | DemoteLeader i => Some (i, fun s => Some (demoteLeader s))
  | MetadataDead i => Some (i, fun s => Some (stepDownToFollower kRaftOnly 0 s))
  | BlockPromotion i b => Some (i, fun s => Some (set_block_promotion b s, []))
  end.

Definition exec (opt : Options) (e : Event) (w : World) : Outcome :=
  match handler opt e w with
  | Some (i, f) => run_node i f w
  | None => Disabled
  end.

Fixpoint exec_all (opt : Options) (es : list Event) (w : World) : Outcome :=
  match es with
  | [] => Next w
  | e :: es => match exec opt e w with Next w' => exec_all opt es w' | o => o end
  end.

(** The cluster just after init() on each server; [is_elector] tells the electors. *)
Definition start (opt : Options) (n : nat) (is_elector : nat -> bool) : World :=
  MkWorld ((fun i => init n i opt (is_elector i)) <$> seq 0 n) [].

(** Runs of a cluster; the events allowed are those of [allowed]. *)
Inductive reachable (opt : Options) (n : nat) (is_elector : nat -> bool)
    (allowed : Event -> World -> Prop) : World -> Prop :=
  | reach_start : reachable opt n is_elector allowed (start opt n is_elector)
  | reach_step e w w' :
      reachable opt n is_elector allowed w ->
      allowed e w -> exec opt e w = Next w' -> reachable opt n is_elector allowed w'.

(** The events that never make a follower forget its vote. *)
Definition votes_kept (e : Event) (w : World) : Prop :=
  match e with
  | MetadataDead i => exists s, nodes w !! i = Some s /\ type s <> kFollower
  | _ => True
  end.

(** ** The invariant of a single node *)

(** The relations between the fields of node [i] of [n] that hold between events. *)
Record wf (n i : nat) (s : Raft) : Prop := MkWf {
  wf_id : id s = i;
  wf_len : length (node_ s) = n;
  wf_president : president s = true -> type s = kLeader;
  wf_timer : type s = kLeader -> election_timer s = false;
  wf_term : 0 <= current_term s <= uint64_max;
  wf_recv : type s = kCandidate -> forall info, node_ s !! i = Some info -> recv info = true;
}.

(** A packet on the wire. *)
Record packet_wf (p : Packet) : Prop := MkPacketWf {
  packet_other : src p <> dst p;
  packet_term : 0 <= rpc_term (rpc p) <= uint64_max;
}.

Definition packets_wf (i : nat) (effects : list Effect) : Prop :=
  forall p, p ∈ packets i effects -> packet_wf p.

Lemma packets_app i e1 e2 : packets i (e1 ++ e2) = packets i e1 ++ packets i e2.
Proof. apply omap_app. Qed.

Lemma elem_of_packets i effects p :
  p ∈ packets i effects <-> exists d r, Send d r ∈ effects /\ p = MkPacket i d r.
Proof.
  unfold packets. rewrite list_elem_of_omap. split.
  - intros ([] & Hin & Hp); simplify_eq; eauto.
  - intros (d & r & Hin & ->). eauto.
Qed.

Lemma packets_wf_app i e1 e2 :
  packets_wf i e1 -> packets_wf i e2 -> packets_wf i (e1 ++ e2).
Proof. intros H1 H2 p. rewrite packets_app, elem_of_app. intros []; eauto. Qed.

Lemma elem_of_filter_bool {A} (f : A -> bool) l x : x ∈ List.filter f l <-> x ∈ l /\ f x = true.
Proof. rewrite !list_elem_of_In. apply filter_In. Qed.

(** The packets of the two broadcasts. *)
Lemma elem_of_sendHeartbeat i s p :
  p ∈ packets i (sendHeartbeat s) ->
  src p = i /\ dst p <> id s /\
  rpc p = AppendEntries (current_term s) (id s) (local_time s) (data_version s).
Proof.
  rewrite elem_of_packets. intros (d & r & Hin & ->).
  apply list_elem_of_fmap in Hin as (j & [= -> ->] & Hj).
  apply elem_of_filter_bool in Hj as [_ Hj]. simpl.
  destruct (Nat.eqb_spec j (id s)); done.
Qed.

Lemma elem_of_sendRequestForVotes i s p :
  p ∈ packets i (sendRequestForVotes s) ->
  src p = i /\ (exists info, node_ s !! dst p = Some info /\ recv info = false) /\
  rpc p = RequestVote (current_term s) (id s) (local_time s) (data_version s).
Proof.
  rewrite elem_of_packets. intros (d & r & Hin & ->).
  apply list_elem_of_fmap in Hin as (j & [= -> ->] & Hj).
  apply elem_of_filter_bool in Hj as [_ Hj]. simpl.
  destruct (node_ s !! j) as [info|] eqn:E; [|done].
  split_and!; [done| |done]. exists info. by destruct (recv info).
Qed.

Lemma sendHeartbeat_wf n i s : wf n i s -> packets_wf i (sendHeartbeat s).
Proof.
  intros H p (Hs & Hd & Hr)%elem_of_sendHeartbeat.
  split; [rewrite (wf_id _ _ _ H) in Hd; congruence|].
  rewrite Hr. apply (wf_term _ _ _ H).
Qed.

Lemma sendRequestForVotes_wf n i s :
  wf n i s -> type s = kCandidate -> packets_wf i (sendRequestForVotes s).
Proof.
  intros H Ht p (Hs & (info & Hi & Hv) & Hr)%elem_of_sendRequestForVotes. split.
  - intros E. rewrite <-E, Hs in Hi. pose proof (wf_recv _ _ _ H Ht _ Hi). congruence.
  - rewrite Hr. apply (wf_term _ _ _ H).
Qed.

Lemma packets_wf_reply i from r :
  i <> from -> 0 <= rpc_term r <= uint64_max -> packets_wf i [Send from r].
Proof. intros Hi Hr p Hp. apply elem_of_packets in Hp as (d & r' & ?%list_elem_of_singleton & ->). simplify_eq. done. Qed.

Lemma packets_wf_nil i effects :
  (forall d r, Send d r ∉ effects) -> packets_wf i effects.
Proof. intros H p (d & r & ? & _)%elem_of_packets. by destruct (H d r). Qed.

(** A handler is well behaved when it keeps the node's invariant and sends proper packets. *)
Definition keeps_wf (n i : nat) (x : Raft * list Effect) : Prop :=
  wf n i x.1 /\ packets_wf i x.2.

Ltac no_sends := apply packets_wf_nil; intros ??; set_solver.

Lemma stepDownToFollower_wf n i policy t s :
  wf n i s -> 0 <= t <= uint64_max -> keeps_wf n i (stepDownToFollower policy t s).
Proof.
  intros [] Ht. unfold stepDownToFollower. split; [|destruct policy, (president s); no_sends].
  split; simpl; destruct (0 <? t); naive_solver.
Qed.

Lemma president_not_follower n i s :
  wf n i s -> president s && bool_decide (type s = kFollower) = false.
Proof.
  intros H. destruct (president s) eqn:E; [|done].
  rewrite (wf_president _ _ _ H E). done.
Qed.

(** The assertion of checkTerm() holds. *)
Lemma checkTerm_wf n i r s :
  wf n i s -> 0 <= rpc_term r <= uint64_max ->
  exists x, checkTerm r s = Some x /\ keeps_wf n i x.
Proof.
  intros H Hr. unfold checkTerm. rewrite (president_not_follower _ _ _ H).
  destruct (current_term s <? rpc_term r); eexists; (split; [done|]).
  - by apply stepDownToFollower_wf.
  - split; [done|no_sends].
Qed.

Lemma electionTimeout_wf n i opt version s :
  wf n i s -> (i < n)%nat -> election_timer s = true -> current_term s < uint64_max ->
  keeps_wf n i (electionTimeout opt version s).
Proof.
  intros H Hi Ht Hc. pose proof H as [Hid Hlen Hp Htm Hterm Hrecv].
  unfold electionTimeout. cbn [block_leader_promotion set_timer].
  assert (u64 (current_term s + 1) = current_term s + 1) as Eu.
  { unfold u64, wrap, uint64_max in *. apply Z.mod_small. lia. }
  destruct (block_leader_promotion s).
  { split; [|no_sends]. split; simpl; try done. intros E. rewrite (Htm E) in Ht. done. }
  assert (president s = false) as Ep.
  { destruct (president s) eqn:E; [|done]. rewrite Htm in Ht; naive_solver. }
  destruct (1 <? quorum opt).
  - set (s' := startElectionTimer _). change (keeps_wf n i (s', sendRequestForVotes s')).
    assert (wf n i s') as H'; [|split; [done|]; by apply (sendRequestForVotes_wf n)].
    split; simpl; rewrite ?Eu; try done; try congruence; try lia.
    + rewrite length_insert, length_fmap. done.
    + intros _ info. rewrite Hid, list_lookup_insert_eq; [naive_solver|].
      rewrite length_fmap, Hlen. done.
  - split; [|no_sends]. split; simpl; rewrite ?Eu; try done; try congruence; try lia.
    rewrite length_insert, length_fmap. done.
Qed.

Lemma heartbeat_sends_wf n i q s : wf n i s -> keeps_wf n i (heartbeat_sends q s).
Proof.
  intros H. unfold heartbeat_sends. destruct (type s) eqn:Et; simpl.
  - split; [done|no_sends].
  - split; [done|]. by apply (sendRequestForVotes_wf n).
  - assert (packets_wf i (sendHeartbeat s)) as Hs by by apply (sendHeartbeat_wf n).
    destruct (negb (president s) && q); split; try done; simpl.
    + destruct H. by split.
    + apply packets_wf_app; [done|]. no_sends.
Qed.

Lemma tick_wf n i s : wf n i s -> wf n i (tick s).
Proof.
  intros [Hid Hlen ????]. split; simpl; try done; [by rewrite length_alter|].
  intros Hc info. rewrite Hid, list_lookup_alter_eq, fmap_Some.
  intros (info' & Hi & ->). simpl. eauto.
Qed.

Lemma heartbeat_wf n i opt s :
  wf n i s -> exists x, heartbeat opt s = Some x /\ keeps_wf n i x.
Proof.
  intros H. unfold heartbeat. apply tick_wf in H. revert H. generalize (tick s) as s1.
  intros s1 H1. cbv zeta.
  assert (forall k, wf n i (set_streak k s1)) as Hstreak by (intros k; by destruct H1).
  destruct (president s1) eqn:Ep; [|eexists; split; [done|]; by apply heartbeat_sends_wf].
  rewrite (wf_president _ _ _ H1 Ep), bool_decide_eq_false_2 by done.
  destruct (negb _); [destruct (_ <? _)|]; eexists; (split; [done|]).
  - split; [apply Hstreak|]. apply (sendHeartbeat_wf n), Hstreak.
  - apply stepDownToFollower_wf; [done|]. unfold uint64_max. lia.
  - by apply heartbeat_sends_wf.
Qed.

Lemma rpcAppend_wf n i from term time vers version s :
  wf n i s -> i <> from -> type s <> kLeader ->
  exists x, rpcAppend from term time vers version s = Some x /\ keeps_wf n i x.
Proof.
  intros H Hf Hl. unfold rpcAppend. rewrite bool_decide_eq_false_2 by done.
  destruct (term <? current_term s); eexists; (split; [done|]).
  { split; [done|]. apply packets_wf_reply; [done|]. apply (wf_term _ _ _ H). }
  assert (forall v, wf n i (set_data_version v s)) as Hv by (intros v; by destruct H).
  set (s1 := if elector s then _ else s). assert (wf n i s1) as H1 by by unfold s1; destruct (elector s).
  assert (type s1 = type s) as Et by (unfold s1; by destruct (elector s)).
  clearbody s1. clear Hv.
  set (s2 := if _ && _ then _ else s1). assert (wf n i s2) as H2.
  { unfold s2. destruct (_ && _); [|done]. by destruct H1. }
  assert (type s2 = type s1) as Et2 by (unfold s2; by destruct (_ && _)).
  clearbody s2. split.
  - destruct H2. split; simpl; try done. intros Hp. exfalso. apply Hl.
    rewrite <-Et, <-Et2. eauto.
  - apply packets_wf_app; [destruct (bool_decide _); no_sends|].
    apply packets_wf_reply; [done|]. apply (wf_term _ _ _ H2).
Qed.

Lemma rpcAppendResponse_wf n i from term req_time vers s :
  wf n i s -> keeps_wf n i (rpcAppendResponse from term req_time vers s, []).
Proof.
  intros H. split; [|no_sends]. unfold rpcAppendResponse; simpl.
  destruct (term <? current_term s); [done|].
  destruct (bool_decide _) eqn:Hl; [|done]. apply bool_decide_eq_true in Hl.
  destruct H. split; simpl; try done; [by rewrite length_alter|congruence].
Qed.

Lemma rpcReqVote_wf n i from term time vers version s :
  wf n i s -> i <> from -> keeps_wf n i (rpcReqVote from term time vers version s).
Proof.
  intros H Hf. unfold rpcReqVote. set (s1 := if _ && _ then _ else s).
  assert (wf n i s1) as H1 by (unfold s1; destruct (_ && _); by destruct H).
  clearbody s1. clear H. split.
  - simpl. destruct (bool_decide (type s1 = kFollower)) eqn:Ht; simpl; [|done].
    apply bool_decide_eq_true in Ht. destruct (_ && _ && _); [|done].
    destruct H1. split; simpl; try done. congruence.
  - apply packets_wf_reply; [done|]. apply (wf_term _ _ _ H1).
Qed.

Lemma rpcReqVoteResponse_wf n i opt from term result s :
  wf n i s -> i <> from -> keeps_wf n i (rpcReqVoteResponse opt from term result s).
Proof.
  intros H Hf. unfold rpcReqVoteResponse.
  destruct (term <? current_term s); [split; [done|no_sends]|].
  destruct (bool_decide (type s = kCandidate)) eqn:Hc; simpl; [|split; [done|no_sends]].
  apply bool_decide_eq_true in Hc.
  set (s1 := set_node _ s). assert (wf n i s1) as H1.
  { destruct H. split; simpl; try done; [by rewrite length_alter|].
    intros _ info. rewrite list_lookup_alter_ne by done. eauto. }
  clearbody s1. destruct (_ <=? _); [|split; [done|no_sends]].
  split.
  - destruct H1. split; simpl; try done.
  - apply (sendHeartbeat_wf n i (cancel_election_timer (set_leader_id (Some (id s1)) (set_type kLeader s1)))).
    destruct H1. split; simpl; try done.
Qed.

(** An AppendEntries packet whose term is not newer reaches a leader. *)
Definition append_to_leader (r : Rpc) (s : Raft) : Prop :=
  match r with
  | AppendEntries term _ _ _ => type s = kLeader /\ term <= current_term s
  | _ => False
  end.

Lemma checkTerm_same r s x :
  checkTerm r s = Some x -> rpc_term r <= current_term s -> x = (s, []).
Proof. unfold checkTerm. intros Hc Ht. replace (_ <? _) with false in Hc by lia. naive_solver. Qed.

Lemma checkTerm_follower r s x :
  checkTerm r s = Some x -> current_term s < rpc_term r -> type x.1 = kFollower.
Proof.
  unfold checkTerm. intros Hc Ht. replace (_ <? _) with true in Hc by lia.
  destruct (_ && _); naive_solver.
Qed.

Lemma receivePacket_wf n i opt from r version s :
  wf n i s -> i <> from -> 0 <= rpc_term r <= uint64_max ->
  match receivePacket opt from r version s with
  | Some x => keeps_wf n i x
  | None => append_to_leader r s
  end.
Proof.
  intros H Hf Hr. unfold receivePacket.
  destruct (checkTerm_wf n i r s H Hr) as ([s1 e1] & Hc & H1 & He). rewrite Hc. simpl in H1, He.
  assert (forall x, keeps_wf n i x -> keeps_wf n i (x.1, e1 ++ x.2)) as Hmore.
  { intros x [??]. split; [done|]. by apply packets_wf_app. }
  destruct r as [term node time vers|term node time vers|term result time vers|term result time vers].
  - destruct (decide (type s1 = kLeader)) as [Hl|Hl].
    + unfold rpcAppend. rewrite bool_decide_eq_true_2 by done. simpl.
      destruct (Z.le_gt_cases term (current_term s)) as [Ht|Ht].
      * pose proof (checkTerm_same _ _ _ Hc Ht). naive_solver.
      * pose proof (checkTerm_follower _ _ _ Hc Ht). simpl in *. congruence.
    + destruct (rpcAppend_wf n i from term time vers version s1 H1 Hf Hl) as (x & -> & Hx).
      by apply Hmore.
  - by apply Hmore, rpcReqVote_wf.
  - by apply (Hmore (_, [])), rpcAppendResponse_wf.
  - by apply Hmore, rpcReqVoteResponse_wf.
Qed.

Record world_wf (n : nat) (w : World) : Prop := MkWorldWf {
  world_len : length (nodes w) = n;
  world_nodes : forall i s, nodes w !! i = Some s -> wf n i s;
  world_net : forall p, p ∈ net w -> packet_wf p;
}.

(** The case in which a handler's assertion fails. *)
Definition assertion_case (e : Event) (w : World) : Prop :=
  match e with
  | Deliver k _ => exists p s, net w !! k = Some p /\ nodes w !! dst p = Some s /\
                               append_to_leader (rpc p) s
  | _ => False
  end.

(** What the handler of an event does on a well-formed node: the only failing assertion is that of
    rpcAppend(). *)
Lemma handler_wf n opt e w i f s :
  world_wf n w -> handler opt e w = Some (i, f) -> nodes w !! i = Some s ->
  match f s with
  | Some x => keeps_wf n i x
  | None => assertion_case e w
  end.
Proof.
  intros [Hlen Hnodes Hnet] Hh Hs. pose proof (Hnodes _ _ Hs) as H.
  pose proof (lookup_lt_Some _ _ _ Hs) as Hi. rewrite Hlen in Hi. clear Hlen.
  destruct e as [j v|j|k v|j|j|j|j b]; simpl in Hh; simplify_eq/=.
  - destruct (nodes w !! j) as [s'|] eqn:Ej; [|done]. simpl in Hh.
    destruct (_ && _) eqn:Eg; [|done]. apply andb_true_iff in Eg as [Et Ec].
    simplify_eq. apply electionTimeout_wf; try done. lia.
  - destruct (heartbeat_wf n i opt s H) as (x & -> & ?). done.
  - destruct (net w !! k) as [p|] eqn:Ep; [|done]. simplify_eq/=.
    destruct (Hnet p) as [Ho Ht]; [by eapply list_elem_of_lookup_2|].
    pose proof (receivePacket_wf n (dst p) opt (src p) (rpc p) v s H) as Hr.
    destruct (receivePacket opt _ _ _ _); [apply Hr; done|]. exists p, s. naive_solver.
  - split; [by destruct H|no_sends].
  - unfold demoteLeader. destruct (bool_decide _); [split; [done|no_sends]|].
    apply stepDownToFollower_wf; [done|]. unfold uint64_max; lia.
  - apply stepDownToFollower_wf; [done|]. unfold uint64_max; lia.
  - split; [by destruct H|no_sends].
Qed.

(** The cases of [exec]. *)
Lemma exec_cases opt e w :
  match exec opt e w with
  | Next w' => exists i f s s' effects, handler opt e w = Some (i, f) /\ nodes w !! i = Some s /\
      f s = Some (s', effects) /\
      w' = MkWorld (<[i := s']> (nodes w)) (net w ++ packets i effects)
  | AssertionFailed => exists i f s, handler opt e w = Some (i, f) /\ nodes w !! i = Some s /\ f s = None
  | Disabled => True
  end.
Proof.
  unfold exec, run_node. destruct (handler opt e w) as [[i f]|] eqn:Eh; [|done].
  destruct (nodes w !! i) as [s|] eqn:Es; [|done].
  destruct (f s) as [[s' effects]|] eqn:Ef; naive_solver.
Qed.

Lemma start_wf opt n is_elector : world_wf n (start opt n is_elector).
Proof.
  split; simpl.
  - by rewrite length_fmap, length_seq.
  - intros i s. rewrite list_lookup_fmap, fmap_Some.
    intros (j & [-> Hj]%lookup_seq & ->). simpl. split; simpl; try done.
    by rewrite length_replicate.
  - intros p []%not_elem_of_nil.
Qed.

Lemma exec_wf n opt e w w' : world_wf n w -> exec opt e w = Next w' -> world_wf n w'.
Proof.
  intros H E. pose proof (exec_cases opt e w) as Hc. rewrite E in Hc.
  destruct Hc as (i & f & s & s' & effects & Hh & Hs & Hf & ->).
  pose proof (handler_wf n opt e w i f s H Hh Hs) as Hk. rewrite Hf in Hk.
  destruct Hk as [Hk1 Hk2], H as [Hlen Hnodes Hnet]. split; simpl.
  - by rewrite length_insert.
  - intros j t. rewrite list_lookup_insert_Some. naive_solver.
  - intros p. rewrite elem_of_app. naive_solver.
Qed.

Lemma cluster_wf opt n is_elector allowed w :
  reachable opt n is_elector allowed w -> world_wf n w.
Proof. induction 1; [apply start_wf|by eapply exec_wf]. Qed.
