(* ===== verification/Election.v ===== *)
(** Election safety of uRaft: what the handlers of URaft guarantee about leaders, and the runs in which
    they do not.

    The proof keeps two sets that grow along a run: the ballots, one for each vote that can be counted
    (voter, candidate and term), and the winners, one for each election won (node and term).  They are
    not part of the program; the invariant only says that such sets exist. *)
From S2P Require Import Prelude URaft.

(** ** Quorums *)

Lemma length_filter_le_size {A} (f : A -> bool) (l : list A) (X : gset nat) :
  (forall j a, l !! j = Some a -> f a = true -> j ∈ X) ->
  (length (List.filter f l) <= size X)%nat.
Proof.
  revert X. induction l as [|a l IH] using rev_ind; intros X HX; simpl; [lia|].
  rewrite List.filter_app, length_app. simpl.
  assert (length (List.filter f l) <= size (X ∖ {[length l]}))%nat as Hl.
  { apply IH. intros j b Hj Hb. pose proof (lookup_lt_Some _ _ _ Hj).
    apply elem_of_difference. split; [|set_unfold; lia].
    apply (HX j b); [|done]. by rewrite lookup_app_l. }
  destruct (f a) eqn:Ea; simpl.
  - assert (length l ∈ X) as Hin.
    { apply (HX _ a); [|done]. rewrite lookup_app_r, Nat.sub_diag by lia. done. }
    rewrite size_difference in Hl by set_solver. rewrite size_singleton in Hl.
    assert (0 < size X)%nat; [|lia].
    destruct (size X) eqn:E; [|lia]. apply size_empty_inv in E. set_solver.
  - etrans; [|apply (subseteq_size (X ∖ {[length l]})); set_solver]. lia.
Qed.

(** Two majorities of the same [n] nodes have a common member. *)
Lemma quorums_meet (n : nat) (X Y : gset nat) :
  (forall j, j ∈ X -> (j < n)%nat) -> (forall j, j ∈ Y -> (j < n)%nat) ->
  Z.of_nat n / 2 + 1 <= Z.of_nat (size X) -> Z.of_nat n / 2 + 1 <= Z.of_nat (size Y) ->
  exists j, j ∈ X /\ j ∈ Y.
Proof.
  intros HX HY SX SY. destruct (decide (X ## Y)) as [Hd|Hd].
  - exfalso. assert (size (X ∪ Y) <= n)%nat as Hn.
    { rewrite <-(length_seq n 0).
      rewrite <-(size_list_to_set (C := gset nat) (seq 0 n)) by apply NoDup_seq.
      apply subseteq_size. intros j. rewrite elem_of_list_to_set, elem_of_seq, elem_of_union.
      intros [?%HX|?%HY]; lia. }
    rewrite size_union in Hn by done. pose proof (Z.mod_pos_bound (Z.of_nat n) 2).
    pose proof (Z.div_mod (Z.of_nat n) 2). lia.
  - destruct (set_choose_or_empty (X ∩ Y)) as [[j Hj]|He]; [exists j; set_solver|].
    set_solver.
Qed.

(** ** The invariant *)

Abbreviation ballots := (gset (nat * nat * Z)).
Abbreviation winners := (gset (nat * Z)).

(** Those who voted for [i] in a term, [i] included. *)
Definition backers (n : nat) (V : ballots) (i : nat) (T : Z) : gset nat :=
  filter (fun j => j = i \/ (j, i, T) ∈ V) (list_to_set (seq 0 n)).

Lemma elem_of_backers n V i T j :
  j ∈ backers n V i T <-> (j = i \/ (j, i, T) ∈ V) /\ (j < n)%nat.
Proof. unfold backers. rewrite elem_of_filter, elem_of_list_to_set, elem_of_seq. lia || (split; intros [??]; split; auto; lia). Qed.

(** A node votes once in a term. *)
Definition single_vote (V : ballots) : Prop :=
  forall j c1 c2 T, (j, c1, T) ∈ V -> (j, c2, T) ∈ V -> c1 = c2.

Record node_ok (n : nat) (q : Z) (V : ballots) (W : winners) (i : nat) (s : Raft) : Prop := MkOk {
  ok_voter : forall c T, (i, c, T) ∈ V ->
    T <= current_term s /\
    (T = current_term s -> type s = kFollower /\
      exists k, voted_for s = Some k /\ (k = c \/ (k, T) ∈ W));
  ok_winner : forall T, (i, T) ∈ W ->
    T <= current_term s /\ (T = current_term s -> type s <> kCandidate);
  ok_follower : type s = kFollower -> forall k, leader_id s = Some k -> (k, current_term s) ∈ W;
  ok_candidate : type s = kCandidate -> forall j info, node_ s !! j = Some info ->
    vote_granted info = true -> j = i \/ (j, i, current_term s) ∈ V;
  ok_leader : type s = kLeader ->
    (i, current_term s) ∈ W /\ q <= Z.of_nat (size (backers n V i (current_term s)));
}.

Definition packet_ok (V : ballots) (W : winners) (p : Packet) : Prop :=
  match rpc p with
  | AppendEntries T _ _ _ => (src p, T) ∈ W
  | RVResponse T true _ _ => (src p, dst p, T) ∈ V \/ (dst p, T) ∈ W
  | _ => True
  end.

(** The sets grow, by ballots and victories of node [i] only. *)
Record extends (i : nat) (V : ballots) (W : winners) (V' : ballots) (W' : winners) : Prop := MkExt {
  ext_votes : V ⊆ V';
  ext_wins : W ⊆ W';
  ext_voter : forall j c T, (j, c, T) ∈ V' -> j <> i -> (j, c, T) ∈ V;
  ext_winner : forall j T, (j, T) ∈ W' -> j <> i -> (j, T) ∈ W;
}.

Lemma extends_refl i V W : extends i V W V W.
Proof. by split. Qed.

Lemma backers_mono n V V' i T : V ⊆ V' -> (size (backers n V i T) <= size (backers n V' i T))%nat.
Proof. intros H. apply subseteq_size. intros j. rewrite !elem_of_backers. set_solver. Qed.

Lemma packet_ok_mono V W V' W' p : V ⊆ V' -> W ⊆ W' -> packet_ok V W p -> packet_ok V' W' p.
Proof. unfold packet_ok. intros HV HW. destruct (rpc p) as [| | |? []]; set_solver. Qed.

Lemma node_ok_other n q V W V' W' i j s :
  extends i V W V' W' -> j <> i -> node_ok n q V W j s -> node_ok n q V' W' j s.
Proof.
  intros [HV HW Hv Hw] Hj [O1 O2 O3 O4 O5]. split.
  - intros c T Hin. destruct (O1 c T) as [? Ho]; [by apply Hv|]. split; [done|].
    intros (? & k & ? & [?|?])%Ho; (split; [done|]); exists k; set_solver.
  - intros T Hin. apply O2. by apply Hw.
  - intros Ht k Hk. apply HW. eauto.
  - intros Ht j' info Hl Hg. destruct (O4 Ht j' info Hl Hg); set_solver.
  - intros Ht. destruct (O5 Ht) as [? Hq]. split; [set_solver|].
    pose proof (backers_mono n V V' j (current_term s) HV). lia.
Qed.

(** Fields other than these do not matter. *)
Lemma node_ok_frame n q V W i s s' :
  type s' = type s -> current_term s' = current_term s -> voted_for s' = voted_for s ->
  leader_id s' = leader_id s ->
  (type s = kCandidate -> forall j info', node_ s' !! j = Some info' -> vote_granted info' = true ->
    exists info, node_ s !! j = Some info /\ vote_granted info = true) ->
  node_ok n q V W i s -> node_ok n q V W i s'.
Proof.
  intros Et Ec Ev El En [O1 O2 O3 O4 O5]. split; rewrite ?Et, ?Ec, ?Ev, ?El; try done.
  intros Ht j info' Hl Hg. destruct (En Ht j info' Hl Hg) as (info & ? & ?). eauto.
Qed.

(** What a handler of node [i] may do: new ballots and victories of [i] only, the invariant of [i]
    and of the packets it sends. *)
Definition moves (n : nat) (q : Z) (V : ballots) (W : winners) (i : nat) (x : Raft * list Effect) : Prop :=
  exists V' W', extends i V W V' W' /\ single_vote V' /\ node_ok n q V' W' i x.1 /\
    forall p, p ∈ packets i x.2 -> packet_ok V' W' p.

Lemma moves_same n q V W i x :
  single_vote V -> node_ok n q V W i x.1 -> (forall p, p ∈ packets i x.2 -> packet_ok V W p) ->
  moves n q V W i x.
Proof. intros. exists V, W. split_and!; done. Qed.

(** ** The handlers *)

Section handlers.
Context (n : nat) (opt : Options) (V : ballots) (W : winners) (i : nat).
Context (Hsingle : single_vote V).

Notation ok := (node_ok n (quorum opt) V W i).

(** Stepping down is safe with a newer term, and in the same term for a node that is not a
    follower (which has cast no ballot in the term). *)
Lemma stepDownToFollower_ok policy t s :
  ok s -> current_term s < t \/ t = 0 /\ type s <> kFollower ->
  0 <= current_term s ->
  ok (stepDownToFollower policy t s).1.
Proof.
  intros [O1 O2 O3 O4 O5] Ht H0. unfold stepDownToFollower. simpl.
  assert (current_term (if 0 <? t then set_term t s else s) = if 0 <? t then t else current_term s) as Ec
    by (by destruct (0 <? t)).
  split; simpl; rewrite ?Ec; try done.
  - intros c T Hin. destruct (O1 c T Hin) as [Hle Hf].
    destruct (Z.ltb_spec 0 t); [split; lia|]. split; [done|]. intros E. naive_solver lia.
  - intros T Hin. destruct (O2 T Hin). destruct (Z.ltb_spec 0 t); split; lia || done.
Qed.

Lemma stepDown_packets policy t s : packets i (stepDownToFollower policy t s).2 = [].
Proof. unfold stepDownToFollower. simpl. by destruct policy, (president s). Qed.

Lemma checkTerm_ok r s x :
  0 <= current_term s -> ok s -> checkTerm r s = Some x ->
  ok x.1 /\ packets i x.2 = [] /\ rpc_term r <= current_term x.1.
Proof.
  intros H0 Hok. unfold checkTerm. destruct (Z.ltb_spec (current_term s) (rpc_term r)).
  - destruct (_ && _); [done|]. intros [= <-]. split_and!.
    + apply stepDownToFollower_ok; auto.
    + apply stepDown_packets.
    + unfold stepDownToFollower. simpl. destruct (Z.ltb_spec 0 (rpc_term r)); simpl; lia.
  - intros [= <-]. done.
Qed.

Lemma electionTimeout_moves version s :
  (i < n)%nat -> wf n i s -> ok s -> current_term s < uint64_max ->
  moves n (quorum opt) V W i (electionTimeout opt version s).
Proof.
  intros Hi Hwf Hok Hc. pose proof Hwf as [Hid Hlen Hp Htm Hterm Hrecv].
  unfold electionTimeout. cbn [block_leader_promotion set_timer].
  destruct (block_leader_promotion s).
  { apply moves_same; [done| |set_solver]. by apply (node_ok_frame n _ V W i s); eauto. }
  assert (u64 (current_term s + 1) = current_term s + 1) as Eu.
  { unfold u64, wrap, uint64_max in *. apply Z.mod_small. lia. }
  pose proof Hok as [O1 O2 O3 O4 O5].
  assert (forall c T, (i, c, T) ∈ V -> T < current_term s + 1) as HV.
  { intros c T Hin. destruct (O1 c T Hin). lia. }
  assert (forall T, (i, T) ∈ W -> T < current_term s + 1) as HW.
  { intros T Hin. destruct (O2 T Hin). lia. }
  destruct (Z.ltb_spec 1 (quorum opt)).
  - apply moves_same; [done| |].
    + split; simpl; rewrite ?Eu; try done.
      * intros c T Hin. specialize (HV c T Hin). split; lia.
      * intros T Hin. specialize (HW T Hin). split; lia.
      * intros _ j info. rewrite list_lookup_insert_Some, list_lookup_fmap, Hid.
        intros [(-> & _)|(_ & (b & _ & ->)%fmap_Some)]; [by left|done].
    + intros p (_ & _ & Hr)%elem_of_sendRequestForVotes. unfold packet_ok. by rewrite Hr.
  - exists V, (W ∪ {[(i, current_term s + 1)]}). split_and!; [split; set_solver|done| |set_solver].
    split; simpl; rewrite ?Eu; try done.
    + intros c T Hin. specialize (HV c T Hin). split; lia.
    + intros T Hin. assert (T <= current_term s + 1); [|done].
      apply elem_of_union in Hin as [Hin%HW|?]; [lia|set_solver].
    + intros _. split; [set_solver|].
      assert (i ∈ backers n V i (current_term s + 1)) as Hb by (apply elem_of_backers; auto).
      assert (size (backers n V i (current_term s + 1)) <> 0%nat); [|lia].
      intros E%size_empty_inv. set_solver.
Qed.

Lemma sendHeartbeat_ok s :
  wf n i s -> ok s -> type s = kLeader -> forall p, p ∈ packets i (sendHeartbeat s) -> packet_ok V W p.
Proof.
  intros Hwf Hok Hl p (Hs & _ & Hr)%elem_of_sendHeartbeat. unfold packet_ok.
  rewrite Hr, Hs. by apply (ok_leader _ _ _ _ _ _ Hok).
Qed.

Lemma heartbeat_sends_moves q s :
  wf n i s -> ok s -> moves n (quorum opt) V W i (heartbeat_sends q s).
Proof.
  intros Hwf Hok. unfold heartbeat_sends. destruct (type s) eqn:Et; simpl.
  - apply moves_same; set_solver.
  - apply moves_same; [done..|]. intros p (_ & _ & Hr)%elem_of_sendRequestForVotes.
    unfold packet_ok. by rewrite Hr.
  - destruct (negb (president s) && q); apply moves_same; try done; simpl.
    + by apply (node_ok_frame n _ V W i s); eauto.
    + intros p. rewrite packets_app, app_nil_r. by apply sendHeartbeat_ok.
    + by apply sendHeartbeat_ok.
Qed.

Lemma tick_ok s : ok s -> ok (tick s).
Proof.
  intros Hok. apply (node_ok_frame n _ V W i s); try done. intros _ j info'. simpl.
  intros [(_ & info & ? & ->)|[_ ?]]%lookup_alter_cases ?; eauto.
Qed.

Lemma heartbeat_moves s x :
  wf n i s -> ok s -> heartbeat opt s = Some x -> moves n (quorum opt) V W i x.
Proof.
  intros Hwf Hok. unfold heartbeat. apply tick_wf in Hwf. apply tick_ok in Hok.
  revert Hwf Hok. generalize (tick s) as s1. intros s1 Hwf1 Hok1. cbv zeta.
  assert (forall k, wf n i (set_streak k s1)) as Hstreak by (intros k; by destruct Hwf1).
  assert (forall k, ok (set_streak k s1)) as Hstreak'
    by (intros k; apply (node_ok_frame n _ V W i s1); eauto).
  destruct (president s1) eqn:Ep; [|intros [= <-]; by apply heartbeat_sends_moves].
  pose proof (wf_president _ _ _ Hwf1 Ep) as El.
  destruct (bool_decide _); [done|]. destruct (negb _); [destruct (_ <? _)|]; intros [= <-].
  - apply moves_same; [done|apply Hstreak'|]. apply sendHeartbeat_ok; done.
  - apply moves_same; [done| |by rewrite stepDown_packets; set_solver].
    apply stepDownToFollower_ok; [done| |apply (wf_term _ _ _ Hwf1)].
    right. split; [done|]. simpl. congruence.
  - by apply heartbeat_sends_moves.
Qed.

Lemma rpcAppend_moves from term time vers version s x :
  ok s -> term <= current_term s -> (from, term) ∈ W ->
  rpcAppend from term time vers version s = Some x -> moves n (quorum opt) V W i x.
Proof.
  intros Hok Ht HW. unfold rpcAppend. destruct (bool_decide (type s = kLeader)) eqn:El; [done|].
  apply bool_decide_eq_false in El.
  destruct (Z.ltb_spec term (current_term s)).
  { intros [= <-]. apply moves_same; [done..|]. simpl. set_solver. }
  set (s1 := if elector s then _ else s). assert (ok s1) as Hok1.
  { unfold s1. destruct (elector s); [|done]. apply (node_ok_frame n _ V W i s); eauto. }
  assert (type s1 = type s /\ current_term s1 = current_term s) as [Et Ec]
    by (unfold s1; by destruct (elector s)).
  clearbody s1. set (s2 := if _ && _ then _ else s1). assert (ok s2) as Hok2.
  { unfold s2. destruct (_ && _); [|done]. apply (node_ok_frame n _ V W i s1); eauto. }
  assert (type s2 = type s /\ current_term s2 = current_term s) as [Et2 Ec2]
    by (unfold s2; by destruct (_ && _)).
  clearbody s2. intros [= <-]. apply moves_same; [done| |].
  - destruct Hok2 as [O1 O2 O3 O4 O5]. split; simpl; try done.
    + intros c T Hin. destruct (O1 c T Hin) as [? Hf]. split; [done|]. naive_solver.
    + intros T Hin. by destruct (O2 T Hin).
    + intros _ k [= <-]. rewrite Ec2. by replace (current_term s) with term by lia.
  - intros p. simpl. rewrite packets_app.
    destruct (bool_decide _); simpl; intros ?; set_unfold; naive_solver.
Qed.

Lemma rpcAppendResponse_moves from term req_time vers s :
  ok s -> moves n (quorum opt) V W i (rpcAppendResponse from term req_time vers s, []).
Proof.
  intros Hok. apply moves_same; [done| |set_solver]. unfold rpcAppendResponse; simpl.
  destruct (term <? current_term s); [done|].
  destruct (bool_decide _) eqn:Hl; [|done]. apply bool_decide_eq_true in Hl.
  apply (node_ok_frame n _ V W i s); simpl; try done. congruence.
Qed.

(** A vote that is granted is a new ballot, or goes to a node that has won already. *)
Lemma rpcReqVote_moves from term time vers version s :
  ok s -> i <> from -> term <= current_term s ->
  moves n (quorum opt) V W i (rpcReqVote from term time vers version s).
Proof.
  intros Hok Hf Ht. unfold rpcReqVote. set (s1 := if _ && _ then _ else s).
  assert (ok s1) as Hok1.
  { unfold s1. destruct (_ && _); [|done]. apply (node_ok_frame n _ V W i s); eauto. }
  assert (current_term s1 = current_term s) as Ec by (unfold s1; by destruct (_ && _)).
  clearbody s1. cbv zeta. destruct (bool_decide (type s1 = kFollower) && _ && _ && _) eqn:Er.
  2: { apply moves_same; [done..|]. simpl. set_solver. }
  apply andb_true_iff in Er as [[[Er _]%andb_true_iff _]%andb_true_iff Hloyal].
  apply bool_decide_eq_true in Er.
  set (T := current_term s1) in *.
  destruct Hok1 as [O1 O2 O3 O4 O5]. fold T in O1, O2, O3, O4, O5.
  destruct (decide ((from, T) ∈ W)) as [Hw|Hw].
  - apply moves_same; [done| |].
    + split; simpl; fold T; try done.
      intros c T' Hin. destruct (O1 c T' Hin) as [? Hf']. split; [done|].
      intros ->. split; [done|]. exists from. auto.
    + simpl. intros p Hp. set_unfold in Hp. destruct Hp as [->|[]]. simpl. by right.
  - assert (voted_for s1 = None \/ voted_for s1 = Some from) as Hv.
    { destruct (loyalty_agreement s1); simpl in *.
      - rewrite orb_false_r, bool_decide_eq_true in Hloyal. by destruct (Hw (O3 Er _ Hloyal)).
      - destruct (orb_prop _ _ Hloyal) as [?%bool_decide_eq_true|?%bool_decide_eq_true]; auto. }
    assert (forall c, (i, c, T) ∈ V -> c = from) as Hu.
    { intros c Hin. destruct (O1 c T Hin) as (_ & Hf' & k & Hk & Hkc); [done|].
      destruct Hv as [Hv|Hv]; rewrite Hv in Hk; simplify_eq. naive_solver. }
    exists (V ∪ {[(i, from, T)]}), W. split_and!.
    + split; set_solver.
    + intros j c1 c2 T'. rewrite !elem_of_union, !elem_of_singleton.
      intros [?|?] [?|?]; simplify_eq; [by eapply Hsingle|by apply Hu|symmetry; by apply Hu|done].
    + split; simpl; fold T; try done; [|congruence..].
      intros c T'. rewrite elem_of_union, elem_of_singleton. intros [Hin|?]; simplify_eq.
      * destruct (O1 c T' Hin) as [? _]. split; [done|]. intros ->.
        split; [done|]. exists from. rewrite (Hu c Hin). auto.
      * split; [lia|]. intros _. split; [done|]. exists from. auto.
    + simpl. intros p Hp. set_unfold in Hp. destruct Hp as [->|[]]. simpl. left. set_solver.
Qed.

Lemma rpcReqVoteResponse_moves from term result s :
  wf n i s -> ok s -> term <= current_term s ->
  (result = true -> (from, i, term) ∈ V \/ (i, term) ∈ W) ->
  moves n (quorum opt) V W i (rpcReqVoteResponse opt from term result s).
Proof.
  intros Hwf Hok Ht Hres. unfold rpcReqVoteResponse.
  destruct (Z.ltb_spec term (current_term s)); [apply moves_same; set_solver|].
  assert (term = current_term s) as -> by lia.
  destruct (bool_decide (type s = kCandidate)) eqn:Hc; simpl; [|apply moves_same; set_solver].
  apply bool_decide_eq_true in Hc. set (s1 := set_node _ s).
  assert (ok s1) as Hok1.
  { pose proof Hok as [O1 O2 O3 O4 O5]. split; simpl; try done.
    intros _ j info [(<- & a & Ha & ->)|[_ Hj]]%lookup_alter_cases; simpl; [|eauto].
    intros ->. destruct Hres as [|Hw]; auto. destruct (O2 _ Hw) as [_ []]; auto. }
  assert (length (node_ s1) = n) as Hlen by (simpl; rewrite length_alter; apply (wf_len _ _ _ Hwf)).
  assert (type s1 = kCandidate) as Hc1 by done.
  assert (id s1 = i) as Hid1 by apply (wf_id _ _ _ Hwf).
  clearbody s1. destruct (Z.leb_spec (quorum opt) (voteCount opt false s1)) as [Hq|Hq].
  2: apply moves_same; set_solver.
  set (T := current_term s1).
  exists V, (W ∪ {[(i, T)]}). destruct Hok1 as [O1 O2 O3 O4 O5]. fold T in O1, O2, O3, O4, O5.
  split_and!; [split; set_solver|done| |].
  - split; simpl; fold T; try done.
    + intros c T' Hin. destruct (O1 c T' Hin) as [? Hf]. split; [done|].
      intros (Hf' & _)%Hf. congruence.
    + intros T' [?|?%elem_of_singleton]%elem_of_union; simplify_eq; [|done].
      split; [|done]. by apply O2.
    + intros _. split; [set_solver|]. etrans; [exact Hq|]. apply inj_le.
      apply length_filter_le_size. intros j info Hj Hv. apply elem_of_backers.
      split; [|rewrite <-Hlen; by eapply lookup_lt_Some].
      apply (O4 Hc1 j info Hj). simpl in Hv. by rewrite orb_false_r in Hv.
  - intros p (Hs & _ & Hr)%elem_of_sendHeartbeat. unfold packet_ok. rewrite Hr, Hs. simpl. set_solver.
Qed.

End handlers.

(** ** The cluster *)

Lemma receivePacket_moves n opt V W i from r version s x :
  single_vote V -> wf n i s -> node_ok n (quorum opt) V W i s -> i <> from ->
  0 <= rpc_term r <= uint64_max -> packet_ok V W (MkPacket from i r) ->
  receivePacket opt from r version s = Some x -> moves n (quorum opt) V W i x.
Proof.
  intros HV Hwf Hok Hf Hr Hp. unfold receivePacket.
  destruct (checkTerm_wf n i r s Hwf Hr) as ([s1 e1] & Hc & [Hwf1 _]). rewrite Hc.
  destruct (checkTerm_ok n opt V W i r s _ (proj1 (wf_term _ _ _ Hwf)) Hok Hc) as (Hok1 & He & Hle).
  cbn [fst snd] in Hwf1, Hok1, He, Hle.
  assert (forall y, moves n (quorum opt) V W i y -> moves n (quorum opt) V W i (y.1, e1 ++ y.2)) as Hmore.
  { intros y (V' & W' & ? & ? & ? & Hy). exists V', W'. split_and!; try done.
    simpl. rewrite packets_app, He. done. }
  destruct r as [term node time vers|term node time vers|term result time vers|term result time vers];
    cbn [rpc_term] in Hr, Hle.
  - destruct (rpcAppend _ _ _ _ _ _) as [y|] eqn:E; [|done]. intros <-%(inj Some).
    apply Hmore. by apply (rpcAppend_moves n opt V W i HV from term time vers version s1).
  - intros <-%(inj Some). by apply Hmore, rpcReqVote_moves.
  - intros <-%(inj Some). by apply (Hmore (_, [])), rpcAppendResponse_moves.
  - intros <-%(inj Some). apply Hmore, rpcReqVoteResponse_moves; try done. by intros ->.
Qed.

Lemma handler_moves n opt V W e w i f s x :
  single_vote V -> world_wf n w -> node_ok n (quorum opt) V W i s ->
  (forall p, p ∈ net w -> packet_ok V W p) -> votes_kept e w ->
  handler opt e w = Some (i, f) -> nodes w !! i = Some s -> f s = Some x ->
  moves n (quorum opt) V W i x.
Proof.
  intros HV [Hlen Hnodes Hnet] Hok Hpk Hkept Hh Hs. pose proof (Hnodes _ _ Hs) as Hwf.
  pose proof (lookup_lt_Some _ _ _ Hs) as Hi. rewrite Hlen in Hi. clear Hlen.
  assert (forall s', type s' = type s -> current_term s' = current_term s ->
    voted_for s' = voted_for s -> leader_id s' = leader_id s -> node_ s' = node_ s ->
    moves n (quorum opt) V W i (s', [])) as Hframe.
  { intros s' ???? En. apply moves_same; [done| |set_solver].
    apply (node_ok_frame n _ V W i s); try done. simpl. rewrite En. eauto. }
  assert (type s <> kFollower -> moves n (quorum opt) V W i (stepDownToFollower kRaftOnly 0 s)) as Hdown.
  { intros Ht. apply moves_same; [done| |by rewrite stepDown_packets; set_solver].
    apply stepDownToFollower_ok; auto. apply (wf_term _ _ _ Hwf). }
  destruct e as [j v|j|k v|j|j|j|j b]; simpl in Hh; simplify_eq/=.
  - destruct (nodes w !! j) as [s'|] eqn:Ej; [|done]. simpl in Hh.
    destruct (_ && _) eqn:Eg; [|done]. apply andb_true_iff in Eg as [Et Ec].
    simplify_eq. intros [= <-]. apply electionTimeout_moves; try done. lia.
  - by apply heartbeat_moves.
  - destruct (net w !! k) as [p|] eqn:Ep; [|done]. simplify_eq/=.
    assert (p ∈ net w) as Hin by by eapply list_elem_of_lookup_2.
    destruct (Hnet p Hin) as [Ho Ht]. apply receivePacket_moves; try done.
    specialize (Hpk p Hin). by destruct p.
  - intros [= <-]. by apply Hframe.
  - intros [= <-]. unfold demoteLeader. destruct (bool_decide _) eqn:E; [by apply Hframe|].
    apply Hdown. by apply bool_decide_eq_false in E.
  - intros [= <-]. apply Hdown. destruct Hkept as (s' & ? & ?). by simplify_eq.
  - intros [= <-]. by apply Hframe.
Qed.

(** The invariant of a run. *)
Definition election_inv (n : nat) (q : Z) (w : World) : Prop :=
  exists V W, single_vote V /\ (forall i s, nodes w !! i = Some s -> node_ok n q V W i s) /\
    (forall p, p ∈ net w -> packet_ok V W p).

Lemma start_inv opt n is_elector q : election_inv n q (start opt n is_elector).
Proof.
  exists ∅, ∅. split_and!.
  - intros ?????. set_solver.
  - intros i s. simpl. rewrite list_lookup_fmap, fmap_Some. intros (j & _ & ->).
    split; simpl; try done; set_solver.
  - simpl. set_solver.
Qed.

Lemma exec_inv opt n e w w' :
  world_wf n w -> election_inv n (quorum opt) w -> votes_kept e w ->
  exec opt e w = Next w' -> election_inv n (quorum opt) w'.
Proof.
  intros Hwf (V & W & HV & Hok & Hpk) Hkept E.
  pose proof (exec_cases opt e w) as Hc. rewrite E in Hc.
  destruct Hc as (i & f & s & s' & effects & Hh & Hs & Hf & ->).
  destruct (handler_moves n opt V W e w i f s (s', effects)) as (V' & W' & Hext & HV' & Hi & Hp);
    try done; [by apply Hok|].
  exists V', W'. split_and!; [done| |]; simpl.
  - intros j t. rewrite list_lookup_insert_Some. intros [(<- & <- & _)|[Hj Ht]]; [done|].
    eapply node_ok_other; eauto.
  - intros p [Hin|Hin]%elem_of_app; [|by apply Hp].
    apply (packet_ok_mono V W); [apply Hext..|by apply Hpk].
Qed.

Lemma reachable_inv opt n is_elector w :
  reachable opt n is_elector votes_kept w -> election_inv n (quorum opt) w.
Proof.
  induction 1; [apply start_inv|]. eapply exec_inv; eauto using cluster_wf.
Qed.

(** Two leaders of the same term that the invariant allows are one. *)
Lemma leaders_agree n V W i j si sj :
  single_vote V -> (i < n)%nat -> (j < n)%nat ->
  node_ok n (Z.of_nat n / 2 + 1) V W i si -> node_ok n (Z.of_nat n / 2 + 1) V W j sj ->
  type si = kLeader -> type sj = kLeader -> current_term si = current_term sj -> i = j.
Proof.
  intros HV Hi Hj Oi Oj Ti Tj Et.
  destruct (ok_leader _ _ _ _ _ _ Oi Ti) as [_ Qi], (ok_leader _ _ _ _ _ _ Oj Tj) as [_ Qj].
  edestruct (quorums_meet n) as (k & Hki & Hkj); [| |exact Qi|exact Qj|].
  1, 2: intros k ?%elem_of_backers; lia.
  apply elem_of_backers in Hki as [Hki _], Hkj as [Hkj _].
  rewrite Et in Hki. destruct Hki as [->|Hki], Hkj as [->|Hkj]; [done| | |by eapply HV].
  - rewrite <-Et in Hkj. destruct (ok_voter _ _ _ _ _ _ Oi _ _ Hkj) as (_ & Hf & _); [done|congruence].
  - destruct (ok_voter _ _ _ _ _ _ Oj _ _ Hki) as (_ & Hf & _); [done|congruence].
Qed.

(** ** Terms *)

Lemma stepDown_term policy t s :
  current_term s <= t \/ t = 0 -> 0 <= current_term s ->
  current_term s <= current_term (stepDownToFollower policy t s).1.
Proof. intros ??. unfold stepDownToFollower. simpl. destruct (Z.ltb_spec 0 t); simpl; lia. Qed.

Lemma rpcAppend_term from term time vers version s x :
  rpcAppend from term time vers version s = Some x -> current_term x.1 = current_term s.
Proof.
  unfold rpcAppend. destruct (bool_decide _); [done|]. destruct (_ <? _); intros <-%(inj Some); [done|].
  simpl. destruct (elector s); simpl; by destruct (_ && _).
Qed.

Lemma rpcReqVote_term from term time vers version s :
  current_term (rpcReqVote from term time vers version s).1 = current_term s.
Proof. unfold rpcReqVote. simpl. destruct (bool_decide (voted_for s = None) && _); by destruct (_ && _). Qed.

Lemma rpcReqVoteResponse_term opt from term result s :
  current_term (rpcReqVoteResponse opt from term result s).1 = current_term s.
Proof. unfold rpcReqVoteResponse. by repeat case_match. Qed.

Lemma rpcAppendResponse_term from term req_time vers s :
  current_term (rpcAppendResponse from term req_time vers s) = current_term s.
Proof. unfold rpcAppendResponse. by repeat case_match. Qed.

Lemma receivePacket_term opt from r version s x :
  0 <= current_term s -> receivePacket opt from r version s = Some x ->
  current_term s <= current_term x.1.
Proof.
  intros H0. unfold receivePacket. destruct (checkTerm r s) as [[s1 e1]|] eqn:Hc; [|done].
  assert (current_term s <= current_term s1) as Hle.
  { unfold checkTerm in Hc. destruct (Z.ltb_spec (current_term s) (rpc_term r)); [|naive_solver].
    destruct (_ && _); [done|]. apply (inj Some) in Hc.
    change s1 with (s1, e1).1. rewrite <-Hc. apply stepDown_term; lia. }
  destruct r.
  - destruct (rpcAppend _ _ _ _ _ _) as [y|] eqn:E; [|done]. intros <-%(inj Some). cbn [fst].
    by rewrite (rpcAppend_term _ _ _ _ _ _ _ E).
  - intros <-%(inj Some). cbn [fst]. by rewrite rpcReqVote_term.
  - intros <-%(inj Some). cbn [fst]. by rewrite rpcAppendResponse_term.
  - intros <-%(inj Some). cbn [fst]. by rewrite rpcReqVoteResponse_term.
Qed.

Lemma heartbeat_term opt s x :
  0 <= current_term s -> heartbeat opt s = Some x -> current_term s <= current_term x.1.
Proof.
  intros H0. unfold heartbeat. change (current_term s) with (current_term (tick s)) in *.
  generalize dependent (tick s). clear s. intros s H0. cbv zeta.
  assert (forall q s, current_term (heartbeat_sends q s).1 = current_term s) as Hs.
  { intros q s'. unfold heartbeat_sends. by repeat case_match. }
  destruct (president s); [|intros <-%(inj Some); by rewrite Hs].
  destruct (bool_decide _); [done|].
  destruct (negb _); [destruct (_ <? _)|]; intros <-%(inj Some); [done| |by rewrite Hs].
  apply (stepDown_term kDemoteIfPresident 0 (set_streak _ s)); auto.
Qed.

Lemma handler_term n opt e w i f s x :
  world_wf n w -> handler opt e w = Some (i, f) -> nodes w !! i = Some s -> f s = Some x ->
  current_term s <= current_term x.1.
Proof.
  intros Hwf Hh Hs. pose proof (wf_term _ _ _ (world_nodes _ _ Hwf _ _ Hs)) as Ht.
  destruct e as [j v|j|k v|j|j|j|j b]; simpl in Hh; simplify_eq/=.
  - destruct (nodes w !! j) as [s'|] eqn:Ej; [|done]. simpl in Hh.
    destruct (_ && _) eqn:Eg; [|done]. simplify_eq. intros <-%(inj Some).
    rename s' into s. apply andb_true_iff in Eg as [_ Ec%Z.ltb_lt]. unfold electionTimeout.
    assert (u64 (current_term s + 1) = current_term s + 1) as Eu.
    { unfold u64, wrap, uint64_max in *. apply Z.mod_small. lia. }
    repeat case_match; simpl; rewrite ?Eu; lia.
  - apply heartbeat_term. lia.
  - destruct (net w !! k) as [p|]; [|done]. simplify_eq/=. apply receivePacket_term. lia.
  - by intros <-%(inj Some).
  - intros <-%(inj Some). unfold demoteLeader. destruct (bool_decide _); [done|].
    apply stepDown_term; lia.
  - intros <-%(inj Some). apply stepDown_term; lia.
  - by intros <-%(inj Some).
Qed.

(** ** Properties *)

Lemma exec_all_reachable opt n is_elector (allowed : Event -> World -> Prop) es w w' :
  reachable opt n is_elector allowed w -> Forall (fun e => forall w, allowed e w) es ->
  exec_all opt es w = Next w' -> reachable opt n is_elector allowed w'.
Proof.
  intros H Hes. revert w H. induction Hes as [|e es He Hes IH]; simpl; intros w H; [naive_solver|].
  destruct (exec opt e w) as [w1| |] eqn:E; [|done..]. apply IH. by eapply reach_step.
Qed.

(** The node leads (is the president) in a term. *)
Definition leads (i : nat) (T : Z) (w : World) : bool :=
  match nodes w !! i with
  | Some s => bool_decide (type s = kLeader) && (current_term s =? T)
  | None => false
  end.

Definition presides (i : nat) (T : Z) (w : World) : bool :=
  leads i T w && match nodes w !! i with Some s => president s | None => false end.

(** C5: election safety.  In every run of a cluster in which packets may be lost, reordered and
    duplicated, timers fire at any time and leaders are demoted at any time, as long as no follower
    steps down because its metadata server died, two different nodes are never leaders of the same
    term at once. *)
Theorem election_safety emin period grace n is_elector w i j T :
  reachable (cluster_options emin period grace n) n is_elector votes_kept w ->
  leads i T w = true -> i <> j -> leads j T w = false.
Proof.
  intros Hr Hi Hij. apply not_true_is_false. intros Hj. apply Hij.
  unfold leads in Hi, Hj.
  destruct (nodes w !! i) as [si|] eqn:Ei; [|done]. destruct (nodes w !! j) as [sj|] eqn:Ej; [|done].
  apply andb_true_iff in Hi as [Ti%bool_decide_eq_true Ci], Hj as [Tj%bool_decide_eq_true Cj].
  destruct (reachable_inv _ _ _ _ Hr) as (V & W & HV & Hok & _).
  pose proof (world_len _ _ (cluster_wf _ _ _ _ _ Hr)) as Hlen.
  apply (leaders_agree n V W i j si sj); try done; try (rewrite <-Hlen; by eapply lookup_lt_Some).
  - by apply Hok.
  - by apply Hok.
  - lia.
Qed.

(** the term of a node never decreases, whatever happens. *)
Theorem terms_never_decrease opt n is_elector allowed e w w' i s :
  reachable opt n is_elector allowed w -> exec opt e w = Next w' -> nodes w !! i = Some s ->
  exists s', nodes w' !! i = Some s' /\ current_term s <= current_term s'.
Proof.
  intros Hr E Hs. pose proof (cluster_wf _ _ _ _ _ Hr) as Hwf.
  pose proof (exec_cases opt e w) as Hc. rewrite E in Hc.
  destruct Hc as (k & f & sk & sk' & effects & Hh & Hk & Hf & ->). simpl.
  destruct (decide (k = i)) as [->|Hki].
  - exists sk'. simplify_eq. split.
    + apply list_lookup_insert_eq. by eapply lookup_lt_Some.
    + by apply (handler_term n opt e w i f s (sk', effects)).
  - exists s. rewrite list_lookup_insert_ne by done. done.
Qed.

(** The assertions of checkTerm() and of heartbeat() always hold; the only assertion that can
    fail is that of rpcAppend(), on an AppendEntries packet, not newer than its own term, that
    reaches a leader. *)
Theorem only_append_asserts opt n is_elector allowed e w :
  reachable opt n is_elector allowed w -> exec opt e w = AssertionFailed -> assertion_case e w.
Proof.
  intros Hr E. pose proof (exec_cases opt e w) as Hc. rewrite E in Hc.
  destruct Hc as (i & f & s & Hh & Hs & Hf).
  pose proof (handler_wf n opt e w i f s (cluster_wf _ _ _ _ _ Hr) Hh Hs) as Hk.
  by rewrite Hf in Hk.
Qed.

(** *** Runs of a cluster of three metadata servers *)

Definition opt3 : Options := cluster_options 300 20 5 3.
Definition three : World := start opt3 3 (fun _ => false).

(** Server 0 wins the first term with the vote of server 2; its first heartbeats are on the wire
    (packets 3 and 4). *)
Definition first_election : list Event :=
  [LoyaltyExpired 0; LoyaltyExpired 1; LoyaltyExpired 2; ElectionTimeout 0 7;
   Deliver 1 7; Deliver 2 7].

(** Server 1 asks for votes in the term 2 and wins with the vote of server 2. *)
Definition second_election : list Event :=
  [ElectionTimeout 1 7; ElectionTimeout 1 7; Deliver 8 7; Deliver 9 7].

(** Servers 0 and 1 are both candidates in the term 1. *)
Definition two_candidates : list Event :=
  [LoyaltyExpired 0; LoyaltyExpired 1; LoyaltyExpired 2; ElectionTimeout 0 7; ElectionTimeout 1 7].

(** After the first leader's heartbeat the other two follow it. *)
Definition first_heartbeat : list Event := first_election ++ [Deliver 3 7; Deliver 4 7].

Lemma election_safety_witness :
  exists w, exec_all opt3 first_heartbeat three = Next w /\
    leads 0 1 w = true /\ leads 1 1 w = false.
Proof.
  eexists. split; [vm_compute; reflexivity|]. split; [vm_compute; reflexivity|].
  apply (election_safety 300 20 5 3 (fun _ => false) _ 0 1 1); [|vm_compute; reflexivity|done].
  apply (exec_all_reachable opt3 3 (fun _ => false) votes_kept first_heartbeat three).
  - apply reach_start.
  - repeat constructor.
  - vm_compute. reflexivity.
Defined.

Lemma terms_never_decrease_witness :
  exists w w' s s', exec_all opt3 first_election three = Next w /\ exec opt3 (Deliver 3 7) w = Next w' /\
    nodes w !! 1%nat = Some s /\ nodes w' !! 1%nat = Some s' /\ current_term s <= current_term s'.
Proof.
  eexists _, _, _.
  edestruct (terms_never_decrease opt3 3 (fun _ => false) votes_kept (Deliver 3 7)) as (s' & Hs' & Hle).
  - apply (exec_all_reachable opt3 3 (fun _ => false) votes_kept first_election three).
    + apply reach_start.
    + repeat constructor.
    + vm_compute. reflexivity.
  - vm_compute. reflexivity.
  - instantiate (2 := 1%nat). vm_compute. reflexivity.
  - exists s'. split_and!; [vm_compute; reflexivity..|exact Hs'|exact Hle].
Defined.

(** A leader of the term 2 receives the heartbeat that the leader of the term 1 sent before. *)
Definition stale_heartbeat : list Event := first_election ++ second_election.

Lemma only_append_asserts_witness :
  exists w, exec_all opt3 stale_heartbeat three = Next w /\ assertion_case (Deliver 3 7) w.
Proof.
  eexists. split; [vm_compute; reflexivity|].
  apply (only_append_asserts opt3 3 (fun _ => false) votes_kept); [|vm_compute; reflexivity].
  apply (exec_all_reachable opt3 3 (fun _ => false) votes_kept stale_heartbeat three).
  - apply reach_start.
  - repeat constructor.
  - vm_compute. reflexivity.
Defined.

(** the assertion of rpcAppend() does fail in ordinary runs: a heartbeat of the leader of the
    term 1 that is delayed until its receiver has won the term 2 stops the new leader, although the
    handler means to answer such a packet with its own term. *)
Theorem stale_heartbeat_stops_leader :
  exists w, exec_all opt3 stale_heartbeat three = Next w /\ leads 1 2 w = true /\
    exec opt3 (Deliver 3 7) w = AssertionFailed.
Proof. eexists. split_and!; vm_compute; reflexivity. Qed.

(** a leader that is demoted forgets its vote but not its term, and may elect another leader of
    the same term: in a run of three servers, server 0 and then server 1 lead the term 1. *)
Theorem demoted_leader_votes_again :
  exists w1 w2, exec_all opt3 (two_candidates ++ [Deliver 1 7; Deliver 4 7]) three = Next w1 /\
    leads 0 1 w1 = true /\
    exec_all opt3 [DemoteLeader 0; Deliver 2 7; Deliver 7 7] w1 = Next w2 /\ leads 1 1 w2 = true.
Proof. eexists _, _. split_and!; vm_compute; reflexivity. Qed.

(** a follower whose metadata server dies forgets its vote too, and may vote twice in a term:
    in a run of three servers, servers 0 and 1 are both presidents of the term 1 at once. *)
Theorem dead_follower_two_presidents :
  exists w, exec_all opt3 (two_candidates ++
      [Deliver 1 7; MetadataDead 2; Deliver 3 7; Deliver 4 7; Deliver 5 7;
       Deliver 7 7; Deliver 9 7; Deliver 10 7; Deliver 11 7; Heartbeat 0; Heartbeat 1]) three = Next w /\
    presides 0 1 w = true /\ presides 1 1 w = true.
Proof. eexists. split_and!; vm_compute; reflexivity. Qed.
