(* ===== verification/Controller.v ===== *)
(** The uRaft controller: how the elections drive the local metadata server
    (src/uraft/uraftcontroller.h, src/uraft/uraftcontroller.cc).

    The controller runs the helper script's slow commands (promote, demote, dead) one at a time, starts
    and stops the floating IP manager, watches the metadata server and holds off after failed
    promotions.  Its record contains the uRaft node it derives from.  What the operating system answers
    (the result of fork(), the exit of a command, the answer of the script) is an argument of the
    handler; timers are armed flags. *)
From S2P Require Import Prelude URaft.

Inductive CommandType := kCmdNone | kCmdPromote | kCmdDemote | kCmdStatusDead.

#[export] Instance CommandType_eq_dec : EqDecision CommandType.
Proof. solve_decision. Defined.

Record Controller := MkController {
  raft : Raft;
  command_pid : Z;
  command_type : CommandType;
  is_demote_pending : bool;
  is_promote_pending : bool;
  node_alive : bool;
  promotion_failure_streak : Z;
  promotion_backoff_active : bool;
  dead_recovery_pending : bool;
  floating_ip : bool;             (* haFloatingIpManager is running *)
  cmd_timeout_timer : bool;
  promotion_backoff_timer : bool;
  dead_recovery_timer : bool;
}.

(** Assignments to the fields. *)
Definition with_raft s c := MkController s (command_pid c) (command_type c) (is_demote_pending c)
  (is_promote_pending c) (node_alive c) (promotion_failure_streak c) (promotion_backoff_active c)
  (dead_recovery_pending c) (floating_ip c) (cmd_timeout_timer c) (promotion_backoff_timer c)
  (dead_recovery_timer c).
Definition with_command pid t c := MkController (raft c) pid t (is_demote_pending c)
  (is_promote_pending c) (node_alive c) (promotion_failure_streak c) (promotion_backoff_active c)
  (dead_recovery_pending c) (floating_ip c) (cmd_timeout_timer c) (promotion_backoff_timer c)
  (dead_recovery_timer c).
Definition with_demote_pending b c := MkController (raft c) (command_pid c) (command_type c) b
  (is_promote_pending c) (node_alive c) (promotion_failure_streak c) (promotion_backoff_active c)
  (dead_recovery_pending c) (floating_ip c) (cmd_timeout_timer c) (promotion_backoff_timer c)
  (dead_recovery_timer c).
Definition with_promote_pending b c := MkController (raft c) (command_pid c) (command_type c)
  (is_demote_pending c) b (node_alive c) (promotion_failure_streak c) (promotion_backoff_active c)
  (dead_recovery_pending c) (floating_ip c) (cmd_timeout_timer c) (promotion_backoff_timer c)
  (dead_recovery_timer c).
Definition with_alive b c := MkController (raft c) (command_pid c) (command_type c)
  (is_demote_pending c) (is_promote_pending c) b (promotion_failure_streak c)
  (promotion_backoff_active c) (dead_recovery_pending c) (floating_ip c) (cmd_timeout_timer c)
  (promotion_backoff_timer c) (dead_recovery_timer c).
Definition with_backoff streak active timer c := MkController (raft c) (command_pid c)
  (command_type c) (is_demote_pending c) (is_promote_pending c) (node_alive c) streak active
  (dead_recovery_pending c) (floating_ip c) (cmd_timeout_timer c) timer (dead_recovery_timer c).
Definition with_recovery pending timer c := MkController (raft c) (command_pid c) (command_type c)
  (is_demote_pending c) (is_promote_pending c) (node_alive c) (promotion_failure_streak c)
  (promotion_backoff_active c) pending (floating_ip c) (cmd_timeout_timer c)
  (promotion_backoff_timer c) timer.
Definition with_floating_ip b c := MkController (raft c) (command_pid c) (command_type c)
  (is_demote_pending c) (is_promote_pending c) (node_alive c) (promotion_failure_streak c)
  (promotion_backoff_active c) (dead_recovery_pending c) b (cmd_timeout_timer c)
  (promotion_backoff_timer c) (dead_recovery_timer c).
Definition with_timeout b c := MkController (raft c) (command_pid c) (command_type c)
  (is_demote_pending c) (is_promote_pending c) (node_alive c) (promotion_failure_streak c)
  (promotion_backoff_active c) (dead_recovery_pending c) (floating_ip c) b
  (promotion_backoff_timer c) (dead_recovery_timer c).

(** ** Slow commands *)

(** setSlowCommandTimeout() and runSlowCommand(); [fork] is what fork() returns to the parent (-1 on
    failure).  The type is set by the callers when the command has started. *)
Definition start_command (t : CommandType) (fork : Z) (c : Controller) : Controller :=
  let c := with_timeout true c in
  if fork =? -1 then with_command (-1) (command_type c) c else with_command fork t c.

(** stopSlowCommand() *)
Definition stopSlowCommand (c : Controller) : Controller :=
  if command_pid c <? 0 then c else with_command (-1) kCmdNone c.

Definition startFloatingIpManager (c : Controller) : Controller := with_floating_ip true c.
Definition stopFloatingIpManager (c : Controller) : Controller := with_floating_ip false c.

(** nodePromote() *)
Definition nodePromote (fork : Z) (c : Controller) : Controller :=
  if promotion_backoff_active c then c
  else if 0 <=? command_pid c then
    if bool_decide (command_type c = kCmdDemote) then with_promote_pending true c else c
  else start_command kCmdPromote fork c.

(** nodeDemote() *)
Definition nodeDemote (fork : Z) (c : Controller) : Controller :=
  let c := stopFloatingIpManager c in
  if 0 <=? command_pid c then
    if bool_decide (command_type c = kCmdPromote) then with_demote_pending true c else c
  else start_command kCmdDemote fork c.

(** The callbacks a uRaft handler makes. *)
Definition callback (fork : Z) (e : Effect) (c : Controller) : Controller :=
  match e with
  | NodePromote => nodePromote fork c
  | NodeDemote => nodeDemote fork c
  | Send _ _ | NodeLeader _ => c
  end.

Definition callbacks (fork : Z) (effects : list Effect) (c : Controller) : Controller :=
  foldl (fun c e => callback fork e c) c effects.

(** ** Failed promotions *)

Definition computePromotionBackoffMs (streak : Z) : Z :=
  if streak <=? 0 then 0
  else
    let capped := Z.min (streak - 1) 6 in
    let promotionBackoffTimeMs := 1000 * Z.shiftl 1 capped in
    Z.min promotionBackoffTimeMs 60000.

Definition startPromotionBackoff (reset : bool) (c : Controller) : Controller :=
  if reset then with_backoff 0 false false c
  else
    let streak := promotion_failure_streak c + 1 in
    let backoff_ms := computePromotionBackoffMs streak in
    if backoff_ms <=? 0
    then with_backoff streak (promotion_backoff_active c) (promotion_backoff_timer c) c
    else with_raft (set_block_promotion true (raft c)) (with_backoff streak true true c).

(** handlePromotionFailure(); demoteLeader() is a Raft-only step down and makes no callback. *)
Definition handlePromotionFailure (c : Controller) : Controller :=
  let c := with_raft (demoteLeader (raft c)).1 c in
  let c := with_demote_pending true c in
  startPromotionBackoff false c.

(** ** Timers *)

(** checkCommandStatus(); [exited] is the result of waitpid(): [None] while the command runs,
    otherwise whether it exited with the status 0. *)
Definition checkCommandStatus (exited : option bool) (fork : Z) (c : Controller) : Controller :=
  if command_pid c <? 0 then c
  else match exited with
  | None => c
  | Some commandSucceeded =>
    let c := with_timeout false c in
    match command_type c with
    | kCmdDemote =>
      let c := with_command (-1) kCmdNone c in
      if is_promote_pending c then
        let c := if bool_decide (type (raft c) = kLeader) then nodePromote fork c else c in
        with_promote_pending false c
      else c
    | kCmdPromote =>
      let c := if commandSucceeded then
                 let c := startPromotionBackoff true c in
                 if bool_decide (type (raft c) = kLeader) then startFloatingIpManager c
                 else nodeDemote fork c
               else handlePromotionFailure c in
      let c := with_command (-1) kCmdNone c in
      if is_demote_pending c then
        let c := if bool_decide (type (raft c) = kLeader) then c else nodeDemote fork c in
        with_demote_pending false c
      else c
    | kCmdStatusDead => with_command (-1) kCmdNone c
    | kCmdNone => c
    end
  end.

Definition startDeadMetadataHandler (fork : Z) (c : Controller) : Controller :=
  let c := stopFloatingIpManager c in
  if 0 <=? command_pid c then c else start_command kCmdStatusDead fork c.

Definition cancelDeadRecovery (c : Controller) : Controller := with_recovery false false c.

Definition scheduleDeadRecovery (c : Controller) : Controller :=
  if dead_recovery_pending c then c else with_recovery true true c.

(** The handler of the recovery timer. *)
Definition deadRecoveryTimeout (fork : Z) (c : Controller) : Controller :=
  let c := with_recovery (dead_recovery_pending c) false c in
  if node_alive c then cancelDeadRecovery c
  else if (0 <=? command_pid c) || negb (bool_decide (command_type c = kCmdNone))
  then scheduleDeadRecovery (cancelDeadRecovery c)
  else nodeDemote fork (with_recovery false (dead_recovery_timer c) c).

(** checkNodeStatus(); [answer] is the answer of the script's isalive command, [None] when the command
    fails or answers something else.  stepDownToFollower() is Raft-only and makes no callback. *)
Definition checkNodeStatus (answer : option bool) (fork : Z) (c : Controller) : Controller :=
  if bool_decide (command_type c = kCmdNone) then
    let is_alive := default (node_alive c) answer in
    let c := with_raft (set_block_promotion (negb is_alive || promotion_backoff_active c) (raft c)) c in
    if negb (Bool.eqb is_alive (node_alive c)) then
      let c := if is_alive then cancelDeadRecovery c
               else
                 let c := with_raft (stepDownToFollower kRaftOnly 0 (raft c)).1 c in
                 let c := startDeadMetadataHandler fork c in
                 scheduleDeadRecovery c in
      with_alive is_alive c
    else c
  else c.

(** The handler of the timer of setSlowCommandTimeout(). *)
Definition commandTimeout (c : Controller) : Controller :=
  let c := with_timeout false c in
  let c := if bool_decide (command_type c = kCmdPromote) then handlePromotionFailure c else c in
  stopSlowCommand c.

(** The handler of the back-off timer. *)
Definition backoffTimeout (c : Controller) : Controller :=
  with_backoff (promotion_failure_streak c) false false c.

(** ** The node as a whole *)

(** The constructor and init(). *)
Definition controller_init (s : Raft) : Controller :=
  MkController (set_block_promotion true s) (-1) kCmdNone false false false 0 false false false
    false false false.

Inductive NodeEvent :=
  | RaftElectionTimeout (version : Z)
  | RaftHeartbeat
  | RaftPacket (from : nat) (r : Rpc) (version : Z)
  | RaftLoyaltyExpired
  | CheckCommandStatus (exited : option bool)
  | CheckNodeStatus (answer : option bool)
  | CommandTimeout
  | BackoffTimeout
  | DeadRecoveryTimeout.

(** A uRaft handler with its callbacks. *)
Definition raft_step (fork : Z) (f : Raft -> outcome) (c : Controller) : option Controller :=
  match f (raft c) with
  | Some (s, effects) => Some (callbacks fork effects (with_raft s c))
  | None => None
  end.

(** One event of the node's loop; [None] when a uRaft assertion fails or the timer is not armed. *)
Definition node_step (opt : Options) (fork : Z) (e : NodeEvent) (c : Controller) : option Controller :=
  match e with
  | RaftElectionTimeout version =>
    if election_timer (raft c)
    then raft_step fork (fun s => Some (electionTimeout opt version s)) c else None
  | RaftHeartbeat => raft_step fork (heartbeat opt) c
  | RaftPacket from r version => raft_step fork (receivePacket opt from r version) c
  | RaftLoyaltyExpired => Some (with_raft (set_loyalty false (raft c)) c)
  | CheckCommandStatus exited => Some (checkCommandStatus exited fork c)
  | CheckNodeStatus answer => Some (checkNodeStatus answer fork c)
  | CommandTimeout => if cmd_timeout_timer c then Some (commandTimeout c) else None
  | BackoffTimeout => if promotion_backoff_timer c then Some (backoffTimeout c) else None
  | DeadRecoveryTimeout => if dead_recovery_timer c then Some (deadRecoveryTimeout fork c) else None
  end.

Fixpoint node_run (opt : Options) (es : list (NodeEvent * Z)) (c : Controller) : option Controller :=
  match es with
  | [] => Some c
  | (e, fork) :: es => c' ← node_step opt fork e c; node_run opt es c'
  end.

(** ** The invariant *)

(** A command has a type exactly while it runs. *)
Record ctl_ok (c : Controller) : Prop := MkCtlOk {
  ctl_command : 0 <= command_pid c <-> command_type c <> kCmdNone;
  ctl_streak : 0 <= promotion_failure_streak c;
}.

(** What fork() may return to the parent. *)
Definition fork_result (pid : Z) : Prop := pid = -1 \/ 0 < pid.

(** The invariant, and that a running command is left alone. *)
Definition keeps (c c' : Controller) : Prop :=
  ctl_ok c' /\ (0 <= command_pid c -> command_pid c' = command_pid c /\ command_type c' = command_type c).

Lemma keeps_refl c : ctl_ok c -> keeps c c.
Proof. by split. Qed.

Lemma keeps_trans c1 c2 c3 : keeps c1 c2 -> keeps c2 c3 -> keeps c1 c3.
Proof.
  intros [H1 K1] [H2 K2]. split; [done|]. intros H. destruct (K1 H) as [E1 E2].
  rewrite <-E1, <-E2. apply K2. lia.
Qed.

(** Changes of the other fields. *)
Lemma keeps_frame c c' :
  ctl_ok c -> command_pid c' = command_pid c -> command_type c' = command_type c ->
  0 <= promotion_failure_streak c' -> keeps c c'.
Proof. intros [H1 H2] E1 E2 E3. split; [|done]. split; [by rewrite E1, E2|done]. Qed.

Lemma start_command_keeps t fork c :
  ctl_ok c -> fork_result fork -> command_pid c < 0 -> t <> kCmdNone -> keeps c (start_command t fork c).
Proof.
  intros [H1 H2] Hf Hp Ht. unfold start_command. split; [|lia].
  destruct (Z.eqb_spec fork (-1)) as [->|Hn]; split; simpl; try done.
  - split; [lia|]. intros Hc%H1. lia.
  - destruct Hf; [done|]. split; [done|lia].
Qed.

Lemma nodePromote_keeps fork c : ctl_ok c -> fork_result fork -> keeps c (nodePromote fork c).
Proof.
  intros H Hf. unfold nodePromote. destruct (promotion_backoff_active c); [by apply keeps_refl|].
  destruct (Z.leb_spec 0 (command_pid c)); [|by apply start_command_keeps].
  destruct (bool_decide _); [|by apply keeps_refl]. apply keeps_frame; try done. apply H.
Qed.

Lemma nodeDemote_keeps fork c : ctl_ok c -> fork_result fork -> keeps c (nodeDemote fork c).
Proof.
  intros H Hf. unfold nodeDemote.
  assert (keeps c (stopFloatingIpManager c)) as Hs by (apply keeps_frame; try done; apply H).
  apply (keeps_trans _ _ _ Hs). destruct Hs as [Hs _]. revert Hs. generalize (stopFloatingIpManager c).
  clear c H. intros c H. destruct (Z.leb_spec 0 (command_pid c)); [|by apply start_command_keeps].
  destruct (bool_decide _); [|by apply keeps_refl]. apply keeps_frame; try done. apply H.
Qed.

Lemma callbacks_keeps fork effects c :
  ctl_ok c -> fork_result fork -> keeps c (callbacks fork effects c).
Proof.
  intros H Hf. revert c H. induction effects as [|e effects IH]; intros c H; [by apply keeps_refl|].
  simpl. assert (keeps c (callback fork e c)) as Hc.
  { destruct e; simpl; auto using keeps_refl, nodePromote_keeps, nodeDemote_keeps. }
  apply (keeps_trans _ _ _ Hc). apply IH, Hc.
Qed.

Lemma raft_step_keeps fork f c c' :
  ctl_ok c -> fork_result fork -> raft_step fork f c = Some c' -> keeps c c'.
Proof.
  intros H Hf. unfold raft_step. destruct (f (raft c)) as [[s effects]|]; [|done].
  intros <-%(inj Some).
  assert (keeps c (with_raft s c)) as Hs by (apply keeps_frame; try done; apply H).
  apply (keeps_trans _ _ _ Hs). apply callbacks_keeps; [apply Hs|done].
Qed.

(** The formula of the back-off. *)
Lemma backoff_formula streak :
  1 <= streak -> computePromotionBackoffMs streak = Z.min (1000 * 2 ^ (streak - 1)) 60000.
Proof.
  intros Hs. unfold computePromotionBackoffMs. replace (streak <=? 0) with false by lia.
  rewrite Z.shiftl_mul_pow2, Z.mul_1_l by lia.
  destruct (Z.le_gt_cases (streak - 1) 6) as [Hc|Hc].
  - by rewrite (Z.min_l (streak - 1) 6) by lia.
  - rewrite (Z.min_r (streak - 1) 6) by lia.
    pose proof (Z.pow_le_mono_r 2 7 (streak - 1)). change (2 ^ 7) with 128 in *.
    change (2 ^ 6) with 64. lia.
Qed.

Lemma backoff_positive streak : 1 <= streak -> 0 < computePromotionBackoffMs streak.
Proof.
  intros Hs. rewrite backoff_formula by done. pose proof (Z.pow_pos_nonneg 2 (streak - 1)). lia.
Qed.

(** What a failed promotion does. *)
Lemma handlePromotionFailure_spec c :
  ctl_ok c -> let c' := handlePromotionFailure c in
  keeps c c' /\ type (raft c') = kFollower /\ block_leader_promotion (raft c') = true /\
  promotion_backoff_active c' = true /\ is_demote_pending c' = true /\
  promotion_failure_streak c' = promotion_failure_streak c + 1 /\
  promotion_backoff_timer c' = true /\ floating_ip c' = floating_ip c.
Proof.
  intros H. cbv zeta. unfold handlePromotionFailure, startPromotionBackoff. simpl.
  pose proof (ctl_streak _ H). pose proof (backoff_positive (promotion_failure_streak c + 1)).
  replace (_ <=? 0) with false by lia. simpl. split_and!; try done.
  - apply keeps_frame; simpl; try done. lia.
  - unfold demoteLeader. destruct (bool_decide _) eqn:E; simpl; [by apply bool_decide_eq_true in E|done].
Qed.

Lemma checkNodeStatus_keeps answer fork c :
  ctl_ok c -> fork_result fork -> keeps c (checkNodeStatus answer fork c).
Proof.
  intros H Hf. unfold checkNodeStatus.
  destruct (bool_decide (command_type c = kCmdNone)) eqn:Ec; [|by apply keeps_refl].
  set (c1 := with_raft _ c).
  assert (keeps c c1) as H1 by (apply keeps_frame; try done; apply H).
  apply (keeps_trans _ _ _ H1). destruct H1 as [H1 _]. clearbody c1. cbv zeta.
  destruct (negb _); [|by apply keeps_refl]. destruct (default _ _).
  { apply keeps_frame; try done. apply H1. }
  set (c2 := with_raft _ c1).
  assert (keeps c1 c2) as H2 by (apply keeps_frame; try done; apply H1).
  apply (keeps_trans _ _ _ H2). destruct H2 as [H2 _]. clearbody c2.
  assert (keeps c2 (startDeadMetadataHandler fork c2)) as H3.
  { unfold startDeadMetadataHandler. cbn [command_pid stopFloatingIpManager with_floating_ip].
    assert (keeps c2 (stopFloatingIpManager c2)) as Hs by (apply keeps_frame; try done; apply H2).
    destruct (Z.leb_spec 0 (command_pid c2)); [done|].
    apply (keeps_trans _ _ _ Hs). apply start_command_keeps; try done; apply Hs. }
  apply (keeps_trans _ _ _ H3). destruct H3 as [H3 _].
  apply keeps_frame; try done; unfold scheduleDeadRecovery;
    destruct (dead_recovery_pending _); simpl; try done; apply H3.
Qed.

Lemma deadRecoveryTimeout_keeps fork c :
  ctl_ok c -> fork_result fork -> keeps c (deadRecoveryTimeout fork c).
Proof.
  intros H Hf. unfold deadRecoveryTimeout. cbn [node_alive command_pid command_type with_recovery].
  assert (forall b1 b2, keeps c (with_recovery b1 b2 c)) as Hr
    by (intros; apply keeps_frame; try done; apply H).
  destruct (node_alive c); [apply Hr|]. destruct (_ || _); [apply Hr|].
  eapply keeps_trans; [apply (Hr false false)|]. apply nodeDemote_keeps; [apply Hr|done].
Qed.

(** The end of a command, by itself or by its timeout. *)
Lemma ended_ok c : ctl_ok c -> ctl_ok (with_command (-1) kCmdNone c).
Proof. intros H. split; simpl; [split; [lia|done]|apply H]. Qed.

Lemma checkCommandStatus_ok exited fork c :
  ctl_ok c -> fork_result fork -> ctl_ok (checkCommandStatus exited fork c).
Proof.
  intros H Hf. unfold checkCommandStatus. destruct (command_pid c <? 0); [done|].
  destruct exited as [ok|]; [|done]. cbn [command_type with_timeout].
  set (c1 := with_timeout false c). assert (ctl_ok c1) as H1 by by destruct H.
  clearbody c1. destruct (command_type c).
  - done.
  - set (c2 := if ok then _ else _). assert (ctl_ok c2) as H2.
    { unfold c2. destruct ok; [|by apply handlePromotionFailure_spec].
      cbn [startPromotionBackoff]. set (c3 := with_backoff _ _ _ c1).
      assert (ctl_ok c3) as H3 by by destruct H1.
      cbv zeta. destruct (bool_decide _); [by destruct H3|]. by apply nodeDemote_keeps. }
    clearbody c2. cbv zeta. apply ended_ok in H2. destruct (is_demote_pending _); [|done].
    destruct (bool_decide _); [by destruct H2|].
    by destruct (nodeDemote_keeps fork _ H2 Hf) as [[] _].
  - apply ended_ok in H1. cbv zeta. destruct (is_promote_pending _); [|done].
    destruct (bool_decide _); [|by destruct H1].
    by destruct (nodePromote_keeps fork _ H1 Hf) as [[] _].
  - by apply ended_ok.
Qed.

Lemma commandTimeout_ok c : ctl_ok c -> ctl_ok (commandTimeout c).
Proof.
  intros H. unfold commandTimeout, stopSlowCommand. cbv zeta.
  set (c1 := with_timeout false c). assert (ctl_ok c1) as H1 by by destruct H. clearbody c1.
  set (c2 := if bool_decide _ then _ else _).
  assert (ctl_ok c2) by (unfold c2; destruct (bool_decide _); [by apply handlePromotionFailure_spec|done]).
  destruct (command_pid c2 <? 0); [done|]. by apply ended_ok.
Qed.

(** The events that may end a command. *)
Definition ends_command (e : NodeEvent) : bool :=
  match e with CheckCommandStatus (Some _) | CommandTimeout => true | _ => false end.

Lemma node_step_keeps opt fork e c c' :
  ctl_ok c -> fork_result fork -> node_step opt fork e c = Some c' ->
  ctl_ok c' /\ (ends_command e = false -> keeps c c').
Proof.
  intros H Hf Hs. destruct e as [v| |from r v| |exited|answer| | |]; simpl in Hs.
  - destruct (election_timer _); [|done]. pose proof (raft_step_keeps _ _ _ _ H Hf Hs) as Hk.
    by split; [apply Hk|].
  - pose proof (raft_step_keeps _ _ _ _ H Hf Hs) as Hk. by split; [apply Hk|].
  - pose proof (raft_step_keeps _ _ _ _ H Hf Hs) as Hk. by split; [apply Hk|].
  - simplify_eq. assert (keeps c (with_raft (set_loyalty false (raft c)) c)) as Hk
      by (apply keeps_frame; try done; apply H). by split; [apply Hk|].
  - apply (inj Some) in Hs as <-. split; [by apply checkCommandStatus_ok|].
    destruct exited; [done|]. intros _. unfold checkCommandStatus.
    destruct (_ <? _); by apply keeps_refl.
  - apply (inj Some) in Hs as <-. pose proof (checkNodeStatus_keeps answer fork c H Hf) as Hk.
    by split; [apply Hk|].
  - destruct (cmd_timeout_timer c); [|done]. apply (inj Some) in Hs as <-.
    split; [by apply commandTimeout_ok|done].
  - destruct (promotion_backoff_timer c); [|done]. apply (inj Some) in Hs as <-.
    assert (keeps c (backoffTimeout c)) as Hk by (apply keeps_frame; try done; apply H).
    by split; [apply Hk|].
  - destruct (dead_recovery_timer c); [|done]. apply (inj Some) in Hs as <-.
    pose proof (deadRecoveryTimeout_keeps fork c H Hf) as Hk. by split; [apply Hk|].
Qed.

(** The states of a node, started from the uRaft state [s]. *)
Inductive node_reachable (opt : Options) (s : Raft) : Controller -> Prop :=
  | node_start : node_reachable opt s (controller_init s)
  | node_next c c' e fork :
      node_reachable opt s c -> fork_result fork -> node_step opt fork e c = Some c' ->
      node_reachable opt s c'.

Lemma node_reachable_ok opt s c : node_reachable opt s c -> ctl_ok c.
Proof.
  induction 1 as [|c c' e fork _ IH Hf Hs]; [split; simpl; [split; [lia|done]|lia]|].
  exact (proj1 (node_step_keeps opt fork e c c' IH Hf Hs)).
Qed.

Lemma node_run_reachable opt s es c c' :
  node_reachable opt s c -> Forall (fun x => fork_result x.2) es ->
  node_run opt es c = Some c' -> node_reachable opt s c'.
Proof.
  intros H Hes. revert c H. induction Hes as [|[e fork] es Hf Hes IH]; intros c H; simpl; [naive_solver|].
  destruct (node_step opt fork e c) as [c1|] eqn:E; [|done]. simpl. apply IH. by eapply node_next.
Qed.

(** ** A blocked node *)

Lemma receivePacket_follower opt from r version s x :
  type s = kFollower -> receivePacket opt from r version s = Some x -> type x.1 = kFollower.
Proof.
  intros Ht. unfold receivePacket. destruct (checkTerm r s) as [[s1 e1]|] eqn:Hc; [|done].
  assert (type s1 = kFollower) as Ht1.
  { unfold checkTerm in Hc. destruct (_ <? _); [|naive_solver].
    destruct (_ && _); [done|]. apply (inj Some) in Hc. by change s1 with (s1, e1).1; rewrite <-Hc. }
  destruct r.
  - destruct (rpcAppend _ _ _ _ _ _) as [y|] eqn:E; [|done]. intros <-%(inj Some). cbn [fst].
    unfold rpcAppend in E. destruct (bool_decide _); [done|].
    destruct (_ <? _); apply (inj Some) in E as <-; done.
  - intros <-%(inj Some). cbn [fst]. unfold rpcReqVote. simpl.
    destruct (bool_decide (voted_for s1 = None) && _); by destruct (_ && _).
  - intros <-%(inj Some). cbn [fst]. unfold rpcAppendResponse. by repeat case_match.
  - intros <-%(inj Some). cbn [fst]. unfold rpcReqVoteResponse. rewrite Ht1. simpl. by case_match.
Qed.

Lemma heartbeat_follower opt s x :
  type s = kFollower -> heartbeat opt s = Some x -> type x.1 = kFollower.
Proof.
  intros Ht. unfold heartbeat. change (type s) with (type (tick s)) in Ht.
  revert Ht. generalize (tick s). clear s. intros s Ht. cbv zeta.
  rewrite Ht, bool_decide_eq_true_2 by done. destruct (president s); [done|].
  intros <-%(inj Some). unfold heartbeat_sends. by rewrite Ht.
Qed.

Lemma callbacks_raft fork effects c : raft (callbacks fork effects c) = raft c.
Proof.
  revert c. induction effects as [|e effects IH]; intros c; [done|]. simpl.
  rewrite IH. destruct e; try done; simpl.
  - unfold nodePromote, start_command. by repeat case_match.
  - unfold nodeDemote, start_command. by repeat case_match.
Qed.

Lemma nodeDemote_raft fork c : raft (nodeDemote fork c) = raft c.
Proof. apply (callbacks_raft fork [NodeDemote]). Qed.

Lemma nodePromote_raft fork c : raft (nodePromote fork c) = raft c.
Proof. apply (callbacks_raft fork [NodePromote]). Qed.

Lemma demoteLeader_follower s : type (demoteLeader s).1 = kFollower.
Proof. unfold demoteLeader. destruct (bool_decide _) eqn:E; [by apply bool_decide_eq_true in E|done]. Qed.

Lemma handlePromotionFailure_follower c : type (raft (handlePromotionFailure c)) = kFollower.
Proof.
  unfold handlePromotionFailure, startPromotionBackoff. cbv zeta.
  destruct (_ <=? 0); apply demoteLeader_follower.
Qed.

Lemma commandTimeout_follower c : type (raft c) = kFollower -> type (raft (commandTimeout c)) = kFollower.
Proof.
  intros H. unfold commandTimeout, stopSlowCommand. cbv zeta.
  destruct (bool_decide _), (_ <? 0); try done; apply handlePromotionFailure_follower.
Qed.

Lemma checkNodeStatus_follower answer fork c :
  type (raft c) = kFollower -> type (raft (checkNodeStatus answer fork c)) = kFollower.
Proof.
  intros H. unfold checkNodeStatus, startDeadMetadataHandler, scheduleDeadRecovery, start_command.
  by repeat case_match.
Qed.

Lemma deadRecoveryTimeout_follower fork c :
  type (raft c) = kFollower -> type (raft (deadRecoveryTimeout fork c)) = kFollower.
Proof.
  intros H. unfold deadRecoveryTimeout. cbv zeta. destruct (node_alive _); [done|].
  destruct (_ || _); [done|]. by rewrite nodeDemote_raft.
Qed.

Lemma checkCommandStatus_follower exited fork c :
  type (raft c) = kFollower -> type (raft (checkCommandStatus exited fork c)) = kFollower.
Proof.
  intros H. unfold checkCommandStatus. destruct (_ <? 0); [done|]. destruct exited as [ok|]; [|done].
  cbv zeta. destruct (command_type _); try done.
  - set (c2 := if ok then _ else _). assert (type (raft c2) = kFollower) as H2.
    { unfold c2. destruct ok; [|apply handlePromotionFailure_follower].
      destruct (bool_decide _); [done|]. by rewrite nodeDemote_raft. }
    clearbody c2. destruct (is_demote_pending _); [|done]. cbn [raft with_demote_pending].
    destruct (bool_decide _); [done|]. by rewrite nodeDemote_raft.
  - destruct (is_promote_pending _); [|done]. cbn [raft with_promote_pending].
    destruct (bool_decide _); [|done]. by rewrite nodePromote_raft.
Qed.

(** ** Properties *)

(** The controller runs one slow command at a time.  In every state of a node a command has a
    type exactly while it runs, and no event but its own end or its timeout touches it: a request
    that arrives meanwhile is postponed or dropped. *)
Theorem running_command_kept opt s c c' e fork :
  node_reachable opt s c -> fork_result fork -> node_step opt fork e c = Some c' ->
  (0 <= command_pid c' <-> command_type c' <> kCmdNone) /\
  (0 <= command_pid c -> ends_command e = false ->
   command_pid c' = command_pid c /\ command_type c' = command_type c).
Proof.
  intros Hr Hf Hs. apply node_reachable_ok in Hr.
  destruct (node_step_keeps _ _ _ _ _ Hr Hf Hs) as [Hok Hk].
  split; [apply Hok|]. intros Hp He. by apply (Hk He).
Qed.

(** C16: what the end of a promotion leads to.  When it succeeded and the node is still the leader, the
    floating IP is served and no command runs.  Otherwise the node is not the leader, the
    floating IP is not served and the metadata server is being demoted; after a failed promotion the
    node has stepped down, cannot become a candidate and holds off. *)
Theorem promotion_outcome opt s c fork succeeded :
  node_reachable opt s c -> 0 < fork -> command_type c = kCmdPromote ->
  let c' := checkCommandStatus (Some succeeded) fork c in
  is_demote_pending c' = false /\
  (if succeeded && bool_decide (type (raft c) = kLeader)
   then floating_ip c' = true /\ command_type c' = kCmdNone /\ promotion_failure_streak c' = 0
   else floating_ip c' = false /\ command_pid c' = fork /\ command_type c' = kCmdDemote /\
        type (raft c') <> kLeader) /\
  (succeeded = false -> type (raft c') = kFollower /\ block_leader_promotion (raft c') = true /\
     promotion_backoff_active c' = true).
Proof.
  intros Hr Hf Ht. apply node_reachable_ok in Hr. cbv zeta. unfold checkCommandStatus.
  assert (0 <= command_pid c) as Hp by (apply Hr; by rewrite Ht).
  replace (command_pid c <? 0) with false by lia. cbn [command_type with_timeout]. rewrite Ht.
  assert ((fork =? -1) = false) as Ef by lia.
  destruct succeeded; cbv beta iota zeta.
  - cbn [startPromotionBackoff raft with_backoff with_timeout andb].
    destruct (bool_decide (type (raft c) = kLeader)) eqn:El.
    + simpl. destruct (is_demote_pending c) eqn:Ep; [|done]. by rewrite El.
    + apply bool_decide_eq_false in El as El'. unfold nodeDemote, start_command.
      simpl. replace (0 <=? command_pid c) with true by lia. rewrite Ht. simpl.
      rewrite El. simpl. by rewrite Ef.
  - set (c1 := with_timeout false c). assert (ctl_ok c1) as H1 by by destruct Hr.
    destruct (handlePromotionFailure_spec c1 H1) as (Hk & Hft & Hb & Hba & Hd & _).
    generalize dependent (handlePromotionFailure c1). intros c2 Hk Hft Hb Hba Hd.
    cbn [is_demote_pending with_command raft]. rewrite Hd, Hft, bool_decide_eq_false_2 by done.
    unfold nodeDemote, start_command. simpl. rewrite Ef. simpl. rewrite Hft. done.
Qed.

(** the time a node holds off after the [streak]-th failed promotion in a row is one second,
    doubled with every further failure, and at most a minute. *)
Theorem promotion_backoff streak :
  computePromotionBackoffMs streak =
  if 1 <=? streak then Z.min (1000 * 2 ^ (streak - 1)) 60000 else 0.
Proof.
  destruct (Z.leb_spec 1 streak); [by apply backoff_formula|].
  unfold computePromotionBackoffMs. by replace (streak <=? 0) with true by lia.
Qed.

(** when the watchdog finds the metadata server dead, the node stops leading, cannot become a
    candidate, stops serving the floating IP and starts the script that releases it, and the
    recovery is scheduled. *)
Theorem dead_metadata_handled opt s c fork :
  node_reachable opt s c -> 0 < fork -> node_alive c = true -> command_type c = kCmdNone ->
  let c' := checkNodeStatus (Some false) fork c in
  type (raft c') = kFollower /\ president (raft c') = false /\
  block_leader_promotion (raft c') = true /\ floating_ip c' = false /\
  command_pid c' = fork /\ command_type c' = kCmdStatusDead /\
  dead_recovery_pending c' = true /\ node_alive c' = false.
Proof.
  intros Hr Hf Ha Ht. apply node_reachable_ok in Hr. cbv zeta.
  assert (command_pid c < 0) as Hp by (apply Z.lt_nge; intros H%Hr; done).
  unfold checkNodeStatus, startDeadMetadataHandler, scheduleDeadRecovery, start_command.
  rewrite Ht. simpl. rewrite Ha. simpl. replace (0 <=? command_pid c) with false by lia.
  replace (fork =? -1) with false by lia. simpl. by destruct (dead_recovery_pending c) eqn:E.
Qed.

(** a follower whose promotion is blocked stays a follower, whatever packet, timer or callback
    comes. *)
Theorem blocked_stays_follower opt fork e c c' :
  block_leader_promotion (raft c) = true -> type (raft c) = kFollower ->
  node_step opt fork e c = Some c' -> type (raft c') = kFollower.
Proof.
  intros Hb Ht Hs.
  assert (forall f c', (forall s x, type s = kFollower -> block_leader_promotion s = true ->
      f s = Some x -> type x.1 = kFollower) ->
    raft_step fork f c = Some c' -> type (raft c') = kFollower) as Hraft.
  { intros f c'' Hf. unfold raft_step. destruct (f (raft c)) as [[s effects]|] eqn:E; [|done].
    intros <-%(inj Some). rewrite callbacks_raft. by apply (Hf _ _ Ht Hb E). }
  destruct e as [v| |from r v| |exited|answer| | |]; simpl in Hs.
  - destruct (election_timer _); [|done]. revert Hs. apply Hraft. intros s x Hs Hbl <-%(inj Some).
    unfold electionTimeout. simpl. by rewrite Hbl.
  - revert Hs. apply Hraft. intros s x Hs _. by apply heartbeat_follower.
  - revert Hs. apply Hraft. intros s x Hs _. by apply receivePacket_follower.
  - by simplify_eq.
  - apply (inj Some) in Hs as <-. by apply checkCommandStatus_follower.
  - apply (inj Some) in Hs as <-. by apply checkNodeStatus_follower.
  - destruct (cmd_timeout_timer c); [|done]. apply (inj Some) in Hs as <-. by apply commandTimeout_follower.
  - destruct (promotion_backoff_timer c); [|done]. by simplify_eq.
  - destruct (dead_recovery_timer c); [|done]. apply (inj Some) in Hs as <-.
    by apply deadRecoveryTimeout_follower.
Qed.

(** a timeout kills the running command but loses the request that waits for its end.  After
    the timeout of a promotion the demotion that handlePromotionFailure() asks for is pending, and a
    promotion that waits for a demotion stays pending after the timeout of the demotion; no
    command runs, so checkCommandStatus(), which starts pending requests, never does anything
    again. *)
Theorem timeout_drops_pending opt s c :
  node_reachable opt s c -> 0 <= command_pid c ->
  let c' := commandTimeout c in
  (command_type c = kCmdPromote -> is_demote_pending c' = true) /\
  is_promote_pending c' = is_promote_pending c /\ floating_ip c' = floating_ip c /\
  command_type c' = kCmdNone /\
  forall exited fork, checkCommandStatus exited fork c' = c'.
Proof.
  intros Hr Hp. apply node_reachable_ok in Hr. cbv zeta.
  assert (exists c2, commandTimeout c = with_command (-1) kCmdNone c2 /\
    (command_type c = kCmdPromote -> is_demote_pending c2 = true) /\
    is_promote_pending c2 = is_promote_pending c /\ floating_ip c2 = floating_ip c)
    as (c2 & -> & H1 & H2 & H3); [|split_and!; done].
  unfold commandTimeout, stopSlowCommand. cbv zeta. cbn [command_type with_timeout].
  set (c1 := with_timeout false c). assert (ctl_ok c1) as H1 by by destruct Hr.
  assert (is_promote_pending (handlePromotionFailure c1) = is_promote_pending c1) as Hpp.
  { unfold handlePromotionFailure, startPromotionBackoff. by destruct (_ <=? 0). }
  destruct (handlePromotionFailure_spec c1 H1) as ([_ Hk] & _ & _ & _ & Hd & _ & _ & Hfl).
  destruct (Hk Hp) as [Hpid _]. clear Hk.
  destruct (bool_decide _) eqn:Et.
  - replace (_ <? 0) with false by (rewrite Hpid; simpl; lia). eauto.
  - apply bool_decide_eq_false in Et. replace (_ <? 0) with false by (simpl; lia).
    exists c1. done.
Qed.

(** *** Runs of server 0 of a cluster of three *)

Definition opt_three : Options := cluster_options 300 20 5 3.
Definition server0 : Raft := init 3 0 opt_three false.

(** It is elected with the vote of server 2, becomes the president and is being promoted. *)
Definition to_promotion : list (NodeEvent * Z) :=
  (fun e => (e, 100)) <$>
    [CheckNodeStatus (Some true); RaftLoyaltyExpired; RaftElectionTimeout 7;
     RaftPacket 2 (RVResponse 1 true 16 7) 7; RaftPacket 2 (AEResponse 1 true 16 7) 7; RaftHeartbeat].

(** Another server asks for votes in a higher term while it is being promoted. *)
Definition lose_term (T : Z) : NodeEvent := RaftPacket 1 (RequestVote T 1 16 0) 7.

(** The president loses its term during the promotion, is elected again, and is a leader that is
    not yet the president when the promotion ends; then it loses the new term too. *)
Definition reelected : list (NodeEvent * Z) :=
  (fun e => (e, 100)) <$>
    [lose_term 2; RaftElectionTimeout 7; RaftPacket 2 (RVResponse 3 true 16 7) 7;
     CheckCommandStatus (Some true); lose_term 4].

(** a node can serve the floating IP as the master while it is a follower: a leader that is not
    yet the president keeps the metadata server promoted when a promotion of its former presidency
    ends, and nothing demotes it when it loses its term. *)
Theorem follower_keeps_floating_ip :
  exists c, node_run opt_three (to_promotion ++ reelected) (controller_init server0) = Some c /\
    type (raft c) = kFollower /\ floating_ip c = true /\
    command_type c = kCmdNone /\ is_demote_pending c = false.
Proof. eexists. split_and!; vm_compute; reflexivity. Qed.

(** The node while it is being promoted, and after it has found its metadata server alive. *)
Definition promoting : Controller :=
  default (controller_init server0) (node_run opt_three to_promotion (controller_init server0)).
Definition alive : Controller := checkNodeStatus (Some true) 100 (controller_init server0).

Lemma promoting_reachable : node_reachable opt_three server0 promoting.
Proof.
  apply (node_run_reachable opt_three server0 to_promotion (controller_init server0)).
  - apply node_start.
  - repeat constructor; unfold fork_result; simpl; lia.
  - vm_compute. reflexivity.
Qed.

Lemma running_command_kept_witness :
  exists c', node_step opt_three 101 (lose_term 2) promoting = Some c' /\ command_pid promoting = 100 /\
    command_pid c' = command_pid promoting /\ command_type c' = command_type promoting.
Proof.
  eexists. split; [vm_compute; reflexivity|]. split; [vm_compute; reflexivity|].
  apply (running_command_kept opt_three server0 promoting _ (lose_term 2) 101).
  - apply promoting_reachable.
  - right. lia.
  - vm_compute. reflexivity.
  - vm_compute. discriminate.
  - reflexivity.
Defined.

Lemma promotion_outcome_witness :
  floating_ip (checkCommandStatus (Some false) 101 promoting) = false /\
  command_type (checkCommandStatus (Some false) 101 promoting) = kCmdDemote.
Proof.
  destruct (promotion_outcome opt_three server0 promoting 101 false) as (_ & (Hf & _ & Ht & _) & _).
  - apply promoting_reachable.
  - lia.
  - vm_compute. reflexivity.
  - split; [exact Hf|exact Ht].
Defined.

Lemma dead_metadata_handled_witness :
  node_alive alive = true /\ command_type (checkNodeStatus (Some false) 101 alive) = kCmdStatusDead.
Proof.
  split; [vm_compute; reflexivity|].
  apply (dead_metadata_handled opt_three server0 alive 101).
  - apply (node_next opt_three server0 (controller_init server0) _ (CheckNodeStatus (Some true)) 100);
      [apply node_start|right; lia|reflexivity].
  - lia.
  - vm_compute. reflexivity.
  - vm_compute. reflexivity.
Defined.

Lemma blocked_stays_follower_witness :
  exists c', node_step opt_three 100 (RaftElectionTimeout 7) (controller_init server0) = Some c' /\
    type (raft c') = kFollower.
Proof.
  eexists. split; [vm_compute; reflexivity|].
  apply (blocked_stays_follower opt_three 100 (RaftElectionTimeout 7) (controller_init server0));
    [reflexivity|reflexivity|vm_compute; reflexivity].
Defined.

Lemma timeout_drops_pending_witness :
  is_demote_pending (commandTimeout promoting) = true /\
  command_type (commandTimeout promoting) = kCmdNone.
Proof.
  destruct (timeout_drops_pending opt_three server0 promoting) as (Hd & _ & _ & Ht & _);
    [apply promoting_reachable|vm_compute; discriminate|].
  split; [apply Hd; vm_compute; reflexivity|exact Ht].
Defined.
