(* ===== verification/Slices.v ===== *)
(** Slice types and chunk parts (src/common/goal.h, src/common/slice_traits.h,
    src/common/chunk_part_type.h).

    A slice type is the integer of the source: standard, tape, xor2 to xor9, then the erasure codes
    ec(k,m) with 2 to 32 data parts and 1 to 32 parity parts.  A chunk part type packs a slice type and
    a part number into 16 bits (8 bits in the legacy class).  Assertions are [None]; C++ division of
    ints is [Z.quot] and [Z.rem]. *)
From S2P Require Import Prelude Serialization.

Definition SFSBLOCKSIZE : Z := 65536.
Definition SFSBLOCKSINCHUNK : Z := 1024.
Definition SFSCHUNKSIZE : Z := SFSBLOCKSIZE * SFSBLOCKSINCHUNK.

(** A number that is checked when it is read. *)
Definition checked_codec (c : Codec Z) (valid : Z -> bool) : Codec Z := MkCodec
  (serializedSize c) (serialize c) (v ← deserialize c; if valid v then mret v else throw).

(** ** Slice types *)

Module SliceType.

Definition kStandard : Z := 0.
Definition kTape : Z := 1.
Definition kXor2 : Z := 2.
Definition kXor9 : Z := 9.
Definition kECFirst : Z := 10.
Definition kECLast : Z := kECFirst + (31 * 32 - 1).
Definition kTypeCount : Z := kECLast + 1.

Definition kTypeParts : list Z := [1; 1; 3; 4; 5; 6; 7; 8; 9; 10].

Definition isValid (type : Z) : bool := (kStandard <=? type) && (type <? kTypeCount).

Definition expectedParts (type : Z) : option Z :=
  if isValid type then
    if type <? kECFirst then kTypeParts !! Z.to_nat type
    else Some (3 + Z.quot (type - kECFirst) 32 + Z.rem (type - kECFirst) 32)
  else None.

End SliceType.
Import SliceType.

(** ** Traits of a slice type *)

Definition isStandard (type : Z) : bool := type =? kStandard.
Definition isTape (type : Z) : bool := type =? kTape.
Definition isXor (type : Z) : bool := (kXor2 <=? type) && (type <=? kXor9).
Definition isEC (type : Z) : bool := (kECFirst <=? type) && (type <=? kECLast).

Module xors.

Definition kXorParityPart : Z := 0.
Definition kMinXorLevel : Z := 2.
Definition kMaxXorLevel : Z := 9.

Definition isXorLevelValid (level : Z) : bool := (kMinXorLevel <=? level) && (level <=? kMaxXorLevel).

Definition getSliceType (level : Z) : option Z :=
  if isXorLevelValid level then Some ((level - kMinXorLevel) + kXor2) else None.

Definition getXorLevel (type : Z) : Z := type - kXor2 + kMinXorLevel.

End xors.

Module ec.

Definition kMinDataCount : Z := 2.
Definition kMaxDataCount : Z := 32.
Definition kMinParityCount : Z := 1.
Definition kMaxParityCount : Z := 32.

Definition getSliceType (data_count parity_count : Z) : Z :=
  32 * (data_count - kMinDataCount) + (parity_count - kMinParityCount) + kECFirst.

Definition getNumberOfDataParts (type : Z) : Z := kMinDataCount + Z.quot (type - kECFirst) 32.

Definition getNumberOfParityParts (type : Z) : Z := kMinParityCount + Z.rem (type - kECFirst) 32.

End ec.

Definition getNumberOfDataParts (type : Z) : Z :=
  if isXor type then xors.getXorLevel type
  else if isEC type then ec.getNumberOfDataParts type
  else 1.

Definition getNumberOfParityParts (type : Z) : Z :=
  if isXor type then 1 else if isEC type then ec.getNumberOfParityParts type else 0.

(** ** Chunk part types *)

Module ChunkPartType.

Definition kMaxPartsCount : Z := 64.
Definition kMaxTypeCount : Z := 2048.

(** The constructor from a type and a part; the value is the uint16_t id_. *)
Definition make (type part : Z) : option Z :=
  if (type <? kMaxTypeCount) && (0 <=? part) && (part <? kMaxPartsCount)
  then Some (u16 (type * kMaxPartsCount + part)) else None.

Definition getSliceType (id : Z) : Z := Z.quot id kMaxPartsCount.
Definition getSlicePart (id : Z) : Z := Z.rem id kMaxPartsCount.

Definition isValid (id : Z) : bool :=
  match expectedParts (getSliceType id) with
  | Some n => getSlicePart id <? n
  | None => false
  end.

(** serializedSize(), serialize() and deserialize() *)
Definition codec : Codec Z := checked_codec uint16_codec isValid.

End ChunkPartType.

(** legacy::ChunkPartType *)
Module legacy.

Definition kMaxPartsCount : Z := 11.
Definition kMaxType : Z := 9.

Definition make (type part : Z) : option Z :=
  if (0 <=? part) && (part <? kMaxPartsCount) && (0 <=? type) && (type <=? kMaxType + 1)
  then Some (u8 (type * kMaxPartsCount + part)) else None.

Definition getSliceType (id : Z) : Z := Z.quot id kMaxPartsCount.
Definition getSlicePart (id : Z) : Z := Z.rem id kMaxPartsCount.

Definition isValid (id : Z) : bool :=
  (getSliceType id <=? kMaxType) &&
  match expectedParts (getSliceType id) with
  | Some n => getSlicePart id <? n
  | None => false
  end.

Definition codec : Codec Z := checked_codec uint8_codec isValid.

End legacy.

(** ChunkPartType(const legacy::ChunkPartType &) *)
Definition of_legacy (id : Z) : Z :=
  u16 (legacy.getSliceType id * ChunkPartType.kMaxPartsCount + legacy.getSlicePart id).

(** operator legacy::ChunkPartType() *)
Definition to_legacy (id : Z) : option Z :=
  let type := Z.min (ChunkPartType.getSliceType id) (legacy.kMaxType + 1) in
  let part := Z.min (ChunkPartType.getSlicePart id) (legacy.kMaxPartsCount - 1) in
  legacy.make type part.

(** ** Traits of a chunk part *)

Definition isXorParity (cpt : Z) : bool :=
  isXor (ChunkPartType.getSliceType cpt) && (ChunkPartType.getSlicePart cpt =? xors.kXorParityPart).

Definition isParityPart (cpt : Z) : bool :=
  let type := ChunkPartType.getSliceType cpt in
  if isXor type then isXorParity cpt
  else if isEC type then ec.getNumberOfDataParts type <=? ChunkPartType.getSlicePart cpt
  else false.

Definition isDataPart (cpt : Z) : bool := negb (isParityPart cpt).

Definition getDataPartIndex (cpt : Z) : Z :=
  if isXor (ChunkPartType.getSliceType cpt) then ChunkPartType.getSlicePart cpt - 1
  else ChunkPartType.getSlicePart cpt.

Definition getParityPartIndex (cpt : Z) : Z :=
  let type := ChunkPartType.getSliceType cpt in
  if isEC type then ChunkPartType.getSlicePart cpt - ec.getNumberOfDataParts type else 0.

(** ** Sizes of a chunk part *)

(** getNumberOfBlocks(); [blocks_in_chunk] is unsigned, so the sum is. *)
Definition getNumberOfBlocks (cpt blocks_in_chunk : Z) : Z :=
  let n := getNumberOfDataParts (ChunkPartType.getSliceType cpt) in
  let data_part_index := if isDataPart cpt then getDataPartIndex cpt else 0 in
  u32 (blocks_in_chunk + (n - data_part_index - 1)) / n.

Definition chunkLengthToChunkPartLength (cpt chunk_length : Z) : Z :=
  let n := getNumberOfDataParts (ChunkPartType.getSliceType cpt) in
  if n =? 1 then chunk_length
  else
    let full_stripe := Z.quot chunk_length (n * SFSBLOCKSIZE) in
    let base_len := full_stripe * SFSBLOCKSIZE in
    let base := base_len * n in
    let rest := chunk_length - base in
    let data_part_index := if isDataPart cpt then getDataPartIndex cpt else 0 in
    let part_rest_len := Z.max (rest - data_part_index * SFSBLOCKSIZE) 0 in
    let part_rest_len := Z.min part_rest_len SFSBLOCKSIZE in
    base_len + part_rest_len.

(** Linear arithmetic with the quotients and remainders of C++. *)
Ltac qlia := Z.to_euclidean_division_equations; lia.

(** ** Slice types as pairs of numbers *)

(** The cases of a valid type. *)
Lemma isValid_spec type : SliceType.isValid type = true <-> 0 <= type <= 1001.
Proof. unfold SliceType.isValid, kStandard, kTypeCount, kECLast, kECFirst. lia. Qed.

Lemma isXor_spec type : isXor type = true <-> 2 <= type <= 9.
Proof. unfold isXor, kXor2, kXor9. lia. Qed.

Lemma isEC_spec type : isEC type = true <-> 10 <= type <= 1001.
Proof. unfold isEC, kECLast, kECFirst. lia. Qed.

Lemma data_parts_range type :
  SliceType.isValid type = true -> 1 <= getNumberOfDataParts type <= 32.
Proof.
  intros H%isValid_spec. unfold getNumberOfDataParts, xors.getXorLevel, ec.getNumberOfDataParts.
  unfold kXor2, xors.kMinXorLevel, ec.kMinDataCount, kECFirst.
  destruct (isXor type) eqn:Ex; [apply isXor_spec in Ex; lia|].
  destruct (isEC type) eqn:Ee; [apply isEC_spec in Ee; qlia|lia].
Qed.

Lemma parity_parts_range type :
  SliceType.isValid type = true -> 0 <= getNumberOfParityParts type <= 32.
Proof.
  intros H%isValid_spec. unfold getNumberOfParityParts, ec.getNumberOfParityParts.
  unfold ec.kMinParityCount, kECFirst.
  destruct (isXor type) eqn:Ex; [lia|].
  destruct (isEC type) eqn:Ee; [apply isEC_spec in Ee; qlia|lia].
Qed.

(** The parts of a slice are its data parts and its parity parts. *)
Lemma expectedParts_spec type :
  SliceType.isValid type = true ->
  expectedParts type = Some (getNumberOfDataParts type + getNumberOfParityParts type).
Proof.
  intros H. unfold expectedParts. rewrite H. apply isValid_spec in H.
  destruct (Z.ltb_spec type kECFirst) as [Hl|Hl]; unfold kECFirst in *.
  - assert (type ∈ [0; 1; 2; 3; 4; 5; 6; 7; 8; 9]) as Hin by (set_unfold; lia).
    set_unfold in Hin. by repeat (destruct Hin as [->|Hin]; [reflexivity|]).
  - unfold getNumberOfDataParts, getNumberOfParityParts.
    replace (isXor type) with false by (symmetry; apply not_true_is_false; rewrite isXor_spec; lia).
    replace (isEC type) with true by (symmetry; apply isEC_spec; lia).
    unfold ec.getNumberOfDataParts, ec.getNumberOfParityParts, ec.kMinDataCount, ec.kMinParityCount,
      kECFirst. f_equal. lia.
Qed.

(** ** Chunk part types *)

Lemma cpt_make type part :
  0 <= type <= 1001 -> 0 <= part < 64 ->
  let id := type * 64 + part in
  ChunkPartType.make type part = Some id /\ is_uint 16 id /\
  ChunkPartType.getSliceType id = type /\ ChunkPartType.getSlicePart id = part.
Proof.
  intros Ht Hp. cbv zeta. unfold ChunkPartType.make, ChunkPartType.getSliceType, ChunkPartType.getSlicePart.
  unfold ChunkPartType.kMaxTypeCount, ChunkPartType.kMaxPartsCount.
  assert (is_uint 16 (type * 64 + part)) as Hu by (unfold is_uint; change (2 ^ 16) with 65536; lia).
  split_and!; [|done|qlia|qlia].
  replace (_ && _) with true by lia. f_equal. by apply wrap_small.
Qed.

Lemma legacy_make type part :
  0 <= type <= 10 -> 0 <= part < 11 ->
  let id := type * 11 + part in
  legacy.make type part = Some id /\ is_uint 8 id /\
  legacy.getSliceType id = type /\ legacy.getSlicePart id = part.
Proof.
  intros Ht Hp. cbv zeta. unfold legacy.make, legacy.getSliceType, legacy.getSlicePart.
  unfold legacy.kMaxType, legacy.kMaxPartsCount.
  assert (is_uint 8 (type * 11 + part)) as Hu by (unfold is_uint; change (2 ^ 8) with 256; lia).
  split_and!; [|done|qlia|qlia].
  replace (_ && _) with true by lia. f_equal. by apply wrap_small.
Qed.

(** What a valid chunk part type holds. *)
Lemma cpt_valid id :
  0 <= id -> ChunkPartType.isValid id = true ->
  let type := ChunkPartType.getSliceType id in let part := ChunkPartType.getSlicePart id in
  0 <= type <= 1001 /\ 0 <= part < getNumberOfDataParts type + getNumberOfParityParts type /\
  id = type * 64 + part.
Proof.
  intros H0. cbv zeta. unfold ChunkPartType.isValid.
  destruct (SliceType.isValid (ChunkPartType.getSliceType id)) eqn:Hv.
  - rewrite expectedParts_spec by done. intros Hp. apply isValid_spec in Hv.
    split; [done|]. unfold ChunkPartType.getSlicePart, ChunkPartType.getSliceType,
      ChunkPartType.kMaxPartsCount in *. split; qlia.
  - unfold expectedParts. by rewrite Hv.
Qed.

Lemma cpt_make_valid type part :
  SliceType.isValid type = true ->
  0 <= part < getNumberOfDataParts type + getNumberOfParityParts type ->
  ChunkPartType.isValid (type * 64 + part) = true.
Proof.
  intros Hv Hp. pose proof (data_parts_range type Hv). pose proof (parity_parts_range type Hv).
  destruct (cpt_make type part) as (_ & _ & Ht & Hq); [by apply isValid_spec|lia|].
  unfold ChunkPartType.isValid. rewrite Ht, expectedParts_spec, Hq by done. lia.
Qed.

#[export] Instance checked_lawful c P valid :
  Lawful c P -> Lawful (checked_codec c valid) (fun v => P v /\ valid v = true).
Proof.
  intros L. split; unfold checked_codec; cbn [serializedSize serialize deserialize].
  - intros a [Ha _]. by apply lawful_size.
  - intros a [Ha _]. by apply (lawful_bytes (c := c)).
  - intros a [Ha Hv] rest room H. unfold mbind, reader_bind.
    rewrite (lawful_get (c := c) a Ha) by done. by rewrite Hv.
  - apply within_bind; [apply (lawful_within (c := c))|]. intros v. case_match; auto with wire.
  - eapply yields_bind; [apply (lawful_yields (c := c))|]. intros v Hv.
    destruct (valid v) eqn:E; [by apply yields_ret|apply yields_throw].
Qed.

(** ** Sizes *)

(** What the [i]-th of [n] data parts holds of the last, incomplete stripe. *)
Definition clamp (rest i : Z) : Z := Z.min (Z.max (rest - i * SFSBLOCKSIZE) 0) SFSBLOCKSIZE.

Lemma sum_clamp rest (n : nat) :
  0 <= rest ->
  foldr Z.add 0 ((fun i : nat => clamp rest (Z.of_nat i)) <$> seq 0 n) =
  Z.min rest (Z.of_nat n * SFSBLOCKSIZE).
Proof.
  intros Hr. induction n as [|n IH]; [simpl; lia|].
  rewrite seq_S, fmap_app, foldr_app. simpl.
  assert (forall l a, foldr Z.add a l = foldr Z.add 0 l + a) as Hf
    by (intros l a; induction l; simpl; lia).
  rewrite Hf, IH. unfold clamp, SFSBLOCKSIZE. lia.
Qed.

(** The parts of a chunk of [q] whole stripes and [rest] bytes. *)
Lemma sum_parts q rest (n : nat) (f : nat -> Z) :
  (forall i, (i < n)%nat -> f i = q * SFSBLOCKSIZE + clamp rest (Z.of_nat i)) ->
  0 <= rest -> foldr Z.add 0 (f <$> seq 0 n) =
  Z.of_nat n * (q * SFSBLOCKSIZE) + Z.min rest (Z.of_nat n * SFSBLOCKSIZE).
Proof.
  intros Hf Hr. rewrite <-sum_clamp by done.
  assert (forall l, (forall i, i ∈ l -> (i < n)%nat) ->
    foldr Z.add 0 (f <$> l) = Z.of_nat (length l) * (q * SFSBLOCKSIZE) +
      foldr Z.add 0 ((fun i : nat => clamp rest (Z.of_nat i)) <$> l)) as Hl.
  { intros l. induction l as [|a l IH]; intros Hin; [simpl; lia|].
    rewrite !fmap_cons. simpl foldr. rewrite IH by set_solver. rewrite Hf by set_solver. simpl length. lia. }
  rewrite Hl, length_seq; [done|]. intros i ?%elem_of_seq. lia.
Qed.

(** The identifier of a part of a slice, and the numbers of its data parts and parity parts (the
    parity of a xor slice is part 0). *)
Definition part_id (type part : Z) : Z := default 0 (ChunkPartType.make type part).
Definition data_part (type i : Z) : Z := part_id type (if isXor type then i + 1 else i).
Definition parity_part (type j : Z) : Z :=
  part_id type (if isXor type then xors.kXorParityPart else getNumberOfDataParts type + j).

Lemma part_id_spec type part :
  SliceType.isValid type = true ->
  0 <= part < getNumberOfDataParts type + getNumberOfParityParts type ->
  part_id type part = type * 64 + part /\
  ChunkPartType.getSliceType (part_id type part) = type /\
  ChunkPartType.getSlicePart (part_id type part) = part.
Proof.
  intros Hv Hp. pose proof (data_parts_range type Hv). pose proof (parity_parts_range type Hv).
  unfold part_id. destruct (cpt_make type part) as (-> & _ & ? & ?); [by apply isValid_spec|lia|done].
Qed.

Lemma isXor_not_EC type : isXor type = true -> isEC type = false.
Proof. intros H%isXor_spec. apply not_true_is_false. rewrite isEC_spec. lia. Qed.

Lemma data_part_spec type i :
  SliceType.isValid type = true -> 0 <= i < getNumberOfDataParts type ->
  let cpt := data_part type i in
  ChunkPartType.getSliceType cpt = type /\ isDataPart cpt = true /\ getDataPartIndex cpt = i.
Proof.
  intros Hv Hi. cbv zeta. pose proof (parity_parts_range type Hv).
  assert (isXor type = true -> getNumberOfParityParts type = 1) as Hx.
  { intros E. unfold getNumberOfParityParts. by rewrite E. }
  unfold data_part. destruct (part_id_spec type (if isXor type then i + 1 else i) Hv) as (_ & Ht & Hp).
  { destruct (isXor type); [rewrite Hx by done|]; lia. }
  split; [done|]. unfold isDataPart, isParityPart, isXorParity, getDataPartIndex.
  rewrite Ht, Hp. unfold getNumberOfDataParts in Hi. destruct (isXor type) eqn:E; simpl.
  - unfold xors.kXorParityPart. split; [destruct (Z.eqb_spec (i + 1) 0); [lia|done]|lia].
  - split; [|done]. destruct (isEC type); [|done]. destruct (Z.leb_spec (ec.getNumberOfDataParts type) i); [lia|done].
Qed.

Lemma parity_part_spec type j :
  SliceType.isValid type = true -> 0 <= j < getNumberOfParityParts type ->
  let cpt := parity_part type j in
  ChunkPartType.getSliceType cpt = type /\ isDataPart cpt = false /\ getParityPartIndex cpt = j.
Proof.
  intros Hv Hj. cbv zeta. pose proof (data_parts_range type Hv).
  unfold parity_part, xors.kXorParityPart.
  destruct (part_id_spec type (if isXor type then 0 else getNumberOfDataParts type + j) Hv) as (_ & Ht & Hp).
  { destruct (isXor type); lia. }
  split; [done|]. unfold isDataPart, isParityPart, isXorParity, getParityPartIndex.
  rewrite Ht, Hp. unfold getNumberOfDataParts, getNumberOfParityParts in *.
  destruct (isXor type) eqn:E; simpl.
  - rewrite (isXor_not_EC type E). split; [done|lia].
  - destruct (isEC type); [|lia]. split; [|lia].
    destruct (Z.leb_spec (ec.getNumberOfDataParts type) (ec.getNumberOfDataParts type + j)); [done|lia].
Qed.

(** The two sizes of a part, with the index of the data part whose size it has. *)
Lemma part_length_spec type cpt len :
  SliceType.isValid type = true -> ChunkPartType.getSliceType cpt = type -> 0 <= len ->
  let n := getNumberOfDataParts type in
  let i := if isDataPart cpt then getDataPartIndex cpt else 0 in
  0 <= i < n ->
  chunkLengthToChunkPartLength cpt len =
    len / (n * SFSBLOCKSIZE) * SFSBLOCKSIZE + clamp (len mod (n * SFSBLOCKSIZE)) i.
Proof.
  intros Hv Ht Hl. cbv zeta. intros Hi. pose proof (data_parts_range type Hv) as Hn.
  unfold chunkLengthToChunkPartLength. rewrite Ht.
  set (n := getNumberOfDataParts type) in *.
  set (i := if isDataPart cpt then getDataPartIndex cpt else 0) in *. clearbody n i.
  unfold clamp, SFSBLOCKSIZE. destruct (Z.eqb_spec n 1) as [->|H1].
  - assert (i = 0) as -> by lia. qlia.
  - rewrite Z.quot_div_nonneg by lia. do 2 f_equal.
    pose proof (Z.div_mod len (n * 65536)). lia.
Qed.

Definition blocks_of (len : Z) : Z := (len + SFSBLOCKSIZE - 1) / SFSBLOCKSIZE.

(** Splitting [len] bytes over [n] parts and counting blocks commute. *)
Lemma blocks_split n i len :
  1 <= n <= 32 -> 0 <= i < n -> 0 <= len <= SFSCHUNKSIZE ->
  u32 (blocks_of len + (n - i - 1)) / n =
  blocks_of (len / (n * SFSBLOCKSIZE) * SFSBLOCKSIZE + clamp (len mod (n * SFSBLOCKSIZE)) i).
Proof.
  intros Hn Hi Hl. unfold blocks_of, clamp, SFSCHUNKSIZE, SFSBLOCKSINCHUNK, SFSBLOCKSIZE in *.
  pose proof (Z.div_mod len (n * 65536)) as Hd. pose proof (Z.mod_pos_bound len (n * 65536)) as Hm.
  set (q := len / (n * 65536)) in *. set (r := len mod (n * 65536)) in *. clearbody q r.
  assert (0 <= q) as Hq by nia.
  assert (len + 65536 - 1 = r + 65535 + (q * n) * 65536) as -> by lia.
  rewrite Z.div_add by lia.
  assert (q * 65536 + Z.min (Z.max (r - i * 65536) 0) 65536 + 65536 - 1 =
    Z.min (Z.max (r - i * 65536) 0) 65536 + 65535 + q * 65536) as -> by lia.
  rewrite Z.div_add by lia.
  assert (0 <= (r + 65535) / 65536 <= n) as Hc by (Z.to_euclidean_division_equations; lia).
  set (c := (r + 65535) / 65536) in *.
  assert (0 <= q * n <= 1024) by nia.
  unfold u32. rewrite wrap_small by (unfold is_uint; change (2 ^ 32) with 4294967296; lia).
  replace (c + q * n + (n - i - 1)) with (c + n - i - 1 + q * n) by lia.
  rewrite Z.div_add by lia. f_equal.
  destruct (Z.le_gt_cases (i + 1) c) as [Hic|Hic].
  - assert ((c + n - i - 1) / n = 1) as -> by (symmetry; apply (Z.div_unique _ n _ (c - i - 1)); lia).
    subst c. Z.to_euclidean_division_equations; lia.
  - rewrite (Z.div_small (c + n - i - 1)) by lia.
    subst c. Z.to_euclidean_division_equations; lia.
Qed.

(** ** Properties *)

(** the slice types.  Every valid type has as many parts as it has data and parity parts, the
    erasure codes are in bijection with the pairs of 2 to 32 data parts and 1 to 32 parity parts, and
    the xor types with the levels 2 to 9. *)
Theorem slice_types_bijection :
  (forall type, SliceType.isValid type = true ->
     expectedParts type = Some (getNumberOfDataParts type + getNumberOfParityParts type) /\
     getNumberOfDataParts type + getNumberOfParityParts type <= ChunkPartType.kMaxPartsCount) /\
  (forall k m, ec.kMinDataCount <= k <= ec.kMaxDataCount -> ec.kMinParityCount <= m <= ec.kMaxParityCount ->
     let type := ec.getSliceType k m in
     isEC type = true /\ getNumberOfDataParts type = k /\ getNumberOfParityParts type = m) /\
  (forall type, isEC type = true ->
     ec.getSliceType (getNumberOfDataParts type) (getNumberOfParityParts type) = type) /\
  (forall level type, xors.getSliceType level = Some type <->
     isXor type = true /\ getNumberOfDataParts type = level).
Proof.
  split; [|split; [|split]].
  - intros type Hv. split; [by apply expectedParts_spec|].
    pose proof (data_parts_range type Hv). pose proof (parity_parts_range type Hv).
    unfold ChunkPartType.kMaxPartsCount. lia.
  - unfold ec.kMinDataCount, ec.kMaxDataCount, ec.kMinParityCount, ec.kMaxParityCount.
    intros k m Hk Hm. cbv zeta. set (type := ec.getSliceType k m).
    assert (type = 32 * (k - 2) + (m - 1) + 10) as Et by done. clearbody type.
    assert (isEC type = true) as He by (apply isEC_spec; lia).
    split; [done|]. unfold getNumberOfDataParts, getNumberOfParityParts. rewrite He.
    replace (isXor type) with false by (symmetry; apply not_true_is_false; rewrite isXor_spec; lia).
    unfold ec.getNumberOfDataParts, ec.getNumberOfParityParts, ec.kMinDataCount, ec.kMinParityCount,
      kECFirst. split; qlia.
  - intros type He. unfold getNumberOfDataParts, getNumberOfParityParts. rewrite He.
    apply isEC_spec in He.
    replace (isXor type) with false by (symmetry; apply not_true_is_false; rewrite isXor_spec; lia).
    unfold ec.getSliceType, ec.getNumberOfDataParts, ec.getNumberOfParityParts, ec.kMinDataCount,
      ec.kMinParityCount, kECFirst. qlia.
  - intros level type. unfold xors.getSliceType, xors.isXorLevelValid, xors.kMinXorLevel,
      xors.kMaxXorLevel, kXor2. rewrite isXor_spec. unfold getNumberOfDataParts. split.
    + destruct (_ && _) eqn:E; [|done]. intros [= <-].
      replace (isXor (level - 2 + 2)) with true by (symmetry; apply isXor_spec; lia).
      unfold xors.getXorLevel, kXor2, xors.kMinXorLevel. lia.
    + intros [Hx <-]. replace (isXor type) with true by (symmetry; by apply isXor_spec).
      unfold xors.getXorLevel, kXor2, xors.kMinXorLevel.
      replace (_ && _) with true by lia. f_equal. lia.
Qed.

(** Chunk part types.  Packing a part of a valid slice type loses nothing, and the identifier is
    valid; what is written is read back; the types the legacy class knows survive the conversion to it
    and back, and every other type becomes one that legacy readers refuse. *)
Theorem chunk_part_roundtrip type part :
  SliceType.isValid type = true ->
  0 <= part < getNumberOfDataParts type + getNumberOfParityParts type ->
  exists id, ChunkPartType.make type part = Some id /\ ChunkPartType.isValid id = true /\
    ChunkPartType.getSliceType id = type /\ ChunkPartType.getSlicePart id = part /\
    (forall rest room, 2 <= room ->
       deserialize ChunkPartType.codec (serialize ChunkPartType.codec id ++ rest, room) =
       Ok (id, (rest, room - 2))) /\
    exists old, to_legacy id = Some old /\
      (if type <=? legacy.kMaxType then legacy.isValid old = true /\ of_legacy old = id
       else legacy.isValid old = false).
Proof.
  intros Hv Hp. pose proof (cpt_make_valid type part Hv Hp) as Hid.
  pose proof (data_parts_range type Hv) as Hd. pose proof (parity_parts_range type Hv) as Hq.
  apply isValid_spec in Hv as Hv'.
  destruct (cpt_make type part Hv') as (Hm & Hu & Ht & Hs); [lia|].
  exists (type * 64 + part). split_and!; try done.
  - intros rest room Hr.
    by rewrite (lawful_get (c := ChunkPartType.codec) (type * 64 + part)) by done.
  - unfold to_legacy. rewrite Ht, Hs. unfold legacy.kMaxType, legacy.kMaxPartsCount.
    destruct (Z.leb_spec type 9) as [Hl|Hl].
    + assert (part < 11) as Hb.
      { assert (getNumberOfDataParts type + getNumberOfParityParts type <= 10); [|lia].
        assert (type ∈ [0; 1; 2; 3; 4; 5; 6; 7; 8; 9]) as Hin by (set_unfold; lia).
        set_unfold in Hin. by repeat (destruct Hin as [->|Hin]; [vm_compute; discriminate|]). }
      rewrite !Z.min_l by lia.
      destruct (legacy_make type part) as (-> & _ & Ht2 & Hs2); [lia..|].
      eexists. split; [done|]. unfold legacy.isValid, of_legacy. rewrite Ht2, Hs2.
      rewrite expectedParts_spec by done. unfold legacy.kMaxType, ChunkPartType.kMaxPartsCount.
      split; [lia|]. by apply wrap_small.
    + rewrite (Z.min_r type) by lia. set (p := Z.min part 10).
      destruct (legacy_make 10 p) as (Hmk & _ & Ht2 & _); [lia..|].
      exists (10 * 11 + p). split; [exact Hmk|]. unfold legacy.isValid. by rewrite Ht2.
Qed.

(** C17: how a chunk is split.  For every slice type and every length up to a whole chunk, the lengths
    of the data parts add up to the length of the chunk, no part is longer than the first data part,
    every parity part is as long as that, and the number of blocks of each part is the number that
    its length needs. *)
Theorem chunk_split type len :
  SliceType.isValid type = true -> 0 <= len <= SFSCHUNKSIZE ->
  let n := getNumberOfDataParts type in
  let data i := chunkLengthToChunkPartLength (data_part type i) len in
  foldr Z.add 0 ((fun i : nat => data (Z.of_nat i)) <$> seq 0 (Z.to_nat n)) = len /\
  (forall i, 0 <= i < n -> 0 <= data i <= data 0 /\
     getNumberOfBlocks (data_part type i) (blocks_of len) = blocks_of (data i)) /\
  (forall j, 0 <= j < getNumberOfParityParts type ->
     chunkLengthToChunkPartLength (parity_part type j) len = data 0 /\
     getNumberOfBlocks (parity_part type j) (blocks_of len) = blocks_of (data 0)).
Proof.
  intros Hv Hl. cbv zeta. pose proof (data_parts_range type Hv) as Hn.
  assert (forall i, 0 <= i < getNumberOfDataParts type ->
    chunkLengthToChunkPartLength (data_part type i) len =
    len / (getNumberOfDataParts type * SFSBLOCKSIZE) * SFSBLOCKSIZE +
    clamp (len mod (getNumberOfDataParts type * SFSBLOCKSIZE)) i) as Hdata.
  { intros i Hi. destruct (data_part_spec type i Hv Hi) as (Ht & Hd & Hidx).
    rewrite (part_length_spec type) by (rewrite ?Hd, ?Hidx; done || lia). by rewrite Hd, Hidx. }
  set (n := getNumberOfDataParts type) in *.
  pose proof (Z.div_mod len (n * SFSBLOCKSIZE)) as Hdm.
  pose proof (Z.mod_pos_bound len (n * SFSBLOCKSIZE)) as Hm. unfold SFSBLOCKSIZE in Hdm, Hm.
  pose proof (Z.div_pos len (n * 65536)) as Hq.
  split; [|split].
  - etrans; [apply (sum_parts (len / (n * SFSBLOCKSIZE)) (len mod (n * SFSBLOCKSIZE)) (Z.to_nat n))|].
    + intros i Hi. apply Hdata. lia.
    + unfold SFSBLOCKSIZE. lia.
    + unfold SFSBLOCKSIZE. lia.
  - intros i Hi. destruct (data_part_spec type i Hv Hi) as (Ht & Hd & Hidx). split.
    + rewrite !Hdata by lia. unfold clamp, SFSBLOCKSIZE. lia.
    + unfold getNumberOfBlocks. rewrite Ht, Hd, Hidx, Hdata by done. by apply blocks_split.
  - intros j Hj. destruct (parity_part_spec type j Hv Hj) as (Ht & Hd & _). split.
    + rewrite (part_length_spec type), Hd, Hdata; rewrite ?Hd; fold n; done || lia.
    + unfold getNumberOfBlocks. rewrite Ht, Hd, Hdata by lia. fold n. apply blocks_split; lia || done.
Qed.

Lemma chunk_part_roundtrip_witness :
  exists id, ChunkPartType.make 3 2 = Some id /\ ChunkPartType.isValid id = true.
Proof.
  destruct (chunk_part_roundtrip 3 2) as (id & Hm & Hv & _); [reflexivity|vm_compute; split; [discriminate|reflexivity]|].
  exists id. split; [exact Hm|exact Hv].
Defined.

Lemma chunk_split_witness :
  foldr Z.add 0 ((fun i : nat => chunkLengthToChunkPartLength (data_part 3 (Z.of_nat i)) 1000000) <$> seq 0 3)
  = 1000000.
Proof.
  apply (chunk_split 3 1000000); [reflexivity|vm_compute; split; discriminate].
Defined.
