(* ===== verification/Goals.v ===== *)
(** Goals: how many copies of each part of a chunk are wanted, and where (src/common/goal.h,
    src/common/goal.cc).

    Labels are the 16-bit handles of media labels; the labels of a part are a flat map, a list of pairs
    (label, copies) sorted by label.  A slice keeps the pairs of all its parts in one list, with the
    number of pairs of each part. *)
From S2P Require Import Prelude Serialization Slices.

(** ** Labels *)

Definition kWildcard : Z := 65535.

Abbreviation Labels := (list (Z * Z)).

(** flat_map: keys in increasing order; insert(hint, value) with the end as the hint. *)
Definition label_ltb (x y : Z * Z) : bool := x.1 <? y.1.

Definition insert_end (result : Labels) (x : Z * Z) : Labels :=
  match last result with
  | Some y => if label_ltb y x then result ++ [x] else set_insert label_ltb result x
  | None => set_insert label_ltb result x
  end.

(** result[key] = value *)
Definition assign (result : Labels) (key value : Z) : Labels :=
  let it := partition_point (fun y => y.1 <? key) result in
  match result !! it with
  | Some y => if key <? y.1 then take it result ++ (key, value) :: drop it result
              else <[it := (key, value)]> result
  | None => result ++ [(key, value)]
  end.

Definition countLabels (labels : Labels) : Z := foldl (fun sum elem => sum + elem.2) 0 labels.

(** The state of the loop of makeLabelsUnion(). *)
Record UnionState := MkUnion {
  result : Labels;
  first_sum : Z;
  second_sum : Z;
  merged_sum : Z;
}.

(** The inner loop: labels of [second] before [label]; what is left of [second] is the iterator. *)
Fixpoint take_smaller (label : Z) (second : Labels) (st : UnionState) : option (UnionState * Labels) :=
  match second with
  | (l, c) :: rest =>
    if l <? label then
      if l =? kWildcard then None   (* assertion *)
      else take_smaller label rest
             (MkUnion (insert_end (result st) (l, c)) (first_sum st) (second_sum st + c)
                (merged_sum st + c))
    else Some (st, second)
  | [] => Some (st, second)
  end.

(** The loop over [first]. *)
Fixpoint union_loop (first second : Labels) (st : UnionState) : option (UnionState * Labels) :=
  match first with
  | [] => Some (st, second)
  | (l, c) :: rest =>
    if l =? kWildcard
    then Some (MkUnion (result st) (first_sum st + c) (second_sum st) (merged_sum st), second)
    else
      '(st, second) ← take_smaller l second st;
      match second with
      | (l2, c2) :: second' =>
        if l <? l2
        then union_loop rest second
               (MkUnion (insert_end (result st) (l, c)) (first_sum st + c) (second_sum st)
                  (merged_sum st + c))
        else union_loop rest second'
               (MkUnion (insert_end (result st) (l, Z.max c c2)) (first_sum st + c)
                  (second_sum st + c2) (merged_sum st + Z.max c c2))
      | [] =>
        union_loop rest second
          (MkUnion (insert_end (result st) (l, c)) (first_sum st + c) (second_sum st)
             (merged_sum st + c))
      end
  end.

(** The last loop: what is left of [second]. *)
Fixpoint union_rest (second : Labels) (st : UnionState) : UnionState :=
  match second with
  | [] => st
  | (l, c) :: rest =>
    union_rest rest
      (if l =? kWildcard
       then MkUnion (result st) (first_sum st) (second_sum st + c) (merged_sum st)
       else MkUnion (insert_end (result st) (l, c)) (first_sum st) (second_sum st + c)
              (merged_sum st + c))
  end.

Definition makeLabelsUnion (first second : Labels) : option Labels :=
  '(st, second) ← union_loop first second (MkUnion [] 0 0 0);
  let st := union_rest second st in
  let wildcards := Z.max (first_sum st) (second_sum st) - merged_sum st in
  Some (if 0 <? wildcards then assign (result st) kWildcard (u16 wildcards) else result st).

(** labelsDistance() *)
Fixpoint skip_smaller (label : Z) (second : Labels) (ret : Z) : Z * Labels :=
  match second with
  | (l, c) :: rest => if l <? label then skip_smaller label rest (ret + c) else (ret, second)
  | [] => (ret, [])
  end.

Fixpoint distance_loop (first second : Labels) (ret : Z) : Z :=
  match first with
  | [] => foldl (fun ret x => ret + x.2) ret second
  | (l, c) :: rest =>
    let '(ret, second) := skip_smaller l second ret in
    match second with
    | (l2, c2) :: second' =>
      if l <? l2 then distance_loop rest second (ret + c)
      else distance_loop rest second' (ret + Z.abs (c - c2))
    | [] => distance_loop rest second (ret + c)
    end
  end.

Definition labelsDistance (first second : Labels) : Z := distance_loop first second 0.

(** ** Slices *)

Record Slice := MkSlice { type_ : Z; part_size_ : list nat; data_ : Labels }.

(** Slice(Type) *)
Definition new_slice (type : Z) : option Slice :=
  n ← SliceType.expectedParts type; Some (MkSlice type (replicate (Z.to_nat n) 0%nat) []).

Definition size (s : Slice) : option Z := SliceType.expectedParts (type_ s).

Definition getPartOffset (s : Slice) (part : nat) : nat := sum_list (take part (part_size_ s)).

(** operator[]: the labels of a part. *)
Definition part (s : Slice) (p : nat) : Labels :=
  take (default 0%nat (part_size_ s !! p)) (drop (getPartOffset s p) (data_ s)).

Definition Slice_eqb (s t : Slice) : bool :=
  (type_ s =? type_ t) && bool_decide (data_ s = data_ t).

Definition getExpectedCopies (s : Slice) : Z := foldl (fun value entry => value + entry.2) 0 (data_ s).

Definition Slice_isValid (s : Slice) : bool :=
  match size s with
  | Some n =>
    forallb (fun entry => 0 <? entry.2) (data_ s) &&
    forallb (fun p => (0 <? length (part s p))%nat) (seq 0 (Z.to_nat n))
  | None => false
  end.

(** ** Goals *)

Record Goal := MkGoal { name_ : list Z; goal_slices_ : list Slice }.

Definition slice_ltb (s t : Slice) : bool := type_ s <? type_ t.

(** find(): the position of the slice of a type in the flat_set. *)
Definition find_slice (slices : list Slice) (type : Z) : option nat :=
  let it := partition_point (fun s => type_ s <? type) slices in
  match slices !! it with
  | Some s => if type <? type_ s then None else Some it
  | None => None
  end.

Definition setSlice (g : Goal) (s : Slice) : Goal :=
  match find_slice (goal_slices_ g) (type_ s) with
  | Some it => MkGoal (name_ g) (<[it := s]> (goal_slices_ g))
  | None => MkGoal (name_ g) (set_insert slice_ltb (goal_slices_ g) s)
  end.

(** The slice of a type, as the const operator[] returns it ([None] when it throws). *)
Definition slice_of (g : Goal) (type : Z) : option Slice :=
  it ← find_slice (goal_slices_ g) type; goal_slices_ g !! it.

Definition goal_copies (g : Goal) : Z :=
  foldl (fun ret element => ret + getExpectedCopies element) 0 (goal_slices_ g).

(** ** The union of labels *)

Definition sorted (ls : Labels) : Prop := StronglySorted (fun x y => x.1 < y.1) ls.
Definition entry_ok (x : Z * Z) : Prop := 0 <= x.1 <= kWildcard /\ 0 <= x.2.

(** Well-formed labels of a part: keys in order, copies not negative. *)
Definition labels_ok (ls : Labels) : Prop := sorted ls /\ Forall entry_ok ls.

Definition total (ls : Labels) : Z := foldr (fun x s => x.2 + s) 0 ls.

(** The copies wanted on a label. *)
Definition copies (l : Z) (ls : Labels) : Z :=
  foldr (fun x s => (if x.1 =? l then x.2 else 0) + s) 0 ls.

(** All labels of [r] come before those of [ls]. *)
Definition below (r ls : Labels) : Prop := forall x y, x ∈ r -> y ∈ ls -> x.1 < y.1.

Lemma total_app r ls : total (r ++ ls) = total r + total ls.
Proof. unfold total. induction r; simpl; lia. Qed.

Lemma total_cons x ls : total (x :: ls) = x.2 + total ls.
Proof. done. Qed.

Lemma copies_app l r ls : copies l (r ++ ls) = copies l r + copies l ls.
Proof. unfold copies. induction r; simpl; lia. Qed.

Lemma copies_cons l x ls : copies l (x :: ls) = (if x.1 =? l then x.2 else 0) + copies l ls.
Proof. done. Qed.

Lemma copies_absent l ls : (forall x, x ∈ ls -> x.1 <> l) -> copies l ls = 0.
Proof.
  induction ls as [|x ls IH]; intros H; [done|]. simpl. rewrite IH by set_solver.
  assert (x.1 <> l) by set_solver. by rewrite (proj2 (Z.eqb_neq _ _)).
Qed.

Lemma copies_nonneg l ls : Forall entry_ok ls -> 0 <= copies l ls.
Proof. induction 1 as [|x ls [_ Hx] _ IH]; simpl; [lia|]. destruct (_ =? _); lia. Qed.

Lemma total_nonneg ls : Forall entry_ok ls -> 0 <= total ls.
Proof. induction 1 as [|x ls [_ Hx] _ IH]; simpl; lia. Qed.

Lemma countLabels_total ls : countLabels ls = total ls.
Proof.
  unfold countLabels. assert (forall a, foldl (fun sum elem => sum + elem.2) a ls = a + total ls) as H; [|apply H].
  induction ls as [|x ls IH]; intros a; simpl; [lia|]. rewrite IH. lia.
Qed.

Lemma insert_end_append r x : (forall y, y ∈ r -> y.1 < x.1) -> insert_end r x = r ++ [x].
Proof.
  intros H. unfold insert_end. destruct (last r) as [y|] eqn:E.
  - apply last_Some in E as [r' ->]. unfold label_ltb.
    rewrite (proj2 (Z.ltb_lt _ _)); [done|]. apply H. set_solver.
  - apply last_None in E as ->. done.
Qed.

Lemma sorted_cons x ls : sorted (x :: ls) <-> (forall y, y ∈ ls -> x.1 < y.1) /\ sorted ls.
Proof. unfold sorted. rewrite StronglySorted_cons, Forall_forall. done. Qed.

Lemma sorted_app r ls : sorted (r ++ ls) <-> below r ls /\ sorted r /\ sorted ls.
Proof. apply StronglySorted_app. Qed.

Lemma take_smaller_ok label s st :
  label <= kWildcard -> sorted s -> below (result st) s ->
  exists s1 s2, s = s1 ++ s2 /\ (forall x, x ∈ s1 -> x.1 < label) /\
    (forall x, x ∈ s2 -> label <= x.1) /\
    take_smaller label s st =
      Some (MkUnion (result st ++ s1) (first_sum st) (second_sum st + total s1)
              (merged_sum st + total s1), s2).
Proof.
  intros Hl. revert st. induction s as [|[l c] s IH]; intros st Hs Hb.
  - exists [], []. destruct st; simpl. rewrite app_nil_r, !Z.add_0_r. split_and!; set_solver.
  - apply sorted_cons in Hs as [Hlt Hs]. simpl. destruct (Z.ltb_spec l label) as [H|H].
    + rewrite (proj2 (Z.eqb_neq l kWildcard)) by lia.
      rewrite insert_end_append by (intros y Hy; apply Hb; set_solver).
      edestruct (IH (MkUnion (result st ++ [(l, c)]) (first_sum st) (second_sum st + c) (merged_sum st + c)))
        as (s1 & s2 & -> & H1 & H2 & ->); [done| |].
      { intros x y. simpl. rewrite elem_of_app, list_elem_of_singleton. intros [Hx| ->] Hy; [|by apply Hlt].
        apply Hb; set_solver. }
      exists ((l, c) :: s1), s2. split; [done|]. split; [|split; [done|]].
      * intros x [->|Hx]%elem_of_cons; [done|by apply H1].
      * simpl. rewrite <-app_assoc. simpl. do 3 f_equal; lia.
    + exists [], ((l, c) :: s). destruct st; simpl. rewrite app_nil_r, !Z.add_0_r.
      split_and!; [done|set_solver| |done].
      intros x [->|Hx]%elem_of_cons; simpl; [done|]. specialize (Hlt x Hx). simpl in Hlt. lia.
Qed.

(** The labels of a list but the wildcard. *)
Definition plain (ls : Labels) : Labels := List.filter (fun x => negb (x.1 =? kWildcard)) ls.

Lemma elem_of_plain x ls : x ∈ plain ls <-> x ∈ ls /\ x.1 <> kWildcard.
Proof. unfold plain. rewrite !list_elem_of_In, filter_In. destruct (Z.eqb_spec x.1 kWildcard); naive_solver. Qed.

Lemma plain_sorted ls : sorted ls -> sorted (plain ls).
Proof.
  induction ls as [|x ls IH]; [done|]. intros [Hx Hs]%sorted_cons. unfold plain; simpl.
  destruct (negb _); [|by apply IH]. apply sorted_cons. split; [|by apply IH].
  intros y [Hy _]%elem_of_plain. by apply Hx.
Qed.

Lemma copies_plain l ls : l <> kWildcard -> copies l (plain ls) = copies l ls.
Proof.
  intros Hl. induction ls as [|x ls IH]; [done|]. unfold plain in *. simpl.
  destruct (Z.eqb_spec x.1 kWildcard) as [E|E]; simpl; rewrite IH; [|done].
  by rewrite E, (proj2 (Z.eqb_neq kWildcard l)) by done.
Qed.

Lemma union_rest_ok s st :
  sorted s -> below (result st) s ->
  union_rest s st = MkUnion (result st ++ plain s) (first_sum st) (second_sum st + total s)
                      (merged_sum st + total (plain s)).
Proof.
  revert st. induction s as [|[l c] s IH]; intros st Hs Hb; simpl.
  - destruct st; simpl. by rewrite app_nil_r, !Z.add_0_r.
  - apply sorted_cons in Hs as [Hlt Hs]. unfold plain; simpl. destruct (Z.eqb_spec l kWildcard) as [E|E]; simpl.
    + rewrite IH; [|done|]. { simpl. unfold plain. f_equal; lia. }
      simpl. intros x y Hx Hy. apply Hb; set_solver.
    + rewrite insert_end_append by (intros y Hy; apply Hb; set_solver).
      rewrite IH; [|done|].
      * simpl. rewrite <-app_assoc. simpl. unfold plain. f_equal; lia.
      * simpl. intros x y. rewrite elem_of_app, list_elem_of_singleton. intros [Hx| ->] Hy; [|by apply Hlt].
        apply Hb; set_solver.
Qed.

Definition positive_entry (x : Z * Z) : Prop := 0 < x.2.

(** What the loops add to the result for the rests [f] and [s] of the two lists. *)
Record merged (f s m : Labels) : Prop := MkMerged {
  merged_sorted : sorted m;
  merged_entries : Forall entry_ok m;
  merged_plain : forall x, x ∈ m -> x.1 <> kWildcard;
  merged_from : forall x, x ∈ m -> exists y, y ∈ f ++ s /\ x.1 = y.1;
  merged_copies : forall l, l <> kWildcard -> copies l m = Z.max (copies l f) (copies l s);
  merged_positive : Forall positive_entry f -> Forall positive_entry s -> Forall positive_entry m;
}.

Lemma merged_nil f s :
  sorted s -> Forall entry_ok s -> (forall x, x ∈ f -> x.1 = kWildcard) -> merged f s (plain s).
Proof.
  intros Hs He Hf. split.
  - by apply plain_sorted.
  - apply Forall_forall. intros x [Hx _]%elem_of_plain. by apply (proj1 (Forall_forall _ _) He).
  - by intros x [_ ?]%elem_of_plain.
  - intros x [Hx _]%elem_of_plain. exists x. set_solver.
  - intros l Hl. rewrite copies_plain by done. rewrite (copies_absent l f).
    + pose proof (copies_nonneg l s He). lia.
    + intros x Hx. rewrite (Hf x Hx). congruence.
  - rewrite !Forall_forall. intros _ Hp x [Hx _]%elem_of_plain. by apply Hp.
Qed.

(** One step of the loop: the labels of [s1] come before [l], and [mid] is the entry of [l] in the
    second list, if there is one. *)
Lemma merged_step l c f s1 mid s2 c2 m :
  sorted ((l, c) :: f) -> Forall entry_ok ((l, c) :: f) -> l <> kWildcard ->
  sorted s1 -> Forall entry_ok s1 -> (forall x, x ∈ s1 -> x.1 < l) ->
  0 <= c2 -> mid = [] /\ c2 = 0 \/ mid = [(l, c2)] -> (forall x, x ∈ s2 -> l < x.1) ->
  merged f s2 m ->
  merged ((l, c) :: f) (s1 ++ mid ++ s2) (s1 ++ (l, Z.max c c2) :: m).
Proof.
  intros [Hf Hsf]%sorted_cons [Hc Hef]%Forall_cons Hl Hs1 He1 Hlt Hc2 Hmid Hgt [M1 M2 M3 M4 M5 M6].
  assert (forall x, x ∈ m -> l < x.1) as Hm.
  { intros x (y & [Hy|Hy]%elem_of_app & ->)%M4; [by apply Hf|by apply Hgt]. }
  split.
  - apply sorted_app. split_and!; [|done|by apply sorted_cons].
    intros x y Hx [->|Hy]%elem_of_cons; [by apply Hlt|]. specialize (Hlt x Hx). specialize (Hm y Hy). lia.
  - apply Forall_app. split; [done|]. constructor; [|done]. destruct Hc. split; simpl in *; lia.
  - intros x [Hx|[->|Hx]%elem_of_cons]%elem_of_app; [|done|by apply M3].
    specialize (Hlt x Hx). destruct Hc as [? _]. simpl in *. lia.
  - intros x [Hx|[->|Hx]%elem_of_cons]%elem_of_app; [exists x; set_solver|exists (l, c); set_solver|].
    destruct (M4 x Hx) as (y & Hy & ->). exists y. set_solver.
  - intros l' Hl'. rewrite !copies_app, !copies_cons, (M5 l' Hl'). cbn [fst snd].
    pose proof (copies_nonneg l' s1 He1). destruct Hc as [_ Hc]. simpl in Hc.
    assert (copies l' mid = if l =? l' then c2 else 0) as ->.
    { destruct Hmid as [[-> ->]| ->]; simpl; destruct (l =? l'); lia. }
    destruct (Z.eqb_spec l l') as [<-|Hne].
    + rewrite (copies_absent l f), (copies_absent l s2), (copies_absent l s1); [lia| | |].
      * intros x Hx. specialize (Hlt x Hx). lia.
      * intros x Hx. specialize (Hgt x Hx). lia.
      * intros x Hx. specialize (Hf x Hx). simpl in Hf. lia.
    + destruct (Z.lt_ge_cases l' l).
      * rewrite (copies_absent l' f), (copies_absent l' s2); [lia| |];
          intros x Hx; [specialize (Hgt x Hx)|specialize (Hf x Hx)]; simpl in *; lia.
      * rewrite (copies_absent l' s1); [lia|]. intros x Hx. specialize (Hlt x Hx). lia.
  - rewrite !Forall_app. intros [Hp Hpf]%Forall_cons (Hp1 & _ & Hp2). split; [done|].
    constructor; [|by apply M6]. unfold positive_entry in *. simpl in *. lia.
Qed.

Lemma labels_ok_cons x ls : labels_ok (x :: ls) <-> entry_ok x /\ (forall y, y ∈ ls -> x.1 < y.1) /\ labels_ok ls.
Proof. unfold labels_ok. rewrite sorted_cons, Forall_cons. tauto. Qed.

Lemma labels_ok_app r ls : labels_ok (r ++ ls) <-> below r ls /\ labels_ok r /\ labels_ok ls.
Proof. unfold labels_ok. rewrite sorted_app, Forall_app. tauto. Qed.

(** What the loops do with the lists [f] and [s]. *)
Definition unites (f s : Labels) (st : UnionState) : Prop :=
  exists m s' st', union_loop f s st = Some (st', s') /\
    union_rest s' st' = MkUnion (result st ++ m) (first_sum st + total f) (second_sum st + total s)
                          (merged_sum st + total m) /\
    merged f s m.

(** One step, when the rest behaves. *)
Lemma unites_step l c f s1 mid s2 c2 st :
  labels_ok ((l, c) :: f) -> l <> kWildcard -> labels_ok s1 -> (forall x, x ∈ s1 -> x.1 < l) ->
  0 <= c2 -> mid = [] /\ c2 = 0 \/ mid = [(l, c2)] -> (forall x, x ∈ s2 -> l < x.1) ->
  (forall x, x ∈ result st ++ s1 -> x.1 < l) ->
  let st' := MkUnion (insert_end (result st ++ s1) (l, Z.max c c2)) (first_sum st + c)
               (second_sum st + total s1 + total mid) (merged_sum st + total s1 + Z.max c c2) in
  unites f s2 st' ->
  exists m s' st'', union_loop f s2 st' = Some (st'', s') /\
    union_rest s' st'' =
      MkUnion (result st ++ m) (first_sum st + total ((l, c) :: f))
        (second_sum st + total (s1 ++ mid ++ s2)) (merged_sum st + total m) /\
    merged ((l, c) :: f) (s1 ++ mid ++ s2) m.
Proof.
  intros [Hs He] Hl [Hs1 He1] Hlt Hc2 Hmid Hgt Hr. cbv zeta.
  rewrite insert_end_append by done. intros (m & s' & st'' & Hloop & Hrest & Hm).
  exists (s1 ++ (l, Z.max c c2) :: m), s', st''. split; [done|]. split.
  - rewrite Hrest. cbn [result first_sum second_sum merged_sum].
    rewrite !total_app, !total_cons, <-!app_assoc. cbn [app snd]. f_equal; lia.
  - by apply merged_step.
Qed.

Lemma union_loop_ok f s st :
  labels_ok f -> labels_ok s -> below (result st) f -> below (result st) s -> unites f s st.
Proof.
  revert s st. induction f as [|[l c] f IH]; intros s st Hf Hs Hbf Hbs.
  - exists (plain s), s, st. split; [done|]. destruct Hs as [Hs He]. split.
    + rewrite union_rest_ok by done. simpl. f_equal; lia.
    + apply merged_nil; set_solver.
  - apply labels_ok_cons in Hf as ([Hlab Hc] & Hgt & Hf'). simpl in Hlab, Hc.
    unfold unites. simpl. destruct (Z.eqb_spec l kWildcard) as [->|Hl].
    + assert (f = []) as ->.
      { destruct f as [|y f]; [done|]. apply labels_ok_cons in Hf' as ([? _] & _).
        specialize (Hgt y (list_elem_of_here _ _)). simpl in Hgt. lia. }
      exists (plain s), s. eexists. split; [done|]. destruct Hs as [Hs He]. split.
      * rewrite union_rest_ok by done. simpl. f_equal; lia.
      * apply merged_nil; [done..|]. set_solver.
    + destruct (take_smaller_ok l s st) as (s1 & s2 & -> & Hlt & Hge & ->); [lia|apply Hs|done|].
      apply labels_ok_app in Hs as (Hb12 & Hs1 & Hs2). simpl.
      assert (forall x, x ∈ result st ++ s1 -> x.1 < l) as Hrl.
      { intros x [Hx|Hx]%elem_of_app; [|by apply Hlt]. apply (Hbf x (l, c)); [done|left]. }
      assert (labels_ok ((l, c) :: f)) as Hok by (apply labels_ok_cons; done).
      assert (forall v ls, (forall x, x ∈ ls -> l < x.1) -> below (insert_end (result st ++ s1) (l, v)) ls) as Hbel.
      { intros v ls Hls x y. rewrite insert_end_append by done. rewrite elem_of_app, list_elem_of_singleton.
        intros [Hx| ->] Hy; [|by apply Hls]. specialize (Hls y Hy). specialize (Hrl x Hx). lia. }
      destruct s2 as [|[l2 c2] s2].
      * pose proof (unites_step l c f s1 [] [] 0 st Hok Hl Hs1 Hlt ltac:(lia) ltac:(auto) ltac:(set_solver) Hrl) as Hst.
        rewrite Z.max_l in Hst by lia. simpl in Hst. rewrite Z.add_0_r in Hst. apply Hst.
        apply IH; [done|done|by apply Hbel|apply Hbel; set_solver].
      * apply labels_ok_cons in Hs2 as Hs2'. destruct Hs2' as ([_ Hc2] & Hgt2 & Hok2). simpl in Hc2, Hgt2.
        destruct (Z.ltb_spec l l2) as [Hll|Hll].
        -- assert (forall x, x ∈ (l2, c2) :: s2 -> l < x.1) as Hl2.
           { intros x [->|Hx]%elem_of_cons; [done|]. specialize (Hgt2 x Hx). lia. }
           pose proof (unites_step l c f s1 [] ((l2, c2) :: s2) 0 st Hok Hl Hs1 Hlt ltac:(lia) ltac:(auto) Hl2 Hrl) as Hst.
           rewrite Z.max_l in Hst by lia. simpl in Hst. rewrite Z.add_0_r in Hst. apply Hst.
           apply IH; [done|done|by apply Hbel|by apply Hbel].
        -- assert (l2 = l) as -> by (specialize (Hge (l2, c2) (list_elem_of_here _ _)); simpl in Hge; lia).
           pose proof (unites_step l c f s1 [(l, c2)] s2 c2 st Hok Hl Hs1 Hlt Hc2 ltac:(auto) Hgt2 Hrl) as Hst.
           simpl in Hst. rewrite Z.add_0_r in Hst. apply Hst.
           apply IH; [done|done|by apply Hbel|by apply Hbel].
Qed.

Lemma assign_append r key value :
  (forall x, x ∈ r -> x.1 < key) -> assign r key value = r ++ [(key, value)].
Proof.
  intros H. unfold assign. cbv zeta.
  assert (partition_point (fun y => y.1 <? key) r = length r) as ->.
  { apply partition_point_all_true. apply Forall_forall. intros x Hx. specialize (H x Hx). lia. }
  by rewrite (lookup_ge_None_2 r (length r)) by done.
Qed.

(** Leaving out a label. *)
Definition without (l : Z) (ls : Labels) : Labels := List.filter (fun x => negb (x.1 =? l)) ls.

Lemma total_without l ls : total ls = copies l ls + total (without l ls).
Proof.
  induction ls as [|x ls IH]; [done|]. rewrite total_cons, copies_cons. unfold without; simpl.
  destruct (x.1 =? l); simpl; rewrite ?total_cons; unfold without in IH; lia.
Qed.

Lemma copies_without l l' ls : l <> l' -> copies l' (without l ls) = copies l' ls.
Proof.
  intros Hl. induction ls as [|x ls IH]; [done|]. unfold without in *. simpl.
  destruct (Z.eqb_spec x.1 l) as [->|E]; simpl; rewrite IH; [|done].
  by rewrite (proj2 (Z.eqb_neq l l')).
Qed.

Lemma without_ok l ls : Forall entry_ok ls -> Forall entry_ok (without l ls).
Proof.
  rewrite !Forall_forall. intros H x. unfold without. rewrite list_elem_of_In, filter_In, <-list_elem_of_In.
  intros [Hx _]. by apply H.
Qed.

(** Labels that want as many copies of every label want as many copies in all. *)
Lemma total_le m v :
  sorted m -> Forall entry_ok v -> (forall x, x ∈ m -> copies x.1 m <= copies x.1 v) ->
  total m <= total v.
Proof.
  revert v. induction m as [|x m IH]; intros v Hs Hv Hle; [by apply total_nonneg|].
  apply sorted_cons in Hs as [Hx Hs]. rewrite total_cons, (total_without x.1 v).
  assert (copies x.1 m = 0) as E0.
  { apply copies_absent. intros y Hy. specialize (Hx y Hy). lia. }
  assert (x.2 <= copies x.1 v).
  { specialize (Hle x (list_elem_of_here _ _)). rewrite copies_cons, Z.eqb_refl in Hle. lia. }
  enough (total m <= total (without x.1 v)) by lia.
  apply IH; [done|by apply without_ok|]. intros y Hy. specialize (Hx y Hy).
  rewrite copies_without by lia. etrans; [|apply Hle; by right].
  rewrite copies_cons, (proj2 (Z.eqb_neq x.1 y.1)) by lia. lia.
Qed.

(** What a union of the labels [f] and [s] is. *)
Record union_of (f s u : Labels) : Prop := MkUnionOf {
  union_ok : labels_ok u;
  union_copies : forall l, l <> kWildcard -> copies l u = Z.max (copies l f) (copies l s);
  union_first : total f <= total u;
  union_second : total s <= total u;
  union_least : forall v, Forall entry_ok v ->
    (forall l, l <> kWildcard -> Z.max (copies l f) (copies l s) <= copies l v) ->
    total f <= total v -> total s <= total v -> total u <= total v;
  union_positive : Forall positive_entry f -> Forall positive_entry s -> Forall positive_entry u;
  union_wildcard : copies kWildcard u = Z.max 0 (Z.max (total f) (total s) - (total u - copies kWildcard u));
}.

Lemma makeLabelsUnion_ok first second :
  labels_ok first -> labels_ok second -> total first <= 65535 -> total second <= 65535 ->
  exists u, makeLabelsUnion first second = Some u /\ union_of first second u.
Proof.
  intros Hf Hs Bf Bs.
  destruct (union_loop_ok first second (MkUnion [] 0 0 0) Hf Hs) as (m & s' & st' & Hl & Hr & [M1 M2 M3 M4 M5 M6]);
    [by intros x y []%not_elem_of_nil..|].
  unfold makeLabelsUnion. rewrite Hl. simpl. rewrite Hr. cbn [result first_sum second_sum merged_sum app].
  rewrite !Z.add_0_l.
  assert (forall x, x ∈ m -> x.1 < kWildcard) as Hw.
  { intros x Hx. pose proof (M3 x Hx). destruct (proj1 (Forall_forall _ _) M2 x Hx). lia. }
  assert (forall v, Forall entry_ok v ->
    (forall l, l <> kWildcard -> Z.max (copies l first) (copies l second) <= copies l v) ->
    total m <= total v) as Hmin.
  { intros v Hv Hge. apply total_le; [done..|]. intros x Hx. rewrite M5 by (by apply M3).
    apply Hge. by apply M3. }
  pose proof (total_nonneg m M2) as Hm0.
  assert (copies kWildcard m = 0) as Hw0 by (apply copies_absent; intros x Hx; specialize (Hw x Hx); lia).
  set (w := Z.max (total first) (total second) - total m).
  destruct (Z.ltb_spec 0 w) as [H|H]; eexists; (split; [done|]).
  - rewrite assign_append by done. unfold u16. rewrite wrap_small by (unfold is_uint; change (2 ^ 16) with 65536; lia).
    split.
    + apply labels_ok_app. split_and!; [|done|].
      * intros x y Hx ->%list_elem_of_singleton. by apply Hw.
      * repeat constructor; simpl; unfold kWildcard; lia.
    + intros l Hl0. rewrite copies_app, copies_cons, M5 by done. cbn [fst snd copies foldr].
      rewrite (proj2 (Z.eqb_neq kWildcard l)) by done. lia.
    + rewrite total_app. simpl. lia.
    + rewrite total_app. simpl. lia.
    + intros v Hv Hge Hv1 Hv2. specialize (Hmin v Hv Hge). rewrite total_app. simpl. lia.
    + intros Hpf Hps. apply Forall_app. split; [by apply M6|]. by repeat constructor.
    + rewrite copies_app, copies_cons, total_app. cbn [fst snd copies foldr total]. rewrite Z.eqb_refl. lia.
  - split; [done|done|lia..| |done|lia]. intros v Hv Hge _ _. by apply Hmin.
Qed.

(** ** Goals as maps from slice types to slices *)

(** The slices are in the order of their types, one of each type. *)
Definition goal_ok (g : Goal) : Prop := StronglySorted (fun s t => slice_ltb s t = true) (goal_slices_ g).

Lemma find_slice_cases l type :
  StronglySorted (fun s t => slice_ltb s t = true) l ->
  (exists l1 x l2, l = l1 ++ x :: l2 /\ type_ x = type /\ find_slice l type = Some (length l1)) \/
  (find_slice l type = None /\ forall x, x ∈ l -> type_ x <> type).
Proof.
  intros HS. unfold find_slice. set (it := partition_point _ l).
  pose proof (partition_point_take (fun s => type_ s <? type) l) as Ht. fold it in Ht.
  rewrite Forall_forall in Ht.
  assert (forall x, x ∈ take it l -> type_ x <> type) as Hlow by (intros x Hx%Ht; lia).
  cbv zeta. destruct (l !! it) as [x|] eqn:E.
  - assert ((type_ x <? type) = false) as Hge.
    { eapply (partition_point_drop (fun s => type_ s <? type)). fold it. by apply drop_S. }
    rewrite <-(take_drop it l), (drop_S _ _ _ E) in HS. apply StronglySorted_app in HS as (_ & _ & HS).
    apply StronglySorted_cons in HS as [Hx _]. rewrite Forall_forall in Hx. unfold slice_ltb in Hx.
    destruct (Z.ltb_spec type (type_ x)).
    + right. split; [done|]. intros y. rewrite <-(take_drop it l), (drop_S _ _ _ E).
      intros [Hy|[->|Hy]%elem_of_cons]%elem_of_app; [by apply Hlow|lia|]. specialize (Hx y Hy). lia.
    + left. exists (take it l), x, (drop (S it) l). rewrite <-(drop_S _ _ _ E), take_drop.
      split_and!; [done|lia|]. f_equal. symmetry. apply length_take_le.
      apply lookup_lt_Some in E. lia.
  - right. split; [done|]. intros x Hx. apply Hlow. apply lookup_ge_None in E.
    by rewrite take_ge by lia.
Qed.

Lemma slice_of_iff g type s :
  goal_ok g -> slice_of g type = Some s <-> s ∈ goal_slices_ g /\ type_ s = type.
Proof.
  intros HS. unfold slice_of.
  destruct (find_slice_cases (goal_slices_ g) type HS) as [(l1 & x & l2 & El & Ex & ->)|[-> Hno]]; simpl.
  - unfold goal_ok in HS. rewrite El in *. rewrite list_lookup_middle by done.
    apply StronglySorted_app in HS as (H1 & _ & H2). apply StronglySorted_cons in H2 as [H2 _].
    rewrite Forall_forall in H2. unfold slice_ltb in *. split; [intros [= ->]; set_solver|].
    intros [[Hs|[->|Hs]%elem_of_cons]%elem_of_app Et]; [|done|].
    + specialize (H1 s x Hs (list_elem_of_here _ _)). lia.
    + specialize (H2 s Hs). lia.
  - split; [done|]. intros [Hs Et]. by destruct (Hno s Hs).
Qed.

(** The slices after setSlice(). *)
Lemma setSlice_ok g s :
  goal_ok g -> goal_ok (setSlice g s) /\
  forall x, x ∈ goal_slices_ (setSlice g s) <-> x = s \/ (x ∈ goal_slices_ g /\ type_ x <> type_ s).
Proof.
  intros HS. unfold setSlice, goal_ok in *.
  destruct (find_slice_cases (goal_slices_ g) (type_ s) HS) as [(l1 & x & l2 & El & Ex & ->)|[-> Hno]]; simpl.
  - rewrite El in *. rewrite insert_app_r_alt, Nat.sub_diag by done. simpl.
    apply StronglySorted_app in HS as (H1 & HS1 & H2). apply StronglySorted_cons in H2 as [H2 HS2].
    rewrite Forall_forall in H2. unfold slice_ltb in *. rewrite Ex in H2. split.
    + apply StronglySorted_app. split_and!; [|done|].
      * intros a b Ha [->|Hb]%elem_of_cons; [rewrite <-Ex|]; apply H1; set_solver.
      * apply StronglySorted_cons. split; [by apply Forall_forall|done].
    + intros y. rewrite !elem_of_app, !elem_of_cons. split.
      * intros [Hy|[->|Hy]]; [right|by left|right].
        -- split; [auto|]. specialize (H1 y x Hy (list_elem_of_here _ _)). lia.
        -- split; [auto|]. specialize (H2 y Hy). lia.
      * intros [->|[[Hy|[->|Hy]] Hne]]; auto. done.
  - assert (forall x y z, slice_ltb x y = true -> slice_ltb y z = true -> slice_ltb x z = true) as Htr
      by (unfold slice_ltb; intros; lia).
    split; [by apply set_insert_sorted|].
    destruct (set_insert_cases slice_ltb (goal_slices_ g) s) as [E|(s1 & s2 & E1 & -> & _)].
    + exfalso. unfold set_insert in E. set (it := partition_point _ _) in E.
      destruct (goal_slices_ g !! it) as [y|] eqn:Ey; [|by apply (f_equal length) in E; rewrite length_app in E; simpl in E; lia].
      destruct (slice_ltb s y) eqn:Ely.
      * apply (f_equal length) in E. rewrite length_app in E. simpl in E.
        rewrite length_take, length_drop in E. apply lookup_lt_Some in Ey. lia.
      * apply (Hno y); [by eapply list_elem_of_lookup_2|].
        pose proof (partition_point_drop (fun x => slice_ltb x s) (goal_slices_ g) y (drop (S it) (goal_slices_ g))
          (drop_S _ _ _ Ey)) as Hys. unfold slice_ltb in Hys, Ely. simpl in Hys. lia.
    + intros x. rewrite E1 in Hno |- *. rewrite !elem_of_app, elem_of_cons. split; [|set_solver].
      intros [Hx|[->|Hx]]; [right|by left|right]; (split; [auto|]); apply Hno; set_solver.
Qed.

Lemma setSlice_lookup g s type :
  goal_ok g -> slice_of (setSlice g s) type = if type =? type_ s then Some s else slice_of g type.
Proof.
  intros HS. destruct (setSlice_ok g s HS) as [HS' Hin].
  apply option_eq. intros x. rewrite slice_of_iff, Hin by done.
  destruct (Z.eqb_spec type (type_ s)) as [->|Hne].
  - split; [intros [[->|[_ ?]] ?]; done|intros [= ->]; auto].
  - rewrite slice_of_iff by done. split; [intros [[->|[? _]] ?]; done|].
    intros [? ?]. split; [right; split; congruence|done].
Qed.

(** ** Properties *)

(** setSlice() and the access to slices by type.  A goal keeps its slices ordered by type, one of
    each; after setSlice() the type of the slice gives that slice and every other type what it gave
    before. *)
Theorem goal_set_lookup g s type :
  goal_ok g ->
  goal_ok (setSlice g s) /\
  slice_of (setSlice g s) type = if type =? type_ s then Some s else slice_of g type.
Proof.
  intros HS. split; [by apply setSlice_ok|by apply setSlice_lookup].
Qed.

(** C18: the union of the labels of two parts.  Unless more than 65535 copies are wanted, the union
    wants on every label but the wildcard the larger of the two numbers of copies, and on the wildcard
    what is missing to the larger of the two totals; in all at least as many copies as each of the two;
    and no labels that do so want fewer copies in all. *)
Theorem labels_union_optimal first second :
  labels_ok first -> labels_ok second ->
  countLabels first <= 65535 -> countLabels second <= 65535 ->
  exists u, makeLabelsUnion first second = Some u /\ labels_ok u /\
    (forall l, l <> kWildcard -> copies l u = Z.max (copies l first) (copies l second)) /\
    copies kWildcard u =
      Z.max 0 (Z.max (countLabels first) (countLabels second) - (countLabels u - copies kWildcard u)) /\
    countLabels first <= countLabels u /\ countLabels second <= countLabels u /\
    (forall v, labels_ok v ->
       (forall l, l <> kWildcard -> Z.max (copies l first) (copies l second) <= copies l v) ->
       countLabels first <= countLabels v -> countLabels second <= countLabels v ->
       countLabels u <= countLabels v).
Proof.
  intros Hf Hs. rewrite !countLabels_total. intros Bf Bs.
  destruct (makeLabelsUnion_ok first second Hf Hs Bf Bs) as (u & E & [U1 U2 U3 U4 U5 _ U7]).
  exists u. rewrite countLabels_total. split_and!; [done..|].
  intros v [_ Hv]. rewrite !countLabels_total. by apply U5.
Qed.

(** Two slices of type xor2: the part with the labels 1 and 2 is the first or the second. *)
Definition slice_a : Slice := MkSlice 2 [2; 1; 1]%nat [(1, 1); (2, 1); (3, 1); (4, 1)].
Definition slice_b : Slice := MkSlice 2 [1; 2; 1]%nat [(1, 1); (2, 1); (3, 1); (4, 1)].

(** the equality of slices looks at the type and at the labels of all parts in a row, not at where
    the parts begin: two valid slices that place their parts differently are equal. *)
Theorem slice_equality_ignores_parts :
  Slice_isValid slice_a = true /\ Slice_isValid slice_b = true /\ Slice_eqb slice_a slice_b = true /\
  part slice_a 0 = [(1, 1); (2, 1)] /\ part slice_b 0 = [(1, 1)].
Proof. vm_compute. done. Qed.

Lemma labels_union_optimal_witness :
  exists u, makeLabelsUnion [(1, 2); (kWildcard, 3)] [(1, 1); (2, 1)] = Some u /\ copies 2 u = 1.
Proof.
  destruct (labels_union_optimal [(1, 2); (kWildcard, 3)] [(1, 1); (2, 1)]) as (u & Hu & _ & Hc & _).
  - split; [|repeat constructor; unfold kWildcard; simpl; lia].
    repeat constructor.
  - split; [|repeat constructor; unfold kWildcard; simpl; lia].
    repeat constructor.
  - vm_compute. discriminate.
  - vm_compute. discriminate.
  - exists u. split; [exact Hu|]. rewrite Hc; [reflexivity|]. discriminate.
Defined.

Lemma goal_set_lookup_witness :
  slice_of (setSlice (MkGoal [] [slice_a]) (MkSlice 0 [1]%nat [(1, 2)])) 0 = Some (MkSlice 0 [1]%nat [(1, 2)]).
Proof.
  apply (goal_set_lookup (MkGoal [] [slice_a]) (MkSlice 0 [1]%nat [(1, 2)]) 0).
  repeat constructor.
Defined.
