(* ===== verification/Assignment.v ===== *)
(** The assignment optimizer: Bertsekas' auction algorithm (src/common/linear_assignment_optimizer.h).

    Persons bid for objects; a bid raises the price of an object by at least epsilon and takes the
    object from its holder.  The arrays of the source are lists of the problem's size (the rest of the
    arrays is never touched).  Arithmetic is on 32-bit ints: an overflow, which is undefined in C++, is
    [None], like a failed assertion.  The theorem at the end says that for matrices of moderate values
    no overflow happens, every loop terminates, and the result is an optimal assignment. *)
From S2P Require Import Prelude.

(** ** Ints *)

Definition int_min : Z := -2147483648.
Definition int_max : Z := 2147483647.

(** The result of an int operation. *)
Definition as_int (x : Z) : option Z := if (int_min <=? x) && (x <=? int_max) then Some x else None.

Lemma bind_Some_eq {A B} (x : option A) (a : A) (f : A -> option B) : x = Some a -> x ≫= f = f a.
Proof. by intros ->. Qed.

Lemma as_int_ok x : int_min <= x <= int_max -> as_int x = Some x.
Proof. intros. unfold as_int. by replace (_ && _) with true by lia. Qed.

(** ** One auction *)

Record Auction := MkAuction {
  assignment : list Z;
  object_assignment : list Z;
  prices : list Z;
  unassigned_idx : nat;
  assigned_count : Z;
}.

(** The inner while loop: the next person without an object. *)
Fixpoint next_unassigned (fuel size : nat) (assigned : list Z) (idx : nat) : option nat :=
  match fuel with
  | O => None
  | S fuel =>
    if 0 <=? assigned !!! idx then
      next_unassigned fuel size assigned (if (size <=? S idx)%nat then 0%nat else S idx)
    else Some idx
  end.

(** The for loop: the two highest profits [w] <= [v] and the object of [v]; [row] and [prices] from
    index [i] on. *)
Fixpoint best_objects (row ps : list Z) (i : Z) (w v v_idx : Z) : option (Z * Z * Z) :=
  match row, ps with
  | a :: row, p :: ps =>
    c ← as_int (a - p);
    if negb (int_min <? c) then None
    else if v <? c then best_objects row ps (i + 1) v c i
    else best_objects row ps (i + 1) (Z.max c w) v v_idx
  | _, _ => Some (w, v, v_idx)
  end.

(** One bid; the loop returns when all persons have an object. *)
Definition bid (matrix : list (list Z)) (eps : Z) (size : nat) (st : Auction)
  : Auction + option Auction :=
  if negb (assigned_count st <? Z.of_nat size) then inr (Some st)
  else
    match
      i ← next_unassigned size size (assignment st) (unassigned_idx st);
      '(w, v, v_idx) ← best_objects (matrix !!! i) (prices st) 0 int_min int_min (-1);
      d ← as_int (v - w); raise ← as_int (d + eps);
      if negb (0 <? raise) || (v_idx <? 0) then None
      else
        let j := Z.to_nat v_idx in
        price ← as_int (prices st !!! j + raise);
        let idx := object_assignment st !!! j in
        let taken := 0 <=? idx in
        Some (MkAuction
          (<[i := v_idx]> (if taken then <[Z.to_nat idx := -1]> (assignment st) else assignment st))
          (<[j := Z.of_nat i]> (object_assignment st))
          (<[j := price]> (prices st))
          i
          ((if taken then assigned_count st - 1 else assigned_count st) + 1))
    with
    | Some st' => inl st'
    | None => inr None
    end.

(** A loop that runs into its bound is as undefined as an overflow. *)
Definition finish {St R} (x : St + option R) : option R :=
  match x with inr r => r | inl _ => None end.

Definition auctionStep (matrix : list (list Z)) (ps : list Z) (eps : Z) (size : nat) : option Auction :=
  if (size <=? 1)%nat then None
  else finish (run (bid matrix eps size) loop_bound
    (MkAuction (replicate size (-1)) (replicate size (-1)) ps 0 0)).

(** ** The optimization *)

(** The scaling of the matrix, with the largest value. *)
Definition scale (size : nat) (matrix : list (list Z)) : option (list (list Z)) :=
  mapM (fun row => mapM (fun x => as_int (x * (Z.of_nat size + 1))) row) matrix.

Definition max_value (matrix : list (list Z)) : Z :=
  foldl (fun m row => foldl (fun m x => Z.max x m) m row) int_min matrix.

(** The while loop over epsilon; the state has epsilon, the prices and the last auction. *)
Definition scaling_step (matrix : list (list Z)) (size : nat) (st : Z * list Z)
  : (Z * list Z) + option (list Z) :=
  let '(eps, ps) := st in
  if 1 <? eps then
    match auctionStep matrix ps eps size with
    | Some a => inl (Z.quot (eps + 2) 5, prices a)
    | None => inr None
    end
  else inr (Some ps).

(** auctionOptimization(): the assignment of persons to objects; [capacity] is the length of the
    arrays. *)
Definition auctionOptimization (capacity : nat) (matrix : list (list Z)) (size : nat)
  : option (list Z) :=
  if (capacity <? size)%nat then None
  else if (size =? 0)%nat then Some []
  else if (size =? 1)%nat then Some [0]
  else
    scaled ← scale size matrix;
    sum ← as_int (max_value scaled + 12);
    ps ← finish (run (scaling_step scaled size) loop_bound (Z.quot sum 25, replicate size 0));
    a ← auctionStep scaled ps 1 size;
    Some (assignment a).

(** ** Sums and counts *)

Definition Zsum (l : list Z) : Z := foldr Z.add 0 l.

Lemma Zsum_app l1 l2 : Zsum (l1 ++ l2) = Zsum l1 + Zsum l2.
Proof. unfold Zsum. induction l1; simpl; lia. Qed.

#[export] Instance Zsum_Permutation : Proper (Permutation ==> eq) Zsum.
Proof. intros l1 l2 H. induction H; simpl; lia. Qed.

Lemma Zsum_insert l i x : (i < length l)%nat -> Zsum (<[i:=x]> l) = Zsum l - l !!! i + x.
Proof.
  revert i. induction l as [|a l IH]; intros [|i] H; simpl in *; try lia.
  rewrite IH by lia. change ((a :: l) !!! S i) with (l !!! i). lia.
Qed.

Lemma Zsum_le l b : Forall (fun x => x <= b) l -> Zsum l <= Z.of_nat (length l) * b.
Proof. induction 1; simpl; lia. Qed.

Lemma Zsum_zip_le {A B} (f g : A -> B -> Z) l k :
  (forall i x y, l !! i = Some x -> k !! i = Some y -> f x y <= g x y) ->
  Zsum (zip_with f l k) <= Zsum (zip_with g l k).
Proof.
  revert k. induction l as [|x l IH]; intros [|y k] H; simpl; try lia.
  pose proof (H 0%nat x y eq_refl eq_refl). enough (Zsum (zip_with f l k) <= Zsum (zip_with g l k)) by lia.
  apply IH. intros i x' y' Hx Hy. by apply (H (S i)).
Qed.

(** How many entries are set. *)
Definition count_set (l : list Z) : Z := Z.of_nat (length (List.filter (Z.leb 0) l)).

Lemma count_set_insert l i x :
  (i < length l)%nat ->
  count_set (<[i:=x]> l) = count_set l - Z.b2z (0 <=? l !!! i) + Z.b2z (0 <=? x).
Proof.
  unfold count_set. revert i. induction l as [|a l IH]; intros [|i] H; simpl in *; try lia.
  - change ((a :: l) !!! 0%nat) with a. destruct (0 <=? a), (0 <=? x); simpl; lia.
  - change ((a :: l) !!! S i) with (l !!! i). specialize (IH i ltac:(lia)).
    destruct (0 <=? a); simpl length; lia.
Qed.

Lemma count_set_le l : count_set l <= Z.of_nat (length l).
Proof. unfold count_set. pose proof (List.filter_length_le (Z.leb 0) l). lia. Qed.

Lemma count_set_full l :
  count_set l = Z.of_nat (length l) -> forall i, (i < length l)%nat -> 0 <= l !!! i.
Proof.
  unfold count_set. induction l as [|a l IH]; intros H i Hi; simpl in *; [lia|].
  pose proof (List.filter_length_le (Z.leb 0) l).
  destruct (Z.leb_spec 0 a); simpl in H; [|lia].
  destruct i as [|i]; [done|]. change ((a :: l) !!! S i) with (l !!! i). apply IH; lia.
Qed.

Lemma count_set_all l :
  (forall i, (i < length l)%nat -> 0 <= l !!! i) -> count_set l = Z.of_nat (length l).
Proof.
  unfold count_set. induction l as [|a l IH]; intros H; simpl; [done|].
  pose proof (H 0%nat ltac:(simpl; lia)) as Ha. change ((a :: l) !!! 0%nat) with a in Ha.
  replace (0 <=? a) with true by lia. simpl. rewrite Nat2Z.inj_succ, IH; [lia|].
  intros i Hi. apply (H (S i)). simpl. lia.
Qed.

(** Numbers below [n], all different, [n] of them. *)
Lemma permutation_of_injective (l : list nat) n :
  length l = n -> (forall i x, l !! i = Some x -> (x < n)%nat) ->
  (forall i j x, l !! i = Some x -> l !! j = Some x -> i = j) ->
  Permutation l (seq 0 n).
Proof.
  intros Hl Hlt Hinj. apply submseteq_length_Permutation; [|rewrite length_seq; lia].
  apply NoDup_submseteq; [apply NoDup_alt; eauto|].
  intros x [i Hi]%list_elem_of_lookup_1. apply elem_of_seq. specialize (Hlt i x Hi). lia.
Qed.

(** ** The scan for the best object *)

(** Among the profits [cs] the one at [j] is the highest, [w] bounds the others. *)
Definition is_best (cs : list Z) (w v j : Z) : Prop :=
  w <= v /\ exists i, j = Z.of_nat i /\ cs !! i = Some v /\
    forall k c, cs !! k = Some c -> k <> i -> c <= w.

Lemma is_best_snoc cs w v j c :
  is_best cs w v j ->
  if v <? c then is_best (cs ++ [c]) v c (Z.of_nat (length cs)) else is_best (cs ++ [c]) (Z.max c w) v j.
Proof.
  intros (Hw & i & -> & Hi & Hk).
  assert (forall k c', (cs ++ [c]) !! k = Some c' -> (k = length cs /\ c' = c) \/ cs !! k = Some c') as Hsnoc.
  { intros k c' H. apply lookup_app_Some in H as [H|[Hge H]]; [by right|left].
    apply list_lookup_singleton_Some in H as [? ->]. split; [lia|done]. }
  destruct (Z.ltb_spec v c) as [H|H].
  - split; [lia|]. exists (length cs). split; [done|]. rewrite list_lookup_middle by done. split; [done|].
    intros k c' [[-> ->]|Hc]%Hsnoc Hne; [done|]. destruct (decide (k = i)) as [->|Hki]; [by simplify_eq|].
    specialize (Hk k c' Hc Hki). lia.
  - split; [lia|]. exists i. split; [done|]. split; [by apply lookup_app_l_Some|].
    intros k c' [[-> ->]|Hc]%Hsnoc Hne; [lia|]. specialize (Hk k c' Hc Hne). lia.
Qed.

Lemma best_objects_continue row ps cs w v j :
  length row = length ps ->
  Forall (fun c => int_min < c <= int_max) (zip_with Z.sub row ps) -> is_best cs w v j ->
  exists w' v' j', best_objects row ps (Z.of_nat (length cs)) w v j = Some (w', v', j') /\
    is_best (cs ++ zip_with Z.sub row ps) w' v' j'.
Proof.
  revert ps cs w v j. induction row as [|a row IH]; intros [|p ps] cs w v j Hl HF Hb; try done.
  { exists w, v, j. simpl. by rewrite app_nil_r. }
  simpl in Hl, HF. apply Forall_cons in HF as [Hc HF]. cbn [best_objects zip_with].
  rewrite as_int_ok by lia. cbn [mbind option_bind].
  replace (negb (int_min <? a - p)) with false by lia.
  pose proof (is_best_snoc cs w v j (a - p) Hb) as Hs.
  replace (Z.of_nat (length cs) + 1) with (Z.of_nat (length (cs ++ [a - p])))
    by (rewrite length_app; simpl; lia).
  assert (cs ++ a - p :: zip_with Z.sub row ps = (cs ++ [a - p]) ++ zip_with Z.sub row ps) as ->
    by by rewrite <-app_assoc.
  destruct (v <? a - p); apply IH; try done; lia.
Qed.

(** The first profit is better than nothing. *)
Lemma best_objects_ok row ps :
  (0 < length row)%nat -> length row = length ps ->
  Forall (fun c => int_min < c <= int_max) (zip_with Z.sub row ps) ->
  exists w v j, best_objects row ps 0 int_min int_min (-1) = Some (w, v, j) /\
    is_best (zip_with Z.sub row ps) w v j.
Proof.
  destruct row as [|a row], ps as [|p ps]; simpl; intros H0 Hl HF; try lia.
  apply Forall_cons in HF as [Hc HF].
  rewrite as_int_ok by lia. cbn [mbind option_bind]. replace (int_min <? a - p) with true by lia. simpl negb. cbn iota.
  apply (best_objects_continue row ps [a - p] int_min (a - p) 0); [lia|done|].
  split; [lia|]. exists 0%nat. split_and!; [done..|]. intros [|k] c Hk Hne; [done|by destruct k].
Qed.

(** ** One auction *)

Lemma next_unassigned_ok size assigned idx fuel i :
  (idx < size)%nat -> (i < size)%nat -> assigned !!! i < 0 ->
  (if (idx <=? i)%nat then i - idx < fuel else i + size - idx < fuel)%nat ->
  exists r, next_unassigned fuel size assigned idx = Some r /\ (r < size)%nat /\ assigned !!! r < 0.
Proof.
  revert idx. induction fuel as [|fuel IH]; intros idx Hidx Hi Hneg Hf; simpl.
  { destruct (idx <=? i)%nat; lia. }
  destruct (Z.leb_spec 0 (assigned !!! idx)) as [H|H]; [|eauto].
  assert (idx <> i) by (intros ->; lia).
  destruct (Nat.leb_spec size (S idx)); apply IH; try done; try lia;
    destruct (Nat.leb_spec idx i); try lia.
  - destruct (Nat.leb_spec 0 i); lia.
  - destruct (Nat.leb_spec (S idx) i); lia.
  - destruct (Nat.leb_spec (S idx) i); lia.
Qed.

(** The value of an assignment of objects to persons. *)
Definition value (matrix : list (list Z)) (objects : list nat) : Z :=
  Zsum (zip_with (fun row j => row !!! j) matrix objects).

(** Two assignments, when each person is content with the second at prices [g]. *)
Lemma value_exchange (matrix : list (list Z)) (tau sigma : list nat) (g : nat -> Z) (eps : Z) :
  length tau = length matrix -> length sigma = length matrix ->
  (forall i row t s, matrix !! i = Some row -> tau !! i = Some t -> sigma !! i = Some s ->
    row !!! t - g t - eps <= row !!! s - g s) ->
  value matrix tau <= value matrix sigma + Zsum (g <$> tau) - Zsum (g <$> sigma)
    + Z.of_nat (length matrix) * eps.
Proof.
  unfold value. revert tau sigma. induction matrix as [|row matrix IH]; intros [|t tau] [|s sigma] Ht Hs H;
    simpl in Ht, Hs |- *; try lia.
  change (list_fmap nat Z g) with (fmap (M := list) g).
  pose proof (H 0%nat row t s eq_refl eq_refl eq_refl).
  enough (Zsum (zip_with (fun row j => row !!! j) matrix tau) <=
    Zsum (zip_with (fun row j => row !!! j) matrix sigma) + Zsum (g <$> tau) - Zsum (g <$> sigma)
    + Z.of_nat (length matrix) * eps) by lia.
  apply IH; [simpl in *; lia..|]. intros i row' t' s' E1 E2 E3. by apply (H (S i)).
Qed.

Section auction.
Context (n : nat) (matrix : list (list Z)) (eps C P : Z) (ps0 : list Z).
Context (Hn : (2 <= n)%nat) (Hsize : Z.of_nat n <= int_max) (Hrows : length matrix = n)
  (Hrow : forall i, (i < n)%nat -> length (matrix !!! i) = n)
  (Hval : forall i j, (i < n)%nat -> (j < n)%nat -> - C <= matrix !!! i !!! j <= C)
  (Heps : 1 <= eps <= C) (HP : 0 <= P) (Hmax : P + 6 * C < int_max)
  (Hlen0 : length ps0 = n)
  (Hps0 : forall j, (j < n)%nat -> 0 <= ps0 !!! j <= P).

(** The price of an object while another is free, and at the end. *)
Definition bound1 : Z := P + 2 * C + eps.
Definition bound2 : Z := P + 4 * C + 2 * eps.

Record auction_ok (st : Auction) : Prop := MkAuctionOk {
  ok_len_a : length (assignment st) = n;
  ok_len_o : length (object_assignment st) = n;
  ok_len_p : length (prices st) = n;
  ok_idx : (unassigned_idx st < n)%nat;
  (* the two arrays are inverse to each other *)
  ok_person : forall i, (i < n)%nat -> assignment st !!! i = -1 \/
    exists j, (j < n)%nat /\ assignment st !!! i = Z.of_nat j /\ object_assignment st !!! j = Z.of_nat i;
  ok_object : forall j, (j < n)%nat -> object_assignment st !!! j = -1 \/
    exists i, (i < n)%nat /\ object_assignment st !!! j = Z.of_nat i /\ assignment st !!! i = Z.of_nat j;
  ok_count : assigned_count st = count_set (assignment st);
  (* a free object has its first price *)
  ok_free : forall j, (j < n)%nat -> object_assignment st !!! j = -1 -> prices st !!! j = ps0 !!! j;
  ok_low : forall j, (j < n)%nat -> 0 <= prices st !!! j;
  ok_bound1 : assigned_count st < Z.of_nat n -> forall j, (j < n)%nat -> prices st !!! j <= bound1;
  ok_bound2 : forall j, (j < n)%nat -> prices st !!! j <= bound2;
  (* epsilon complementary slackness *)
  ok_slack : forall i j k, (i < n)%nat -> (j < n)%nat -> (k < n)%nat ->
    assignment st !!! i = Z.of_nat j ->
    matrix !!! i !!! k - prices st !!! k - eps <= matrix !!! i !!! j - prices st !!! j;
}.

Lemma start_ok : auction_ok (MkAuction (replicate n (-1)) (replicate n (-1)) ps0 0 0).
Proof.
  assert (forall i, (i < n)%nat -> replicate n (-1) !!! i = -1) as Hr
    by (intros i Hi; by apply lookup_total_replicate_2).
  split; simpl; rewrite ?length_replicate; try done; try lia.
  - intros i Hi. left. by apply Hr.
  - intros j Hj. left. by apply Hr.
  - unfold count_set. assert (List.filter (Z.leb 0) (replicate n (-1)) = []) as ->; [|done].
    clear. induction n; simpl; auto.
  - intros j Hj. by apply Hps0.
  - intros _ j Hj. specialize (Hps0 j Hj). unfold bound1. lia.
  - intros j Hj. specialize (Hps0 j Hj). unfold bound2. lia.
  - intros i j k Hi Hj Hk E. rewrite Hr in E by done. lia.
Qed.

Lemma lookup_total_Some (l : list Z) i : (i < length l)%nat -> l !! i = Some (l !!! i).
Proof. intros Hi. destruct (lookup_lt_is_Some_2 l i Hi) as [x Hx]. by rewrite (list_lookup_total_correct l i x Hx). Qed.

(** The persons of the objects, when all objects are taken, and the objects of the persons. *)
Lemma inverse_permutation (l k : list Z) :
  length l = n -> length k = n ->
  (forall i, (i < n)%nat -> exists j, (j < n)%nat /\ l !!! i = Z.of_nat j /\ k !!! j = Z.of_nat i) ->
  Permutation (Z.to_nat <$> l) (seq 0 n).
Proof.
  intros Hl Hk H.
  assert (forall i x, (Z.to_nat <$> l) !! i = Some x -> (i < n)%nat /\ (x < n)%nat /\ k !!! x = Z.of_nat i) as Hi.
  { intros i x. rewrite list_lookup_fmap, fmap_Some. intros (y & Hy & ->).
    pose proof (lookup_lt_Some _ _ _ Hy) as Hlt. rewrite Hl in Hlt. destruct (H i Hlt) as (j & Hj & E & E').
    rewrite (list_lookup_total_correct l i y Hy) in E. subst y. rewrite Nat2Z.id. done. }
  apply permutation_of_injective; [by rewrite length_fmap| |].
  - intros i x Hx. by destruct (Hi i x Hx) as (_ & ? & _).
  - intros i j x (_ & _ & E1)%Hi (_ & _ & E2)%Hi. lia.
Qed.

(** While a person is free an object is. *)
Lemma free_object st :
  length (assignment st) = n -> length (object_assignment st) = n ->
  (forall j, (j < n)%nat -> object_assignment st !!! j = -1 \/
    exists i, (i < n)%nat /\ object_assignment st !!! j = Z.of_nat i /\ assignment st !!! i = Z.of_nat j) ->
  assigned_count st = count_set (assignment st) ->
  assigned_count st < Z.of_nat n -> exists k, (k < n)%nat /\ object_assignment st !!! k = -1.
Proof.
  intros Hla Hlo Hobj Hcount Hc. destruct (decide (Exists (fun k => object_assignment st !!! k = -1) (seq 0 n))) as [He|He].
  - apply Exists_exists in He as (k & Hk%elem_of_seq & E). exists k. split; [lia|done].
  - exfalso. assert (forall j, (j < n)%nat -> object_assignment st !!! j <> -1) as Hall.
    { intros j Hj E. apply He. apply Exists_exists. exists j. split; [|done]. apply elem_of_seq. lia. }
    assert (Permutation (Z.to_nat <$> object_assignment st) (seq 0 n)) as Hp.
    { apply (inverse_permutation _ (assignment st)); [done..|]. intros j Hj.
      destruct (Hobj j Hj) as [E|?]; [by destruct (Hall j Hj)|done]. }
    assert (count_set (assignment st) = Z.of_nat (length (assignment st))) as Hfull.
    { apply count_set_all. rewrite Hla. intros i Hi.
      assert (i ∈ Z.to_nat <$> object_assignment st) as Hin by (rewrite Hp; apply elem_of_seq; lia).
      apply list_elem_of_fmap in Hin as (y & Ey & [j Hj]%list_elem_of_lookup_1).
      pose proof (lookup_lt_Some _ _ _ Hj) as Hlt. rewrite Hlo in Hlt.
      apply list_lookup_total_correct in Hj. destruct (Hobj j Hlt) as [E|(i' & Hi' & E & E')]; [by destruct (Hall j Hlt)|].
      assert (i' = i) as -> by lia. rewrite E'. lia. }
    rewrite Hcount, Hfull, Hla in Hc. lia.
Qed.

Lemma free_person st :
  auction_ok st -> assigned_count st < Z.of_nat n -> exists i, (i < n)%nat /\ assignment st !!! i < 0.
Proof.
  intros H Hc. destruct (decide (Exists (fun k => assignment st !!! k < 0) (seq 0 n))) as [He|He].
  - apply Exists_exists in He as (k & Hk%elem_of_seq & E). exists k. split; [lia|done].
  - exfalso. rewrite (ok_count st H) in Hc.
    rewrite (count_set_all (assignment st)), (ok_len_a st H) in Hc; [lia|].
    rewrite (ok_len_a st H). intros i Hi. apply Z.nlt_ge. intros E. apply He.
    apply Exists_exists. exists i. split; [apply elem_of_seq; lia|done].
Qed.

(** The state after person [i] has bought object [j]. *)
Definition buy (st : Auction) (i j : nat) (price : Z) : Auction :=
  let idx := object_assignment st !!! j in
  let taken := 0 <=? idx in
  MkAuction
    (<[i := Z.of_nat j]> (if taken then <[Z.to_nat idx := -1]> (assignment st) else assignment st))
    (<[j := Z.of_nat i]> (object_assignment st)) (<[j := price]> (prices st)) i
    ((if taken then assigned_count st - 1 else assigned_count st) + 1).

Lemma buy_assignment st i j price k :
  auction_ok st -> (i < n)%nat -> (j < n)%nat -> (k < n)%nat ->
  assignment (buy st i j price) !!! k =
    if decide (k = i) then Z.of_nat j
    else if decide (object_assignment st !!! j = Z.of_nat k) then -1 else assignment st !!! k.
Proof.
  intros H Hi Hj Hk. unfold buy. simpl. pose proof (ok_len_a st H) as Hl.
  set (idx := object_assignment st !!! j).
  destruct (decide (k = i)) as [->|Hki].
  { apply list_lookup_total_insert_eq. destruct (0 <=? idx); rewrite ?length_insert; lia. }
  rewrite list_lookup_total_insert_ne by done.
  destruct (ok_object st H j Hj) as [E|(h & Hh & E & _)]; fold idx in E; rewrite E.
  - rewrite decide_False by lia. done.
  - replace (0 <=? Z.of_nat h) with true by lia. rewrite Nat2Z.id.
    destruct (decide (Z.of_nat h = Z.of_nat k)) as [Ek|Ek].
    + assert (h = k) as -> by lia. apply list_lookup_total_insert_eq. lia.
    + apply list_lookup_total_insert_ne. lia.
Qed.

Lemma buy_count st i j price :
  auction_ok st -> (i < n)%nat -> (j < n)%nat -> assignment st !!! i = -1 ->
  assigned_count (buy st i j price) = count_set (assignment (buy st i j price)).
Proof.
  intros H Hi Hj Hfree. pose proof (ok_len_a st H) as Hl. pose proof (ok_count st H) as Hc.
  unfold buy. simpl. destruct (ok_object st H j Hj) as [E|(h & Hh & E & E')]; rewrite E.
  - replace (0 <=? -1) with false by lia. rewrite count_set_insert, Hfree by lia.
    replace (0 <=? Z.of_nat j) with true by lia. simpl. lia.
  - replace (0 <=? Z.of_nat h) with true by lia. rewrite Nat2Z.id.
    assert (h <> i) by (intros ->; lia).
    rewrite count_set_insert by (rewrite length_insert; lia).
    rewrite list_lookup_total_insert_ne, Hfree by done.
    rewrite count_set_insert, E' by lia.
    replace (0 <=? Z.of_nat j) with true by lia. simpl. lia.
Qed.

Lemma buy_object st i j price k :
  auction_ok st -> (j < n)%nat ->
  object_assignment (buy st i j price) !!! k =
    if decide (k = j) then Z.of_nat i else object_assignment st !!! k.
Proof.
  intros H Hj. unfold buy. simpl. pose proof (ok_len_o st H).
  destruct (decide (k = j)) as [->|Hk]; [apply list_lookup_total_insert_eq; lia|].
  by apply list_lookup_total_insert_ne.
Qed.

Lemma buy_price st i j price k :
  auction_ok st -> (j < n)%nat ->
  prices (buy st i j price) !!! k = if decide (k = j) then price else prices st !!! k.
Proof.
  intros H Hj. unfold buy. simpl. pose proof (ok_len_p st H).
  destruct (decide (k = j)) as [->|Hk]; [apply list_lookup_total_insert_eq; lia|].
  by apply list_lookup_total_insert_ne.
Qed.

(** Buying keeps the two arrays inverse to each other. *)
Lemma buy_person st i j price k :
  auction_ok st -> (i < n)%nat -> (j < n)%nat -> (k < n)%nat -> assignment st !!! i = -1 ->
  let st' := buy st i j price in
  assignment st' !!! k = -1 \/
  exists o, (o < n)%nat /\ assignment st' !!! k = Z.of_nat o /\ object_assignment st' !!! o = Z.of_nat k.
Proof.
  intros H Hi Hj Hk Hfree. cbv zeta. rewrite buy_assignment by done.
  destruct (decide (k = i)) as [->|Hki].
  { right. exists j. rewrite buy_object, decide_True by done. done. }
  destruct (decide _) as [E|E]; [by left|].
  destruct (ok_person st H k Hk) as [E1|(o & Ho & E1 & E2)]; [by left|].
  right. exists o. rewrite buy_object by done.
  rewrite decide_False by (intros ->; congruence). done.
Qed.

Lemma buy_holder st i j price k :
  auction_ok st -> (i < n)%nat -> (j < n)%nat -> (k < n)%nat -> assignment st !!! i = -1 ->
  let st' := buy st i j price in
  object_assignment st' !!! k = -1 \/
  exists h, (h < n)%nat /\ object_assignment st' !!! k = Z.of_nat h /\ assignment st' !!! h = Z.of_nat k.
Proof.
  intros H Hi Hj Hk Hfree. cbv zeta. rewrite buy_object by done.
  destruct (decide (k = j)) as [->|Hkj].
  { right. exists i. rewrite buy_assignment, decide_True by done. done. }
  destruct (ok_object st H k Hk) as [E1|(h & Hh & E1 & E2)]; [by left|].
  right. exists h. rewrite buy_assignment by done.
  rewrite decide_False by (intros ->; lia). rewrite decide_False; [done|].
  intros E. destruct (ok_object st H j Hj) as [E3|(h' & _ & E3 & E4)]; [lia|].
  assert (h' = h) as -> by lia. lia.
Qed.

(** The new price, from the second best profit [w]. *)
Definition good_bid (st : Auction) (i j : nat) (w price : Z) : Prop :=
  w <= matrix !!! i !!! j - prices st !!! j /\
  (forall k, (k < n)%nat -> k <> j -> matrix !!! i !!! k - prices st !!! k <= w) /\
  price = matrix !!! i !!! j - w + eps.

Lemma buy_slack st i j w price :
  auction_ok st -> (i < n)%nat -> (j < n)%nat -> assignment st !!! i = -1 -> good_bid st i j w price ->
  let st' := buy st i j price in
  forall i' j' k, (i' < n)%nat -> (j' < n)%nat -> (k < n)%nat -> assignment st' !!! i' = Z.of_nat j' ->
  matrix !!! i' !!! k - prices st' !!! k - eps <= matrix !!! i' !!! j' - prices st' !!! j'.
Proof.
  intros H Hi Hj Hfree (Hw & Hothers & Hprice) st' i' j' k Hi' Hj' Hk. unfold st'.
  assert (prices st !!! j < price) as Hup by lia.
  rewrite buy_assignment, !buy_price by done.
  destruct (decide (i' = i)) as [->|Hii].
  - intros E. assert (j' = j) as -> by lia. rewrite (decide_True (P := j = j)) by done.
    destruct (decide (k = j)) as [->|Hkj]; [lia|]. specialize (Hothers k Hk Hkj). lia.
  - destruct (decide (object_assignment st !!! j = Z.of_nat i')) as [E|E]; [lia|]. intros E'.
    assert (j' <> j) as Hjj.
    { intros ->. destruct (ok_person st H i' Hi') as [?|(o & _ & E1 & E2)]; [lia|].
      assert (o = j) as -> by lia. congruence. }
    rewrite (decide_False (P := j' = j)) by done.
    pose proof (ok_slack st H i' j' k Hi' Hj' Hk E').
    destruct (decide (k = j)) as [->|Hkj]; lia.
Qed.

(** The bounds of the prices. *)
Lemma good_bid_bound st i j w price :
  auction_ok st -> assigned_count st < Z.of_nat n -> (i < n)%nat -> (j < n)%nat -> good_bid st i j w price ->
  price <= bound2 /\
  (forall k, (k < n)%nat -> k <> j -> object_assignment st !!! k = -1 -> price <= bound1).
Proof.
  intros H Hc Hi Hj (Hw & Hothers & Hprice). pose proof (Hval i j Hi Hj) as Hij. split.
  - set (k := if decide (j = 0%nat) then 1%nat else 0%nat).
    assert ((k < n)%nat /\ k <> j) as [Hk Hkj] by (unfold k; destruct (decide (j = 0%nat)); lia).
    specialize (Hothers k Hk Hkj). pose proof (Hval i k Hi Hk). pose proof (ok_bound1 st H Hc k Hk).
    unfold bound1, bound2 in *. lia.
  - intros k Hk Hkj Hfree. specialize (Hothers k Hk Hkj). pose proof (Hval i k Hi Hk).
    rewrite (ok_free st H k Hk Hfree) in Hothers. specialize (Hps0 k Hk). unfold bound1. lia.
Qed.

Lemma buy_ok st i j w price :
  auction_ok st -> assigned_count st < Z.of_nat n -> (i < n)%nat -> (j < n)%nat ->
  assignment st !!! i = -1 -> good_bid st i j w price -> auction_ok (buy st i j price).
Proof.
  intros H Hc Hi Hj Hfree Hbid. destruct (good_bid_bound st i j w price H Hc Hi Hj Hbid) as [B2 B1].
  pose proof (buy_slack st i j w price H Hi Hj Hfree Hbid) as Hslack.
  assert (prices st !!! j < price) as Hup by (destruct Hbid as (? & _ & ->); lia).
  pose proof (ok_low st H) as Hlow.
  assert (forall k, (k < n)%nat -> object_assignment (buy st i j price) !!! k = -1 ->
    k <> j /\ object_assignment st !!! k = -1) as Hstill.
  { intros k Hk. rewrite buy_object by done. destruct (decide (k = j)); [lia|done]. }
  split; try done.
  - unfold buy; simpl. destruct (_ <=? _); by rewrite ?length_insert, (ok_len_a st H).
  - unfold buy; simpl. by rewrite length_insert, (ok_len_o st H).
  - unfold buy; simpl. by rewrite length_insert, (ok_len_p st H).
  - intros k Hk. by apply buy_person.
  - intros k Hk. by apply buy_holder.
  - by apply buy_count.
  - intros k Hk Hf. destruct (Hstill k Hk Hf). rewrite buy_price, decide_False by done. by apply ok_free.
  - intros k Hk. rewrite buy_price by done. destruct (decide (k = j)) as [->|]; [|by apply Hlow].
    specialize (Hlow j Hj). lia.
  - intros Hc' k Hk. rewrite buy_price by done. destruct (decide (k = j)) as [->|]; [|by apply ok_bound1].
    destruct (free_object (buy st i j price)) as (f & Hf & Ef); try done.
    + unfold buy; simpl. destruct (_ <=? _); by rewrite ?length_insert, (ok_len_a st H).
    + unfold buy; simpl. by rewrite length_insert, (ok_len_o st H).
    + intros k Hk'. by apply buy_holder.
    + by apply buy_count.
    + destruct (Hstill f Hf Ef). by apply (B1 f).
  - intros k Hk. rewrite buy_price by done. destruct (decide (k = j)); [done|]. by apply ok_bound2.
Qed.

(** The best object for person [i], as the scan finds it. *)
Lemma best_object_ok st i :
  auction_ok st -> assigned_count st < Z.of_nat n -> (i < n)%nat ->
  exists w j, (j < n)%nat /\
    best_objects (matrix !!! i) (prices st) 0 int_min int_min (-1) =
      Some (w, matrix !!! i !!! j - prices st !!! j, Z.of_nat j) /\
    good_bid st i j w (matrix !!! i !!! j - w + eps) /\
    - C - bound1 <= w.
Proof.
  intros H Hc Hi. pose proof (ok_len_p st H) as Hlp. pose proof (Hrow i Hi) as Hlr.
  assert (forall k c, zip_with Z.sub (matrix !!! i) (prices st) !! k = Some c ->
    (k < n)%nat /\ c = matrix !!! i !!! k - prices st !!! k) as Hget.
  { intros k c (x & y & -> & Hx & Hy)%lookup_zip_with_Some.
    pose proof (lookup_lt_Some _ _ _ Hx). rewrite (list_lookup_total_correct _ _ _ Hx).
    rewrite (list_lookup_total_correct _ _ _ Hy). split; [lia|done]. }
  assert (forall k, (k < n)%nat -> zip_with Z.sub (matrix !!! i) (prices st) !! k =
    Some (matrix !!! i !!! k - prices st !!! k)) as Hput.
  { intros k Hk. rewrite lookup_zip_with, !lookup_total_Some by lia. done. }
  assert (forall k, (k < n)%nat -> - C - bound1 <= matrix !!! i !!! k - prices st !!! k <= C) as Hrange.
  { intros k Hk. pose proof (Hval i k Hi Hk). pose proof (ok_low st H k Hk).
    pose proof (ok_bound1 st H Hc k Hk). lia. }
  destruct (best_objects_ok (matrix !!! i) (prices st)) as (w & v & jz & E & Hw & j & -> & Hj & Hk);
    [lia..| |].
  { apply Forall_lookup_2. intros k c [Hkn ->]%Hget. specialize (Hrange k Hkn).
    unfold bound1, int_min, int_max in *. lia. }
  destruct (Hget _ _ Hj) as [Hjn ->]. exists w, j. split_and!; [done..| |].
  - split_and!; [done| |done]. intros k Hkn Hkj. by apply (Hk k); [apply Hput|].
  - set (k := if decide (j = 0%nat) then 1%nat else 0%nat).
    assert ((k < n)%nat /\ k <> j) as [Hkn Hkj] by (unfold k; destruct (decide (j = 0%nat)); lia).
    specialize (Hk k _ (Hput k Hkn) Hkj). specialize (Hrange k Hkn). lia.
Qed.

Lemma bid_buys st :
  auction_ok st -> assigned_count st < Z.of_nat n ->
  exists i j w price, (i < n)%nat /\ (j < n)%nat /\ assignment st !!! i = -1 /\
    good_bid st i j w price /\ bid matrix eps n st = inl (buy st i j price).
Proof.
  intros H Hc. destruct (free_person st H Hc) as (f & Hf & Ef).
  destruct (next_unassigned_ok n (assignment st) (unassigned_idx st) n f) as (i & Ei & Hi & Hneg);
    [apply H|done..| |].
  { pose proof (ok_idx st H). destruct (Nat.leb_spec (unassigned_idx st) f); lia. }
  destruct (best_object_ok st i H Hc Hi) as (w & j & Hj & E & Hbid & Hw).
  exists i, j, w, (matrix !!! i !!! j - w + eps).
  assert (assignment st !!! i = -1) as Hfree by (destruct (ok_person st H i Hi) as [?|(? & _ & ? & _)]; lia).
  split_and!; [done..|].
  pose proof Hbid as (Hv & _ & _). pose proof (ok_low st H j Hj) as Hlow. pose proof (Hval i j Hi Hj) as Hij.
  destruct (good_bid_bound st i j w _ H Hc Hi Hj Hbid) as [Hb _].
  unfold bid. replace (assigned_count st <? Z.of_nat n) with true by lia. rewrite Ei. cbn [negb mbind option_bind].
  rewrite E. cbn [mbind option_bind].
  unfold bound1, bound2 in *.
  rewrite as_int_ok by (unfold int_min; lia). cbn [mbind option_bind].
  rewrite as_int_ok by (unfold int_min; lia). cbn [mbind option_bind].
  replace (negb _ || _) with false by lia. rewrite Nat2Z.id.
  rewrite as_int_ok by (unfold int_min; lia). cbn [mbind option_bind].
  by replace (prices st !!! j + _) with (matrix !!! i !!! j - w + eps) by lia.
Qed.

(** All objects are assigned and the prices support the assignment up to epsilon. *)
Record auction_done (st : Auction) : Prop := MkAuctionDone {
  done_ok : auction_ok st;
  done_all : assigned_count st = Z.of_nat n;
}.

Lemma auctionStep_ok :
  exists st, auctionStep matrix ps0 eps n = Some st /\ auction_done st.
Proof.
  assert (forall st, auction_ok st -> 0 <= Zsum (prices st) <= Z.of_nat n * bound2) as Hsum.
  { intros st H. pose proof (ok_len_p st H) as Hl.
    assert (forall x, x ∈ prices st -> 0 <= x <= bound2) as Hx.
    { intros x [k Hk]%list_elem_of_lookup_1. pose proof (lookup_lt_Some _ _ _ Hk).
      rewrite <-(list_lookup_total_correct _ _ _ Hk).
      pose proof (ok_low st H k ltac:(lia)). pose proof (ok_bound2 st H k ltac:(lia)). lia. }
    split; [|rewrite <-Hl; apply Zsum_le, Forall_forall; intros x Hin; by apply Hx].
    clear Hl. induction (prices st) as [|x l IH]; simpl; [lia|].
    pose proof (Hx x ltac:(set_solver)). enough (0 <= Zsum l) by lia. apply IH. set_solver. }
  unfold auctionStep. rewrite (proj2 (Nat.leb_gt n 1)) by lia.
  destruct (run_returns (bid matrix eps n) auction_ok
    (fun r => exists st, r = Some st /\ auction_done st)
    (fun st => Z.of_nat n * bound2 - Zsum (prices st))) with (p := loop_bound)
      (s := MkAuction (replicate n (-1)) (replicate n (-1)) ps0 0 0) as (r & -> & st & -> & Hd).
  - intros st H. destruct (Z.ltb_spec (assigned_count st) (Z.of_nat n)) as [Hc|Hc].
    + destruct (bid_buys st H Hc) as (i & j & w & price & Hi & Hj & Hfree & Hbid & ->).
      assert (auction_ok (buy st i j price)) as Hok by (by eapply buy_ok).
      split; [done|]. pose proof (Hsum _ Hok). split; [lia|]. unfold buy; simpl.
      rewrite Zsum_insert by (rewrite (ok_len_p st H); done). destruct Hbid as (? & _ & ->). lia.
    + unfold bid. replace (assigned_count st <? Z.of_nat n) with false by lia. simpl.
      exists st. split; [done|]. split; [done|]. pose proof (count_set_le (assignment st)) as Hle.
      rewrite (ok_len_a st H), <-(ok_count st H) in Hle. lia.
  - apply start_ok.
  - pose proof (Hsum _ start_ok). unfold loop_bound, bound2, int_max in *. nia.
  - by exists st.
Qed.

Lemma done_person st i :
  auction_done st -> (i < n)%nat ->
  exists j, (j < n)%nat /\ assignment st !!! i = Z.of_nat j /\ object_assignment st !!! j = Z.of_nat i.
Proof.
  intros [H Hall] Hi. destruct (ok_person st H i Hi) as [E|?]; [|done].
  rewrite (ok_count st H) in Hall. pose proof (count_set_full (assignment st)) as Hf.
  rewrite (ok_len_a st H) in Hf. specialize (Hf Hall i Hi). lia.
Qed.

Lemma done_permutation st : auction_done st -> Permutation (Z.to_nat <$> assignment st) (seq 0 n).
Proof.
  intros Hd. pose proof (done_ok st Hd) as H.
  apply (inverse_permutation _ (object_assignment st)); [apply H..|].
  intros i Hi. by apply done_person.
Qed.

(** The value of an assignment is within [n * eps] of the best. *)
Lemma done_optimal st (tau : list nat) :
  auction_done st -> Permutation tau (seq 0 n) ->
  value matrix tau <= value matrix (Z.to_nat <$> assignment st) + Z.of_nat n * eps.
Proof.
  intros Hd Htau. pose proof (done_permutation st Hd) as Hs. pose proof (done_ok st Hd) as H.
  assert (length tau = n) as Hlt by by rewrite Htau, length_seq.
  pose proof (value_exchange matrix tau (Z.to_nat <$> assignment st) (fun j => prices st !!! j) eps) as Hx.
  assert (forall l, Permutation l (seq 0 n) -> Zsum ((fun j => prices st !!! j) <$> l) =
    Zsum ((fun j => prices st !!! j) <$> seq 0 n)) as Hsum by (intros l Hl; by rewrite Hl).
  rewrite (Hsum _ Htau), (Hsum _ Hs), Hrows in Hx.
  cut (forall x y z w : Z, x <= y + z - z + w -> x <= y + w); [intros Hcut|lia].
  eapply Hcut, Hx; [done|by rewrite length_fmap; apply H|].
  intros i row t s Hrow' Ht Hs'. pose proof (lookup_lt_Some _ _ _ Hrow') as Hi. rewrite Hrows in Hi.
  rewrite <-(list_lookup_total_correct _ _ _ Hrow').
  assert ((t < n)%nat) as Htn.
  { apply list_elem_of_lookup_2 in Ht. rewrite Htau in Ht. apply elem_of_seq in Ht. lia. }
  rewrite list_lookup_fmap, lookup_total_Some in Hs' by (rewrite (ok_len_a st H); done).
  simplify_option_eq. destruct (done_person st i Hd Hi) as (j & Hj & E & _).
  rewrite E, Nat2Z.id. pose proof (ok_slack st H i j t Hi Hj Htn E). lia.
Qed.

(** What an auction gives. *)
Lemma auctionStep_spec :
  exists st, auctionStep matrix ps0 eps n = Some st /\
    length (prices st) = n /\
    (forall j, (j < n)%nat -> 0 <= prices st !!! j <= P + 6 * C) /\
    Forall (fun j => 0 <= j) (assignment st) /\
    Permutation (Z.to_nat <$> assignment st) (seq 0 n) /\
    forall tau, Permutation tau (seq 0 n) ->
      value matrix tau <= value matrix (Z.to_nat <$> assignment st) + Z.of_nat n * eps.
Proof.
  destruct auctionStep_ok as (st & E & Hd). pose proof (done_ok st Hd) as H.
  exists st. split; [done|]. split; [apply H|]. split_and!.
  - intros j Hj. pose proof (ok_low st H j Hj). pose proof (ok_bound2 st H j Hj) as Hb.
    unfold bound2 in Hb. lia.
  - apply Forall_lookup_2. intros i x Hx. pose proof (lookup_lt_Some _ _ _ Hx) as Hi.
    rewrite (ok_len_a st H) in Hi. destruct (done_person st i Hd Hi) as (j & _ & Ej & _).
    rewrite (list_lookup_total_correct _ _ _ Hx) in Ej. lia.
  - by apply done_permutation.
  - intros tau Htau. by apply done_optimal.
Qed.

End auction.

(** ** The optimization *)

Section optimization.
Context (n : nat) (matrix : list (list Z)) (M : Z).
Context (Hn : (2 <= n)%nat) (Hsize : Z.of_nat n <= int_max) (Hrows : length matrix = n)
  (Hrow : Forall (fun row => length row = n) matrix)
  (Hval : Forall (Forall (fun x => - M <= x <= M)) matrix)
  (HM1 : 1 <= M) (HM : M * (Z.of_nat n + 1) <= 10 ^ 7).

(** The scaled matrix and the bound of its values. *)
Definition scaled : list (list Z) := map (map (fun x => x * (Z.of_nat n + 1))) matrix.
Definition scaled_bound : Z := M * (Z.of_nat n + 1).

Lemma scale_ok : scale n matrix = Some scaled.
Proof.
  unfold scale, scaled. apply mapM_Some_2, Forall2_same_length_lookup.
  split; [by rewrite length_map|]. intros i row row' Hi Hi'.
  change (map ?f ?l) with (f <$> l) in Hi'. rewrite list_lookup_fmap, Hi in Hi'. simplify_eq/=.
  apply mapM_Some_2, Forall2_same_length_lookup. split; [by rewrite length_map|]. intros j x y Hj Hj'.
  change (map ?f ?l) with (f <$> l) in Hj'. rewrite list_lookup_fmap, Hj in Hj'. simplify_eq/=.
  pose proof (Forall_lookup_1 _ _ _ _ (Forall_lookup_1 _ _ _ _ Hval Hi) Hj) as Hx. simpl in Hx.
  apply as_int_ok. unfold int_min, int_max. nia.
Qed.

Lemma scaled_lookup i row : scaled !! i = Some row ->
  (i < n)%nat /\ length row = n /\ Forall (fun x => - scaled_bound <= x <= scaled_bound) row.
Proof.
  unfold scaled. change (map ?f ?l) with (f <$> l). rewrite list_lookup_fmap, fmap_Some.
  intros (row0 & Hi & ->). pose proof (lookup_lt_Some _ _ _ Hi).
  pose proof (Forall_lookup_1 _ _ _ _ Hrow Hi). split_and!; [lia|by rewrite length_map|].
  apply Forall_map. eapply Forall_impl; [exact (Forall_lookup_1 _ _ _ _ Hval Hi)|].
  intros x Hx. simpl in Hx |- *. unfold scaled_bound. nia.
Qed.

Lemma scaled_row i : (i < n)%nat ->
  length (scaled !!! i) = n /\ forall j, (j < n)%nat -> - scaled_bound <= scaled !!! i !!! j <= scaled_bound.
Proof.
  intros Hi. assert (exists row, scaled !! i = Some row) as [row Hr].
  { apply lookup_lt_is_Some_2. unfold scaled. by rewrite length_map, Hrows. }
  destruct (scaled_lookup i row Hr) as (_ & Hl & HF). rewrite (list_lookup_total_correct _ _ _ Hr).
  split; [done|]. intros j Hj. rewrite Forall_lookup in HF. apply (HF j), lookup_total_Some. lia.
Qed.

Lemma max_value_bound : int_min <= max_value scaled <= scaled_bound.
Proof.
  assert (forall row m, Forall (fun x => - scaled_bound <= x <= scaled_bound) row -> int_min <= m <= scaled_bound ->
    int_min <= foldl (fun m x => Z.max x m) m row <= scaled_bound) as Hin.
  { induction row as [|x row IH]; intros m HF Hm; [done|]. apply Forall_cons in HF as [Hx HF].
    simpl. apply IH; [done|lia]. }
  assert (forall l m, Forall (Forall (fun x => - scaled_bound <= x <= scaled_bound)) l -> int_min <= m <= scaled_bound ->
    int_min <= foldl (fun m row => foldl (fun m x => Z.max x m) m row) m l <= scaled_bound) as Hout.
  { induction l as [|row l IH]; intros m HF Hm; [done|]. apply Forall_cons in HF as [Hr HF].
    simpl. apply IH; [done|]. by apply Hin. }
  apply Hout; [|unfold int_min, scaled_bound; nia].
  apply Forall_lookup_2. intros i row Hi. by apply (scaled_lookup i).
Qed.

Lemma value_scaled (tau : list nat) :
  Permutation tau (seq 0 n) -> value scaled tau = (Z.of_nat n + 1) * value matrix tau.
Proof.
  intros Htau. assert (Forall (fun t => (t < n)%nat) tau) as Ht.
  { apply Forall_forall. intros t Hin. rewrite Htau in Hin. apply elem_of_seq in Hin. lia. }
  unfold value, scaled. clear - Hrow Ht. revert Hrow tau Ht.
  induction matrix as [|row m IH]; intros Hrow [|t tau] Ht; simpl; try lia.
  apply Forall_cons in Hrow as [Hr Hrow], Ht as [Htn Ht]. rewrite IH by done.
  enough (map (fun x => x * (Z.of_nat n + 1)) row !!! t = row !!! t * (Z.of_nat n + 1)) by lia.
  apply list_lookup_total_correct. change (map ?f ?l) with (f <$> l).
  by rewrite list_lookup_fmap, lookup_total_Some by lia.
Qed.

(** The prices never leave the ints: each auction adds at most [6 * scaled_bound], and there are at most
    [log2 eps] of them. *)
Definition prices_ok (st : Z * list Z) : Prop :=
  let '(eps, ps) := st in
  eps <= scaled_bound /\ length ps = n /\ exists P, 0 <= P /\ (forall j, (j < n)%nat -> 0 <= ps !!! j <= P) /\
    P + 6 * scaled_bound * (Z.log2 eps + 1) < int_max.

Lemma smaller_eps eps : 1 < eps -> 0 <= Z.quot (eps + 2) 5 <= eps / 2.
Proof.
  intros H. rewrite Z.quot_div_nonneg by lia. split; [apply Z.div_pos; lia|].
  apply Z.div_le_lower_bound; [lia|]. pose proof (Z.mul_div_le (eps + 2) 5 ltac:(lia)). lia.
Qed.

Lemma scaling_step_ok st : prices_ok st ->
  match scaling_step scaled n st with
  | inl st' => prices_ok st' /\ 0 <= Z.max 0 (st'.1) < Z.max 0 (st.1)
  | inr r => exists ps, r = Some ps /\ prices_ok (1, ps)
  end.
Proof.
  destruct st as [eps ps]. intros (He & Hl & P & HP & Hps & Hb). unfold scaling_step.
  assert (1 <= scaled_bound) as HC by (unfold scaled_bound; nia).
  pose proof (Z.log2_nonneg eps) as Hlog.
  pose proof (Z.mul_le_mono_nonneg_l 1 (Z.log2 eps + 1) (6 * scaled_bound) ltac:(lia) ltac:(lia)) as Hk.
  destruct (Z.ltb_spec 1 eps) as [H|H].
  - destruct (auctionStep_spec n scaled eps scaled_bound P ps) as (a & -> & Hla & Hpa & _); try done; try lia.
    + unfold scaled. by rewrite length_map.
    + intros i Hi. by apply scaled_row.
    + intros i j Hi Hj. by apply scaled_row.
    + pose proof (smaller_eps eps H) as Hs. pose proof (Z.div_lt eps 2 ltac:(lia) ltac:(lia)) as Hd.
      split; [|simpl; lia]. split_and!; [lia|done|].
      exists (P + 6 * scaled_bound). split; [lia|]. split.
      * done.
      * pose proof (Z.log2_le_mono _ _ (proj2 Hs)) as Hm.
        change (eps / 2) with (eps / 2 ^ 1) in Hm. rewrite <-(Z.shiftr_div_pow2 eps 1), Z.log2_shiftr in Hm by lia.
        assert (1 <= Z.log2 eps) by (change 1 with (Z.log2 2); apply Z.log2_le_mono; lia).
        pose proof (Z.mul_le_mono_nonneg_l (Z.log2 (Z.quot (eps + 2) 5) + 1) (Z.log2 eps) (6 * scaled_bound)). lia.
  - exists ps. split; [done|]. split_and!; [done..|]. exists P. split_and!; [done..|].
    change (Z.log2 1) with 0. lia.
Qed.

Lemma scaling_returns : exists ps,
  finish (run (scaling_step scaled n) loop_bound (Z.quot (max_value scaled + 12) 25, replicate n 0))
    = Some ps /\ prices_ok (1, ps).
Proof.
  pose proof max_value_bound as Hmv.
  assert (3 <= scaled_bound <= 10 ^ 7) as HC by (unfold scaled_bound in *; nia).
  assert (Z.quot (max_value scaled + 12) 25 <= scaled_bound) as He.
  { destruct (Z.leb_spec 0 (max_value scaled + 12)).
    - rewrite Z.quot_div_nonneg by lia. apply Z.div_le_upper_bound; lia.
    - pose proof (Z.quot_opp_l (- (max_value scaled + 12)) 25 ltac:(lia)) as Ho. rewrite Z.opp_involutive in Ho.
      pose proof (Z.quot_pos (- (max_value scaled + 12)) 25 ltac:(lia) ltac:(lia)). lia. }
  destruct (run_returns (scaling_step scaled n) prices_ok
    (fun r => exists ps, r = Some ps /\ prices_ok (1, ps)) (fun st => Z.max 0 (st.1)))
    with (p := loop_bound) (s := (Z.quot (max_value scaled + 12) 25, replicate n 0))
    as (r & -> & ps & -> & Hp).
  - apply scaling_step_ok.
  - split_and!; [done|by rewrite length_replicate|]. exists 0. split; [lia|]. split.
    + intros j Hj. rewrite lookup_total_replicate_2 by done. lia.
    + pose proof (Z.log2_le_mono _ _ He) as Hm. pose proof (Z.log2_le_mono _ _ (proj2 HC)) as Hm2.
      change (Z.log2 (10 ^ 7)) with 23 in Hm2. unfold int_max. nia.
  - unfold loop_bound. simpl. lia.
  - by exists ps.
Qed.

(** The steps of the function, put together. *)
Lemma optimization_unfold capacity sum ps a :
  (n <= capacity)%nat -> as_int (max_value scaled + 12) = Some sum ->
  finish (run (scaling_step scaled n) loop_bound (Z.quot sum 25, replicate n 0)) = Some ps ->
  auctionStep scaled ps 1 n = Some a ->
  auctionOptimization capacity matrix n = Some (assignment a).
Proof.
  intros Hcap Hsum Hps Ha. unfold auctionOptimization.
  rewrite (proj2 (Nat.ltb_ge capacity n)), (proj2 (Nat.eqb_neq n 0)), (proj2 (Nat.eqb_neq n 1)) by lia.
  by rewrite (bind_Some_eq _ _ _ scale_ok), (bind_Some_eq _ _ _ Hsum), (bind_Some_eq _ _ _ Hps),
    (bind_Some_eq _ _ _ Ha).
Qed.

Lemma optimization_large capacity : (n <= capacity)%nat ->
  exists a, auctionOptimization capacity matrix n = Some a /\
    Forall (fun j => 0 <= j) a /\ Permutation (Z.to_nat <$> a) (seq 0 n) /\
    forall tau, Permutation tau (seq 0 n) -> value matrix tau <= value matrix (Z.to_nat <$> a).
Proof.
  intros Hcap. pose proof max_value_bound as Hmv.
  assert (3 <= scaled_bound <= 10 ^ 7) as HC by (unfold scaled_bound in *; nia).
  destruct scaling_returns as (ps & Eps & _ & Hl & P & HP & Hps & Hb).
  change (Z.log2 1) with 0 in Hb.
  destruct (auctionStep_spec n scaled 1 scaled_bound P ps) as (a & Ea & _ & _ & Hpos & Hperm & Hopt); try done; try lia.
  { unfold scaled. by rewrite length_map. }
  { intros i Hi. by apply scaled_row. }
  { intros i j Hi Hj. by apply scaled_row. }
  exists (assignment a). split; [|split_and!; [done..|]].
  { apply (optimization_unfold _ (max_value scaled + 12) ps); [done| |done..].
    apply as_int_ok. unfold int_min, int_max in *. lia. }
  intros tau Htau. specialize (Hopt tau Htau).
  rewrite !value_scaled in Hopt by done. apply Z.lt_succ_r, (Z.mul_lt_mono_pos_l (Z.of_nat n + 1)); lia.
Qed.

End optimization.

Lemma auctionOptimization_ok (capacity n : nat) (matrix : list (list Z)) (M : Z)
    (Hcap : (n <= capacity)%nat) (Hsize : Z.of_nat n <= int_max) (Hrows : length matrix = n)
    (Hrow : Forall (fun row => length row = n) matrix)
    (Hval : Forall (Forall (fun x => - M <= x <= M)) matrix)
    (HM1 : 1 <= M) (HM : M * (Z.of_nat n + 1) <= 10 ^ 7) :
  exists a, auctionOptimization capacity matrix n = Some a /\
    Forall (fun j => 0 <= j) a /\ Permutation (Z.to_nat <$> a) (seq 0 n) /\
    forall tau, Permutation tau (seq 0 n) -> value matrix tau <= value matrix (Z.to_nat <$> a).
Proof.
  destruct (decide (2 <= n)%nat) as [Hn|Hn]; [by apply (optimization_large n matrix M)|].
  unfold auctionOptimization. rewrite (proj2 (Nat.ltb_ge capacity n)) by done.
  destruct n as [|[|n]]; [..|lia]; simpl.
  - exists []. split_and!; [done..|]. intros tau ->%Permutation_nil_r. done.
  - exists [0]. split_and!; [done|by repeat constructor|done|]. intros tau ->%Permutation_singleton_r. done.
Qed.

(** C19: auctionOptimization() terminates and returns an optimal assignment.  For a square matrix of at
    most [capacity] rows whose values, scaled by size + 1, are at most ten million in absolute value,
    every loop ends within its bound, no int overflows and no assertion fails; the result gives every
    person an object of their own, and no assignment has a higher value. *)
Theorem auction_terminates_optimal (capacity n : nat) (matrix : list (list Z)) (M : Z)
    (Hcap : (n <= capacity)%nat) (Hsize : Z.of_nat n <= int_max) (Hrows : length matrix = n)
    (Hrow : Forall (fun row => length row = n) matrix)
    (Hval : Forall (Forall (fun x => - M <= x <= M)) matrix)
    (HM1 : 1 <= M) (HM : M * (Z.of_nat n + 1) <= 10 ^ 7) :
  exists a, auctionOptimization capacity matrix n = Some a /\
    Forall (fun j => 0 <= j) a /\ Permutation (Z.to_nat <$> a) (seq 0 n) /\
    forall tau, Permutation tau (seq 0 n) -> value matrix tau <= value matrix (Z.to_nat <$> a).
Proof. by apply (auctionOptimization_ok capacity n matrix M). Qed.

Lemma auction_terminates_optimal_witness :
  exists a, auctionOptimization 64 [[1280; 1270; 1100]; [1280; 900; 1000]; [1280; 1280; 1279]] 3 = Some a /\
    Forall (fun j => 0 <= j) a /\ Permutation (Z.to_nat <$> a) (seq 0 3) /\
    forall tau, Permutation tau (seq 0 3) ->
      value [[1280; 1270; 1100]; [1280; 900; 1000]; [1280; 1280; 1279]] tau <=
      value [[1280; 1270; 1100]; [1280; 900; 1000]; [1280; 1280; 1279]] (Z.to_nat <$> a).
Proof.
  apply (auction_terminates_optimal 64 3 _ 1280); [lia|by vm_compute|done|by repeat constructor| |lia|by vm_compute].
  repeat constructor; vm_compute; discriminate.
Defined.
