(* ===== verification/GoalMerge.v ===== *)
(** Merging goals (src/common/goal.cc: Goal::Slice::mergeIn() and Goal::mergeIn()).

    A chunk that belongs to files with different goals has to satisfy all of them: the master merges
    their goals.  Slices of the same type are merged part by part, and the auction algorithm chooses
    which part of the one slice goes with which part of the other. *)
From S2P Require Import Prelude Serialization Slices Goals Assignment.

(** ** The code *)

Definition kMaxPartsCount : nat := 64.
Definition kMaxExpectedCopies : Z := 128.

(** begin() to end(): the parts of a slice, as the iterator walks the flat storage. *)
Fixpoint split_parts (sizes : list nat) (data : Labels) : list Labels :=
  match sizes with
  | [] => []
  | k :: sizes => take k data :: split_parts sizes (drop k data)
  end.

Definition parts (s : Slice) : list Labels := split_parts (part_size_ s) (data_ s).

(** One entry of the matrix: 10 * kMaxExpectedCopies is a uint32_t, so the difference is, and is
    converted to int. *)
Definition merge_cost (local_part other_part : Labels) : option Z :=
  tmp_union ← makeLabelsUnion local_part other_part;
  Some (to_signed 32 (u32 (10 * kMaxExpectedCopies - labelsDistance local_part tmp_union))).

(** other[part] *)
Definition checked_part (s : Slice) (p : Z) : option Labels :=
  n ← Goals.size s; if (0 <=? p) && (p <? n) then Some (part s (Z.to_nat p)) else None.

Definition merge_parts (s other : Slice) (assignment : list Z) : option (list Labels) :=
  mapM (fun '(local_part, j) => other_part ← checked_part other j; makeLabelsUnion local_part other_part)
    (zip (parts s) assignment).

Definition Slice_mergeIn (s other : Slice) : option Slice :=
  n ← Goals.size s; m ← Goals.size other;
  if negb ((type_ s =? type_ other) && (n =? m)) then None
  else
    cost ← mapM (fun local_part => mapM (merge_cost local_part) (parts other)) (parts s);
    assignment ← auctionOptimization kMaxPartsCount cost (Z.to_nat n);
    result ← merge_parts s other assignment;
    Some (MkSlice (type_ s) ((fun u => Z.to_nat (u16 (Z.of_nat (length u)))) <$> result) (concat result)).

(** One turn of the loop of Goal::mergeIn(). *)
Definition merge_slice (g : Goal) (other_slice : Slice) : option Goal :=
  if negb (Slice_isValid other_slice) then None
  else
    match find_slice (goal_slices_ g) (type_ other_slice) with
    | None => Some (MkGoal (name_ g) (set_insert slice_ltb (goal_slices_ g) other_slice))
    | Some position =>
      current_element ← goal_slices_ g !! position;
      n ← Goals.size current_element; m ← Goals.size other_slice;
      if negb (n =? m) then None
      else
        merged ← Slice_mergeIn current_element other_slice;
        Some (MkGoal (name_ g) (<[position := merged]> (goal_slices_ g)))
    end.

Definition Goal_mergeIn (g other_goal : Goal) : option Goal :=
  foldl (fun acc other_slice => g ← acc; merge_slice g other_slice) (Some g) (goal_slices_ other_goal).

(** ** The distance of labels *)

(** The first norm of the difference, label by label. *)
Definition norm (f s : Labels) : Z :=
  Zsum ((fun l => Z.abs (copies l f - copies l s)) <$> seqZ 0 (kWildcard + 1)).

Lemma Zsum_fmap_add {A} (g h : A -> Z) l :
  Zsum ((fun x => g x + h x) <$> l) = Zsum (g <$> l) + Zsum (h <$> l).
Proof. induction l as [|x l IH]; [done|]. rewrite !fmap_cons. simpl. lia. Qed.

Lemma Zsum_fmap_le {A} (g h : A -> Z) l :
  (forall x, g x <= h x) -> Zsum (g <$> l) <= Zsum (h <$> l).
Proof. intros H. induction l as [|x l IH]; [done|]. rewrite !fmap_cons. simpl. specialize (H x). lia. Qed.

Lemma Zsum_indicator (k c : Z) :
  0 <= k <= kWildcard -> Zsum ((fun l => if k =? l then c else 0) <$> seqZ 0 (kWildcard + 1)) = c.
Proof.
  intros Hk. assert (k ∈ seqZ 0 (kWildcard + 1)) as Hin by (apply elem_of_seqZ; lia).
  pose proof (NoDup_seqZ 0 (kWildcard + 1)) as Hnd. revert Hin Hnd. generalize (seqZ 0 (kWildcard + 1)).
  assert (forall ls : list Z, k ∉ ls -> Zsum ((fun l => if k =? l then c else 0) <$> ls) = 0) as Habs.
  { induction ls as [|x ls IH]; intros H; [done|]. rewrite fmap_cons. cbn [Zsum foldr].
    rewrite (proj2 (Z.eqb_neq k x)) by set_solver. unfold Zsum in IH. rewrite IH by set_solver. done. }
  induction l as [|x ls IH]; [by intros ?%not_elem_of_nil|]. intros Hin [Hx Hnd]%NoDup_cons.
  rewrite fmap_cons. cbn [Zsum foldr]. destruct (Z.eqb_spec k x) as [->|Hne].
  - unfold Zsum in Habs. rewrite Habs by done. lia.
  - unfold Zsum in IH. rewrite IH; [lia|set_solver|done].
Qed.

(** Moving an entry out of the sum. *)
Lemma norm_split f s f' s' (k c : Z) :
  0 <= k <= kWildcard ->
  (forall l, Z.abs (copies l f - copies l s) = (if k =? l then c else 0) + Z.abs (copies l f' - copies l s')) ->
  norm f s = c + norm f' s'.
Proof.
  intros Hk H. unfold norm. rewrite <-(Zsum_indicator k c Hk), <-Zsum_fmap_add.
  f_equal. apply list_fmap_ext. intros _ l _. apply H.
Qed.

Lemma norm_cons_left x f s :
  entry_ok x -> (forall y, y ∈ f -> y.1 <> x.1) -> (forall y, y ∈ s -> y.1 <> x.1) ->
  norm (x :: f) s = x.2 + norm f s.
Proof.
  intros [Hk Hc] Hf Hs. apply (norm_split _ _ _ _ x.1); [done|]. intros l. rewrite copies_cons.
  destruct (Z.eqb_spec x.1 l) as [<-|_]; [|done]. rewrite !copies_absent by done. lia.
Qed.

Lemma norm_cons_right x f s :
  entry_ok x -> (forall y, y ∈ f -> y.1 <> x.1) -> (forall y, y ∈ s -> y.1 <> x.1) ->
  norm f (x :: s) = x.2 + norm f s.
Proof.
  intros [Hk Hc] Hf Hs. apply (norm_split _ _ _ _ x.1); [done|]. intros l. rewrite copies_cons.
  destruct (Z.eqb_spec x.1 l) as [<-|_]; [|done]. rewrite !copies_absent by done. lia.
Qed.

Lemma norm_cons_both k c c2 f s :
  0 <= k <= kWildcard -> (forall y, y ∈ f -> y.1 <> k) -> (forall y, y ∈ s -> y.1 <> k) ->
  norm ((k, c) :: f) ((k, c2) :: s) = Z.abs (c - c2) + norm f s.
Proof.
  intros Hk Hf Hs. apply (norm_split _ _ _ _ k); [done|]. intros l. rewrite !copies_cons. cbn [fst snd].
  destruct (Z.eqb_spec k l) as [<-|_]; [|done]. rewrite !copies_absent by done. lia.
Qed.

Lemma norm_refl f : norm f f = 0.
Proof.
  unfold norm. generalize (seqZ 0 (kWildcard + 1)). induction l as [|x l IH]; [done|].
  rewrite fmap_cons. cbn [Zsum foldr]. unfold Zsum in IH. lia.
Qed.

Lemma norm_nil_r f : labels_ok f -> norm f [] = total f.
Proof.
  induction f as [|x f IH]; intros H; [apply norm_refl|].
  apply labels_ok_cons in H as (Hx & Hlt & Hf). rewrite norm_cons_left, IH; [done..| |].
  - intros y Hy. specialize (Hlt y Hy). lia.
  - by intros y ?%not_elem_of_nil.
Qed.

Lemma norm_sym f s : norm f s = norm s f.
Proof. unfold norm. f_equal. apply list_fmap_ext. intros _ l _. lia. Qed.

Lemma norm_bound f s : labels_ok f -> labels_ok s -> 0 <= norm f s <= total f + total s.
Proof.
  intros Hf Hs. split.
  - unfold norm. generalize (seqZ 0 (kWildcard + 1)). induction l as [|x l IH]; [done|].
    rewrite fmap_cons. cbn [Zsum foldr]. unfold Zsum in IH. lia.
  - rewrite <-(norm_nil_r f Hf), <-(norm_nil_r s Hs). unfold norm. rewrite <-Zsum_fmap_add.
    apply Zsum_fmap_le. intros l. pose proof (copies_nonneg l f (proj2 Hf)).
    pose proof (copies_nonneg l s (proj2 Hs)). change (copies l []) with 0. lia.
Qed.

Lemma skip_smaller_ok label f s ret :
  labels_ok s -> (forall x, x ∈ f -> label <= x.1) ->
  exists ret' s', skip_smaller label s ret = (ret', s') /\ labels_ok s' /\
    (forall x, x ∈ s' -> label <= x.1) /\ (forall x, x ∈ s' -> x ∈ s) /\
    ret + norm f s = ret' + norm f s'.
Proof.
  intros Hs Hf. revert ret. induction s as [|[l c] s IH]; intros ret; simpl.
  - exists ret, []. split_and!; [done..|set_solver|done|done].
  - apply labels_ok_cons in Hs as Hs'. destruct Hs' as (Hx & Hlt & Hs'). simpl in Hlt.
    destruct (Z.ltb_spec l label) as [Hl|Hl].
    + destruct (IH Hs' (ret + c)) as (ret' & s' & -> & Hok & Hge & Hsub & E).
      exists ret', s'. split_and!; [done..|set_solver|].
      rewrite norm_cons_right; [simpl; lia|done| |]; intros y Hy.
      * specialize (Hf y Hy). simpl. lia.
      * specialize (Hlt y Hy). simpl. lia.
    + exists ret, ((l, c) :: s). split_and!; [done..| |done|done].
      intros x [->|Hxs]%elem_of_cons; [done|]. specialize (Hlt x Hxs). lia.
Qed.

Lemma distance_loop_ok f s ret :
  labels_ok f -> labels_ok s -> distance_loop f s ret = ret + norm f s.
Proof.
  revert s ret. induction f as [|[l c] f IH]; intros s ret Hf Hs; simpl.
  - rewrite norm_sym, norm_nil_r by done.
    clear. revert ret. induction s as [|x s IH]; intros ret; simpl; [lia|]. rewrite IH. lia.
  - apply labels_ok_cons in Hf as Hf'. destruct Hf' as (Hx & Hlt & Hf'). simpl in Hlt.
    destruct (skip_smaller_ok l ((l, c) :: f) s ret Hs) as (ret' & s' & -> & Hs' & Hge & Hsub & ->).
    { intros x [->|Hxf]%elem_of_cons; [done|]. specialize (Hlt x Hxf). lia. }
    assert (forall y, y ∈ f -> y.1 <> l) as Hnf by (intros y Hy; specialize (Hlt y Hy); lia).
    destruct s' as [|[l2 c2] s2].
    { rewrite IH, norm_cons_left by (done || by intros ? ?%not_elem_of_nil). simpl. lia. }
    pose proof Hs' as (Hx2 & Hlt2 & Hs2)%labels_ok_cons. simpl in Hlt2.
    pose proof (Hge (l2, c2) (list_elem_of_here _ _)) as Hl2. simpl in Hl2.
    destruct (Z.ltb_spec l l2) as [Hll|Hll].
    + assert (forall y, y ∈ (l2, c2) :: s2 -> y.1 <> l) as Hns.
      { intros y [->|Hy]%elem_of_cons; [simpl; lia|]. specialize (Hlt2 y Hy). lia. }
      rewrite IH, norm_cons_left by done. simpl. lia.
    + assert (l2 = l) as -> by lia. destruct Hx as [Hx _].
      assert (forall y, y ∈ s2 -> y.1 <> l) as Hns by (intros y Hy; specialize (Hlt2 y Hy); lia).
      rewrite IH, norm_cons_both by done. lia.
Qed.

#[global] Opaque norm.

(** ** Slices in their flat storage *)

Lemma parts_length s : length (parts s) = length (part_size_ s).
Proof.
  unfold parts. generalize (data_ s). induction (part_size_ s) as [|k l IH]; intros d; simpl; [done|].
  by rewrite IH.
Qed.

(** The iterator and operator[] give the same parts. *)
Lemma parts_lookup s p : (p < length (part_size_ s))%nat -> parts s !! p = Some (part s p).
Proof.
  unfold parts, part, getPartOffset. generalize (data_ s). revert p.
  induction (part_size_ s) as [|k l IH]; intros [|p] d Hp; simpl in *; try lia; [done|].
  rewrite IH by lia. by rewrite drop_drop.
Qed.

Lemma parts_concat s :
  sum_list (part_size_ s) = length (data_ s) -> concat (parts s) = data_ s.
Proof.
  unfold parts. generalize (data_ s). induction (part_size_ s) as [|k l IH]; intros d H; simpl in *.
  - by destruct d.
  - rewrite IH; [apply take_drop|]. rewrite length_drop. lia.
Qed.

Lemma split_parts_concat (us : list Labels) : split_parts (length <$> us) (concat us) = us.
Proof.
  induction us as [|u us IH]; [done|]. rewrite fmap_cons. cbn [concat split_parts].
  rewrite take_app_length, drop_app_length. by f_equal.
Qed.

(** The labels of a part of a valid slice: at least one copy and at most [B]. *)
Record part_ok (B : Z) (ls : Labels) : Prop := MkPartOk {
  part_labels : labels_ok ls;
  part_positive : Forall positive_entry ls;
  part_bound : 0 < total ls <= B;
}.

Record slice_ok (B : Z) (s : Slice) : Prop := MkSliceOk {
  slice_size : Goals.size s = Some (Z.of_nat (length (part_size_ s)));
  slice_storage : sum_list (part_size_ s) = length (data_ s);
  slice_parts : Forall (part_ok B) (parts s);
}.

Lemma expectedParts_bound type n : SliceType.expectedParts type = Some n -> 1 <= n <= 64.
Proof.
  intros H. assert (SliceType.isValid type = true) as Hv.
  { unfold SliceType.expectedParts in H. by destruct (SliceType.isValid type). }
  rewrite expectedParts_spec in H by done. apply (inj Some) in H as <-.
  pose proof (parity_parts_range type Hv). pose proof (data_parts_range type Hv). lia.
Qed.

Lemma slice_ok_part B s p : slice_ok B s -> (p < length (part_size_ s))%nat -> part_ok B (part s p).
Proof.
  intros H Hp. eapply Forall_lookup_1; [apply H|]. by apply parts_lookup.
Qed.

(** Such slices are valid. *)
Lemma slice_ok_valid B s : slice_ok B s -> Slice_isValid s = true.
Proof.
  intros H. unfold Slice_isValid. rewrite (slice_size B s H), Nat2Z.id. apply andb_true_iff. split.
  - apply forallb_forall. intros x Hx%list_elem_of_In. rewrite <-(parts_concat s (slice_storage B s H)) in Hx.
    apply elem_of_concat in Hx as (ls & Hls & Hx).
    pose proof (proj1 (Forall_forall _ _) (slice_parts B s H) ls Hls) as [_ Hp _].
    rewrite Forall_forall in Hp. specialize (Hp x Hx). unfold positive_entry in Hp. lia.
  - apply forallb_forall. intros p Hp%list_elem_of_In%elem_of_seq.
    pose proof (slice_ok_part B s p H ltac:(lia)) as [_ _ Hb]. destruct (part s p); simpl in *; [lia|done].
Qed.

(** ** Merging slices *)

Definition union (local_part other_part : Labels) : Labels := default [] (makeLabelsUnion local_part other_part).

(** How far a part is from its union with a part of the other slice. *)
Definition part_distance (local_part other_part : Labels) : Z := norm local_part (union local_part other_part).

(** The distance from a slice, when part [i] is merged with part [tau i] of the other slice. *)
Definition merge_distance (s other : Slice) (tau : list nat) : Z :=
  Zsum (zip_with (fun local_part j => part_distance local_part (part other j)) (parts s) tau).

Lemma union_part B B' f s :
  part_ok B f -> part_ok B' s -> B <= 65535 -> B' <= 65535 ->
  makeLabelsUnion f s = Some (union f s) /\ union_of f s (union f s) /\ part_ok (B + B') (union f s).
Proof.
  intros [Hf Pf Bf] [Hs Ps Bs] H H'.
  destruct (makeLabelsUnion_ok f s Hf Hs ltac:(lia) ltac:(lia)) as (u & E & Hu).
  unfold union. rewrite E. simpl. split_and!; [done..|]. destruct Hu as [U1 U2 U3 U4 U5 U6].
  split; [done|by apply U6|]. split; [lia|].
  assert (total u <= total (f ++ s)) as Hle.
  { apply U5; [apply Forall_app; split; [apply Hf|apply Hs]| |rewrite total_app; lia..].
    intros l Hl. rewrite copies_app. pose proof (copies_nonneg l f (proj2 Hf)).
    pose proof (copies_nonneg l s (proj2 Hs)). lia. }
  rewrite total_app in Hle. lia.
Qed.

Lemma positive_length ls : Forall positive_entry ls -> Z.of_nat (length ls) <= total ls.
Proof. unfold positive_entry. induction 1; simpl; lia. Qed.

Lemma merge_cost_ok B B' f s :
  part_ok B f -> part_ok B' s -> B + B' <= 30000 ->
  merge_cost f s = Some (1280 - part_distance f s) /\ 0 <= part_distance f s <= 60000.
Proof.
  intros Hf Hs HB. pose proof (part_bound B f Hf). pose proof (part_bound B' s Hs).
  destruct (union_part B B' f s Hf Hs) as (E & _ & Hu); [lia..|].
  pose proof (norm_bound f (union f s) (part_labels B f Hf) (part_labels _ _ Hu)) as Hn.
  pose proof (part_bound _ _ Hu). fold (part_distance f s) in Hn. split; [|lia].
  unfold merge_cost. rewrite E. cbn [mbind option_bind]. unfold labelsDistance.
  rewrite (distance_loop_ok f _ 0 (part_labels _ _ Hf) (part_labels _ _ Hu)), Z.add_0_l.
  fold (part_distance f s). f_equal. apply to_signed_wrap; [lia|].
  unfold is_sint, kMaxExpectedCopies. change (2 ^ (32 - 1)) with 2147483648. lia.
Qed.

Section merge.
Context (B B' : Z) (s other : Slice) (Hs : slice_ok B s) (Ho : slice_ok B' other)
  (Htype : type_ s = type_ other) (HB : B + B' <= 30000).

Definition parts_count : nat := length (part_size_ s).

Lemma other_count : length (part_size_ other) = parts_count.
Proof.
  pose proof (slice_size B s Hs) as H1. pose proof (slice_size B' other Ho) as H2.
  unfold Goals.size in *. rewrite Htype, H2 in H1. unfold parts_count. injection H1. lia.
Qed.

Lemma count_bound : (1 <= parts_count <= 64)%nat.
Proof.
  pose proof (slice_size B s Hs) as H. apply expectedParts_bound in H. unfold parts_count. lia.
Qed.

Definition costs : list (list Z) :=
  (fun f => (fun o => 1280 - part_distance f o) <$> parts other) <$> parts s.

Lemma costs_ok : mapM (fun local_part => mapM (merge_cost local_part) (parts other)) (parts s) = Some costs.
Proof.
  apply mapM_Some_2, Forall2_fmap_r, Forall_Forall2_diag, Forall_forall. intros f Hf.
  apply mapM_Some_2, Forall2_fmap_r, Forall_Forall2_diag, Forall_forall. intros o Hin.
  pose proof (proj1 (Forall_forall _ _) (slice_parts B s Hs) f Hf) as Pf.
  pose proof (proj1 (Forall_forall _ _) (slice_parts B' other Ho) o Hin) as Po.
  by apply (merge_cost_ok B B').
Qed.

Lemma costs_rows : length costs = parts_count /\
  Forall (fun row => length row = parts_count) costs /\
  Forall (Forall (fun x => - 60000 <= x <= 60000)) costs.
Proof.
  unfold costs. split_and!.
  - by rewrite length_fmap, parts_length.
  - apply Forall_fmap, Forall_forall. intros f Hf. simpl. by rewrite length_fmap, parts_length, other_count.
  - apply Forall_fmap, Forall_forall. intros f Hf. apply Forall_fmap, Forall_forall. intros o Hin. simpl.
    pose proof (proj1 (Forall_forall _ _) (slice_parts B s Hs) f Hf) as Pf.
    pose proof (proj1 (Forall_forall _ _) (slice_parts B' other Ho) o Hin) as Po.
    pose proof (proj2 (merge_cost_ok B B' f o Pf Po HB)). lia.
Qed.

Lemma costs_value tau :
  Permutation tau (seq 0 parts_count) ->
  value costs tau = 1280 * Z.of_nat parts_count - merge_distance s other tau.
Proof.
  intros Htau. assert (length tau = length (parts s)) as Hl.
  { by rewrite Htau, length_seq, parts_length. }
  assert (Forall (fun j => (j < length (part_size_ other))%nat) tau) as Hlt.
  { apply Forall_forall. intros j Hj. rewrite Htau in Hj. apply elem_of_seq in Hj. rewrite other_count. lia. }
  unfold parts_count. rewrite <-parts_length. clear Htau. unfold value, merge_distance, costs.
  revert tau Hl Hlt. induction (parts s) as [|f fs IH]; intros [|j tau] Hl Hlt; simpl in Hl; try lia.
  { simpl. lia. }
  apply Forall_cons in Hlt as [Hj Hlt]. rewrite fmap_cons. cbn [zip_with length].
  change (Zsum (?x :: ?l)) with (x + Zsum l). rewrite IH by (done || lia).
  assert (((fun o => 1280 - part_distance f o) <$> parts other) !!! j = 1280 - part_distance f (part other j)) as ->.
  { apply list_lookup_total_correct. by rewrite list_lookup_fmap, parts_lookup. }
  lia.
Qed.

(** The parts of the result. *)
Definition merged_parts (sigma : list nat) : list Labels :=
  zip_with (fun f j => union f (part other j)) (parts s) sigma.

Lemma merge_parts_ok a :
  Forall (fun j => 0 <= j) a -> Permutation (Z.to_nat <$> a) (seq 0 parts_count) ->
  merge_parts s other a = Some (merged_parts (Z.to_nat <$> a)).
Proof.
  intros Hpos Hperm. unfold merge_parts, merged_parts. apply mapM_Some_2, Forall2_same_length_lookup.
  assert (length a = length (parts s)) as Hl.
  { apply Permutation_length in Hperm. rewrite length_fmap, length_seq in Hperm. by rewrite parts_length. }
  split; [rewrite length_zip_with, length_zip_with, length_fmap; lia|].
  intros i [f j] u Hz. apply lookup_zip_Some in Hz as [Hf Hj]. cbn [fst snd] in Hf, Hj.
  rewrite lookup_zip_with, Hf, list_lookup_fmap, Hj. cbn. intros <-%(inj Some).
  assert (0 <= j) as Hj0 by exact (Forall_lookup_1 _ _ _ _ Hpos Hj).
  assert (Z.to_nat j < parts_count)%nat as Hjn.
  { assert (Z.to_nat j ∈ Z.to_nat <$> a) as Hin by (apply list_elem_of_fmap; eauto using list_elem_of_lookup_2).
    rewrite Hperm in Hin. apply elem_of_seq in Hin. lia. }
  unfold checked_part. rewrite (slice_size B' other Ho), other_count. cbn [mbind option_bind].
  replace ((0 <=? j) && (j <? Z.of_nat parts_count)) with true by lia. cbn [mbind option_bind].
  pose proof (Forall_lookup_1 _ _ _ _ (slice_parts B s Hs) Hf) as Pf.
  pose proof (slice_ok_part B' other (Z.to_nat j) Ho ltac:(rewrite other_count; lia)) as Po.
  pose proof (part_bound _ _ Pf). pose proof (part_bound _ _ Po).
  by apply (union_part B B' f (part other (Z.to_nat j)) Pf Po); lia.
Qed.

Lemma merged_parts_ok sigma :
  Permutation sigma (seq 0 parts_count) ->
  length (merged_parts sigma) = parts_count /\ Forall (part_ok (B + B')) (merged_parts sigma) /\
  forall i j, sigma !! i = Some j ->
    exists u, merged_parts sigma !! i = Some u /\ union_of (part s i) (part other j) u.
Proof.
  intros Hperm. assert (length sigma = parts_count) as Hl by by rewrite Hperm, length_seq.
  assert (forall i j, sigma !! i = Some j -> (i < parts_count)%nat /\ (j < parts_count)%nat) as Hb.
  { intros i j Hj. split; [apply lookup_lt_Some in Hj; lia|].
    apply list_elem_of_lookup_2 in Hj. rewrite Hperm in Hj. apply elem_of_seq in Hj. lia. }
  assert (forall i j, sigma !! i = Some j ->
    union_of (part s i) (part other j) (union (part s i) (part other j)) /\
    part_ok (B + B') (union (part s i) (part other j))) as Hu.
  { intros i j Hj. destruct (Hb i j Hj) as [Hi Hjn].
    pose proof (slice_ok_part B s i Hs Hi) as Pf.
    pose proof (slice_ok_part B' other j Ho ltac:(rewrite other_count; lia)) as Po.
    pose proof (part_bound _ _ Pf). pose proof (part_bound _ _ Po).
    apply (union_part B B' _ _ Pf Po); lia. }
  split_and!.
  - unfold merged_parts. rewrite length_zip_with, parts_length, Hl. unfold parts_count. lia.
  - apply Forall_lookup_2. intros i u. unfold merged_parts. rewrite lookup_zip_with_Some.
    intros (f & j & -> & Hf & Hj). destruct (Hb i j Hj) as [Hi _].
    rewrite parts_lookup in Hf by done. apply (inj Some) in Hf as <-. by apply Hu.
  - intros i j Hj. destruct (Hb i j Hj) as [Hi _]. exists (union (part s i) (part other j)).
    unfold merged_parts. rewrite lookup_zip_with, parts_lookup, Hj by done. split; [done|]. by apply Hu.
Qed.

(** The sizes of the parts fit in a uint16_t. *)
Lemma merged_sizes sigma :
  Permutation sigma (seq 0 parts_count) ->
  (fun u : Labels => Z.to_nat (u16 (Z.of_nat (length u)))) <$> merged_parts sigma =
  length <$> merged_parts sigma.
Proof.
  intros Hperm. destruct (merged_parts_ok sigma Hperm) as (_ & Hok & _).
  apply list_fmap_ext. intros i u Hu. pose proof (Forall_lookup_1 _ _ _ _ Hok Hu) as [_ Hp Hb].
  pose proof (positive_length u Hp). unfold u16. rewrite wrap_small; [apply Nat2Z.id|].
  unfold is_uint. change (2 ^ 16) with 65536. lia.
Qed.

Definition merged_slice (sigma : list nat) : Slice :=
  MkSlice (type_ s) (length <$> merged_parts sigma) (concat (merged_parts sigma)).

Lemma merged_slice_ok sigma :
  Permutation sigma (seq 0 parts_count) ->
  slice_ok (B + B') (merged_slice sigma) /\
  forall i j, sigma !! i = Some j -> union_of (part s i) (part other j) (part (merged_slice sigma) i).
Proof.
  intros Hperm. destruct (merged_parts_ok sigma Hperm) as (Hl & Hok & Hu).
  assert (parts (merged_slice sigma) = merged_parts sigma) as Hparts by apply split_parts_concat.
  assert (length (part_size_ (merged_slice sigma)) = parts_count) as Hcount.
  { unfold merged_slice. simpl. by rewrite length_fmap. }
  split; [split|].
  - rewrite Hcount. apply (slice_size B s Hs).
  - unfold merged_slice. simpl. clear. induction (merged_parts sigma) as [|u us IH]; [done|].
    rewrite fmap_cons. simpl. by rewrite length_app, <-IH.
  - by rewrite Hparts.
  - intros i j Hj. destruct (Hu i j Hj) as (u & Hi & Huo). rewrite <-Hparts in Hi.
    rewrite parts_lookup in Hi by (rewrite Hcount, <-Hl, <-Hparts; by eapply lookup_lt_Some).
    by apply (inj Some) in Hi as ->.
Qed.

Lemma Slice_mergeIn_ok :
  exists sigma, Slice_mergeIn s other = Some (merged_slice sigma) /\
    Permutation sigma (seq 0 parts_count) /\
    forall tau, Permutation tau (seq 0 parts_count) ->
      merge_distance s other sigma <= merge_distance s other tau.
Proof.
  destruct costs_rows as (R1 & R2 & R3). pose proof count_bound as Hc.
  destruct (auctionOptimization_ok kMaxPartsCount parts_count costs 60000)
    as (a & Ea & Hpos & Hperm & Hopt); try done; try lia.
  { unfold kMaxPartsCount. lia. }
  { unfold int_max. lia. }
  exists (Z.to_nat <$> a). split; [|split; [done|]].
  - unfold Slice_mergeIn. rewrite (bind_Some_eq _ _ _ (slice_size B s Hs)).
    rewrite (bind_Some_eq _ _ _ (slice_size B' other Ho)), other_count.
    replace (negb _) with false by (unfold parts_count; lia).
    rewrite (bind_Some_eq _ _ _ costs_ok), Nat2Z.id. rewrite (bind_Some_eq _ _ _ Ea).
    rewrite (bind_Some_eq _ _ _ (merge_parts_ok a Hpos Hperm)). by rewrite merged_sizes.
  - intros tau Htau. specialize (Hopt tau Htau). rewrite !costs_value in Hopt by done. lia.
Qed.

End merge.

(** ** Merging goals *)

(** The slice of a type in a list. *)
Definition with_type (type : Z) (l : list Slice) : option Slice := List.find (fun s => type_ s =? type) l.

Lemma slice_of_find g type : goal_ok g -> slice_of g type = with_type type (goal_slices_ g).
Proof.
  intros Hg. unfold with_type. destruct (List.find _ _) as [s|] eqn:E.
  - apply slice_of_iff; [done|]. apply find_some in E as [Hin Ht]. split; [by apply list_elem_of_In|lia].
  - destruct (slice_of g type) as [s|] eqn:Es; [|done]. apply slice_of_iff in Es as [Hin Ht]; [|done].
    apply list_elem_of_In in Hin. pose proof (find_none _ _ E s Hin) as Hn. simpl in Hn. lia.
Qed.

(** What a merged goal has for a type. *)
Definition merged_type (a b : option Slice) : option Slice :=
  match a, b with
  | Some a, Some b => Slice_mergeIn a b
  | Some a, None => Some a
  | None, b => b
  end.

Lemma slice_ok_mono B B' s : slice_ok B s -> B <= B' -> slice_ok B' s.
Proof.
  intros [H1 H2 H3] HB. split; [done..|]. eapply Forall_impl; [done|].
  intros ls [L1 L2 L3]. split; [done..|lia].
Qed.

(** One turn of the loop is a setSlice(). *)
Lemma merge_slice_ok B B' g o :
  goal_ok g -> slice_ok B' o -> (forall s, slice_of g (type_ o) = Some s -> slice_ok B s) ->
  B + B' <= 30000 -> 0 <= B ->
  exists r, merge_slice g o = Some (setSlice g r) /\ type_ r = type_ o /\ slice_ok (B + B') r /\
    merged_type (slice_of g (type_ o)) (Some o) = Some r.
Proof.
  intros Hg Ho Hs HB HB0. unfold merge_slice. rewrite (slice_ok_valid B' o Ho). cbn [negb].
  unfold slice_of, setSlice in *. destruct (find_slice (goal_slices_ g) (type_ o)) as [it|] eqn:Ef.
  - destruct (find_slice_cases (goal_slices_ g) (type_ o) Hg) as [(l1 & x & l2 & El & Ex & Efx)|[? _]]; [|congruence].
    assert (goal_slices_ g !! it = Some x) as Ex'.
    { rewrite Ef in Efx. apply (inj Some) in Efx as ->. by rewrite El, list_lookup_middle. }
    cbn [mbind option_bind] in Hs |- *. rewrite Ex'. specialize (Hs x Ex').
    rewrite (bind_Some_eq _ _ _ (eq_refl (Some x))).
    destruct (Slice_mergeIn_ok B B' x o Hs Ho Ex HB) as (sigma & Em & Hperm & _).
    exists (merged_slice x o sigma).
    assert (type_ (merged_slice x o sigma) = type_ o) as Ht by (by rewrite <-Ex). rewrite Ht, Ef. split_and!.
    + rewrite (bind_Some_eq _ _ _ (slice_size B x Hs)), (bind_Some_eq _ _ _ (slice_size B' o Ho)).
      rewrite (other_count B B' x o Hs Ho Ex), Z.eqb_refl. cbn [negb]. by rewrite (bind_Some_eq _ _ _ Em).
    + done.
    + by apply (merged_slice_ok B B' x o Hs Ho Ex HB).
    + done.
  - exists o. rewrite Ef. split_and!; try done. apply (slice_ok_mono B'); [done|lia].
Qed.

Lemma merge_slices_ok B B' l g :
  goal_ok g -> StronglySorted (fun s t => slice_ltb s t = true) l -> Forall (slice_ok B') l ->
  (forall o s, o ∈ l -> slice_of g (type_ o) = Some s -> slice_ok B s) ->
  B + B' <= 30000 -> 0 <= B ->
  exists g', foldl (fun acc o => g ← acc; merge_slice g o) (Some g) l = Some g' /\ goal_ok g' /\
    forall type, slice_of g' type = merged_type (slice_of g type) (with_type type l).
Proof.
  intros Hg Hl. revert g Hg. induction l as [|o l IH]; intros g Hg Hok Hs HB HB0.
  { exists g. split_and!; [done..|]. intros type. by destruct (slice_of g type). }
  apply StronglySorted_cons in Hl as [Hlt Hl]. rewrite Forall_forall in Hlt.
  apply Forall_cons in Hok as [Ho Hok].
  destruct (merge_slice_ok B B' g o Hg Ho) as (r & Er & Ht & Hr & Em); [set_solver|done..|].
  cbn [foldl]. rewrite (bind_Some_eq _ _ _ (eq_refl (Some g))), Er.
  destruct (IH Hl (setSlice g r)) as (g' & -> & Hg' & Hlook); [by apply setSlice_ok|done| |done..|].
  { intros o' s' Hin. rewrite setSlice_lookup, Ht by done. specialize (Hlt o' Hin). unfold slice_ltb in Hlt.
    replace (type_ o' =? type_ o) with false by lia. apply Hs. by right. }
  exists g'. split_and!; [done..|]. intros type. rewrite Hlook, setSlice_lookup, Ht by done.
  unfold with_type. cbn [List.find]. rewrite (Z.eqb_sym (type_ o)).
  destruct (Z.eqb_spec type (type_ o)) as [->|Hne]; [|done].
  rewrite Em. destruct (List.find _ l) as [x|] eqn:Ex; [|done].
  apply find_some in Ex as [Hx Hxt]. apply list_elem_of_In in Hx. specialize (Hlt x Hx).
  unfold slice_ltb in Hlt. lia.
Qed.

(** ** Properties *)

(** A slice of type xor2 with three wildcard copies of its first part, and a slice to merge it with. *)
Definition wild_slice : Slice := MkSlice 2 [1; 1; 1]%nat [(kWildcard, 3); (4, 1); (5, 1)].
Definition plain_slice : Slice := MkSlice 2 [3; 1; 1]%nat [(1, 1); (2, 1); (3, 1); (4, 1); (5, 1)].

Lemma part_ok_intro B ls :
  sorted ls -> forallb (fun x => (0 <=? x.1) && (x.1 <=? kWildcard) && (0 <? x.2)) ls = true ->
  0 < total ls <= B -> part_ok B ls.
Proof.
  intros Hs Hf Hb. rewrite forallb_forall in Hf. split; [split; [done|]| |done]; apply Forall_forall;
    intros x Hx%list_elem_of_In%Hf; unfold entry_ok, positive_entry; lia.
Qed.

Lemma wild_slice_ok : slice_ok 3 wild_slice.
Proof.
  split; [done..|]. unfold parts; simpl.
  repeat (apply Forall_cons; split; [apply part_ok_intro; [by repeat constructor|done|vm_compute; intuition congruence]|]).
  by apply Forall_nil.
Qed.

Lemma plain_slice_ok : slice_ok 3 plain_slice.
Proof.
  split; [done..|]. unfold parts; simpl.
  repeat (apply Forall_cons; split; [apply part_ok_intro; [by repeat constructor|done|vm_compute; intuition congruence]|]).
  by apply Forall_nil.
Qed.

(** C23: merging slices.  For two slices of one type, Slice::mergeIn() succeeds and gives a valid slice
    of the type: each of its parts is the union of a part of the first slice and a different part of
    the second, which wants the larger number of copies on every label and no more copies than needed.
    Which part goes with which is chosen so that the first norm of the difference to the first slice,
    over all parts, is the least possible. *)
Theorem slice_merge_nearest (B B' : Z) (s other : Slice)
    (Hs : slice_ok B s) (Ho : slice_ok B' other) (Htype : type_ s = type_ other) (HB : B + B' <= 30000) :
  exists r sigma, Slice_mergeIn s other = Some r /\ type_ r = type_ s /\
    slice_ok (B + B') r /\ Slice_isValid r = true /\
    Permutation sigma (seq 0 (length (part_size_ s))) /\
    (forall i j, sigma !! i = Some j -> union_of (part s i) (part other j) (part r i)) /\
    (forall tau, Permutation tau (seq 0 (length (part_size_ s))) ->
       merge_distance s other sigma <= merge_distance s other tau).
Proof.
  destruct (Slice_mergeIn_ok B B' s other Hs Ho Htype HB) as (sigma & E & Hperm & Hopt).
  destruct (merged_slice_ok B B' s other Hs Ho Htype HB sigma Hperm) as [Hok Hu].
  exists (merged_slice s other sigma), sigma. split_and!; try done.
  by apply (slice_ok_valid (B + B')).
Qed.

(** Merging goals.  Goal::mergeIn() succeeds on goals of valid slices: it keeps the slices ordered
    by type, one of each, and has for every type the slice of the one goal that has it, or the merged
    slices when both do. *)
Theorem goal_merge_lookup (B B' : Z) (g other : Goal)
    (Hg : goal_ok g) (Ho : goal_ok other) (Hgs : Forall (slice_ok B) (goal_slices_ g))
    (Hos : Forall (slice_ok B') (goal_slices_ other)) (HB0 : 0 <= B) (HB : B + B' <= 30000) :
  exists g', Goal_mergeIn g other = Some g' /\ goal_ok g' /\
    forall type, slice_of g' type = merged_type (slice_of g type) (slice_of other type).
Proof.
  destruct (merge_slices_ok B B' (goal_slices_ other) g) as (g' & E & Hg' & Hlook); try done.
  { intros o s _ Es. apply slice_of_iff in Es as [Hin _]; [|done]. rewrite Forall_forall in Hgs. by apply Hgs. }
  exists g'. split_and!; [done..|]. intros type. by rewrite Hlook, (slice_of_find other).
Qed.

(** Slice::mergeIn() does not minimize the number of copies, which its comment promises.  Merging
    these slices wants eight copies; keeping the parts in their order would want five. *)
Theorem merge_more_copies_than_needed :
  option_map getExpectedCopies (Slice_mergeIn wild_slice plain_slice) = Some 8 /\
  option_map (fun us => countLabels (concat us)) (merge_parts wild_slice plain_slice [0; 1; 2]) = Some 5.
Proof. vm_compute. done. Qed.

Lemma slice_merge_nearest_witness :
  exists r sigma, Slice_mergeIn wild_slice plain_slice = Some r /\ Slice_isValid r = true /\
    Permutation sigma (seq 0 3) /\
    merge_distance wild_slice plain_slice sigma <= merge_distance wild_slice plain_slice [2; 0; 1]%nat.
Proof.
  destruct (slice_merge_nearest 3 3 wild_slice plain_slice wild_slice_ok plain_slice_ok eq_refl ltac:(lia))
    as (r & sigma & E & _ & _ & Hv & Hp & _ & Hopt).
  exists r, sigma. split; [exact E|]. split; [exact Hv|]. split; [exact Hp|]. apply Hopt.
  apply (Permutation_app_comm [2%nat] [0; 1]%nat).
Defined.

Lemma goal_merge_lookup_witness :
  exists g', Goal_mergeIn (MkGoal [] [wild_slice]) (MkGoal [] [plain_slice]) = Some g' /\
    slice_of g' 2 = Slice_mergeIn wild_slice plain_slice.
Proof.
  destruct (goal_merge_lookup 3 3 (MkGoal [] [wild_slice]) (MkGoal [] [plain_slice])) as (g' & E & _ & Hl).
  - repeat constructor.
  - repeat constructor.
  - apply Forall_singleton, wild_slice_ok.
  - apply Forall_singleton, plain_slice_ok.
  - lia.
  - lia.
  - exists g'. split; [exact E|]. rewrite Hl. reflexivity.
Defined.
