(* ===== verification/RichACL.v ===== *)
(** Access control lists (src/common/richacl.h and richacl.cc).

    A RichACL is a list of entries, each of which allows or denies some permissions to somebody, with
    three file masks.  The metadata server keeps RichACLs; POSIX ACLs are converted to them.  Masks and
    flags are sets of bits, kept as integers; what an entry does to one permission is what it does to
    one bit, and the lemmas go bit by bit. *)
From S2P Require Import Prelude Serialization.

(** ** Entries *)

Record Ace := MkAce { ace_type : Z; ace_flags : Z; ace_mask : Z; ace_id : Z }.

#[export] Instance Ace_eq_dec : EqDecision Ace.
Proof. solve_decision. Defined.

(** The constructor stores bit fields of 2, 9 and 21 bits. *)
Definition make_ace (type flags mask id : Z) : Ace :=
  MkAce (wrap 2 type) (wrap 9 flags) (wrap 21 mask) id.

Definition kAccessAllowedAceType : Z := 0x0000.
Definition kAccessDeniedAceType : Z := 0x0001.

Definition kFileInheritAce : Z := 0x0001.
Definition kDirectoryInheritAce : Z := 0x0002.
Definition kNoPropagateInheritAce : Z := 0x0004.
Definition kInheritOnlyAce : Z := 0x0008.
Definition kIdentifierGroup : Z := 0x0040.
Definition kInheritedAce : Z := 0x0080.
Definition kSpecialWho : Z := 0x0100.

Definition kReadData : Z := 0x00000001.
Definition kListDirectory : Z := 0x00000001.
Definition kWriteData : Z := 0x00000002.
Definition kAddFile : Z := 0x00000002.
Definition kAppendData : Z := 0x00000004.
Definition kAddSubdirectory : Z := 0x00000004.
Definition kExecute : Z := 0x00000020.
Definition kDeleteChild : Z := 0x00000040.
Definition kReadAttributes : Z := 0x00000080.
Definition kWriteAttributes : Z := 0x00000100.
Definition kReadAcl : Z := 0x00020000.
Definition kWriteAcl : Z := 0x00040000.
Definition kWriteOwner : Z := 0x00080000.
Definition kSynchronize : Z := 0x00100000.

Definition kOwnerSpecialId : Z := 0.
Definition kGroupSpecialId : Z := 1.
Definition kEveryoneSpecialId : Z := 2.

Definition kPosixModeRead : Z := Z.lor kReadData kListDirectory.
Definition kPosixModeWrite : Z :=
  Z.lor (Z.lor (Z.lor (Z.lor kWriteData kAddFile) kAppendData) kAddSubdirectory) kDeleteChild.
Definition kPosixModeExec : Z := kExecute.
Definition kPosixAlwaysAllowed : Z := Z.lor (Z.lor kSynchronize kReadAttributes) kReadAcl.
Definition kPosixOwnerAllowed : Z := Z.lor (Z.lor kWriteAttributes kWriteOwner) kWriteAcl.
Definition kInheritanceFlags : Z :=
  Z.lor (Z.lor (Z.lor (Z.lor kFileInheritAce kDirectoryInheritAce) kNoPropagateInheritAce)
    kInheritOnlyAce) kInheritedAce.

(** [x & y], as a condition. *)
Definition has (x y : Z) : bool := negb (Z.land x y =? 0).

(** [x & ~y] *)
Definition minus (x y : Z) : Z := Z.ldiff x y.

Definition isAllow (a : Ace) : bool := ace_type a =? kAccessAllowedAceType.
Definition isDeny (a : Ace) : bool := ace_type a =? kAccessDeniedAceType.
Definition isOwner (a : Ace) : bool := has (ace_flags a) kSpecialWho && (ace_id a =? kOwnerSpecialId).
Definition isGroup (a : Ace) : bool := has (ace_flags a) kSpecialWho && (ace_id a =? kGroupSpecialId).
Definition isEveryone (a : Ace) : bool :=
  has (ace_flags a) kSpecialWho && (ace_id a =? kEveryoneSpecialId).
Definition isUnixUser (a : Ace) : bool :=
  negb (has (ace_flags a) kSpecialWho) && negb (has (ace_flags a) kIdentifierGroup).
Definition isUnixGroup (a : Ace) : bool :=
  negb (has (ace_flags a) kSpecialWho) && has (ace_flags a) kIdentifierGroup.
Definition isInheritable (a : Ace) : bool :=
  has (ace_flags a) (Z.lor kFileInheritAce kDirectoryInheritAce).
Definition isInheritOnly (a : Ace) : bool := has (ace_flags a) kInheritOnlyAce.

Definition isSameIdentifier (a b : Ace) : bool :=
  negb (has (Z.lxor (ace_flags a) (ace_flags b)) (Z.lor kSpecialWho kIdentifierGroup)
        || negb (ace_id a =? ace_id b)).

Definition inheritsToDirectory (a : Ace) : bool :=
  if has (ace_flags a) kDirectoryInheritAce then true
  else has (ace_flags a) kFileInheritAce && negb (has (ace_flags a) kNoPropagateInheritAce).

Definition set_flags (a : Ace) (flags : Z) : Ace := MkAce (ace_type a) (wrap 9 flags) (ace_mask a) (ace_id a).
Definition set_mask (a : Ace) (mask : Z) : Ace := MkAce (ace_type a) (ace_flags a) (wrap 21 mask) (ace_id a).

(** ** Lists *)

Record RichACL := MkRichACL {
  owner_mask_ : Z;
  group_mask_ : Z;
  other_mask_ : Z;
  flags_ : Z;
  ace_list_ : list Ace;
}.

#[export] Instance RichACL_eq_dec : EqDecision RichACL.
Proof. solve_decision. Defined.

Definition empty_acl : RichACL := MkRichACL 0 0 0 0 [].

Definition kAutoInherit : Z := 0x01.
Definition kProtected : Z := 0x02.
Definition kAutoSetMode : Z := 0x20.
Definition kWriteThrough : Z := 0x40.
Definition kMasked : Z := 0x80.

Definition isAutoInherit (acl : RichACL) : bool := has (flags_ acl) kAutoInherit.
Definition isProtected (acl : RichACL) : bool := has (flags_ acl) kProtected.
Definition isMasked (acl : RichACL) : bool := has (flags_ acl) kMasked.
Definition isWriteThrough (acl : RichACL) : bool := has (flags_ acl) kWriteThrough.
Definition isAutoSetMode (acl : RichACL) : bool := has (flags_ acl) kAutoSetMode.

Definition insert_ace (acl : RichACL) (a : Ace) : RichACL :=
  MkRichACL (owner_mask_ acl) (group_mask_ acl) (other_mask_ acl) (flags_ acl) (ace_list_ acl ++ [a]).

Definition with_aces (acl : RichACL) (l : list Ace) : RichACL :=
  MkRichACL (owner_mask_ acl) (group_mask_ acl) (other_mask_ acl) (flags_ acl) l.

Definition with_flags (acl : RichACL) (flags : Z) : RichACL :=
  MkRichACL (owner_mask_ acl) (group_mask_ acl) (other_mask_ acl) (wrap 16 flags) (ace_list_ acl).

(** ** Modes and masks *)

Definition S_IROTH : Z := 4.
Definition S_IWOTH : Z := 2.
Definition S_IXOTH : Z := 1.

Definition convertMode2Mask (mode : Z) : Z :=
  Z.lor (Z.lor (if has mode S_IROTH then kPosixModeRead else 0)
               (if has mode S_IWOTH then kPosixModeWrite else 0))
        (if has mode S_IXOTH then kPosixModeExec else 0).

Definition convertMask2Mode (mask : Z) : Z :=
  Z.lor (Z.lor (if has mask kPosixModeRead then S_IROTH else 0)
               (if has mask kPosixModeWrite then S_IWOTH else 0))
        (if has mask kPosixModeExec then S_IXOTH else 0).

(** The permission that only directories have. *)
Definition file_only (is_dir : bool) : Z := if is_dir then 0 else kDeleteChild.

Definition isSameMode (acl : RichACL) (mode : Z) (is_dir : bool) : bool :=
  let x := file_only is_dir in
  (minus (convertMode2Mask (Z.shiftr mode 6)) x =? owner_mask_ acl) &&
  (minus (convertMode2Mask (Z.shiftr mode 3)) x =? group_mask_ acl) &&
  (minus (convertMode2Mask mode) x =? other_mask_ acl) &&
  isMasked acl && isWriteThrough acl && (negb (isAutoInherit acl) || negb (isProtected acl)).

Definition setMode (acl : RichACL) (mode : Z) (is_dir : bool) : RichACL :=
  let x := file_only is_dir in
  MkRichACL (minus (convertMode2Mask (Z.shiftr mode 6)) x)
    (minus (convertMode2Mask (Z.shiftr mode 3)) x) (minus (convertMode2Mask mode) x)
    (Z.lor (flags_ acl) (Z.lor kMasked kWriteThrough)) (ace_list_ acl).

Definition getMode (acl : RichACL) : Z :=
  Z.lor (Z.lor (Z.shiftl (convertMask2Mode (owner_mask_ acl)) 6)
               (Z.shiftl (convertMask2Mode (group_mask_ acl)) 3))
        (convertMask2Mode (other_mask_ acl)).

(** The entry is inserted when its condition holds. *)
Definition insert_if (b : bool) (a : Ace) (acl : RichACL) : RichACL := if b then insert_ace acl a else acl.

Definition createFromMode (mode : Z) (is_dir : bool) : RichACL :=
  let x := file_only is_dir in
  let owner := minus (convertMode2Mask (Z.shiftr mode 6)) x in
  let group := minus (convertMode2Mask (Z.shiftr mode 3)) x in
  let other := minus (convertMode2Mask mode) x in
  let owner_denied := minus (Z.lor group other) owner in
  let group_denied := minus other group in
  let acl := MkRichACL owner group other 0 [] in
  let acl := insert_if (negb (owner_denied =? 0))
    (make_ace kAccessDeniedAceType kSpecialWho owner_denied kOwnerSpecialId) acl in
  let acl := insert_if (negb (minus owner (Z.land group other) =? 0))
    (make_ace kAccessAllowedAceType kSpecialWho owner kOwnerSpecialId) acl in
  let acl := insert_if (negb (group_denied =? 0))
    (make_ace kAccessDeniedAceType kSpecialWho group_denied kGroupSpecialId) acl in
  let acl := insert_if (negb (minus group other =? 0))
    (make_ace kAccessAllowedAceType kSpecialWho group kGroupSpecialId) acl in
  insert_if (negb (other =? 0)) (make_ace kAccessAllowedAceType kSpecialWho other kEveryoneSpecialId) acl.

(** ** The permission check *)

(** Who asks: the owner of the inode, its group, the user and the groups of the user. *)
Record Who := MkWho { owner_uid : Z; owner_gid : Z; uid : Z; groups : list Z }.

Definition in_groups (w : Who) (gid : Z) : bool := existsb (Z.eqb gid) (groups w).
Definition in_owning_group (w : Who) : bool := in_groups w (owner_gid w).

(** How an entry matches; an entry that is nobody's matches like everyone's. *)
Inductive Match := NoMatch | MatchOwner | MatchGroupClass | MatchEveryone.

Definition matching (w : Who) (a : Ace) : Match :=
  if isInheritOnly a then NoMatch
  else if isOwner a then (if owner_uid w =? uid w then MatchOwner else NoMatch)
  else if isGroup a then (if in_owning_group w then MatchGroupClass else NoMatch)
  else if isUnixUser a then
    if negb (uid w =? ace_id a) then NoMatch
    else if uid w =? owner_uid w then MatchOwner else MatchGroupClass
  else if isUnixGroup a then (if in_groups w (ace_id a) then MatchGroupClass else NoMatch)
  else MatchEveryone.

(** The permissions an entry decides: the group mask limits the allow entries of the group class. *)
Definition effective (acl : RichACL) (w : Who) (a : Ace) : Z :=
  match matching w a with
  | MatchGroupClass => if isMasked acl && isAllow a then Z.land (ace_mask a) (group_mask_ acl) else ace_mask a
  | _ => ace_mask a
  end.

(** The loop; the state is [mask], [denied] and [in_owner_or_group_class]. *)
Fixpoint check_loop (acl : RichACL) (w : Who) (l : list Ace) (mask denied : Z) (in_class : bool)
  : Z * Z * bool :=
  match l with
  | [] => (mask, denied, in_class)
  | a :: l =>
    match matching w a with
    | NoMatch => check_loop acl w l mask denied in_class
    | m =>
      let ace_mask := effective acl w a in
      let in_class := match m with MatchEveryone => in_class | _ => true end in
      let denied := if isDeny a then Z.lor denied (Z.land ace_mask mask) else denied in
      let mask := minus mask ace_mask in
      if (mask =? 0) && in_class then (mask, denied, in_class)
      else check_loop acl w l mask denied in_class
    end
  end.

Definition checkPermission (acl : RichACL) (requested : Z) (w : Who) : bool :=
  if isMasked acl && (isWriteThrough acl && (owner_uid w =? uid w)) then
    minus requested (owner_mask_ acl) =? 0
  else
    let in_class := if isMasked acl then in_owning_group w else true in
    let '(mask, denied, in_class) := check_loop acl w (ace_list_ acl) requested 0 in_class in
    let denied := Z.lor denied mask in
    let denied :=
      if isMasked acl then
        if uid w =? owner_uid w then Z.lor denied (minus requested (owner_mask_ acl))
        else if in_class then Z.lor denied (minus requested (group_mask_ acl))
        else if isWriteThrough acl then minus requested (other_mask_ acl)
        else Z.lor denied (minus requested (other_mask_ acl))
      else denied in
    denied =? 0.

(** ** What an entry allows *)

(** One entry of the loops from the last entry to the first. *)
Definition allow_or_deny (a : Ace) (allowed : Z) : Z :=
  if isAllow a then Z.lor allowed (ace_mask a)
  else if isDeny a then minus allowed (ace_mask a) else allowed.

Definition allowedToWho (l : list Ace) (who : Ace) : Z :=
  foldr (fun a allowed =>
    if isInheritOnly a then allowed
    else if isSameIdentifier a who || isEveryone a then allow_or_deny a allowed else allowed) 0 l.

(** The state is what everyone is allowed, what the group class is, and whether there was an entry of
    the owning group. *)
Definition groupClassAllowed (l : list Ace) : Z :=
  let '(everyone, group, had_group_ace) :=
    foldr (fun a '(everyone, group, had) =>
      if isInheritOnly a || isOwner a then (everyone, group, had)
      else if isEveryone a then (allow_or_deny a everyone, group, had)
      else (everyone, Z.lor group (allowedToWho l a), had || isGroup a)) (0, 0, false) l in
  if had_group_ace then group else Z.lor group everyone.

Definition max_masks_step (gmask : Z) (a : Ace) (masks : Z * Z * Z) : Z * Z * Z :=
  let '(owner, group, other) := masks in
  if isInheritOnly a then masks
  else if isOwner a then (allow_or_deny a owner, group, other)
  else if isEveryone a then
    if isAllow a then (Z.lor owner (ace_mask a), Z.lor group (Z.land (ace_mask a) gmask), Z.lor other (ace_mask a))
    else if isDeny a then (minus owner (ace_mask a), minus group (ace_mask a), minus other (ace_mask a))
    else masks
  else if isAllow a then
    (Z.lor owner (Z.land (ace_mask a) gmask), Z.lor group (Z.land (ace_mask a) gmask), other)
  else masks.

(** The variable [gmask]: what the group class is ever allowed, when some entry denies it something. *)
Definition max_group_mask (l : list Ace) : Z :=
  if existsb (fun a => negb (isInheritOnly a) && (negb (isOwner a) && negb (isEveryone a) && isDeny a)) l
  then groupClassAllowed l else uint32_max.

Definition computeMaxMasks (acl : RichACL) : RichACL :=
  let l := ace_list_ acl in
  let '(owner, group, other) := foldr (max_masks_step (max_group_mask l)) (0, 0, 0) l in
  MkRichACL owner group other (minus (flags_ acl) (Z.lor kWriteThrough kMasked)) l.

(** ** Inheritance *)

Definition removeInheritOnly (acl : RichACL) (remove_with_flag_set : bool) : RichACL :=
  with_aces acl (remove_if (fun a =>
    (remove_with_flag_set && isInheritOnly a) || (negb remove_with_flag_set && negb (isInheritOnly a)))
    (ace_list_ acl)).

Definition checkInheritFlags (acl : RichACL) (is_directory : bool) : bool :=
  if existsb (fun a => isInheritOnly a && negb (isInheritable a)) (ace_list_ acl) then false
  else if is_directory then true
  else negb (existsb (fun a => isInheritOnly a || isInheritable a) (ace_list_ acl)).

(** An entry of a directory, as its new subdirectory and its new file inherit it. *)
Definition inherit_to_dir (a : Ace) : Ace :=
  if has (ace_flags a) kNoPropagateInheritAce then set_flags a (minus (ace_flags a) kInheritanceFlags)
  else if has (ace_flags a) kDirectoryInheritAce then set_flags a (minus (ace_flags a) kInheritOnlyAce)
  else set_flags a (Z.lor (ace_flags a) kInheritOnlyAce).

Definition inherit_to_file (a : Ace) : Ace :=
  set_mask (set_flags a (minus (ace_flags a) kInheritanceFlags)) (minus (ace_mask a) kDeleteChild).

Definition inherit (dir_acl : RichACL) (is_dir : bool) : RichACL :=
  let l :=
    if is_dir then inherit_to_dir <$> List.filter inheritsToDirectory (ace_list_ dir_acl)
    else inherit_to_file <$> List.filter (fun a => has (ace_flags a) kFileInheritAce) (ace_list_ dir_acl) in
  if isAutoInherit dir_acl then
    MkRichACL 0 0 0 kAutoInherit ((fun a => set_flags a (Z.lor (ace_flags a) kInheritedAce)) <$> l)
  else MkRichACL 0 0 0 0 ((fun a => set_flags a (minus (ace_flags a) kInheritedAce)) <$> l).

(** The state of the loop of equivMode(). *)
Record Equiv := MkEquiv {
  owner_allowed : Z; owner_defined : Z;
  group_allowed : Z; group_defined : Z;
  everyone_allowed : Z; everyone_defined : Z;
}.

Fixpoint equiv_loop (l : list Ace) (st : Equiv) : option Equiv :=
  match l with
  | [] => Some st
  | a :: l =>
    if negb (minus (ace_flags a) kSpecialWho =? 0) then None
    else if isOwner a || isEveryone a then
      let x := minus (ace_mask a) (owner_defined st) in
      let conflict :=
        if isAllow a then has x (minus (group_defined st) (group_allowed st)) else has x (group_allowed st) in
      if conflict then None
      else
        let owner_allowed' := if isAllow a then Z.lor (owner_allowed st) x else owner_allowed st in
        let owner_defined' := Z.lor (owner_defined st) x in
        if isEveryone a then
          let x := ace_mask a in
          equiv_loop l (MkEquiv owner_allowed' owner_defined'
            (if isAllow a then Z.lor (group_allowed st) (minus x (group_defined st)) else group_allowed st)
            (Z.lor (group_defined st) x)
            (if isAllow a then Z.lor (everyone_allowed st) (minus x (everyone_defined st)) else everyone_allowed st)
            (Z.lor (everyone_defined st) x))
        else
          equiv_loop l (MkEquiv owner_allowed' owner_defined' (group_allowed st) (group_defined st)
            (everyone_allowed st) (everyone_defined st))
    else if isGroup a then
      let x := minus (ace_mask a) (group_defined st) in
      equiv_loop l (MkEquiv (owner_allowed st) (owner_defined st)
        (if isAllow a then Z.lor (group_allowed st) x else group_allowed st) (Z.lor (group_defined st) x)
        (everyone_allowed st) (everyone_defined st))
    else None
  end.

Definition kStandardPermissionsMask : Z := 511.

(** equivMode(): [None] when the list is not equivalent to a mode, otherwise the mode. *)
Definition equivMode (acl : RichACL) (mode : Z) (is_dir : bool) : option Z :=
  let x := file_only is_dir in
  let always := Z.lor kPosixAlwaysAllowed x in
  if negb (minus (flags_ acl) (Z.lor kWriteThrough kMasked) =? 0) then None
  else if isAutoSetMode acl && bool_decide (ace_list_ acl = []) then Some mode
  else
    st ← equiv_loop (ace_list_ acl)
      (MkEquiv 0 (Z.lor (Z.lor kPosixAlwaysAllowed kPosixOwnerAllowed) x) 0 always 0 always);
    if negb (minus (group_allowed st) (owner_defined st) =? 0) then None
    else
      let '(owner, group, everyone) :=
        if isMasked acl then
          ((if isWriteThrough acl then owner_mask_ acl else Z.land (owner_allowed st) (owner_mask_ acl)),
           Z.land (group_allowed st) (group_mask_ acl),
           (if isWriteThrough acl then other_mask_ acl else Z.land (everyone_allowed st) (other_mask_ acl)))
        else (owner_allowed st, group_allowed st, everyone_allowed st) in
      let mode := Z.lor (Z.lor (Z.lor (minus mode kStandardPermissionsMask) (Z.shiftl (convertMask2Mode owner) 6))
                    (Z.shiftl (convertMask2Mode group) 3)) (convertMask2Mode everyone) in
      if negb (minus (Z.lxor (convertMode2Mask (Z.shiftr mode 6)) owner) x =? 0)
         || negb (minus (Z.lxor (convertMode2Mask (Z.shiftr mode 3)) group) x =? 0)
         || negb (minus (Z.lxor (convertMode2Mask mode) everyone) x =? 0)
      then None else Some mode.

(** inheritInode(): the mode of the new inode, and its list when it has one. *)
Definition inheritInode (dir_acl : RichACL) (mode umask : Z) (is_dir : bool) : Z * option RichACL :=
  let acl := inherit dir_acl is_dir in
  if bool_decide (ace_list_ acl = []) then (minus mode umask, None)
  else
    match equivMode acl mode is_dir with
    | Some mode' => (Z.land mode mode', None)
    | None =>
      let acl := if isAutoInherit acl then with_flags acl (Z.lor (flags_ acl) kProtected) else acl in
      let acl := computeMaxMasks acl in
      let acl := MkRichACL (Z.land (owner_mask_ acl) (convertMode2Mask (Z.shiftr mode 6)))
        (Z.land (group_mask_ acl) (convertMode2Mask (Z.shiftr mode 3)))
        (Z.land (other_mask_ acl) (convertMode2Mask mode)) (Z.lor (flags_ acl) kMasked) (ace_list_ acl) in
      (getMode acl, Some acl)
    end.

(** createExplicitInheritance(): the copies go to the end. *)
Definition explicit_flags : Z := Z.lor (Z.lor kInheritOnlyAce kFileInheritAce) kDirectoryInheritAce.

Definition createExplicitInheritance (acl : RichACL) : RichACL :=
  let doubled a := negb (isInheritOnly a) && isInheritable a in
  with_aces acl
    (((fun a => if doubled a then set_flags a (minus (ace_flags a) explicit_flags) else a) <$> ace_list_ acl) ++
     ((fun a => set_flags a (Z.lor (ace_flags a) kInheritOnlyAce)) <$> List.filter doubled (ace_list_ acl))).

(** ** Bits *)

Lemma zero_bits x : x = 0 <-> forall b, 0 <= b -> Z.testbit x b = false.
Proof.
  split; [intros -> b _; apply Z.bits_0|]. intros H. apply Z.bits_inj'. intros b Hb. by rewrite H, Z.bits_0.
Qed.

Lemma nonzero_bit x : x <> 0 -> exists b, 0 <= b /\ Z.testbit x b = true.
Proof.
  intros Hx. destruct (Z.lt_trichotomy x 0) as [H|[H|H]]; [|done|].
  - exists (Z.log2 (Z.pred (- x)) + 1). pose proof (Z.log2_nonneg (Z.pred (- x))).
    split; [lia|]. apply Z.bits_above_log2_neg; lia.
  - exists (Z.log2 x). split; [apply Z.log2_nonneg|by apply Z.bit_log2].
Qed.

Lemma has_false x y : has x y = false <-> forall b, 0 <= b -> Z.testbit x b && Z.testbit y b = false.
Proof.
  unfold has. rewrite negb_false_iff, Z.eqb_eq, zero_bits. by setoid_rewrite Z.land_spec.
Qed.

(** A flag of one bit. *)
Lemma has_bit x b : 0 <= b -> has x (2 ^ b) = Z.testbit x b.
Proof.
  intros Hb. apply eq_true_iff_eq. rewrite <-!not_false_iff_true, has_false. split; intros H E; apply H.
  - intros c Hc. rewrite Z.pow2_bits_eqb by done. destruct (Z.eqb_spec b c) as [->|]; [by rewrite E|apply andb_false_r].
  - specialize (E b Hb). by rewrite Z.pow2_bits_true, andb_true_r in E by done.
Qed.

(** ** The permission check, one permission at a time *)

Section check.
Context (acl : RichACL) (w : Who).

(** The first entry that matches and has the permission decides. *)
Fixpoint decide_bit (l : list Ace) (b : Z) : option bool :=
  match l with
  | [] => None
  | a :: l =>
    match matching w a with
    | NoMatch => decide_bit l b
    | _ => if Z.testbit (effective acl w a) b then Some (negb (isDeny a)) else decide_bit l b
    end
  end.

Definition allowed_bit (l : list Ace) (b : Z) : bool := default false (decide_bit l b).

Definition in_class (a : Ace) : bool :=
  match matching w a with MatchOwner | MatchGroupClass => true | _ => false end.

Lemma check_loop_spec l mask denied c :
  let '(mask', denied', c') := check_loop acl w l mask denied c in
  (forall b, 0 <= b -> Z.testbit (Z.lor denied' mask') b =
     Z.testbit denied b || (Z.testbit mask b && negb (allowed_bit l b))) /\
  c' = c || existsb in_class l.
Proof.
  revert mask denied c. induction l as [|a l IH]; intros mask denied c.
  { simpl. split; [|by rewrite orb_false_r]. intros b _. rewrite Z.lor_spec. unfold allowed_bit. simpl.
    by rewrite andb_true_r. }
  set (e := effective acl w a).
  set (denied1 := if isDeny a then Z.lor denied (Z.land e mask) else denied).
  set (mask1 := minus mask e).
  assert (matching w a <> NoMatch -> forall b, Z.testbit denied1 b || (Z.testbit mask1 b && negb (allowed_bit l b)) =
    Z.testbit denied b || (Z.testbit mask b && negb (allowed_bit (a :: l) b))) as Hstep.
  { intros Hm b. unfold denied1, mask1, minus, allowed_bit. cbn [decide_bit]. fold e.
    replace (match matching w a with NoMatch => _ | _ => _ end)
      with (if Z.testbit e b then Some (negb (isDeny a)) else decide_bit l b) by by destruct (matching w a).
    rewrite Z.ldiff_spec. destruct (isDeny a); rewrite ?Z.lor_spec, ?Z.land_spec;
      destruct (Z.testbit e b), (Z.testbit mask b), (Z.testbit denied b); simpl; try done;
      by destruct (decide_bit l b) as [[]|]. }
  assert (matching w a <> NoMatch -> forall c1,
    let '(mask', denied', c') :=
      if (mask1 =? 0) && c1 then (mask1, denied1, c1) else check_loop acl w l mask1 denied1 c1 in
    (forall b, 0 <= b -> Z.testbit (Z.lor denied' mask') b =
       Z.testbit denied b || (Z.testbit mask b && negb (allowed_bit (a :: l) b))) /\
    c' = c1 || existsb in_class l) as Hrest.
  { intros Hm c1. destruct ((mask1 =? 0) && c1) eqn:E.
    - apply andb_true_iff in E as [E%Z.eqb_eq ->]. split; [|done]. intros b _.
      rewrite <-(Hstep Hm), E, Z.lor_0_r, Z.bits_0. simpl. by rewrite orb_false_r.
    - specialize (IH mask1 denied1 c1). destruct (check_loop _ _ _ _ _ _) as [[m' d'] c'].
      destruct IH as [I1 I2]. split; [|done]. intros b Hb. by rewrite I1, Hstep. }
  cbn [check_loop existsb]. unfold in_class at 1. destruct (matching w a) eqn:Em.
  - specialize (IH mask denied c). unfold allowed_bit in *. cbn [decide_bit]. rewrite Em. apply IH.
  - destruct c; simpl; by apply (Hrest ltac:(done) true).
  - destruct c; simpl; by apply (Hrest ltac:(done) true).
  - simpl. by apply (Hrest ltac:(done) c).
Qed.

(** What the check grants. *)
Definition granted (b : Z) : bool :=
  let l := ace_list_ acl in
  if isMasked acl then
    if uid w =? owner_uid w then
      (isWriteThrough acl || allowed_bit l b) && Z.testbit (owner_mask_ acl) b
    else if in_owning_group w || existsb in_class l then allowed_bit l b && Z.testbit (group_mask_ acl) b
    else (isWriteThrough acl || allowed_bit l b) && Z.testbit (other_mask_ acl) b
  else allowed_bit l b.

Lemma checkPermission_iff requested :
  checkPermission acl requested w = true <->
  forall b, 0 <= b -> Z.testbit requested b = true -> granted b = true.
Proof.
  unfold checkPermission, granted, minus. rewrite (Z.eqb_sym (owner_uid w)).
  pose proof (check_loop_spec (ace_list_ acl) requested 0 (if isMasked acl then in_owning_group w else true)) as Hl.
  destruct (check_loop _ _ _ _ _ _) as [[mask denied] c]. destruct Hl as [Hb Hc].
  assert (forall x, (x =? 0) = true <-> forall b, 0 <= b -> Z.testbit x b = false) as Hz.
  { intros x. rewrite Z.eqb_eq. apply zero_bits. }
  assert (forall b, 0 <= b -> Z.testbit denied b || Z.testbit mask b =
    Z.testbit requested b && negb (allowed_bit (ace_list_ acl) b)) as Hb'.
  { intros b H. rewrite <-Z.lor_spec, (Hb b H), Z.bits_0. done. }
  clear Hb. destruct (isMasked acl) eqn:Em; simpl andb; cbn iota.
  2: { rewrite Hz. split; intros H b H0.
    - intros Hr. specialize (H b H0). rewrite Z.lor_spec, Hb', Hr in H by done. simpl in H.
      by destruct (allowed_bit _ b).
    - rewrite Z.lor_spec, Hb' by done. destruct (Z.testbit requested b) eqn:Hr; [|done]. by rewrite H. }
  subst c.
  destruct (isWriteThrough acl) eqn:Ew, (uid w =? owner_uid w) eqn:Eo; simpl andb; simpl orb; cbn iota;
    try destruct (in_owning_group w || existsb in_class (ace_list_ acl)) eqn:Ec; rewrite Hz;
    split; intros H b H0; try intros Hr; specialize (H b H0);
    rewrite ?Z.lor_spec, ?Z.ldiff_spec, ?Hb' in * by done;
    destruct (Z.testbit requested b), (allowed_bit (ace_list_ acl) b); simpl in *; try done;
    repeat match goal with |- context [Z.testbit ?m b] => destruct (Z.testbit m b) end; simpl in *;
    try done; try (by specialize (H eq_refl)); naive_solver.
Qed.

End check.

(** ** Modes, one permission at a time *)

(** The bit of a mode class that stands for a permission. *)
Definition mode_bit (b : Z) : option Z :=
  if b =? 0 then Some 2
  else if (b =? 1) || (b =? 2) || (b =? 6) then Some 1
  else if b =? 5 then Some 0 else None.

Lemma convertMode2Mask_bit mode b :
  0 <= b -> Z.testbit (convertMode2Mask mode) b = match mode_bit b with Some i => Z.testbit mode i | None => false end.
Proof.
  intros Hb. unfold convertMode2Mask.
  change S_IROTH with (2 ^ 2). change S_IWOTH with (2 ^ 1). change S_IXOTH with (2 ^ 0).
  rewrite !has_bit by lia.
  assert (b = 0 \/ b = 1 \/ b = 2 \/ b = 3 \/ b = 4 \/ b = 5 \/ b = 6 \/ 7 <= b) as Hc by lia.
  destruct (Z.testbit mode 2) eqn:E2, (Z.testbit mode 1) eqn:E1, (Z.testbit mode 0) eqn:E0;
    (destruct Hc as [->|[->|[->|[->|[->|[->|[->|Hc]]]]]]]; [unfold mode_bit; cbn [Z.eqb Pos.eqb orb]; rewrite ?E2, ?E1, ?E0; reflexivity..|]);
    (unfold mode_bit; repeat (rewrite (proj2 (Z.eqb_neq b _)) by lia); simpl orb; cbn iota;
     apply Z.bits_above_log2; [vm_compute; discriminate|];
     eapply Z.lt_le_trans; [|exact Hc]; vm_compute; reflexivity).
Qed.

Lemma mode_bit_range b i : mode_bit b = Some i -> 0 <= i <= 2 /\ 0 <= b <= 6.
Proof.
  unfold mode_bit. destruct (Z.eqb_spec b 0); [intros [= <-]; lia|].
  destruct ((b =? 1) || (b =? 2) || (b =? 6)) eqn:E; [intros [= <-]; lia|].
  destruct (Z.eqb_spec b 5); [intros [= <-]; lia|done].
Qed.

(** Every bit of a mode class stands for some permission that files have, too. *)
Lemma mode_bit_onto i : 0 <= i <= 2 -> exists b, 0 <= b /\ mode_bit b = Some i /\ b <> 6.
Proof.
  intros Hi. assert (i = 0 \/ i = 1 \/ i = 2) as [->|[->| ->]] by lia; [exists 5|exists 1|exists 0]; done.
Qed.

Lemma file_only_bit is_dir b : 0 <= b -> Z.testbit (file_only is_dir) b = negb is_dir && (b =? 6).
Proof.
  intros Hb. destruct is_dir; simpl file_only; [apply Z.bits_0|]. change kDeleteChild with (2 ^ 6).
  rewrite Z.pow2_bits_eqb by lia. by rewrite Z.eqb_sym.
Qed.

(** The request that a mode class stands for. *)
Definition request (m : Z) (is_dir : bool) : Z := minus (convertMode2Mask m) (file_only is_dir).

(** The check of a mode: the bits of the class of the user. *)
Definition mode_class (mode : Z) (w : Who) : Z :=
  Z.land (Z.shiftr mode (if uid w =? owner_uid w then 6 else if in_owning_group w then 3 else 0)) 7.

Definition mode_allows (mode : Z) (w : Who) (m : Z) : bool := Z.land (mode_class mode w) m =? m.

Lemma land_7_bit x i : 0 <= i <= 2 -> Z.testbit (Z.land x 7) i = Z.testbit x i.
Proof.
  intros Hi. rewrite Z.land_spec. change 7 with (Z.ones 3). rewrite Z.ones_spec_low by lia. apply andb_true_r.
Qed.

Lemma small_mode_bits m b : 0 <= m < 8 -> 3 <= b -> Z.testbit m b = false.
Proof.
  intros Hm Hb. destruct (decide (m = 0)) as [->|]; [apply Z.bits_0|].
  apply Z.bits_above_log2; [lia|]. assert (Z.log2 m < 3); [apply Z.log2_lt_pow2; lia|lia].
Qed.

(** A check that grants exactly the permissions of a mode class agrees with the mode. *)
Lemma check_is_mode acl w is_dir class m :
  0 <= m < 8 ->
  (forall b i, 0 <= b -> mode_bit b = Some i -> (negb is_dir && (b =? 6)) = false ->
     granted acl w b = Z.testbit class i) ->
  checkPermission acl (request m is_dir) w = (Z.land (Z.land class 7) m =? m).
Proof.
  intros Hm H. apply eq_true_iff_eq. rewrite checkPermission_iff, Z.eqb_eq. unfold request, minus. split.
  - intros Hg. apply Z.bits_inj'. intros i Hi. rewrite Z.land_spec.
    destruct (Z.testbit m i) eqn:Em; [|apply andb_false_r]. rewrite andb_true_r.
    assert (0 <= i <= 2) as Hi2.
    { destruct (Z.le_gt_cases i 2); [lia|]. rewrite small_mode_bits in Em by lia. done. }
    rewrite land_7_bit by done. destruct (mode_bit_onto i Hi2) as (b & Hb & Eb & Hne).
    rewrite <-(H b i Hb Eb). { apply Hg; [done|]. rewrite Z.ldiff_spec, convertMode2Mask_bit, Eb, Em by done.
      rewrite file_only_bit, (proj2 (Z.eqb_neq b 6)) by done. by rewrite andb_false_r. }
    rewrite (proj2 (Z.eqb_neq b 6)) by done. apply andb_false_r.
  - intros Ha b Hb. rewrite Z.ldiff_spec, convertMode2Mask_bit, file_only_bit by done.
    destruct (mode_bit b) as [i|] eqn:Eb; [|done]. intros [Em Hx%negb_true_iff]%andb_true_iff.
    rewrite (H b i Hb Eb Hx). pose proof (mode_bit_range b i Eb) as [Hi _].
    apply (f_equal (fun z => Z.testbit z i)) in Ha. rewrite Z.land_spec, Em, andb_true_r in Ha.
    by rewrite land_7_bit in Ha.
Qed.

(** ** Lists equivalent to modes *)

(** The decision of the first entry of a kind that has the permission. *)
Fixpoint first_decision (p : Ace -> bool) (l : list Ace) (b : Z) : option bool :=
  match l with
  | [] => None
  | a :: l => if p a && Z.testbit (ace_mask a) b then Some (negb (isDeny a)) else first_decision p l b
  end.

Lemma first_decision_snoc p l a b :
  first_decision p (l ++ [a]) b =
    match first_decision p l b with
    | Some v => Some v
    | None => if p a && Z.testbit (ace_mask a) b then Some (negb (isDeny a)) else None
    end.
Proof. induction l as [|x l IH]; simpl; [done|]. by destruct (p x && _). Qed.

Definition owner_like (a : Ace) : bool := isOwner a || isEveryone a.
Definition group_like (a : Ace) : bool := isGroup a || isEveryone a.
Definition any_special (a : Ace) : bool := isOwner a || isGroup a || isEveryone a.

(** A pair of accumulators of equivMode(), as a decision. *)
Definition bit_state (defined allowed b : Z) : option bool :=
  if Z.testbit defined b then Some (Z.testbit allowed b) else None.

Section equiv.
Context (b : Z) (Hb : 0 <= b).

Record equiv_inv (l : list Ace) (st : Equiv) : Prop := MkEquivInv {
  ei_owner : first_decision owner_like l b = bit_state (owner_defined st) (owner_allowed st) b;
  ei_group : first_decision group_like l b = bit_state (group_defined st) (group_allowed st) b;
  ei_everyone : first_decision isEveryone l b = bit_state (everyone_defined st) (everyone_allowed st) b;
  ei_any : first_decision any_special l b =
    if Z.testbit (owner_defined st) b then Some (Z.testbit (owner_allowed st) b)
    else bit_state (group_defined st) (group_allowed st) b;
  ei_owner_sub : Z.testbit (owner_defined st) b = false -> Z.testbit (owner_allowed st) b = false;
  ei_group_sub : Z.testbit (group_defined st) b = false -> Z.testbit (group_allowed st) b = false;
  ei_everyone_sub : Z.testbit (everyone_defined st) b = false -> Z.testbit (everyone_allowed st) b = false;
}.

(** The entries that equivMode() accepts. *)
Definition special_entry (a : Ace) : Prop := isInheritOnly a = false /\ any_special a = true.

Lemma special_flags a : minus (ace_flags a) kSpecialWho = 0 -> isInheritOnly a = false.
Proof.
  intros H. unfold isInheritOnly. change kInheritOnlyAce with (2 ^ 3). rewrite has_bit by lia.
  apply (f_equal (fun z => Z.testbit z 3)) in H. unfold minus in H. rewrite Z.ldiff_spec, Z.bits_0 in H.
  change kSpecialWho with (2 ^ 8) in H. rewrite Z.pow2_bits_eqb in H by lia. simpl in H.
  by rewrite andb_true_r in H.
Qed.

(** The kinds of special entries exclude each other. *)
Lemma special_kinds a :
  (isOwner a = true -> isGroup a = false /\ isEveryone a = false) /\
  (isGroup a = true -> isOwner a = false /\ isEveryone a = false) /\
  (isEveryone a = true -> isOwner a = false /\ isGroup a = false).
Proof.
  unfold isOwner, isGroup, isEveryone, kOwnerSpecialId, kGroupSpecialId, kEveryoneSpecialId.
  destruct (has (ace_flags a) kSpecialWho); simpl; [|done]. lia.
Qed.

(** One entry: the new decisions and accumulators, case by case. *)
Ltac equiv_bits Hc :=
  split; cbn [owner_defined owner_allowed group_defined group_allowed everyone_defined everyone_allowed];
    rewrite ?first_decision_snoc; unfold owner_like, group_like, any_special, bit_state, minus in *;
    repeat match goal with
      | H : isOwner _ = _ |- _ => rewrite H in *
      | H : isGroup _ = _ |- _ => rewrite H in *
      | H : isEveryone _ = _ |- _ => rewrite H in *
      | H : isAllow _ = _ |- _ => rewrite H in *
      | H : isDeny _ = _ |- _ => rewrite H in *
      | H : first_decision _ _ _ = _ |- _ => rewrite H
      end;
    rewrite ?Z.lor_spec, ?Z.ldiff_spec in *;
    repeat match goal with |- context [Z.testbit ?x b] => destruct (Z.testbit x b) eqn:? end;
    simpl in *; try done; try (by discriminate Hc); naive_solver.

Lemma equiv_group_step pre st a :
  equiv_inv pre st -> isGroup a = true -> isDeny a = negb (isAllow a) ->
  let x := minus (ace_mask a) (group_defined st) in
  equiv_inv (pre ++ [a]) (MkEquiv (owner_allowed st) (owner_defined st)
    (if isAllow a then Z.lor (group_allowed st) x else group_allowed st) (Z.lor (group_defined st) x)
    (everyone_allowed st) (everyone_defined st)).
Proof.
  intros [I1 I2 I3 I4 I5 I6 I7] Hg Hd x. unfold x.
  destruct (proj1 (proj2 (special_kinds a)) Hg) as [Ho He].
  destruct (isAllow a) eqn:Ha; simpl negb in Hd; equiv_bits I1.
Qed.

(** The conflicts that equivMode() rules out. *)
Definition no_conflict (st : Equiv) (a : Ace) : Prop :=
  Z.testbit (ace_mask a) b = true -> Z.testbit (owner_defined st) b = false ->
  if isAllow a then Z.testbit (group_defined st) b = true -> Z.testbit (group_allowed st) b = true
  else Z.testbit (group_allowed st) b = false.

Lemma equiv_owner_step pre st a :
  equiv_inv pre st -> isOwner a = true -> isDeny a = negb (isAllow a) -> no_conflict st a ->
  let x := minus (ace_mask a) (owner_defined st) in
  equiv_inv (pre ++ [a]) (MkEquiv (if isAllow a then Z.lor (owner_allowed st) x else owner_allowed st)
    (Z.lor (owner_defined st) x) (group_allowed st) (group_defined st)
    (everyone_allowed st) (everyone_defined st)).
Proof.
  intros [I1 I2 I3 I4 I5 I6 I7] Hg Hd Hc x. unfold x, no_conflict in *.
  destruct (proj1 (special_kinds a) Hg) as [Ho He].
  destruct (isAllow a) eqn:Ha; simpl negb in Hd; equiv_bits Hc.
Qed.

Lemma equiv_everyone_step pre st a :
  equiv_inv pre st -> isEveryone a = true -> isDeny a = negb (isAllow a) -> no_conflict st a ->
  let x := minus (ace_mask a) (owner_defined st) in
  equiv_inv (pre ++ [a]) (MkEquiv (if isAllow a then Z.lor (owner_allowed st) x else owner_allowed st)
    (Z.lor (owner_defined st) x)
    (if isAllow a then Z.lor (group_allowed st) (minus (ace_mask a) (group_defined st)) else group_allowed st)
    (Z.lor (group_defined st) (ace_mask a))
    (if isAllow a then Z.lor (everyone_allowed st) (minus (ace_mask a) (everyone_defined st)) else everyone_allowed st)
    (Z.lor (everyone_defined st) (ace_mask a))).
Proof.
  intros [I1 I2 I3 I4 I5 I6 I7] Hg Hd Hc x. unfold x, no_conflict in *.
  destruct (proj2 (proj2 (special_kinds a)) Hg) as [Ho He].
  destruct (isAllow a) eqn:Ha; simpl negb in Hd; equiv_bits Hc.
Qed.

Lemma equiv_loop_inv l : forall pre st st',
  Forall (fun a => isDeny a = negb (isAllow a)) l ->
  equiv_inv pre st -> equiv_loop l st = Some st' ->
  equiv_inv (pre ++ l) st' /\ Forall special_entry l.
Proof.
  induction l as [|a l IH]; intros pre st st' Htypes Hinv E; simpl in E.
  { injection E as <-. rewrite app_nil_r. done. }
  apply Forall_cons in Htypes as [Hd Htypes].
  destruct (Z.eqb_spec (minus (ace_flags a) kSpecialWho) 0) as [Hf%special_flags|]; [|done]. simpl in E.
  assert (forall st1, equiv_inv (pre ++ [a]) st1 -> any_special a = true ->
    equiv_loop l st1 = Some st' -> equiv_inv (pre ++ a :: l) st' /\ Forall special_entry (a :: l)) as Hnext.
  { intros st1 H1 Ha E1. destruct (IH _ _ _ Htypes H1 E1) as [H2 H3]. rewrite <-app_assoc in H2.
    split; [done|]. by constructor. }
  unfold any_special in Hnext. destruct (isOwner a || isEveryone a) eqn:Hoe.
  - destruct (if isAllow a then _ else _) eqn:Hconf in E; [done|].
    assert (no_conflict st a) as Hc.
    { intros Hm Ho. destruct (isAllow a); rewrite has_false in Hconf; specialize (Hconf b Hb); unfold minus in Hconf;
        rewrite !Z.ldiff_spec, Hm, Ho in Hconf; simpl in Hconf; [|done].
      intros Hg. rewrite Hg in Hconf. simpl in Hconf. by destruct (Z.testbit (group_allowed st) b). }
    clear Hconf. destruct (isEveryone a) eqn:Hev.
    + eapply Hnext; [by apply equiv_everyone_step|by rewrite orb_true_r|exact E].
    + rewrite orb_false_r in Hoe. eapply Hnext; [by apply equiv_owner_step|by rewrite Hoe|exact E].
  - apply orb_false_iff in Hoe as [Ho He]. destruct (isGroup a) eqn:Hg; [|done].
    eapply Hnext; [by apply equiv_group_step|by rewrite orb_true_r|exact E].
Qed.

End equiv.

Lemma first_decision_ext p q l b : (forall a, p a = q a) -> first_decision p l b = first_decision q l b.
Proof. intros H. induction l as [|a l IH]; simpl; [done|]. by rewrite H, IH. Qed.

(** The special entries that apply to a user. *)
Definition applies (w : Who) (a : Ace) : bool :=
  (isOwner a && (uid w =? owner_uid w)) || (isGroup a && in_owning_group w) || isEveryone a.

Lemma matching_special w a :
  special_entry a ->
  matching w a =
    if isOwner a && (uid w =? owner_uid w) then MatchOwner
    else if isGroup a && in_owning_group w then MatchGroupClass
    else if isEveryone a then MatchEveryone else NoMatch.
Proof.
  intros [Hi Hs]. unfold matching, any_special in *. rewrite Hi. rewrite (Z.eqb_sym (owner_uid w)).
  destruct (special_kinds a) as (K1 & K2 & K3).
  destruct (isOwner a); simpl in *; [destruct (K1 eq_refl) as [-> ->]; simpl; by destruct (uid w =? _)|].
  destruct (isGroup a); simpl in *; [destruct (K2 eq_refl) as [_ ->]; by destruct (in_owning_group w)|].
  rewrite Hs. unfold isEveryone in Hs. apply andb_true_iff in Hs as [Hsp _].
  unfold isUnixUser, isUnixGroup. rewrite Hsp. unfold has in *.
  replace (Z.land (ace_flags a) (Z.lor kSpecialWho kIdentifierGroup)) with
    (Z.lor (Z.land (ace_flags a) kSpecialWho) (Z.land (ace_flags a) kIdentifierGroup)) by by rewrite Z.land_lor_distr_r.
  destruct (Z.eqb_spec (Z.lor (Z.land (ace_flags a) kSpecialWho) (Z.land (ace_flags a) kIdentifierGroup)) 0) as [E|];
    simpl; [|by rewrite ?andb_false_r].
  apply Z.lor_eq_0_iff in E as [E _]. by rewrite E in Hsp.
Qed.

Lemma decide_special acl w l b :
  Forall special_entry l ->
  (isMasked acl = true -> in_owning_group w = true -> Z.testbit (group_mask_ acl) b = true) ->
  decide_bit acl w l b = first_decision (applies w) l b.
Proof.
  intros Hl Hm. induction Hl as [|a l Ha Hl IH]; [done|]. simpl. unfold effective.
  rewrite (matching_special w a Ha), IH. unfold applies.
  destruct (isOwner a && _) eqn:Eo; simpl; [done|].
  destruct (isGroup a && in_owning_group w) eqn:Eg; simpl.
  - apply andb_true_iff in Eg as [_ Eg]. destruct (isMasked acl) eqn:Em; simpl; [|done].
    destruct (isAllow a); [|done]. by rewrite Z.land_spec, Hm, andb_true_r.
  - by destruct (isEveryone a).
Qed.

Lemma no_special_class w l :
  Forall special_entry l -> (uid w =? owner_uid w) = false -> in_owning_group w = false ->
  existsb (in_class w) l = false.
Proof.
  intros Hl Ho Hg. induction Hl as [|a l Ha Hl IH]; [done|]. simpl. unfold in_class at 1.
  rewrite (matching_special w a Ha), Ho, Hg, !andb_false_r, IH. by destruct (isEveryone a).
Qed.

(** What the accumulators of equivMode() say of the decision of the list. *)
Lemma equiv_allowed acl w st b :
  equiv_inv b (ace_list_ acl) st -> Forall special_entry (ace_list_ acl) ->
  minus (group_allowed st) (owner_defined st) = 0 -> 0 <= b ->
  (isMasked acl = true -> in_owning_group w = true -> Z.testbit (group_mask_ acl) b = true) ->
  allowed_bit acl w (ace_list_ acl) b =
    Z.testbit (if uid w =? owner_uid w then owner_allowed st
               else if in_owning_group w then group_allowed st else everyone_allowed st) b.
Proof.
  intros [I1 I2 I3 I4 I5 I6 I7] Hl Hsub Hb Hm. unfold allowed_bit. rewrite (decide_special acl w _ b Hl Hm).
  apply (f_equal (fun z => Z.testbit z b)) in Hsub. unfold minus in Hsub. rewrite Z.ldiff_spec, Z.bits_0 in Hsub.
  destruct (uid w =? owner_uid w) eqn:Eo, (in_owning_group w) eqn:Eg.
  - rewrite (first_decision_ext _ any_special), I4
      by (intros a; unfold applies, any_special; by rewrite Eo, Eg, !andb_true_r).
    unfold bit_state. destruct (Z.testbit (owner_defined st) b); [done|]. rewrite (I5 eq_refl).
    rewrite andb_true_r in Hsub. rewrite Hsub. by destruct (Z.testbit (group_defined st) b).
  - rewrite (first_decision_ext _ owner_like), I1
      by (intros a; unfold applies, owner_like; by rewrite Eo, Eg, andb_true_r, andb_false_r, orb_false_r).
    unfold bit_state. destruct (Z.testbit (owner_defined st) b); [done|]. by rewrite I5.
  - rewrite (first_decision_ext _ group_like), I2
      by (intros a; unfold applies, group_like; by rewrite Eo, Eg, andb_true_r, andb_false_r).
    unfold bit_state. destruct (Z.testbit (group_defined st) b); [done|]. by rewrite I6.
  - rewrite (first_decision_ext _ isEveryone), I3
      by (intros a; unfold applies; by rewrite Eo, Eg, !andb_false_r).
    unfold bit_state. destruct (Z.testbit (everyone_defined st) b); [done|]. by rewrite I7.
Qed.

(** The test at the end of equivMode(), one permission at a time. *)
Lemma exact_bit mode k allowed is_dir b i :
  negb (minus (Z.lxor (convertMode2Mask (Z.shiftr mode k)) allowed) (file_only is_dir) =? 0) = false ->
  0 <= b -> mode_bit b = Some i -> negb is_dir && (b =? 6) = false ->
  Z.testbit allowed b = Z.testbit (Z.shiftr mode k) i.
Proof.
  intros H%negb_false_iff%Z.eqb_eq Hb Eb Hx. apply (f_equal (fun z => Z.testbit z b)) in H. unfold minus in H.
  rewrite Z.ldiff_spec, Z.lxor_spec, Z.bits_0, convertMode2Mask_bit, Eb, file_only_bit, Hx, andb_true_r in H by done.
  by destruct (Z.testbit (Z.shiftr mode k) i), (Z.testbit allowed b).
Qed.

Lemma equiv_init is_dir b i :
  0 <= b -> mode_bit b = Some i -> negb is_dir && (b =? 6) = false ->
  let always := Z.lor kPosixAlwaysAllowed (file_only is_dir) in
  equiv_inv b [] (MkEquiv 0 (Z.lor (Z.lor kPosixAlwaysAllowed kPosixOwnerAllowed) (file_only is_dir)) 0 always 0 always).
Proof.
  intros Hb Eb Hx always. unfold always.
  assert (Z.testbit kPosixAlwaysAllowed b = false /\ Z.testbit kPosixOwnerAllowed b = false) as [H1 H2].
  { pose proof (mode_bit_range b i Eb) as [_ Hr].
    assert (b = 0 \/ b = 1 \/ b = 2 \/ b = 3 \/ b = 4 \/ b = 5 \/ b = 6) as Hc by lia.
    destruct Hc as [->|[->|[->|[->|[->|[->|]]]]]]; try done. subst b. done. }
  split; cbn [owner_defined owner_allowed group_defined group_allowed everyone_defined everyone_allowed];
    unfold bit_state; rewrite ?Z.lor_spec, ?file_only_bit, ?Hx, ?H1, ?H2, ?Z.bits_0 by done; done.
Qed.

(** What the check of a list grants, when equivMode() accepts the list. *)
Lemma equiv_granted acl mode is_dir mode' w b i :
  equivMode acl mode is_dir = Some mode' ->
  Forall (fun a => isDeny a = negb (isAllow a)) (ace_list_ acl) ->
  (uid w = owner_uid w -> in_owning_group w = true -> isMasked acl = true -> isWriteThrough acl = true) ->
  0 <= b -> mode_bit b = Some i -> negb is_dir && (b =? 6) = false ->
  granted acl w b =
    Z.testbit (Z.shiftr mode' (if uid w =? owner_uid w then 6 else if in_owning_group w then 3 else 0)) i.
Proof.
  unfold equivMode. intros E Ht Hcorner Hb Eb Hx.
  destruct (minus (flags_ acl) _ =? 0) eqn:Ef; [|done]. cbn [negb] in E.
  replace (isAutoSetMode acl) with false in E.
  2: { symmetry. unfold isAutoSetMode. change kAutoSetMode with (2 ^ 5). rewrite has_bit by lia.
       apply Z.eqb_eq, (f_equal (fun z => Z.testbit z 5)) in Ef. unfold minus in Ef.
       rewrite Z.ldiff_spec, Z.bits_0 in Ef. apply andb_false_iff in Ef as [Ef|Ef]; [done|]. by vm_compute in Ef. }
  cbn [andb] in E. destruct (equiv_loop _ _) as [st|] eqn:El in E; [|done]. cbn [mbind option_bind] in E.
  destruct (equiv_loop_inv b Hb _ [] _ _ Ht (equiv_init is_dir b i Hb Eb Hx) El) as [Hinv Hsp]. simpl in Hinv.
  destruct (minus (group_allowed st) (owner_defined st) =? 0) eqn:Eg; [|done]. cbn [negb] in E.
  apply Z.eqb_eq in Eg. revert E.
  match goal with |- match ?t with (_, _) => _ end = _ -> _ => destruct t as [[o g] e] eqn:Et end.
  match goal with |- context [negb (minus (Z.lxor (convertMode2Mask (Z.shiftr ?m 6)) o) _ =? 0)] => generalize m; intros md end.
  destruct (_ || _ || _) eqn:Ex; [done|]. intros [= <-].
  apply orb_false_iff in Ex as [[Xo Xg]%orb_false_iff Xe].
  rewrite <-(Z.shiftr_0_r md) in Xe at 1.
  transitivity (Z.testbit (if uid w =? owner_uid w then o else if in_owning_group w then g else e) b).
  2: { destruct (uid w =? owner_uid w); [by eapply exact_bit|].
       destruct (in_owning_group w); by eapply exact_bit. }
  pose proof (equiv_allowed acl w st b Hinv Hsp Eg Hb) as Ha. unfold granted.
  destruct (isMasked acl) eqn:Em; injection Et as <- <- <-; [|by apply Ha].
  destruct (uid w =? owner_uid w) eqn:Eo.
  - destruct (isWriteThrough acl) eqn:Ew; [done|]. simpl. rewrite Z.land_spec, Ha; [done|].
    intros _ Hg. apply Z.eqb_eq in Eo. by specialize (Hcorner Eo Hg eq_refl).
  - destruct (in_owning_group w) eqn:Ei; simpl.
    + rewrite Z.land_spec. destruct (Z.testbit (group_mask_ acl) b) eqn:Egm; [|by rewrite !andb_false_r].
      by rewrite Ha.
    + rewrite no_special_class by done. destruct (isWriteThrough acl) eqn:Ew; [done|]. simpl.
      rewrite Z.land_spec, Ha; [done|]. done.
Qed.

(** A list equivalent to a mode has only special entries. *)
Lemma equivMode_special acl mode is_dir mode' :
  equivMode acl mode is_dir = Some mode' -> Forall (fun a => isDeny a = negb (isAllow a)) (ace_list_ acl) ->
  isAutoSetMode acl = false -> Forall special_entry (ace_list_ acl).
Proof.
  unfold equivMode. intros E Ht Ha. destruct (negb (minus (flags_ acl) _ =? 0)); [done|]. rewrite Ha in E. cbn [andb] in E.
  destruct (equiv_loop _ _) as [st|] eqn:El in E; [|done]. clear E.
  assert (negb is_dir && (0 =? 6) = false) as Hx by by destruct is_dir.
  by destruct (equiv_loop_inv 0 ltac:(lia) _ [] _ _ Ht (equiv_init is_dir 0 2 ltac:(lia) eq_refl Hx) El).
Qed.

Lemma equiv_mode_check acl mode is_dir mode' w m :
  equivMode acl mode is_dir = Some mode' ->
  Forall (fun a => isDeny a = negb (isAllow a)) (ace_list_ acl) ->
  (uid w = owner_uid w -> in_owning_group w = true -> isMasked acl = true -> isWriteThrough acl = true) ->
  0 <= m < 8 ->
  checkPermission acl (request m is_dir) w = mode_allows mode' w m.
Proof.
  intros E Ht Hc Hm. unfold mode_allows, mode_class. apply check_is_mode; [done|].
  intros b i Hb Eb Hx. by eapply equiv_granted.
Qed.

(** A list that equivMode() accepts decides every access the way the mode it returns does: for every user and
    every combination of read, write and execute, checkPermission() of the list grants the request exactly when the
    bits of the user's class (owner, group or other) in the mode contain it.  The types of the entries are allow or
    deny.  A masked list without write-through is not compared for an owner who is in the owning group. *)
Theorem equivMode_sound acl mode is_dir mode' w m :
  equivMode acl mode is_dir = Some mode' ->
  Forall (fun a => isDeny a = negb (isAllow a)) (ace_list_ acl) ->
  (uid w = owner_uid w -> in_owning_group w = true -> isMasked acl = true -> isWriteThrough acl = true) ->
  0 <= m < 8 ->
  checkPermission acl (request m is_dir) w = mode_allows mode' w m.
Proof. apply equiv_mode_check. Qed.

Lemma equivMode_sound_witness :
  let acl := MkRichACL 127 5 1 (Z.lor kMasked kWriteThrough)
    [make_ace kAccessAllowedAceType kSpecialWho 127 kOwnerSpecialId;
     make_ace kAccessAllowedAceType kSpecialWho kPosixModeRead kEveryoneSpecialId] in
  let w := MkWho 1000 100 2000 [100] in
  checkPermission (MkRichACL 103 1 1 (Z.lor kMasked kWriteThrough) (ace_list_ acl)) (request 4 true) w =
  mode_allows 484 w 4.
Proof.
  intros acl w. apply (equivMode_sound _ 0 true); [vm_compute; reflexivity|repeat constructor|done|done].
Defined.

(** ** Modes as lists *)

Lemma createFromMode_table :
  forallb (fun mode => forallb (fun is_dir =>
    bool_decide (equivMode (createFromMode mode is_dir) mode is_dir = Some mode) &&
    (getMode (createFromMode mode is_dir) =? Z.land mode 511) &&
    forallb (fun a => bool_decide (isDeny a = negb (isAllow a))) (ace_list_ (createFromMode mode is_dir)) &&
    negb (isMasked (createFromMode mode is_dir))) [true; false]) (seqZ 0 4096) = true.
Proof. vm_compute. reflexivity. Qed.

(** C31: a mode and the list that createFromMode() makes of it are the same thing: getMode() gives the permissions of the
    mode back, equivMode() the mode itself (its set-user-id, set-group-id and sticky bits are those that were passed in), and
    for every user and every combination of read, write and execute the list grants exactly what the mode does. *)
Theorem mode_acl_roundtrip mode is_dir w m :
  0 <= mode < 4096 -> 0 <= m < 8 ->
  getMode (createFromMode mode is_dir) = Z.land mode 511 /\
  equivMode (createFromMode mode is_dir) mode is_dir = Some mode /\
  checkPermission (createFromMode mode is_dir) (request m is_dir) w = mode_allows mode w m.
Proof.
  intros Hmode Hm. pose proof createFromMode_table as H. rewrite forallb_forall in H.
  specialize (H mode ltac:(apply list_elem_of_In, elem_of_seqZ; lia)). rewrite forallb_forall in H.
  specialize (H is_dir ltac:(destruct is_dir; simpl; auto)).
  apply andb_true_iff in H as [[[H1%bool_decide_eq_true H0%Z.eqb_eq]%andb_true_iff H2]%andb_true_iff H3%negb_true_iff].
  split; [done|]. split; [done|]. apply (equiv_mode_check _ _ _ _ _ _ H1); [|by rewrite H3|done].
  rewrite forallb_forall in H2. apply Forall_forall. intros a Ha%list_elem_of_In.
  by apply (proj1 (bool_decide_eq_true _)), H2.
Qed.

Lemma mode_acl_roundtrip_witness :
  getMode (createFromMode 420 false) = Z.land 420 511 /\
  equivMode (createFromMode 420 false) 420 false = Some 420 /\
  checkPermission (createFromMode 420 false) (request 2 false) (MkWho 1 1 2 [1]) = mode_allows 420 (MkWho 1 1 2 [1]) 2.
Proof. apply (mode_acl_roundtrip 420 false (MkWho 1 1 2 [1]) 2); lia. Defined.
