(* ===== verification/AclMasks.v ===== *)
(** The masks of access control lists (src/common/richacl_compat.cc and computeMaxMasks() of richacl.cc):
    the rewriting of a list so that it needs no masks, and the masks that change no decision. *)
From S2P Require Import Prelude Serialization RichACL.

(** ** Applying the masks *)

(** changeMask(): what an entry is replaced with; the iterator goes on behind it. *)
Definition changeMask (a : Ace) (mask : Z) : list Ace :=
  if negb (mask =? 0) && (ace_mask a =? mask) then [set_flags a (minus (ace_flags a) kInheritOnlyAce)]
  else if negb (minus mask kPosixAlwaysAllowed =? 0) then
    if isInheritable a then
      [set_flags a (Z.lor (ace_flags a) kInheritOnlyAce);
       set_mask (set_flags a (Z.land (ace_flags a) (Z.lor (Z.lnot kInheritanceFlags) kInheritedAce))) mask]
    else [set_mask a mask]
  else if isInheritable a then [set_flags a (Z.lor (ace_flags a) kInheritOnlyAce)]
  else [].

(** changeMask() of the entry at an index. *)
Definition change_at (l : list Ace) (i : nat) (mask : Z) : list Ace :=
  match l !! i with
  | Some a => take i l ++ changeMask a mask ++ drop (S i) l
  | None => l
  end.

(** insert() before the entry at an index *)
Definition insert_at (l : list Ace) (i : nat) (a : Ace) : list Ace := take i l ++ a :: drop i l.

Definition move_everyone_step (st : list Ace * Z * Z) (a : Ace) : list Ace * Z * Z :=
  let '(out, allowed, denied) := st in
  if isInheritOnly a || negb (isAllow a || isDeny a) then (out ++ [a], allowed, denied)
  else if isEveryone a then
    if isAllow a then (out ++ changeMask a 0, Z.lor allowed (minus (ace_mask a) denied), denied)
    else (out ++ changeMask a 0, allowed, Z.lor denied (minus (ace_mask a) allowed))
  else if isAllow a then (out ++ changeMask a (Z.lor allowed (minus (ace_mask a) denied)), allowed, denied)
  else (out ++ changeMask a (Z.lor denied (minus (ace_mask a) allowed)), allowed, denied).

Definition moveEveryoneAcesDown (l : list Ace) : list Ace :=
  let '(out, allowed, denied) := foldl move_everyone_step ([], 0, 0) l in
  if negb (minus allowed kPosixAlwaysAllowed =? 0) then
    let everyone := make_ace kAccessAllowedAceType kSpecialWho allowed kEveryoneSpecialId in
    match last out with
    | Some a =>
      if isEveryone a && isAllow a && isInheritOnly a && (ace_mask a =? allowed)
      then <[pred (length out) := set_mask a (minus (ace_mask a) kInheritOnlyAce)]> out
      else out ++ [everyone]
    | None => out ++ [everyone]
    end
  else out.

(** The loop of propagateEveryone(who, allow): what is left to allow, and the last entry that can take
    it. *)
Definition propagate_step (who : Ace) (st : Z * option nat) (ia : nat * Ace) : Z * option nat :=
  let '(allow, allow_last) := st in
  let '(i, a) := ia in
  if isInheritOnly a then st
  else if isAllow a then
    if isSameIdentifier a who then (minus allow (ace_mask a), Some i) else st
  else if isDeny a then
    if isSameIdentifier a who then (minus allow (ace_mask a), allow_last)
    else if has allow (ace_mask a) then (allow, None) else st
  else st.

Definition propagate_to (other_mask : Z) (l : list Ace) (who : Ace) (allow : Z) : list Ace :=
  let '(allow, allow_last) := foldl (propagate_step who) (allow, None) (imap pair l) in
  match last l with
  | None => l
  | Some a =>
    let allow :=
      if negb (isOwner a) && isEveryone a && (minus allow (Z.land (ace_mask a) other_mask) =? 0)
      then 0 else allow in
    if allow =? 0 then l
    else
      match allow_last with
      | Some i => change_at l i (Z.lor (default 0 (ace_mask <$> l !! i)) allow)
      | None => insert_at l (pred (length l))
                  (make_ace kAccessAllowedAceType (minus (ace_flags who) kInheritanceFlags) allow (ace_id who))
      end
  end.

Definition special (id : Z) : Ace := make_ace 0 kSpecialWho 0 id.

(** The loop downwards from the entry before the last, over the entries of the group class. *)
Fixpoint for_group_class (f : list Ace -> Ace -> list Ace) (i : nat) (l : list Ace) : list Ace :=
  let l :=
    match l !! i with
    | Some a => if isInheritOnly a || isOwner a || isGroup a then l else f l a
    | None => l
    end in
  match i with O => l | S i => for_group_class f i l end.

Definition down_from_last_but_one (f : list Ace -> Ace -> list Ace) (l : list Ace) : list Ace :=
  match length l with S (S n) => for_group_class f n l | _ => l end.

Definition propagateEveryone (acl : RichACL) (l : list Ace) : list Ace :=
  match last l with
  | None => l
  | Some a =>
    if isInheritOnly a || negb (isEveryone a) then l
    else
      let owner_allow := Z.land (ace_mask a) (owner_mask_ acl) in
      let group_allow := Z.land (ace_mask a) (group_mask_ acl) in
      let l :=
        if negb (minus owner_allow (Z.land (group_mask_ acl) (other_mask_ acl)) =? 0)
        then propagate_to (other_mask_ acl) l (special kOwnerSpecialId) owner_allow else l in
      if negb (minus group_allow (other_mask_ acl) =? 0) then
        down_from_last_but_one (fun l a => propagate_to (other_mask_ acl) l a group_allow)
          (propagate_to (other_mask_ acl) l (special kGroupSpecialId) group_allow)
      else l
  end.

Definition applyMasks2AceList (acl : RichACL) (l : list Ace) (owner : Z) : list Ace :=
  concat ((fun a =>
    if isInheritOnly a || negb (isAllow a) then [a]
    else
      let mask :=
        if isOwner a || (isUnixUser a && (owner =? ace_id a)) then owner_mask_ acl
        else if isEveryone a then other_mask_ acl else group_mask_ acl in
      changeMask a (Z.land (ace_mask a) mask)) <$> l).

(** setOtherPermissions(): the list and the permissions added. *)
Definition setOtherPermissions (acl : RichACL) (l : list Ace) : list Ace * Z :=
  let other_mask := minus (other_mask_ acl) kPosixAlwaysAllowed in
  if negb (negb (other_mask =? 0) && isWriteThrough acl) then (l, 0)
  else
    let everyone := make_ace kAccessAllowedAceType kSpecialWho other_mask kEveryoneSpecialId in
    match last l with
    | Some a =>
      if negb (isEveryone a) || isInheritOnly a then (l ++ [everyone], other_mask)
      else (change_at l (pred (length l)) other_mask, minus other_mask (ace_mask a))
    | None => (l ++ [everyone], other_mask)
    end.

(** The search of isolateWho() for an entry that denies, downwards from [i]: [Some] is its index. *)
Fixpoint find_denying (l : list Ace) (who : Ace) (deny : Z) (i : nat) : option nat :=
  match l !! i with
  | Some a =>
    if isInheritOnly a then match i with O => None | S j => find_denying l who deny j end
    else if isDeny a then
      if isSameIdentifier a who then Some i
      else match i with O => None | S j => find_denying l who deny j end
    else if isAllow a && has (ace_mask a) deny then None
    else match i with O => None | S j => find_denying l who deny j end
  | None => None
  end.

Definition isolateWho (l : list Ace) (who : Ace) (deny : Z) : list Ace :=
  let deny := foldl (fun deny a =>
    if isInheritOnly a then deny else if isSameIdentifier a who then minus deny (ace_mask a) else deny) deny l in
  if deny =? 0 then l
  else
    match (match length l with S (S n) => find_denying l who deny n | _ => None end) with
    | Some i => change_at l i (Z.lor (default 0 (ace_mask <$> l !! i)) deny)
    | None => insert_at l (pred (length l))
                (make_ace kAccessDeniedAceType (minus (ace_flags who) kInheritanceFlags) deny (ace_id who))
    end.

Definition isolateGroupClass (group_mask : Z) (l : list Ace) (deny : Z) : list Ace :=
  match last l with
  | None => l
  | Some a =>
    if isInheritOnly a || negb (isEveryone a) then l
    else
      let deny := Z.lor deny (minus (ace_mask a) group_mask) in
      if deny =? 0 then l
      else down_from_last_but_one (fun l a => isolateWho l a deny)
             (isolateWho l (special kGroupSpecialId) deny)
  end.

(** setOwnerPermissions(); the loop's state is the list so far, the owner's permissions to set and what
    is denied. *)
Definition owner_step (st : list Ace * Z * Z) (a : Ace) : list Ace * Z * Z :=
  let '(out, owner_mask, denied) := st in
  if isOwner a then
    if isAllow a && negb (has owner_mask denied) then (out ++ changeMask a owner_mask, 0, denied)
    else (out ++ changeMask a 0, owner_mask, denied)
  else (out ++ [a], owner_mask, if isDeny a then Z.lor denied (ace_mask a) else denied).

Definition setOwnerPermissions (acl : RichACL) (l : list Ace) : list Ace :=
  if negb (isWriteThrough acl) then l
  else
    let '(out, owner_mask, denied) :=
      foldl owner_step ([], minus (owner_mask_ acl) kPosixAlwaysAllowed, 0) l in
    if has owner_mask (Z.lor denied (Z.lor (Z.lnot (other_mask_ acl)) (Z.lnot (group_mask_ acl))))
    then make_ace kAccessAllowedAceType kSpecialWho owner_mask kOwnerSpecialId :: out else out.

Definition getMaxAllowed (l : list Ace) : Z :=
  foldr (fun a allowed =>
    if isInheritOnly a then allowed
    else if isAllow a then Z.lor allowed (ace_mask a)
    else if isDeny a && isEveryone a then minus allowed (ace_mask a) else allowed) 0 l.

(** The search of isolateOwnerClass() from the first entry. *)
Fixpoint find_owner_deny (l : list Ace) (i : nat) : option nat :=
  match l with
  | [] => None
  | a :: l =>
    if isInheritOnly a then find_owner_deny l (S i)
    else if isAllow a then None
    else if isOwner a then Some i
    else find_owner_deny l (S i)
  end.

Definition isolateOwnerClass (acl : RichACL) (l : list Ace) : list Ace :=
  let deny := minus (getMaxAllowed l) (owner_mask_ acl) in
  if deny =? 0 then l
  else
    match find_owner_deny l 0 with
    | Some i => change_at l i (Z.lor (default 0 (ace_mask <$> l !! i)) deny)
    | None => make_ace kAccessDeniedAceType kSpecialWho deny kOwnerSpecialId :: l
    end.

Definition applyMasks (acl : RichACL) (owner : Z) : RichACL :=
  if negb (isMasked acl) then acl
  else
    let l := moveEveryoneAcesDown (ace_list_ acl) in
    let l := propagateEveryone acl l in
    let l := applyMasks2AceList acl l owner in
    let '(l, added) := setOtherPermissions acl l in
    let l := isolateGroupClass (group_mask_ acl) l added in
    let l := setOwnerPermissions acl l in
    let l := isolateOwnerClass acl l in
    MkRichACL (owner_mask_ acl) (group_mask_ acl) (other_mask_ acl)
      (minus (flags_ acl) (Z.lor kWriteThrough kMasked)) l.

(** A list that lets everyone read and search, here and in everything below. *)
Definition inheritable_everyone : RichACL :=
  MkRichACL 127 127 127 kMasked
    [make_ace kAccessAllowedAceType (Z.lor kSpecialWho (Z.lor kFileInheritAce kDirectoryInheritAce))
       (convertMode2Mask 5) kEveryoneSpecialId].

(** ApplyMasks() can take everyone's permissions away: it should leave the decisions as they are, but from a masked
    list whose last entry is an inheritable one for everyone it makes a list that refuses what the old one grants
    (the flag that keeps the entry from applying is cleared in the mask instead of the flags). *)
Theorem applyMasks_drops_everyone :
  let w := MkWho 1000 100 2000 [200] in
  checkPermission inheritable_everyone (request 4 true) w = true /\
  checkPermission (applyMasks inheritable_everyone 1000) (request 4 true) w = false.
Proof. split; vm_compute; reflexivity. Qed.

(** ** The upper bounds of the masks *)

(** The entries allow or deny, and a special identifier is the owner, the owning group or everyone. *)
Definition valid_entry (a : Ace) : Prop :=
  isDeny a = negb (isAllow a) /\ (has (ace_flags a) kSpecialWho = true -> any_special a = true).

Lemma first_decision_split p l b v :
  first_decision p l b = Some v <->
  exists l1 a l2, l = l1 ++ a :: l2 /\ p a = true /\ Z.testbit (ace_mask a) b = true /\ v = negb (isDeny a) /\
    Forall (fun x => p x && Z.testbit (ace_mask x) b = false) l1.
Proof.
  split.
  - induction l as [|x l IH]; simpl; [done|]. destruct (p x && Z.testbit (ace_mask x) b) eqn:E.
    + intros [= <-]. apply andb_true_iff in E as [E1 E2]. by exists [], x, l.
    + intros (l1 & a & l2 & -> & Hp & Hm & Hv & Hl)%IH. exists (x :: l1), a, l2. repeat split; try done. by constructor.
  - intros (l1 & a & l2 & -> & Hp & Hm & -> & Hl). induction Hl as [|x l1 Hx Hl IH]; simpl; [by rewrite Hp, Hm|].
    by rewrite Hx.
Qed.

Lemma first_decision_weaken (p q : Ace -> bool) (l1 l2 : list Ace) a b :
  (forall x, q x = true -> p x = true) -> q a = true -> Z.testbit (ace_mask a) b = true ->
  Forall (fun x => p x && Z.testbit (ace_mask x) b = false) l1 ->
  first_decision q (l1 ++ a :: l2) b = Some (negb (isDeny a)).
Proof.
  intros Hsub Hq Hm Hl. apply first_decision_split. exists l1, a, l2. repeat split; try done.
  eapply Forall_impl; [exact Hl|]. intros x. cbn beta. destruct (q x) eqn:E; [|done]. by rewrite (Hsub x E).
Qed.

(** The loops from the last entry to the first compute the first decision. *)
Lemma allow_or_deny_bit a allowed b :
  isDeny a = negb (isAllow a) ->
  Z.testbit (allow_or_deny a allowed) b = if Z.testbit (ace_mask a) b then negb (isDeny a) else Z.testbit allowed b.
Proof.
  intros Ht. unfold allow_or_deny, minus. destruct (isAllow a); rewrite Ht; simpl;
    rewrite ?Z.lor_spec, ?Z.ldiff_spec; destruct (Z.testbit (ace_mask a) b); simpl;
    by rewrite ?orb_true_r, ?orb_false_r, ?andb_true_r, ?andb_false_r.
Qed.

Lemma foldr_decision (p : Ace -> bool) l b :
  Forall valid_entry l ->
  Z.testbit (foldr (fun a allowed => if p a then allow_or_deny a allowed else allowed) 0 l) b =
    default false (first_decision p l b).
Proof.
  induction 1 as [|a l [Ha _] Hl IH]; simpl; [apply Z.bits_0|].
  destruct (p a); simpl; [|done]. rewrite allow_or_deny_bit by done. by destruct (Z.testbit (ace_mask a) b).
Qed.

Definition who_entry (who a : Ace) : bool := negb (isInheritOnly a) && (isSameIdentifier a who || isEveryone a).

Lemma allowedToWho_bit l who b :
  Forall valid_entry l ->
  Z.testbit (allowedToWho l who) b = default false (first_decision (who_entry who) l b).
Proof.
  intros Hl. rewrite <-foldr_decision by done. unfold allowedToWho. f_equal.
  clear Hl. induction l as [|a l IH]; simpl; [done|]. rewrite IH. unfold who_entry.
  by destruct (isInheritOnly a), (isSameIdentifier a who || isEveryone a).
Qed.

Section bounds.
Context (w : Who) (l : list Ace) (Hl : Forall valid_entry l) (b : Z) (Hb : 0 <= b < 32).

Definition matches (a : Ace) : bool := match matching w a with NoMatch => false | _ => true end.

(** The entries of the group class: neither the owner's nor everyone's. *)
Definition class_entry (a : Ace) : bool := negb (isInheritOnly a) && (negb (isOwner a) && negb (isEveryone a)).

(** Entries of the owner and of everyone match when they should. *)
Lemma matches_everyone a : isInheritOnly a = false -> isEveryone a = true -> matches a = true.
Proof.
  intros Hi He. unfold matches. rewrite matching_special; [|split; [done|unfold any_special; rewrite He; by rewrite orb_true_r]].
  rewrite He. by destruct (isOwner a && (uid w =? owner_uid w)), (isGroup a && in_owning_group w).
Qed.

Lemma matches_owner a : isInheritOnly a = false -> isOwner a = true -> (uid w =? owner_uid w) = true -> matches a = true.
Proof.
  intros Hi He Ho. unfold matches. rewrite matching_special; [|split; [done|unfold any_special; by rewrite He]].
  by rewrite He, Ho.
Qed.

Lemma matches_not_only a : matches a = true -> isInheritOnly a = false.
Proof. unfold matches, matching. by destruct (isInheritOnly a). Qed.

(** Entries with the same identifier match the same users. *)
Lemma same_identifier a c :
  isSameIdentifier a c = true ->
  isOwner a = isOwner c /\ isGroup a = isGroup c /\ isEveryone a = isEveryone c /\
  isUnixUser a = isUnixUser c /\ isUnixGroup a = isUnixGroup c /\ ace_id a = ace_id c.
Proof.
  unfold isSameIdentifier. intros [Hf Hid]%negb_true_iff%orb_false_iff. apply negb_false_iff, Z.eqb_eq in Hid.
  rewrite has_false in Hf.
  assert (forall n, 0 <= n -> Z.testbit (Z.lor kSpecialWho kIdentifierGroup) n = true ->
    has (ace_flags a) (2 ^ n) = has (ace_flags c) (2 ^ n)) as H.
  { intros n Hn Ht. rewrite !has_bit by done. specialize (Hf n Hn). rewrite Z.lxor_spec, Ht, andb_true_r in Hf.
    by destruct (Z.testbit (ace_flags a) n), (Z.testbit (ace_flags c) n). }
  unfold isOwner, isGroup, isEveryone, isUnixUser, isUnixGroup.
  change kSpecialWho with (2 ^ 8). change kIdentifierGroup with (2 ^ 6).
  by rewrite (H 8), (H 6), Hid.
Qed.

Lemma same_identifier_refl a : isSameIdentifier a a = true.
Proof. unfold isSameIdentifier. by rewrite Z.lxor_nilpotent, Z.eqb_refl. Qed.

Lemma who_entry_matches c a :
  class_entry c = true -> matches c = true -> who_entry c a = true -> matches a = true.
Proof.
  unfold class_entry, who_entry. intros [Hci _]%andb_true_iff Hc [Hi [Hs|He]%orb_true_iff]%andb_true_iff;
    apply negb_true_iff in Hci, Hi; [|by apply matches_everyone].
  destruct (same_identifier a c Hs) as (E1 & E2 & E3 & E4 & E5 & E6).
  unfold matches, matching in *. rewrite Hci in Hc. by rewrite Hi, E1, E2, E4, E5, E6.
Qed.

Lemma matches_kinds a :
  matches a = true ->
  (isOwner a = true /\ (uid w =? owner_uid w) = true) \/ isEveryone a = true \/ class_entry a = true.
Proof.
  intros Hm. pose proof (matches_not_only a Hm) as Hi. unfold class_entry. rewrite Hi.
  destruct (isOwner a) eqn:Eo; [|destruct (isEveryone a); auto]. left. split; [done|].
  unfold matches, matching in Hm. rewrite Hi, Eo, Z.eqb_sym in Hm. by destruct (uid w =? owner_uid w).
Qed.

(** The loop of groupClassAllowed(), up to any entry. *)
Definition group_step (a : Ace) : Z * Z * bool -> Z * Z * bool := fun '(everyone, group, had) =>
  if isInheritOnly a || isOwner a then (everyone, group, had)
  else if isEveryone a then (allow_or_deny a everyone, group, had)
  else (everyone, Z.lor group (allowedToWho l a), had || isGroup a).

Definition everyone_entry (a : Ace) : bool := negb (isInheritOnly a) && isEveryone a.

Lemma group_fold l' :
  Forall valid_entry l' ->
  let '(everyone, group, had) := foldr group_step (0, 0, false) l' in
  Z.testbit everyone b = default false (first_decision everyone_entry l' b) /\
  (forall c, c ∈ l' -> class_entry c = true -> Z.testbit (allowedToWho l c) b = true -> Z.testbit group b = true) /\
  had = existsb (fun c => class_entry c && isGroup c) l'.
Proof.
  induction 1 as [|a l' [Ha _] Hl' IH]; simpl; [rewrite Z.bits_0; repeat split; intros c Hc; set_solver|].
  destruct (foldr group_step _ l') as [[everyone group] had]. destruct IH as (I1 & I2 & I3).
  unfold group_step, class_entry at 2, everyone_entry at 1.
  destruct (special_kinds a) as (K1 & _ & K3).
  destruct (isInheritOnly a) eqn:Ei; simpl.
  { repeat split; try done. intros c [->|Hc]%elem_of_cons; [|by apply I2]. unfold class_entry. by rewrite Ei. }
  destruct (isOwner a) eqn:Eo; simpl.
  { rewrite (proj2 (K1 eq_refl)). simpl. repeat split; try done.
    intros c [->|Hc]%elem_of_cons; [|by apply I2]. unfold class_entry. by rewrite Eo, andb_false_r. }
  destruct (isEveryone a) eqn:Ee; simpl.
  { rewrite allow_or_deny_bit, I1 by done. repeat split; [by destruct (Z.testbit (ace_mask a) b)| |done].
    intros c [->|Hc]%elem_of_cons; [|by apply I2]. unfold class_entry. by rewrite Ee, !andb_false_r. }
  repeat split; [done| |by rewrite I3, orb_comm].
  intros c [->|Hc]%elem_of_cons Hk Hw; rewrite Z.lor_spec; [by rewrite Hw, orb_true_r|]. by rewrite (I2 c).
Qed.

Lemma groupClassAllowed_bit c a l1 l2 :
  l = l1 ++ a :: l2 -> isDeny a = false -> Z.testbit (ace_mask a) b = true ->
  Forall (fun x => matches x && Z.testbit (ace_mask x) b = false) l1 ->
  (c ∈ l /\ class_entry c = true /\ matches c = true /\ who_entry c a = true) \/
  (everyone_entry a = true /\ existsb (fun c => class_entry c && isGroup c) l = false) ->
  Z.testbit (groupClassAllowed l) b = true.
Proof.
  intros El Hd Hm Hno H. unfold groupClassAllowed. change (foldr _ _ l) with (foldr group_step (0, 0, false) l).
  pose proof (group_fold l Hl) as Hf. destruct (foldr group_step _ l) as [[everyone group] had].
  destruct Hf as (F1 & F2 & F3). destruct H as [(Hc & Hk & Hmc & Hw)|[He Hh]].
  - assert (Z.testbit group b = true) as Hg.
    { apply (F2 c Hc Hk). rewrite allowedToWho_bit by done.
      rewrite El, (first_decision_weaken matches) by (try done; intros x; by apply who_entry_matches).
      by rewrite Hd. }
    destruct had; [done|]. by rewrite Z.lor_spec, Hg.
  - rewrite F3, Hh, Z.lor_spec, F1, El.
    rewrite (first_decision_weaken matches); [by rewrite Hd, orb_true_r| |done..].
    unfold everyone_entry. intros x [Hx1%negb_true_iff Hx2]%andb_true_iff. by apply matches_everyone.
Qed.

(** A user of the owner or group class: the owner, a member of the owning group, or a user some entry names. *)
Definition user_in_class : bool := in_owning_group w || existsb (in_class w) l.

Lemma class_member :
  (uid w =? owner_uid w) = false -> user_in_class = true ->
  (exists c, c ∈ l /\ class_entry c = true /\ matches c = true) \/
  existsb (fun c => class_entry c && isGroup c) l = false.
Proof.
  intros Ho [Hg|Hc]%orb_true_iff.
  - destruct (existsb (fun c => class_entry c && isGroup c) l) eqn:E; [|by right]. left.
    apply existsb_exists in E as (c & Hc%list_elem_of_In & [Hk Hgr]%andb_true_iff). exists c. repeat split; try done.
    apply andb_true_iff in Hk as [Hi%negb_true_iff _].
    unfold matches. rewrite matching_special by (split; [done|]; unfold any_special; by rewrite Hgr, orb_true_r).
    destruct (proj1 (proj2 (special_kinds c)) Hgr) as [-> ->]. by rewrite Hgr, Hg.
  - left. apply existsb_exists in Hc as (c & Hc%list_elem_of_In & Hk). exists c. split; [done|].
    assert (matches c = true) as Hm by (unfold matches, in_class in *; by destruct (matching w c)). split; [|done].
    destruct (matches_kinds c Hm) as [[_ H]|[He|H]]; [by rewrite Ho in H| |done]. exfalso.
    unfold in_class in Hk. rewrite matching_special in Hk
      by (split; [by apply matches_not_only|]; unfold any_special; by rewrite He, orb_true_r).
    destruct (proj2 (proj2 (special_kinds c)) He) as [E1 E2]. by rewrite E1, E2, He in Hk.
Qed.

Lemma max_group_mask_bit a l1 l2 :
  l = l1 ++ a :: l2 -> isDeny a = false -> Z.testbit (ace_mask a) b = true -> matches a = true ->
  Forall (fun x => matches x && Z.testbit (ace_mask x) b = false) l1 ->
  class_entry a = true \/ (isEveryone a = true /\ (uid w =? owner_uid w) = false /\ user_in_class = true) ->
  Z.testbit (max_group_mask l) b = true.
Proof.
  intros El Hd Hm Ha Hno H. unfold max_group_mask. destruct (existsb _ l).
  2: { change uint32_max with (Z.ones 32). apply Z.ones_spec_low. lia. }
  pose proof (matches_not_only a Ha) as Hi. destruct H as [Hk|(He & Ho & Hc)].
  - apply (groupClassAllowed_bit a a l1 l2); try done. left. split; [rewrite El; set_solver|].
    repeat split; try done. unfold who_entry. by rewrite Hi, same_identifier_refl.
  - destruct (class_member Ho Hc) as [(c & H1 & H2 & H3)|Hn].
    + apply (groupClassAllowed_bit c a l1 l2); try done. left. repeat split; try done.
      unfold who_entry. by rewrite Hi, He, orb_true_r.
    + apply (groupClassAllowed_bit a a l1 l2); try done. right. split; [|done].
      unfold everyone_entry. by rewrite Hi, He.
Qed.

(** The three masks, one at a time: an entry that does not decide keeps the permission. *)
Lemma max_masks_keep gmask x o g t :
  valid_entry x -> matches x && Z.testbit (ace_mask x) b = false ->
  let '(o', g', t') := max_masks_step gmask x (o, g, t) in
  ((uid w =? owner_uid w) = true -> Z.testbit o b = true -> Z.testbit o' b = true) /\
  (Z.testbit g b = true -> Z.testbit g' b = true) /\ (Z.testbit t b = true -> Z.testbit t' b = true).
Proof.
  intros [Hv _] Hno. unfold max_masks_step, minus.
  destruct (isInheritOnly x) eqn:Ei; [done|]. destruct (isOwner x) eqn:Eo.
  { repeat split; try done. intros Hu Hb'. rewrite allow_or_deny_bit by done.
    rewrite matches_owner in Hno by done. simpl in Hno. by rewrite Hno. }
  destruct (isEveryone x) eqn:Ee.
  { rewrite matches_everyone in Hno by done. simpl in Hno.
    destruct (isAllow x); [|destruct (isDeny x); [|done]];
      repeat split; intros; rewrite ?Z.lor_spec, ?Z.ldiff_spec, ?Hno, ?andb_true_r; simpl; try done;
      match goal with H : Z.testbit _ b = true |- _ => by rewrite H end. }
  destruct (isAllow x); [|done]. repeat split; intros; try done; rewrite Z.lor_spec;
    match goal with H : Z.testbit _ b = true |- _ => by rewrite H end.
Qed.

Lemma max_masks_keep_all gmask l1 masks :
  Forall valid_entry l1 -> Forall (fun x => matches x && Z.testbit (ace_mask x) b = false) l1 ->
  let '(o, g, t) := masks in
  let '(o', g', t') := foldr (max_masks_step gmask) masks l1 in
  ((uid w =? owner_uid w) = true -> Z.testbit o b = true -> Z.testbit o' b = true) /\
  (Z.testbit g b = true -> Z.testbit g' b = true) /\ (Z.testbit t b = true -> Z.testbit t' b = true).
Proof.
  intros Hv Hno. destruct masks as [[o g] t]. induction Hno as [|x l1 Hx Hno IH]; simpl; [naive_solver|].
  apply Forall_cons in Hv as [Hvx Hv]. specialize (IH Hv).
  destruct (foldr _ _ l1) as [[o1 g1] t1]. pose proof (max_masks_keep gmask x o1 g1 t1 Hvx Hx) as H.
  destruct (max_masks_step _ x _) as [[o2 g2] t2]. naive_solver.
Qed.

(** The class of the user selects the mask. *)
Definition class_mask (masks : Z * Z * Z) : Z :=
  let '(o, g, t) := masks in if uid w =? owner_uid w then o else if user_in_class then g else t.

(** The entry that allows the permission puts it into the masks. *)
Lemma max_masks_step_decides a l1 l2 masks :
  l = l1 ++ a :: l2 -> isDeny a = false -> Z.testbit (ace_mask a) b = true -> matches a = true ->
  Forall (fun x => matches x && Z.testbit (ace_mask x) b = false) l1 ->
  let '(o, g, t) := max_masks_step (max_group_mask l) a masks in
  Z.testbit (class_mask (o, g, t)) b = true /\ (class_entry a = true -> Z.testbit g b = true).
Proof.
  intros El Hd Hm Ha Hno. pose proof (max_group_mask_bit a l1 l2 El Hd Hm Ha Hno) as Hgm.
  assert (valid_entry a) as [Hv Hsp] by (rewrite El in Hl; by apply Forall_app in Hl as [_ [H _]%Forall_cons]).
  rewrite Hd in Hv. symmetry in Hv. apply negb_false_iff in Hv.
  pose proof (matches_not_only a Ha) as Hi. destruct masks as [[o g] t].
  unfold max_masks_step, class_mask, class_entry in *. rewrite Hi in *. simpl in Hgm |- *.
  destruct (matches_kinds a Ha) as [[Eo Eu]|[Ee|Ek]].
  - rewrite Eo. unfold allow_or_deny. rewrite Hv, Eu, Z.lor_spec, Hm. by rewrite orb_true_r.
  - destruct (proj2 (proj2 (special_kinds a)) Ee) as [Eo _]. rewrite Eo, Ee, Hv in *. simpl in *.
    split; [|done]. destruct (uid w =? owner_uid w); [by rewrite Z.lor_spec, Hm, orb_true_r|].
    destruct user_in_class; [|by rewrite Z.lor_spec, Hm, orb_true_r].
    rewrite Z.lor_spec, Z.land_spec, Hm, Hgm by auto. by rewrite orb_true_r.
  - unfold class_entry in Ek. rewrite Hi in Ek. simpl in Ek. rewrite Ek in Hgm.
    apply andb_true_iff in Ek as [Eo%negb_true_iff Ee%negb_true_iff]. rewrite Eo, Ee, Hv in *. simpl in *.
    rewrite !Z.lor_spec, !Z.land_spec, Hm, Hgm by auto. simpl. rewrite !orb_true_r. split; [|done].
    destruct (uid w =? owner_uid w) eqn:Eu; [by rewrite Z.lor_spec, Z.land_spec, Hm, Hgm, orb_true_r by auto|].
    replace user_in_class with true; [by rewrite Z.lor_spec, Z.land_spec, Hm, Hgm, orb_true_r by auto|].
    symmetry. unfold user_in_class. apply orb_true_iff. right. apply existsb_exists. exists a.
    split; [apply list_elem_of_In; rewrite El; set_solver|].
    unfold matches, in_class in *. destruct (matching w a) eqn:Em; try done.
    unfold matching in Em. rewrite Hi, Eo in Em. unfold isUnixUser, isUnixGroup in Em.
    destruct (isGroup a) eqn:Eg; [by destruct (in_owning_group w)|].
    destruct (has (ace_flags a) kSpecialWho); simpl in Em; [|].
    + specialize (Hsp eq_refl). unfold any_special in Hsp. by rewrite Eo, Eg, Ee in Hsp.
    + destruct (has (ace_flags a) kIdentifierGroup); simpl in Em; [by destruct (in_groups w _)|].
      destruct (negb _); [done|]. by destruct (_ =? _).
Qed.

Lemma max_masks_decide a l1 l2 :
  l = l1 ++ a :: l2 -> isDeny a = false -> Z.testbit (ace_mask a) b = true -> matches a = true ->
  Forall (fun x => matches x && Z.testbit (ace_mask x) b = false) l1 ->
  let '(o, g, t) := foldr (max_masks_step (max_group_mask l)) (0, 0, 0) l in
  Z.testbit (class_mask (o, g, t)) b = true /\ (class_entry a = true -> Z.testbit g b = true).
Proof.
  intros El Hd Hm Ha Hno.
  assert (Forall valid_entry l1) as Hv by (rewrite El in Hl; by apply Forall_app in Hl as [? _]).
  set (G := max_group_mask l).
  replace (foldr (max_masks_step G) (0, 0, 0) l)
    with (foldr (max_masks_step G) (max_masks_step G a (foldr (max_masks_step G) (0, 0, 0) l2)) l1)
    by (rewrite El; by rewrite foldr_app).
  pose proof (max_masks_step_decides a l1 l2 (foldr (max_masks_step G) (0, 0, 0) l2) El Hd Hm Ha Hno) as H1.
  fold G in H1. destruct (max_masks_step G a _) as [[o g] t].
  pose proof (max_masks_keep_all G l1 (o, g, t) Hv Hno) as H2. cbn beta iota in H2.
  destruct (foldr _ _ l1) as [[o' g'] t']. destruct H1 as [H1 H1'], H2 as (K1 & K2 & K3).
  split; [|by auto]. unfold class_mask in *. destruct (uid w =? owner_uid w); [by apply K1|].
  destruct user_in_class; auto.
Qed.

(** Without masks, the first entry that matches decides. *)
Lemma decide_unmasked acl l' :
  isMasked acl = false -> decide_bit acl w l' b = first_decision matches l' b.
Proof.
  intros Hm. induction l' as [|a l' IH]; [done|]. simpl. unfold matches at 1, effective. rewrite Hm, IH.
  by destruct (matching w a).
Qed.

(** The group mask hides entries that allow, and no others. *)
Lemma decide_masked_allows acl l' :
  Forall valid_entry l' -> decide_bit acl w l' b = Some true -> first_decision matches l' b = Some true.
Proof.
  induction 1 as [|a l' [Hv _] Hl' IH]; [done|]. simpl. unfold matches at 1, effective.
  destruct (matching w a); simpl; [done|..]; try (by destruct (Z.testbit (ace_mask a) b)).
  destruct (isMasked acl && isAllow a) eqn:Em; [|by destruct (Z.testbit (ace_mask a) b)].
  apply andb_true_iff in Em as [_ Ea]. rewrite Hv, Ea, Z.land_spec. simpl.
  by destruct (Z.testbit (ace_mask a) b), (Z.testbit (group_mask_ acl) b).
Qed.

Lemma decide_masked_split acl l1 a l2 :
  l = l1 ++ a :: l2 -> isDeny a = false -> Z.testbit (ace_mask a) b = true -> matches a = true ->
  Forall (fun x => matches x && Z.testbit (ace_mask x) b = false) l1 ->
  (class_entry a = true -> Z.testbit (group_mask_ acl) b = true) ->
  decide_bit acl w l b = Some true.
Proof.
  intros El Hd Hm Ha Hno Hg. rewrite El. clear El.
  induction Hno as [|x l1 Hx Hno IH]; simpl.
  - unfold effective, matches in *. rewrite Hd.
    destruct (matching w a) eqn:Em; rewrite ?Hm; try done. destruct (isMasked acl && isAllow a); [|by rewrite Hm].
    rewrite Z.land_spec, Hm, Hg; [done|]. destruct (matches_kinds a) as [[Eo Eu]|[Ee|Ek]]; [|..|done].
    + unfold matches. by rewrite Em.
    + unfold matching in Em. rewrite Eo in Em. by destruct (isInheritOnly a), (_ =? _).
    + destruct (proj2 (proj2 (special_kinds a)) Ee) as [E1 E2].
      unfold matching in Em. destruct (isInheritOnly a); [done|]. rewrite E1, E2 in Em.
      unfold isEveryone in Ee. apply andb_true_iff in Ee as [Es _]. unfold isUnixUser, isUnixGroup in Em.
      by rewrite Es in Em.
  - unfold effective, matches in Hx |- *. destruct (matching w x); simpl in *; try done; try by rewrite Hx.
    destruct (isMasked acl && isAllow x); rewrite ?Z.land_spec, Hx; done.
Qed.

End bounds.

Lemma granted_masked acl w b :
  isMasked acl = true -> isWriteThrough acl = false ->
  granted acl w b = allowed_bit acl w (ace_list_ acl) b &&
    Z.testbit (class_mask w (ace_list_ acl) (owner_mask_ acl, group_mask_ acl, other_mask_ acl)) b.
Proof.
  intros Hm Hw. unfold granted, class_mask, user_in_class. rewrite Hm, Hw. simpl.
  by destruct (uid w =? owner_uid w), (in_owning_group w || existsb (in_class w) (ace_list_ acl)).
Qed.

Lemma max_masks_granted acl w b :
  Forall valid_entry (ace_list_ acl) -> 0 <= b < 32 ->
  granted (with_flags (computeMaxMasks acl) kMasked) w b = granted (with_flags acl 0) w b.
Proof.
  intros Hl Hb. rewrite granted_masked; [|by unfold isMasked, with_flags|by unfold isWriteThrough, with_flags].
  unfold granted. replace (isMasked (with_flags acl 0)) with false by done.
  unfold allowed_bit. rewrite (decide_unmasked w b (with_flags acl 0)) by done.
  unfold with_flags, computeMaxMasks. pose proof (max_masks_decide w (ace_list_ acl) Hl b Hb) as Hd.
  destruct (foldr _ _ _) as [[o g] t].
  cbn [ace_list_ owner_mask_ group_mask_ other_mask_ flags_] in *. apply eq_true_iff_eq. split.
  - intros [Ha _]%andb_true_iff. destruct (decide_bit _ _ _ _) as [[]|] eqn:E in Ha; try done.
    by rewrite (decide_masked_allows w b _ _ Hl E).
  - destruct (first_decision _ _ _) as [[]|] eqn:E; try done. intros _.
    apply first_decision_split in E as (l1 & a & l2 & El & Hma & Hm & Hv & Hno).
    symmetry in Hv. apply negb_true_iff in Hv. destruct (Hd a l1 l2 El Hv Hm Hma Hno) as [H1 H2].
    rewrite H1. by rewrite (decide_masked_split w (ace_list_ acl) b _ l1 a l2).
Qed.

Lemma small_bits x b : 0 <= x < 2 ^ 32 -> 0 <= b -> Z.testbit x b = true -> b < 32.
Proof.
  intros Hx Hb Ht. destruct (Z.lt_ge_cases b 32) as [|Hge]; [done|]. exfalso.
  rewrite (Z.bits_above_log2 x b) in Ht; [done|lia|]. destruct (decide (x = 0)) as [->|]; [simpl; lia|].
  assert (Z.log2 x < 32); [apply Z.log2_lt_pow2; lia|lia].
Qed.

(** The masks that computeMaxMasks() computes disable nothing: a list of allow and deny entries with these masks
    in force grants every user exactly the requests that the same list without masks grants. *)
Theorem max_masks_neutral acl w requested :
  Forall valid_entry (ace_list_ acl) -> 0 <= requested < 2 ^ 32 ->
  checkPermission (with_flags (computeMaxMasks acl) kMasked) requested w =
  checkPermission (with_flags acl 0) requested w.
Proof.
  intros Hl Hr. apply eq_true_iff_eq. rewrite !checkPermission_iff.
  split; intros H b Hb Ht; pose proof (small_bits _ _ Hr Hb Ht);
    [rewrite <-max_masks_granted by done|rewrite max_masks_granted by done]; by apply H.
Qed.

Lemma max_masks_neutral_witness :
  let acl := MkRichACL 0 0 0 0 [make_ace kAccessDeniedAceType kSpecialWho kPosixModeWrite kGroupSpecialId;
    make_ace kAccessAllowedAceType kSpecialWho kPosixModeWrite kEveryoneSpecialId] in
  let w := MkWho 1000 100 2000 [100] in
  checkPermission (with_flags (computeMaxMasks acl) kMasked) kPosixModeWrite w =
  checkPermission (with_flags acl 0) kPosixModeWrite w.
Proof.
  intros acl w. apply (max_masks_neutral acl w kPosixModeWrite); [|by vm_compute].
  repeat constructor.
Defined.

(** ** Inherited lists *)

Lemma set_flags_valid a flags :
  valid_entry a -> Z.testbit flags 8 = Z.testbit (ace_flags a) 8 -> valid_entry (set_flags a flags).
Proof.
  intros [Ht Hs] E. split; [done|].
  assert (has (wrap 9 flags) kSpecialWho = has (ace_flags a) kSpecialWho) as Eh.
  { change kSpecialWho with (2 ^ 8). rewrite !has_bit by lia. unfold wrap. by rewrite Z.mod_pow2_bits_low. }
  unfold set_flags, any_special, isOwner, isGroup, isEveryone. cbn [ace_flags ace_id]. rewrite Eh. apply Hs.
Qed.

Lemma inherit_valid dir_acl is_dir :
  Forall valid_entry (ace_list_ dir_acl) -> Forall valid_entry (ace_list_ (inherit dir_acl is_dir)).
Proof.
  intros Hv. assert (forall l f, Forall valid_entry l -> Forall valid_entry (List.filter f l)) as Hfilter.
  { intros l f. rewrite !Forall_forall. intros H x Hx%list_elem_of_In%filter_In. apply H, list_elem_of_In, Hx. }
  assert (forall a, valid_entry a -> valid_entry (inherit_to_dir a) /\ valid_entry (inherit_to_file a)) as Hstep.
  { intros a Ha. unfold inherit_to_dir, inherit_to_file, minus. split.
    - destruct (has _ _); [|destruct (has _ _)]; apply set_flags_valid; try done;
        rewrite ?Z.ldiff_spec, ?Z.lor_spec; by rewrite ?andb_true_r, ?orb_false_r.
    - change (valid_entry (set_flags a (Z.ldiff (ace_flags a) kInheritanceFlags))).
      apply set_flags_valid; [done|]. by rewrite Z.ldiff_spec, andb_true_r. }
  unfold inherit. set (l := if is_dir then _ else _).
  assert (Forall valid_entry l) as Hl.
  { unfold l. destruct is_dir; apply Forall_fmap; eapply Forall_impl; try (apply Hfilter, Hv); intros; by apply Hstep. }
  destruct (isAutoInherit dir_acl); apply Forall_fmap; (eapply Forall_impl; [exact Hl|]); intros a Ha;
    (apply set_flags_valid; [done|]); unfold minus; by rewrite ?Z.lor_spec, ?Z.ldiff_spec, ?orb_false_r, ?andb_true_r.
Qed.

(** The mode bits of the class of the user. *)
Definition class_mode (mode : Z) (w : Who) (l : list Ace) : Z :=
  class_mask w l (Z.shiftr mode 6, Z.shiftr mode 3, mode).

Lemma decide_outside_class acl w l b :
  existsb (in_class w) l = false -> decide_bit acl w l b = first_decision (matches w) l b.
Proof.
  induction l as [|a l IH]; [done|]. simpl. intros [Ha Hl]%orb_false_iff. rewrite IH by done.
  unfold in_class, matches, effective in *. by destruct (matching w a).
Qed.

Lemma class_mask_land w l o g t o' g' t' b :
  Z.testbit (class_mask w l (Z.land o o', Z.land g g', Z.land t t')) b =
  Z.testbit (class_mask w l (o, g, t)) b && Z.testbit (class_mask w l (o', g', t')) b.
Proof. unfold class_mask. destruct (uid w =? _), (user_in_class w l); by rewrite Z.land_spec. Qed.

Section inherited.
Context (l : list Ace) (Hl : Forall valid_entry l) (mode : Z) (acl : RichACL) (w : Who) (b : Z) (Hb : 0 <= b < 32).
Context (Hlist : ace_list_ acl = l) (Hm : isMasked acl = true) (Hw : isWriteThrough acl = false).
Context (o g t : Z) (Hmax : foldr (max_masks_step (max_group_mask l)) (0, 0, 0) l = (o, g, t)).
Context (Ho : owner_mask_ acl = Z.land o (convertMode2Mask (Z.shiftr mode 6)))
  (Hg : group_mask_ acl = Z.land g (convertMode2Mask (Z.shiftr mode 3)))
  (Ht : other_mask_ acl = Z.land t (convertMode2Mask mode)).

Definition class_mode_mask : Z := convertMode2Mask (class_mode mode w l).

Lemma inherited_granted :
  granted acl w b = allowed_bit acl w l b && Z.testbit (class_mask w l (o, g, t)) b && Z.testbit class_mode_mask b.
Proof.
  rewrite granted_masked, Hlist, Ho, Hg, Ht, class_mask_land, andb_assoc by done. f_equal.
  unfold class_mode_mask, class_mode, class_mask. by destruct (uid w =? _), (user_in_class w l).
Qed.

Lemma inherited_sound :
  granted acl w b = true -> first_decision (matches w) l b = Some true /\ Z.testbit class_mode_mask b = true.
Proof.
  rewrite inherited_granted. intros [[Ha _]%andb_true_iff Hc]%andb_true_iff. split; [|done].
  unfold allowed_bit in Ha. destruct (decide_bit _ _ _ _) as [[]|] eqn:E in Ha; try done.
  by eapply decide_masked_allows.
Qed.

Lemma inherited_complete :
  (uid w =? owner_uid w) = false -> first_decision (matches w) l b = Some true ->
  Z.testbit class_mode_mask b = true -> granted acl w b = true.
Proof.
  intros Hu E Hc. rewrite inherited_granted, Hc, andb_true_r.
  apply first_decision_split in E as (l1 & a & l2 & El & Hma & Hmb & Hv & Hno).
  symmetry in Hv. apply negb_true_iff in Hv.
  pose proof (max_masks_decide w l Hl b Hb a l1 l2 El Hv Hmb Hma Hno) as H. rewrite Hmax in H.
  destruct H as [H1 H2]. rewrite H1, andb_true_r. unfold allowed_bit.
  destruct (existsb (in_class w) l) eqn:Ec.
  - rewrite (decide_masked_split w l b _ l1 a l2); try done. intros Hk. rewrite Hg, Z.land_spec, H2 by done.
    unfold class_mode_mask, class_mode, class_mask, user_in_class in Hc. by rewrite Hu, Ec, orb_true_r in Hc.
  - rewrite decide_outside_class by done. rewrite El, (first_decision_weaken (matches w)) by done. by rewrite Hv.
Qed.

End inherited.

(** The list of a new inode: what it grants, the inherited entries grant, and so does the class of the user in the
    creation mode; except for the owner, it grants no less. *)
Lemma inheritInode_list dir_acl mode umask is_dir mode' acl w requested :
  Forall valid_entry (ace_list_ dir_acl) -> inheritInode dir_acl mode umask is_dir = (mode', Some acl) ->
  0 <= requested < 2 ^ 32 ->
  let inherited := checkPermission (inherit dir_acl is_dir) requested w = true in
  let by_mode := minus requested (convertMode2Mask (class_mode mode w (ace_list_ acl))) = 0 in
  (checkPermission acl requested w = true -> inherited /\ by_mode) /\
  (uid w <> owner_uid w -> inherited -> by_mode -> checkPermission acl requested w = true).
Proof.
  intros Hv E Hr. unfold inheritInode in E. destruct (bool_decide _); [done|].
  destruct (equivMode _ _ _); [done|]. injection E as _ E.
  set (acl1 := if isAutoInherit (inherit dir_acl is_dir) then _ else _) in E.
  assert (ace_list_ acl1 = ace_list_ (inherit dir_acl is_dir)) as E1 by (unfold acl1; by destruct (isAutoInherit _)).
  assert (isMasked (inherit dir_acl is_dir) = false) as Hun by (unfold inherit; by destruct (isAutoInherit dir_acl)).
  assert (isWriteThrough acl = false /\ isMasked acl = true) as [Hw Hm].
  { subst acl. unfold acl1, inherit, computeMaxMasks. destruct (isAutoInherit dir_acl);
      cbn [isAutoInherit flags_]; destruct (foldr _ _ _) as [[??]?]; split; vm_compute; done. }
  unfold computeMaxMasks in E. rewrite E1 in E. pose proof (inherit_valid dir_acl is_dir Hv) as Hl.
  revert Hl Hun E. generalize (inherit dir_acl is_dir). intros acl0 Hl Hun E.
  destruct (foldr _ _ _) as [[o g] t] eqn:Ef in E.
  cbn [ace_list_ owner_mask_ group_mask_ other_mask_] in E.
  assert (forall b, 0 <= b < 32 -> granted acl0 w b = allowed_bit acl0 w (ace_list_ acl0) b) as Hg0
    by (intros; unfold granted; by rewrite Hun).
  unfold allowed_bit in Hg0. cbv zeta. rewrite !checkPermission_iff. unfold minus. rewrite zero_bits.
  replace (ace_list_ acl) with (ace_list_ acl0) by by subst acl. split.
  - intros H. split.
    + intros b Hb Ht. pose proof (small_bits _ _ Hr Hb Ht). rewrite Hg0, decide_unmasked by done.
      destruct (inherited_sound (ace_list_ acl0) Hl mode acl w b) with (o := o) (g := g) (t := t) as [-> _]; subst acl; auto.
    + intros b Hb. rewrite Z.ldiff_spec. destruct (Z.testbit requested b) eqn:Ht; [|done].
      pose proof (small_bits _ _ Hr Hb Ht).
      destruct (inherited_sound (ace_list_ acl0) Hl mode acl w b) with (o := o) (g := g) (t := t) as [_ Hc]; subst acl; auto.
      unfold class_mode_mask in Hc. simpl. by rewrite Hc.
  - intros Hu%Z.eqb_neq H1 H2 b Hb Ht. pose proof (small_bits _ _ Hr Hb Ht).
    specialize (H1 b Hb Ht). specialize (H2 b Hb). rewrite Z.ldiff_spec, Ht in H2. simpl in H2.
    rewrite Hg0, decide_unmasked in H1 by done. apply negb_false_iff in H2.
    eapply (inherited_complete (ace_list_ acl0) Hl mode acl w b) with (o := o) (g := g) (t := t); try done; try by subst acl.
    by destruct (first_decision _ _ _) as [[]|].
Qed.

Lemma inheritInode_entries dir_acl mode umask is_dir mode' acl :
  inheritInode dir_acl mode umask is_dir = (mode', Some acl) -> ace_list_ acl = ace_list_ (inherit dir_acl is_dir).
Proof.
  unfold inheritInode. destruct (bool_decide _); [done|]. destruct (equivMode _ _ _); [done|]. intros [= _ <-].
  unfold computeMaxMasks. cbn [ace_list_]. destruct (foldr _ _ _) as [[??]?]. cbn [ace_list_].
  by destruct (isAutoInherit _).
Qed.

Lemma request_range m is_dir : 0 <= m < 8 -> 0 <= request m is_dir < 2 ^ 32.
Proof.
  intros Hm. assert (m = 0 \/ m = 1 \/ m = 2 \/ m = 3 \/ m = 4 \/ m = 5 \/ m = 6 \/ m = 7) as Hc by lia.
  repeat destruct Hc as [->|Hc]; try subst m; by destruct is_dir.
Qed.

Lemma inheritInode_equiv dir_acl mode umask is_dir mode' :
  inheritInode dir_acl mode umask is_dir = (mode', None) -> ace_list_ (inherit dir_acl is_dir) <> [] ->
  exists mode'', equivMode (inherit dir_acl is_dir) mode is_dir = Some mode'' /\ mode' = Z.land mode mode''.
Proof.
  unfold inheritInode. intros E Hne. rewrite bool_decide_false in E by done.
  destruct (equivMode _ _ _) as [mode''|]; [|done]. injection E as <-. eauto.
Qed.

Lemma inherit_unmasked dir_acl is_dir :
  isMasked (inherit dir_acl is_dir) = false /\ isAutoSetMode (inherit dir_acl is_dir) = false.
Proof. unfold inherit. by destruct (isAutoInherit dir_acl). Qed.
