(* ===== verification/AclPosix.v ===== *)
(** POSIX access control lists (src/common/access_control_list.h) and their conversion to and from RichACLs
    (src/common/richacl_posix_convert.cc). *)
From S2P Require Import Prelude Serialization RichACL AclMasks.

(** ** POSIX ACLs *)

Module Posix.

Definition kMaskUnset : Z := 0xF.

Inductive EntryType := kNamedUser | kNamedGroup | kUser | kGroup | kOther | kMask | kInvalid.

#[global] Instance EntryType_eq_dec : EqDecision EntryType.
Proof. solve_decision. Defined.

Record Entry := MkEntry { entry_id : Z; entry_type : EntryType; access_rights : Z }.

Record AccessControlList := MkAcl { list_ : list Entry; basic_permissions_ : Z }.

(** AccessControlList() *)
Definition empty : AccessControlList := MkAcl [] 0xF000.

(** operator<: entries in the order of type, id and rights; only named entries are in the list. *)
Definition type_rank (t : EntryType) : Z :=
  match t with
  | kNamedUser => 0 | kNamedGroup => 1 | kUser => 2 | kGroup => 3 | kOther => 4 | kMask => 5 | kInvalid => 6
  end.

Definition entry_ltb (a b : Entry) : bool :=
  (type_rank (entry_type a) <? type_rank (entry_type b)) ||
  (type_rank (entry_type a) =? type_rank (entry_type b)) &&
    ((entry_id a <? entry_id b) ||
     (entry_id a =? entry_id b) && (access_rights a <? access_rights b)).

Definition getOwnerRights (acl : AccessControlList) : Z := Z.land (Z.shiftr (basic_permissions_ acl) 8) 0xF.
Definition getGroupRights (acl : AccessControlList) : Z := Z.land (Z.shiftr (basic_permissions_ acl) 4) 0xF.
Definition getOtherRights (acl : AccessControlList) : Z := Z.land (basic_permissions_ acl) 0xF.
Definition getMaskRights (acl : AccessControlList) : Z := Z.shiftr (basic_permissions_ acl) 12.

Definition set_basic (acl : AccessControlList) (keep shift value : Z) : AccessControlList :=
  MkAcl (list_ acl) (Z.lor (Z.land (basic_permissions_ acl) keep) (Z.shiftl (Z.land value 0xF) shift)).
Definition setOwnerRights (acl : AccessControlList) (value : Z) := set_basic acl 0xF0FF 8 value.
Definition setGroupRights (acl : AccessControlList) (value : Z) := set_basic acl 0xFF0F 4 value.
Definition setOtherRights (acl : AccessControlList) (value : Z) := set_basic acl 0xFFF0 0 value.
Definition setMaskRights (acl : AccessControlList) (value : Z) := set_basic acl 0x0FFF 12 value.

Definition minimalAcl (acl : AccessControlList) : bool :=
  (getMaskRights acl =? kMaskUnset) && bool_decide (list_ acl = []).

Definition applyMask (acl : AccessControlList) (rights : Z) : Z :=
  if negb (getMaskRights acl =? kMaskUnset) then Z.land rights (getMaskRights acl) else rights.

Definition invalid : Entry := MkEntry 0xFFFFFFFF kInvalid 0.

Definition is_valid (e : Entry) : bool := negb (bool_decide (entry_type e = kInvalid)).

Definition same_key (type : EntryType) (id : Z) (e : Entry) : bool :=
  bool_decide (entry_type e = type) && (entry_id e =? id).

(** lower_bound(Entry(type, id, 0)) *)
Definition lower_bound (l : list Entry) (type : EntryType) (id : Z) : nat :=
  partition_point (fun e => entry_ltb e (MkEntry id type 0)) l.

Definition get_named (acl : AccessControlList) (type : EntryType) (id : Z) : Entry :=
  match list_ acl !! lower_bound (list_ acl) type id with
  | Some e => if same_key type id e then e else invalid
  | None => invalid
  end.

Definition getEntry (acl : AccessControlList) (type : EntryType) (id : Z) : option Entry :=
  match type with
  | kNamedUser | kNamedGroup => Some (get_named acl type id)
  | kUser => Some (MkEntry 0xFFFFFFFF kUser (getOwnerRights acl))
  | kGroup => Some (MkEntry 0xFFFFFFFF kGroup (getGroupRights acl))
  | kOther => Some (MkEntry 0xFFFFFFFF kOther (getOtherRights acl))
  | kMask =>
    Some (if negb (getMaskRights acl =? kMaskUnset)
          then MkEntry 0xFFFFFFFF kMask (getMaskRights acl) else invalid)
  | kInvalid => None
  end.

Definition setEntry (acl : AccessControlList) (type : EntryType) (id rights : Z)
  : option AccessControlList :=
  if negb (rights <=? 7) then None
  else
    match type with
    | kNamedUser | kNamedGroup =>
      let it := lower_bound (list_ acl) type id in
      let inserted :=
        if (length (list_ acl) <? 65535)%nat
        then MkAcl (set_insert entry_ltb (list_ acl) (MkEntry id type rights)) (basic_permissions_ acl)
        else acl in
      match list_ acl !! it with
      | Some e =>
        if same_key type id e
        then Some (MkAcl (<[it := MkEntry (entry_id e) (entry_type e) rights]> (list_ acl))
                     (basic_permissions_ acl))
        else Some inserted
      | None => Some inserted
      end
    | kUser => Some (setOwnerRights acl rights)
    | kGroup => Some (setGroupRights acl rights)
    | kOther => Some (setOtherRights acl rights)
    | kMask => Some (setMaskRights acl rights)
    | kInvalid => None
    end.

Definition getMode (acl : AccessControlList) : Z :=
  Z.lor (Z.lor (Z.land (getOtherRights acl) 7)
    (Z.shiftl (Z.land (if negb (getMaskRights acl =? kMaskUnset) then getMaskRights acl
                       else getGroupRights acl) 7) 3))
    (Z.shiftl (Z.land (getOwnerRights acl) 7) 6).

Definition setMode (acl : AccessControlList) (mode : Z) : AccessControlList :=
  let acl := setOtherRights acl (Z.land mode 7) in
  let acl := setOwnerRights acl (Z.land (Z.shiftr mode 6) 7) in
  if getMaskRights acl =? kMaskUnset then setGroupRights acl (Z.land (Z.shiftr mode 3) 7)
  else setMaskRights acl (Z.land (Z.shiftr mode 3) 7).

(** getEffectiveRights(): what a user may do. *)
Definition getEffectiveRights (acl : AccessControlList) (w : Who) : Z :=
  if uid w =? owner_uid w then getOwnerRights acl
  else
    let user_entry := get_named acl kNamedUser (uid w) in
    if is_valid user_entry then applyMask acl (access_rights user_entry)
    else
      let '(rights, found) :=
        foldl (fun '(rights, found) id =>
          let group_entry := get_named acl kNamedGroup id in
          if is_valid group_entry then (Z.lor rights (access_rights group_entry), true) else (rights, found))
          (if in_owning_group w then (getGroupRights acl, true) else (0, false)) (groups w) in
      if found then applyMask acl rights else getOtherRights acl.

End Posix.

(** ** Conversion of POSIX ACLs *)

Definition named_ace (x : Z) (e : Posix.Entry) : list Ace :=
  let mask := minus (convertMode2Mask (Posix.access_rights e)) x in
  match Posix.entry_type e with
  | Posix.kNamedUser => [make_ace kAccessAllowedAceType 0 mask (Posix.entry_id e)]
  | Posix.kNamedGroup => [make_ace kAccessAllowedAceType kIdentifierGroup mask (Posix.entry_id e)]
  | _ => []
  end.

Definition appendPosixACL (acl : RichACL) (posix_acl : Posix.AccessControlList) (is_dir : bool) : RichACL :=
  let x := file_only is_dir in
  let rights r := minus (convertMode2Mask r) x in
  let owner := rights (Posix.getOwnerRights posix_acl) in
  let group := rights (Posix.getGroupRights posix_acl) in
  let other := rights (Posix.getOtherRights posix_acl) in
  if Posix.minimalAcl posix_acl then
    MkRichACL owner group other (Z.lor kMasked kWriteThrough) (ace_list_ acl)
  else
    let l := ace_list_ acl ++
      [make_ace kAccessAllowedAceType kSpecialWho owner kOwnerSpecialId;
       make_ace kAccessAllowedAceType kSpecialWho group kGroupSpecialId] ++
      concat (named_ace x <$> Posix.list_ posix_acl) ++
      [make_ace kAccessAllowedAceType kSpecialWho other kEveryoneSpecialId] in
    let l := isolateWho l (special kOwnerSpecialId) other in
    let l := isolateGroupClass 0 l other in
    let group_mask := allowedToWho l (special kGroupSpecialId) in
    let masked := negb (Posix.getMaskRights posix_acl =? Posix.kMaskUnset) in
    MkRichACL (allowedToWho l (special kOwnerSpecialId))
      (if masked then rights (Posix.getMaskRights posix_acl) else group_mask)
      (allowedToWho l (special kEveryoneSpecialId)) (if masked then kMasked else 0) l.

Definition default_flags : Z := Z.lor (Z.lor kFileInheritAce kDirectoryInheritAce) kInheritOnlyAce.

Definition appendDefaultPosixACL (acl : RichACL) (posix_acl : Posix.AccessControlList) : RichACL :=
  with_aces acl (ace_list_ acl ++
    ((fun a => set_flags a (Z.lor (ace_flags a) default_flags)) <$>
       ace_list_ (appendPosixACL empty_acl posix_acl true))).

Definition hasGroupEntry (acl : RichACL) : bool :=
  existsb (fun a => negb (isInheritOnly a) && isGroup a) (ace_list_ acl).

(** The loop of convertToPosixACL() over the entries of users and groups. *)
Definition posix_step (l : list Ace) (acc : option Posix.AccessControlList) (a : Ace)
  : option Posix.AccessControlList :=
  posix_acl ← acc;
  if isInheritOnly a then Some posix_acl
  else if isUnixUser a || isUnixGroup a then
    let type := if isUnixUser a then Posix.kNamedUser else Posix.kNamedGroup in
    if Posix.is_valid (Posix.get_named posix_acl type (ace_id a))
    then Some posix_acl
    else Posix.setEntry posix_acl type (ace_id a) (convertMask2Mode (allowedToWho l a))
  else Some posix_acl.

(** convertToPosixACL(): [Some None] when there is no ACL. *)
Definition convertToPosixACL (acl : RichACL) : option (option Posix.AccessControlList) :=
  if negb (isMasked acl) && bool_decide (ace_list_ acl = []) then Some None
  else
    let l := ace_list_ acl in
    let limit m mask := if isMasked acl then Z.land m mask else m in
    let owner := limit (if isWriteThrough acl then owner_mask_ acl
                        else allowedToWho l (special kOwnerSpecialId)) (owner_mask_ acl) in
    let group := if isWriteThrough acl && negb (hasGroupEntry acl) then group_mask_ acl
                 else allowedToWho l (special kGroupSpecialId) in
    let other := limit (if isWriteThrough acl then other_mask_ acl
                        else allowedToWho l (special kEveryoneSpecialId)) (other_mask_ acl) in
    let mode := Z.lor (Z.lor (Z.shiftl (convertMask2Mode owner) 6) (Z.shiftl (convertMask2Mode group) 3))
                  (convertMask2Mode other) in
    posix_acl ← foldl (posix_step l) (Some (Posix.setMode Posix.empty mode)) l;
    if isMasked acl && hasGroupEntry acl
    then posix_acl ← Posix.setEntry posix_acl Posix.kMask 0 (convertMask2Mode (group_mask_ acl)); Some (Some posix_acl)
    else Some (Some posix_acl).

