(* ===== verification/AclText.v ===== *)
(** The text forms of access control lists, which the changelog carries: RichACLs (src/common/richacl_string.cc) and POSIX
    lists (src/common/access_control_list.cc).  An exception is [None]. *)
From Stdlib Require Import String Ascii.
From S2P Require Import Prelude Serialization Text RichACL AclPosix.

(** ** RichACLs *)

Definition kDefaulted : Z := 0x04.
Definition kReadNamedAttrs : Z := 0x00000008.
Definition kWriteNamedAttrs : Z := 0x00000010.
Definition kWriteRetention : Z := 0x00000200.
Definition kWriteRetentionHold : Z := 0x00000400.
Definition kDelete : Z := 0x00010000.

(** The tables: characters and flags. *)
Definition kAclFlagBits : list (Z * Z) :=
  [(chr "m", kMasked); (chr "w", kWriteThrough); (chr "a", kAutoInherit); (chr "p", kProtected); (chr "d", kDefaulted)].

Definition kAceFlagBits : list (Z * Z) :=
  [(chr "f", kFileInheritAce); (chr "d", kDirectoryInheritAce); (chr "n", kNoPropagateInheritAce); (chr "i", kInheritOnlyAce);
   (chr "a", kInheritedAce); (chr "S", kSpecialWho)].

Definition kMaskFlags : list (Z * Z) :=
  [(chr "r", kReadData); (chr "r", kListDirectory); (chr "w", kWriteData); (chr "w", kAddFile); (chr "p", kAppendData);
   (chr "p", kAddSubdirectory); (chr "x", kExecute); (chr "d", kDeleteChild); (chr "D", kDelete); (chr "a", kReadAttributes);
   (chr "A", kWriteAttributes); (chr "R", kReadNamedAttrs); (chr "W", kWriteNamedAttrs); (chr "c", kReadAcl); (chr "C", kWriteAcl);
   (chr "o", kWriteOwner); (chr "S", kSynchronize); (chr "e", kWriteRetention); (chr "E", kWriteRetentionHold)].

(** The loop of writeACLFlags(), writeAceFlags() and writeMask(). *)
Fixpoint write_flags (table : list (Z * Z)) (flags : Z) : list Z :=
  match table with
  | [] => []
  | (c, f) :: table => if has flags f then c :: write_flags table (minus flags f) else write_flags table flags
  end.

Definition writeACLFlags (flags : Z) : list Z := write_flags kAclFlagBits (u8 flags).
Definition writeAceFlags (flags : Z) : list Z := write_flags kAceFlagBits (minus flags (Z.lor kIdentifierGroup kSpecialWho)).
Definition writeMask (mask : Z) : list Z := write_flags kMaskFlags mask.

Definition writeType (type : Z) : list Z :=
  if type =? kAccessAllowedAceType then txt "A" else if type =? kAccessDeniedAceType then txt "D" else [type].

Definition writeIdentifier (a : Ace) : list Z :=
  if has (ace_flags a) kSpecialWho then
    if ace_id a =? kOwnerSpecialId then txt "O" else if ace_id a =? kGroupSpecialId then txt "G"
    else if ace_id a =? kEveryoneSpecialId then txt "E" else []
  else if has (ace_flags a) kIdentifierGroup then txt "g" ++ dec (ace_id a)
  else txt "u" ++ dec (ace_id a).

Definition ace_toString (a : Ace) : list Z :=
  writeMask (ace_mask a) ++ txt ":" ++ writeAceFlags (ace_flags a) ++ txt ":" ++ writeType (ace_type a) ++ txt ":" ++
  writeIdentifier a ++ txt "/".

Definition toString (acl : RichACL) : list Z :=
  writeACLFlags (flags_ acl) ++ txt "|" ++ writeMask (owner_mask_ acl) ++ txt "|" ++ writeMask (group_mask_ acl) ++ txt "|" ++
  writeMask (other_mask_ acl) ++ txt "|" ++ concat (ace_toString <$> ace_list_ acl).

(** The first loop of getAclFlags(), getAceMask() and getAceFlags(): one pass over the table. *)
Fixpoint sorted_pass (table : list (Z * Z)) (s : list Z) (flags : Z) : Z * list Z :=
  match table, s with
  | (c, f) :: table, x :: s' => if x =? c then sorted_pass table s' (Z.lor flags f) else sorted_pass table s flags
  | _, _ => (flags, s)
  end.

(** The second loop: characters in any order. *)
Fixpoint any_order (table : list (Z * Z)) (s : list Z) (flags : Z) : option Z :=
  match s with
  | [] => Some flags
  | x :: s =>
    match List.find (fun '(c, _) => x =? c) table with
    | None => None
    | Some (_, f) => any_order table s (Z.lor flags f)
    end
  end.

Definition read_flags (table : list (Z * Z)) (s : list Z) : option Z :=
  let '(flags, s) := sorted_pass table s 0 in any_order table s flags.

Definition getAceType (s : list Z) : option Z :=
  match s with
  | c :: _ => if c =? chr "A" then Some kAccessAllowedAceType else if c =? chr "D" then Some kAccessDeniedAceType else None
  | [] => None
  end.

(** A number that std::stoull() does not take is the largest id. *)
Definition read_id (s : list Z) : Z := match stoull s with Some (id, _) => u32 id | None => uint32_max end.

Definition setAceIdentifier (a : Ace) (s : list Z) : option Ace :=
  match s with
  | [] => None
  | c :: s =>
    let special id := Some (MkAce (ace_type a) (Z.lor (ace_flags a) kSpecialWho) (ace_mask a) id) in
    if c =? chr "O" then special kOwnerSpecialId
    else if c =? chr "G" then special kGroupSpecialId
    else if c =? chr "E" then special kEveryoneSpecialId
    else if c =? chr "u" then Some (MkAce (ace_type a) (ace_flags a) (ace_mask a) (read_id s))
    else if c =? chr "g" then Some (MkAce (ace_type a) (Z.lor (ace_flags a) kIdentifierGroup) (ace_mask a) (read_id s))
    else None
  end.

(** The text up to the first [delim], and what follows it. *)
Fixpoint cut (delim : Z) (s : list Z) : option (list Z * list Z) :=
  match s with
  | [] => None
  | c :: s => if c =? delim then Some ([], s) else '(a, b) ← cut delim s; Some (c :: a, b)
  end.

Definition read_ace (s : list Z) : option (Ace * list Z) :=
  '(a, s) ← cut (chr ":") s;
  mask ← read_flags kMaskFlags a;
  '(a, s) ← cut (chr ":") s;
  flags ← read_flags kAceFlagBits a;
  '(a, s) ← cut (chr ":") s;
  type ← getAceType a;
  '(a, s) ← cut (chr "/") s;
  ace ← setAceIdentifier (make_ace type flags mask 0) a;
  Some (ace, s).

(** The loop over the entries; an entry takes at least one character. *)
Fixpoint read_aces (fuel : nat) (s : list Z) (acl : RichACL) : option RichACL :=
  match s, fuel with
  | [], _ => Some acl
  | _, O => None
  | _, S fuel => '(a, s) ← read_ace s; read_aces fuel s (insert_ace acl a)
  end.

Definition fromString (s : list Z) : option RichACL :=
  '(a, s) ← cut (chr "|") s;
  flags ← read_flags kAclFlagBits a;
  '(a, s) ← cut (chr "|") s;
  owner ← read_flags kMaskFlags a;
  '(a, s) ← cut (chr "|") s;
  group ← read_flags kMaskFlags a;
  '(a, s) ← cut (chr "|") s;
  other ← read_flags kMaskFlags a;
  read_aces (length s) s (MkRichACL owner group other flags []).

(** ** POSIX lists *)

Module PosixText.
Import Posix.

Definition accessMaskToChar (mask : Z) : Z := if 7 <? mask then chr "?" else chr "0" + mask.

Definition accessMaskFromChar (c : Z) : option Z := if (chr "0" <=? c) && (c <=? chr "7") then Some (c - chr "0") else None.

Definition entryTypeFromChar (c : Z) : EntryType :=
  if c =? chr "u" then kNamedUser else if c =? chr "g" then kNamedGroup else if c =? chr "m" then kMask else kInvalid.

Definition named_toString (e : Entry) : list Z :=
  match entry_type e with
  | kNamedUser => txt "/u:" ++ dec (entry_id e) ++ txt ":" ++ [accessMaskToChar (access_rights e)]
  | kNamedGroup => txt "/g:" ++ dec (entry_id e) ++ txt ":" ++ [accessMaskToChar (access_rights e)]
  | _ => []
  end.

Definition toString (acl : AccessControlList) : list Z :=
  txt "A" ++ [accessMaskToChar (getOwnerRights acl); accessMaskToChar (getGroupRights acl); accessMaskToChar (getOtherRights acl)] ++
  concat (named_toString <$> list_ acl) ++
  (if negb (getMaskRights acl =? kMaskUnset) then txt "/m::" ++ [accessMaskToChar (getMaskRights acl)] else []).

(** eat() with a prefix of one character; the text ends with a zero. *)
Definition eat (c : Z) (s : list Z) : option (list Z) := match s with x :: s => if x =? c then Some s else None | [] => None end.

Definition next_mask (s : list Z) : option (Z * list Z) :=
  match s with c :: s => mask ← accessMaskFromChar c; Some (mask, s) | [] => None end.

Definition set_basic_entries (s : list Z) : option (AccessControlList * list Z) :=
  '(u, s) ← next_mask s;
  acl ← setEntry empty kUser 0 u;
  '(g, s) ← next_mask s;
  acl ← setEntry acl kGroup 0 g;
  '(o, s) ← next_mask s;
  acl ← setEntry acl kOther 0 o;
  Some (acl, s).

Definition read_entry (s : list Z) (acl : AccessControlList) : option (AccessControlList * list Z) :=
  s ← eat (chr "/") s;
  let '(type, s) := match s with c :: s => (entryTypeFromChar c, s) | [] => (kInvalid, []) end in
  s ← eat (chr ":") s;
  '(id, s) ← (if match s with c :: _ => c =? chr ":" | [] => false end then Some (uint32_max, s)
              else let '(id, rest) := strtol s in if bool_decide (rest = s) then None else Some (u32 id, rest));
  s ← eat (chr ":") s;
  '(mask, s) ← next_mask s;
  if bool_decide (type = kInvalid) then None
  else
    e ← getEntry acl type id;
    if is_valid e then None
    else if (id =? uint32_max) && (bool_decide (type = kNamedUser) || bool_decide (type = kNamedGroup)) then None
    else acl ← setEntry acl type id mask; Some (acl, s).

Fixpoint read_entries (fuel : nat) (s : list Z) (acl : AccessControlList) : option AccessControlList :=
  match s, fuel with
  | [], _ => Some acl
  | _, O => None
  | _, S fuel => '(acl, s) ← read_entry s acl; read_entries fuel s acl
  end.

Definition fromString (s : list Z) : option AccessControlList :=
  if (length s <? 4)%nat then None
  else
    s ← eat (chr "A") s;
    '(acl, s) ← set_basic_entries s;
    read_entries (length s) s acl.

End PosixText.

(** ** Flags are read back *)

Definition all_flags (table : list (Z * Z)) : Z := foldr (fun '(_, f) acc => Z.lor f acc) 0 table.

(** A table whose flags are single bits, with one flag for each character. *)
Definition table_ok (table : list (Z * Z)) : Prop :=
  Forall (fun '(_, f) => exists k, 0 <= k /\ f = 2 ^ k) table /\
  forall c f f', (c, f) ∈ table -> (c, f') ∈ table -> f = f'.

Lemma write_flags_head table m c s : write_flags table m = c :: s -> exists f, (c, f) ∈ table /\ has m f = true.
Proof.
  induction table as [|[c' f'] table IH]; [done|]. cbn [write_flags]. destruct (has m f') eqn:E.
  - intros [= <- _]. exists f'. split; [set_solver|done].
  - intros H. destruct (IH H) as (f & Hin & Hf). exists f. split; [set_solver|done].
Qed.

Lemma write_flags_chars table m : Forall (fun c => c ∈ table.*1) (write_flags table m).
Proof.
  revert m. induction table as [|[c f] table IH]; intros m; cbn [write_flags]; [constructor|].
  destruct (has m f); [constructor; [set_solver|]|]; (eapply Forall_impl; [apply IH|]); intros c' Hc'; cbn; set_solver.
Qed.

Lemma sorted_pass_write table m acc :
  table_ok table -> sorted_pass table (write_flags table m) acc = (Z.lor acc (Z.land m (all_flags table)), []).
Proof.
  revert m acc. induction table as [|[c f] table IH]; intros m acc [Hbits Huniq].
  { cbn [write_flags sorted_pass all_flags foldr]. by rewrite Z.land_0_r, Z.lor_0_r. }
  apply Forall_cons in Hbits as [(k & Hk & ->) Hbits].
  assert (table_ok table) as Hok by (split; [done|]; intros ???; set_solver).
  cbn [write_flags all_flags foldr]. fold (all_flags table). rewrite has_bit by done. destruct (Z.testbit m k) eqn:Em.
  - cbn [sorted_pass]. rewrite Z.eqb_refl, IH by done. f_equal. apply Z.bits_inj'. intros b Hb. unfold minus.
    rewrite !Z.lor_spec, !Z.land_spec, Z.ldiff_spec, Z.lor_spec, Z.pow2_bits_eqb by done.
    destruct (Z.eqb_spec k b) as [<-|]; [rewrite Em|]; destruct (Z.testbit acc _), (Z.testbit (all_flags table) _); simpl; by rewrite ?andb_true_r.
  - assert (Z.land m (Z.lor (2 ^ k) (all_flags table)) = Z.land m (all_flags table)) as ->.
    { apply Z.bits_inj'. intros b Hb. rewrite !Z.land_spec, Z.lor_spec, Z.pow2_bits_eqb by done.
      destruct (Z.eqb_spec k b) as [<-|]; [by rewrite Em|done]. }
    rewrite <-IH by done. destruct (write_flags table m) as [|x s] eqn:E; [by destruct table as [|[? ?] ?]|].
    cbn [sorted_pass]. destruct (Z.eqb_spec x c) as [->|]; [|done]. destruct (write_flags_head _ _ _ _ E) as (f' & Hin & Hf').
    assert (2 ^ k = f') as <- by (eapply (Huniq c); set_solver). rewrite has_bit in Hf' by done. congruence.
Qed.

Lemma read_write_flags table m :
  table_ok table -> Z.land m (all_flags table) = m -> read_flags table (write_flags table m) = Some m.
Proof. intros Hok Hm. unfold read_flags. rewrite sorted_pass_write by done. cbn [any_order]. by rewrite Z.lor_0_l, Hm. Qed.

Definition table_check (table : list (Z * Z)) : bool :=
  forallb (fun '(_, f) => f =? 2 ^ Z.log2 f) table &&
  forallb (fun '(c, f) => forallb (fun '(c', f') => implb (c =? c') (f =? f')) table) table.

Lemma table_checked table : table_check table = true -> table_ok table.
Proof.
  intros [H1 H2]%andb_true_iff. split.
  - apply Forall_forall. intros [c f] Hin%list_elem_of_In. pose proof (proj1 (forallb_forall _ _) H1 _ Hin) as E. cbn in E. apply Z.eqb_eq in E.
    exists (Z.log2 f). split; [apply Z.log2_nonneg|done].
  - intros c f f' Hin%list_elem_of_In Hin'%list_elem_of_In. pose proof (proj1 (forallb_forall _ _) H2 _ Hin) as E. cbn in E.
    pose proof (proj1 (forallb_forall _ _) E _ Hin') as E'. cbn in E'. rewrite Z.eqb_refl in E'. by apply Z.eqb_eq.
Qed.

Lemma aclFlags_ok : table_ok kAclFlagBits.
Proof. by apply table_checked. Qed.

Lemma aceFlags_ok : table_ok kAceFlagBits.
Proof. by apply table_checked. Qed.

Lemma maskFlags_ok : table_ok kMaskFlags.
Proof. by apply table_checked. Qed.

(** ** Lists are read back *)

Lemma cut_app d s rest : Forall (fun c => c <> d) s -> cut d (s ++ d :: rest) = Some (s, rest).
Proof.
  induction 1 as [|c s Hc H IH]; cbn [app cut]; [by rewrite Z.eqb_refl|]. rewrite (proj2 (Z.eqb_neq c d) Hc), IH. done.
Qed.

(** The characters of a table are none of the separators. *)
Lemma cut_flags d table m rest :
  forallb (fun '(c, _) => negb (c =? d)) table = true -> cut d (write_flags table m ++ d :: rest) = Some (write_flags table m, rest).
Proof.
  intros H. apply cut_app. eapply Forall_impl; [apply write_flags_chars|]. intros c Hc. apply list_elem_of_fmap in Hc as ([c' f] & -> & Hin).
  apply list_elem_of_In in Hin. pose proof (proj1 (forallb_forall _ _) H _ Hin) as E. by apply negb_true_iff, Z.eqb_neq in E.
Qed.

Definition kIdentifierFlags : Z := Z.lor kIdentifierGroup kSpecialWho.

(** What the text of an entry keeps: the two types, the permissions and flags of the tables, the special identifiers. *)
Definition ace_printable (a : Ace) : bool :=
  ((ace_type a =? kAccessAllowedAceType) || (ace_type a =? kAccessDeniedAceType)) &&
  (Z.land (ace_mask a) (all_flags kMaskFlags) =? ace_mask a) &&
  (Z.land (ace_flags a) (Z.lor kInheritanceFlags kIdentifierFlags) =? ace_flags a) &&
  (if has (ace_flags a) kSpecialWho
   then negb (has (ace_flags a) kIdentifierGroup) && (0 <=? ace_id a) && (ace_id a <=? kEveryoneSpecialId)
   else (0 <=? ace_id a) && (ace_id a <? 2 ^ 32)).

Definition acl_printable (acl : RichACL) : bool :=
  (Z.land (flags_ acl) (all_flags kAclFlagBits) =? flags_ acl) &&
  (Z.land (owner_mask_ acl) (all_flags kMaskFlags) =? owner_mask_ acl) &&
  (Z.land (group_mask_ acl) (all_flags kMaskFlags) =? group_mask_ acl) &&
  (Z.land (other_mask_ acl) (all_flags kMaskFlags) =? other_mask_ acl) &&
  forallb ace_printable (ace_list_ acl).

Lemma wrap_within w m u : 0 <= w -> Z.land u (Z.ones w) = u -> Z.land m u = m -> wrap w m = m.
Proof. intros Hw Hu Hm. unfold wrap. rewrite <-Z.land_ones by done. rewrite <-Hm, <-Z.land_assoc, Hu. done. Qed.

Lemma mask_fits m : Z.land m (all_flags kMaskFlags) = m -> wrap 21 m = m.
Proof. apply wrap_within; [lia|]. by vm_compute. Qed.

Lemma flags_fit f : Z.land f (all_flags kAceFlagBits) = f -> wrap 9 f = f.
Proof. apply wrap_within; [lia|]. by vm_compute. Qed.

(** The flags of an entry without those of its identifier, which its identifier gives back. *)
Lemma plain_flags_ok f :
  Z.land f (Z.lor kInheritanceFlags kIdentifierFlags) = f -> Z.land (minus f kIdentifierFlags) (all_flags kAceFlagBits) = minus f kIdentifierFlags.
Proof.
  intros Hf. apply Z.bits_inj'. intros b Hb. rewrite Z.land_spec. unfold minus. rewrite Z.ldiff_spec.
  destruct (Z.testbit f b) eqn:E; [|done]. rewrite <-Hf, Z.land_spec in E. apply andb_true_iff in E as [_ E].
  change (Z.lor kInheritanceFlags kIdentifierFlags) with 463 in E. change (all_flags kAceFlagBits) with 399. change kIdentifierFlags with 320.
  assert (b < 9) as Hlt.
  { destruct (Z.lt_ge_cases b 9) as [|Hge]; [done|]. rewrite Z.bits_above_log2 in E; [done..|]. change (Z.log2 463) with 8. lia. }
  assert (b = 0 \/ b = 1 \/ b = 2 \/ b = 3 \/ b = 4 \/ b = 5 \/ b = 6 \/ b = 7 \/ b = 8) as Hcases by lia.
  destruct Hcases as [->|[->|[->|[->|[->|[->|[->|[->| ->]]]]]]]]; done.
Qed.

Lemma identifier_flags f :
  Z.land f kIdentifierFlags = Z.lor (if has f kSpecialWho then kSpecialWho else 0) (if has f kIdentifierGroup then kIdentifierGroup else 0).
Proof.
  change kIdentifierFlags with (Z.lor (2 ^ 8) (2 ^ 6)). change kSpecialWho with (2 ^ 8). change kIdentifierGroup with (2 ^ 6).
  rewrite !has_bit by lia. apply Z.bits_inj'. intros b Hb. rewrite Z.land_spec, !Z.lor_spec, !Z.pow2_bits_eqb by lia.
  destruct (Z.eqb_spec 8 b) as [<-|H8]; [|destruct (Z.eqb_spec 6 b) as [<-|H6]].
  - destruct (Z.testbit f 8), (Z.testbit f 6); done.
  - destruct (Z.testbit f 8), (Z.testbit f 6); done.
  - rewrite andb_false_r. destruct (Z.testbit f 8), (Z.testbit f 6); rewrite ?Z.pow2_bits_eqb, ?Z.bits_0 by lia;
      rewrite ?(proj2 (Z.eqb_neq _ _) H8), ?(proj2 (Z.eqb_neq _ _) H6); done.
Qed.

Lemma flags_back f : Z.lor (minus f kIdentifierFlags) (Z.land f kIdentifierFlags) = f.
Proof.
  apply Z.bits_inj'. intros b Hb. unfold minus. rewrite Z.lor_spec, Z.ldiff_spec, Z.land_spec.
  by destruct (Z.testbit f b), (Z.testbit kIdentifierFlags b).
Qed.

Lemma read_id_dec id : is_uint 32 id -> read_id (dec id) = id.
Proof.
  intros Hid. unfold read_id. rewrite <-(app_nil_r (dec id)), stoull_dec; [|unfold is_uint in *; lia|done]. unfold u32, wrap. by apply Z.mod_small.
Qed.

(** The identifier of an entry. *)
Lemma identifier_back a :
  ace_printable a = true ->
  setAceIdentifier (MkAce (ace_type a) (minus (ace_flags a) kIdentifierFlags) (ace_mask a) 0) (writeIdentifier a) = Some a /\
  Forall (fun c => c <> chr "/") (writeIdentifier a).
Proof.
  destruct a as [type flags mask id]. unfold ace_printable, writeIdentifier. cbn [ace_type ace_flags ace_mask ace_id].
  intros [_ Hid]%andb_true_iff. pose proof (flags_back flags) as Hf. rewrite identifier_flags in Hf. destruct (has flags kSpecialWho).
  - apply andb_true_iff in Hid as [[Hg H0]%andb_true_iff H2]. apply negb_true_iff in Hg. rewrite Hg, Z.lor_0_r in Hf.
    assert (id = 0 \/ id = 1 \/ id = 2) as Hcases by (unfold kEveryoneSpecialId in *; lia).
    destruct Hcases as [->|[->| ->]]; (split; [|by repeat constructor]); cbn; by rewrite Hf.
  - assert (is_uint 32 id) as Hid' by (unfold is_uint; lia). rewrite Z.lor_0_l in Hf.
    assert (Forall (fun c => c <> chr "/") (dec id)) as Hdec.
    { eapply Forall_impl; [apply dec_digits; apply Hid'|]. intros c. unfold is_digit. change (chr "/") with 47. lia. }
    destruct (has flags kIdentifierGroup); (split; [|by constructor]).
    + change (setAceIdentifier _ (txt "g" ++ dec id)) with (Some (MkAce type (Z.lor (minus flags kIdentifierFlags) kIdentifierGroup) mask (read_id (dec id)))).
      by rewrite Hf, read_id_dec.
    + rewrite Z.lor_0_r in Hf.
      change (setAceIdentifier _ (txt "u" ++ dec id)) with (Some (MkAce type (minus flags kIdentifierFlags) mask (read_id (dec id)))).
      by rewrite Hf, read_id_dec.
Qed.

(** A field of flags and its separator. *)
Lemma read_field {B} d table m rest (k : Z -> list Z -> option B) :
  table_ok table -> forallb (fun '(c, _) => negb (c =? d)) table = true -> Z.land m (all_flags table) = m ->
  ('(a, s) ← cut d (write_flags table m ++ [d] ++ rest); flags ← read_flags table a; k flags s) = k m rest.
Proof. intros Hok Hd Hm. cbn [app]. rewrite cut_flags by done. cbn [mbind option_bind]. by rewrite read_write_flags. Qed.

Lemma read_type {B} type rest (k : Z -> list Z -> option B) :
  (type =? kAccessAllowedAceType) || (type =? kAccessDeniedAceType) = true ->
  ('(a, s) ← cut (chr ":") (writeType type ++ [chr ":"] ++ rest); type ← getAceType a; k type s) = k type rest.
Proof. intros [->%Z.eqb_eq| ->%Z.eqb_eq]%orb_true_iff; reflexivity. Qed.

Lemma read_identifier a rest :
  ace_printable a = true ->
  ('(s1, s) ← cut (chr "/") (writeIdentifier a ++ [chr "/"] ++ rest);
   ace ← setAceIdentifier (make_ace (ace_type a) (minus (ace_flags a) kIdentifierFlags) (ace_mask a) 0) s1; Some (ace, s)) = Some (a, rest).
Proof.
  intros Ha. destruct (identifier_back a Ha) as [Hid Hslash]. cbn [app]. rewrite cut_app by done. cbn [mbind option_bind].
  apply andb_true_iff in Ha as [[[Ht Hm%Z.eqb_eq]%andb_true_iff Hf%Z.eqb_eq]%andb_true_iff _]. unfold make_ace.
  rewrite (mask_fits _ Hm), (flags_fit _ (plain_flags_ok _ Hf)).
  assert (wrap 2 (ace_type a) = ace_type a) as -> by (apply orb_true_iff in Ht as [->%Z.eqb_eq| ->%Z.eqb_eq]; done).
  by rewrite Hid.
Qed.

Lemma ace_toString_fields a rest :
  ace_toString a ++ rest = write_flags kMaskFlags (ace_mask a) ++ [chr ":"] ++ write_flags kAceFlagBits (minus (ace_flags a) kIdentifierFlags) ++
    [chr ":"] ++ writeType (ace_type a) ++ [chr ":"] ++ writeIdentifier a ++ [chr "/"] ++ rest.
Proof. unfold ace_toString, writeMask, writeAceFlags. by rewrite <-!app_assoc. Qed.

Lemma read_ace_back a rest : ace_printable a = true -> read_ace (ace_toString a ++ rest) = Some (a, rest).
Proof.
  intros Ha. rewrite ace_toString_fields. pose proof Ha as [[[Ht Hm%Z.eqb_eq]%andb_true_iff Hf%Z.eqb_eq]%andb_true_iff _]%andb_true_iff. unfold read_ace.
  rewrite (read_field (chr ":") kMaskFlags _ _ _ maskFlags_ok eq_refl Hm), (read_field (chr ":") kAceFlagBits _ _ _ aceFlags_ok eq_refl (plain_flags_ok _ Hf)).
  rewrite (read_type _ _ _ Ht). by apply read_identifier.
Qed.

Lemma read_aces_back l : forall fuel acl,
  forallb ace_printable l = true -> (length (concat (ace_toString <$> l)) <= fuel)%nat ->
  read_aces fuel (concat (ace_toString <$> l)) acl = Some (with_aces acl (ace_list_ acl ++ l)).
Proof.
  induction l as [|a l IH]; intros fuel acl Hl Hfuel; cbn [fmap list_fmap concat forallb] in *.
  - rewrite app_nil_r. destruct fuel, acl; done.
  - apply andb_true_iff in Hl as [Ha Hl]. change (concat (ace_toString <$> a :: l)) with (ace_toString a ++ concat (ace_toString <$> l)) in *.
    rewrite length_app in Hfuel. assert (0 < length (ace_toString a))%nat by (unfold ace_toString; rewrite !length_app; simpl; lia).
    destruct fuel as [|fuel]; [lia|]. pose proof (read_ace_back a (concat (ace_toString <$> l)) Ha) as E.
    destruct (ace_toString a ++ concat (ace_toString <$> l)) as [|c s] eqn:Es; [by destruct (ace_toString a)|]. cbn [read_aces]. rewrite E.
    cbn [mbind option_bind]. rewrite IH by (done || lia). unfold insert_ace, with_aces. cbn [ace_list_ owner_mask_ group_mask_ other_mask_ flags_].
    by rewrite <-app_assoc.
Qed.

Lemma toString_fields acl :
  u8 (flags_ acl) = flags_ acl ->
  toString acl = write_flags kAclFlagBits (flags_ acl) ++ [chr "|"] ++ write_flags kMaskFlags (owner_mask_ acl) ++ [chr "|"] ++
    write_flags kMaskFlags (group_mask_ acl) ++ [chr "|"] ++ write_flags kMaskFlags (other_mask_ acl) ++ [chr "|"] ++
    concat (ace_toString <$> ace_list_ acl).
Proof. intros E. unfold toString, writeACLFlags, writeMask. by rewrite E. Qed.

(** The text of a list that has nothing but what the tables name gives the list back. *)
Lemma fromString_toString acl : acl_printable acl = true -> fromString (toString acl) = Some acl.
Proof.
  intros [[[[Hf%Z.eqb_eq Ho%Z.eqb_eq]%andb_true_iff Hg%Z.eqb_eq]%andb_true_iff Ht%Z.eqb_eq]%andb_true_iff Hl]%andb_true_iff.
  rewrite toString_fields by (apply (wrap_within 8 _ (all_flags kAclFlagBits)); [lia|by vm_compute|done]). unfold fromString.
  rewrite (read_field (chr "|") kAclFlagBits _ _ _ aclFlags_ok eq_refl Hf), (read_field (chr "|") kMaskFlags _ _ _ maskFlags_ok eq_refl Ho).
  rewrite (read_field (chr "|") kMaskFlags _ _ _ maskFlags_ok eq_refl Hg), (read_field (chr "|") kMaskFlags _ _ _ maskFlags_ok eq_refl Ht).
  rewrite read_aces_back by done. by destruct acl.
Qed.

(** ** POSIX lists are read back *)

Module PosixTextProofs.
Import Posix PosixText.

(** Named entries in the order of the list, each user and group once. *)
Definition key_below (a b : Entry) : Prop :=
  type_rank (entry_type a) < type_rank (entry_type b) \/
  type_rank (entry_type a) = type_rank (entry_type b) /\ entry_id a < entry_id b.

Definition entry_printable (e : Entry) : Prop :=
  (entry_type e = kNamedUser \/ entry_type e = kNamedGroup) /\ 0 <= entry_id e < uint32_max /\ 0 <= access_rights e <= 7.

Definition rights_printable (acl : AccessControlList) : bool :=
  (getOwnerRights acl <=? 7) && (getGroupRights acl <=? 7) && (getOtherRights acl <=? 7) &&
  ((getMaskRights acl <=? 7) || (getMaskRights acl =? kMaskUnset)).

Definition posix_printable (acl : AccessControlList) : Prop :=
  is_uint 16 (basic_permissions_ acl) /\ rights_printable acl = true /\ (length (list_ acl) <= 65535)%nat /\
  Forall entry_printable (list_ acl) /\ StronglySorted key_below (list_ acl).

(** The four nibbles: written one after the other they give the permissions back. *)
Definition basic_back (b : Z) : Z :=
  let acl := MkAcl [] b in
  let new := setOtherRights (setGroupRights (setOwnerRights empty (getOwnerRights acl)) (getGroupRights acl)) (getOtherRights acl) in
  basic_permissions_ (if getMaskRights acl =? kMaskUnset then new else setMaskRights new (getMaskRights acl)).

(** Bits of a constant. *)
Lemma high_bit x k i : 0 <= x < 2 ^ k -> k <= i -> Z.testbit x i = false.
Proof.
  intros Hx Hi. assert (0 <= k) by (destruct (Z.le_gt_cases 0 k); [done|]; rewrite Z.pow_neg_r in Hx by done; lia).
  rewrite <-(Z.mod_small x (2 ^ k)) by done. by apply Z.mod_pow2_bits_high.
Qed.

Lemma set_basic_bit acl keep shift value i :
  0 <= shift -> 0 <= i ->
  Z.testbit (basic_permissions_ (set_basic acl keep shift value)) i =
    Z.testbit (basic_permissions_ acl) i && Z.testbit keep i || Z.testbit value (i - shift) && Z.testbit 0xF (i - shift).
Proof. intros Hs Hi. unfold set_basic. cbn [basic_permissions_]. by rewrite Z.lor_spec, Z.shiftl_spec, !Z.land_spec by lia. Qed.

(** The bit [i] of a number with sixteen bits, case by case. *)
Ltac each_bit i := assert (i = 0 \/ i = 1 \/ i = 2 \/ i = 3 \/ i = 4 \/ i = 5 \/ i = 6 \/ i = 7 \/ i = 8 \/ i = 9 \/ i = 10 \/ i = 11 \/ i = 12 \/
  i = 13 \/ i = 14 \/ i = 15) as Hcases by lia; destruct_or! Hcases; subst i.

(** The bits of constants are computed, those of the permissions are left. *)
Ltac constant_bits := repeat match goal with
  | |- context [Z.testbit (Zpos ?p) ?k] => let v := eval vm_compute in (Z.testbit (Zpos p) k) in change (Z.testbit (Zpos p) k) with v
  end; rewrite ?andb_false_r, ?andb_true_r, ?orb_false_r, ?orb_false_l.

Lemma basic_bit b i : is_uint 16 b -> 0 <= i < 16 -> Z.testbit (basic_back b) i = Z.testbit b i.
Proof.
  intros Hb Hi. unfold basic_back. assert (forall j, 0 <= j -> Z.testbit (getMaskRights (MkAcl [] b)) j = Z.testbit b (j + 12)) as Hm
    by (intros j Hj; by apply Z.shiftr_spec).
  destruct (Z.eqb_spec (getMaskRights (MkAcl [] b)) kMaskUnset) as [Em|_];
    unfold setMaskRights, setOtherRights, setGroupRights, setOwnerRights, getOwnerRights, getGroupRights, getOtherRights;
    rewrite !set_basic_bit by lia; cbn [basic_permissions_ empty]; each_bit i; constant_bits; rewrite ?Z.land_spec; constant_bits;
    rewrite ?Z.shiftr_spec, ?Hm by lia; try done; rewrite Em in Hm.
  - by apply (Hm 0).
  - by apply (Hm 1).
  - by apply (Hm 2).
  - by apply (Hm 3).
Qed.

Lemma basic_back_ok b : is_uint 16 b -> basic_back b = b.
Proof.
  intros Hb. apply Z.bits_inj'. intros i Hi. destruct (Z.lt_ge_cases i 16) as [Hlt|Hge]; [by apply basic_bit|].
  rewrite (high_bit b 16) by done. unfold basic_back, setMaskRights, setOtherRights, setGroupRights, setOwnerRights.
  destruct (_ =? _); rewrite !set_basic_bit by lia; rewrite !(high_bit (Zpos _) 16), !(high_bit 0xF 4) by lia; by rewrite !andb_false_r.
Qed.

Lemma mask_char m : 0 <= m <= 7 -> accessMaskFromChar (accessMaskToChar m) = Some m.
Proof.
  intros Hm. unfold accessMaskToChar, accessMaskFromChar. rewrite (proj2 (Z.ltb_ge 7 m)) by lia. change (chr "0") with 48. change (chr "7") with 55.
  rewrite (proj2 (Z.leb_le 48 (48 + m))), (proj2 (Z.leb_le (48 + m) 55)) by lia. cbn [andb]. f_equal. lia.
Qed.

Lemma next_mask_char m s : 0 <= m <= 7 -> next_mask (accessMaskToChar m :: s) = Some (m, s).
Proof. intros Hm. cbn [next_mask]. by rewrite mask_char. Qed.

Lemma key_below_ltb a id type rights : key_below a (MkEntry id type rights) -> entry_ltb a (MkEntry id type 0) = true /\ entry_ltb a (MkEntry id type rights) = true.
Proof. unfold key_below, entry_ltb. cbn [entry_type entry_id access_rights]. lia. Qed.

Lemma partition_all {A} (p : A -> bool) l : Forall (fun x => p x = true) l -> partition_point p l = length l.
Proof. induction 1 as [|x l Hx H IH]; simpl; [done|]. by rewrite Hx, IH. Qed.

(** An entry behind all others is not there yet, and is put at the end. *)
Lemma append_entry l basic id type rights :
  (type = kNamedUser \/ type = kNamedGroup) -> 0 <= rights <= 7 -> (length l < 65535)%nat -> Forall (fun e => key_below e (MkEntry id type rights)) l ->
  getEntry (MkAcl l basic) type id = Some invalid /\ setEntry (MkAcl l basic) type id rights = Some (MkAcl (l ++ [MkEntry id type rights]) basic).
Proof.
  intros Ht Hr Hlen Hb.
  assert (lower_bound l type id = length l) as El by (apply partition_all; eapply Forall_impl; [exact Hb|]; intros e He; by apply key_below_ltb in He as [? ?]).
  assert (set_insert entry_ltb l (MkEntry id type rights) = l ++ [MkEntry id type rights]) as Ei.
  { unfold set_insert. rewrite partition_all; [by rewrite lookup_ge_None_2|]. eapply Forall_impl; [exact Hb|]. intros e He. by apply key_below_ltb in He as [? ?]. }
  assert (l !! length l = None) as En by (by apply lookup_ge_None_2).
  unfold getEntry, get_named, setEntry. cbn [list_ basic_permissions_]. rewrite El, En, Ei, (proj2 (Z.leb_le rights 7)) by lia. cbn [negb].
  rewrite (proj2 (Nat.ltb_lt _ _)) by done. by destruct Ht as [-> | ->].
Qed.

Lemma read_named l basic e rest :
  entry_printable e -> (length l < 65535)%nat -> Forall (fun e' => key_below e' e) l ->
  read_entry (named_toString e ++ rest) (MkAcl l basic) = Some (MkAcl (l ++ [e]) basic, rest).
Proof.
  destruct e as [id type rights]. intros (Ht & Hid & Hr) Hlen Hb. cbn [entry_type entry_id access_rights] in *.
  destruct (append_entry l basic id type rights Ht Hr Hlen Hb) as [Eg Es].
  assert (exists c, entryTypeFromChar c = type /\
    named_toString (MkEntry id type rights) ++ rest = chr "/" :: c :: chr ":" :: dec id ++ chr ":" :: accessMaskToChar rights :: rest) as (c & Ec & ->).
  { destruct Ht as [-> | ->]; [exists (chr "u")|exists (chr "g")]; (split; [done|]); unfold named_toString; cbn [entry_type entry_id access_rights];
      rewrite <-!app_assoc; reflexivity. }
  assert (strtol (dec id ++ chr ":" :: accessMaskToChar rights :: rest) = (id, chr ":" :: accessMaskToChar rights :: rest)) as En
    by (apply strtol_dec; [unfold is_uint, uint32_max in *; lia|done]).
  destruct (dec_head id ltac:(lia)) as (d & ds & Ed & Hd). unfold read_entry. cbn [eat]. rewrite Z.eqb_refl. cbn [mbind option_bind eat].
  rewrite Ec, Z.eqb_refl. cbn [mbind option_bind]. rewrite En. rewrite Ed in *. cbn [app].
  assert ((d =? chr ":") = false) as -> by (unfold is_digit in Hd; change (chr ":") with 58; lia).
  rewrite (bool_decide_false (_ :: _ = d :: _)) by (intros E%(f_equal length); simpl in E; rewrite length_app in E; simpl in E; lia). cbn [mbind option_bind eat].
  rewrite Z.eqb_refl. cbn [mbind option_bind]. rewrite next_mask_char by done. cbn [mbind option_bind].
  assert (u32 id = id) as -> by (unfold u32, wrap, uint32_max in *; apply Z.mod_small; lia).
  rewrite bool_decide_false by (by destruct Ht as [-> | ->]). rewrite Eg. cbn [mbind option_bind].
  change (is_valid invalid) with false. cbn [andb]. rewrite (proj2 (Z.eqb_neq id uint32_max)) by lia. cbn [andb]. by rewrite Es.
Qed.

Lemma read_mask acl m :
  getMaskRights acl = kMaskUnset -> 0 <= m <= 7 -> read_entry (txt "/m::" ++ [accessMaskToChar m]) acl = Some (setMaskRights acl m, []).
Proof.
  intros Hm Hr. change (txt "/m::" ++ [accessMaskToChar m]) with (chr "/" :: chr "m" :: chr ":" :: chr ":" :: [accessMaskToChar m]).
  unfold read_entry. repeat (rewrite ?Z.eqb_refl; progress cbn [eat mbind option_bind]). rewrite next_mask_char by done.
  change (entryTypeFromChar (chr "m")) with kMask. cbn [mbind option_bind]. rewrite !bool_decide_false by done.
  unfold getEntry. rewrite Hm, Z.eqb_refl. cbn [mbind option_bind negb]. change (is_valid invalid) with false.
  cbn [andb orb]. unfold setEntry. by rewrite (proj2 (Z.leb_le m 7)) by lia.
Qed.

Lemma read_entries_back es : forall l basic fuel tail,
  Forall entry_printable es -> StronglySorted key_below (l ++ es) -> (length (l ++ es) <= 65535)%nat ->
  (length (concat (named_toString <$> es) ++ tail) <= fuel)%nat ->
  exists fuel', (length tail <= fuel')%nat /\
    read_entries fuel (concat (named_toString <$> es) ++ tail) (MkAcl l basic) = read_entries fuel' tail (MkAcl (l ++ es) basic).
Proof.
  induction es as [|e es IH]; intros l basic fuel tail Hes Hsort Hlen Hfuel.
  { exists fuel. rewrite app_nil_r. done. }
  apply Forall_cons in Hes as [He Hes]. change (concat (named_toString <$> e :: es)) with (named_toString e ++ concat (named_toString <$> es)) in *.
  rewrite <-app_assoc in *. rewrite !length_app in *. cbn [length] in *.
  assert (Forall (fun e' => key_below e' e) l) as Hb.
  { apply Forall_forall. intros e' He'. apply StronglySorted_app in Hsort as (Hcross & _). apply Hcross; set_solver. }
  pose proof (read_named l basic e (concat (named_toString <$> es) ++ tail) He ltac:(lia) Hb) as E.
  destruct (named_toString e ++ concat (named_toString <$> es) ++ tail) as [|c s] eqn:Es.
  { exfalso. destruct He as ([Ht|Ht] & _); unfold named_toString in Es; rewrite Ht in Es; discriminate Es. }
  assert (0 < length (named_toString e))%nat by (destruct He as ([Ht|Ht] & _); unfold named_toString; rewrite Ht; apply Nat.lt_0_succ).
  destruct fuel as [|fuel]; [lia|]. cbn [read_entries]. rewrite E. cbn [mbind option_bind].
  destruct (IH (l ++ [e]) basic fuel tail) as (fuel' & Hf & ->); [done|by rewrite <-app_assoc|rewrite !length_app; cbn [length]; lia|rewrite length_app; lia|].
  exists fuel'. by rewrite <-app_assoc.
Qed.

Lemma set_basic_back o g t s :
  0 <= o <= 7 -> 0 <= g <= 7 -> 0 <= t <= 7 ->
  set_basic_entries (accessMaskToChar o :: accessMaskToChar g :: accessMaskToChar t :: s) =
    Some (setOtherRights (setGroupRights (setOwnerRights empty o) g) t, s).
Proof.
  intros Ho Hg Ht. unfold set_basic_entries.
  assert (forall acl type id r, 0 <= r <= 7 -> setEntry acl type id r = match type with kUser => Some (setOwnerRights acl r) | kGroup => Some (setGroupRights acl r)
    | kOther => Some (setOtherRights acl r) | _ => setEntry acl type id r end) as Hset.
  { intros acl type id r Hr. unfold setEntry. rewrite (proj2 (Z.leb_le r 7)) by lia. by destruct type. }
  do 3 (rewrite next_mask_char by done; cbn [mbind option_bind]; rewrite Hset by done; cbn [mbind option_bind]). done.
Qed.

Lemma start_mask_all :
  forallb (fun o => forallb (fun g => forallb (fun t =>
    getMaskRights (setOtherRights (setGroupRights (setOwnerRights empty o) g) t) =? kMaskUnset) (seqZ 0 8)) (seqZ 0 8)) (seqZ 0 8) = true.
Proof. vm_compute. reflexivity. Qed.

Lemma start_mask o g t :
  0 <= o <= 7 -> 0 <= g <= 7 -> 0 <= t <= 7 -> getMaskRights (setOtherRights (setGroupRights (setOwnerRights empty o) g) t) = kMaskUnset.
Proof.
  intros Ho Hg Ht. assert (forall x, 0 <= x <= 7 -> In x (seqZ 0 8)) as Hin by (intros x Hx; apply list_elem_of_In, elem_of_seqZ; lia).
  pose proof start_mask_all as H. eapply forallb_forall in H; [|by apply (Hin o)]. eapply forallb_forall in H; [|by apply (Hin g)].
  eapply forallb_forall in H; [|by apply (Hin t)]. by apply Z.eqb_eq.
Qed.

(** The text of a POSIX list gives the list back. *)
Lemma posix_fromString_toString acl : posix_printable acl -> PosixText.fromString (PosixText.toString acl) = Some acl.
Proof.
  destruct acl as [l basic]. intros (Hb & Hr & Hlen & Hes & Hsort). cbn [list_ basic_permissions_] in *.
  set (o := getOwnerRights (MkAcl [] basic)). set (g := getGroupRights (MkAcl [] basic)). set (t := getOtherRights (MkAcl [] basic)).
  set (m := getMaskRights (MkAcl [] basic)). set (start := setOtherRights (setGroupRights (setOwnerRights empty o) g) t).
  assert (0 <= o /\ 0 <= g /\ 0 <= t) as (Ho0 & Hg0 & Ht0) by (split_and!; apply Z.land_nonneg; by right).
  assert (0 <= m) as Hm0 by (apply Z.shiftr_nonneg, Hb).
  assert (basic_permissions_ (if m =? kMaskUnset then start else setMaskRights start m) = basic) as Hback by (by apply basic_back_ok).
  assert ((o <=? 7) && (g <=? 7) && (t <=? 7) && ((m <=? 7) || (m =? kMaskUnset)) = true) as Hr' by exact Hr.
  apply andb_true_iff in Hr' as [[[Ho%Z.leb_le Hg%Z.leb_le]%andb_true_iff Ht%Z.leb_le]%andb_true_iff Hm].
  set (tail := if negb (m =? kMaskUnset) then txt "/m::" ++ [accessMaskToChar m] else []).
  assert (PosixText.toString (MkAcl l basic) =
    chr "A" :: accessMaskToChar o :: accessMaskToChar g :: accessMaskToChar t :: concat (named_toString <$> l) ++ tail) as -> by reflexivity.
  destruct (read_entries_back l [] (basic_permissions_ start) (length (concat (named_toString <$> l) ++ tail)) tail Hes Hsort Hlen (Nat.le_refl _))
    as (fuel & Hfuel & E).
  unfold PosixText.fromString. cbn [length Nat.ltb Nat.leb eat]. rewrite Z.eqb_refl. cbn [mbind option_bind]. rewrite set_basic_back by lia.
  cbn [mbind option_bind]. change (setOtherRights _ _) with (MkAcl [] (basic_permissions_ start)). rewrite E. cbn [app]. unfold tail in *.
  destruct (m =? kMaskUnset) eqn:Em; cbn [negb] in *.
  - rewrite <-Hback. by destruct fuel.
  - destruct fuel as [|fuel]; [simpl in Hfuel; lia|]. rewrite orb_false_r in Hm. apply Z.leb_le in Hm.
    pose proof (read_mask (MkAcl l (basic_permissions_ start)) m) as Hread. cbn [read_entries app] in *.
    change (txt "/m::" ++ [accessMaskToChar m]) with (chr "/" :: chr "m" :: chr ":" :: chr ":" :: [accessMaskToChar m]) in *.
    rewrite Hread; [|apply start_mask; lia|lia]. cbn [mbind option_bind]. rewrite <-Hback. by destruct fuel.
Qed.

End PosixTextProofs.
