(* ===== verification/AclStorage.v ===== *)
(** The storage of access control lists (src/master/acl_storage.h and .cc): equal lists are kept once, with the number
    of inodes that have them.  The reference that an inode keeps is the key it refers to; following a reference to an
    erased key is [None], as are the failed assertions. *)
From S2P Require Import Prelude Serialization RichACL.

#[global] Instance Ace_eq_dec : EqDecision Ace.
Proof. solve_decision. Defined.

#[global] Instance Ace_countable : Countable Ace := inj_countable'
  (fun a => (ace_type a, ace_flags a, ace_mask a, ace_id a)) (fun '(t, f, m, i) => MkAce t f m i) ltac:(by intros []).

#[global] Instance RichACL_eq_dec : EqDecision RichACL.
Proof. solve_decision. Defined.

#[global] Instance RichACL_countable : Countable RichACL := inj_countable'
  (fun a => (owner_mask_ a, group_mask_ a, other_mask_ a, flags_ a, ace_list_ a))
  (fun '(o, g, t, f, l) => MkRichACL o g t f l) ltac:(by intros []).

Record AclStorage := MkStorage { storage_ : gmap RichACL Z; acl_ : gmap Z RichACL }.

Definition empty_storage : AclStorage := MkStorage ∅ ∅.

Definition ref (storage : gmap RichACL Z) (acl : RichACL) : option (gmap RichACL Z) :=
  count ← match storage !! acl with Some n => if 0 <? n then Some n else None | None => Some 0 end;
  let count := u64 (count + 1) in
  if 0 <? count then Some (<[acl := count]> storage) else None.

Definition unref (storage : gmap RichACL Z) (acl : RichACL) : option (gmap RichACL Z) :=
  count ← storage !! acl;
  if 0 <? count then
    let count := count - 1 in
    Some (if count =? 0 then delete acl storage else <[acl := count]> storage)
  else None.

(** get(): [Some None] is the null pointer. *)
Definition get (st : AclStorage) (id : Z) : option (option RichACL) :=
  match acl_ st !! id with
  | Some acl => _ ← storage_ st !! acl; Some (Some acl)
  | None => Some None
  end.

Definition set (st : AclStorage) (id : Z) (acl : RichACL) : option AclStorage :=
  storage ← ref (storage_ st) acl;
  match acl_ st !! id with
  | None => Some (MkStorage storage (<[id := acl]> (acl_ st)))
  | Some old => storage ← unref storage old; Some (MkStorage storage (<[id := acl]> (acl_ st)))
  end.

Definition erase (st : AclStorage) (id : Z) : option AclStorage :=
  match acl_ st !! id with
  | None => Some st
  | Some old => storage ← unref (storage_ st) old; Some (MkStorage storage (delete id (acl_ st)))
  end.

Definition storage_setMode (st : AclStorage) (id mode : Z) (is_dir : bool) : option AclStorage :=
  match acl_ st !! id with
  | None => Some st
  | Some old =>
    _ ← storage_ st !! old;
    let acl_with_mode := setMode old mode is_dir in
    if decide (acl_with_mode = old) then Some st
    else
      storage ← unref (storage_ st) old; storage ← ref storage acl_with_mode;
      Some (MkStorage storage (<[id := acl_with_mode]> (acl_ st)))
  end.

(** ** The storage is a map from inodes to lists *)

(** The number of inodes that have a list. *)
Definition users (m : gmap Z RichACL) (acl : RichACL) : Z := Z.of_nat (size (filter (fun kv => kv.2 = acl) m)).

Record represents (st : AclStorage) (m : gmap Z RichACL) : Prop := MkRepresents {
  rep_map : acl_ st = m;
  rep_count : forall acl, storage_ st !! acl = if users m acl =? 0 then None else Some (users m acl);
}.

Lemma users_nonneg m acl : 0 <= users m acl.
Proof. unfold users. lia. Qed.

Lemma users_size m acl : users m acl <= Z.of_nat (size m).
Proof. unfold users. apply inj_le. by apply map_subseteq_size, map_filter_subseteq. Qed.

Lemma users_insert m id acl a :
  m !! id = None -> users (<[id := acl]> m) a = users m a + (if decide (acl = a) then 1 else 0).
Proof.
  intros H. unfold users. rewrite map_filter_insert. simpl. destruct (decide (acl = a)).
  - rewrite map_size_insert_None; [lia|]. apply map_lookup_filter_None. left. done.
  - rewrite delete_id by done. lia.
Qed.

Lemma users_delete m id old a :
  m !! id = Some old -> users m a = users (delete id m) a + (if decide (old = a) then 1 else 0).
Proof.
  intros H. rewrite <-(insert_delete_id m id old H) at 1. apply users_insert. apply lookup_delete_eq.
Qed.

Lemma users_positive m id acl : m !! id = Some acl -> 0 < users m acl.
Proof.
  intros H. rewrite (users_delete m id acl acl H), decide_True by done.
  pose proof (users_nonneg (delete id m) acl). lia.
Qed.

(** Counts that are off by the inodes in [extra]: between the calls of ref() and unref(). *)
Definition counts (storage : gmap RichACL Z) (n : RichACL -> Z) : Prop :=
  forall acl, storage !! acl = if n acl =? 0 then None else Some (n acl).

Lemma ref_counts storage n acl :
  counts storage n -> 0 <= n acl < 2 ^ 64 - 1 ->
  exists storage', ref storage acl = Some storage' /\
    counts storage' (fun a => n a + (if decide (acl = a) then 1 else 0)).
Proof.
  intros Hc Hn. unfold ref. rewrite (Hc acl).
  assert ((match (if n acl =? 0 then None else Some (n acl)) with
    | Some k => if 0 <? k then Some k else None | None => Some 0 end) = Some (n acl)) as ->.
  { destruct (Z.eqb_spec (n acl) 0) as [->|]; [done|]. by rewrite (proj2 (Z.ltb_lt 0 (n acl))) by lia. }
  cbn [mbind option_bind]. unfold u64. rewrite wrap_small by (unfold is_uint; lia).
  rewrite (proj2 (Z.ltb_lt 0 _)) by lia. eexists. split; [done|]. intros a.
  destruct (decide (acl = a)) as [->|Hne].
  - rewrite lookup_insert_eq. rewrite (proj2 (Z.eqb_neq _ 0)) by lia. done.
  - rewrite lookup_insert_ne by done. rewrite Z.add_0_r. apply Hc.
Qed.

Lemma unref_counts storage n acl :
  counts storage n -> 0 < n acl ->
  exists storage', unref storage acl = Some storage' /\
    counts storage' (fun a => n a - (if decide (acl = a) then 1 else 0)).
Proof.
  intros Hc Hn. unfold unref. rewrite (Hc acl), (proj2 (Z.eqb_neq _ 0)) by lia. cbn [mbind option_bind].
  rewrite (proj2 (Z.ltb_lt 0 _)) by lia. eexists. split; [done|]. intros a.
  destruct (decide (acl = a)) as [->|Hne].
  - destruct (n a - 1 =? 0); [apply lookup_delete_eq|apply lookup_insert_eq].
  - rewrite Z.sub_0_r, <-(Hc a). destruct (n acl - 1 =? 0); [by apply lookup_delete_ne|by apply lookup_insert_ne].
Qed.

Lemma counts_ext storage n n' : counts storage n -> (forall a, n a = n' a) -> counts storage n'.
Proof. intros Hc H a. by rewrite <-H. Qed.

Section refinement.
Context (st : AclStorage) (m : gmap Z RichACL) (Hrep : represents st m).

Lemma get_rep id : get st id = Some (m !! id).
Proof.
  unfold get. rewrite (rep_map _ _ Hrep). destruct (m !! id) as [acl|] eqn:E; [|done].
  rewrite (rep_count _ _ Hrep). pose proof (users_positive m id acl E).
  by rewrite (proj2 (Z.eqb_neq _ 0)) by lia.
Qed.

Lemma erase_rep id : exists st', erase st id = Some st' /\ represents st' (delete id m).
Proof.
  destruct Hrep as [Hm Hc]. unfold erase. rewrite Hm. destruct (m !! id) as [old|] eqn:E.
  - destruct (unref_counts _ _ old Hc) as (storage' & -> & Hc'); [by eapply users_positive|].
    simpl. eexists. split; [done|]. split; [done|]. eapply counts_ext; [exact Hc'|].
    intros a. cbn beta. rewrite (users_delete m id old a E). lia.
  - eexists. split; [done|]. rewrite delete_id by done. done.
Qed.

Lemma set_rep id acl :
  Z.of_nat (size m) < 2 ^ 64 - 1 -> exists st', set st id acl = Some st' /\ represents st' (<[id := acl]> m).
Proof.
  intros Hs. destruct Hrep as [Hm Hc]. unfold set. rewrite Hm.
  destruct (ref_counts _ _ acl Hc) as (storage' & -> & Hc').
  { pose proof (users_nonneg m acl). pose proof (users_size m acl). lia. }
  simpl. destruct (m !! id) as [old|] eqn:E.
  - destruct (unref_counts _ _ old Hc') as (storage'' & -> & Hc'').
    { pose proof (users_positive m id old E). destruct (decide (acl = old)); lia. }
    simpl. eexists. split; [done|]. split; [done|]. eapply counts_ext; [exact Hc''|]. intros a. cbn beta.
    rewrite (users_delete m id old a E), <-insert_delete_eq, users_insert by apply lookup_delete_eq. lia.
  - eexists. split; [done|]. split; [done|]. eapply counts_ext; [exact Hc'|]. intros a. cbn beta.
    by rewrite users_insert.
Qed.

Lemma setMode_rep id mode is_dir :
  Z.of_nat (size m) < 2 ^ 64 - 1 ->
  exists st', storage_setMode st id mode is_dir = Some st' /\
    represents st' (alter (fun acl => setMode acl mode is_dir) id m).
Proof.
  intros Hs. destruct Hrep as [Hm Hc]. unfold storage_setMode. rewrite Hm. destruct (m !! id) as [old|] eqn:E.
  2: { eexists. split; [done|]. replace (alter _ id m) with m; [done|]. symmetry. apply map_eq. intros i.
       destruct (decide (i = id)) as [->|]; [by rewrite lookup_alter_eq, E|by rewrite lookup_alter_ne]. }
  pose proof (users_positive m id old E). rewrite (Hc old), (proj2 (Z.eqb_neq _ 0)) by lia. simpl.
  assert (alter (fun acl => setMode acl mode is_dir) id m = <[id := setMode old mode is_dir]> m) as ->.
  { apply map_eq. intros i. destruct (decide (i = id)) as [->|]; [by rewrite lookup_alter_eq, lookup_insert_eq, E|].
    by rewrite lookup_alter_ne, lookup_insert_ne. }
  destruct (decide (setMode old mode is_dir = old)) as [Heq|Hne].
  { eexists. split; [done|]. rewrite Heq, insert_id by done. done. }
  destruct (unref_counts _ _ old Hc) as (storage' & -> & Hc'); [lia|]. simpl.
  destruct (ref_counts _ _ (setMode old mode is_dir) Hc') as (storage'' & -> & Hc'').
  { pose proof (users_nonneg m (setMode old mode is_dir)). pose proof (users_size m (setMode old mode is_dir)).
    rewrite decide_False by done. lia. }
  simpl. eexists. split; [done|]. split; [done|]. eapply counts_ext; [exact Hc''|]. intros a. cbn beta.
  rewrite (users_delete m id old a E), <-insert_delete_eq, users_insert by apply lookup_delete_eq. lia.
Qed.

End refinement.

Lemma represents_empty : represents empty_storage ∅.
Proof. split; [done|]. intros acl. unfold users. rewrite map_filter_empty, map_size_empty. apply lookup_empty. Qed.

(** ** Histories of calls *)

Inductive call := CSet (id : Z) (acl : RichACL) | CErase (id : Z) | CSetMode (id mode : Z) (is_dir : bool).

Definition run_call (st : AclStorage) (c : call) : option AclStorage :=
  match c with
  | CSet id acl => set st id acl
  | CErase id => erase st id
  | CSetMode id mode is_dir => storage_setMode st id mode is_dir
  end.

(** The specification: a map from inodes to lists. *)
Definition spec_call (m : gmap Z RichACL) (c : call) : gmap Z RichACL :=
  match c with
  | CSet id acl => <[id := acl]> m
  | CErase id => delete id m
  | CSetMode id mode is_dir => alter (fun acl => setMode acl mode is_dir) id m
  end.

Definition call_id (c : call) : Z := match c with CSet id _ => id | CErase id => id | CSetMode id _ _ => id end.

Fixpoint run_calls (st : AclStorage) (cs : list call) : option AclStorage :=
  match cs with [] => Some st | c :: cs => st ← run_call st c; run_calls st cs end.

Lemma keys_size {A} (m : gmap Z A) n :
  0 <= n -> (forall k, is_Some (m !! k) -> 0 <= k < n) -> Z.of_nat (size m) <= n.
Proof.
  intros Hn H. rewrite <-size_dom.
  assert (dom m ⊆ (list_to_set (seqZ 0 n) : gset Z)) as Hs.
  { intros k Hk%elem_of_dom. apply elem_of_list_to_set, elem_of_seqZ. specialize (H k Hk). lia. }
  apply subseteq_size in Hs. rewrite size_list_to_set in Hs by apply NoDup_seqZ. rewrite length_seqZ in Hs. lia.
Qed.

Lemma spec_call_keys m c k : is_Some (spec_call m c !! k) -> is_Some (m !! k) \/ k = call_id c.
Proof.
  destruct c as [id acl|id|id mode is_dir]; simpl.
  - rewrite lookup_insert_is_Some. naive_solver.
  - rewrite lookup_delete_is_Some. naive_solver.
  - rewrite lookup_alter_is_Some. auto.
Qed.

Lemma run_call_rep st m c :
  represents st m -> Z.of_nat (size m) < 2 ^ 64 - 1 ->
  exists st', run_call st c = Some st' /\ represents st' (spec_call m c).
Proof.
  intros Hr Hs. destruct c; simpl; [by apply set_rep|by apply erase_rep|by apply setMode_rep].
Qed.

Lemma run_calls_rep cs : forall st m,
  represents st m -> Forall (fun c => is_uint 32 (call_id c)) cs -> (forall k, is_Some (m !! k) -> 0 <= k < 2 ^ 32) ->
  exists st', run_calls st cs = Some st' /\ represents st' (foldl spec_call m cs).
Proof.
  induction cs as [|c cs IH]; intros st m Hr Hc Hk; simpl; [by eexists|].
  apply Forall_cons in Hc as [Hc Hcs].
  destruct (run_call_rep st m c Hr) as (st1 & -> & Hr1); [pose proof (keys_size m (2 ^ 32) ltac:(lia) Hk); lia|].
  simpl. apply IH; [done|done|]. intros k [H| ->]%spec_call_keys; [by apply Hk|done].
Qed.

(** C21: the storage with shared lists behaves as a plain map from inodes to lists: no history of set(), erase() and
    setMode() calls fails an assertion or leaves a dangling reference, afterwards get() returns for every inode what
    the map has, and every list is stored with the number of inodes that have it, or not at all when there is none. *)
Theorem acl_storage_refines cs :
  Forall (fun c => is_uint 32 (call_id c)) cs ->
  let m := foldl spec_call ∅ cs in
  exists st, run_calls empty_storage cs = Some st /\ (forall id, get st id = Some (m !! id)) /\
    forall acl, storage_ st !! acl = if users m acl =? 0 then None else Some (users m acl).
Proof.
  intros Hc m. destruct (run_calls_rep cs empty_storage ∅) as (st & E & Hr); [apply represents_empty|done| |].
  { intros k [? H]. by rewrite lookup_empty in H. }
  exists st. split; [done|]. split; [intros id; by apply get_rep|apply Hr].
Qed.

Lemma acl_storage_refines_witness :
  let cs := [CSet 1 empty_acl; CSet 2 empty_acl; CSetMode 1 420 false; CErase 2] in
  exists st, run_calls empty_storage cs = Some st /\ (forall id, get st id = Some (foldl spec_call ∅ cs !! id)) /\
    forall acl, storage_ st !! acl =
      if users (foldl spec_call ∅ cs) acl =? 0 then None else Some (users (foldl spec_call ∅ cs) acl).
Proof. intros cs. apply (acl_storage_refines cs). by repeat constructor. Defined.
