(* ===== verification/Nodes.v ===== *)
(** The nodes of the file system (src/master/filesystem_node_types.h and .cc, the chunk table of
    src/master/filesystem_node.cc).

    A node has the fields of [FSNode] and the data of its class: a file, a directory, a symbolic link, a device, or
    nothing more (FIFOs and sockets).  The name handles that [parents] points to are the names themselves.  The order
    of the entries of a directory, which depends on hashes and addresses, the hash of the entries and the checksum are
    left out.  [inode_t] has the width of the default build, 32 bits. *)
From S2P Require Import Prelude Serialization.

Notation inode_t := Z (only parsing).
Notation name_t := (list Z) (only parsing).

Inductive FSNodeType :=
  kFile | kDirectory | kSymlink | kFifo | kBlockDev | kCharDev | kSocket | kTrash | kReserved | kUnknown.

#[global] Instance FSNodeType_eq_dec : EqDecision FSNodeType.
Proof. solve_decision. Defined.

Record StatsRecord := MkStats {
  st_inodes : Z; st_dirs : Z; st_files : Z; st_links : Z; st_chunks : Z;
  st_length : Z; st_size : Z; st_realsize : Z;
}.

Definition zero_stats : StatsRecord := MkStats 0 0 0 0 0 0 0 0.

Record Directory := MkDirectory {
  entries : list (name_t * inode_t);
  lowerCaseEntries : list (name_t * inode_t);
  caseInsensitive : bool;
  dir_stats : StatsRecord;
  nlink : Z;
}.

Inductive NodeData :=
  | FileData (length : Z) (sessionIds : list Z) (chunks : list Z)
  | DirectoryData (d : Directory)
  | SymlinkData (path : list Z) (path_length : Z)
  | DeviceData (rdev : Z)
  | PlainData.

Record FSNode := MkNode {
  node_id : inode_t;
  node_ctime : Z; node_mtime : Z; node_atime : Z;
  node_type : FSNodeType;
  node_goal : Z;
  node_mode : Z;
  node_uid : Z; node_gid : Z;
  node_trashtime : Z;
  node_parents : list (inode_t * name_t);
  node_data : NodeData;
}.

(** FSNode::create(): the class that a type has; [None] is the failed assertion. *)
Definition new_directory : Directory := MkDirectory [] [] false zero_stats 2.

Definition create_data (type : FSNodeType) : option NodeData :=
  match type with
  | kFile | kTrash | kReserved => Some (FileData 0 [] [])
  | kDirectory => Some (DirectoryData new_directory)
  | kSymlink => Some (SymlinkData [] 0)
  | kFifo | kSocket => Some PlainData
  | kBlockDev | kCharDev => Some (DeviceData 0)
  | kUnknown => None
  end.

(** The data is that of the class of the type. *)
Definition class_of (data : NodeData) : nat :=
  match data with FileData _ _ _ => 0 | DirectoryData _ => 1 | SymlinkData _ _ => 2 | DeviceData _ => 3 | PlainData => 4 end.

Definition well_typed (n : FSNode) : Prop :=
  class_of <$> create_data (node_type n) = Some (class_of (node_data n)).

(** ** Serialization *)

Definition type_code (type : FSNodeType) : Z :=
  match type with
  | kFile => 102 | kDirectory => 100 | kSymlink => 108 | kFifo => 113 | kBlockDev => 98 | kCharDev => 99
  | kSocket => 115 | kTrash => 116 | kReserved => 114 | kUnknown => 63
  end.

Definition type_of_code (c : Z) : option FSNodeType :=
  List.find (fun t => type_code t =? c)
    [kFile; kDirectory; kSymlink; kFifo; kBlockDev; kCharDev; kSocket; kTrash; kReserved; kUnknown].

(** FSNode::serialize() *)
Definition serialize_common (n : FSNode) : list Z :=
  put8bit (type_code (node_type n)) ++ put32bit (node_id n) ++ put8bit (node_goal n) ++ put16bit (node_mode n) ++
  put32bit (node_uid n) ++ put32bit (node_gid n) ++ put32bit (node_atime n) ++ put32bit (node_mtime n) ++
  put32bit (node_ctime n) ++ put32bit (node_trashtime n).

(** FSNodeFile::chunkCount(): the table up to its last chunk. *)
Fixpoint chunkCount (chunks : list Z) : nat :=
  match chunks with
  | [] => 0
  | c :: l => match chunkCount l with O => if c =? 0 then 0 else 1 | S n => S (S n) end
  end.

Definition kMaxSessionSize : Z := 65535.

Definition sessions_count (sessionIds : list Z) : Z := Z.min (Z.of_nat (length sessionIds)) kMaxSessionSize.

Definition serialize_data (data : NodeData) : list Z :=
  match data with
  | FileData len sessionIds chunks =>
    let chunkAmount := chunkCount chunks in
    let sessionsCount := sessions_count sessionIds in
    put64bit len ++ put32bit (Z.of_nat chunkAmount) ++ put16bit sessionsCount ++
    concat (put64bit <$> take chunkAmount chunks) ++ concat (put32bit <$> take (Z.to_nat sessionsCount) sessionIds)
  | SymlinkData path _ => put32bit (Z.of_nat (length path)) ++ path
  | DeviceData rdev => put32bit rdev
  | DirectoryData _ | PlainData => []
  end.

Definition serialize_node (n : FSNode) : list Z := serialize_common n ++ serialize_data (node_data n).

(** The virtual serializedSize(), with the sizes of the headers. *)
Definition kNodeHeaderSize : Z := 1 + 4 + 1 + 2 + 4 + 4 + 4 + 4 + 4 + 4.

Definition serializedSize (n : FSNode) : Z :=
  match node_data n with
  | FileData _ sessionIds chunks =>
    kNodeHeaderSize + (8 + 4 + 2) + 8 * Z.of_nat (chunkCount chunks) + 4 * sessions_count sessionIds
  | SymlinkData _ path_length => kNodeHeaderSize + 4 + path_length
  | DeviceData _ => kNodeHeaderSize + 4
  | DirectoryData _ | PlainData => kNodeHeaderSize
  end.

(** Reading moves a pointer; [None] is a read behind the end of the data. *)
Definition cursor (A : Type) : Type := list Z -> option (A * list Z).

Definition take_n {A} (n : nat) (get : list Z -> A) : cursor A := fun p =>
  if decide (n <= length p)%nat then Some (get p, drop n p) else None.

Definition read8 : cursor Z := take_n 1 get8bit.
Definition read16 : cursor Z := take_n 2 get16bit.
Definition read32 : cursor Z := take_n 4 get32bit.
Definition read64 : cursor Z := take_n 8 get64bit.

Fixpoint read_many {A} (n : nat) (r : cursor A) : cursor (list A) := fun p =>
  match n with
  | O => Some ([], p)
  | S n => '(x, p) ← r p; '(xs, p) ← read_many n r p; Some (x :: xs, p)
  end.

(** FSNode::deserialize() of the fields, then that of the class; the rest of the node is that of a new one. *)
Definition deserialize_data (data : NodeData) : cursor NodeData := fun p =>
  match data with
  | FileData _ _ _ =>
    '(len, p) ← read64 p; '(chunkAmount, p) ← read32 p; '(sessionsAmount, p) ← read16 p;
    '(chunks, p) ← read_many (Z.to_nat chunkAmount) read64 p;
    '(sessionIds, p) ← read_many (Z.to_nat sessionsAmount) read32 p;
    Some (FileData len sessionIds chunks, p)
  | SymlinkData _ _ =>
    '(len, p) ← read32 p; '(path, p) ← take_n (Z.to_nat len) (take (Z.to_nat len)) p;
    Some (SymlinkData path (u16 (Z.of_nat (length path))), p)
  | DeviceData _ => '(rdev, p) ← read32 p; Some (DeviceData rdev, p)
  | DirectoryData d => Some (DirectoryData d, p)
  | PlainData => Some (PlainData, p)
  end.

(** The part of fs_parseNode() that reads the node: the type selects the class of the new node. *)
Definition parse_node : cursor FSNode := fun p =>
  '(typeU8, _) ← read8 p; type ← type_of_code typeU8; data ← create_data type;
  '(typeTemp, p) ← read8 p; type ← type_of_code typeTemp;
  '(id, p) ← read32 p; '(goal, p) ← read8 p; '(mode, p) ← read16 p;
  '(uid, p) ← read32 p; '(gid, p) ← read32 p; '(atime, p) ← read32 p; '(mtime, p) ← read32 p;
  '(ctime, p) ← read32 p; '(trashtime, p) ← read32 p;
  '(data, p) ← deserialize_data data p;
  Some (MkNode id ctime mtime atime type goal mode uid gid trashtime [] data, p).

(** ** Reading back what was written *)

Section read_back.

Lemma take_n_app {A} n (get : list Z -> A) bs rest :
  length bs = n -> take_n n get (bs ++ rest) = Some (get (bs ++ rest), rest).
Proof.
  intros <-. unfold take_n. rewrite length_app. rewrite decide_True by lia. by rewrite drop_app_length.
Qed.

Lemma read8_put x rest : is_uint 8 x -> read8 (put8bit x ++ rest) = Some (x, rest).
Proof. intros H. unfold read8. rewrite take_n_app by done. rewrite get8_put8. f_equal. f_equal. by apply Z.mod_small. Qed.

Lemma read16_put x rest : is_uint 16 x -> read16 (put16bit x ++ rest) = Some (x, rest).
Proof. intros H. unfold read16. rewrite take_n_app by done. rewrite get16_put16. f_equal. f_equal. by apply Z.mod_small. Qed.

Lemma read32_put x rest : is_uint 32 x -> read32 (put32bit x ++ rest) = Some (x, rest).
Proof. intros H. unfold read32. rewrite take_n_app by done. rewrite get32_put32. f_equal. f_equal. by apply Z.mod_small. Qed.

Lemma read64_put x rest : is_uint 64 x -> read64 (put64bit x ++ rest) = Some (x, rest).
Proof. intros H. unfold read64. rewrite take_n_app by done. rewrite get64_put64. f_equal. f_equal. by apply Z.mod_small. Qed.

Lemma read_many_put (r : cursor Z) (put : Z -> list Z) (P : Z -> Prop) xs rest :
  (forall x rest, P x -> r (put x ++ rest) = Some (x, rest)) -> Forall P xs ->
  read_many (length xs) r (concat (put <$> xs) ++ rest) = Some (xs, rest).
Proof.
  intros Hr Hxs. induction Hxs as [|x xs Hx Hxs IH]; [done|]. simpl. rewrite <-app_assoc, Hr by done. simpl.
  change (list_fmap Z (list Z) put xs) with (put <$> xs). by rewrite IH.
Qed.

Lemma length_concat_put (put : Z -> list Z) k xs :
  (forall x, length (put x) = k) -> length (concat (put <$> xs)) = (k * length xs)%nat.
Proof. intros H. induction xs as [|x xs IH]; simpl; [lia|]. rewrite length_app, H.
  change (list_fmap Z (list Z) put xs) with (put <$> xs). rewrite IH. lia.
Qed.

Lemma serialize_common_length n : length (serialize_common n) = 32%nat.
Proof. done. Qed.

End read_back.

Lemma put_length16 x : length (put16bit x) = 2%nat.
Proof. done. Qed.

Lemma put_length32 x : length (put32bit x) = 4%nat.
Proof. done. Qed.

Lemma put_length64 x : length (put64bit x) = 8%nat.
Proof. done. Qed.


#[local] Opaque put8bit put16bit put32bit put64bit read8 read16 read32 read64.

(** The fields have their widths; the length of a symbolic link is that of its path as symlink() and deserialize() assign
    it, to a uint16_t. *)
Record node_in_range (n : FSNode) : Prop := MkInRange {
  ir_id : is_uint 32 (node_id n); ir_goal : is_uint 8 (node_goal n); ir_mode : is_uint 16 (node_mode n);
  ir_uid : is_uint 32 (node_uid n); ir_gid : is_uint 32 (node_gid n);
  ir_atime : is_uint 32 (node_atime n); ir_mtime : is_uint 32 (node_mtime n); ir_ctime : is_uint 32 (node_ctime n);
  ir_trashtime : is_uint 32 (node_trashtime n);
  ir_data : match node_data n with
    | FileData len sessionIds chunks =>
      is_uint 64 len /\ Forall (is_uint 32) sessionIds /\ Forall (is_uint 64) chunks /\ Z.of_nat (length chunks) < 2 ^ 32
    | SymlinkData path path_length => path_length = u16 (Z.of_nat (length path)) /\ is_uint 32 (Z.of_nat (length path))
    | DeviceData rdev => is_uint 32 rdev
    | _ => True
    end;
}.

(** What the stored form keeps of a node: the edges are stored elsewhere, the table of chunks is cut behind the last
    chunk, and at most 65535 sessions are stored. *)
Definition stored_data (data : NodeData) : NodeData :=
  match data with
  | FileData len sessionIds chunks =>
    FileData len (take (Z.to_nat kMaxSessionSize) sessionIds) (take (chunkCount chunks) chunks)
  | DirectoryData _ => DirectoryData new_directory
  | data => data
  end.

Definition stored (n : FSNode) : FSNode :=
  MkNode (node_id n) (node_ctime n) (node_mtime n) (node_atime n) (node_type n) (node_goal n) (node_mode n)
    (node_uid n) (node_gid n) (node_trashtime n) [] (stored_data (node_data n)).

Lemma type_of_code_of type : type_of_code (type_code type) = Some type.
Proof. by destruct type. Qed.

Lemma type_code_range type : is_uint 8 (type_code type).
Proof. by destruct type. Qed.

Lemma chunkCount_le chunks : (chunkCount chunks <= length chunks)%nat.
Proof. induction chunks as [|c l IH]; simpl; [lia|]. destruct (chunkCount l); [destruct (c =? 0)|]; lia. Qed.

Lemma sessions_take sessionIds :
  take (Z.to_nat (sessions_count sessionIds)) sessionIds = take (Z.to_nat kMaxSessionSize) sessionIds.
Proof.
  unfold sessions_count. destruct (Z.min_spec (Z.of_nat (length sessionIds)) kMaxSessionSize) as [[H ->]|[H ->]]; [|done].
  rewrite Nat2Z.id, firstn_all. symmetry. apply take_ge. lia.
Qed.

Lemma sessions_count_length sessionIds :
  length (take (Z.to_nat (sessions_count sessionIds)) sessionIds) = Z.to_nat (sessions_count sessionIds).
Proof. rewrite length_take. unfold sessions_count. lia. Qed.

Lemma sessions_count_range sessionIds : is_uint 16 (sessions_count sessionIds).
Proof. unfold is_uint, sessions_count, kMaxSessionSize. change (2 ^ 16) with 65536. lia. Qed.

Lemma deserialize_data_back data0 data rest :
  class_of data0 = class_of data ->
  match data with
  | FileData len sessionIds chunks =>
    is_uint 64 len /\ Forall (is_uint 32) sessionIds /\ Forall (is_uint 64) chunks /\ Z.of_nat (length chunks) < 2 ^ 32
  | SymlinkData path path_length => path_length = u16 (Z.of_nat (length path)) /\ is_uint 32 (Z.of_nat (length path))
  | DeviceData rdev => is_uint 32 rdev
  | DirectoryData _ => data0 = DirectoryData new_directory
  | PlainData => True
  end ->
  deserialize_data data0 (serialize_data data ++ rest) = Some (stored_data data, rest).
Proof.
  intros Hc Hr. destruct data as [len sessionIds chunks|d|path path_length|rdev|], data0; try done; simpl.
  - destruct Hr as (Hl & Hs & Hch & Hn). rewrite <-!app_assoc, read64_put by done. simpl.
    pose proof (chunkCount_le chunks). rewrite read32_put by (unfold is_uint; lia). simpl.
    rewrite read16_put by apply sessions_count_range. simpl. rewrite Nat2Z.id.
    rewrite <-(length_take_le chunks (chunkCount chunks)) at 1 by done.
    rewrite (read_many_put _ _ (is_uint 64)) by (first [apply read64_put|by apply Forall_take]). simpl.
    rewrite <-(sessions_count_length sessionIds) at 1.
    rewrite (read_many_put _ _ (is_uint 32)) by (first [apply read32_put|by apply Forall_take]). simpl.
    by rewrite sessions_take.
  - by injection Hr as ->.
  - destruct Hr as [-> Hr]. rewrite <-app_assoc, read32_put by done. simpl.
    rewrite Nat2Z.id. unfold take_n. rewrite decide_True by (rewrite length_app; lia). simpl.
    by rewrite take_app_length, drop_app_length.
  - rewrite read32_put by done. done.
Qed.

(** The bytes of a path that its uint16_t length does not count. *)
Definition uncounted (data : NodeData) : Z :=
  match data with
  | SymlinkData path _ => 65536 * (Z.of_nat (length path) / 65536)
  | _ => 0
  end.


