(* ===== verification/FileSize.v ===== *)
(** The sizes and the statistics of nodes (src/master/filesystem_node.cc): what a file takes on the chunkservers, as
    the statistics of directories and the quotas count it. *)
From S2P Require Import Prelude Serialization Slices Goals Nodes.
#[local] Open Scope leil_scope.

Definition SFSHDRSIZE : Z := 4 * SFSBLOCKSINCHUNK + 1024.

Definition lastChunkBlocks (len : Z) : Z :=
  let lastByte := len -u64 1 in
  let lastByteOffset := u32 (lastByte mod SFSCHUNKSIZE) in
  let lastBlock := u32 (lastByteOffset / SFSBLOCKSIZE) in
  lastBlock +u32 1.

Definition isLastFileChunkNonEmpty (len : Z) (chunks : list Z) : bool :=
  if bool_decide (chunks = []) then false
  else
    let lastByte := len -u64 1 in
    let lastChunk := u32 (lastByte / SFSCHUNKSIZE) in
    if lastChunk <? Z.of_nat (length chunks)
    then negb (nth (Z.to_nat lastChunk) chunks 0 =? 0) else false.

Definition getLiveFileChunkCount (chunks : list Z) : Z :=
  foldl (fun sum v => u32 (sum + (if v =? 0 then 0 else 1))) 0 chunks.

Definition fileSize (len : Z) (chunks : list Z) (nonZeroChunks : Z) : Z :=
  let full := nonZeroChunks *u64 (SFSCHUNKSIZE + SFSHDRSIZE) in
  if isLastFileChunkNonEmpty len chunks
  then full -u64 SFSCHUNKSIZE +u64 (lastChunkBlocks len *u32 SFSBLOCKSIZE) else full.

Definition ecChunkRealSize (blocks dataPartCount parityPartCount : Z) : Z :=
  let kTotalCrcSizePerChunkPart := SFSBLOCKSINCHUNK * 4 in
  let stripes := u32 (blocks + dataPartCount - 1) / dataPartCount in
  let size := blocks *u32 SFSBLOCKSIZE in
  let size := size +u32 parityPartCount * stripes * SFSBLOCKSIZE in
  size +u32 kTotalCrcSizePerChunkPart * (dataPartCount + parityPartCount).

(** The loop over the slices of the goal; [None] is the early return for an unknown type. *)
Definition slice_real_size (len : Z) (chunks : list Z) (nonZeroChunks logicalFileSize : Z) (fullSize : option Z)
    (s : Slice) : option Z :=
  full ← fullSize;
  if isStandard (type_ s) || isTape (type_ s) then
    Some (full +u64 (logicalFileSize *u64 getExpectedCopies s))
  else if isXor (type_ s) || isEC (type_ s) then
    let data := getNumberOfDataParts (type_ s) in
    let parity := getNumberOfParityParts (type_ s) in
    let chunk := ecChunkRealSize SFSBLOCKSINCHUNK data parity in
    let size := nonZeroChunks *u64 chunk in
    let size := if isLastFileChunkNonEmpty len chunks
                then size -u64 chunk +u64 ecChunkRealSize (lastChunkBlocks len) data parity else size in
    Some (full +u64 size)
  else None.

Definition fileRealSize (goal : Goal) (len : Z) (chunks : list Z) (nonZeroChunks logicalFileSize : Z) : Z :=
  default 0 (foldl (slice_real_size len chunks nonZeroChunks logicalFileSize) (Some 0) (goal_slices_ goal)).

(** getStats() of anything but a directory; [goals] is the table of goal definitions. *)
Definition node_stats (goals : Z -> Goal) (n : FSNode) : StatsRecord :=
  match node_data n with
  | FileData len _ chunks =>
    let live := getLiveFileChunkCount chunks in
    let sz := fileSize len chunks live in
    MkStats 1 0 1 0 live len sz (fileRealSize (goals (node_goal n)) len chunks live sz)
  | SymlinkData _ path_length => MkStats 1 0 0 1 0 path_length 0 0
  | _ => MkStats 1 0 0 0 0 0 0 0
  end.

(** ** Operations on the table of chunks *)

Definition getFileChunkId (chunks : list Z) (index : Z) : Z :=
  if index <? Z.of_nat (length chunks) then nth (Z.to_nat index) chunks 0 else 0.

Definition setFileChunkId (chunks : list Z) (index chunkId : Z) : option (list Z) :=
  if index <? Z.of_nat (length chunks) then Some (<[Z.to_nat index := chunkId]> chunks) else None.

(** [resize(n, 0)] *)
Definition resize_chunks (chunks : list Z) (newSize : nat) : list Z :=
  take newSize chunks ++ replicate (newSize - length chunks) 0.

Definition growFileChunkTable (chunks : list Z) (newSize : nat) : list Z :=
  if decide (length chunks < newSize)%nat then resize_chunks chunks newSize else chunks.

(** truncateFileChunks(): the callback gets the chunks that are cut, with their indices. *)
Definition cut_chunks (chunks : list Z) (newSize : nat) : list (nat * Z) :=
  List.filter (fun '(_, c) => negb (c =? 0))
    (zip (seq newSize (length chunks - newSize)) (drop newSize chunks)).

Definition truncateFileChunks (chunks : list Z) (newSize : nat) : list Z :=
  if decide (newSize < length chunks)%nat then take newSize chunks else chunks.
