(* ===== verification/NodeAcl.v ===== *)
(** Permissions of nodes (the access control lists and the permission checks of src/master/filesystem_node.cc, the
    changes of modes in src/master/filesystem_operations.cc).

    The state is the node and the storage of lists.  A node with a list keeps the permissions of its mode equal to the
    masks of the list; the master asserts this wherever it uses the list, and a failed assertion is [None]. *)
From S2P Require Import Prelude Serialization RichACL AclMasks AclPosix AclStorage Nodes.

Definition kStandardPermissions : Z := 511.   (* 0777 *)
Definition kPermissionsMask : Z := 4095.      (* 07777 *)
Definition kExtraAttributesMask : Z := 61440. (* 0xF000 *)
Definition EATTR_NOOWNER : Z := 1.
Definition EATTR_NOECACHE : Z := 4.
Definition EATTR_BIT_OFFSET : Z := 12.
Definition SESFLAG_IGNOREGID : Z := 4.
Definition SESFLAG_NOMASTERPERMCHECK : Z := 32.
Definition kStickyBit : Z := 512.
Definition S_ISGID : Z := 1024.

Inductive status := OK | EPERM | ENOTSUP | EINVAL | ENOATTR | ENOENT.

(** The part of FsContext that the checks use. *)
Record FsContext := MkContext { cx_sesflags : Z; cx_uid : Z; cx_groups : list Z }.

Definition hasGroup (cx : FsContext) (gid : Z) : bool := existsb (Z.eqb gid) (cx_groups cx).

Definition set_mode (n : FSNode) (mode : Z) : FSNode :=
  MkNode (node_id n) (node_ctime n) (node_mtime n) (node_atime n) (node_type n) (node_goal n) (u16 mode)
    (node_uid n) (node_gid n) (node_trashtime n) (node_parents n) (node_data n).

Definition set_ctime (n : FSNode) (ctime : Z) : FSNode :=
  MkNode (node_id n) ctime (node_mtime n) (node_atime n) (node_type n) (node_goal n) (node_mode n)
    (node_uid n) (node_gid n) (node_trashtime n) (node_parents n) (node_data n).

Definition is_directory (n : FSNode) : bool := bool_decide (node_type n = kDirectory).

(** [(mode & ~0777) | (permissions & 0777)] *)
Definition with_permissions (mode permissions : Z) : Z :=
  Z.lor (minus mode kStandardPermissions) (Z.land permissions kStandardPermissions).

(** getAcl(): the assertion on the mode. *)
Definition mode_agrees (n : FSNode) (acl : RichACL) : bool :=
  Z.land (node_mode n) kStandardPermissions =? getMode acl.

Definition getAcl (n : FSNode) (st : AclStorage) : option (status + RichACL) :=
  found ← get st (node_id n);
  match found with
  | None => Some (inl ENOATTR)
  | Some acl => if mode_agrees n acl then Some (inr acl) else None
  end.

(** setAcl() with a RichACL. *)
Definition setAcl (n : FSNode) (acl : RichACL) (timeStamp : Z) (st : AclStorage)
  : option (status * FSNode * AclStorage) :=
  if negb (checkInheritFlags acl (is_directory n)) then Some (ENOTSUP, n, st)
  else
    '(n, st) ←
      match equivMode acl (node_mode n) (is_directory n) with
      | Some mode =>
        st ← erase st (node_id n); Some (set_mode n (with_permissions (node_mode n) mode), st)
      | None =>
        let n := if isAutoSetMode acl then n else set_mode n (with_permissions (node_mode n) (getMode acl)) in
        let newAcl := if isAutoSetMode acl
          then setMode (with_flags acl (minus (flags_ acl) kAutoSetMode)) (node_mode n) (is_directory n) else acl in
        st ← set st (node_id n) newAcl; Some (n, st)
      end;
    Some (OK, set_ctime n timeStamp, st).

Inductive AclType := kAccess | kDefault | kRichACL.

(** setAcl() with a POSIX ACL. *)
Definition setPosixAcl (n : FSNode) (type : AclType) (acl : Posix.AccessControlList) (timeStamp : Z) (st : AclStorage)
  : option (status * FSNode * AclStorage) :=
  match type with
  | kRichACL => Some (EINVAL, n, st)
  | _ =>
    let is_default := match type with kDefault => true | _ => false end in
    if is_default && negb (is_directory n) then Some (ENOTSUP, n, st)
    else
      nodeAcl ← get st (node_id n);
      let newAcl :=
        match nodeAcl with
        | Some a => removeInheritOnly (createExplicitInheritance a) is_default
        | None => empty_acl
        end in
      let '(n, newAcl) :=
        if is_default then (n, setMode (appendDefaultPosixACL newAcl acl) (node_mode n) true)
        else
          let newAcl := appendPosixACL newAcl acl (is_directory n) in
          (set_mode n (with_permissions (node_mode n) (getMode newAcl)), newAcl) in
      st ← set st (node_id n) newAcl;
      Some (OK, set_ctime n timeStamp, st)
  end.

Definition deleteAcl (n : FSNode) (type : AclType) (timeStamp : Z) (st : AclStorage)
  : option (status * FSNode * AclStorage) :=
  let remove with_flag :=
    nodeAcl ← get st (node_id n);
    st ← match nodeAcl with
      | None => Some st
      | Some a =>
        let newAcl := removeInheritOnly (createExplicitInheritance a) with_flag in
        if bool_decide (ace_list_ newAcl = []) then erase st (node_id n) else set st (node_id n) newAcl
      end;
    Some (OK, set_ctime n timeStamp, st) in
  match type with
  | kRichACL => st ← erase st (node_id n); Some (OK, set_ctime n timeStamp, st)
  | kDefault => if is_directory n then remove true else Some (ENOTSUP, n, st)
  | kAccess => remove false
  end.

Definition syncAclWithMode (n : FSNode) (st : AclStorage) : option AclStorage :=
  storage_setMode st (node_id n) (node_mode n) (is_directory n).

(** applyAttr() and the end of setAttr(): the new mode. *)
Definition change_mode (n : FSNode) (mode : Z) (st : AclStorage) : option (FSNode * AclStorage) :=
  let n := set_mode n (Z.lor (Z.land mode kPermissionsMask) (Z.land (node_mode n) kExtraAttributesMask)) in
  st ← syncAclWithMode n st; Some (n, st).

(** access(): whether the user may use the node as [modeMask] says. *)
Definition access (cx : FsContext) (n : FSNode) (modeMask : Z) (st : AclStorage) : option bool :=
  if has (cx_sesflags cx) SESFLAG_NOMASTERPERMCHECK || (cx_uid cx =? 0) then Some true
  else
    nodeAcl ← get st (node_id n);
    match nodeAcl with
    | Some acl =>
      if mode_agrees n acl then
        let mask := convertMode2Mask modeMask in
        let mask := if is_directory n then mask else minus mask kDeleteChild in
        Some (checkPermission acl mask (MkWho (node_uid n) (node_gid n) (cx_uid cx) (cx_groups cx)))
      else None
    | None =>
      let nodeMode :=
        if (cx_uid cx =? node_uid n) || has (node_mode n) (Z.shiftl EATTR_NOOWNER EATTR_BIT_OFFSET)
        then Z.land (Z.shiftr (node_mode n) 6) 7
        else if has (cx_sesflags cx) SESFLAG_IGNOREGID
        then Z.land (Z.lor (Z.shiftr (node_mode n) 3) (node_mode n)) 7
        else if hasGroup cx (node_gid n) then Z.land (Z.shiftr (node_mode n) 3) 7
        else Z.land (node_mode n) 7 in
      Some (Z.land nodeMode modeMask =? modeMask)
    end.

Definition stickyAccess (parent n : FSNode) (uid : Z) : bool :=
  (uid =? 0) || negb (has (node_mode parent) kStickyBit)
  || ((uid =? node_uid parent) || has (node_mode parent) (Z.shiftl EATTR_NOOWNER EATTR_BIT_OFFSET)
      || (uid =? node_uid n) || has (node_mode n) (Z.shiftl EATTR_NOOWNER EATTR_BIT_OFFSET)).

(** The permissions of a new node in createNodeWithIdInternal(): [parentAcl] is the list of the parent, when the node
    inherits from it; [n] has its type, its id and its owner. *)
Definition initial_mode (parent : FSNode) (type : FSNodeType) (mode : Z) : Z :=
  Z.lor (Z.land mode kPermissionsMask)
    (Z.land (node_mode parent)
       (if bool_decide (type = kDirectory) then kExtraAttributesMask
        else minus kExtraAttributesMask (Z.shiftl EATTR_NOECACHE EATTR_BIT_OFFSET))).

Definition inherit_permissions (parent n : FSNode) (parentAcl : option RichACL) (mode umask : Z) (st : AclStorage)
  : option (FSNode * AclStorage) :=
  let n := set_mode n (initial_mode parent (node_type n) mode) in
  match parentAcl with
  | Some dir_acl =>
    let '(mode, acl) := inheritInode dir_acl (node_mode n) umask (is_directory n) in
    st ← match acl with Some acl => set st (node_id n) acl | None => Some st end;
    Some (set_mode n (Z.land (node_mode n) (Z.lor mode (Z.lnot kStandardPermissions))), st)
  | None => Some (set_mode n (minus (node_mode n) (Z.land umask kStandardPermissions)), st)
  end.

(** ** Modes and masks, bit by bit *)

Definition perm (i : Z) : Z :=
  if i =? 2 then kPosixModeRead else if i =? 1 then kPosixModeWrite else if i =? 0 then kPosixModeExec else 0.

Lemma convertMask2Mode_bit mask i : 0 <= i -> Z.testbit (convertMask2Mode mask) i = has mask (perm i).
Proof.
  intros Hi. unfold convertMask2Mode.
  assert (i = 0 \/ i = 1 \/ i = 2 \/ 3 <= i) as [->|[->|[->|H]]] by lia.
  4: { replace (has mask (perm i)) with false.
       2: { unfold perm. rewrite !(proj2 (Z.eqb_neq i _)) by lia. unfold has. by rewrite Z.land_0_r. }
       destruct (has mask kPosixModeRead), (has mask kPosixModeWrite), (has mask kPosixModeExec);
         by apply small_mode_bits. }
  1: change (perm 0) with kPosixModeExec. 2: change (perm 1) with kPosixModeWrite. 3: change (perm 2) with kPosixModeRead.
  all: by destruct (has mask kPosixModeRead), (has mask kPosixModeWrite), (has mask kPosixModeExec).
Qed.

Lemma has_mode x : has x S_IROTH = Z.testbit x 2 /\ has x S_IWOTH = Z.testbit x 1 /\ has x S_IXOTH = Z.testbit x 0.
Proof.
  change S_IROTH with (2 ^ 2). change S_IWOTH with (2 ^ 1). change S_IXOTH with (2 ^ 0). by rewrite !has_bit by lia.
Qed.

Lemma mask_of_mode x is_dir i :
  0 <= i -> Z.testbit (convertMask2Mode (minus (convertMode2Mask x) (file_only is_dir))) i = (i <? 3) && Z.testbit x i.
Proof.
  intros Hi. rewrite convertMask2Mode_bit by done. unfold convertMode2Mask. destruct (has_mode x) as (-> & -> & ->).
  assert (i = 0 \/ i = 1 \/ i = 2 \/ 3 <= i) as [->|[->|[->|H]]] by lia;
    [destruct (Z.testbit x 2), (Z.testbit x 1), (Z.testbit x 0), is_dir; done..|].
  rewrite (proj2 (Z.ltb_ge i 3)) by done. unfold perm. rewrite !(proj2 (Z.eqb_neq i _)) by lia.
  unfold has. by rewrite Z.land_0_r.
Qed.

Lemma mask_within_mode mask y i :
  0 <= i -> Z.testbit (convertMask2Mode (Z.land mask (convertMode2Mask y))) i = true -> i < 3 /\ Z.testbit y i = true.
Proof.
  intros Hi. rewrite convertMask2Mode_bit by done. unfold has. rewrite <-Z.land_assoc.
  assert (i = 0 \/ i = 1 \/ i = 2 \/ 3 <= i) as Hc by lia. destruct Hc as [->|[->|[->|H]]].
  4: { unfold perm. rewrite !(proj2 (Z.eqb_neq i _)) by lia. by rewrite !Z.land_0_r. }
  all: unfold convertMode2Mask; destruct (has_mode y) as (-> & -> & ->).
  all: destruct (Z.testbit y 2), (Z.testbit y 1), (Z.testbit y 0); cbn; rewrite ?Z.land_0_r; done.
Qed.

Lemma convertMask2Mode_high mask i : 3 <= i -> Z.testbit (convertMask2Mode mask) i = false.
Proof.
  intros Hi. rewrite convertMask2Mode_bit by lia. unfold perm. rewrite !(proj2 (Z.eqb_neq i _)) by lia.
  unfold has. by rewrite Z.land_0_r.
Qed.

Lemma getMode_bit acl i :
  0 <= i ->
  Z.testbit (getMode acl) i =
    if i <? 3 then Z.testbit (convertMask2Mode (other_mask_ acl)) i
    else if i <? 6 then Z.testbit (convertMask2Mode (group_mask_ acl)) (i - 3)
    else Z.testbit (convertMask2Mode (owner_mask_ acl)) (i - 6).
Proof.
  intros Hi. unfold getMode. rewrite !Z.lor_spec, !Z.shiftl_spec by done.
  destruct (Z.ltb_spec i 3); [rewrite !(Z.testbit_neg_r _ (i - _)) by lia; done|].
  rewrite (convertMask2Mode_high (other_mask_ acl)), orb_false_r by lia.
  destruct (Z.ltb_spec i 6); [by rewrite (Z.testbit_neg_r _ (i - 6)) by lia|].
  by rewrite (convertMask2Mode_high (group_mask_ acl)), orb_false_r by lia.
Qed.

Lemma permissions_bit x i : 0 <= i -> Z.testbit (Z.land x kStandardPermissions) i = Z.testbit x i && (i <? 9).
Proof.
  intros Hi. rewrite Z.land_spec. f_equal. change kStandardPermissions with (Z.ones 9).
  destruct (Z.ltb_spec i 9); [apply Z.ones_spec_low; lia|apply Z.ones_spec_high; lia].
Qed.

Lemma permissions_u16 x : Z.land (u16 x) kStandardPermissions = Z.land x kStandardPermissions.
Proof.
  apply Z.bits_inj'. intros i Hi. rewrite !permissions_bit by done. destruct (Z.ltb_spec i 9); [|by rewrite !andb_false_r].
  unfold u16, wrap. by rewrite Z.mod_pow2_bits_low by lia.
Qed.

(** getMode() has only permissions. *)
Lemma getMode_small acl : Z.land (getMode acl) kStandardPermissions = getMode acl.
Proof.
  apply Z.bits_inj'. intros i Hi. rewrite permissions_bit by done. destruct (Z.ltb_spec i 9); [apply andb_true_r|].
  rewrite andb_false_r, getMode_bit by done. rewrite !(proj2 (Z.ltb_ge i _)) by lia.
  by rewrite convertMask2Mode_high by lia.
Qed.

(** setMode() sets what getMode() returns. *)
Lemma getMode_setMode acl mode is_dir : getMode (setMode acl mode is_dir) = Z.land mode kStandardPermissions.
Proof.
  apply Z.bits_inj'. intros i Hi. rewrite permissions_bit, getMode_bit by done. unfold setMode.
  cbn [owner_mask_ group_mask_ other_mask_].
  destruct (Z.ltb_spec i 3); [|destruct (Z.ltb_spec i 6)]; rewrite mask_of_mode, ?Z.shiftr_spec by lia.
  - rewrite !(proj2 (Z.ltb_lt i _)) by lia. by rewrite andb_true_r.
  - rewrite (proj2 (Z.ltb_lt i 9)), (proj2 (Z.ltb_lt (i - 3) 3)) by lia. rewrite andb_true_r. simpl. f_equal. lia.
  - destruct (Z.ltb_spec i 9); [rewrite (proj2 (Z.ltb_lt (i - 6) 3)) by lia|rewrite (proj2 (Z.ltb_ge (i - 6) 3)) by lia].
    + rewrite andb_true_r. simpl. f_equal. lia.
    + by rewrite andb_false_r.
Qed.

Lemma with_permissions_low mode p : Z.land (with_permissions mode p) kStandardPermissions = Z.land p kStandardPermissions.
Proof.
  apply Z.bits_inj'. intros i Hi. unfold with_permissions, minus.
  rewrite !permissions_bit, Z.lor_spec, Z.ldiff_spec, permissions_bit by done.
  change kStandardPermissions with (Z.ones 9).
  destruct (Z.ltb_spec i 9); rewrite ?andb_false_r; [|done]. rewrite Z.ones_spec_low, !andb_true_r by lia.
  by rewrite andb_false_r.
Qed.

(** ** The mode of a node agrees with its list *)

Lemma set_mode_agrees n mode acl :
  Z.land mode kStandardPermissions = getMode acl -> mode_agrees (set_mode n mode) acl = true.
Proof.
  intros H. unfold mode_agrees, set_mode. cbn [node_mode]. rewrite permissions_u16, H. apply Z.eqb_refl.
Qed.

(** The inherited masks are within the creation mode. *)
Lemma inherited_mode_within dir_acl mode umask is_dir mode' acl :
  inheritInode dir_acl mode umask is_dir = (mode', Some acl) ->
  mode' = getMode acl /\ forall i, 0 <= i -> Z.testbit (getMode acl) i = true -> Z.testbit mode i = true.
Proof.
  unfold inheritInode. destruct (bool_decide _); [done|]. destruct (equivMode _ _ _); [done|].
  intros [= <- <-]. split; [done|]. intros i Hi. rewrite getMode_bit by done. cbn [owner_mask_ group_mask_ other_mask_].
  destruct (Z.ltb_spec i 3); [|destruct (Z.ltb_spec i 6)]; intros [_ H2]%mask_within_mode; try lia; [done|..];
    rewrite Z.shiftr_spec in H2 by lia; by rewrite Z.sub_add in H2.
Qed.

Record State := MkState { st_nodes : gmap Z FSNode; st_acls : AclStorage }.

Definition no_nodes : State := MkState ∅ empty_storage.

(** The last assignments of SnapshotTask::cloneToExistingNode(): the list of the node stays as it is. *)
Definition clone_attributes (src_node dst_node : FSNode) (ts : Z) : FSNode :=
  MkNode (node_id dst_node) ts (node_mtime src_node) (node_atime src_node) (node_type dst_node) (node_goal dst_node)
    (node_mode src_node) (node_uid src_node) (node_gid src_node) (node_trashtime dst_node) (node_parents dst_node)
    (node_data dst_node).

Definition same_permissions (n n' : FSNode) : bool :=
  Z.land (node_mode n) kStandardPermissions =? Z.land (node_mode n') kStandardPermissions.

(** setExtraAttrRecursive(): the new extra attributes of a node. *)
Definition change_eattr (n : FSNode) (newExtraAttr : Z) (st : AclStorage) : option (FSNode * AclStorage) :=
  let n := set_mode n (Z.lor (Z.land (node_mode n) kPermissionsMask) (Z.shiftl newExtraAttr EATTR_BIT_OFFSET)) in
  st ← syncAclWithMode n st; Some (n, st).

(** The assignments to a mode that are made without syncAclWithMode(): setAttr() takes the set-id bits away
    ([node->mode &= 0171777], [node->mode &= 0173777]), createNodeWithIdInternal() gives a directory that of its parent,
    setExtraAttrRecursive() takes EATTR_NOECACHE from what is no directory. *)
Inductive adjust_mode : Z -> Z -> Prop :=
  | clear_setid mode : adjust_mode mode (Z.land mode 62463)
  | clear_setuid mode : adjust_mode mode (Z.land mode 63487)
  | inherit_setgid mode : adjust_mode mode (Z.lor mode S_ISGID)
  | clear_noecache mode : adjust_mode mode (minus mode (Z.shiftl EATTR_NOECACHE EATTR_BIT_OFFSET)).

Inductive step : State -> State -> Prop :=
  | step_setAcl nodes st id n acl ts s n' st' :
      nodes !! id = Some n -> setAcl n acl ts st = Some (s, n', st') ->
      step (MkState nodes st) (MkState (<[id := n']> nodes) st')
  | step_setPosixAcl nodes st id n type acl ts s n' st' :
      nodes !! id = Some n -> setPosixAcl n type acl ts st = Some (s, n', st') ->
      step (MkState nodes st) (MkState (<[id := n']> nodes) st')
  | step_deleteAcl nodes st id n type ts s n' st' :
      nodes !! id = Some n -> deleteAcl n type ts st = Some (s, n', st') ->
      step (MkState nodes st) (MkState (<[id := n']> nodes) st')
  | step_change_mode nodes st id n mode n' st' :
      nodes !! id = Some n -> change_mode n mode st = Some (n', st') ->
      step (MkState nodes st) (MkState (<[id := n']> nodes) st')
  | step_change_eattr nodes st id n newExtraAttr n' st' :
      nodes !! id = Some n -> change_eattr n newExtraAttr st = Some (n', st') ->
      step (MkState nodes st) (MkState (<[id := n']> nodes) st')
  | step_adjust nodes st id n mode :
      nodes !! id = Some n -> adjust_mode (node_mode n) mode ->
      step (MkState nodes st) (MkState (<[id := set_mode n mode]> nodes) st)
  (* the owner, the times, the goal, the trash time, the names and the contents *)
  | step_fields nodes st id n n' :
      nodes !! id = Some n -> node_id n' = node_id n -> node_type n' = node_type n -> node_mode n' = node_mode n ->
      step (MkState nodes st) (MkState (<[id := n']> nodes) st)
  (* a snapshot over a node that has no list, or has the permissions of the source *)
  | step_clone nodes st src_id src id n ts found :
      nodes !! src_id = Some src -> nodes !! id = Some n -> get st id = Some found ->
      (found = None \/ same_permissions src n = true) ->
      step (MkState nodes st) (MkState (<[id := clone_attributes src n ts]> nodes) st)
  | step_create nodes st id n pid parent (inheritAcl : bool) found mode umask n' st' :
      nodes !! id = None -> is_uint 32 id -> node_id n = id -> nodes !! pid = Some parent -> get st pid = Some found ->
      inherit_permissions parent n (if inheritAcl then found else None) mode umask st = Some (n', st') ->
      step (MkState nodes st) (MkState (<[id := n']> nodes) st')
  | step_root nodes st id n :
      nodes !! id = None -> is_uint 32 id -> node_id n = id ->
      step (MkState nodes st) (MkState (<[id := n]> nodes) st)
  | step_remove nodes st id st' :
      erase st id = Some st' -> step (MkState nodes st) (MkState (delete id nodes) st').

(** The lists are those of nodes, and the modes agree with them. *)
Record consistent (s : State) (m : gmap Z RichACL) : Prop := MkConsistent {
  con_rep : represents (st_acls s) m;
  con_ids : forall id n, st_nodes s !! id = Some n -> node_id n = id /\ is_uint 32 id;
  con_agrees : forall id acl, m !! id = Some acl -> exists n, st_nodes s !! id = Some n /\ mode_agrees n acl = true;
}.

Lemma consistent_size s m : consistent s m -> Z.of_nat (base.size m) < 2 ^ 64 - 1.
Proof.
  intros [_ Hi Ha]. assert (Z.of_nat (base.size m) <= 2 ^ 32); [|lia]. apply keys_size; [lia|].
  intros k [acl Hk]. destruct (Ha k acl Hk) as (n & Hn & _). by apply (Hi k n).
Qed.

(** A node changes with its list. *)
Lemma consistent_update s m id n n' m' st' :
  consistent s m -> st_nodes s !! id = Some n -> node_id n' = node_id n -> represents st' m' ->
  (forall k, k <> id -> m' !! k = m !! k) ->
  (forall acl, m' !! id = Some acl -> mode_agrees n' acl = true) ->
  consistent (MkState (<[id := n']> (st_nodes s)) st') m'.
Proof.
  intros [Hr Hi Ha] Hn Hid Hr' Hk Hag. split; cbn [st_nodes st_acls]; [done|..].
  - intros k x. destruct (decide (k = id)) as [->|].
    + rewrite lookup_insert_eq. intros [= <-]. rewrite Hid. by apply Hi.
    + rewrite lookup_insert_ne by done. apply Hi.
  - intros k acl. destruct (decide (k = id)) as [->|].
    + intros H. exists n'. rewrite lookup_insert_eq. split; [done|by apply Hag].
    + rewrite Hk by done. rewrite lookup_insert_ne by done. apply Ha.
Qed.

(** A change of a node that leaves its permissions. *)
Definition keeps_permissions (n n' : FSNode) : Prop :=
  node_id n' = node_id n /\ Z.land (node_mode n') kStandardPermissions = Z.land (node_mode n) kStandardPermissions.

Section operations.
Context (s : State) (m : gmap Z RichACL) (Hcon : consistent s m) (id : Z) (n : FSNode) (Hn : st_nodes s !! id = Some n).

(** An operation on the node returns, and the new state is consistent. *)
Definition goes_well {A} (result : option (A * FSNode * AclStorage)) : Prop :=
  exists a n' st', result = Some (a, n', st') /\
    exists m', consistent (MkState (<[id := n']> (st_nodes s)) st') m'.

Lemma agrees_now acl : m !! id = Some acl -> mode_agrees n acl = true.
Proof. intros H. destruct (con_agrees _ _ Hcon id acl H) as (n0 & E & Ha). congruence. Qed.

Lemma the_id : node_id n = id.
Proof. by apply (con_ids _ _ Hcon). Qed.

(** The list of the node is replaced. *)
Lemma set_ok n' acl :
  node_id n' = node_id n -> mode_agrees n' acl = true ->
  exists st', set (st_acls s) id acl = Some st' /\
    exists m', consistent (MkState (<[id := n']> (st_nodes s)) st') m'.
Proof.
  intros Hid Ha. destruct (set_rep _ _ (con_rep _ _ Hcon) id acl) as (st' & E & Hr); [by eapply consistent_size|].
  exists st'. split; [done|]. eexists. eapply consistent_update; try done.
  - intros k Hk. by apply lookup_insert_ne.
  - intros a. rewrite lookup_insert_eq. by intros [= <-].
Qed.

Lemma erase_ok n' :
  node_id n' = node_id n ->
  exists st', erase (st_acls s) id = Some st' /\
    exists m', consistent (MkState (<[id := n']> (st_nodes s)) st') m'.
Proof.
  intros Hid. destruct (erase_rep _ _ (con_rep _ _ Hcon) id) as (st' & E & Hr).
  exists st'. split; [done|]. eexists. eapply consistent_update; try done.
  - intros k Hk. by apply lookup_delete_ne.
  - intros a. by rewrite lookup_delete_eq.
Qed.

(** Only the node changes, and not the permissions of its mode. *)
Lemma keep_ok n' :
  node_id n' = node_id n -> (m !! id = None \/ same_permissions n n' = true) ->
  exists m', consistent (MkState (<[id := n']> (st_nodes s)) (st_acls s)) m'.
Proof.
  intros Hid Hp. exists m. eapply consistent_update; try done; [apply Hcon|].
  intros acl H. destruct Hp as [?|Hp%Z.eqb_eq]; [congruence|].
  pose proof (agrees_now acl H) as Ha. unfold mode_agrees in *. by rewrite <-Hp.
Qed.

Lemma kept_ok n' :
  keeps_permissions n n' -> exists m', consistent (MkState (<[id := n']> (st_nodes s)) (st_acls s)) m'.
Proof. intros [Hid Hp]. apply keep_ok; [done|]. right. by apply Z.eqb_eq. Qed.

Lemma same_mode n0 n1 : node_mode n0 = node_mode n1 -> same_permissions n0 n1 = true.
Proof. unfold same_permissions. intros ->. apply Z.eqb_refl. Qed.

Lemma adjust_ok mode : adjust_mode (node_mode n) mode -> same_permissions n (set_mode n mode) = true.
Proof.
  intros H. apply Z.eqb_eq. unfold set_mode. cbn [node_mode]. rewrite permissions_u16.
  destruct H as [x|x|x|x].
  1, 2: rewrite <-Z.land_assoc; done.
  - by rewrite Z.land_lor_distr_l, Z.lor_0_r.
  - apply Z.bits_inj'. intros i Hi. unfold minus. rewrite !permissions_bit, Z.ldiff_spec by done.
    destruct (Z.ltb_spec i 9); [|by rewrite !andb_false_r].
    change (Z.shiftl EATTR_NOECACHE EATTR_BIT_OFFSET) with (2 ^ 14).
    rewrite Z.pow2_bits_false by lia. simpl. by rewrite !andb_true_r.
Qed.

Lemma setAcl_ok acl ts : goes_well (setAcl n acl ts (st_acls s)).
Proof.
  unfold goes_well, setAcl. destruct (negb _).
  { eexists _, _, _. split; [done|]. apply keep_ok; [done|right; by apply same_mode]. }
  rewrite the_id. destruct (equivMode acl _ _) as [mode|].
  - edestruct (erase_ok (set_ctime (set_mode n (with_permissions (node_mode n) mode)) ts)) as (st' & -> & H); [done|].
    eexists _, _, _. split; [done|]. exact H.
  - destruct (isAutoSetMode acl).
    + edestruct (set_ok (set_ctime n ts)) as (st' & E & H); [done| |rewrite the_id in *; rewrite E].
      2: { eexists _, _, _. split; [done|]. exact H. }
      unfold mode_agrees. rewrite getMode_setMode. apply Z.eqb_refl.
    + edestruct (set_ok (set_ctime (set_mode n (with_permissions (node_mode n) (getMode acl))) ts)) as (st' & E & H);
        [done| |cbn [node_id set_mode]; rewrite the_id, E].
      2: { eexists _, _, _. split; [done|]. exact H. }
      unfold mode_agrees, set_ctime. cbn [node_mode]. apply set_mode_agrees.
      by rewrite with_permissions_low, getMode_small.
Qed.

Lemma setPosixAcl_ok type acl ts : goes_well (setPosixAcl n type acl ts (st_acls s)).
Proof.
  unfold goes_well, setPosixAcl. assert (goes_well (Some (EINVAL, n, st_acls s)) /\ goes_well (Some (ENOTSUP, n, st_acls s)))
    as [H1 H2] by (split; eexists _, _, _; (split; [done|]); apply keep_ok; [done|right; by apply same_mode|done|right; by apply same_mode]).
  destruct type; [|..|done]; cbn iota; destruct (_ && _); try done; rewrite the_id, (get_rep _ _ (con_rep _ _ Hcon));
    cbn [mbind option_bind]; set (a := match m !! id with Some _ => _ | None => _ end); clearbody a.
  - edestruct (set_ok (set_ctime (set_mode n (with_permissions (node_mode n) (getMode (appendPosixACL a acl (is_directory n))))) ts)
      (appendPosixACL a acl (is_directory n))) as (st' & E & H); [done| |cbn [node_id set_mode]; rewrite the_id, E].
    2: { eexists _, _, _. split; [done|]. exact H. }
    unfold mode_agrees, set_ctime. cbn [node_mode]. apply set_mode_agrees.
    by rewrite with_permissions_low, getMode_small.
  - edestruct (set_ok (set_ctime n ts) (setMode (appendDefaultPosixACL a acl) (node_mode n) true)) as (st' & E & H);
      [done| |rewrite E].
    2: { eexists _, _, _. split; [done|]. exact H. }
    unfold mode_agrees. rewrite getMode_setMode. apply Z.eqb_refl.
Qed.

(** The rewritten lists of deleteAcl() have the masks of the old one. *)
Lemma delete_masks a with_flag : getMode (removeInheritOnly (createExplicitInheritance a) with_flag) = getMode a.
Proof. done. Qed.

Lemma deleteAcl_ok type ts : goes_well (deleteAcl n type ts (st_acls s)).
Proof.
  assert (forall with_flag, goes_well (
    nodeAcl ← get (st_acls s) (node_id n);
    st ← match nodeAcl with
      | None => Some (st_acls s)
      | Some a =>
        let newAcl := removeInheritOnly (createExplicitInheritance a) with_flag in
        if bool_decide (ace_list_ newAcl = []) then erase (st_acls s) (node_id n) else set (st_acls s) (node_id n) newAcl
      end;
    Some (OK, set_ctime n ts, st))) as Hremove.
  { intros with_flag. rewrite the_id, (get_rep _ _ (con_rep _ _ Hcon)). cbn [mbind option_bind].
    destruct (m !! id) as [a|] eqn:E.
    - cbv zeta. destruct (bool_decide _).
      + destruct (erase_ok (set_ctime n ts)) as (st' & -> & H); [done|]. eexists _, _, _. split; [done|]. exact H.
      + edestruct (set_ok (set_ctime n ts) (removeInheritOnly (createExplicitInheritance a) with_flag))
          as (st' & -> & H); [done|exact (agrees_now a E)|]. eexists _, _, _. split; [done|]. exact H.
    - eexists _, _, _. split; [done|]. apply keep_ok; [done|right; by apply same_mode]. }
  unfold deleteAcl. destruct type; [apply Hremove|..].
  - destruct (is_directory n); [apply Hremove|]. eexists _, _, _. split; [done|].
    apply keep_ok; [done|right; by apply same_mode].
  - rewrite the_id. destruct (erase_ok (set_ctime n ts)) as (st' & -> & H); [done|]. eexists _, _, _. split; [done|]. exact H.
Qed.

(** The mode changes, and the list with it. *)
Lemma sync_ok mode :
  exists st', syncAclWithMode (set_mode n mode) (st_acls s) = Some st' /\
    exists m', consistent (MkState (<[id := set_mode n mode]> (st_nodes s)) st') m'.
Proof.
  unfold syncAclWithMode. set (n1 := set_mode n mode). change (node_id n1) with (node_id n). rewrite the_id.
  destruct (setMode_rep _ _ (con_rep _ _ Hcon) id (node_mode n1) (is_directory n1)) as (st' & E & Hr);
    [by eapply consistent_size|].
  rewrite E. eexists. split; [done|]. eexists. eapply consistent_update; try done.
  - intros k Hk. by apply lookup_alter_ne.
  - intros acl. rewrite lookup_alter_eq. destruct (m !! id) as [old|]; [|done]. intros [= <-].
    unfold mode_agrees. rewrite getMode_setMode. apply Z.eqb_refl.
Qed.

Lemma change_mode_ok mode :
  exists n' st', change_mode n mode (st_acls s) = Some (n', st') /\
    exists m', consistent (MkState (<[id := n']> (st_nodes s)) st') m'.
Proof.
  unfold change_mode. set (mode' := Z.lor _ _). destruct (sync_ok mode') as (st' & E & H). rewrite E.
  by eexists _, _.
Qed.

Lemma change_eattr_ok eattr :
  exists n' st', change_eattr n eattr (st_acls s) = Some (n', st') /\
    exists m', consistent (MkState (<[id := n']> (st_nodes s)) st') m'.
Proof.
  unfold change_eattr. set (mode' := Z.lor _ _). destruct (sync_ok mode') as (st' & E & H). rewrite E.
  by eexists _, _.
Qed.

End operations.

Lemma intersect_permissions M G :
  Z.land G kStandardPermissions = G -> (forall i, 0 <= i -> Z.testbit G i = true -> Z.testbit M i = true) ->
  Z.land (Z.land M (Z.lor G (Z.lnot kStandardPermissions))) kStandardPermissions = G.
Proof.
  intros HG Hsub. rewrite <-HG at 2. apply Z.bits_inj'. intros i Hi.
  rewrite !permissions_bit, Z.land_spec, Z.lor_spec, Z.lnot_spec by done.
  destruct (Z.ltb_spec i 9); [|by rewrite !andb_false_r]. rewrite !andb_true_r.
  change kStandardPermissions with (Z.ones 9). rewrite Z.ones_spec_low, orb_false_r by lia.
  specialize (Hsub i Hi). destruct (Z.testbit G i); [by rewrite Hsub|apply andb_false_r].
Qed.

Lemma inherit_permissions_ok s m id n parent parentAcl mode umask :
  consistent s m -> st_nodes s !! id = None -> is_uint 32 id -> node_id n = id ->
  exists n' st', inherit_permissions parent n parentAcl mode umask (st_acls s) = Some (n', st') /\
    exists m', consistent (MkState (<[id := n']> (st_nodes s)) st') m'.
Proof.
  intros Hcon Hno Hu Hid.
  assert (m !! id = None) as Hm.
  { destruct (m !! id) as [acl|] eqn:E; [|done]. destruct (con_agrees _ _ Hcon id acl E) as (x & Hx & _). congruence. }
  (* the state with any node in its place is consistent *)
  assert (forall x, node_id x = id -> consistent (MkState (<[id := x]> (st_nodes s)) (st_acls s)) m) as Hput.
  { intros x Hx. destruct Hcon as [Hr Hi Ha]. split; cbn [st_nodes st_acls]; [done|..].
    - intros k y. destruct (decide (k = id)) as [->|]; [rewrite lookup_insert_eq; by intros [= <-]|].
      rewrite lookup_insert_ne by done. apply Hi.
    - intros k acl Hk. assert (k <> id) by congruence. rewrite lookup_insert_ne by done. by apply Ha. }
  unfold inherit_permissions. set (n1 := set_mode n _). destruct parentAcl as [dir_acl|].
  2: { eexists _, _. split; [done|]. exists m. by apply Hput. }
  destruct (inheritInode dir_acl _ umask _) as [mode' [acl|]] eqn:E.
  2: { eexists _, _. split; [done|]. exists m. by apply Hput. }
  apply inherited_mode_within in E as [-> Hsub].
  edestruct (set_ok _ m (Hput n1 Hid) id n1) with (acl := acl)
    (n' := set_mode n1 (Z.land (node_mode n1) (Z.lor (getMode acl) (Z.lnot kStandardPermissions))))
    as (st' & E & m' & H); [apply lookup_insert_eq|done| |].
  { apply set_mode_agrees. apply intersect_permissions; [apply getMode_small|done]. }
  cbn [st_acls st_nodes] in *. change (node_id n1) with (node_id n). rewrite Hid, E.
  eexists _, _. split; [done|]. exists m'. by rewrite insert_insert_eq in H.
Qed.

Lemma step_consistent s s' m : consistent s m -> step s s' -> exists m', consistent s' m'.
Proof.
  intros Hcon Hstep. destruct Hstep as
    [nodes st id n acl ts r n' st' Hn E|nodes st id n type acl ts r n' st' Hn E|nodes st id n type ts r n' st' Hn E
    |nodes st id n mode n' st' Hn E|nodes st id n eattr n' st' Hn E|nodes st id n mode Hn Hk|nodes st id n n' Hn Hid _ Hk
    |nodes st sid src id n ts found Hs Hn Hf Hk
    |nodes st id n pid parent inh found mode umask n' st' Hno Hu Hid Hp Hf E
    |nodes st id n Hno Hu Hid|nodes st id st' E].
  - destruct (setAcl_ok _ m Hcon id n Hn acl ts) as (? & ? & ? & E' & H). simplify_eq/=. exact H.
  - destruct (setPosixAcl_ok _ m Hcon id n Hn type acl ts) as (? & ? & ? & E' & H). simplify_eq/=. exact H.
  - destruct (deleteAcl_ok _ m Hcon id n Hn type ts) as (? & ? & ? & E' & H). simplify_eq/=. exact H.
  - destruct (change_mode_ok _ m Hcon id n Hn mode) as (? & ? & E' & H). simplify_eq/=. exact H.
  - destruct (change_eattr_ok _ m Hcon id n Hn eattr) as (? & ? & E' & H). simplify_eq/=. exact H.
  - apply (keep_ok _ m Hcon id n Hn); [done|]. right. by apply adjust_ok.
  - apply (keep_ok _ m Hcon id n Hn); [done|]. right. by apply same_mode.
  - apply (keep_ok _ m Hcon id n Hn); [done|]. rewrite (get_rep _ _ (con_rep _ _ Hcon)) in Hf. simplify_eq.
    destruct Hk as [?|Hk%Z.eqb_eq]; [by left|right]. apply Z.eqb_eq. by rewrite <-Hk.
  - destruct (inherit_permissions_ok _ m id n parent (if inh then found else None) mode umask Hcon Hno Hu Hid)
      as (? & ? & E' & H). simplify_eq/=. exact H.
  - exists m. destruct Hcon as [Hr Hi Ha]. split; cbn [st_nodes st_acls] in *; [done|..].
    + intros k y. destruct (decide (k = id)) as [->|]; [rewrite lookup_insert_eq; by intros [= <-]|].
      rewrite lookup_insert_ne by done. apply Hi.
    + intros k acl Hk. destruct (Ha k acl Hk) as (x & Hx & ?). assert (k <> id) by congruence.
      rewrite lookup_insert_ne by done. eauto.
  - destruct (erase_rep _ _ (con_rep _ _ Hcon) id) as (st'' & E' & Hr). cbn [st_acls] in *.
    assert (st'' = st') as -> by congruence. exists (delete id m). destruct Hcon as [_ Hi Ha].
    split; cbn [st_nodes st_acls] in *; [done|..].
    + intros k y. rewrite lookup_delete_Some. intros [_ H]. by apply Hi.
    + intros k acl. rewrite lookup_delete_Some. intros [Hne H]. destruct (Ha k acl H) as (x & Hx & ?).
      exists x. by rewrite lookup_delete_ne.
Qed.

Lemma reachable_consistent s : rtc step no_nodes s -> exists m, consistent s m.
Proof.
  intros H. remember no_nodes as s0 eqn:E0.
  assert (exists m, consistent s0 m) as Hc.
  { subst s0. exists ∅. split; [apply represents_empty|..]; intros ??; simpl; by rewrite lookup_empty. }
  clear E0. induction H as [|s0 s1 s Hstep _ IH]; [done|]. apply IH. destruct Hc as [m Hc]. by eapply step_consistent.
Qed.

(** C20: the mode of a node agrees with its list.  On every state that is reached by creating nodes (with or without
    inheriting), setting and removing RichACLs and POSIX ACLs, changing modes, extra attributes, owners and every other
    field, removing nodes, and snapshots over nodes that have no list or have the permissions of the source, no operation
    on a node fails the assertion on the mode or an assertion of the storage: every check and every change returns.  The
    remaining case breaks it: a snapshot over a node with a list, from a source with other permissions, leaves a node
    whose list getAcl() and access() of an ordinary user assert on.  (Loading the lists of a metadata file is not a step.) *)
Theorem acl_assertions_hold s id n :
  rtc step no_nodes s -> st_nodes s !! id = Some n ->
  (forall cx modeMask, access cx n modeMask (st_acls s) <> None) /\ getAcl n (st_acls s) <> None /\
  (forall acl ts, setAcl n acl ts (st_acls s) <> None) /\
  (forall type acl ts, setPosixAcl n type acl ts (st_acls s) <> None) /\
  (forall type ts, deleteAcl n type ts (st_acls s) <> None) /\
  (forall mode, change_mode n mode (st_acls s) <> None) /\
  (forall src ts acl, get (st_acls s) id = Some (Some acl) -> same_permissions src n = false ->
    getAcl (clone_attributes src n ts) (st_acls s) = None /\
    forall cx modeMask, has (cx_sesflags cx) SESFLAG_NOMASTERPERMCHECK = false -> cx_uid cx <> 0 ->
      access cx (clone_attributes src n ts) modeMask (st_acls s) = None).
Proof.
  intros [m Hcon]%reachable_consistent Hn.
  pose proof (the_id s m Hcon id n Hn) as Hid. pose proof (agrees_now s m Hcon id n Hn) as Ha.
  pose proof (get_rep _ _ (con_rep _ _ Hcon)) as Hget.
  split_and!; [..|intros src ts acl Hacl Hd].
  - intros cx modeMask. unfold access. destruct (_ || _); [done|]. rewrite Hid, Hget. cbn [mbind option_bind].
    destruct (m !! id) as [acl|]; [|done]. by rewrite Ha.
  - unfold getAcl. rewrite Hid, Hget. cbn [mbind option_bind]. destruct (m !! id) as [acl|]; [|done]. by rewrite Ha.
  - intros acl ts. destruct (setAcl_ok s m Hcon id n Hn acl ts) as (? & ? & ? & -> & _). done.
  - intros type acl ts. destruct (setPosixAcl_ok s m Hcon id n Hn type acl ts) as (? & ? & ? & -> & _). done.
  - intros type ts. destruct (deleteAcl_ok s m Hcon id n Hn type ts) as (? & ? & ? & -> & _). done.
  - intros mode. destruct (change_mode_ok s m Hcon id n Hn mode) as (? & ? & -> & _). done.
  - assert (mode_agrees (clone_attributes src n ts) acl = false) as Hno.
    { rewrite Hget in Hacl. simplify_eq. specialize (Ha acl ltac:(done)). unfold mode_agrees in *. cbn [clone_attributes node_mode].
      unfold same_permissions in Hd. apply Z.eqb_eq in Ha. by rewrite <-Ha. }
    change (node_id n) with (node_id (clone_attributes src n ts)) in Hid.
    unfold getAcl, access. rewrite Hid, Hacl. cbn [mbind option_bind]. rewrite Hno. split; [done|].
    intros cx modeMask -> Hu. by rewrite (proj2 (Z.eqb_neq _ 0)).
Qed.

Definition a_node : FSNode := MkNode 1 0 0 0 kFile 1 416 1000 100 0 [] (FileData 0 [] []).
Definition user_acl : RichACL :=
  MkRichACL 127 1 1 kMasked [make_ace kAccessAllowedAceType 0 kPosixModeRead 2000;
    make_ace kAccessAllowedAceType kSpecialWho 127 kOwnerSpecialId].

Lemma acl_assertions_hold_witness :
  exists s n, st_nodes s !! 1 = Some n /\ get (st_acls s) 1 = Some (Some user_acl) /\
    (forall cx modeMask, access cx n modeMask (st_acls s) <> None) /\ getAcl n (st_acls s) <> None /\
    (forall acl ts, setAcl n acl ts (st_acls s) <> None) /\
    (forall type acl ts, setPosixAcl n type acl ts (st_acls s) <> None) /\
    (forall type ts, deleteAcl n type ts (st_acls s) <> None) /\
    (forall mode, change_mode n mode (st_acls s) <> None) /\
    (forall src ts acl, get (st_acls s) 1 = Some (Some acl) -> same_permissions src n = false ->
      getAcl (clone_attributes src n ts) (st_acls s) = None /\
      forall cx modeMask, has (cx_sesflags cx) SESFLAG_NOMASTERPERMCHECK = false -> cx_uid cx <> 0 ->
        access cx (clone_attributes src n ts) modeMask (st_acls s) = None).
Proof.
  set (n' := set_ctime (set_mode a_node 484) 5).
  set (st' := MkStorage (<[user_acl := 1]> ∅) (<[1 := user_acl]> ∅)).
  assert (setAcl a_node user_acl 5 empty_storage = Some (OK, n', st')) as E by (vm_compute; reflexivity).
  exists (MkState (<[1 := n']> (<[1 := a_node]> ∅)) st'), n'.
  split; [apply lookup_insert_eq|]. split; [vm_compute; reflexivity|].
  apply (acl_assertions_hold _ 1); [|apply lookup_insert_eq].
  eapply rtc_l; [apply (step_root _ _ 1 a_node); done|]. eapply rtc_l; [|apply rtc_refl].
  apply (step_setAcl _ _ 1 a_node user_acl 5 OK n' st'); [apply lookup_insert_eq|exact E].
Defined.

(** ** Access decisions *)

Definition who_is (cx : FsContext) (n : FSNode) : Who := MkWho (node_uid n) (node_gid n) (cx_uid cx) (cx_groups cx).

(** A user for whom the checks are made: not root, in a session with checks. *)
Definition checked_access (cx : FsContext) : Prop :=
  cx_uid cx <> 0 /\ has (cx_sesflags cx) SESFLAG_NOMASTERPERMCHECK = false.

(** Neither the session flag that joins the group and the others, nor the attribute that makes everyone an owner. *)
Definition plain_classes (cx : FsContext) (n : FSNode) : Prop :=
  has (cx_sesflags cx) SESFLAG_IGNOREGID = false /\
  has (node_mode n) (Z.shiftl EATTR_NOOWNER EATTR_BIT_OFFSET) = false.

(** Without a list, the bits of the class decide. *)
Lemma access_by_mode cx n st modeMask :
  checked_access cx -> plain_classes cx n -> get st (node_id n) = Some None ->
  access cx n modeMask st = Some (mode_allows (node_mode n) (who_is cx n) modeMask).
Proof.
  intros [Hu Hp] [Hg Ho] E. unfold access. rewrite Hp, (proj2 (Z.eqb_neq _ 0)), E, Ho, Hg, orb_false_r by done. simpl.
  unfold mode_allows, mode_class, in_owning_group, in_groups, hasGroup, who_is.
  cbn [uid owner_uid owner_gid groups]. destruct (cx_uid cx =? node_uid n); [done|].
  by destruct (existsb _ _).
Qed.

Lemma access_by_list cx n st acl modeMask :
  checked_access cx -> get st (node_id n) = Some (Some acl) -> mode_agrees n acl = true ->
  access cx n modeMask st = Some (checkPermission acl (request modeMask (is_directory n)) (who_is cx n)).
Proof.
  intros [Hu Hp] E Ha. unfold access. rewrite Hp, (proj2 (Z.eqb_neq _ 0)), E by done. simpl. rewrite Ha.
  unfold request, file_only, minus. destruct (is_directory n); [by rewrite Z.ldiff_0_r|done].
Qed.

Lemma mode_class_low a b w :
  Z.land a kStandardPermissions = Z.land b kStandardPermissions -> mode_class a w = mode_class b w.
Proof.
  intros H. assert (forall k, 0 <= k <= 6 -> Z.land (Z.shiftr a k) 7 = Z.land (Z.shiftr b k) 7) as Hk.
  { intros k Hk. apply Z.bits_inj'. intros i Hi. rewrite !Z.land_spec, !Z.shiftr_spec by done.
    change 7 with (Z.ones 3). destruct (Z.ltb_spec i 3); [|by rewrite Z.ones_spec_high, !andb_false_r by lia].
    apply (f_equal (fun z => Z.testbit z (i + k))) in H. rewrite !permissions_bit in H by lia.
    rewrite (proj2 (Z.ltb_lt (i + k) 9)), !andb_true_r in H by lia. by rewrite H. }
  unfold mode_class. destruct (uid w =? _); [apply Hk; lia|]. destruct (in_owning_group w); apply Hk; lia.
Qed.

Lemma with_permissions_noowner mode p :
  has (u16 (with_permissions mode p)) (Z.shiftl EATTR_NOOWNER EATTR_BIT_OFFSET) =
  has mode (Z.shiftl EATTR_NOOWNER EATTR_BIT_OFFSET).
Proof.
  change (Z.shiftl EATTR_NOOWNER EATTR_BIT_OFFSET) with (2 ^ 12). rewrite !has_bit by lia. unfold u16, wrap.
  rewrite Z.mod_pow2_bits_low by lia. unfold with_permissions, minus.
  rewrite Z.lor_spec, Z.ldiff_spec, permissions_bit by lia. simpl. by rewrite andb_false_r, orb_false_r, andb_true_r.
Qed.

(** The corner where a list and its equivalent mode may differ (see [equivMode_sound]). *)
Definition comparable (acl : RichACL) (w : Who) : Prop :=
  uid w = owner_uid w -> in_owning_group w = true -> isMasked acl = true -> isWriteThrough acl = true.

(** The list that setAcl() stores. *)
Definition stored_list (acl : RichACL) (n : FSNode) : RichACL :=
  if isAutoSetMode acl
  then setMode (with_flags acl (minus (flags_ acl) kAutoSetMode)) (node_mode n) (is_directory n) else acl.



(** ** The permissions of new nodes *)

Lemma class_mode_low a b w l :
  Z.land a kStandardPermissions = Z.land b kStandardPermissions ->
  convertMode2Mask (class_mode a w l) = convertMode2Mask (class_mode b w l).
Proof.
  intros H. assert (forall k i, 0 <= k <= 6 -> 0 <= i <= 2 -> Z.testbit (Z.shiftr a k) i = Z.testbit (Z.shiftr b k) i) as Hk.
  { intros k i Hk Hi. rewrite !Z.shiftr_spec by lia.
    apply (f_equal (fun z => Z.testbit z (i + k))) in H. rewrite !permissions_bit in H by lia.
    by rewrite (proj2 (Z.ltb_lt (i + k) 9)), !andb_true_r in H by lia. }
  unfold convertMode2Mask. destruct (has_mode (class_mode a w l)) as (-> & -> & ->).
  destruct (has_mode (class_mode b w l)) as (-> & -> & ->). unfold class_mode, class_mask.
  destruct (uid w =? _); [by rewrite !Hk by lia|]. destruct (user_in_class w l); [by rewrite !Hk by lia|].
  pose proof (Hk 0) as H0. rewrite !Z.shiftr_0_r in H0. by rewrite !H0 by lia.
Qed.

Lemma initial_mode_low parent type mode :
  Z.land (u16 (initial_mode parent type mode)) kStandardPermissions = Z.land mode kStandardPermissions.
Proof.
  rewrite permissions_u16. unfold initial_mode. rewrite Z.land_lor_distr_l, <-!Z.land_assoc.
  replace (Z.land (if bool_decide (type = kDirectory) then kExtraAttributesMask
    else minus kExtraAttributesMask (Z.shiftl EATTR_NOECACHE EATTR_BIT_OFFSET)) kStandardPermissions) with 0
    by by destruct (bool_decide _).
  by rewrite Z.land_0_r, Z.lor_0_r.
Qed.

(** Requests within a mode class. *)
Lemma request_within m class is_dir :
  0 <= m < 8 -> Z.land (Z.land class 7) m = m -> minus (request m is_dir) (convertMode2Mask class) = 0.
Proof.
  intros Hm H. apply zero_bits. intros b Hb. unfold request, minus. rewrite !Z.ldiff_spec, !convertMode2Mask_bit by done.
  destruct (mode_bit b) as [i|] eqn:Eb; [|done]. destruct (mode_bit_range b i Eb) as [Hi _].
  apply (f_equal (fun z => Z.testbit z i)) in H. rewrite Z.land_spec, land_7_bit in H by lia.
  destruct (Z.testbit m i); [|done]. rewrite andb_true_r in H. rewrite H. by rewrite andb_false_r.
Qed.

Lemma mode_class_sub a b w m :
  0 <= m < 8 -> (forall i, 0 <= i < 9 -> Z.testbit a i = true -> Z.testbit b i = true) ->
  mode_allows a w m = true -> mode_allows b w m = true.
Proof.
  intros Hm H. unfold mode_allows, mode_class. set (k := if uid w =? owner_uid w then 6 else _).
  assert (0 <= k <= 6) as Hk by (unfold k; destruct (uid w =? _); [lia|destruct (in_owning_group w); lia]).
  rewrite !Z.eqb_eq. intros Ha. apply Z.bits_inj'. intros i Hi. apply (f_equal (fun z => Z.testbit z i)) in Ha.
  rewrite Z.land_spec in Ha |- *. destruct (Z.testbit m i) eqn:Em; [|by rewrite andb_false_r].
  rewrite andb_true_r in Ha |- *. destruct (Z.le_gt_cases i 2); [|by rewrite small_mode_bits in Em by lia].
  rewrite land_7_bit, Z.shiftr_spec in Ha |- * by lia. apply H; [lia|done].
Qed.

(** The class of a user under special entries. *)
Lemma class_mode_special mode w l m :
  Forall special_entry l -> mode_allows mode w m = true ->
  Z.land (Z.land (class_mode mode w l) 7) m = m.
Proof.
  intros Hl H. apply Z.eqb_eq in H. rewrite <-H at 2. f_equal. unfold class_mode, class_mask, mode_class.
  destruct (uid w =? owner_uid w) eqn:Eu; [done|]. unfold user_in_class.
  destruct (in_owning_group w) eqn:Eg; [done|]. rewrite no_special_class by done. by rewrite Z.shiftr_0_r.
Qed.

(** C29: a node created in a directory with inheritable entries gives no more than either side does to the users for
    whom checks are made (not root, nor a session without checks; and, where the node got no list of its own, without
    SESFLAG_IGNOREGID and EATTR_NOOWNER): whatever access() grants on the new node, the inherited entries grant, and so
    do the bits of the creation mode for the user's class, where the owner is in the owner class, the members of the
    owning group and every user and member of a group that an inherited entry names are in the group class, and everyone
    else is in the other class. *)
Theorem created_access_bounded s id n parent dir_acl mode umask n' st' cx modeMask :
  rtc step no_nodes s -> st_nodes s !! id = None -> is_uint 32 id -> node_id n = id ->
  Forall valid_entry (ace_list_ dir_acl) -> ace_list_ (inherit dir_acl (is_directory n)) <> [] ->
  inherit_permissions parent n (Some dir_acl) mode umask (st_acls s) = Some (n', st') ->
  checked_access cx -> (get st' id = Some None -> plain_classes cx n') -> 0 <= modeMask < 8 ->
  access cx n' modeMask st' = Some true ->
  let inherited := inherit dir_acl (is_directory n) in
  checkPermission inherited (request modeMask (is_directory n)) (who_is cx n') = true /\
  minus (request modeMask (is_directory n))
    (convertMode2Mask (class_mode mode (who_is cx n') (ace_list_ inherited))) = 0.
Proof.
  intros [m Hcon]%reachable_consistent Hno Hu Hid Hv Hne E Hchecked Hplain Hm Hacc inherited.
  pose proof (inherit_permissions_ok s m id n parent (Some dir_acl) mode umask Hcon Hno Hu Hid) as (n2 & st2 & E2 & m' & Hc').
  rewrite E in E2. injection E2 as <- <-.
  assert (st_nodes (MkState (<[id := n']> (st_nodes s)) st') !! id = Some n') as Hn' by apply lookup_insert_eq.
  pose proof (the_id _ _ Hc' id n' Hn') as Hid'. pose proof (agrees_now _ _ Hc' id n' Hn') as Hag.
  unfold inherit_permissions in E. set (n1 := set_mode n _) in E. change (is_directory n1) with (is_directory n) in E.
  assert (Z.land (node_mode n1) kStandardPermissions = Z.land mode kStandardPermissions) as Hlow by apply initial_mode_low.
  rewrite <-(class_mode_low _ _ (who_is cx n') (ace_list_ inherited) Hlow).
  destruct (inheritInode dir_acl (node_mode n1) umask (is_directory n)) as [mode' [acl|]] eqn:Ei.
  - destruct (set_rep _ _ (con_rep _ _ Hcon) id acl (consistent_size _ _ Hcon)) as (st1 & E1 & Hr).
    change (node_id n1) with (node_id n) in E. rewrite Hid, E1 in E. injection E as <- <-.
    assert (get st1 id = Some (Some acl)) as Hget by (rewrite (get_rep _ _ Hr); by rewrite lookup_insert_eq).
    rewrite (access_by_list _ _ _ acl) in Hacc; [|done|by rewrite Hid'|].
    2: { apply Hag. pose proof (get_rep _ _ (con_rep _ _ Hc') id) as Hg. cbn [st_acls] in Hg. congruence. }
    injection Hacc as Hacc. apply (inheritInode_list _ _ _ _ _ _ _ _ Hv Ei) in Hacc.
    + replace (ace_list_ inherited) with (ace_list_ acl); [exact Hacc|]. unfold inherited.
      by rewrite (inheritInode_entries _ _ _ _ _ _ Ei).
    + by apply request_range.
  - injection E as <- <-. apply inheritInode_equiv in Ei as (mode'' & Eq & ->); [|done].
    assert (m !! id = None) as Hm0.
    { destruct (m !! id) as [acl|] eqn:Em; [|done]. destruct (con_agrees _ _ Hcon id acl Em) as (? & ? & _). congruence. }
    assert (get (st_acls s) id = Some None) as Hget by (by rewrite (get_rep _ _ (con_rep _ _ Hcon)), Hm0).
    rewrite access_by_mode in Hacc; [|done|by apply Hplain|by rewrite Hid'].
    injection Hacc as Hacc.
    assert (forall i, 0 <= i < 9 -> Z.testbit (node_mode (set_mode n1 (Z.land (node_mode n1)
      (Z.lor (Z.land (node_mode n1) mode'') (Z.lnot kStandardPermissions))))) i = true ->
      Z.testbit (node_mode n1) i = true /\ Z.testbit mode'' i = true) as Hbits.
    { intros i Hi. unfold set_mode. cbn [node_mode]. unfold u16 at 1, wrap. rewrite Z.mod_pow2_bits_low by lia.
      rewrite Z.land_spec, Z.lor_spec, Z.lnot_spec, Z.land_spec by lia.
      change kStandardPermissions with (Z.ones 9). rewrite Z.ones_spec_low, orb_false_r by lia.
      intros [H1 [_ H2]%andb_true_iff]%andb_true_iff. done. }
    assert (Forall (fun a => isDeny a = negb (isAllow a)) (ace_list_ inherited)) as Ht.
    { eapply Forall_impl; [apply inherit_valid, Hv|]. by intros a [? _]. }
    split.
    + unfold inherited. rewrite (equiv_mode_check _ _ _ _ _ _ Eq Ht); [|by rewrite (proj1 (inherit_unmasked _ _))|done].
      eapply mode_class_sub; [done| |exact Hacc]. intros i Hi Hb. by apply Hbits.
    + apply request_within; [done|]. apply class_mode_special.
      * eapply equivMode_special; [exact Eq|exact Ht|apply (proj2 (inherit_unmasked _ _))].
      * eapply mode_class_sub; [done| |exact Hacc]. intros i Hi Hb. by apply Hbits.
Qed.

Definition a_directory : FSNode := MkNode 3 0 0 0 kDirectory 1 504 1000 100 0 [] (DirectoryData new_directory).
Definition a_file : FSNode := MkNode 2 0 0 0 kFile 1 0 1000 100 0 [] (FileData 0 [] []).
Definition inheritable_acl : RichACL :=
  MkRichACL 127 127 0 0 [make_ace kAccessAllowedAceType kFileInheritAce kPosixModeRead 2000].
Definition inherited_acl : RichACL :=
  MkRichACL 1 1 0 kMasked [make_ace kAccessAllowedAceType 0 kPosixModeRead 2000].

Lemma created_access_bounded_witness :
  let cx := MkContext 0 2000 [5] in
  let n' := set_mode a_file 288 in
  let inherited := inherit inheritable_acl false in
  checkPermission inherited (request 4 false) (who_is cx n') = true /\
  minus (request 4 false) (convertMode2Mask (class_mode 420 (who_is cx n') (ace_list_ inherited))) = 0.
Proof.
  intros cx n' inherited.
  assert (inherit_permissions a_directory a_file (Some inheritable_acl) 420 0 empty_storage =
    Some (n', MkStorage (<[inherited_acl := 1]> ∅) (<[2 := inherited_acl]> ∅))) as E by (vm_compute; reflexivity).
  apply (created_access_bounded no_nodes 2 a_file a_directory inheritable_acl 420 0 n'
    (MkStorage (<[inherited_acl := 1]> ∅) (<[2 := inherited_acl]> ∅)) cx 4).
  - apply rtc_refl.
  - done.
  - done.
  - done.
  - repeat constructor; vm_compute; intros; congruence.
  - vm_compute. discriminate.
  - exact E.
  - vm_compute. repeat split; congruence.
  - vm_compute. repeat split; congruence.
  - done.
  - vm_compute. reflexivity.
Defined.

(** ** POSIX ACLs and the owning group *)

Lemma check_loop_skips acl w l mask denied in_class :
  Forall (fun a => isInheritOnly a = true) l -> check_loop acl w l mask denied in_class = (mask, denied, in_class).
Proof. induction 1 as [|a l Ha _ IH]; simpl; [done|]. unfold matching. by rewrite Ha. Qed.

(** A masked list without entries that apply refuses the owning group. *)
Lemma group_locked_out acl requested w :
  isMasked acl = true -> Forall (fun a => isInheritOnly a = true) (ace_list_ acl) ->
  uid w <> owner_uid w -> in_owning_group w = true -> 0 < requested -> checkPermission acl requested w = false.
Proof.
  intros Hm Hl Hu Hg Hr. unfold checkPermission. rewrite Hm, (proj2 (Z.eqb_neq (owner_uid w) _)) by done.
  rewrite andb_false_r. simpl. rewrite check_loop_skips, Hg, (proj2 (Z.eqb_neq (uid w) _)) by done. cbv beta iota zeta.
  apply Z.eqb_neq. intros [[_ ?]%Z.lor_eq_0_iff _]%Z.lor_eq_0_iff. lia.
Qed.

Lemma request_positive m is_dir : 1 <= m < 8 -> 0 < request m is_dir.
Proof.
  intros H. assert (m = 1 \/ m = 2 \/ m = 3 \/ m = 4 \/ m = 5 \/ m = 6 \/ m = 7) as Hm by lia.
  destruct_or! Hm; subst m; by destruct is_dir.
Qed.

Lemma default_inherit_only acl : Forall (fun a => isInheritOnly a = true) (ace_list_ (appendDefaultPosixACL empty_acl acl)).
Proof.
  unfold appendDefaultPosixACL. simpl. apply Forall_fmap, Forall_true. intros a. unfold compose, isInheritOnly, set_flags.
  cbn [ace_flags]. change kInheritOnlyAce with (2 ^ 3). unfold wrap. rewrite has_bit, Z.mod_pow2_bits_low, Z.lor_spec by lia. by rewrite orb_true_r.
Qed.

Definition group_member : FsContext := MkContext 0 2000 [100].

(** A default ACL that gives the user 3000 and the owning group everything. *)
Definition default_posix_acl : Posix.AccessControlList :=
  default Posix.empty (Posix.setEntry (Posix.setMode Posix.empty 504) Posix.kNamedUser 3000 7
    ≫= fun acl => Posix.setEntry acl Posix.kMask 0 7).


