(* ===== verification/Trash.v ===== *)
(** The containers of detached files (src/master/filesystem_trash_reserved_files.h): the paths of the files in the
    trash, ordered by the time at which they expire, the paths of the reserved files, and the two indices through
    which directory listings of the meta file system page.

    A handle is a string in the heap; its [data()] is its address (with a hash), so live handles are different.  The
    model numbers the handles in the order of their creation. *)
From S2P Require Import Prelude Serialization.

Definition kMaxIdForTrashOrReservedName : Z := 9223372036854775807.

(** TrashPathKey: the time of expiration, which saturates, and the inode. *)
Definition TrashPathKey (id ctime trashtime : Z) : Z * Z := (Z.min (ctime + trashtime) uint32_max, id).

Record handle := MkHandle { data : Z; path_of : list Z }.

Record Detached := MkDetached {
  trash : gmap (Z * Z) handle;
  reserved : gmap Z handle;
  trashHandlesIndex : gmap Z Z;
  reservedHandlesIndex : gmap Z Z;
  nameToId : gmap Z Z;
  counter : Z;
  next_handle : Z;
}.

Definition no_detached : Detached := MkDetached ∅ ∅ ∅ ∅ ∅ 0 0.

(** TrashReservedToIdContainer::getOrAdd() *)
Definition getOrAdd (s : Detached) (h : Z) : Z * Detached :=
  match nameToId s !! h with
  | Some i => (i, s)
  | None =>
    let c := if kMaxIdForTrashOrReservedName <=? counter s then counter s else counter s + 1 in
    let newId := if kMaxIdForTrashOrReservedName <=? counter s then kMaxIdForTrashOrReservedName else c in
    (newId, MkDetached (trash s) (reserved s) (trashHandlesIndex s) (reservedHandlesIndex s)
              (<[h := newId]> (nameToId s)) c (next_handle s))
  end.

(** [insert] of std::map keeps an element that is there. *)
Definition map_insert `{Countable K} {A} (k : K) (x : A) (m : gmap K A) : gmap K A :=
  match m !! k with Some _ => m | None => <[k := x]> m end.

Definition set_trash (s : Detached) (t : gmap (Z * Z) handle) : Detached :=
  MkDetached t (reserved s) (trashHandlesIndex s) (reservedHandlesIndex s) (nameToId s) (counter s) (next_handle s).
Definition set_reserved (s : Detached) (r : gmap Z handle) : Detached :=
  MkDetached (trash s) r (trashHandlesIndex s) (reservedHandlesIndex s) (nameToId s) (counter s) (next_handle s).
Definition set_trash_index (s : Detached) (i : gmap Z Z) : Detached :=
  MkDetached (trash s) (reserved s) i (reservedHandlesIndex s) (nameToId s) (counter s) (next_handle s).
Definition set_reserved_index (s : Detached) (i : gmap Z Z) : Detached :=
  MkDetached (trash s) (reserved s) (trashHandlesIndex s) i (nameToId s) (counter s) (next_handle s).
Definition set_nameToId (s : Detached) (n : gmap Z Z) : Detached :=
  MkDetached (trash s) (reserved s) (trashHandlesIndex s) (reservedHandlesIndex s) n (counter s) (next_handle s).

(** A new handle. *)
Definition new_handle (s : Detached) (path : list Z) : handle * Detached :=
  (MkHandle (next_handle s) path,
   MkDetached (trash s) (reserved s) (trashHandlesIndex s) (reservedHandlesIndex s) (nameToId s) (counter s)
     (next_handle s + 1)).

Definition addTrashEntry (s : Detached) (id ctime trashtime : Z) (path : list Z) : option Detached :=
  let key := TrashPathKey id ctime trashtime in
  let '(h, s) := new_handle s path in
  let s := set_trash s (map_insert key h (trash s)) in
  h ← trash s !! key;
  let '(pathId, s) := getOrAdd s (data h) in
  Some (set_trash_index s (map_insert pathId id (trashHandlesIndex s))).

Definition removeTrashEntryByKey (s : Detached) (key : Z * Z) : Detached :=
  match trash s !! key with
  | None => s
  | Some h =>
    let s :=
      match nameToId s !! data h with
      | Some pathId => set_nameToId (set_trash_index s (delete pathId (trashHandlesIndex s))) (delete (data h) (nameToId s))
      | None => s
      end in
    set_trash s (delete key (trash s))
  end.

Definition removeTrashEntry (s : Detached) (id ctime trashtime : Z) : Detached :=
  let key := TrashPathKey id ctime trashtime in
  match trash s !! key with
  | None => s
  | Some h =>
    match nameToId s !! data h with
    | None => s
    | Some pathId =>
      let s := set_nameToId (set_trash_index s (delete pathId (trashHandlesIndex s))) (delete (data h) (nameToId s)) in
      set_trash s (delete key (trash s))
    end
  end.

Definition addReservedEntry (s : Detached) (id : Z) (path : list Z) : option Detached :=
  let '(h, s) := new_handle s path in
  let s := set_reserved s (map_insert id h (reserved s)) in
  h ← reserved s !! id;
  let '(pathId, s) := getOrAdd s (data h) in
  Some (set_reserved_index s (map_insert pathId id (reservedHandlesIndex s))).

Definition removeReservedEntry (s : Detached) (id : Z) : Detached :=
  match reserved s !! id with
  | None => s
  | Some h =>
    match nameToId s !! data h with
    | None => s
    | Some pathId =>
      let s := set_nameToId (set_reserved_index s (delete pathId (reservedHandlesIndex s))) (delete (data h) (nameToId s)) in
      set_reserved s (delete id (reserved s))
    end
  end.

Definition moveTrashToReservedEntry (s : Detached) (id ctime trashtime : Z) : Detached :=
  let key := TrashPathKey id ctime trashtime in
  match trash s !! key with
  | None => s
  | Some h =>
    match nameToId s !! data h with
    | None => s
    | Some idFromName =>
      let s := set_trash_index s (delete idFromName (trashHandlesIndex s)) in
      let s := set_trash s (delete key (trash s)) in
      let s := set_reserved s (map_insert id h (reserved s)) in
      set_reserved_index s (map_insert idFromName id (reservedHandlesIndex s))
    end
  end.

Definition updateTrashNameEntry (s : Detached) (id ctime trashtime : Z) (newPath : list Z) : Detached :=
  let key := TrashPathKey id ctime trashtime in
  match trash s !! key with
  | None => s
  | Some h =>
    match nameToId s !! data h with
    | None => s
    | Some oldPathId =>
      let s := set_nameToId (set_trash_index s (delete oldPathId (trashHandlesIndex s))) (delete (data h) (nameToId s)) in
      let '(h, s) := new_handle s newPath in
      let s := set_trash s (<[key := h]> (trash s)) in
      let '(pathId, s) := getOrAdd s (data h) in
      set_trash_index s (map_insert pathId id (trashHandlesIndex s))
    end
  end.

(** updateTrashFromOldEntry(): the handle moves to the new key. *)
Definition updateTrashFromOldEntry (s : Detached) (oldKey newKey : Z * Z) : Detached :=
  match trash s !! oldKey with
  | None => s
  | Some h => set_trash s (map_insert newKey h (delete oldKey (trash s)))
  end.

(** ** What the containers keep

    The detached files as one list: where the file is (its key in the trash, or its number among the reserved
    files), its handle, and the identifier of the path.  The five containers are views of the list. *)

Record entry := MkEntry { where_ : (Z * Z) + Z; handle_ : handle; path_id : Z }.

Definition trash_view (e : entry) : option ((Z * Z) * handle) :=
  match where_ e with inl key => Some (key, handle_ e) | inr _ => None end.
Definition reserved_view (e : entry) : option (Z * handle) :=
  match where_ e with inl _ => None | inr id => Some (id, handle_ e) end.
Definition trash_index_view (e : entry) : option (Z * Z) :=
  match where_ e with inl key => Some (path_id e, key.2) | inr _ => None end.
Definition reserved_index_view (e : entry) : option (Z * Z) :=
  match where_ e with inl _ => None | inr id => Some (path_id e, id) end.
Definition name_view (e : entry) : option (Z * Z) := Some (data (handle_ e), path_id e).

Definition view `{Countable K} {A} (f : entry -> option (K * A)) (L : list entry) : gmap K A := list_to_map (omap f L).

Record keeps (s : Detached) (L : list entry) : Prop := MkKeeps {
  kp_trash : trash s = view trash_view L;
  kp_reserved : reserved s = view reserved_view L;
  kp_trash_index : trashHandlesIndex s = view trash_index_view L;
  kp_reserved_index : reservedHandlesIndex s = view reserved_index_view L;
  kp_names : nameToId s = view name_view L;
  kp_where : NoDup (where_ <$> L);
  kp_handles : NoDup ((fun e => data (handle_ e)) <$> L);
  kp_ids : NoDup (path_id <$> L);
  kp_old : Forall (fun e => data (handle_ e) < next_handle s /\ path_id e <= counter s) L;
}.

(** A view with keys of its own: an injective function of something that has no duplicates. *)
Lemma NoDup_view `{Countable K} {A B} (f : entry -> option (K * A)) (g : entry -> B) L :
  (forall e e' x x', f e = Some x -> f e' = Some x' -> x.1 = x'.1 -> g e = g e') ->
  NoDup (g <$> L) -> NoDup (omap f L).*1.
Proof.
  intros Hinj. induction L as [|e L IH]; simpl; [constructor|]. intros [Hnot Hnd]%NoDup_cons.
  destruct (f e) as [x|] eqn:E; simpl; [|by apply IH]. constructor; [|by apply IH].
  intros (x' & Hx & (e' & He' & Hf)%list_elem_of_omap)%list_elem_of_fmap. apply Hnot.
  rewrite (Hinj e e' x x' E Hf Hx). by apply list_elem_of_fmap_2.
Qed.

Lemma view_cons `{Countable K} {A} (f : entry -> option (K * A)) e L :
  view f (e :: L) = match f e with Some (k, a) => <[k := a]> (view f L) | None => view f L end.
Proof. unfold view. simpl. by destruct (f e) as [[k a]|]. Qed.

Lemma view_fresh `{Countable K} {A} (f : entry -> option (K * A)) L k :
  (forall e a, e ∈ L -> f e <> Some (k, a)) -> view f L !! k = None.
Proof.
  intros Hf. apply not_elem_of_list_to_map_1. intros ([k' a] & -> & (e & He & E)%list_elem_of_omap)%list_elem_of_fmap.
  by eapply Hf.
Qed.

Lemma keeps_empty : keeps no_detached [].
Proof. split; try done; constructor. Qed.

Lemma view_perm `{Countable K} {A B} (f : entry -> option (K * A)) (g : entry -> B) L L' :
  (forall e e' x x', f e = Some x -> f e' = Some x' -> x.1 = x'.1 -> g e = g e') ->
  NoDup (g <$> L) -> L ≡ₚ L' -> view f L = view f L'.
Proof. intros Hf Hnd HL. unfold view. apply list_to_map_proper; [by eapply NoDup_view|]. by rewrite HL. Qed.

Ltac view_inj :=
  intros [w h p] [w' h' p'] x x'; unfold trash_view, reserved_view, trash_index_view, reserved_index_view, name_view;
  simpl; intros ? ? ?; repeat case_match; simplify_eq/=; congruence.

Lemma keeps_perm s L L' : keeps s L -> L ≡ₚ L' -> keeps s L'.
Proof.
  intros [K1 K2 K3 K4 K5 K6 K7 K8 K9] HL. split; try (rewrite <-HL; done).
  - rewrite K1. apply (view_perm _ where_); [view_inj|done|done].
  - rewrite K2. apply (view_perm _ where_); [view_inj|done|done].
  - rewrite K3. apply (view_perm _ path_id); [view_inj|done|done].
  - rewrite K4. apply (view_perm _ path_id); [view_inj|done|done].
  - rewrite K5. apply (view_perm _ (fun e => data (handle_ e))); [view_inj|done|done].
Qed.

(** What is not there, from what has no duplicates. *)
Lemma not_in_where L k : inl k ∉ (where_ <$> L) -> view trash_view L !! k = None.
Proof.
  intros Hn. apply view_fresh. intros [w h p] a He. unfold trash_view. simpl. destruct w; [|done].
  intros [= -> ->]. apply Hn. exact (list_elem_of_fmap_2 where_ _ _ He).
Qed.

Lemma not_in_reserved L id : inr id ∉ (where_ <$> L) -> view reserved_view L !! id = None.
Proof.
  intros Hn. apply view_fresh. intros [w h p] a He. unfold reserved_view. simpl. destruct w; [done|].
  intros [= -> ->]. apply Hn. exact (list_elem_of_fmap_2 where_ _ _ He).
Qed.

Lemma not_in_names L h : h ∉ ((fun e => data (handle_ e)) <$> L) -> view name_view L !! h = None.
Proof.
  intros Hn. apply view_fresh. intros [w h' p] a He. unfold name_view. simpl. intros [= <- ->]. apply Hn.
  exact (list_elem_of_fmap_2 (fun e => data (handle_ e)) _ _ He).
Qed.

Lemma not_in_ids L i :
  i ∉ (path_id <$> L) -> view trash_index_view L !! i = None /\ view reserved_index_view L !! i = None.
Proof.
  intros Hn. split; apply view_fresh; intros [w h' p] a He; unfold trash_index_view, reserved_index_view; simpl;
    destruct w; try done; intros E; simplify_eq; apply Hn; exact (list_elem_of_fmap_2 path_id _ _ He).
Qed.

(** The entry at the head. *)
Record head_fresh (e : entry) (L : list entry) : Prop := MkFresh {
  hf_where : where_ e ∉ (where_ <$> L);
  hf_handle : data (handle_ e) ∉ ((fun e => data (handle_ e)) <$> L);
  hf_id : path_id e ∉ (path_id <$> L);
}.

Lemma keeps_head s e L : keeps s (e :: L) -> head_fresh e L.
Proof. intros [_ _ _ _ _ K6 K7 K8 _]. simpl in *. apply NoDup_cons in K6 as [? _], K7 as [? _], K8 as [? _]. by split. Qed.

Lemma map_insert_fresh `{Countable K} {A} (k : K) (x : A) m : m !! k = None -> map_insert k x m = <[k := x]> m.
Proof. intros E. unfold map_insert. by rewrite E. Qed.

(** A new handle and a new identifier. *)
Lemma old_fresh s L w path :
  keeps s L -> w ∉ (where_ <$> L) -> head_fresh (MkEntry w (MkHandle (next_handle s) path) (counter s + 1)) L.
Proof.
  intros [_ _ _ _ _ _ _ _ K9] Hw. rewrite Forall_forall in K9. split; simpl; [done| |];
    intros (e & E & He)%list_elem_of_fmap; destruct (K9 e He); lia.
Qed.

Lemma getOrAdd_new s h :
  nameToId s !! h = None -> counter s < kMaxIdForTrashOrReservedName ->
  getOrAdd s h = (counter s + 1, MkDetached (trash s) (reserved s) (trashHandlesIndex s) (reservedHandlesIndex s)
                    (<[h := counter s + 1]> (nameToId s)) (counter s + 1) (next_handle s)).
Proof. intros E Hc. unfold getOrAdd. rewrite E. rewrite (proj2 (Z.leb_gt _ _)) by done. done. Qed.

Lemma keeps_addTrashEntry s L id ctime trashtime path :
  let key := TrashPathKey id ctime trashtime in
  keeps s L -> inl key ∉ (where_ <$> L) -> counter s < kMaxIdForTrashOrReservedName ->
  exists s', addTrashEntry s id ctime trashtime path = Some s' /\
    keeps s' (MkEntry (inl key) (MkHandle (next_handle s) path) (counter s + 1) :: L).
Proof.
  intros key Hk Hw Hc. pose proof (old_fresh s L _ path Hk Hw) as [F1 F2 F3]. simpl in *.
  destruct Hk as [K1 K2 K3 K4 K5 K6 K7 K8 K9]. unfold addTrashEntry. fold key. cbn [new_handle set_trash trash].
  rewrite map_insert_fresh by (rewrite K1; by apply not_in_where). rewrite lookup_insert_eq. cbn [mbind option_bind data].
  rewrite getOrAdd_new; [|simpl; rewrite K5; by apply not_in_names|done]. cbn [set_trash_index trashHandlesIndex set_trash].
  eexists. split; [done|]. split; simpl; rewrite ?view_cons; cbn [trash_view reserved_view trash_index_view reserved_index_view
    name_view where_ handle_ path_id data]; rewrite ?K1, ?K2, ?K4, ?K5; try done.
  - rewrite map_insert_fresh, K3; [done|]. rewrite K3. by apply not_in_ids.
  - by apply NoDup_cons.
  - by apply NoDup_cons.
  - by apply NoDup_cons.
  - constructor; [simpl; lia|]. eapply Forall_impl; [exact K9|]. simpl. lia.
Qed.

Lemma keeps_tail s s' e L :
  keeps s (e :: L) -> trash s' = view trash_view L -> reserved s' = view reserved_view L ->
  trashHandlesIndex s' = view trash_index_view L -> reservedHandlesIndex s' = view reserved_index_view L ->
  nameToId s' = view name_view L -> next_handle s' = next_handle s -> counter s' = counter s -> keeps s' L.
Proof.
  intros [_ _ _ _ _ K6 K7 K8 K9] E1 E2 E3 E4 E5 E6 E7. simpl in *.
  apply NoDup_cons in K6 as [_ K6], K7 as [_ K7], K8 as [_ K8]. apply Forall_cons in K9 as [_ K9].
  split; try done. by rewrite E6, E7.
Qed.

Lemma keeps_lookup_trash s key h i L :
  keeps s (MkEntry (inl key) h i :: L) -> trash s !! key = Some h /\ nameToId s !! data h = Some i.
Proof.
  intros [K1 _ _ _ K5 _ _ _ _]. rewrite K1, K5, !view_cons. simpl. by rewrite !lookup_insert_eq.
Qed.

Lemma keeps_lookup_reserved s id h i L :
  keeps s (MkEntry (inr id) h i :: L) -> reserved s !! id = Some h /\ nameToId s !! data h = Some i.
Proof.
  intros [_ K2 _ _ K5 _ _ _ _]. rewrite K2, K5, !view_cons. simpl. by rewrite !lookup_insert_eq.
Qed.

(** Deleting the entry at the head from each container. *)
Ltac drop_head K :=
  rewrite K, view_cons; cbn [trash_view reserved_view trash_index_view reserved_index_view name_view where_ handle_ path_id];
  try (rewrite delete_insert_id; [done|]).

Lemma keeps_drop_trash s key h i L :
  keeps s (MkEntry (inl key) h i :: L) ->
  keeps (set_trash (set_nameToId (set_trash_index s (delete i (trashHandlesIndex s))) (delete (data h) (nameToId s)))
          (delete key (trash s))) L.
Proof.
  intros Hk. pose proof (keeps_head _ _ _ Hk) as [F1 F2 F3]. simpl in *. eapply keeps_tail; [exact Hk|..]; try done; simpl;
    destruct Hk as [K1 K2 K3 K4 K5 _ _ _ _].
  - drop_head K1. by apply not_in_where.
  - by drop_head K2.
  - drop_head K3. by apply not_in_ids.
  - by drop_head K4.
  - drop_head K5. by apply not_in_names.
Qed.

Lemma keeps_removeTrashEntry s id ctime trashtime h i L :
  keeps s (MkEntry (inl (TrashPathKey id ctime trashtime)) h i :: L) -> keeps (removeTrashEntry s id ctime trashtime) L.
Proof.
  intros Hk. destruct (keeps_lookup_trash _ _ _ _ _ Hk) as [E1 E2]. unfold removeTrashEntry. rewrite E1, E2.
  exact (keeps_drop_trash _ _ _ _ _ Hk).
Qed.

Lemma keeps_removeTrashEntryByKey s key h i L :
  keeps s (MkEntry (inl key) h i :: L) -> keeps (removeTrashEntryByKey s key) L.
Proof.
  intros Hk. destruct (keeps_lookup_trash _ _ _ _ _ Hk) as [E1 E2]. unfold removeTrashEntryByKey. rewrite E1, E2.
  exact (keeps_drop_trash _ _ _ _ _ Hk).
Qed.

Lemma keeps_addReservedEntry s L id path :
  keeps s L -> inr id ∉ (where_ <$> L) -> counter s < kMaxIdForTrashOrReservedName ->
  exists s', addReservedEntry s id path = Some s' /\
    keeps s' (MkEntry (inr id) (MkHandle (next_handle s) path) (counter s + 1) :: L).
Proof.
  intros Hk Hw Hc. pose proof (old_fresh s L _ path Hk Hw) as [F1 F2 F3]. simpl in *.
  destruct Hk as [K1 K2 K3 K4 K5 K6 K7 K8 K9]. unfold addReservedEntry. cbn [new_handle set_reserved reserved].
  rewrite map_insert_fresh by (rewrite K2; by apply not_in_reserved). rewrite lookup_insert_eq. cbn [mbind option_bind data].
  rewrite getOrAdd_new; [|simpl; rewrite K5; by apply not_in_names|done]. cbn [set_reserved_index reservedHandlesIndex set_reserved].
  eexists. split; [done|]. split; simpl; rewrite ?view_cons; cbn [trash_view reserved_view trash_index_view reserved_index_view
    name_view where_ handle_ path_id data]; rewrite ?K1, ?K2, ?K3, ?K5; try done.
  - rewrite map_insert_fresh, K4; [done|]. rewrite K4. by apply not_in_ids.
  - by apply NoDup_cons.
  - by apply NoDup_cons.
  - by apply NoDup_cons.
  - constructor; [simpl; lia|]. eapply Forall_impl; [exact K9|]. simpl. lia.
Qed.

Lemma keeps_removeReservedEntry s id h i L :
  keeps s (MkEntry (inr id) h i :: L) -> keeps (removeReservedEntry s id) L.
Proof.
  intros Hk. destruct (keeps_lookup_reserved _ _ _ _ _ Hk) as [E1 E2]. unfold removeReservedEntry. rewrite E1, E2.
  pose proof (keeps_head _ _ _ Hk) as [F1 F2 F3]. simpl in *. eapply keeps_tail; [exact Hk|..]; try done; simpl;
    destruct Hk as [K1 K2 K3 K4 K5 _ _ _ _].
  - by drop_head K1.
  - drop_head K2. by apply not_in_reserved.
  - by drop_head K3.
  - drop_head K4. by apply not_in_ids.
  - drop_head K5. by apply not_in_names.
Qed.

(** An entry that moves keeps its handle and its identifier. *)
Lemma keeps_moved s s' w w' h i L :
  keeps s (MkEntry w h i :: L) -> w' ∉ (where_ <$> L) ->
  trash s' = view trash_view (MkEntry w' h i :: L) -> reserved s' = view reserved_view (MkEntry w' h i :: L) ->
  trashHandlesIndex s' = view trash_index_view (MkEntry w' h i :: L) ->
  reservedHandlesIndex s' = view reserved_index_view (MkEntry w' h i :: L) ->
  nameToId s' = nameToId s -> next_handle s' = next_handle s -> counter s' = counter s ->
  keeps s' (MkEntry w' h i :: L).
Proof.
  intros [_ _ _ _ K5 K6 K7 K8 K9] Hw E1 E2 E3 E4 E5 E6 E7. split; try done.
  - by rewrite E5, K5.
  - simpl in *. apply NoDup_cons in K6 as [_ K6]. by apply NoDup_cons.
  - apply Forall_cons in K9 as [K9 K9']. rewrite E6, E7. by constructor.
Qed.

Lemma keeps_moveTrashToReservedEntry s id ctime trashtime h i L :
  keeps s (MkEntry (inl (TrashPathKey id ctime trashtime)) h i :: L) -> inr id ∉ (where_ <$> L) ->
  keeps (moveTrashToReservedEntry s id ctime trashtime) (MkEntry (inr id) h i :: L).
Proof.
  intros Hk Hw. destruct (keeps_lookup_trash _ _ _ _ _ Hk) as [E1 E2]. unfold moveTrashToReservedEntry. rewrite E1, E2.
  pose proof (keeps_head _ _ _ Hk) as [F1 F2 F3]. simpl in *. eapply keeps_moved; [exact Hk|done|..]; try done; simpl;
    rewrite (view_cons _ (MkEntry (inr id) h i)); simpl; destruct Hk as [K1 K2 K3 K4 _ _ _ _ _].
  - drop_head K1. by apply not_in_where.
  - rewrite K2, view_cons. simpl. by apply map_insert_fresh, not_in_reserved.
  - drop_head K3. by apply not_in_ids.
  - rewrite K4, view_cons. simpl. by apply map_insert_fresh, not_in_ids.
Qed.

Lemma keeps_updateTrashFromOldEntry s old new h i L :
  keeps s (MkEntry (inl old) h i :: L) -> inl new ∉ (where_ <$> L) -> new.2 = old.2 ->
  keeps (updateTrashFromOldEntry s old new) (MkEntry (inl new) h i :: L).
Proof.
  intros Hk Hw Hid. destruct (keeps_lookup_trash _ _ _ _ _ Hk) as [E1 _]. unfold updateTrashFromOldEntry. rewrite E1.
  pose proof (keeps_head _ _ _ Hk) as [F1 F2 F3]. simpl in *. eapply keeps_moved; [exact Hk|done|..]; try done; simpl;
    rewrite (view_cons _ (MkEntry (inl new) h i)); simpl; destruct Hk as [K1 K2 K3 K4 _ _ _ _ _].
  - rewrite K1, view_cons. simpl. rewrite delete_insert_id by by apply not_in_where.
    by apply map_insert_fresh, not_in_where.
  - by drop_head K2.
  - rewrite K3, view_cons. simpl. by rewrite Hid.
  - by drop_head K4.
Qed.

Lemma keeps_updateTrashNameEntry s id ctime trashtime newPath h i L :
  let key := TrashPathKey id ctime trashtime in
  keeps s (MkEntry (inl key) h i :: L) -> counter s < kMaxIdForTrashOrReservedName ->
  keeps (updateTrashNameEntry s id ctime trashtime newPath)
    (MkEntry (inl key) (MkHandle (next_handle s) newPath) (counter s + 1) :: L).
Proof.
  intros key Hk Hc. destruct (keeps_lookup_trash _ _ _ _ _ Hk) as [E1 E2]. unfold updateTrashNameEntry. fold key.
  rewrite E1, E2. pose proof (keeps_drop_trash _ _ _ _ _ Hk) as Hk'. pose proof (keeps_head _ _ _ Hk) as [F1 _ _].
  pose proof (old_fresh _ L (inl key) newPath Hk' F1) as [_ G2 G3]. simpl in *.
  cbn [new_handle set_nameToId set_trash_index set_trash trash reserved trashHandlesIndex reservedHandlesIndex nameToId counter next_handle data].
  destruct Hk' as [K1 K2 K3 K4 K5 K6 K7 K8 K9]. simpl in *. 
  rewrite getOrAdd_new; [|simpl; rewrite K5; by apply not_in_names|done].
  cbn [set_nameToId set_trash_index set_trash trash reserved trashHandlesIndex reservedHandlesIndex nameToId counter next_handle data].
  split; simpl; rewrite ?view_cons; cbn [trash_view reserved_view trash_index_view reserved_index_view
    name_view where_ handle_ path_id data]; rewrite <-?K1, ?K2, ?K4, ?K5; try done.
  - by rewrite insert_delete_eq.
  - rewrite map_insert_fresh, K3; [done|]. rewrite K3. by apply not_in_ids.
  - by apply NoDup_cons.
  - by apply NoDup_cons.
  - by apply NoDup_cons.
  - constructor; [simpl; lia|]. eapply Forall_impl; [exact K9|]. simpl. lia.
Qed.
