(* ===== verification/Quota.v ===== *)
(** Quotas (src/common/quota_database.h and .cc, the changes of limits in src/master/filesystem_quota.cc): the limits
    and the usage of users and groups and the limits of directories. *)
From S2P Require Import Prelude Serialization.

Inductive QuotaRigor := kSoft | kHard | kUsed.
Inductive QuotaResource := kInodes | kSize.
Inductive QuotaOwnerType := kUser | kGroup | kInode.

#[global] Instance QuotaRigor_eq_dec : EqDecision QuotaRigor.
Proof. solve_decision. Defined.
#[global] Instance QuotaResource_eq_dec : EqDecision QuotaResource.
Proof. solve_decision. Defined.
#[global] Instance QuotaOwnerType_eq_dec : EqDecision QuotaOwnerType.
Proof. solve_decision. Defined.

#[global] Instance QuotaOwnerType_countable : Countable QuotaOwnerType := inj_countable
  (fun t => match t with kUser => 0%nat | kGroup => 1%nat | kInode => 2%nat end)
  (fun n => match n with 0%nat => Some kUser | 1%nat => Some kGroup | 2%nat => Some kInode | _ => None end)
  ltac:(by intros []).

(** A pair of values: inodes and size. *)
Record Resources := MkResources { r_inodes : Z; r_size : Z }.

#[global] Instance Resources_eq_dec : EqDecision Resources.
Proof. solve_decision. Defined.

Record Limits := MkLimits { soft : Resources; hard : Resources; used : Resources }.

#[global] Instance Limits_eq_dec : EqDecision Limits.
Proof. solve_decision. Defined.

Definition no_resources : Resources := MkResources 0 0.
Definition no_limits : Limits := MkLimits no_resources no_resources no_resources.

Definition of_resource (r : Resources) (resource : QuotaResource) : Z :=
  match resource with kInodes => r_inodes r | kSize => r_size r end.

Definition set_resource (r : Resources) (resource : QuotaResource) (value : Z) : Resources :=
  match resource with kInodes => MkResources value (r_size r) | kSize => MkResources (r_inodes r) value end.

Definition of_rigor (l : Limits) (rigor : QuotaRigor) : Resources :=
  match rigor with kSoft => soft l | kHard => hard l | kUsed => used l end.

Definition set_rigor (l : Limits) (rigor : QuotaRigor) (r : Resources) : Limits :=
  match rigor with
  | kSoft => MkLimits r (hard l) (used l) | kHard => MkLimits (soft l) r (used l) | kUsed => MkLimits (soft l) (hard l) r
  end.

Definition limit_of (l : Limits) (rigor : QuotaRigor) (resource : QuotaResource) : Z :=
  of_resource (of_rigor l rigor) resource.

Definition set_limit (l : Limits) (rigor : QuotaRigor) (resource : QuotaResource) (value : Z) : Limits :=
  set_rigor l rigor (set_resource (of_rigor l rigor) resource value).

(** The three tables, with the type of the owner in the key. *)
Definition QuotaDatabase : Type := gmap (QuotaOwnerType * Z) Limits.

Definition quota_get (db : QuotaDatabase) (t : QuotaOwnerType) (id : Z) : option Limits := db !! (t, id).

(** [quota_data_[owner_type][owner_id]] makes an entry when there is none. *)
Definition quota_entry (db : QuotaDatabase) (t : QuotaOwnerType) (id : Z) : Limits := default no_limits (db !! (t, id)).

Definition quota_set (db : QuotaDatabase) (t : QuotaOwnerType) (id : Z) (rigor : QuotaRigor) (resource : QuotaResource)
    (value : Z) : QuotaDatabase :=
  <[(t, id) := set_limit (quota_entry db t id) rigor resource value]> db.

Definition quota_update (db : QuotaDatabase) (t : QuotaOwnerType) (id : Z) (rigor : QuotaRigor)
    (resource : QuotaResource) (delta : Z) : QuotaDatabase :=
  quota_set db t id rigor resource (u64 (limit_of (quota_entry db t id) rigor resource + delta)).

(** remove() of one limit. *)
Definition quota_remove_limit (db : QuotaDatabase) (t : QuotaOwnerType) (id : Z) (rigor : QuotaRigor)
    (resource : QuotaResource) : QuotaDatabase :=
  match db !! (t, id) with
  | None => db
  | Some l =>
    let l := set_limit l rigor resource 0 in
    if decide (l = no_limits) then delete (t, id) db else <[(t, id) := l]> db
  end.

Definition quota_remove (db : QuotaDatabase) (t : QuotaOwnerType) (id : Z) : QuotaDatabase := delete (t, id) db.

Definition quota_removeEmpty (db : QuotaDatabase) (t : QuotaOwnerType) (id : Z) : QuotaDatabase :=
  match db !! (t, id) with
  | None => db
  | Some l => if decide (l = no_limits) then delete (t, id) db else db
  end.

Definition exceeds (db : QuotaDatabase) (t : QuotaOwnerType) (id : Z) (rigor : QuotaRigor)
    (resources : list (QuotaResource * Z)) : bool :=
  match quota_get db t id with
  | None => false
  | Some l =>
    existsb (fun '(resource, delta) =>
      let limit := limit_of l rigor resource in
      let usage := u64 (limit_of l kUsed resource + delta) in
      negb (limit =? 0) && (limit <? usage)) resources
  end.

(** fsnodes_quota_exceeded_ug() *)
Definition quota_exceeded_ug (db : QuotaDatabase) (uid gid : Z) (resources : list (QuotaResource * Z)) : bool :=
  exceeds db kUser uid kHard resources || exceeds db kGroup gid kHard resources.

(** fsnodes_quota_update() for the owners of a node. *)
Definition quota_update_ug (db : QuotaDatabase) (uid gid : Z) (resources : list (QuotaResource * Z)) : QuotaDatabase :=
  foldl (fun db '(resource, delta) =>
    if delta =? 0 then db
    else quota_update (quota_update db kUser uid kUsed resource delta) kGroup gid kUsed resource delta) db resources.

(** ** Changes of limits and their records *)

Record QuotaEntry := MkEntry {
  q_owner_type : QuotaOwnerType; q_owner_id : Z; q_rigor : QuotaRigor; q_resource : QuotaResource; q_limit : Z;
}.

Definition apply_entry (db : QuotaDatabase) (e : QuotaEntry) : QuotaDatabase :=
  quota_removeEmpty (quota_set db (q_owner_type e) (q_owner_id e) (q_rigor e) (q_resource e) (q_limit e))
    (q_owner_type e) (q_owner_id e).

(** The record of a change: SETQUOTA(rigor, resource, owner, id, limit). *)
Record SetQuota := MkSetQuota { rec_rigor : Z; rec_resource : Z; rec_owner : Z; rec_id : Z; rec_limit : Z }.

Definition rigor_name (r : QuotaRigor) : Z := match r with kSoft => 83 | kHard => 72 | kUsed => 85 end.
Definition resource_name (r : QuotaResource) : Z := match r with kInodes => 73 | kSize => 83 end.
Definition owner_name (t : QuotaOwnerType) : Z := match t with kUser => 85 | kGroup => 71 | kInode => 73 end.

Definition record_of (e : QuotaEntry) : SetQuota :=
  MkSetQuota (rigor_name (q_rigor e)) (resource_name (q_resource e)) (owner_name (q_owner_type e)) (q_owner_id e)
    (q_limit e).

Inductive quota_status := QOK | QEROFS | QEPERM | QEINVAL.

Definition SESFLAG_READONLY : Z := 1.
Definition SESFLAG_ALLCANCHANGEQUOTA : Z := 8.

(** fs_quota_set(); [exists_node] tells which inodes there are.  The result has the database and the records. *)
Definition fs_quota_set (exists_node : Z -> bool) (sesflags uid : Z) (entries : list QuotaEntry) (db : QuotaDatabase)
  : quota_status * QuotaDatabase * list SetQuota :=
  if negb (Z.land sesflags SESFLAG_READONLY =? 0) then (QEROFS, db, [])
  else if negb (uid =? 0) && (Z.land sesflags SESFLAG_ALLCANCHANGEQUOTA =? 0) then (QEPERM, db, [])
  else if existsb (fun e => bool_decide (q_owner_type e = kInode) && negb (exists_node (q_owner_id e))) entries
  then (QEINVAL, db, [])
  else (QOK, foldl apply_entry db entries, record_of <$> entries).

Definition decodeChar {A} (keys : list (Z * A)) (c : Z) : option A :=
  snd <$> List.find (fun '(k, _) => k =? c) keys.

Definition fs_apply_setquota (r : SetQuota) (db : QuotaDatabase) : quota_status * QuotaDatabase :=
  match decodeChar [(83, kSoft); (72, kHard)] (rec_rigor r),
        decodeChar [(83, kSize); (73, kInodes)] (rec_resource r),
        decodeChar [(85, kUser); (71, kGroup); (73, kInode)] (rec_owner r) with
  | Some rigor, Some resource, Some t =>
    (QOK, apply_entry db (MkEntry t (rec_id r) rigor resource (rec_limit r)))
  | _, _, _ => (QEINVAL, db)
  end.

Fixpoint replay (rs : list SetQuota) (db : QuotaDatabase) : option QuotaDatabase :=
  match rs with
  | [] => Some db
  | r :: rs => match fs_apply_setquota r db with (QOK, db) => replay rs db | _ => None end
  end.

(** A change of limits is replayed: when no entry is for the usage, the records of fs_quota_set(), applied by
    fs_apply_setquota() on a database with the same contents, are all accepted and give the database that
    fs_quota_set() gave. *)
Theorem quota_set_replays exists_node sesflags uid entries db db' rs :
  fs_quota_set exists_node sesflags uid entries db = (QOK, db', rs) ->
  Forall (fun e => q_rigor e <> kUsed) entries -> replay rs db = Some db'.
Proof.
  unfold fs_quota_set. destruct (negb _); [done|]. destruct (_ && _); [done|]. destruct (existsb _ entries); [done|].
  intros [= <- <-] Hr. revert db. induction Hr as [|e entries He Hr IH]; intros db; [done|]. simpl.
  assert (fs_apply_setquota (record_of e) db = (QOK, apply_entry db e)) as ->; [|apply IH].
  destruct e as [[] id [] [] limit]; try done.
Qed.

Lemma quota_set_replays_witness :
  let entries := [MkEntry kUser 1000 kHard kSize 4096; MkEntry kInode 7 kSoft kInodes 10] in
  replay (record_of <$> entries) ∅ = Some (foldl apply_entry ∅ entries).
Proof.
  intros entries. apply (quota_set_replays (fun _ => true) 0 0 entries); [done|]. by repeat constructor.
Defined.

(** An entry for the usage is accepted, changes the counter that the quotas are checked against and is recorded,
    but the replay rejects the record: the master goes on with a database that no shadow can follow. *)
Theorem quota_used_not_replayed :
  let entries := [MkEntry kUser 1000 kUsed kSize 0] in
  let db := quota_set ∅ kUser 1000 kUsed kSize 4096 in
  exists db' rs, fs_quota_set (fun _ => true) 0 0 entries db = (QOK, db', rs) /\
    limit_of (quota_entry db' kUser 1000) kUsed kSize = 0 /\ replay rs db = None.
Proof. eexists _, _. split; [reflexivity|]. split; vm_compute; reflexivity. Qed.
