(* ===== verification/FsTree.v ===== *)
(** The tree of the file system (src/master/filesystem_node.cc and filesystem_metadata.h): edges between directories
    and nodes, and the statistics that every directory keeps of everything below it.

    The state is the table of nodes; a pointer to a node is its number.  Following a pointer to a node that is not
    there, or that is not of the class the code casts it to, is [None], and so are the failed assertions.  A recursion
    along the parents gets as much fuel as there are nodes; running out of it is [None], too. *)
From S2P Require Import Prelude Serialization Nodes FileSize.

Notation nodes_t := (gmap Z FSNode).

(** ** Fields *)

Definition with_data (n : FSNode) (data : NodeData) : FSNode :=
  MkNode (node_id n) (node_ctime n) (node_mtime n) (node_atime n) (node_type n) (node_goal n) (node_mode n)
    (node_uid n) (node_gid n) (node_trashtime n) (node_parents n) data.
Definition with_parents (n : FSNode) (parents : list (Z * name_t)) : FSNode :=
  MkNode (node_id n) (node_ctime n) (node_mtime n) (node_atime n) (node_type n) (node_goal n) (node_mode n)
    (node_uid n) (node_gid n) (node_trashtime n) parents (node_data n).
Definition with_ctime (n : FSNode) (ctime : Z) : FSNode :=
  MkNode (node_id n) ctime (node_mtime n) (node_atime n) (node_type n) (node_goal n) (node_mode n)
    (node_uid n) (node_gid n) (node_trashtime n) (node_parents n) (node_data n).
Definition with_mtime (n : FSNode) (mtime : Z) : FSNode :=
  MkNode (node_id n) (node_ctime n) mtime (node_atime n) (node_type n) (node_goal n) (node_mode n)
    (node_uid n) (node_gid n) (node_trashtime n) (node_parents n) (node_data n).

Definition with_entries (d : Directory) (es : list (name_t * Z)) : Directory :=
  MkDirectory es (lowerCaseEntries d) (caseInsensitive d) (dir_stats d) (nlink d).
Definition with_lower (d : Directory) (es : list (name_t * Z)) : Directory :=
  MkDirectory (entries d) es (caseInsensitive d) (dir_stats d) (nlink d).
Definition with_stats (d : Directory) (s : StatsRecord) : Directory :=
  MkDirectory (entries d) (lowerCaseEntries d) (caseInsensitive d) s (nlink d).
Definition with_nlink (d : Directory) (k : Z) : Directory :=
  MkDirectory (entries d) (lowerCaseEntries d) (caseInsensitive d) (dir_stats d) k.

Definition directory_of (n : FSNode) : option Directory :=
  match node_data n with DirectoryData d => Some d | _ => None end.

Definition upd_dir (f : Directory -> Directory) (n : FSNode) : FSNode :=
  match node_data n with DirectoryData d => with_data n (DirectoryData (f d)) | _ => n end.

Definition upd (id : Z) (f : FSNode -> FSNode) (nodes : nodes_t) : nodes_t := alter f id nodes.

(** ** Statistics *)

Definition stats_op (f : Z -> Z -> Z) (a b : StatsRecord) : StatsRecord :=
  MkStats (u32 (f (st_inodes a) (st_inodes b))) (u32 (f (st_dirs a) (st_dirs b))) (u32 (f (st_files a) (st_files b)))
    (u32 (f (st_links a) (st_links b))) (u32 (f (st_chunks a) (st_chunks b))) (u64 (f (st_length a) (st_length b)))
    (u64 (f (st_size a) (st_size b))) (u64 (f (st_realsize a) (st_realsize b))).

Definition stats_add : StatsRecord -> StatsRecord -> StatsRecord := stats_op Z.add.
Definition stats_sub : StatsRecord -> StatsRecord -> StatsRecord := stats_op Z.sub.

Section tree.
Context (goals : Z -> Goals.Goal).

Definition getStats (n : FSNode) : StatsRecord :=
  match node_data n with
  | DirectoryData d => stats_add (dir_stats d) (MkStats 1 1 0 0 0 0 0 0)
  | _ => node_stats goals n
  end.

(** The recursion of addStats() and subStats(), along all parents. *)
Fixpoint change_stats (change : StatsRecord -> StatsRecord) (root : Z) (fuel : nat) (parent : Z) (nodes : nodes_t)
  : option nodes_t :=
  match fuel with
  | O => None
  | S fuel =>
    match nodes !! parent with
    | None => Some nodes
    | Some n =>
      d ← directory_of n;
      let nodes := upd parent (upd_dir (fun d => with_stats d (change (dir_stats d)))) nodes in
      if parent =? root then Some nodes
      else foldl (fun acc '(p, _) => nodes ← acc; change_stats change root fuel p nodes) (Some nodes) (node_parents n)
    end
  end.

Definition stats_fuel (nodes : nodes_t) : nat := S (base.size nodes).

Definition addStats (root parent : Z) (s : StatsRecord) (nodes : nodes_t) : option nodes_t :=
  change_stats (fun x => stats_add x s) root (stats_fuel nodes) parent nodes.
Definition subStats (root parent : Z) (s : StatsRecord) (nodes : nodes_t) : option nodes_t :=
  change_stats (fun x => stats_sub x s) root (stats_fuel nodes) parent nodes.

Definition addSubStats (root parent : Z) (newStats previousStats : StatsRecord) (nodes : nodes_t) : option nodes_t :=
  addStats root parent (stats_sub newStats previousStats) nodes.

Definition updateParentStatsForNode (root : Z) (parents : list (Z * name_t)) (newStats previousStats : StatsRecord)
    (nodes : nodes_t) : option nodes_t :=
  foldl (fun acc '(p, _) => nodes ← acc; addSubStats root p newStats previousStats nodes) (Some nodes) parents.

(** ** Names *)

Definition tolower (c : Z) : Z := if (65 <=? c) && (c <=? 90) then c + 32 else c.
Definition hstringToLowerCase (name : name_t) : name_t := tolower <$> name.

Definition find_entry (es : list (name_t * Z)) (name : name_t) : option (name_t * Z) :=
  List.find (fun '(x, _) => bool_decide (x = name)) es.

Definition getChildName (dir : Z) (n : FSNode) : name_t :=
  match List.find (fun '(p, _) => p =? dir) (node_parents n) with Some (_, name) => name | None => [] end.

(** FSNodeDirectory::find(): the entry of the name; [None] stands for [end()]. *)
Definition dir_find (nodes : nodes_t) (dir : Z) (d : Directory) (name : name_t) : option (name_t * Z) :=
  if caseInsensitive d then
    '(_, child) ← find_entry (lowerCaseEntries d) (hstringToLowerCase name);
    n ← nodes !! child;
    find_entry (entries d) (getChildName dir n)
  else find_entry (entries d) name.

Definition lookup (nodes : nodes_t) (dir : Z) (name : name_t) : option Z :=
  n ← nodes !! dir; d ← directory_of n; snd <$> dir_find nodes dir d name.

Definition isNameUsed (nodes : nodes_t) (dir : Z) (name : name_t) : bool := bool_decide (is_Some (lookup nodes dir name)).

(** The name that getBaseStoredChildName() finds. *)
Definition getBaseStoredChildName (nodes : nodes_t) (dir : Z) (d : Directory) (anyCaseName : name_t) : name_t :=
  if negb (caseInsensitive d) then []
  else
    match find_entry (lowerCaseEntries d) (hstringToLowerCase anyCaseName) with
    | None => []
    | Some (_, child) =>
      match nodes !! child with
      | None => []
      | Some n =>
        match List.find (fun '(p, _) => p =? dir) (node_parents n) with
        | Some (_, name) => name
        | None => match List.find (fun '(_, c) => c =? child) (entries d) with Some (name, _) => name | None => [] end
        end
      end
    end.

(** updateLowerCaseEntries() *)
Definition updateLowerCaseEntries (d : Directory) : Directory :=
  if negb (caseInsensitive d) then with_lower d []
  else with_lower d (foldl (fun lower '(name, child) =>
    match find_entry lower (hstringToLowerCase (hstringToLowerCase name)) with
    | Some _ => lower
    | None => (hstringToLowerCase name, child) :: lower
    end) (lowerCaseEntries d) (entries d)).

(** ** Edges *)

(** The first element that satisfies [p] is erased. *)
Fixpoint erase_first {A} (p : A -> bool) (l : list A) : list A :=
  match l with [] => [] | x :: l => if p x then l else x :: erase_first p l end.

Definition is_dir (n : FSNode) : bool := bool_decide (node_type n = kDirectory).

(** link() *)
Definition link (root timeStamp parent child : Z) (name : name_t) (nodes : nodes_t) : option nodes_t :=
  pn ← nodes !! parent; d ← directory_of pn; cn ← nodes !! child;
  let nodes := upd parent (upd_dir (fun d =>
    let d := with_entries d ((name, child) :: entries d) in
    if caseInsensitive d then with_lower d ((hstringToLowerCase name, child) :: lowerCaseEntries d) else d)) nodes in
  let nodes := upd child (fun n => with_parents n (node_parents n ++ [(parent, name)])) nodes in
  let nodes := if is_dir cn then upd parent (upd_dir (fun d => with_nlink d (u32 (nlink d + 1)))) nodes else nodes in
  cn ← nodes !! child;
  nodes ← addStats root parent (getStats cn) nodes;
  if 0 <? timeStamp then
    let nodes := upd parent (fun n => with_mtime (with_ctime n timeStamp) timeStamp) nodes in
    if bool_decide (node_type cn = kTrash) then None
    else Some (upd child (fun n => with_ctime n timeStamp) nodes)
  else Some nodes.

(** removeEdge() *)
Definition same_parent (nodes : nodes_t) (parent : Z) (insensitive : bool) (childName : name_t) (e : Z * name_t) : bool :=
  let '(p, name) := e in
  (p =? parent) && bool_decide ((if insensitive then hstringToLowerCase name else name) =
                                (if insensitive then hstringToLowerCase childName else childName)).

Definition removeEdge (root timeStamp parent : Z) (childName : name_t) (child : Z) (nodes : nodes_t) : option nodes_t :=
  pn ← nodes !! parent; d ← directory_of pn; cn ← nodes !! child;
  '(name, found) ← dir_find nodes parent d childName;
  if negb (found =? child) then None
  else
    let nodes := upd parent (upd_dir (fun d =>
      let d := with_entries d (erase_first (fun '(x, c) => bool_decide (x = name) && (c =? found)) (entries d)) in
      if caseInsensitive d
      then with_lower d (erase_first (fun '(x, _) => bool_decide (x = hstringToLowerCase childName)) (lowerCaseEntries d))
      else d)) nodes in
    cn ← nodes !! child;
    nodes ← subStats root parent (getStats cn) nodes;
    let nodes := upd parent (fun n => with_mtime (with_ctime n timeStamp) timeStamp) nodes in
    let nodes := if is_dir cn then upd parent (upd_dir (fun d => with_nlink d (u32 (nlink d - 1)))) nodes else nodes in
    let nodes := upd child (fun n => with_parents n
      (erase_first (same_parent nodes parent (caseInsensitive d) childName) (node_parents n))) nodes in
    if bool_decide (node_type cn = kTrash) then None
    else Some (upd child (fun n => with_ctime n timeStamp) nodes).

(** isAncestor(): upwards from every parent, along the first parents. *)
Fixpoint climbs_to (nodes : nodes_t) (ancestor : Z) (fuel : nat) (dir : Z) : option bool :=
  match fuel with
  | O => None
  | S fuel =>
    match nodes !! dir with
    | None => Some false
    | Some n =>
      _ ← directory_of n;
      if dir =? ancestor then Some true
      else
        match node_parents n with
        | [] => Some false
        | [(p, _)] => climbs_to nodes ancestor fuel p
        | _ => None
        end
    end
  end.

Definition isAncestor (nodes : nodes_t) (ancestor node : Z) : option bool :=
  n ← nodes !! node;
  foldl (fun acc '(p, _) =>
    found ← acc; if found : bool then Some true else climbs_to nodes ancestor (stats_fuel nodes) p) (Some false) (node_parents n).

End tree.
