(* ===== verification/FsTreeInv.v ===== *)
(** The invariant of the tree of the file system: edges and parents agree, directories have one parent and no
    directory is below itself, and the statistics and the link count of every directory are those of its entries. *)
From S2P Require Import Prelude Serialization Nodes FileSize FsTree.

(** ** Sums of statistics *)

Lemma wrap_add_assoc w a b c : wrap w (wrap w (a + b) + c) = wrap w (a + wrap w (b + c)).
Proof. unfold wrap. rewrite Zplus_mod_idemp_l, Zplus_mod_idemp_r. f_equal. lia. Qed.

Lemma wrap_sub_add w a b : wrap w (wrap w (a - b) + b) = wrap w a.
Proof. unfold wrap. rewrite Zplus_mod_idemp_l. f_equal. lia. Qed.

Lemma wrap_add_sub w a b : wrap w (wrap w (a + b) - b) = wrap w a.
Proof. unfold wrap. rewrite Zminus_mod_idemp_l. f_equal. lia. Qed.

Lemma stats_add_assoc a b c : stats_add (stats_add a b) c = stats_add a (stats_add b c).
Proof. unfold stats_add, stats_op, u32, u64. simpl. by rewrite !wrap_add_assoc. Qed.

Lemma stats_add_comm a b : stats_add a b = stats_add b a.
Proof. unfold stats_add, stats_op. f_equal; f_equal; lia. Qed.

(** A record within the widths. *)
Definition normal (s : StatsRecord) : Prop := stats_add s zero_stats = s.

Lemma normal_add a b : normal (stats_add a b).
Proof.
  unfold normal. rewrite stats_add_assoc. unfold stats_add, stats_op, u32, u64, wrap. simpl.
  by rewrite !Z.add_0_r, !Zplus_mod_idemp_r.
Qed.

Lemma normal_zero : normal zero_stats.
Proof. done. Qed.

Lemma stats_add_sub a b : normal a -> stats_sub (stats_add a b) b = a.
Proof.
  intros H. unfold normal in H. rewrite <-H at 2. unfold stats_sub, stats_add, stats_op, u32, u64. simpl. by rewrite !wrap_add_sub, !Z.add_0_r.
Qed.

Lemma stats_sub_normal a b : normal a -> normal (stats_sub a b).
Proof.
  intros _. unfold normal, stats_sub, stats_add, stats_op, u32, u64, wrap. simpl. by rewrite !Z.add_0_r, !Zmod_mod.
Qed.

Definition stats_opp (s : StatsRecord) : StatsRecord := stats_sub zero_stats s.

Lemma stats_sub_opp a s : stats_sub a s = stats_add a (stats_opp s).
Proof.
  unfold stats_opp, stats_sub, stats_add, stats_op, u32, u64, wrap. simpl. rewrite !Zplus_mod_idemp_r. done.
Qed.

(** ** Chains of parents *)

Definition dir_parents (nodes : nodes_t) (x : Z) : option (list (Z * name_t)) :=
  n ← nodes !! x; _ ← directory_of n; Some (node_parents n).

(** The directory and its ancestors. *)
Inductive chain (nodes : nodes_t) : Z -> list Z -> Prop :=
  | chain_end p : dir_parents nodes p = Some [] -> chain nodes p [p]
  | chain_up p q name l : dir_parents nodes p = Some [(q, name)] -> chain nodes q l -> chain nodes p (p :: l).

Lemma chain_head nodes p l : chain nodes p l -> exists l', l = p :: l'.
Proof. destruct 1; eauto. Qed.

Lemma chain_unique nodes p l l' : chain nodes p l -> chain nodes p l' -> l = l'.
Proof.
  intros H. revert l'. induction H as [p E|p q name l E H IH]; intros l' H'; destruct H' as [p E'|p q' name' l' E' H'];
    rewrite E in E'; try done. injection E' as <- <-. f_equal. by apply IH.
Qed.

Lemma chain_suffix nodes p l x : chain nodes p l -> x ∈ l -> exists l1 l2, l = l1 ++ l2 /\ chain nodes x l2.
Proof.
  induction 1 as [p E|p q name l E H IH]; intros Hx.
  - apply list_elem_of_singleton in Hx as ->. exists [], [p]. split; [done|by apply chain_end].
  - apply elem_of_cons in Hx as [->|Hx]; [exists [], (p :: l); split; [done|by eapply chain_up]|].
    destruct (IH Hx) as (l1 & l2 & -> & H2). by exists (p :: l1), l2.
Qed.

Lemma chain_NoDup nodes p l : chain nodes p l -> NoDup l.
Proof.
  induction 1 as [p E|p q name l E H IH]; [apply NoDup_singleton|]. constructor; [|done]. intros Hp.
  destruct (chain_suffix _ _ _ _ H Hp) as (l1 & l2 & -> & H2).
  pose proof (chain_unique _ _ _ _ (chain_up _ _ _ _ _ E H) H2) as Heq.
  apply (f_equal length) in Heq. simpl in Heq. rewrite length_app in Heq. lia.
Qed.

Lemma chain_dom nodes p l x : chain nodes p l -> x ∈ l -> is_Some (nodes !! x).
Proof.
  intros H Hx. destruct (chain_suffix _ _ _ _ H Hx) as (l1 & l2 & -> & H2).
  assert (is_Some (dir_parents nodes x)) as [ps E] by (destruct H2 as [? E|? ? ? ? E ?]; by rewrite E).
  unfold dir_parents in E. destruct (nodes !! x); [done|]. done.
Qed.

Lemma chain_length nodes p l : chain nodes p l -> (length l <= base.size nodes)%nat.
Proof.
  intros H. assert ((list_to_set l : gset Z) ⊆ dom nodes) as Hs.
  { intros x Hx%elem_of_list_to_set. apply elem_of_dom. by eapply chain_dom. }
  apply subseteq_size in Hs. rewrite size_dom, size_list_to_set in Hs; [done|by eapply chain_NoDup].
Qed.

Lemma chain_ext nodes nodes' p l :
  (forall x, x ∈ l -> dir_parents nodes' x = dir_parents nodes x) -> chain nodes p l -> chain nodes' p l.
Proof.
  intros Hx H. induction H as [p E|p q name l E H IH].
  - apply chain_end. rewrite Hx by set_solver. done.
  - eapply chain_up; [rewrite Hx by set_solver; done|]. apply IH. intros x Hl. apply Hx. set_solver.
Qed.

(** The next directory of the chain has the directory as an entry's parent. *)
Lemma chain_next nodes p l x q name :
  chain nodes p l -> x ∈ l -> dir_parents nodes x = Some [(q, name)] -> exists l1 l2, l = l1 ++ x :: q :: l2.
Proof.
  intros H Hx E. destruct (chain_suffix _ _ _ _ H Hx) as (l1 & l2 & -> & H2).
  destruct H2 as [x E'|x q' name' l2 E' H2]; rewrite E in E'; [done|]. injection E' as <- <-.
  destruct (chain_head _ _ _ H2) as [l3 ->]. by exists l1, l3.
Qed.

(** ** Changes of the table of nodes *)

Definition change_data (f : Directory -> Directory) (data : NodeData) : NodeData :=
  match data with DirectoryData d => DirectoryData (f d) | data => data end.

(** The fields of a node that link() and removeEdge() keep, which include the times that the key of a file in the
    trash depends on; the parents and the directories change as given. *)
Record node_change (par : list (Z * name_t) -> list (Z * name_t)) (dirf : Directory -> Directory) (n n' : FSNode) : Prop :=
  MkChange {
    ch_id : node_id n' = node_id n;
    ch_type : node_type n' = node_type n;
    ch_goal : node_goal n' = node_goal n;
    ch_mode : node_mode n' = node_mode n;
    ch_uid : node_uid n' = node_uid n;
    ch_gid : node_gid n' = node_gid n;
    ch_trashtime : node_trashtime n' = node_trashtime n;
    ch_ctime : node_type n = kTrash -> node_ctime n' = node_ctime n;
    ch_parents : node_parents n' = par (node_parents n);
    ch_data : node_data n' = change_data dirf (node_data n);
  }.

Definition related (nodes nodes' : nodes_t) (par : Z -> list (Z * name_t) -> list (Z * name_t))
    (dirf : Z -> Directory -> Directory) : Prop :=
  forall x, option_relation (node_change (par x) (dirf x)) (fun _ => False) (fun _ => False) (nodes !! x) (nodes' !! x).

Lemma related_Some nodes nodes' par dirf x n :
  related nodes nodes' par dirf -> nodes !! x = Some n ->
  exists n', nodes' !! x = Some n' /\ node_change (par x) (dirf x) n n'.
Proof. intros H E. specialize (H x). rewrite E in H. destruct (nodes' !! x) as [n'|]; [eauto|done]. Qed.

Lemma related_back nodes nodes' par dirf x n' :
  related nodes nodes' par dirf -> nodes' !! x = Some n' ->
  exists n, nodes !! x = Some n /\ node_change (par x) (dirf x) n n'.
Proof. intros H E. specialize (H x). rewrite E in H. destruct (nodes !! x) as [n|]; [eauto|done]. Qed.

Lemma change_compose p1 f1 p2 f2 n1 n2 n3 :
  node_change p1 f1 n1 n2 -> node_change p2 f2 n2 n3 -> node_change (fun l => p2 (p1 l)) (fun d => f2 (f1 d)) n1 n3.
Proof.
  intros A B. destruct A, B. split; try congruence; [|].
  - intros Ht. rewrite <-ch_ctime0 by done. apply ch_ctime1. congruence.
  - rewrite ch_data1, ch_data0. by destruct (node_data n1).
Qed.

Lemma related_compose n1 n2 n3 p1 f1 p2 f2 :
  related n1 n2 p1 f1 -> related n2 n3 p2 f2 ->
  related n1 n3 (fun x l => p2 x (p1 x l)) (fun x d => f2 x (f1 x d)).
Proof.
  intros H1 H2 x. specialize (H1 x). specialize (H2 x).
  destruct (n1 !! x), (n2 !! x), (n3 !! x); simpl in *; try done. by eapply change_compose.
Qed.

Lemma change_refl n : node_change id id n n.
Proof. split; try done. by destruct (node_data n). Qed.

Lemma change_ext p f p' f' n n' :
  (forall l, p l = p' l) -> (forall d, f d = f' d) -> node_change p f n n' -> node_change p' f' n n'.
Proof.
  intros Hp Hf A. destruct A. split; try done; [by rewrite <-Hp|]. rewrite ch_data0. destruct (node_data n); simpl; by rewrite ?Hf.
Qed.

Lemma related_ext nodes nodes' p f p' f' :
  (forall x l, p x l = p' x l) -> (forall x d, f x d = f' x d) -> related nodes nodes' p f -> related nodes nodes' p' f'.
Proof.
  intros Hp Hf H x. specialize (H x). destruct (nodes !! x), (nodes' !! x); simpl in *; try done.
  by eapply change_ext; [apply Hp|apply Hf|].
Qed.

(** One node changes. *)
Definition just {A} (x : Z) (f : A -> A) (y : Z) : A -> A := if decide (y = x) then f else id.

Lemma related_upd nodes x f par dirf :
  (forall n, nodes !! x = Some n -> node_change par dirf n (f n)) ->
  related nodes (upd x f nodes) (just x par) (just x dirf).
Proof.
  intros H y. unfold upd, just. destruct (decide (y = x)) as [->|].
  - rewrite lookup_alter_eq. destruct (nodes !! x) as [n|]; simpl; [by apply H|done].
  - rewrite lookup_alter_ne by done. destruct (nodes !! y); simpl; [apply change_refl|done].
Qed.

Lemma change_upd_dir g n : node_change id g n (upd_dir g n).
Proof. unfold upd_dir. destruct (node_data n) eqn:E; split; try done; by rewrite E. Qed.

Lemma change_parents p n : node_change p id n (with_parents n (p (node_parents n))).
Proof. split; try done. by destruct (node_data n) eqn:E; unfold with_parents; simpl; rewrite E. Qed.

Lemma change_ctime ts n : node_type n <> kTrash -> node_change id id n (with_ctime n ts).
Proof. intros Ht. split; try done. by destruct (node_data n) eqn:E; unfold with_ctime; simpl; rewrite E. Qed.

Lemma change_times ts n : node_type n <> kTrash -> node_change id id n (with_mtime (with_ctime n ts) ts).
Proof. intros Ht. split; try done. by destruct (node_data n) eqn:E; unfold with_ctime, with_mtime; simpl; rewrite E. Qed.

Lemma change_dir_of par dirf n n' : node_change par dirf n n' -> directory_of n' = dirf <$> directory_of n.
Proof. intros H. unfold directory_of. rewrite (ch_data _ _ _ _ H). by destruct (node_data n). Qed.

Lemma related_dir_parents nodes nodes' par dirf x :
  related nodes nodes' par dirf -> dir_parents nodes' x = par x <$> dir_parents nodes x.
Proof.
  intros H. specialize (H x). unfold dir_parents. destruct (nodes !! x) as [n|], (nodes' !! x) as [n'|]; simpl in *; try done.
  rewrite (change_dir_of _ _ _ _ H), (ch_parents _ _ _ _ H). by destruct (directory_of n).
Qed.

(** The walk of isAncestor() visits the chain. *)
Lemma climbs_chain nodes a : forall fuel p l,
  chain nodes p l -> (length l <= fuel)%nat -> climbs_to nodes a fuel p = Some (bool_decide (a ∈ l)).
Proof.
  intros fuel p l H. revert fuel. induction H as [p E|p q name l E H IH]; intros [|fuel] Hlen; simpl in Hlen; try lia;
    cbn [climbs_to]; unfold dir_parents in E; destruct (nodes !! p) as [n|]; try done; simpl in E;
    destruct (directory_of n) as [d|]; try done; simpl in E; injection E as ->; cbn [mbind option_bind].
  - destruct (Z.eqb_spec p a) as [->|]; f_equal; symmetry; [apply bool_decide_true|apply bool_decide_false]; set_solver.
  - destruct (Z.eqb_spec p a) as [->|]; [f_equal; symmetry; apply bool_decide_true; set_solver|].
    rewrite IH by lia. f_equal. apply bool_decide_ext. set_solver.
Qed.

(** ** The recursion along the parents *)

Definition on_chain (l : list Z) (change : StatsRecord -> StatsRecord) (x : Z) (d : Directory) : Directory :=
  if decide (x ∈ l) then with_stats d (change (dir_stats d)) else d.

Lemma change_stats_chain change root l : forall fuel nodes p,
  chain nodes p l -> (length l <= fuel)%nat -> (forall n, nodes !! root = Some n -> node_parents n = []) ->
  exists nodes', change_stats change root fuel p nodes = Some nodes' /\ related nodes nodes' (fun _ => id) (on_chain l change).
Proof.
  induction l as [|p0 l IH]; intros fuel nodes p Hc Hlen Hroot; [by destruct (chain_head _ _ _ Hc)|].
  destruct fuel as [|fuel]; [simpl in Hlen; lia|]. cbn [change_stats].
  pose proof (chain_NoDup _ _ _ Hc) as Hnd. destruct (chain_head _ _ _ Hc) as [l0 [= <- <-]].
  destruct (chain_dom _ _ _ p0 Hc ltac:(set_solver)) as [n En]. rewrite En.
  assert (exists d, directory_of n = Some d) as [d Ed].
  { inversion Hc as [? E|? ? ? ? E]; subst; unfold dir_parents in E; rewrite En in E; simpl in E;
      destruct (directory_of n); eauto; done. }
  rewrite Ed. cbn [mbind option_bind].
  set (g := fun d => with_stats d (change (dir_stats d))). set (nodes1 := upd p0 (upd_dir g) nodes).
  assert (related nodes nodes1 (just p0 id) (just p0 g)) as R1 by (apply related_upd; intros; apply change_upd_dir).
  assert (related nodes nodes1 (fun _ => id) (just p0 g)) as R1'.
  { eapply related_ext; [| |exact R1]; [|done]. intros x y. unfold just. by destruct (decide _). }
  assert (dir_parents nodes p0 = Some (node_parents n)) as Ep by (unfold dir_parents; rewrite En; simpl; by rewrite Ed).
  destruct (Z.eqb_spec p0 root) as [->|Hne].
  { exists nodes1. split; [done|]. rewrite (Hroot n En) in Ep.
    inversion Hc as [? E|? ? ? ? E]; subst; [|by rewrite Ep in E]. eapply related_ext; [done| |exact R1'].
    intros x y. unfold just, on_chain. destruct (decide (x = root)) as [->|].
    - by rewrite decide_True by set_solver.
    - by rewrite decide_False by set_solver. }
  inversion Hc as [? E|? q name ? E Hq]; subst; rewrite E in Ep; injection Ep as <-; simpl.
  - exists nodes1. split; [done|]. eapply related_ext; [done| |exact R1'].
    intros x y. unfold just, on_chain. destruct (decide (x = p0)) as [->|].
    + by rewrite decide_True by set_solver.
    + by rewrite decide_False by set_solver.
  - destruct (IH fuel nodes1 q) as (nodes2 & E2 & R2).
    + eapply chain_ext; [|exact Hq]. intros x _. rewrite (related_dir_parents _ _ _ _ x R1').
      by destruct (dir_parents nodes x).
    + simpl in Hlen. lia.
    + intros m Em. destruct (related_back _ _ _ _ _ _ R1' Em) as (m0 & Em0 & Hch). rewrite (ch_parents _ _ _ _ Hch).
      by apply Hroot.
    + exists nodes2. split; [done|]. eapply related_ext; [| |exact (related_compose _ _ _ _ _ _ _ R1' R2)]; [done|].
      intros x y. unfold just, on_chain. apply NoDup_cons in Hnd as [Hnot _]. destruct (decide (x = p0)) as [->|].
      * by rewrite decide_False, decide_True by set_solver.
      * destruct (decide (x ∈ l)); [by rewrite decide_True by set_solver|by rewrite decide_False by set_solver].
Qed.

(** ** Lists without duplicates *)

Lemma NoDup_split_eq {A} (x : A) l1 l2 k1 k2 :
  l1 ++ x :: l2 = k1 ++ x :: k2 -> NoDup (l1 ++ x :: l2) -> l1 = k1 /\ l2 = k2.
Proof.
  revert k1. induction l1 as [|a l1 IH]; intros [|b k1] E Hnd; simpl in *.
  - by injection E.
  - injection E as -> ->. apply NoDup_cons in Hnd as [Hnd _]. set_solver.
  - injection E as -> <-. apply NoDup_cons in Hnd as [Hnd _]. set_solver.
  - injection E as -> E. apply NoDup_cons in Hnd as [_ Hnd]. destruct (IH _ E Hnd) as [-> ->]. done.
Qed.

Lemma NoDup_pred_eq {A} l1 k1 l2 k2 (y z x : A) :
  NoDup (l1 ++ y :: x :: l2) -> l1 ++ y :: x :: l2 = k1 ++ z :: x :: k2 -> z = y.
Proof.
  intros Hnd E. assert ((l1 ++ [y]) ++ x :: l2 = (k1 ++ [z]) ++ x :: k2) as E' by by rewrite <-!app_assoc.
  apply NoDup_split_eq in E' as [E' _]; [|by rewrite <-app_assoc]. by apply app_inj_tail in E' as [_ ->].
Qed.

(** The first element that satisfies a test is erased. *)
Lemma erase_first_elem {A} (f : A -> bool) l x : x ∈ erase_first f l -> x ∈ l.
Proof. induction l as [|y l IH]; simpl; [done|]. destruct (f y); set_solver. Qed.

Lemma erase_first_keep {A} (f : A -> bool) l x : x ∈ l -> f x = false -> x ∈ erase_first f l.
Proof.
  induction l as [|y l IH]; simpl; [done|]. intros [->|Hx]%elem_of_cons Hf; [rewrite Hf; set_solver|].
  destruct (f y); [done|]. set_solver.
Qed.

Lemma erase_first_NoDup {A B} (g : A -> B) (f : A -> bool) l : NoDup (g <$> l) -> NoDup (g <$> erase_first f l).
Proof.
  induction l as [|y l IH]; simpl; [done|]. intros [Hy Hnd]%NoDup_cons. destruct (f y); [done|]. simpl.
  apply NoDup_cons. split; [|by apply IH]. rewrite list_elem_of_fmap in *. intros (z & Ez & Hz). apply Hy.
  exists z. split; [done|]. by eapply erase_first_elem.
Qed.

Lemma erase_first_out {A} (f : A -> bool) l x : NoDup l -> (forall y, y ∈ l -> f y = true <-> y = x) -> x ∉ erase_first f l.
Proof.
  intros Hnd Hf. induction Hnd as [|y l Hy Hnd IH]; simpl; [set_solver|]. destruct (f y) eqn:E.
  - apply Hf in E; [|set_solver]. by subst.
  - intros [->|Hx]%elem_of_cons.
    + assert (f y = true) by (apply Hf; set_solver). congruence.
    + apply IH; [|done]. intros z Hz. apply Hf. set_solver.
Qed.

Lemma erase_first_length {A} (f : A -> bool) l : (length (erase_first f l) <= length l)%nat.
Proof. induction l as [|y l IH]; simpl; [done|]. destruct (f y); simpl; lia. Qed.

Definition is_entry (name : name_t) (c : Z) (e : name_t * Z) : bool := let '(x, y) := e in bool_decide (x = name) && (y =? c).
Definition is_parent (p : Z) (name : name_t) (e : Z * name_t) : bool := let '(q, x) := e in (q =? p) && bool_decide (x = name).

Lemma is_entry_true name c e : is_entry name c e = true <-> e = (name, c).
Proof. destruct e as [x y]. unfold is_entry. rewrite andb_true_iff, bool_decide_eq_true, Z.eqb_eq. naive_solver. Qed.

Lemma is_parent_true p name e : is_parent p name e = true <-> e = (p, name).
Proof. destruct e as [x y]. unfold is_parent. rewrite andb_true_iff, bool_decide_eq_true, Z.eqb_eq. naive_solver. Qed.

(** ** The invariant *)

Section invariant.
Context (goals : Z -> Goals.Goal) (root : Z).

(** What a node contributes to the statistics of a directory that has it. *)
Definition share (nodes : nodes_t) (c : Z) : StatsRecord :=
  match nodes !! c with Some n => getStats goals n | None => zero_stats end.

Definition sum_stats (nodes : nodes_t) (es : list (name_t * Z)) : StatsRecord :=
  foldr (fun '(_, c) acc => stats_add (share nodes c) acc) zero_stats es.

Definition is_subdir (nodes : nodes_t) (e : name_t * Z) : bool :=
  match nodes !! e.2 with Some n => bool_decide (is_Some (directory_of n)) | None => false end.

Definition subdirs (nodes : nodes_t) (es : list (name_t * Z)) : Z := Z.of_nat (length (List.filter (is_subdir nodes) es)).

(** A directory has the entries, and what it keeps of them is right, up to an amount that is added while the length of a
    file changes. *)
Record dir_ok (owed : Z -> StatsRecord) (nodes : nodes_t) (p : Z) (d : Directory) : Prop := MkDirOk {
  do_sensitive : caseInsensitive d = false;
  do_names : NoDup (entries d).*1;
  do_edges : forall name c, (name, c) ∈ entries d -> exists n, nodes !! c = Some n /\ (p, name) ∈ node_parents n;
  do_stats : dir_stats d = stats_add (sum_stats nodes (entries d)) (owed p);
  do_nlink : nlink d = u32 (2 + subdirs nodes (entries d));
}.

Record node_ok (owed : Z -> StatsRecord) (nodes : nodes_t) (x : Z) (n : FSNode) : Prop := MkNodeOk {
  no_id : node_id n = x;
  no_typed : well_typed n;
  no_parents : NoDup (node_parents n);
  no_back : forall p name, (p, name) ∈ node_parents n ->
    exists pn d, nodes !! p = Some pn /\ directory_of pn = Some d /\ (name, x) ∈ entries d;
  no_single : is_Some (directory_of n) -> (length (node_parents n) <= 1)%nat;
  no_chain : is_Some (directory_of n) -> exists l, chain nodes x l;
  no_dir : forall d, directory_of n = Some d -> dir_ok owed nodes x d;
}.

Record tree_owing (owed : Z -> StatsRecord) (nodes : nodes_t) : Prop := MkTreeOk {
  to_root : exists n, nodes !! root = Some n /\ is_Some (directory_of n) /\ node_parents n = [];
  to_nodes : forall x n, nodes !! x = Some n -> node_ok owed nodes x n;
}.

Definition no_debt : Z -> StatsRecord := fun _ => zero_stats.

Definition tree_ok (nodes : nodes_t) : Prop := tree_owing no_debt nodes.

Lemma sum_stats_normal nodes es : normal (sum_stats nodes es).
Proof. destruct es as [|[name c] es]; simpl; [apply normal_zero|apply normal_add]. Qed.

Lemma sum_stats_ext nodes nodes' es :
  (forall name c, (name, c) ∈ es -> share nodes' c = share nodes c) -> sum_stats nodes' es = sum_stats nodes es.
Proof.
  induction es as [|[name c] es IH]; intros H; simpl; [done|]. rewrite (H name c) by set_solver. f_equal. apply IH.
  intros nm x Hx. apply (H nm). set_solver.
Qed.

(** One entry's share grows. *)
Lemma sum_stats_one nodes nodes' es name0 c0 s :
  NoDup es.*1 -> (name0, c0) ∈ es -> share nodes' c0 = stats_add (share nodes c0) s ->
  (forall name c, (name, c) ∈ es -> name <> name0 -> share nodes' c = share nodes c) ->
  sum_stats nodes' es = stats_add (sum_stats nodes es) s.
Proof.
  intros Hnd Hin H0 Hrest. induction es as [|[name c] es IH]; [set_solver|]. simpl in *.
  apply NoDup_cons in Hnd as [Hnot Hnd]. apply elem_of_cons in Hin as [[= -> ->]|Hin].
  - rewrite H0, (sum_stats_ext nodes nodes').
    + rewrite !stats_add_assoc. f_equal. apply stats_add_comm.
    + intros nm x Hx. apply (Hrest nm x); [set_solver|]. intros ->. apply Hnot. apply list_elem_of_fmap. by exists (name, x).
  - rewrite (Hrest name c); [|set_solver|].
    2: { intros ->. apply Hnot. apply list_elem_of_fmap. by exists (name0, c0). }
    rewrite IH; [by rewrite stats_add_assoc|done|done|]. intros nm x Hx. apply Hrest. set_solver.
Qed.

Lemma dir_parents_Some nodes x n : nodes !! x = Some n -> is_Some (directory_of n) -> dir_parents nodes x = Some (node_parents n).
Proof. intros E [d Ed]. unfold dir_parents. rewrite E. simpl. by rewrite Ed. Qed.

Lemma chain_is_dir nodes p l x : chain nodes p l -> x ∈ l -> exists n, nodes !! x = Some n /\ is_Some (directory_of n).
Proof.
  intros H Hx. destruct (chain_suffix _ _ _ _ H Hx) as (l1 & l2 & -> & H2).
  assert (is_Some (dir_parents nodes x)) as [ps E] by (destruct H2 as [? E|? ? ? ? E ?]; by rewrite E).
  unfold dir_parents in E. destruct (nodes !! x) as [n|]; [|done]. exists n. split; [done|].
  simpl in E. destruct (directory_of n); [by eexists|done].
Qed.

(** Among the entries of a directory, a chain has the previous directory of the chain and nothing else. *)
Lemma chain_entries owed nodes p l x d name c :
  tree_owing owed nodes -> chain nodes p l ->
  (exists n, nodes !! x = Some n /\ directory_of n = Some d) -> (name, c) ∈ entries d -> c ∈ l ->
  exists l1 l2, l = l1 ++ c :: x :: l2.
Proof.
  intros Hok Hc (n & En & Ed) He Hcl.
  destruct (do_edges _ _ _ _ (no_dir _ _ _ _ (to_nodes _ _ Hok x n En) d Ed) name c He) as (cn & Ecn & Hp).
  destruct (chain_is_dir _ _ _ _ Hc Hcl) as (cn' & E' & Hdir). rewrite Ecn in E'. injection E' as <-.
  pose proof (no_single _ _ _ _ (to_nodes _ _ Hok c cn Ecn) Hdir) as Hlen.
  assert (node_parents cn = [(x, name)]) as Eps.
  { destruct (node_parents cn) as [|e [|e' ps]]; simpl in *; [set_solver| |lia]. by apply list_elem_of_singleton in Hp as ->. }
  apply (chain_next _ _ _ _ x name Hc Hcl). rewrite (dir_parents_Some _ _ _ Ecn Hdir). by rewrite Eps.
Qed.

Lemma getStats_unchanged par dirf n n' :
  node_change par dirf n n' -> directory_of n = None -> getStats goals n' = getStats goals n.
Proof.
  intros H Hn. unfold directory_of in Hn. unfold getStats, node_stats.
  rewrite (ch_data _ _ _ _ H), (ch_goal _ _ _ _ H). by destruct (node_data n).
Qed.

Lemma well_typed_dir n : well_typed n -> is_dir n = bool_decide (is_Some (directory_of n)).
Proof.
  unfold well_typed, is_dir, directory_of. destruct (node_type n), (node_data n); simpl; try done; intros _;
    (rewrite bool_decide_true by done || rewrite bool_decide_false by done); symmetry;
    (apply bool_decide_true; by eexists) || (apply bool_decide_false; by intros [? ?]).
Qed.

(** No entry of the first directory of the chain is on the chain. *)
Lemma chain_not_entry owed nodes p l d name x n :
  tree_owing owed nodes -> chain nodes p l -> nodes !! p = Some n -> directory_of n = Some d -> (name, x) ∈ entries d -> x ∉ l.
Proof.
  intros Hok Hchain En Ed He Hx. destruct (chain_entries owed nodes p l p d name x Hok Hchain) as (l1 & l2 & El); [eauto|done|done|].
  pose proof (chain_NoDup _ _ _ Hchain) as Hnd. destruct (chain_head _ _ _ Hchain) as [l0 E0]. subst l.
  destruct l1 as [|y l1]; simpl in E0; injection E0 as -> E0.
  - apply NoDup_cons in Hnd as [Hnd _]. set_solver.
  - simpl in Hnd. apply NoDup_cons in Hnd as [Hnd _]. set_solver.
Qed.

(** A change along a chain that leaves all edges but those of one parent and one child. *)
Section edge.
Context (nodes nodes' : nodes_t) (owed owed' : Z -> StatsRecord) (Hok : tree_owing owed nodes) (p c : Z) (l : list Z) (Hchain : chain nodes p l).
Context (par : Z -> list (Z * name_t) -> list (Z * name_t)) (dirf : Z -> Directory -> Directory) (s : StatsRecord).
Context (Hrel : related nodes nodes' par dirf).
Context (Hstats : forall x d, dir_stats (dirf x d) = if decide (x ∈ l) then stats_add (dir_stats d) s else dir_stats d).
Context (Hdirf : forall x d, x <> p ->
  entries (dirf x d) = entries d /\ caseInsensitive (dirf x d) = caseInsensitive d /\ nlink (dirf x d) = nlink d).
Context (Hpar : forall x ps, x <> c -> par x ps = ps).
Context (Howed : forall x, x <> p -> owed' x = owed x).
Context (Hparc : forall q name ps, q <> p -> (q, name) ∈ par c ps <-> (q, name) ∈ ps).

Lemma edge_share x : share nodes' x = if decide (x ∈ l) then stats_add (share nodes x) s else share nodes x.
Proof.
  unfold share. pose proof (Hrel x) as H. destruct (nodes !! x) as [n|] eqn:E, (nodes' !! x) as [n'|]; simpl in H; try done.
  - destruct (directory_of n) as [d|] eqn:Ed.
    + pose proof (change_dir_of _ _ _ _ H) as Ed'. rewrite Ed in Ed'. simpl in Ed'.
      unfold directory_of in Ed, Ed'. unfold getStats.
      destruct (node_data n); try done. injection Ed as ->. destruct (node_data n'); try done. injection Ed' as ->.
      rewrite Hstats. destruct (decide (x ∈ l)); [|done]. rewrite !stats_add_assoc. f_equal. apply stats_add_comm.
    + rewrite (getStats_unchanged _ _ _ _ H Ed). destruct (decide (x ∈ l)) as [Hx|]; [|done].
      destruct (chain_is_dir _ _ _ _ Hchain Hx) as (n0 & E0 & Hd). rewrite E in E0. injection E0 as <-.
      rewrite Ed in Hd. by destruct Hd.
  - destruct (decide (x ∈ l)) as [Hx|]; [|done]. destruct (chain_dom _ _ _ _ Hchain Hx). congruence.
Qed.

Lemma edge_subdirs es : subdirs nodes' es = subdirs nodes es.
Proof.
  unfold subdirs. f_equal. f_equal. apply filter_ext. intros [name x]. unfold is_subdir. simpl.
  pose proof (Hrel x) as H. destruct (nodes !! x) as [n|], (nodes' !! x) as [n'|]; simpl in H; try done.
  rewrite (change_dir_of _ _ _ _ H). by destruct (directory_of n).
Qed.

(** The other directories stay right. *)
Lemma edge_dir_ok x n d :
  nodes !! x = Some n -> directory_of n = Some d -> x <> p -> dir_ok owed' nodes' x (dirf x d).
Proof.
  intros En Ed Hx. destruct (no_dir _ _ _ _ (to_nodes _ _ Hok x n En) d Ed) as [D1 D2 D3 D4 D5].
  destruct (Hdirf x d Hx) as (F1 & F2 & F3). split; rewrite ?F1, ?F2, ?F3; try done.
  - intros name y He. destruct (D3 name y He) as (yn & Ey & Hp).
    destruct (related_Some _ _ _ _ _ _ Hrel Ey) as (yn' & Ey' & Hch). exists yn'. split; [done|].
    rewrite (ch_parents _ _ _ _ Hch). destruct (decide (y = c)) as [->|]; [by apply Hparc|by rewrite Hpar].
  - rewrite Hstats, D4. destruct (decide (x ∈ l)) as [Hxl|Hxl].
    + destruct (list_elem_of_split _ _ Hxl) as (l1 & l2 & El).
      destruct l1 as [|y l1 _] using rev_ind.
      { destruct (chain_head _ _ _ Hchain) as [l0 E0]. rewrite El in E0. simpl in E0. congruence. }
      rewrite <-app_assoc in El. simpl in El.
      assert (y ∈ l) as Hy by (rewrite El; set_solver).
      destruct (chain_suffix _ _ _ _ Hchain Hy) as (m1 & m2 & Em & Hy2).
      pose proof (chain_NoDup _ _ _ Hchain) as Hnd.
      assert (exists name0, dir_parents nodes y = Some [(x, name0)]) as [name0 Ey0].
      { destruct (chain_head _ _ _ Hy2) as [m3 ->]. rewrite El in Em.
        apply NoDup_split_eq in Em as [-> <-]; [|by rewrite <-El].
        inversion Hy2 as [|? q nm ? Eq Hq]; subst. destruct (chain_head _ _ _ Hq) as [? [= -> _]]. eauto. }
      assert (exists yn, nodes !! y = Some yn /\ is_Some (directory_of yn) /\ node_parents yn = [(x, name0)]) as (yn & Eyn & Hyd & Hyp).
      { unfold dir_parents in Ey0. destruct (nodes !! y) as [yn|]; [|done]. simpl in Ey0. exists yn.
        destruct (directory_of yn) eqn:Ed0; [|done]. simpl in Ey0. injection Ey0 as ->. split; [done|]. by split; [eexists|]. }
      destruct (no_back _ _ _ _ (to_nodes _ _ Hok y yn Eyn) x name0) as (n0 & d0 & En0 & Ed0 & He0); [rewrite Hyp; set_solver|].
      rewrite En in En0. injection En0 as <-. rewrite Ed in Ed0. injection Ed0 as <-.
      rewrite Howed by done. rewrite (sum_stats_one nodes nodes' (entries d) name0 y s); try done.
      * rewrite !stats_add_assoc. f_equal. apply stats_add_comm.
      * rewrite edge_share. by rewrite decide_True.
      * intros name z Hz Hne. rewrite edge_share. apply decide_False. intros Hzl.
        destruct (chain_entries owed nodes p l x d name z Hok Hchain) as (k1 & k2 & Ek); [eauto|done|done|].
        assert (z = y) as -> by (rewrite El in Ek; apply (NoDup_pred_eq l1 k1 l2 k2 y z x); [by rewrite <-El|done]).
        destruct (D3 name y Hz) as (yn1 & Ey1 & Hp1). rewrite Eyn in Ey1. injection Ey1 as <-.
        rewrite Hyp in Hp1. apply list_elem_of_singleton in Hp1. congruence.
    + rewrite Howed by done. f_equal. symmetry. apply sum_stats_ext. intros name z Hz. rewrite edge_share. apply decide_False. intros Hzl.
      destruct (chain_entries owed nodes p l x d name z Hok Hchain) as (k1 & k2 & Ek); [eauto|done|done|].
      apply Hxl. rewrite Ek. set_solver.
  - by rewrite edge_subdirs.
Qed.

(** The whole invariant, from what changes at the parent and at the child. *)
Lemma edge_tree_ok pn pd cn :
  nodes !! p = Some pn -> directory_of pn = Some pd -> dir_ok owed' nodes' p (dirf p pd) ->
  nodes !! c = Some cn -> c <> root -> NoDup (par c (node_parents cn)) ->
  (is_Some (directory_of cn) -> (length (par c (node_parents cn)) <= 1)%nat) ->
  (forall name x, (name, x) ∈ entries pd -> x <> c -> (name, x) ∈ entries (dirf p pd)) ->
  (forall name, (p, name) ∈ par c (node_parents cn) -> (name, c) ∈ entries (dirf p pd)) ->
  (forall z lz, chain nodes z lz -> exists lz', chain nodes' z lz') -> tree_owing owed' nodes'.
Proof.
  intros Hpn Hpd Hp Hcn Hroot Hnd Hone Hkeep Hnew Hch. split.
  - destruct (to_root _ _ Hok) as (r & Er & Hr & Hrp). destruct (related_Some _ _ _ _ _ _ Hrel Er) as (r' & Er' & Hcr).
    exists r'. split; [done|]. rewrite (change_dir_of _ _ _ _ Hcr), (ch_parents _ _ _ _ Hcr), Hpar by done.
    split; [|done]. destruct Hr as [dr ->]. by eexists.
  - intros x n' En'. destruct (related_back _ _ _ _ _ _ Hrel En') as (n & En & Hcx).
    destruct (to_nodes _ _ Hok x n En) as [N1 N2 N3 N4 N5 N6 N7].
    pose proof (change_dir_of _ _ _ _ Hcx) as Edir. pose proof (ch_parents _ _ _ _ Hcx) as Epar.
    assert (is_Some (directory_of n') -> is_Some (directory_of n)) as Hback
      by (rewrite Edir; intros [y Hy]; destruct (directory_of n); [by eexists|done]).
    assert (forall q nm, (q, nm) ∈ node_parents n -> q <> p \/ x <> c ->
      exists qn d, nodes' !! q = Some qn /\ directory_of qn = Some d /\ (nm, x) ∈ entries d) as Hold.
    { intros q nm Hin Hq. destruct (N4 q nm Hin) as (qn & qd & Eq & Eqd & He).
      destruct (related_Some _ _ _ _ _ _ Hrel Eq) as (qn' & Eq' & Hcq). exists qn', (dirf q qd). split; [done|].
      rewrite (change_dir_of _ _ _ _ Hcq), Eqd. split; [done|]. destruct (decide (q = p)) as [->|Hne].
      - assert (qd = pd) as -> by congruence. apply Hkeep; [done|]. by destruct Hq.
      - by rewrite (proj1 (Hdirf q qd Hne)). }
    split.
    + by rewrite (ch_id _ _ _ _ Hcx).
    + unfold well_typed in *. rewrite (ch_type _ _ _ _ Hcx), (ch_data _ _ _ _ Hcx), N2. by destruct (node_data n).
    + rewrite Epar. destruct (decide (x = c)) as [->|]; [congruence|by rewrite Hpar].
    + intros q nm Hin. rewrite Epar in Hin. destruct (decide (x = c)) as [->|Hne].
      * assert (n = cn) as -> by congruence. destruct (decide (q = p)) as [->|Hq].
        -- destruct (related_Some _ _ _ _ _ _ Hrel Hpn) as (pn' & Ep' & Hcp). exists pn', (dirf p pd). split; [done|].
           rewrite (change_dir_of _ _ _ _ Hcp), Hpd. split; [done|]. by apply Hnew.
        -- apply Hold; [|by left]. by apply (Hparc q nm (node_parents cn)).
      * rewrite Hpar in Hin by done. apply Hold; [done|by right].
    + intros Hsome. rewrite Epar. destruct (decide (x = c)) as [->|]; [|rewrite Hpar by done; by apply N5, Hback].
      assert (n = cn) as -> by congruence. by apply Hone, Hback.
    + intros Hsome. destruct (N6 (Hback Hsome)) as [lz Hz]. by eapply Hch.
    + intros d' Ed'. rewrite Edir in Ed'. destruct (directory_of n) as [d0|] eqn:Ed0; [|done]. injection Ed' as <-.
      destruct (decide (x = p)) as [->|Hx]; [assert (d0 = pd) as -> by congruence; done|]. by eapply edge_dir_ok.
Qed.

End edge.

(** The chain of every directory, when a directory without parents gets one. *)
Lemma chain_extend nodes nodes' c q name lq z lz :
  (forall x, x <> c -> dir_parents nodes' x = dir_parents nodes x) ->
  dir_parents nodes c = Some [] -> dir_parents nodes' c = Some [(q, name)] -> chain nodes' q lq ->
  chain nodes z lz -> exists lz', chain nodes' z lz'.
Proof.
  intros Hx Ec Ec' Hq H. induction H as [z E|z r nm lz E H [lz' IH]]; destruct (decide (z = c)) as [->|].
  - exists (c :: lq). by eapply chain_up.
  - exists [z]. apply chain_end. by rewrite Hx.
  - congruence.
  - exists (z :: lz'). eapply chain_up; [by rewrite Hx|done].
Qed.

(** The chain of every directory, when a directory loses its parent. *)
Lemma chain_cut nodes nodes' c z lz :
  (forall x, x <> c -> dir_parents nodes' x = dir_parents nodes x) -> dir_parents nodes' c = Some [] ->
  chain nodes z lz -> exists lz', chain nodes' z lz'.
Proof.
  intros Hx Ec' H. induction H as [z E|z r nm lz E H [lz' IH]]; destruct (decide (z = c)) as [->|];
    try (by exists [c]; apply chain_end).
  - exists [z]. apply chain_end. by rewrite Hx.
  - exists (z :: lz'). eapply chain_up; [by rewrite Hx|done].
Qed.

Lemma find_entry_None es name : find_entry es name = None <-> name ∉ es.*1.
Proof.
  unfold find_entry. rewrite find_None_iff, Forall_forall. split.
  - intros H ([x c] & -> & Hin)%list_elem_of_fmap. specialize (H _ Hin). simpl in H. by rewrite bool_decide_true in H.
  - intros H [x c] Hin. apply bool_decide_false. intros ->. apply H. apply list_elem_of_fmap. by exists (name, c).
Qed.

Lemma find_entry_Some es name c : NoDup es.*1 -> (name, c) ∈ es -> find_entry es name = Some (name, c).
Proof.
  intros Hnd Hin. unfold find_entry. induction es as [|[x y] es IH]; [set_solver|]. simpl in *.
  apply NoDup_cons in Hnd as [Hnot Hnd]. apply elem_of_cons in Hin as [[= -> ->]|Hin]; [by rewrite bool_decide_true|].
  rewrite bool_decide_false; [by apply IH|]. intros ->. apply Hnot. apply list_elem_of_fmap. by exists (name, c).
Qed.

(** The assignments of link() and removeEdge(), one by one. *)
Lemma related_id nodes : related nodes nodes (fun _ => id) (fun _ => id).
Proof. intros x. destruct (nodes !! x); simpl; [apply change_refl|done]. Qed.

Lemma related_upd_dir nodes x g : related nodes (upd x (upd_dir g) nodes) (fun _ => id) (just x g).
Proof.
  eapply related_ext; [| |apply (related_upd nodes x _ id g); intros; apply change_upd_dir]; [|done].
  intros y ps. unfold just. by destruct (decide _).
Qed.

Lemma related_upd_nlink (b : bool) nodes x k :
  related nodes (if b then upd x (upd_dir (fun d => with_nlink d (u32 (nlink d + k)))) nodes else nodes)
    (fun _ => id) (just x (fun d => if b then with_nlink d (u32 (nlink d + k)) else d)).
Proof.
  destruct b; [apply related_upd_dir|]. eapply related_ext; [| |apply related_id]; [done|].
  intros y d. unfold just. by destruct (decide _).
Qed.

Lemma related_upd_parents nodes x f :
  related nodes (upd x (fun n => with_parents n (f (node_parents n))) nodes) (just x f) (fun _ => id).
Proof.
  eapply related_ext; [| |apply (related_upd nodes x _ f id); intros; apply change_parents]; [done|].
  intros y d. unfold just. by destruct (decide _).
Qed.

Lemma related_upd_time nodes n0 x f par dirf :
  related n0 nodes par dirf -> (forall n, n0 !! x = Some n -> node_type n <> kTrash) ->
  (forall n, node_type n <> kTrash -> node_change id id n (f n)) ->
  related nodes (upd x f nodes) (fun _ => id) (fun _ => id).
Proof.
  intros R Ht H. eapply related_ext; [| |apply (related_upd nodes x f id id)].
  - intros y z. unfold just. by destruct (decide _).
  - intros y z. unfold just. by destruct (decide _).
  - intros n En. apply H. destruct (related_back _ _ _ _ _ _ R En) as (m & Em & Hc). rewrite (ch_type _ _ _ _ Hc). by eapply Ht.
Qed.

Lemma getStats_same par dirf n n' : node_change par dirf n n' -> (forall d, dirf d = d) -> getStats goals n' = getStats goals n.
Proof.
  intros H Hf. unfold getStats, node_stats. rewrite (ch_data _ _ _ _ H), (ch_goal _ _ _ _ H).
  destruct (node_data n); simpl; by rewrite ?Hf.
Qed.

(** addStats() and subStats() after some of the assignments. *)
Lemma change_stats_related change owed nodes n1 par dirf p l :
  tree_owing owed nodes -> chain nodes p l -> related nodes n1 par dirf -> (forall x ps, x ∈ l -> par x ps = ps) ->
  (forall ps, par root ps = ps) ->
  exists n2, change_stats change root (stats_fuel n1) p n1 = Some n2 /\
    related nodes n2 par (fun x d => on_chain l change x (dirf x d)).
Proof.
  intros Hok Hc R Hpar Hroot. assert (chain n1 p l) as Hc1.
  { eapply chain_ext; [|exact Hc]. intros x Hx. rewrite (related_dir_parents _ _ _ _ x R).
    destruct (dir_parents nodes x); simpl; [by rewrite Hpar|done]. }
  destruct (change_stats_chain change root l (stats_fuel n1) n1 p Hc1) as (n2 & E2 & R2).
  { unfold stats_fuel. apply Nat.le_le_succ_r. by eapply chain_length. }
  { intros n En. destruct (related_back _ _ _ _ _ _ R En) as (n0 & En0 & H0). rewrite (ch_parents _ _ _ _ H0), Hroot.
    destruct (to_root _ _ Hok) as (r & Er & _ & Hr). congruence. }
  exists n2. split; [done|]. eapply related_ext; [| |exact (related_compose _ _ _ _ _ _ _ R R2)]; done.
Qed.

(** The times at the end of link() and removeEdge(). *)
Lemma related_times nodes nodes' timeStamp parent child par dirf :
  related nodes nodes' par dirf -> (forall n, nodes !! parent = Some n -> node_type n <> kTrash) ->
  (forall n, nodes !! child = Some n -> node_type n <> kTrash) ->
  related nodes (upd child (fun n => with_ctime n timeStamp)
    (upd parent (fun n => with_mtime (with_ctime n timeStamp) timeStamp) nodes')) par dirf.
Proof.
  intros R Hp Hc. pose proof (related_upd_time _ _ parent _ _ _ R Hp (change_times timeStamp)) as R1.
  pose proof (related_compose _ _ _ _ _ _ _ R R1) as R'.
  pose proof (related_upd_time _ _ child _ _ _ R' Hc (change_ctime timeStamp)) as R2.
  eapply related_ext; [| |exact (related_compose _ _ _ _ _ _ _ R' R2)]; done.
Qed.

Lemma dir_not_trash owed nodes p n : tree_owing owed nodes -> nodes !! p = Some n -> is_Some (directory_of n) -> node_type n <> kTrash.
Proof.
  intros Hok En Hd Ht. pose proof (no_typed _ _ _ _ (to_nodes _ _ Hok p n En)) as Hw. unfold well_typed in Hw. rewrite Ht in Hw.
  unfold directory_of in Hd. destruct (node_data n); simpl in *; try done; by destruct Hd.
Qed.

(** ** link() *)

Definition link_entry (child : Z) (name : name_t) (isdir : bool) (d : Directory) : Directory :=
  let d := with_entries d ((name, child) :: entries d) in
  let d := if caseInsensitive d then with_lower d ((hstringToLowerCase name, child) :: lowerCaseEntries d) else d in
  if isdir then with_nlink d (u32 (nlink d + 1)) else d.

Definition link_dir (parent child : Z) (name : name_t) (isdir : bool) (l : list Z) (s : StatsRecord) (x : Z) (d : Directory)
  : Directory :=
  on_chain l (fun y => stats_add y s) x (just parent (link_entry child name isdir) x d).

Section linking.
Context (nodes : nodes_t) (owed : Z -> StatsRecord) (Hok : tree_owing owed nodes) (parent child : Z) (name : name_t) (pn cn : FSNode) (l : list Z).
Context (Hpn : nodes !! parent = Some pn) (Hpd : is_Some (directory_of pn)) (Hcn : nodes !! child = Some cn).
Context (Hfree : isNameUsed nodes parent name = false).
Context (Hchain : chain nodes parent l) (Hnot : child ∉ l) (Hnoroot : child <> root).
Context (Hdir : is_Some (directory_of cn) -> node_parents cn = []).

Lemma linking_d : exists d, directory_of pn = Some d /\ dir_ok owed nodes parent d /\ name ∉ (entries d).*1.
Proof.
  destruct Hpd as [d Ed]. exists d. pose proof (no_dir _ _ _ _ (to_nodes _ _ Hok parent pn Hpn) d Ed) as Hd.
  split; [done|]. split; [done|]. apply find_entry_None. unfold isNameUsed, lookup in Hfree.
  apply bool_decide_eq_false in Hfree. rewrite Hpn in Hfree. simpl in Hfree. rewrite Ed in Hfree. simpl in Hfree.
  unfold dir_find in Hfree. rewrite (do_sensitive _ _ _ _ Hd) in Hfree.
  destruct (find_entry (entries d) name); [|done]. exfalso. apply Hfree. by eexists.
Qed.

Definition link_par : Z -> list (Z * name_t) -> list (Z * name_t) := just child (fun ps => ps ++ [(parent, name)]).

Lemma link_runs timeStamp :
  node_type cn <> kTrash ->
  exists nodes', link goals root timeStamp parent child name nodes = Some nodes' /\
    related nodes nodes' link_par (link_dir parent child name (is_dir cn) l (getStats goals cn)).
Proof.
  intros Htrash. destruct linking_d as (d & Ed & Hd & _). assert (child <> parent) as Hne.
  { intros ->. apply Hnot. destruct (chain_head _ _ _ Hchain) as [? ->]. set_solver. }
  unfold link. rewrite Hpn. cbn [mbind option_bind]. rewrite Ed. cbn [mbind option_bind]. rewrite Hcn. cbn [mbind option_bind].
  set (f1 := fun d => let d := with_entries d ((name, child) :: entries d) in
    if caseInsensitive d then with_lower d ((hstringToLowerCase name, child) :: lowerCaseEntries d) else d).
  pose proof (related_upd_dir nodes parent f1) as R1. set (n1 := upd parent (upd_dir f1) nodes) in *.
  pose proof (related_upd_parents n1 child (fun ps => ps ++ [(parent, name)])) as R2. cbv beta in R2.
  set (n2 := upd child _ n1) in *.
  pose proof (related_upd_nlink (is_dir cn) n2 parent 1) as R3. set (n3 := if is_dir cn then _ else n2) in *.
  pose proof (related_compose _ _ _ _ _ _ _ (related_compose _ _ _ _ _ _ _ R1 R2) R3) as R123. clearbody n3.
  destruct (related_Some _ _ _ _ _ _ R123 Hcn) as (cn3 & Ecn3 & Hch). rewrite Ecn3. cbn [mbind option_bind].
  rewrite (getStats_same _ _ _ _ Hch) by (intros dd; unfold just; by rewrite !decide_False by done).
  destruct (change_stats_related (fun x => stats_add x (getStats goals cn)) _ _ _ _ _ parent l Hok Hchain R123) as (n4 & E4 & R4).
  { intros x ps Hx. unfold just. by rewrite decide_False by (intros ->; done). }
  { intros ps. unfold just. by rewrite decide_False by done. }
  unfold addStats. rewrite E4. cbn [mbind option_bind].
  assert (related nodes n4 link_par (link_dir parent child name (is_dir cn) l (getStats goals cn))) as R.
  { eapply related_ext; [| |exact R4]; [done|]. intros x dd. unfold link_dir, link_entry, just, f1. f_equal.
    by destruct (decide (x = parent)). }
  destruct (0 <? timeStamp); [|by exists n4].
  rewrite bool_decide_false by (by rewrite (ch_type _ _ _ _ Hch)). eexists. split; [done|].
  apply related_times; [done| |congruence]. intros n En. eapply (dir_not_trash owed nodes parent n Hok En). congruence.
Qed.

Lemma link_dir_other x d :
  x <> parent ->
  let d' := link_dir parent child name (is_dir cn) l (getStats goals cn) x d in
  entries d' = entries d /\ caseInsensitive d' = caseInsensitive d /\ nlink d' = nlink d.
Proof. intros Hx. unfold link_dir, on_chain, just. rewrite (decide_False (P := x = parent)) by done. by destruct (decide (x ∈ l)). Qed.

Lemma link_dir_stats x d :
  dir_stats (link_dir parent child name (is_dir cn) l (getStats goals cn) x d) =
  if decide (x ∈ l) then stats_add (dir_stats d) (getStats goals cn) else dir_stats d.
Proof.
  unfold link_dir, on_chain, just, link_entry. destruct (decide (x = parent)), (decide (x ∈ l)); simpl; try done;
    by destruct (caseInsensitive d), (is_dir cn).
Qed.

Lemma parent_on_chain : parent ∈ l.
Proof. destruct (chain_head _ _ _ Hchain) as [? ->]. set_solver. Qed.

Section linked.
Context (nodes' : nodes_t).
Context (Hrel : related nodes nodes' link_par (link_dir parent child name (is_dir cn) l (getStats goals cn))).

Lemma linked_share x : share nodes' x =
  if decide (x ∈ l) then stats_add (share nodes x) (getStats goals cn) else share nodes x.
Proof. eapply edge_share; [exact Hchain|exact Hrel|apply link_dir_stats]. Qed.

Lemma linked_parent d :
  directory_of pn = Some d -> dir_ok owed nodes' parent (link_dir parent child name (is_dir cn) l (getStats goals cn) parent d).
Proof.
  intros Ed. destruct linking_d as (d0 & Ed0 & Hd & Hname). rewrite Ed in Ed0. injection Ed0 as <-.
  destruct Hd as [D1 D2 D3 D4 D5]. pose proof parent_on_chain as Hp.
  assert (forall nm x, (nm, x) ∈ entries d -> x ∉ l) as Hent
    by (intros nm x He; eapply chain_not_entry; [exact Hok|exact Hchain|exact Hpn|exact Ed|exact He]).
  assert (link_dir parent child name (is_dir cn) l (getStats goals cn) parent d =
    with_stats (with_nlink (with_entries d ((name, child) :: entries d)) (if is_dir cn then u32 (nlink d + 1) else nlink d))
      (stats_add (dir_stats d) (getStats goals cn))) as Elink.
  { unfold link_dir, on_chain, just, link_entry. rewrite decide_True, decide_True by done. simpl. rewrite D1.
    by destruct (is_dir cn). }
  rewrite Elink. split; cbn [entries caseInsensitive nlink dir_stats with_stats with_nlink with_entries].
  - done.
  - rewrite fmap_cons. by apply NoDup_cons.
  - intros nm x [[= -> ->]|He]%elem_of_cons.
    + destruct (related_Some _ _ _ _ _ _ Hrel Hcn) as (cn' & Ecn' & Hch). exists cn'. split; [done|].
      rewrite (ch_parents _ _ _ _ Hch). unfold link_par, just. rewrite decide_True by done. set_solver.
    + destruct (D3 nm x He) as (xn & Ex & Hpx). destruct (related_Some _ _ _ _ _ _ Hrel Ex) as (xn' & Ex' & Hch).
      exists xn'. split; [done|]. rewrite (ch_parents _ _ _ _ Hch). unfold link_par, just.
      destruct (decide (x = child)); [apply elem_of_app; by left|done].
  - simpl. rewrite linked_share, decide_False by done. rewrite (sum_stats_ext nodes nodes'), D4.
    + unfold share at 1. rewrite Hcn, (stats_add_comm (getStats goals cn)), !stats_add_assoc. f_equal. apply stats_add_comm.
    + intros nm x He. rewrite linked_share. by rewrite decide_False by by eapply Hent.
  - unfold subdirs. simpl.
    assert (is_subdir nodes' (name, child) = is_dir cn) as ->.
    { destruct (related_Some _ _ _ _ _ _ Hrel Hcn) as (cn' & Ecn' & Hch). unfold is_subdir. simpl. rewrite Ecn'.
      rewrite (well_typed_dir cn) by apply (no_typed _ _ _ _ (to_nodes _ _ Hok child cn Hcn)).
      rewrite (change_dir_of _ _ _ _ Hch). by destruct (directory_of cn). }
    assert (subdirs nodes' (entries d) = subdirs nodes (entries d)) as Hsub by (eapply edge_subdirs; exact Hrel). unfold subdirs in Hsub, D5.
    rewrite D5. destruct (is_dir cn); [|by rewrite <-Hsub]. cbn [length]. rewrite Nat2Z.inj_succ, Hsub. unfold u32, wrap.
    rewrite Zplus_mod_idemp_l. f_equal. lia.
Qed.

Lemma linked_dir_parents x : x <> child -> dir_parents nodes' x = dir_parents nodes x.
Proof.
  intros Hx. rewrite (related_dir_parents _ _ _ _ x Hrel). unfold link_par, just. rewrite decide_False by done.
  by destruct (dir_parents nodes x).
Qed.

Lemma linked_chain z lz : chain nodes z lz -> exists lz', chain nodes' z lz'.
Proof.
  intros Hz. destruct (directory_of cn) as [cd|] eqn:Ecd.
  - eapply (chain_extend nodes nodes' child parent name l); [apply linked_dir_parents| | | |exact Hz].
    + rewrite (dir_parents_Some _ _ _ Hcn) by by rewrite Ecd. by rewrite Hdir.
    + rewrite (related_dir_parents _ _ _ _ child Hrel), (dir_parents_Some _ _ _ Hcn) by by rewrite Ecd.
      rewrite Hdir by done. unfold link_par, just. by rewrite decide_True.
    + eapply chain_ext; [|exact Hchain]. intros x Hx. apply linked_dir_parents. by intros ->.
  - exists lz. eapply chain_ext; [|exact Hz]. intros x Hx. apply linked_dir_parents. intros ->.
    destruct (chain_is_dir _ _ _ _ Hz Hx) as (n & En & Hd). rewrite Hcn in En. injection En as <-.
    rewrite Ecd in Hd. by destruct Hd.
Qed.

Lemma link_preserves : tree_owing owed nodes'.
Proof.
  destruct linking_d as (d & Ed & Hd & Hname). pose proof (to_nodes _ _ Hok child cn Hcn) as Hc.
  assert (entries (link_dir parent child name (is_dir cn) l (getStats goals cn) parent d) = (name, child) :: entries d) as Ees.
  { unfold link_dir, on_chain, just, link_entry. rewrite decide_True, decide_True by (done || apply parent_on_chain). simpl.
    by destruct (caseInsensitive d), (is_dir cn). }
  eapply (edge_tree_ok nodes nodes' owed owed Hok parent child l Hchain link_par); try exact Hrel; try done.
  - apply link_dir_stats.
  - intros. by apply link_dir_other.
  - intros x ps Hx. unfold link_par, just. by rewrite decide_False.
  - intros q nm ps Hq. unfold link_par, just. rewrite decide_True by done. set_solver.
  - by apply linked_parent.
  - unfold link_par, just. rewrite decide_True by done. apply NoDup_app. split; [apply (no_parents _ _ _ _ Hc)|].
    split; [|apply NoDup_singleton]. intros [q nm] Hin Hq. apply list_elem_of_singleton in Hq as [= -> ->].
    destruct (no_back _ _ _ _ Hc parent name Hin) as (pn0 & d0 & E0 & Ed0 & He0).
    assert (d0 = d) as -> by congruence. apply Hname. apply list_elem_of_fmap. by exists (name, child).
  - intros Hsome. unfold link_par, just. rewrite decide_True, (Hdir Hsome) by done. simpl. lia.
  - intros nm x He _. rewrite Ees. set_solver.
  - intros nm Hin. rewrite Ees. unfold link_par, just in Hin. rewrite decide_True in Hin by done.
    apply elem_of_app in Hin as [Hin|Hin]; [|set_solver].
    destruct (no_back _ _ _ _ Hc parent nm Hin) as (pn0 & d0 & E0 & Ed0 & He0). assert (d0 = d) as -> by congruence. set_solver.
  - intros z lz Hz. by eapply linked_chain.
Qed.

End linked.

End linking.

(** ** removeEdge() *)

(** What the entries lose with one of them. *)
Lemma sum_stats_erase nodes es name c :
  (name, c) ∈ es -> sum_stats nodes (erase_first (is_entry name c) es) = stats_sub (sum_stats nodes es) (share nodes c).
Proof.
  induction es as [|[x y] es IH]; [set_solver|]. intros Hin. cbn [erase_first].
  destruct (is_entry name c (x, y)) eqn:E.
  - apply is_entry_true in E as [= -> ->]. cbn [sum_stats foldr]. rewrite (stats_add_comm (share nodes c)).
    symmetry. apply stats_add_sub, sum_stats_normal.
  - apply elem_of_cons in Hin as [[= <- <-]|Hin]; [by rewrite (proj2 (is_entry_true name c (name, c))) in E|].
    cbn [sum_stats foldr]. fold (sum_stats nodes). fold (sum_stats nodes es). unfold sum_stats in IH at 1. rewrite (IH Hin).
    rewrite !stats_sub_opp. by rewrite stats_add_assoc.
Qed.

Lemma subdirs_erase nodes es name c :
  (name, c) ∈ es ->
  subdirs nodes (erase_first (is_entry name c) es) = subdirs nodes es - (if is_subdir nodes (name, c) then 1 else 0).
Proof.
  unfold subdirs. induction es as [|[x y] es IH]; [set_solver|]. intros Hin. cbn [erase_first].
  destruct (is_entry name c (x, y)) eqn:E.
  - apply is_entry_true in E as [= -> ->]. cbn [List.filter]. destruct (is_subdir nodes (name, c)); cbn [length]; lia.
  - apply elem_of_cons in Hin as [[= <- <-]|Hin]; [by rewrite (proj2 (is_entry_true name c (name, c))) in E|].
    cbn [List.filter]. specialize (IH Hin). destruct (is_subdir nodes (x, y)); cbn [length]; lia.
Qed.

Definition remove_entry (child : Z) (name : name_t) (isdir : bool) (d : Directory) : Directory :=
  let d := with_entries d (erase_first (is_entry name child) (entries d)) in
  let d := if caseInsensitive d
    then with_lower d (erase_first (fun '(x, _) => bool_decide (x = hstringToLowerCase name)) (lowerCaseEntries d)) else d in
  if isdir then with_nlink d (u32 (nlink d + -1)) else d.

Definition remove_dir (parent child : Z) (name : name_t) (isdir : bool) (l : list Z) (s : StatsRecord) (x : Z) (d : Directory)
  : Directory :=
  on_chain l (fun y => stats_sub y s) x (just parent (remove_entry child name isdir) x d).

Section removing.
Context (nodes : nodes_t) (owed : Z -> StatsRecord) (Hok : tree_owing owed nodes) (parent child : Z) (name : name_t) (pn cn : FSNode) (pd : Directory) (l : list Z).
Context (Hpn : nodes !! parent = Some pn) (Hpd : directory_of pn = Some pd) (Hcn : nodes !! child = Some cn).
Context (He : (name, child) ∈ entries pd) (Hchain : chain nodes parent l).

Definition remove_par : Z -> list (Z * name_t) -> list (Z * name_t) := just child (erase_first (is_parent parent name)).

Lemma removing_not : child ∉ l.
Proof. eapply chain_not_entry; [exact Hok|exact Hchain|exact Hpn|exact Hpd|exact He]. Qed.

Lemma removing_ne : child <> parent.
Proof. intros E. apply removing_not. rewrite E. destruct (chain_head _ _ _ Hchain) as [? ->]. set_solver. Qed.

Lemma removing_dir : dir_ok owed nodes parent pd.
Proof. exact (no_dir _ _ _ _ (to_nodes _ _ Hok parent pn Hpn) pd Hpd). Qed.

Lemma removing_parent : (parent, name) ∈ node_parents cn.
Proof. destruct (do_edges _ _ _ _ removing_dir name child He) as (n & En & H). congruence. Qed.

Lemma removing_root : child <> root.
Proof.
  intros E. destruct (to_root _ _ Hok) as (r & Er & _ & Hr). assert (r = cn) as -> by congruence.
  pose proof removing_parent as H. rewrite Hr in H. set_solver.
Qed.

Lemma remove_runs timeStamp :
  node_type cn <> kTrash ->
  exists nodes', removeEdge goals root timeStamp parent name child nodes = Some nodes' /\
    related nodes nodes' remove_par (remove_dir parent child name (is_dir cn) l (getStats goals cn)).
Proof.
  intros Htrash. pose proof removing_ne as Hne. pose proof removing_dir as Hd. pose proof removing_not as Hnot.
  pose proof (do_sensitive _ _ _ _ Hd) as Hs. unfold removeEdge. rewrite Hpn. cbn [mbind option_bind]. rewrite Hpd.
  cbn [mbind option_bind]. rewrite Hcn. cbn [mbind option_bind]. unfold dir_find. rewrite Hs.
  rewrite (find_entry_Some _ name child) by (apply (do_names _ _ _ _ Hd) || done). cbn [mbind option_bind].
  rewrite Z.eqb_refl. cbn [negb].
  set (f1 := fun d => let d := with_entries d _ in if caseInsensitive d then _ else d).
  pose proof (related_upd_dir nodes parent f1) as R1. set (n1 := upd parent (upd_dir f1) nodes) in *.
  destruct (related_Some _ _ _ _ _ _ R1 Hcn) as (cn1 & Ecn1 & Hch). rewrite Ecn1. cbn [mbind option_bind].
  rewrite (getStats_same _ _ _ _ Hch) by (intros dd; unfold just; by rewrite !decide_False by done).
  destruct (change_stats_related (fun x => stats_sub x (getStats goals cn)) _ _ _ _ _ parent l Hok Hchain R1) as (n2 & E2 & R2);
    [done|done|].
  unfold subStats. rewrite E2. cbn [mbind option_bind].
  assert (forall n, nodes !! parent = Some n -> node_type n <> kTrash) as Hp
    by (intros n En; eapply (dir_not_trash owed nodes parent n Hok En); assert (n = pn) as -> by congruence; by eexists).
  assert (forall n, nodes !! child = Some n -> node_type n <> kTrash) as Hc by (intros n En; congruence).
  pose proof (related_upd_time _ _ parent _ _ _ R2 Hp (change_times timeStamp)) as R3.
  set (n3 := upd parent _ n2) in *.
  assert (is_dir cn1 = is_dir cn) as -> by (unfold is_dir; by rewrite (ch_type _ _ _ _ Hch)).
  pose proof (related_upd_nlink (is_dir cn) n3 parent (-1)) as R4.
  set (n4 := if is_dir cn then upd parent _ n3 else n3) in R4 |- *.
  set (g := same_parent _ parent false name).
  pose proof (related_upd_parents n4 child (erase_first g)) as R5. cbv beta in R5. set (n5 := upd child _ n4) in *.
  rewrite bool_decide_false by (by rewrite (ch_type _ _ _ _ Hch)). eexists. split; [done|].
  pose proof (related_compose _ _ _ _ _ _ _ R2 R3) as R. pose proof (related_compose _ _ _ _ _ _ _ R R4) as R'.
  pose proof (related_compose _ _ _ _ _ _ _ R' R5) as R''.
  pose proof (related_upd_time _ _ child _ _ _ R'' Hc (change_ctime timeStamp)) as R6. eapply related_ext; [| |exact (related_compose _ _ _ _ _ _ _ R'' R6)].
  - done.
  - intros x dd. unfold remove_dir, remove_entry, just, on_chain, id, f1. destruct (decide (x = parent)), (decide (x ∈ l)); try done;
      by destruct (is_dir cn), (caseInsensitive dd).
Qed.

Lemma remove_dir_other x d :
  x <> parent ->
  let d' := remove_dir parent child name (is_dir cn) l (getStats goals cn) x d in
  entries d' = entries d /\ caseInsensitive d' = caseInsensitive d /\ nlink d' = nlink d.
Proof. intros Hx. unfold remove_dir, on_chain, just. rewrite (decide_False (P := x = parent)) by done. by destruct (decide (x ∈ l)). Qed.

Lemma remove_dir_stats x d :
  dir_stats (remove_dir parent child name (is_dir cn) l (getStats goals cn) x d) =
  if decide (x ∈ l) then stats_add (dir_stats d) (stats_opp (getStats goals cn)) else dir_stats d.
Proof.
  rewrite <-stats_sub_opp. unfold remove_dir, on_chain, just, remove_entry.
  destruct (decide (x = parent)), (decide (x ∈ l)); simpl; try done; by destruct (caseInsensitive d), (is_dir cn).
Qed.

Section removed.
Context (nodes' : nodes_t).
Context (Hrel : related nodes nodes' remove_par (remove_dir parent child name (is_dir cn) l (getStats goals cn))).

Lemma removed_share x : x ∉ l -> share nodes' x = share nodes x.
Proof.
  intros Hx. rewrite (edge_share nodes nodes' parent l Hchain remove_par _ (stats_opp (getStats goals cn)) Hrel remove_dir_stats).
  by rewrite decide_False.
Qed.

Lemma removed_dir :
  remove_dir parent child name (is_dir cn) l (getStats goals cn) parent pd =
  with_stats (with_nlink (with_entries pd (erase_first (is_entry name child) (entries pd)))
    (if is_dir cn then u32 (nlink pd + -1) else nlink pd)) (stats_sub (dir_stats pd) (getStats goals cn)).
Proof.
  unfold remove_dir, on_chain, just, remove_entry. destruct (chain_head _ _ _ Hchain) as [l0 Hl].
  rewrite decide_True, decide_True by (done || rewrite Hl; set_solver). simpl. rewrite (do_sensitive _ _ _ _ removing_dir).
  by destruct (is_dir cn).
Qed.

Lemma is_parent_only nm : nm <> name -> forall ps, (parent, nm) ∈ ps -> (parent, nm) ∈ erase_first (is_parent parent name) ps.
Proof.
  intros Hnm ps Hin. apply erase_first_keep; [done|]. apply not_true_is_false. rewrite is_parent_true. congruence.
Qed.

Lemma removed_parent : dir_ok owed nodes' parent (remove_dir parent child name (is_dir cn) l (getStats goals cn) parent pd).
Proof.
  destruct removing_dir as [D1 D2 D3 D4 D5]. rewrite removed_dir. split; cbn [entries caseInsensitive nlink dir_stats with_stats with_nlink with_entries].
  - done.
  - by apply erase_first_NoDup.
  - intros nm x Hin. pose proof (erase_first_elem _ _ _ Hin) as Hold. destruct (D3 nm x Hold) as (xn & Ex & Hpx).
    destruct (related_Some _ _ _ _ _ _ Hrel Ex) as (xn' & Ex' & Hch). exists xn'. split; [done|].
    rewrite (ch_parents _ _ _ _ Hch). unfold remove_par, just. destruct (decide (x = child)) as [->|]; [|done].
    apply is_parent_only; [|done]. intros ->. revert Hin. apply erase_first_out.
    + by apply (NoDup_fmap_1 fst).
    + intros y _. apply is_entry_true.
  - rewrite (sum_stats_ext nodes nodes').
    + rewrite sum_stats_erase by done. rewrite D4. unfold share. rewrite Hcn, !stats_sub_opp, !stats_add_assoc. f_equal.
      apply stats_add_comm.
    + intros nm x Hin. apply removed_share.
      eapply chain_not_entry; [exact Hok|exact Hchain|exact Hpn|exact Hpd|by eapply erase_first_elem].
  - assert (forall es, subdirs nodes' es = subdirs nodes es) as -> by (eapply edge_subdirs; exact Hrel).
    rewrite subdirs_erase by done. unfold is_subdir. simpl. rewrite Hcn.
    rewrite (well_typed_dir cn) by apply (no_typed _ _ _ _ (to_nodes _ _ Hok child cn Hcn)). rewrite D5.
    destruct (bool_decide _); unfold u32, wrap; [rewrite Zplus_mod_idemp_l|]; f_equal; lia.
Qed.

Lemma removed_chain z lz : chain nodes z lz -> exists lz', chain nodes' z lz'.
Proof.
  intros Hz. assert (forall x, x <> child -> dir_parents nodes' x = dir_parents nodes x) as Hx.
  { intros x Hne. rewrite (related_dir_parents _ _ _ _ x Hrel). unfold remove_par, just. rewrite decide_False by done.
    by destruct (dir_parents nodes x). }
  destruct (directory_of cn) as [cd|] eqn:Ecd.
  - apply (chain_cut nodes nodes' child z lz Hx); [|exact Hz]. pose proof removing_parent as Hp.
    rewrite (related_dir_parents _ _ _ _ child Hrel), (dir_parents_Some _ _ _ Hcn) by (rewrite Ecd; by eexists). simpl.
    pose proof (no_single _ _ _ _ (to_nodes _ _ Hok child cn Hcn)) as H1. rewrite Ecd in H1. specialize (H1 ltac:(by eexists)).
    destruct (node_parents cn) as [|e [|e' ps]]; simpl in *; [set_solver| |lia]. apply list_elem_of_singleton in Hp as <-.
    unfold remove_par, just. rewrite decide_True by done. cbn [erase_first]. by rewrite (proj2 (is_parent_true parent name _)).
  - exists lz. eapply chain_ext; [|exact Hz]. intros x Hin. apply Hx. intros ->.
    destruct (chain_is_dir _ _ _ _ Hz Hin) as (n & En & Hd). rewrite Hcn in En. injection En as <-.
    rewrite Ecd in Hd. by destruct Hd.
Qed.

Lemma remove_preserves : tree_owing owed nodes'.
Proof.
  pose proof (to_nodes _ _ Hok child cn Hcn) as Hc.
  eapply (edge_tree_ok nodes nodes' owed owed Hok parent child l Hchain remove_par); try exact Hrel; try done.
  - apply remove_dir_stats.
  - intros. by apply remove_dir_other.
  - intros x ps Hx. unfold remove_par, just. by rewrite decide_False.
  - intros q nm ps Hq. unfold remove_par, just. rewrite decide_True by done. split; [apply erase_first_elem|].
    intros Hin. apply erase_first_keep; [done|]. apply not_true_is_false. rewrite is_parent_true. congruence.
  - apply removed_parent.
  - apply removing_root.
  - unfold remove_par, just. rewrite decide_True by done. rewrite <-(list_fmap_id (erase_first _ _)).
    apply erase_first_NoDup. rewrite list_fmap_id. apply (no_parents _ _ _ _ Hc).
  - intros Hsome. unfold remove_par, just. rewrite decide_True by done.
    etrans; [apply erase_first_length|by apply (no_single _ _ _ _ Hc)].
  - intros nm x Hin Hx. rewrite removed_dir. simpl. apply erase_first_keep; [done|]. apply not_true_is_false.
    rewrite is_entry_true. congruence.
  - intros nm Hin. unfold remove_par, just in Hin. rewrite decide_True in Hin by done.
    destruct (no_back _ _ _ _ Hc parent nm (erase_first_elem _ _ _ Hin)) as (pn0 & d0 & E0 & Ed0 & He0).
    assert (d0 = pd) as -> by congruence. rewrite removed_dir. simpl. apply erase_first_keep; [done|].
    apply not_true_is_false. rewrite is_entry_true. intros [= ->]. revert Hin. apply erase_first_out; [apply (no_parents _ _ _ _ Hc)|].
    intros y _. apply is_parent_true.
  - intros z lz Hz. by eapply removed_chain.
Qed.

End removed.

End removing.

(** ** The edges and the invariant *)

(** The directories above a node, itself not among them. *)
Lemma isAncestor_chain owed nodes x l a :
  tree_owing owed nodes -> chain nodes x l -> isAncestor nodes a x = Some (bool_decide (a ∈ tail l)).
Proof.
  intros Hok H. pose proof (chain_length _ _ _ H) as Hlen. unfold isAncestor.
  destruct H as [x E|x q name l E H]; unfold dir_parents in E; destruct (nodes !! x) as [n|]; try done; simpl in E;
    destruct (directory_of n); try done; simpl in E; injection E as E; cbn [mbind option_bind]; rewrite E; cbn [foldl tail].
  - by rewrite bool_decide_false by set_solver.
  - apply climbs_chain; [done|]. unfold stats_fuel. simpl in Hlen. lia.
Qed.

Lemma tree_chain owed nodes p n : tree_owing owed nodes -> nodes !! p = Some n -> is_Some (directory_of n) -> exists l, chain nodes p l.
Proof. intros Hok En Hd. exact (no_chain _ _ _ _ (to_nodes _ _ Hok p n En) Hd). Qed.

Lemma link_tree owed nodes timeStamp parent child name pn cn :
  tree_owing owed nodes -> nodes !! parent = Some pn -> is_Some (directory_of pn) -> nodes !! child = Some cn ->
  node_type cn <> kTrash -> isNameUsed nodes parent name = false -> child <> root ->
  climbs_to nodes child (stats_fuel nodes) parent = Some false -> (is_dir cn = true -> node_parents cn = []) ->
  exists nodes' l, chain nodes parent l /\ link goals root timeStamp parent child name nodes = Some nodes' /\
    related nodes nodes' (link_par parent child name) (link_dir parent child name (is_dir cn) l (getStats goals cn)) /\
    tree_owing owed nodes'.
Proof.
  intros Hok Hpn Hpd Hcn Htrash Hfree Hroot Hclimb Hdir. destruct (tree_chain _ _ _ _ Hok Hpn Hpd) as [l Hl].
  rewrite (climbs_chain _ child _ _ _ Hl) in Hclimb by (unfold stats_fuel; apply chain_length in Hl; lia).
  injection Hclimb as Hclimb%bool_decide_eq_false.
  assert (is_Some (directory_of cn) -> node_parents cn = []) as Hdir'.
  { intros Hs. apply Hdir. rewrite (well_typed_dir cn) by apply (no_typed _ _ _ _ (to_nodes _ _ Hok child cn Hcn)).
    by apply bool_decide_true. }
  destruct (link_runs nodes owed Hok parent child name pn cn l Hpn Hpd Hcn Hfree Hl Hclimb Hroot Hdir' timeStamp Htrash) as (nodes' & E & R).
  exists nodes', l. split; [done|]. split; [done|]. split; [done|].
  exact (link_preserves nodes owed Hok parent child name pn cn l Hpn Hpd Hcn Hfree Hl Hclimb Hroot Hdir' nodes' R).
Qed.

Lemma removeEdge_tree owed nodes timeStamp parent child name pn pd cn :
  tree_owing owed nodes -> nodes !! parent = Some pn -> directory_of pn = Some pd -> (name, child) ∈ entries pd ->
  nodes !! child = Some cn -> node_type cn <> kTrash ->
  exists nodes' l, chain nodes parent l /\ removeEdge goals root timeStamp parent name child nodes = Some nodes' /\
    related nodes nodes' (remove_par parent child name) (remove_dir parent child name (is_dir cn) l (getStats goals cn)) /\
    tree_owing owed nodes'.
Proof.
  intros Hok Hpn Hpd He Hcn Htrash. destruct (tree_chain _ _ _ _ Hok Hpn) as [l Hl]; [by eexists|].
  destruct (remove_runs nodes owed Hok parent child name pn cn pd l Hpn Hpd Hcn He Hl timeStamp Htrash) as (nodes' & E & R).
  exists nodes', l. split; [done|]. split; [done|]. split; [done|].
  exact (remove_preserves nodes owed Hok parent child name pn cn pd l Hpn Hpd Hcn He Hl nodes' R).
Qed.

End invariant.
