(* ===== verification/FsTreeNodes.v ===== *)
(** Changes of single nodes and the invariant of the tree: new nodes, removed nodes, changes of fields, and the length
    of a file, whose parents' statistics follow one edge at a time. *)
From S2P Require Import Prelude Serialization Nodes FileSize FsTree FsTreeInv.

Section nodes.
Context (goals : Z -> Goals.Goal) (root : Z).
Notation owing := (tree_owing goals root).

(** Equal sums, wrapped in different orders. *)
Ltac wrapped :=
  repeat first [rewrite Zplus_mod_idemp_l | rewrite Zplus_mod_idemp_r | rewrite Zminus_mod_idemp_l | rewrite Zminus_mod_idemp_r];
  f_equal; lia.

Lemma stats_add_zero_l a : stats_add zero_stats (stats_add zero_stats a) = stats_add zero_stats a.
Proof. by rewrite <-stats_add_assoc. Qed.

Lemma stats_add_normal a b : stats_add a (stats_add zero_stats b) = stats_add a b.
Proof.
  rewrite (stats_add_comm zero_stats), <-stats_add_assoc. apply normal_add.
Qed.

(** The debts count modulo the widths of the statistics. *)
Lemma owing_ext owed owed' nodes :
  owing owed nodes -> (forall p, stats_add zero_stats (owed p) = stats_add zero_stats (owed' p)) -> owing owed' nodes.
Proof.
  intros [Hr Hn] He. split; [done|]. intros x n En. destruct (Hn x n En) as [N1 N2 N3 N4 N5 N6 N7]. split; try done.
  intros d Ed. destruct (N7 d Ed) as [D1 D2 D3 D4 D5]. split; try done.
  by rewrite D4, <-(stats_add_normal _ (owed x)), He, stats_add_normal.
Qed.

(** ** One addStats() *)

Definition owe (p : Z) (s : StatsRecord) (owed : Z -> StatsRecord) (x : Z) : StatsRecord :=
  if decide (x = p) then stats_add (owed x) s else owed x.

Lemma on_chain_stats l s x d :
  dir_stats (on_chain l (fun y => stats_add y s) x d) = if decide (x ∈ l) then stats_add (dir_stats d) s else dir_stats d.
Proof. unfold on_chain. by destruct (decide _). Qed.

(** Nothing but statistics changes. *)
Lemma same_edges_owing owed owed' nodes nodes' dirf :
  owing owed nodes -> related nodes nodes' (fun _ => id) dirf ->
  (forall x d, entries (dirf x d) = entries d /\ caseInsensitive (dirf x d) = caseInsensitive d /\ nlink (dirf x d) = nlink d) ->
  (forall x n d, nodes !! x = Some n -> directory_of n = Some d ->
    dir_stats (dirf x d) = stats_add (sum_stats goals nodes' (entries d)) (owed' x)) ->
  owing owed' nodes'.
Proof.
  intros Hok R Hon Hst. split.
  - destruct (to_root _ _ _ _ Hok) as (r & Er & Hr & Hrp). destruct (related_Some _ _ _ _ _ _ R Er) as (r' & Er' & Hc).
    exists r'. rewrite (change_dir_of _ _ _ _ Hc), (ch_parents _ _ _ _ Hc). split; [done|]. split; [|done].
    destruct Hr as [? ->]. by eexists.
  - intros x n' En'. destruct (related_back _ _ _ _ _ _ R En') as (m & Em & Hc).
    destruct (to_nodes _ _ _ _ Hok x m Em) as [N1 N2 N3 N4 N5 N6 N7].
    assert (is_Some (directory_of n') -> is_Some (directory_of m)) as Hback
      by (rewrite (change_dir_of _ _ _ _ Hc); intros [? ?]; destruct (directory_of m); [by eexists|done]).
    split.
    + by rewrite (ch_id _ _ _ _ Hc).
    + unfold well_typed in *. rewrite (ch_type _ _ _ _ Hc), (ch_data _ _ _ _ Hc), N2. by destruct (node_data m).
    + by rewrite (ch_parents _ _ _ _ Hc).
    + intros q nm Hin. rewrite (ch_parents _ _ _ _ Hc) in Hin. destruct (N4 q nm Hin) as (qn & qd & Eq & Eqd & He).
      destruct (related_Some _ _ _ _ _ _ R Eq) as (qn' & Eq' & Hcq). exists qn'. eexists. split; [done|].
      rewrite (change_dir_of _ _ _ _ Hcq), Eqd. split; [done|]. by rewrite (proj1 (Hon _ _)).
    + intros Hs. rewrite (ch_parents _ _ _ _ Hc). by apply N5, Hback.
    + intros Hs. destruct (N6 (Hback Hs)) as [lz Hz]. exists lz. eapply chain_ext; [|exact Hz]. intros y _.
      rewrite (related_dir_parents _ _ _ _ y R). by destruct (dir_parents nodes y).
    + intros d' Ed'. rewrite (change_dir_of _ _ _ _ Hc) in Ed'. destruct (directory_of m) as [dm|] eqn:Edm; [|done].
      injection Ed' as <-. destruct (N7 dm eq_refl) as [D1 D2 D3 D4 D5]. destruct (Hon x dm) as (F1 & F2 & F3).
      split; rewrite ?F1, ?F2, ?F3; try done.
      * intros nm y He. destruct (D3 nm y He) as (yn & Ey & Hp). destruct (related_Some _ _ _ _ _ _ R Ey) as (yn' & Ey' & Hcy).
        exists yn'. by rewrite (ch_parents _ _ _ _ Hcy).
      * by eapply Hst.
      * rewrite D5. do 2 f_equal. symmetry. eapply edge_subdirs. exact R.
Qed.

Lemma addStats_owing owed nodes p n s :
  owing owed nodes -> nodes !! p = Some n -> is_Some (directory_of n) ->
  exists nodes' l, chain nodes p l /\ addStats root p s nodes = Some nodes' /\
    related nodes nodes' (fun _ => id) (on_chain l (fun y => stats_add y s)) /\ owing (owe p s owed) nodes'.
Proof.
  intros Hok Hp Hd. destruct (tree_chain _ _ _ _ _ _ Hok Hp Hd) as [l Hl]. destruct Hd as [d Hd].
  destruct (change_stats_related goals root (fun y => stats_add y s) owed nodes nodes (fun _ => id) (fun _ => id) p l Hok Hl)
    as (nodes' & E & R); [apply related_id|done|done|].
  change (related nodes nodes' (fun _ => id) (on_chain l (fun y => stats_add y s))) in R. exists nodes', l. split; [done|]. split; [done|]. split; [done|].
  assert (forall x dx, entries (on_chain l (fun y => stats_add y s) x dx) = entries dx /\
    caseInsensitive (on_chain l (fun y => stats_add y s) x dx) = caseInsensitive dx /\
    nlink (on_chain l (fun y => stats_add y s) x dx) = nlink dx) as Hon
    by (intros x dx; unfold on_chain; by destruct (decide _)).
  eapply same_edges_owing; [exact Hok|exact R|exact Hon|]. intros x m dm Em Edm. destruct (decide (x = p)) as [->|Hx].
  - assert (dm = d) as -> by congruence. rewrite on_chain_stats.
    destruct (chain_head _ _ _ Hl) as [l0 El]. rewrite decide_True by (rewrite El; set_solver).
    rewrite (do_stats _ _ _ _ _ (no_dir _ _ _ _ _ (to_nodes _ _ _ _ Hok p n Hp) d Hd)). unfold owe.
    rewrite decide_True by done. rewrite !stats_add_assoc. f_equal. symmetry. apply sum_stats_ext. intros nm z Hz.
    rewrite (edge_share goals nodes nodes' p l Hl _ _ s R (on_chain_stats l s)). apply decide_False.
    eapply chain_not_entry; [exact Hok|exact Hl|exact Hp|exact Hd|exact Hz].
  - assert (dir_ok goals (owe p s owed) nodes' x (on_chain l (fun y => stats_add y s) x dm)) as Hdo.
    { eapply (edge_dir_ok goals root nodes nodes' owed (owe p s owed) Hok p x l Hl _ _ s R (on_chain_stats l s));
        [intros; apply Hon|done|intros y Hy; unfold owe; by rewrite decide_False|done|exact Em|exact Edm|exact Hx]. }
    pose proof (do_stats _ _ _ _ _ Hdo) as Hds. by rewrite (proj1 (Hon x dm)) in Hds.
Qed.

(** ** A node changes, its edges stay *)

(** An amount for every edge to [p]. *)
Definition per_edge (s : StatsRecord) (ps : list (Z * name_t)) (p : Z) : StatsRecord :=
  foldr (fun '(q, _) acc => if decide (q = p) then stats_add s acc else acc) zero_stats ps.

Definition per_entry (s : StatsRecord) (x : Z) (es : list (name_t * Z)) : StatsRecord :=
  foldr (fun '(_, c) acc => if decide (c = x) then stats_add s acc else acc) zero_stats es.

Definition count_stats (s : StatsRecord) (k : nat) : StatsRecord := Nat.iter k (stats_add s) zero_stats.

Lemma per_edge_count s ps p : per_edge s ps p = count_stats s (length (filter (fun e => e.1 = p) ps)).
Proof.
  induction ps as [|[q nm] ps IH]; [done|]. cbn [per_edge foldr]. rewrite filter_cons. simpl.
  destruct (decide (q = p)); simpl; fold (per_edge s ps p); by rewrite IH.
Qed.

Lemma per_entry_count s x es : per_entry s x es = count_stats s (length (filter (fun e => e.2 = x) es)).
Proof.
  induction es as [|[nm c] es IH]; [done|]. cbn [per_entry foldr]. rewrite filter_cons. simpl.
  destruct (decide (c = x)); simpl; fold (per_entry s x es); by rewrite IH.
Qed.

(** A node has as many edges to a directory as the directory has entries for it. *)
Lemma edges_entries owed nodes x n p pn d s :
  owing owed nodes -> nodes !! x = Some n -> nodes !! p = Some pn -> directory_of pn = Some d ->
  per_edge s (node_parents n) p = per_entry s x (entries d).
Proof.
  intros Hok En Ep Ed. rewrite per_edge_count, per_entry_count. f_equal.
  destruct (to_nodes _ _ _ _ Hok x n En) as [_ _ N3 N4 _ _ _].
  destruct (no_dir _ _ _ _ _ (to_nodes _ _ _ _ Hok p pn Ep) d Ed) as [_ D2 D3 _ _].
  rewrite <-(length_fmap snd (filter (fun e => e.1 = p) _)), <-(length_fmap fst (filter (fun e => e.2 = x) _)).
  apply Permutation_length, NoDup_Permutation.
  - apply NoDup_fmap_2_strong; [|by apply NoDup_filter]. intros [q1 n1] [q2 n2] H1 H2 Hn.
    apply list_elem_of_filter in H1 as [H1 _], H2 as [H2 _]. simpl in *. congruence.
  - eapply sublist_NoDup; [exact D2|]. apply fmap_sublist, sublist_filter.
  - intros nm. rewrite !list_elem_of_fmap. split.
    + intros ([q nm'] & -> & [Hq Hin]%list_elem_of_filter). simpl in *. subst q.
      destruct (N4 p nm' Hin) as (pn' & d' & Ep' & Ed' & He). assert (d' = d) as -> by congruence.
      exists (nm', x). split; [done|]. by apply list_elem_of_filter.
    + intros ([nm' c] & -> & [Hc Hin]%list_elem_of_filter). simpl in *. subst c.
      destruct (D3 nm' x Hin) as (n' & En' & Hp). assert (n' = n) as -> by congruence.
      exists (p, nm'). split; [done|]. by apply list_elem_of_filter.
Qed.

Lemma sum_stats_change nodes nodes' x s0 s1 es :
  share goals nodes x = s0 -> share goals nodes' x = s1 -> (forall y, y <> x -> share goals nodes' y = share goals nodes y) ->
  stats_add (sum_stats goals nodes' es) (per_entry (stats_sub s0 s1) x es) = sum_stats goals nodes es.
Proof.
  intros H0 H1 Hy. induction es as [|[nm c] es IH]; [done|]. cbn [sum_stats per_entry foldr].
  fold (sum_stats goals nodes' es). fold (sum_stats goals nodes es). fold (per_entry (stats_sub s0 s1) x es).
  rewrite <-IH. destruct (decide (c = x)) as [->|Hne].
  - rewrite H0, H1. clear. unfold stats_add, stats_sub, stats_op, u32, u64, wrap. simpl.
    f_equal; wrapped.
  - rewrite Hy by done. by rewrite stats_add_assoc.
Qed.

Lemma insert_dir_parents nodes x n n' y :
  nodes !! x = Some n -> node_parents n' = node_parents n -> directory_of n' = directory_of n ->
  dir_parents (<[x := n']> nodes) y = dir_parents nodes y.
Proof.
  intros En Hp Hd. unfold dir_parents. destruct (decide (y = x)) as [->|].
  - rewrite lookup_insert_eq, En. simpl. by rewrite Hd, Hp.
  - by rewrite lookup_insert_ne.
Qed.

Lemma subdirs_same nodes nodes' es :
  (forall y, (directory_of <$> nodes' !! y) = (directory_of <$> nodes !! y)) -> subdirs nodes' es = subdirs nodes es.
Proof.
  intros H. unfold subdirs. f_equal. f_equal. apply filter_ext. intros [nm c]. unfold is_subdir. simpl. specialize (H c).
  destruct (nodes' !! c), (nodes !! c); simpl in H; try done. by injection H as ->.
Qed.

Lemma node_change_owing owed nodes x n n' :
  owing owed nodes -> nodes !! x = Some n -> node_id n' = x -> well_typed n' -> node_parents n' = node_parents n ->
  directory_of n' = directory_of n ->
  owing (fun p => stats_add (owed p) (per_edge (stats_sub (getStats goals n) (getStats goals n')) (node_parents n) p))
    (<[x := n']> nodes).
Proof.
  intros Hok En Hid Hty Hp Hd. set (nodes' := <[x := n']> nodes).
  assert (forall y m, nodes' !! y = Some m -> exists m0, nodes !! y = Some m0 /\ node_parents m = node_parents m0 /\
    directory_of m = directory_of m0 /\ node_id m = y /\ well_typed m) as Hback.
  { intros y m Ey. unfold nodes' in Ey. destruct (decide (y = x)) as [->|].
    - rewrite lookup_insert_eq in Ey. injection Ey as <-. by exists n.
    - rewrite lookup_insert_ne in Ey by done. exists m. destruct (to_nodes _ _ _ _ Hok y m Ey). done. }
  assert (forall y m, nodes !! y = Some m -> exists m', nodes' !! y = Some m' /\ node_parents m' = node_parents m /\
    directory_of m' = directory_of m) as Hfwd.
  { intros y m Ey. unfold nodes'. destruct (decide (y = x)) as [->|].
    - rewrite lookup_insert_eq. exists n'. by assert (m = n) as -> by congruence.
    - rewrite lookup_insert_ne by done. by exists m. }
  assert (forall z lz, chain nodes z lz -> chain nodes' z lz) as Hchain
    by (intros z lz; apply chain_ext; intros y _; by eapply insert_dir_parents).
  split.
  - destruct (to_root _ _ _ _ Hok) as (r & Er & Hr & Hrp). destruct (Hfwd root r Er) as (r' & Er' & Hp' & Hd').
    exists r'. by rewrite Hp', Hd'.
  - intros y m Ey. destruct (Hback y m Ey) as (m0 & Ey0 & Hp0 & Hd0 & Hid0 & Hty0).
    destruct (to_nodes _ _ _ _ Hok y m0 Ey0) as [N1 N2 N3 N4 N5 N6 N7]. split; rewrite ?Hp0, ?Hd0; try done.
    + intros q nm Hin. destruct (N4 q nm Hin) as (qn & qd & Eq & Eqd & He). destruct (Hfwd q qn Eq) as (qn' & Eq' & _ & Hq').
      exists qn', qd. by rewrite Hq'.
    + intros Hs. destruct (N6 Hs) as [lz Hz]. eauto.
    + intros d Ed. destruct (N7 d Ed) as [D1 D2 D3 D4 D5]. split; try done.
      * intros nm c He. destruct (D3 nm c He) as (cn & Ec & Hc). destruct (Hfwd c cn Ec) as (cn' & Ec' & Hc' & _).
        exists cn'. by rewrite Hc'.
      * rewrite (edges_entries owed nodes x n y m0 d _ Hok En Ey0 Ed).
        rewrite (stats_add_comm (owed y)), <-stats_add_assoc, (sum_stats_change nodes nodes' x); [done| | |].
        -- unfold share. by rewrite En.
        -- unfold share, nodes'. by rewrite lookup_insert_eq.
        -- intros z Hz. unfold share, nodes'. by rewrite lookup_insert_ne.
      * rewrite D5. do 2 f_equal. symmetry. apply subdirs_same. intros z. unfold nodes'. destruct (decide (z = x)) as [->|].
        -- rewrite lookup_insert_eq, En. simpl. by rewrite Hd.
        -- by rewrite lookup_insert_ne.
Qed.

Lemma per_edge_nothing a s ps p : stats_add zero_stats (stats_add a (per_edge (stats_sub s s) ps p)) = stats_add zero_stats a.
Proof.
  assert (forall b, stats_add (stats_sub s s) b = stats_add zero_stats b) as Hs.
  { intros b. unfold stats_add, stats_sub, stats_op. simpl. by rewrite !Z.sub_diag. }
  induction ps as [|[q nm] ps IH]; cbn [per_edge foldr].
  - by rewrite (stats_add_comm a), stats_add_zero_l.
  - fold (per_edge (stats_sub s s) ps p). destruct (decide (q = p)); [|done]. rewrite Hs, stats_add_normal. done.
Qed.

(** A change that the statistics do not see. *)
Lemma node_same_owing owed nodes x n n' :
  owing owed nodes -> nodes !! x = Some n -> node_id n' = x -> well_typed n' -> node_parents n' = node_parents n ->
  directory_of n' = directory_of n -> getStats goals n' = getStats goals n -> owing owed (<[x := n']> nodes).
Proof.
  intros Hok En Hid Hty Hp Hd Hs. eapply owing_ext; [by eapply node_change_owing|]. intros p. simpl. rewrite Hs.
  apply per_edge_nothing.
Qed.

(** ** updateParentStatsForNode() *)

(** What is the same before and after: everything but statistics. *)
Definition same_but_stats (nodes nodes' : nodes_t) : Prop :=
  exists dirf, related nodes nodes' (fun _ => id) dirf /\
    forall x d, entries (dirf x d) = entries d /\ caseInsensitive (dirf x d) = caseInsensitive d /\ nlink (dirf x d) = nlink d.

Lemma same_but_stats_refl nodes : same_but_stats nodes nodes.
Proof. exists (fun _ => id). split; [apply related_id|done]. Qed.

Lemma same_but_stats_trans n1 n2 n3 : same_but_stats n1 n2 -> same_but_stats n2 n3 -> same_but_stats n1 n3.
Proof.
  intros (f & R & Hf) (g & R' & Hg). exists (fun x d => g x (f x d)). split; [by eapply related_compose|].
  intros x d. destruct (Hf x d) as (? & ? & ?), (Hg x (f x d)) as (? & ? & ?). split_and!; congruence.
Qed.

Lemma updateParentStats_owing s0 s1 ps : forall owed nodes,
  owing owed nodes ->
  (forall p nm, (p, nm) ∈ ps -> exists n, nodes !! p = Some n /\ is_Some (directory_of n)) ->
  exists nodes', updateParentStatsForNode root ps s1 s0 nodes = Some nodes' /\ same_but_stats nodes nodes' /\
    owing (fun p => stats_add (owed p) (per_edge (stats_sub s1 s0) ps p)) nodes'.
Proof.
  induction ps as [|[p nm] ps IH]; intros owed nodes Hok Hps.
  - exists nodes. split; [done|]. split; [apply same_but_stats_refl|]. eapply owing_ext; [exact Hok|]. intros p.
    cbn [per_edge foldr]. by rewrite (stats_add_comm (owed p)), stats_add_zero_l.
  - destruct (Hps p nm) as (n & En & Hd); [set_solver|].
    destruct (addStats_owing owed nodes p n (stats_sub s1 s0) Hok En Hd) as (n1 & l & Hl & E1 & R1 & Hok1).
    destruct (IH _ n1 Hok1) as (n2 & E2 & S2 & Hok2).
    { intros q nm' Hq. destruct (Hps q nm') as (qn & Eq & Hqd); [set_solver|].
      destruct (related_Some _ _ _ _ _ _ R1 Eq) as (qn' & Eq' & Hc). exists qn'. split; [done|].
      rewrite (change_dir_of _ _ _ _ Hc). destruct Hqd as [? ->]. by eexists. }
    exists n2. split.
    + unfold updateParentStatsForNode. cbn [foldl]. unfold addSubStats at 2. cbn [mbind option_bind]. rewrite E1. exact E2.
    + split.
      * eapply same_but_stats_trans; [|exact S2]. exists (on_chain l (fun y => stats_add y (stats_sub s1 s0))).
        split; [exact R1|]. intros x d. unfold on_chain. by destruct (decide _).
      * eapply owing_ext; [exact Hok2|]. intros q. unfold owe. cbn [per_edge foldr]. fold (per_edge (stats_sub s1 s0) ps q).
        destruct (decide (q = p)) as [->|].
        -- rewrite decide_True by done. by rewrite stats_add_assoc.
        -- by rewrite decide_False.
Qed.

Lemma stats_cancel s s' : stats_add (stats_sub s s') (stats_sub s' s) = zero_stats.
Proof.
  unfold stats_add, stats_sub, stats_op, zero_stats, u32, u64, wrap. simpl.
  f_equal; rewrite Zplus_mod_idemp_l, Zplus_mod_idemp_r; match goal with |- ?x mod _ = _ => replace x with 0 by lia end; done.
Qed.

Lemma stats_add_swap u a v b : stats_add (stats_add u a) (stats_add v b) = stats_add (stats_add u v) (stats_add a b).
Proof. rewrite !stats_add_assoc. f_equal. rewrite <-!stats_add_assoc. f_equal. apply stats_add_comm. Qed.

Lemma per_edge_cancel s s' ps p :
  stats_add zero_stats (stats_add (stats_add zero_stats (per_edge (stats_sub s s') ps p)) (per_edge (stats_sub s' s) ps p))
  = stats_add zero_stats zero_stats.
Proof.
  induction ps as [|[q nm] ps IH]; [done|]. cbn [per_edge foldr]. fold (per_edge (stats_sub s s') ps p).
  fold (per_edge (stats_sub s' s) ps p). destruct (decide (q = p)); [|exact IH]. rewrite <-IH.
  generalize (per_edge (stats_sub s s') ps p), (per_edge (stats_sub s' s) ps p). intros a b.
  rewrite !(stats_add_assoc zero_stats), stats_add_swap, stats_cancel. by rewrite stats_add_zero_l.
Qed.

(** The change of a file with the change of its parents' statistics. *)
Lemma file_change_tree nodes x n n' :
  tree_ok goals root nodes -> nodes !! x = Some n -> node_id n' = x -> well_typed n' -> node_parents n' = node_parents n ->
  directory_of n' = directory_of n ->
  exists nodes', updateParentStatsForNode root (node_parents n) (getStats goals n') (getStats goals n) (<[x := n']> nodes)
      = Some nodes' /\ same_but_stats (<[x := n']> nodes) nodes' /\ tree_ok goals root nodes'.
Proof.
  intros Hok En Hid Hty Hp Hd. pose proof (node_change_owing _ nodes x n n' Hok En Hid Hty Hp Hd) as Hok1.
  destruct (updateParentStats_owing (getStats goals n) (getStats goals n') (node_parents n) _ _ Hok1) as (nodes' & E & S & Hok2).
  - intros p nm Hin. destruct (no_back _ _ _ _ _ (to_nodes _ _ _ _ Hok x n En) p nm Hin) as (pn & d & Ep & Ed & _).
    destruct (decide (p = x)) as [->|].
    + exists n'. rewrite lookup_insert_eq, Hd. split; [done|]. exists d. congruence.
    + exists pn. rewrite lookup_insert_ne by done. split; [done|by eexists].
  - exists nodes'. split; [done|]. split; [done|]. eapply owing_ext; [exact Hok2|]. intros p. unfold no_debt.
    apply per_edge_cancel.
Qed.

(** ** Nodes come and go *)

(** A node without edges. *)
Record loose (x : Z) (n : FSNode) : Prop := MkLoose {
  lo_id : node_id n = x;
  lo_typed : well_typed n;
  lo_parents : node_parents n = [];
  lo_dir : forall d, directory_of n = Some d ->
    entries d = [] /\ caseInsensitive d = false /\ dir_stats d = zero_stats /\ nlink d = 2;
}.

Lemma subdirs_ext nodes nodes' es :
  (forall nm c, (nm, c) ∈ es -> nodes' !! c = nodes !! c) -> subdirs nodes' es = subdirs nodes es.
Proof.
  intros H. unfold subdirs. do 2 f_equal. apply filter_ext_in. intros [nm c] Hin%list_elem_of_In. unfold is_subdir. simpl.
  by rewrite (H nm c Hin).
Qed.

(** The directories that are in both tables. *)
Lemma dir_ok_ext nodes nodes' p d :
  (forall nm c, (nm, c) ∈ entries d -> nodes' !! c = nodes !! c) -> dir_ok goals no_debt nodes p d -> dir_ok goals no_debt nodes' p d.
Proof.
  intros Hc [D1 D2 D3 D4 D5]. split; try done.
  - intros nm c He. rewrite (Hc nm c He). by apply D3.
  - rewrite D4. f_equal. symmetry. apply sum_stats_ext. intros nm c He. unfold share. by rewrite (Hc nm c He).
  - rewrite D5. do 2 f_equal. symmetry. by apply subdirs_ext.
Qed.

Lemma insert_tree nodes x n :
  tree_ok goals root nodes -> nodes !! x = None -> loose x n -> tree_ok goals root (<[x := n]> nodes).
Proof.
  intros Hok Hx [L1 L2 L3 L4].
  assert (forall y m, nodes !! y = Some m -> <[x := n]> nodes !! y = Some m) as Hkeep
    by (intros y m Ey; rewrite lookup_insert_ne; [done|congruence]).
  assert (forall z lz, chain nodes z lz -> chain (<[x := n]> nodes) z lz) as Hchain.
  { intros z lz Hz. eapply chain_ext; [|exact Hz]. intros y Hy. destruct (chain_dom _ _ _ _ Hz Hy) as [m Em].
    unfold dir_parents. by rewrite (Hkeep y m Em), Em. }
  split.
  - destruct (to_root _ _ _ _ Hok) as (r & Er & Hr & Hrp). exists r. by rewrite (Hkeep root r Er).
  - intros y m Ey. destruct (decide (y = x)) as [->|Hne].
    + rewrite lookup_insert_eq in Ey. injection Ey as <-. split; try done; rewrite ?L3.
      * constructor.
      * intros q nm Hq. set_solver.
      * simpl. lia.
      * intros Hs. exists [x]. apply chain_end. rewrite (dir_parents_Some _ x n); [by rewrite L3|by rewrite lookup_insert_eq|done].
      * intros d Ed. destruct (L4 d Ed) as (E1 & E2 & E3 & E4). split; rewrite ?E1; try done; [constructor|set_solver].
    + rewrite lookup_insert_ne in Ey by done. destruct (to_nodes _ _ _ _ Hok y m Ey) as [N1 N2 N3 N4 N5 N6 N7]. split; try done.
      * intros q nm Hin. destruct (N4 q nm Hin) as (qn & qd & Eq & Eqd & He). exists qn, qd. by rewrite (Hkeep q qn Eq).
      * intros Hs. destruct (N6 Hs) as [lz Hz]. eauto.
      * intros d Ed. eapply dir_ok_ext; [|by apply N7]. intros nm c He.
        destruct (do_edges _ _ _ _ _ (N7 d Ed) nm c He) as (cn & Ec & _). by rewrite (Hkeep c cn Ec).
Qed.

Lemma delete_tree nodes x n :
  tree_ok goals root nodes -> nodes !! x = Some n -> node_parents n = [] -> x <> root ->
  (forall d, directory_of n = Some d -> entries d = []) -> tree_ok goals root (delete x nodes).
Proof.
  intros Hok En Hp Hroot Hd.
  assert (forall y m, nodes !! y = Some m -> y <> x -> delete x nodes !! y = Some m) as Hkeep
    by (intros y m Ey Hy; by rewrite lookup_delete_ne).
  assert (forall y m q nm, nodes !! y = Some m -> (q, nm) ∈ node_parents m -> q <> x) as Hnop.
  { intros y m q nm Ey Hin ->. destruct (no_back _ _ _ _ _ (to_nodes _ _ _ _ Hok y m Ey) x nm Hin) as (xn & xd & Ex & Exd & He).
    assert (xn = n) as -> by congruence. rewrite (Hd xd Exd) in He. set_solver. }
  assert (forall z lz, chain nodes z lz -> z <> x -> chain (delete x nodes) z lz) as Hchain.
  { intros z lz Hz. induction Hz as [z E|z q nm lz E Hz IH]; intros Hzx; unfold dir_parents in E;
      destruct (nodes !! z) as [m|] eqn:Em; try done; simpl in E; destruct (directory_of m) eqn:Edm; try done; simpl in E.
    - apply chain_end. unfold dir_parents. rewrite (Hkeep z m Em Hzx). simpl. by rewrite Edm.
    - eapply chain_up; [unfold dir_parents; rewrite (Hkeep z m Em Hzx); simpl; by rewrite Edm|]. apply IH.
      eapply (Hnop z m q nm Em). injection E as ->. set_solver. }
  split.
  - destruct (to_root _ _ _ _ Hok) as (r & Er & Hr & Hrp). exists r. rewrite (Hkeep root r Er); [done|congruence].
  - intros y m Ey. apply lookup_delete_Some in Ey as [Hyx Ey].
    destruct (to_nodes _ _ _ _ Hok y m Ey) as [N1 N2 N3 N4 N5 N6 N7]. split; try done.
    + intros q nm Hin. destruct (N4 q nm Hin) as (qn & qd & Eq & Eqd & He). exists qn, qd.
      rewrite (Hkeep q qn Eq); [done|]. by eapply (Hnop y m q nm).
    + intros Hs. destruct (N6 Hs) as [lz Hz]. exists lz. by apply Hchain.
    + intros d Ed. eapply dir_ok_ext; [|by apply N7]. intros nm c He. rewrite lookup_delete_ne; [done|]. intros <-.
      destruct (do_edges _ _ _ _ _ (N7 d Ed) nm x He) as (cn & Ec & Hin). assert (cn = n) as -> by congruence.
      rewrite Hp in Hin. set_solver.
Qed.

End nodes.
