(* ===== verification/FsTreeEdges.v ===== *)
(** The tree as a set of edges: which node a name of a directory leads to, and what the operations on edges and nodes
    do to it. *)
From S2P Require Import Prelude Serialization Nodes FileSize FsTree FsTreeInv FsTreeNodes.

Definition edge (nodes : nodes_t) (p : Z) (name : name_t) (c : Z) : Prop :=
  exists pn d, nodes !! p = Some pn /\ directory_of pn = Some d /\ (name, c) ∈ entries d.

Section edges.
Context (goals : Z -> Goals.Goal) (root : Z).
Notation owing := (tree_owing goals root).

Lemma edge_dir owed nodes p name c pn d :
  owing owed nodes -> nodes !! p = Some pn -> directory_of pn = Some d -> edge nodes p name c <-> (name, c) ∈ entries d.
Proof. intros _ En Ed. split; [intros (pn' & d' & E & E' & H); congruence|]. intros H. by exists pn, d. Qed.

(** FSNodeDirectory::find() finds the edges. *)
Lemma lookup_edge owed nodes p name c : owing owed nodes -> lookup nodes p name = Some c <-> edge nodes p name c.
Proof.
  intros Hok. unfold lookup, edge. destruct (nodes !! p) as [pn|] eqn:En; simpl; [|split; [done|by intros (? & ? & ? & ?)]].
  destruct (directory_of pn) as [d|] eqn:Ed; simpl; [|split; [done|by intros (? & ? & ? & ? & ?); simplify_eq]].
  pose proof (no_dir _ _ _ _ _ (to_nodes _ _ _ _ Hok p pn En) d Ed) as Hd.
  unfold dir_find. rewrite (do_sensitive _ _ _ _ _ Hd). split.
  - destruct (find_entry (entries d) name) as [[nm c']|] eqn:E; simpl; [|done]. intros [= ->].
    apply find_some in E as [Hin Heq]. apply bool_decide_eq_true in Heq as ->. exists pn, d. split; [done|]. split; [done|].
    by apply list_elem_of_In.
  - intros (pn' & d' & E & E' & H). simplify_eq. by rewrite (find_entry_Some _ _ c) by (apply (do_names _ _ _ _ _ Hd) || done).
Qed.

Lemma lookup_no_edge owed nodes p name : owing owed nodes -> lookup nodes p name = None <-> forall c, ~ edge nodes p name c.
Proof.
  intros Hok. split.
  - intros E c He. apply (lookup_edge owed) in He; [|done]. congruence.
  - intros H. destruct (lookup nodes p name) as [c|] eqn:E; [|done]. by apply (lookup_edge owed) in E as []%H.
Qed.

Lemma name_used owed nodes p name : owing owed nodes -> isNameUsed nodes p name = false <-> forall c, ~ edge nodes p name c.
Proof.
  intros Hok. unfold isNameUsed. rewrite bool_decide_eq_false, <-eq_None_not_Some. by apply (lookup_no_edge owed).
Qed.

Lemma edge_unique owed nodes p name c c' : owing owed nodes -> edge nodes p name c -> edge nodes p name c' -> c = c'.
Proof. intros Hok H1 H2. apply (lookup_edge owed) in H1, H2; try done. congruence. Qed.

(** The names of a node. *)
Lemma edge_parents owed nodes p name x n :
  owing owed nodes -> nodes !! x = Some n -> edge nodes p name x <-> (p, name) ∈ node_parents n.
Proof.
  intros Hok En. split.
  - intros (pn & d & Ep & Ed & He).
    destruct (do_edges _ _ _ _ _ (no_dir _ _ _ _ _ (to_nodes _ _ _ _ Hok p pn Ep) d Ed) name x He) as (n' & E' & Hin). congruence.
  - intros Hin. destruct (no_back _ _ _ _ _ (to_nodes _ _ _ _ Hok x n En) p name Hin) as (pn & d & Ep & Ed & He). by exists pn, d.
Qed.

Lemma edge_child owed nodes p name x : owing owed nodes -> edge nodes p name x -> exists n, nodes !! x = Some n.
Proof.
  intros Hok (pn & d & Ep & Ed & He).
  destruct (do_edges _ _ _ _ _ (no_dir _ _ _ _ _ (to_nodes _ _ _ _ Hok p pn Ep) d Ed) name x He) as (n' & E' & Hin). eauto.
Qed.

(** Two nodes with the same edges to them have no parents together. *)
Lemma edge_nonempty owed nodes p name x n :
  owing owed nodes -> nodes !! x = Some n -> edge nodes p name x -> node_parents n <> [].
Proof. intros Hok En He E. apply (edge_parents owed _ _ _ _ n) in He; [|done|done]. rewrite E in He. set_solver. Qed.

Lemma edge_not_root owed nodes p name x : owing owed nodes -> edge nodes p name x -> x <> root.
Proof.
  intros Hok He ->. destruct (to_root _ _ _ _ Hok) as (r & Er & _ & Hp). by apply (edge_nonempty _ _ _ _ _ _ Hok Er He).
Qed.

(** ** Edges after a change *)

Lemma related_edges nodes nodes' par dirf p name c :
  related nodes nodes' par dirf -> (forall d, entries (dirf p d) = entries d) -> edge nodes' p name c <-> edge nodes p name c.
Proof.
  intros R He. split; intros (pn & d & Ep & Ed & Hin).
  - destruct (related_back _ _ _ _ _ _ R Ep) as (n & En & Hch). rewrite (change_dir_of _ _ _ _ Hch) in Ed.
    destruct (directory_of n) as [d0|] eqn:E0; [|done]. simpl in Ed. injection Ed as <-. rewrite He in Hin. by exists n, d0.
  - destruct (related_Some _ _ _ _ _ _ R Ep) as (n' & En & Hch). exists n', (dirf p d). rewrite (change_dir_of _ _ _ _ Hch), Ed.
    by rewrite He.
Qed.

Lemma removed_edges owed nodes nodes' parent child name isdir l st pn pd :
  owing owed nodes -> nodes !! parent = Some pn -> directory_of pn = Some pd -> (name, child) ∈ entries pd ->
  related nodes nodes' (remove_par parent child name) (remove_dir parent child name isdir l st) ->
  forall p nm c, edge nodes' p nm c <-> edge nodes p nm c /\ (p, nm) <> (parent, name).
Proof.
  intros Hok Ep Ed He R p nm c. destruct (decide (p = parent)) as [->|Hne].
  - destruct (related_Some _ _ _ _ _ _ R Ep) as (n' & En & Hch). pose proof (change_dir_of _ _ _ _ Hch) as Ed'. rewrite Ed in Ed'. simpl in Ed'.
    assert (entries (remove_dir parent child name isdir l st parent pd) = erase_first (is_entry name child) (entries pd)) as Ee
      by (unfold remove_dir, on_chain, just, remove_entry; destruct (decide (parent = parent)); [|done];
        simpl; by destruct (decide (parent ∈ l)), isdir, (caseInsensitive pd)).
    pose proof (do_names _ _ _ _ _ (no_dir _ _ _ _ _ (to_nodes _ _ _ _ Hok parent pn Ep) pd Ed)) as Hnd.
    rewrite (edge_dir owed nodes parent nm c pn pd) by done. split.
    + intros (pn' & d' & E1 & E2 & Hin). assert (d' = remove_dir parent child name isdir l st parent pd) as -> by congruence.
      rewrite Ee in Hin. split; [by eapply erase_first_elem|]. intros [= ->].
      assert (NoDup (entries pd)) as Hnd' by by eapply NoDup_fmap_1.
      assert (c = child) as -> by (eapply (edge_unique owed nodes parent name); [done|exists pn, pd; eauto using erase_first_elem|by exists pn, pd]).
      revert Hin. apply erase_first_out; [done|]. intros y _. apply is_entry_true.
    + intros [Hin Hneq]. exists n', (remove_dir parent child name isdir l st parent pd). split; [done|]. split; [done|]. rewrite Ee.
      apply erase_first_keep; [done|]. apply not_true_is_false. rewrite is_entry_true. congruence.
  - rewrite (related_edges _ _ _ _ p nm c R).
    + split; [|by intros [? _]]. intros H. split; [done|]. congruence.
    + intros d. unfold remove_dir, on_chain, just. destruct (decide (p = parent)); [done|]. by destruct (decide (p ∈ l)).
Qed.

Lemma linked_edges owed nodes nodes' parent child name isdir l st pn pd :
  owing owed nodes -> nodes !! parent = Some pn -> directory_of pn = Some pd ->
  related nodes nodes' (link_par parent child name) (link_dir parent child name isdir l st) ->
  forall p nm c, edge nodes' p nm c <-> edge nodes p nm c \/ (p, nm, c) = (parent, name, child).
Proof.
  intros Hok Ep Ed R p nm c. destruct (decide (p = parent)) as [->|Hne].
  - destruct (related_Some _ _ _ _ _ _ R Ep) as (n' & En & Hch). pose proof (change_dir_of _ _ _ _ Hch) as Ed'. rewrite Ed in Ed'. simpl in Ed'.
    assert (entries (link_dir parent child name isdir l st parent pd) = (name, child) :: entries pd) as Ee.
    { unfold link_dir, on_chain, just, link_entry. destruct (decide (parent = parent)); [|done]. simpl.
      by destruct (decide (parent ∈ l)), isdir, (caseInsensitive pd). }
    rewrite (edge_dir owed nodes parent nm c pn pd) by done. split.
    + intros (pn' & d' & E1 & E2 & Hin). assert (d' = link_dir parent child name isdir l st parent pd) as -> by congruence.
      rewrite Ee, elem_of_cons in Hin. destruct Hin as [[= -> ->]|]; auto.
    + intros H. exists n', (link_dir parent child name isdir l st parent pd). split; [done|]. split; [done|]. rewrite Ee, elem_of_cons.
      destruct H as [|[= -> ->]]; auto.
  - rewrite (related_edges _ _ _ _ p nm c R).
    + split; [auto|]. intros [|[= -> -> ->]]; done.
    + intros d. unfold link_dir, on_chain, just. destruct (decide (p = parent)); [done|]. by destruct (decide (p ∈ l)).
Qed.

(** A node changes, its entries stay. *)
Lemma put_edges nodes x n n' p nm c :
  nodes !! x = Some n -> directory_of n' = directory_of n -> edge (<[x := n']> nodes) p nm c <-> edge nodes p nm c.
Proof.
  intros En Hd. unfold edge. destruct (decide (p = x)) as [->|].
  - rewrite lookup_insert_eq. split.
    + intros (pn & d & [= <-] & Ed & H). exists n, d. by rewrite <-Hd.
    + intros (pn & d & E & Ed & H). exists n', d. rewrite Hd. split; [done|]. split; [congruence|done].
  - by rewrite lookup_insert_ne.
Qed.

Lemma delete_edges nodes x n p nm c :
  nodes !! x = Some n -> (forall d, directory_of n = Some d -> entries d = []) -> edge (delete x nodes) p nm c <-> edge nodes p nm c.
Proof.
  intros En Hd. unfold edge. destruct (decide (p = x)) as [->|].
  - rewrite lookup_delete_eq. split; [by intros (? & ? & ? & ?)|]. intros (pn & d & E & Ed & H). simplify_eq. rewrite (Hd d Ed) in H. set_solver.
  - by rewrite lookup_delete_ne.
Qed.

Lemma insert_edges nodes x n p nm c :
  nodes !! x = None -> (forall d, directory_of n = Some d -> entries d = []) -> edge (<[x := n]> nodes) p nm c <-> edge nodes p nm c.
Proof.
  intros En Hd. unfold edge. destruct (decide (p = x)) as [->|].
  - rewrite lookup_insert_eq. split; [|by intros (? & ? & ? & ?); congruence]. intros (pn & d & [= <-] & Ed & H). rewrite (Hd d Ed) in H. set_solver.
  - by rewrite lookup_insert_ne.
Qed.

End edges.
