(* ===== verification/DirQuota.v ===== *)
(** Quotas of directories (src/master/filesystem_quota.cc): the limits that a new node and a moved node have to respect
    in the directories above it.

    A walk along the parents gets as much fuel as there are nodes; [None] is a parent that is not a directory, a failed
    assertion, or a walk that does not end. *)
From S2P Require Import Prelude Serialization Nodes FileSize FsTree FsTreeInv Quota.

(** [idToNodeVerify<FSNodeDirectory>] of the first parent, when there is one. *)
Definition get_dir (nodes : nodes_t) (x : Z) : option FSNode := n ← nodes !! x; _ ← directory_of n; Some n.

Fixpoint find_depth (nodes : nodes_t) (fuel : nat) (a : Z) : option nat :=
  match fuel with
  | O => None
  | S fuel =>
    n ← get_dir nodes a;
    match node_parents n with
    | [] => Some 1%nat
    | (p, _) :: _ => depth ← find_depth nodes fuel p; Some (S depth)
    end
  end.

(** [k] times to the first parent. *)
Fixpoint climb (nodes : nodes_t) (k : nat) (a : Z) : option Z :=
  match k with
  | O => Some a
  | S k => n ← get_dir nodes a; match node_parents n with [] => None | (p, _) :: _ => climb nodes k p end
  end.

(** The last loop of fsnodes_find_common_ancestor(); [Some None] is the null pointer. *)
Fixpoint meet (nodes : nodes_t) (fuel : nat) (a b : Z) : option (option Z) :=
  match fuel with
  | O => None
  | S fuel =>
    na ← get_dir nodes a; nb ← get_dir nodes b;
    match node_parents na, node_parents nb with
    | [], _ => Some None
    | _, [] => None
    | (pa, _) :: _, (pb, _) :: _ => if pa =? pb then Some (Some pa) else meet nodes fuel pa pb
    end
  end.

Definition find_common_ancestor (nodes : nodes_t) (a b : Z) : option (option Z) :=
  depth_a ← find_depth nodes (stats_fuel nodes) a;
  depth_b ← find_depth nodes (stats_fuel nodes) b;
  a ← climb nodes (depth_a - depth_b) a;
  b ← climb nodes (depth_b - depth_a) b;
  if a =? b then Some (Some a) else meet nodes (stats_fuel nodes) a b.

Definition test_dir_quota_noparents (db : QuotaDatabase) (n : FSNode) (resources : list (QuotaResource * Z)) : bool :=
  match node_type n, node_data n, quota_get db kInode (node_id n) with
  | kDirectory, DirectoryData d, Some entry =>
    existsb (fun '(resource, delta) =>
      let limit := limit_of entry kHard resource in
      let usage := match resource with kInodes => st_inodes (dir_stats d) | kSize => st_size (dir_stats d) end in
      negb (limit =? 0) && (limit <? u64 (usage + delta))) resources
  | _, _, _ => false
  end.

(** The loop of fsnodes_quota_exceeded_dir() over a directory and the directories above it, up to the directory
    [stop], which is not tested. *)
Fixpoint exceeded_up (nodes : nodes_t) (db : QuotaDatabase) (resources : list (QuotaResource * Z)) (stop : option Z)
    (fuel : nat) (x : Z) : option bool :=
  match fuel with
  | O => None
  | S fuel =>
    n ← get_dir nodes x;
    if test_dir_quota_noparents db n resources then Some true
    else
      match node_parents n with
      | [] => Some false
      | (p, _) :: _ =>
        if bool_decide (Some p = stop) then Some false else exceeded_up nodes db resources stop fuel p
      end
  end.

(** fsnodes_quota_exceeded_dir() of a node; the test of the node itself is for directories only. *)
Definition quota_exceeded_dir (nodes : nodes_t) (db : QuotaDatabase) (x : Z) (resources : list (QuotaResource * Z))
  : option bool :=
  n ← nodes !! x;
  if is_dir n then exceeded_up nodes db resources None (stats_fuel nodes) x
  else foldl (fun acc '(p, _) =>
    found ← acc; if found : bool then Some true else exceeded_up nodes db resources None (stats_fuel nodes) p)
    (Some false) (node_parents n).

(** fsnodes_quota_exceeded_dir() of a move from the directory [prev] to the directory [x]. *)
Definition quota_exceeded_dir_move (nodes : nodes_t) (db : QuotaDatabase) (x prev : Z)
    (resources : list (QuotaResource * Z)) : option bool :=
  common ← find_common_ancestor nodes prev x;
  if bool_decide (Some x = common) then Some false
  else exceeded_up nodes db resources common (stats_fuel nodes) x.

(** ** Walks and chains *)

Lemma chain_get nodes x l :
  chain nodes x l -> exists n, get_dir nodes x = Some n /\ dir_parents nodes x = Some (node_parents n).
Proof.
  intros H. assert (is_Some (dir_parents nodes x)) as [ps E] by (destruct H as [? E|? ? ? ? E ?]; by rewrite E).
  unfold get_dir. unfold dir_parents in *. destruct (nodes !! x) as [n|]; [|done]. simpl in *.
  destruct (directory_of n); [|done]. simpl in *. by exists n.
Qed.

(** The first step of a walk. *)
Lemma chain_step nodes x l :
  chain nodes x l -> exists n, get_dir nodes x = Some n /\
    ((node_parents n = [] /\ l = [x]) \/ (exists p nm l', node_parents n = [(p, nm)] /\ l = x :: l' /\ chain nodes p l')).
Proof.
  intros H. destruct (chain_get _ _ _ H) as (n & En & Ep). exists n. split; [done|].
  destruct H as [x E|x q name l E H]; rewrite E in Ep; injection Ep as Ep; rewrite <-Ep; [by left|right].
  by exists q, name, l.
Qed.

Lemma chain_depth nodes x l fuel : chain nodes x l -> (length l <= fuel)%nat -> find_depth nodes fuel x = Some (length l).
Proof.
  revert x l. induction fuel as [|fuel IH]; intros x l H Hlen; destruct (chain_step _ _ _ H) as (n & En & Hn).
  { destruct Hn as [[_ ->]|(p & nm & l' & _ & -> & _)]; simpl in Hlen; lia. }
  cbn [find_depth]. rewrite En. cbn [mbind option_bind]. destruct Hn as [[-> ->]|(p & nm & l' & -> & -> & H')]; [done|].
  simpl in Hlen. rewrite (IH _ _ H') by lia. done.
Qed.

Lemma chain_climb nodes l1 : forall x l,
  chain nodes x (l1 ++ l) -> l <> [] -> exists y, climb nodes (length l1) x = Some y /\ chain nodes y l.
Proof.
  induction l1 as [|z l1 IH]; intros x l H Hne; [by exists x|]. destruct (chain_step _ _ _ H) as (n & En & Hn).
  cbn [climb length]. rewrite En. cbn [mbind option_bind]. simpl in *.
  destruct Hn as [[_ E]|(p & nm & l' & -> & E & H')].
  - injection E as _ E. apply app_eq_nil in E as [_ E]. done.
  - injection E as _ <-. by apply IH.
Qed.

Lemma suffix_length_eq {A} (l a1 a2 b1 b2 : list A) : l = a1 ++ a2 -> l = b1 ++ b2 -> length a2 = length b2 -> a2 = b2.
Proof.
  intros -> E Hlen. assert (length a1 = length b1) as H1 by (apply (f_equal length) in E; rewrite !length_app in E; lia).
  by apply app_inj_1 in E as [_ ->].
Qed.

Section ancestor.
Context (nodes : nodes_t) (a b r : Z) (la lb : list Z).
Context (Ha : chain nodes a la) (Hb : chain nodes b lb) (Hra : list.last la = Some r) (Hrb : list.last lb = Some r).

(** The directories of both chains start where the chains meet. *)
Definition meets_at (c : Z) (l1 : list Z) : Prop :=
  exists l2 lc, lb = l1 ++ lc /\ la = l2 ++ lc /\ chain nodes c lc /\ forall x, x ∈ l1 -> x ∉ la.

(** The directories of the second chain whose distance to the root is larger than any in the first chain. *)
Lemma deep_not_in y ly l1 x lx :
  lb = l1 ++ ly -> chain nodes y ly -> chain nodes x lx -> (length ly < length lx)%nat -> (length la <= length ly)%nat -> x ∉ la.
Proof.
  intros E Hy Hx Hlt Hle Hin. destruct (chain_suffix _ _ _ _ Ha Hin) as (p & s & Es & Hs).
  rewrite (chain_unique _ _ _ _ Hx Hs) in Hlt. rewrite Es, length_app in Hle. lia.
Qed.

Lemma level_not_in x y lx ly l2 :
  la = l2 ++ lx -> chain nodes x lx -> chain nodes y ly -> length lx = length ly -> x <> y -> y ∉ la.
Proof.
  intros E Hx Hy Hlen Hne Hin. destruct (chain_suffix _ _ _ _ Ha Hin) as (p & s & Es & Hs).
  rewrite (chain_unique _ _ _ _ Hs Hy) in Es. pose proof (suffix_length_eq _ _ _ _ _ E Es Hlen) as ->.
  destruct (chain_head _ _ _ Hx) as [? E1], (chain_head _ _ _ Hy) as [? E2]. congruence.
Qed.

Lemma last_suffix (l1 l2 : list Z) x : list.last (l1 ++ l2) = Some x -> l2 <> [] -> list.last l2 = Some x.
Proof. intros H Hne. destruct (exists_last Hne) as (l & y & ->). rewrite app_assoc, last_snoc in H. by rewrite last_snoc. Qed.

Lemma meet_spec fuel : forall x y lx ly l1 l2,
  (length lx <= fuel)%nat -> chain nodes x lx -> chain nodes y ly -> length lx = length ly -> la = l2 ++ lx -> lb = l1 ++ ly ->
  x <> y -> (forall z, z ∈ l1 -> z ∉ la) -> exists c l, meet nodes fuel x y = Some (Some c) /\ meets_at c l.
Proof.
  induction fuel as [|fuel IH]; intros x y lx ly l1 l2 Hf Hx Hy Hlen Ea Eb Hne Hl1.
  { destruct (chain_head _ _ _ Hx) as [? ->]. simpl in Hf. lia. }
  pose proof (level_not_in x y lx ly l2 Ea Hx Hy Hlen Hne) as Hy'. cbn [meet].
  destruct (chain_step _ _ _ Hx) as (nx & Enx & Hnx), (chain_step _ _ _ Hy) as (ny & Eny & Hny).
  rewrite Enx, Eny. cbn [mbind option_bind].
  destruct Hnx as [[_ ->]|(p & nm & lx' & -> & -> & Hx')], Hny as [[_ ->]|(q & nm' & ly' & -> & -> & Hy1)]; simpl in Hlen.
  - exfalso. apply Hne. rewrite Ea, last_snoc in Hra. rewrite Eb, last_snoc in Hrb. congruence.
  - destruct (chain_head _ _ _ Hy1) as [? ->]. simpl in Hlen. lia.
  - destruct (chain_head _ _ _ Hx') as [? ->]. simpl in Hlen. lia.
  - simpl in Hf.
    assert (forall z, z ∈ l1 ++ [y] -> z ∉ la) as Hl1'.
    { intros z [Hz|Hz%list_elem_of_singleton]%elem_of_app; [by apply Hl1|by subst z]. }
    destruct (Z.eqb_spec p q) as [<-|Hpq].
    + exists p, (l1 ++ [y]). split; [done|]. exists (l2 ++ [x]), lx'. rewrite <-!app_assoc. simpl.
      rewrite (chain_unique _ _ _ _ Hx' Hy1) in *. done.
    + apply (IH p q lx' ly' (l1 ++ [y]) (l2 ++ [x])); try done; [lia|lia|..]; by rewrite <-app_assoc.
Qed.

Lemma common_ancestor_spec : exists c l, find_common_ancestor nodes a b = Some (Some c) /\ meets_at c l.
Proof.
  pose proof (chain_length _ _ _ Ha) as La. pose proof (chain_length _ _ _ Hb) as Lb.
  unfold find_common_ancestor. rewrite (chain_depth _ _ _ _ Ha), (chain_depth _ _ _ _ Hb) by (unfold stats_fuel; lia).
  cbn [mbind option_bind].
  set (ka := (length la - length lb)%nat). set (kb := (length lb - length la)%nat).
  assert (la <> [] /\ lb <> []) as [Na Nb] by (destruct (chain_head _ _ _ Ha) as [? ->], (chain_head _ _ _ Hb) as [? ->]; done).
  assert (0 < length la /\ 0 < length lb)%nat as [Pa Pb] by (destruct la, lb; simpl; try done; lia).
  destruct (chain_climb nodes (take ka la) a (drop ka la)) as (x & Ex & Hx);
    [by rewrite take_drop|intros E; apply (f_equal length) in E; rewrite length_drop in E; simpl in E; unfold ka in E; lia|].
  destruct (chain_climb nodes (take kb lb) b (drop kb lb)) as (y & Ey & Hy);
    [by rewrite take_drop|intros E; apply (f_equal length) in E; rewrite length_drop in E; simpl in E; unfold kb in E; lia|].
  rewrite length_take, Nat.min_l in Ex by (unfold ka; lia). rewrite length_take, Nat.min_l in Ey by (unfold kb; lia).
  rewrite Ex. cbn [mbind option_bind]. rewrite Ey. cbn [mbind option_bind].
  assert (length (drop ka la) = length (drop kb lb)) as Hlen by (rewrite !length_drop; unfold ka, kb; lia).
  assert (forall z, z ∈ take kb lb -> z ∉ la) as Hl1.
  { intros z Hz. destruct (list_elem_of_split_l _ _ Hz) as (p1 & p2 & Ep & _).
    assert (lb = p1 ++ z :: p2 ++ drop kb lb) as Elb by (rewrite <-(take_drop kb lb) at 1; rewrite Ep, <-app_assoc; done).
    assert (z ∈ lb) as Hzb by (rewrite Elb; set_solver).
    destruct (chain_suffix _ _ _ _ Hb Hzb) as (q1 & q2 & Eq & Hq). destruct (chain_head _ _ _ Hq) as [q3 E3].
    pose proof (chain_NoDup _ _ _ Hb) as Hnd. rewrite E3 in Eq.
    destruct (NoDup_split_eq z q1 q3 p1 (p2 ++ drop kb lb)) as [_ E4]; [congruence|congruence|].
    apply (deep_not_in y (drop kb lb) (take kb lb) z q2); [by rewrite take_drop|done|done| |].
    - rewrite E3, E4. simpl. rewrite length_app. lia.
    - rewrite length_drop. assert (kb <> 0%nat); [|unfold kb in *; lia]. intros E0. rewrite E0 in Hz. set_solver. }
  destruct (Z.eqb_spec x y) as [<-|Hne].
  - exists x, (take kb lb). split; [done|]. exists (take ka la), (drop kb lb).
    pose proof (chain_unique _ _ _ _ Hx Hy) as E. split; [by rewrite take_drop|]. split; [by rewrite <-E, take_drop|done].
  - apply (meet_spec _ x y (drop ka la) (drop kb lb) (take kb lb) (take ka la)); try done; rewrite ?take_drop; try done.
    rewrite length_drop. unfold stats_fuel. lia.
Qed.

End ancestor.

(** The test of one directory of a chain. *)
Definition tested (nodes : nodes_t) (db : QuotaDatabase) (resources : list (QuotaResource * Z)) (x : Z) : bool :=
  match nodes !! x with Some n => test_dir_quota_noparents db n resources | None => false end.

Lemma get_dir_lookup nodes x n : get_dir nodes x = Some n -> nodes !! x = Some n.
Proof. unfold get_dir. destruct (nodes !! x) as [n0|]; [|done]. simpl. by destruct (directory_of n0). Qed.

(** The walk tests the chain up to where it stops. *)
Lemma exceeded_up_chain nodes db resources stop fuel : forall x l1 l2,
  chain nodes x (l1 ++ l2) -> (length l1 <= fuel)%nat -> l1 <> [] -> (forall y, y ∈ l1 -> Some y <> stop) ->
  head l2 = stop -> exceeded_up nodes db resources stop fuel x = Some (existsb (tested nodes db resources) l1).
Proof.
  induction fuel as [|fuel IH]; intros x l1 l2 H Hlen Hne Hstop Hhead; [destruct l1; simpl in *; [done|lia]|].
  destruct (chain_step _ _ _ H) as (n & En & Hn). destruct (chain_head _ _ _ H) as [l3 E3].
  destruct l1 as [|x' l1]; [done|]. simpl in E3. injection E3 as -> <-. cbn [exceeded_up existsb]. rewrite En.
  cbn [mbind option_bind]. unfold tested at 1. rewrite (get_dir_lookup _ _ _ En).
  destruct (test_dir_quota_noparents db n resources); [done|]. cbn [orb].
  destruct Hn as [[-> El]|(p & nm & l' & -> & El & H')]; simpl in El; injection El as El.
  - apply app_eq_nil in El as [-> _]. done.
  - simpl in Hlen. destruct l1 as [|z l1].
    + simpl in El. subst l2. destruct (chain_head _ _ _ H') as [? ->]. simpl in Hhead. subst stop. by rewrite bool_decide_true.
    + rewrite <-El in H'. destruct (chain_head _ _ _ H') as [? E]. simpl in E. injection E as -> _.
      rewrite bool_decide_false by (apply Hstop; set_solver). apply (IH p (p :: l1) l2); try done; [lia|].
      intros y Hy. apply Hstop. set_solver.
Qed.

(** Any common element of two chains that end together. *)
Lemma filter_not_in (la l1 lc : list Z) :
  (forall x, x ∈ l1 -> x ∉ la) -> (forall x, x ∈ lc -> x ∈ la) ->
  List.filter (fun x => negb (bool_decide (x ∈ la))) (l1 ++ lc) = l1.
Proof.
  intros H1 H2. induction l1 as [|x l1 IH]; simpl.
  - induction lc as [|x lc IH]; simpl; [done|]. rewrite bool_decide_true by (apply H2; set_solver). simpl. apply IH. set_solver.
  - rewrite bool_decide_false by (apply H1; set_solver). simpl. f_equal. apply IH. set_solver.
Qed.

Lemma exceeded_move_chain nodes db resources a b r la lb :
  chain nodes a la -> chain nodes b lb -> list.last la = Some r -> list.last lb = Some r ->
  quota_exceeded_dir_move nodes db b a resources =
  Some (existsb (tested nodes db resources) (List.filter (fun x => negb (bool_decide (x ∈ la))) lb)).
Proof.
  intros Ha Hb Hra Hrb. destruct (common_ancestor_spec nodes a b r la lb Ha Hb Hra Hrb) as (c & l1 & Ec & l2 & lc & Eb & Ea & Hc & Hl1).
  unfold quota_exceeded_dir_move. rewrite Ec. cbn [mbind option_bind].
  assert (forall x, x ∈ lc -> x ∈ la) as Hlc by (intros x Hx; rewrite Ea; set_solver).
  pose proof (chain_head _ _ _ Hc) as [lc' Elc].
  rewrite Eb, filter_not_in by done. destruct (chain_head _ _ _ Hb) as [lb' Elb].
  destruct l1 as [|x l1].
  - simpl in Eb. rewrite Eb, Elc in Elb. injection Elb as -> _. by rewrite bool_decide_true.
  - rewrite Elb in Eb. simpl in Eb. injection Eb as <- Eb. rewrite bool_decide_false.
    2: { intros [= ->]. apply (Hl1 c); [set_solver|]. apply Hlc. rewrite Elc. set_solver. }
    apply (exceeded_up_chain _ _ _ _ _ _ (b :: l1) lc); try done.
    + rewrite Elb, Eb in Hb. done.
    + pose proof (chain_length _ _ _ Hb) as Hlen. rewrite Elb, Eb in Hlen. simpl in *. rewrite length_app in Hlen. unfold stats_fuel. lia.
    + intros y Hy [= ->]. apply (Hl1 c Hy). apply Hlc. rewrite Elc. set_solver.
    + by rewrite Elc.
Qed.
