(* ===== verification/FsMeta.v ===== *)
(** The metadata of the master and the operations on its nodes (src/master/filesystem_metadata.h and
    src/master/filesystem_node.cc): nodes are created, linked, unlinked, moved to the trash, purged, restored and
    removed, with the counters, the usage of quotas and the access control lists.

    The state is a record of the containers of FilesystemMetadata.  What the operations ask of other components (the
    release of chunks, of inode numbers and of extended attributes) is the list of the calls.  [None] is a failed
    assertion or a pointer that leads nowhere. *)
From S2P Require Import Prelude Serialization RichACL AclMasks AclStorage Nodes FileSize NodeAcl Trash Quota FsTree.

Definition SPECIAL_INODE_ROOT : Z := 1.
Definition DEFAULT_GOAL : Z := 1.
Definition kDefaultTrashTime : Z := 94620.
Definition kUndelDirectoryMode : Z := 493. (* 0755 *)
Definition kEdgeNameMaxSize : Z := 65535.
Definition kMaxFileNameLength : Z := 255.

(** ** The counters of nodes *)

Record Counters := MkCounters {
  count_nodes : Z; dirNodes : Z; fileNodes : Z; linkNodes : Z; trashNodes : Z; reservedNodes : Z;
  trashSpace : Z; reservedSpace : Z;
}.

Inductive Count := CNodes | CDirs | CFiles | CLinks | CTrash | CReserved | CTrashSpace | CReservedSpace.

Definition counter_of (c : Counters) (k : Count) : Z :=
  match k with
  | CNodes => count_nodes c | CDirs => dirNodes c | CFiles => fileNodes c | CLinks => linkNodes c
  | CTrash => trashNodes c | CReserved => reservedNodes c
  | CTrashSpace => trashSpace c | CReservedSpace => reservedSpace c
  end.

Definition count_width (k : Count) : Z := match k with CTrashSpace | CReservedSpace => 64 | _ => 32 end.

Definition bump (k : Count) (delta : Z) (c : Counters) : Counters :=
  let v := wrap (count_width k) (counter_of c k + delta) in
  match c with
  | MkCounters n d f l t r ts rs =>
    match k with
    | CNodes => MkCounters v d f l t r ts rs | CDirs => MkCounters n v f l t r ts rs
    | CFiles => MkCounters n d v l t r ts rs | CLinks => MkCounters n d f v t r ts rs
    | CTrash => MkCounters n d f l v r ts rs | CReserved => MkCounters n d f l t v ts rs
    | CTrashSpace => MkCounters n d f l t r v rs | CReservedSpace => MkCounters n d f l t r ts v
    end
  end.

(** ** The state *)

Inductive Call :=
  | DeleteFile (chunkId goal : Z)
  | ReleaseInode (id timeStamp : Z)
  | RemoveXattrs (id : Z).

Record Metadata := MkMeta {
  md_nodes : nodes_t;
  md_counters : Counters;
  md_detached : Detached;
  md_acls : AclStorage;
  md_quota : QuotaDatabase;
  md_calls : list Call;
  md_version : Z;
}.

Definition set_nodes (s : Metadata) (nodes : nodes_t) : Metadata :=
  MkMeta nodes (md_counters s) (md_detached s) (md_acls s) (md_quota s) (md_calls s) (md_version s).
Definition set_detached (s : Metadata) (d : Detached) : Metadata :=
  MkMeta (md_nodes s) (md_counters s) d (md_acls s) (md_quota s) (md_calls s) (md_version s).
Definition set_acls (s : Metadata) (a : AclStorage) : Metadata :=
  MkMeta (md_nodes s) (md_counters s) (md_detached s) a (md_quota s) (md_calls s) (md_version s).
Definition set_quota (s : Metadata) (q : QuotaDatabase) : Metadata :=
  MkMeta (md_nodes s) (md_counters s) (md_detached s) (md_acls s) q (md_calls s) (md_version s).
Definition count (k : Count) (delta : Z) (s : Metadata) : Metadata :=
  MkMeta (md_nodes s) (bump k delta (md_counters s)) (md_detached s) (md_acls s) (md_quota s) (md_calls s) (md_version s).
Definition call (cs : list Call) (s : Metadata) : Metadata :=
  MkMeta (md_nodes s) (md_counters s) (md_detached s) (md_acls s) (md_quota s) (md_calls s ++ cs) (md_version s).
Definition increaseMetadataVersion (s : Metadata) : Metadata :=
  MkMeta (md_nodes s) (md_counters s) (md_detached s) (md_acls s) (md_quota s) (md_calls s) (u64 (md_version s + 1)).

Definition put_node (x : Z) (n : FSNode) (s : Metadata) : Metadata := set_nodes s (<[x := n]> (md_nodes s)).

(** ** Fields of nodes *)

Definition with_type (n : FSNode) (type : FSNodeType) : FSNode :=
  MkNode (node_id n) (node_ctime n) (node_mtime n) (node_atime n) type (node_goal n) (node_mode n)
    (node_uid n) (node_gid n) (node_trashtime n) (node_parents n) (node_data n).
Definition with_owner (n : FSNode) (uid gid : Z) : FSNode :=
  MkNode (node_id n) (node_ctime n) (node_mtime n) (node_atime n) (node_type n) (node_goal n) (node_mode n)
    uid gid (node_trashtime n) (node_parents n) (node_data n).
Definition with_atime (n : FSNode) (atime : Z) : FSNode :=
  MkNode (node_id n) (node_ctime n) (node_mtime n) atime (node_type n) (node_goal n) (node_mode n)
    (node_uid n) (node_gid n) (node_trashtime n) (node_parents n) (node_data n).
Definition with_trashtime (n : FSNode) (trashtime : Z) : FSNode :=
  MkNode (node_id n) (node_ctime n) (node_mtime n) (node_atime n) (node_type n) (node_goal n) (node_mode n)
    (node_uid n) (node_gid n) trashtime (node_parents n) (node_data n).

Definition is_file (n : FSNode) : bool :=
  match node_type n with kFile | kTrash | kReserved => true | _ => false end.

Definition key_of (n : FSNode) : Z * Z := TrashPathKey (node_id n) (node_ctime n) (node_trashtime n).

(** [static_cast<FSNodeFile *>] *)
Definition file_of (n : FSNode) : option (Z * list Z * list Z) :=
  match node_data n with FileData len sessionIds chunks => Some (len, sessionIds, chunks) | _ => None end.

Section meta.
Context (goals : Z -> Goals.Goal).
Notation root := SPECIAL_INODE_ROOT.

(** nodeQuotaUpdate() *)
Definition nodeQuotaUpdate (n : FSNode) (resources : list (QuotaResource * Z)) (s : Metadata) : Metadata :=
  set_quota s (quota_update_ug (md_quota s) (node_uid n) (node_gid n) resources).

Definition getSize (n : FSNode) : Z := st_size (getStats goals n).

Definition incrementNodeCounters (type : FSNodeType) (s : Metadata) : Metadata :=
  let s := count CNodes 1 s in
  match type with
  | kDirectory => count CDirs 1 s | kFile => count CFiles 1 s | kSymlink => count CLinks 1 s | _ => s
  end.

Definition updateDetachedSpaceUsage (n : FSNode) (previousLength newLength : Z) (s : Metadata) : Metadata :=
  if previousLength =? newLength then s
  else
    let diffLength := u64 (newLength - previousLength) in
    match node_type n with
    | kTrash => count CTrashSpace diffLength s
    | kReserved => count CReservedSpace diffLength s
    | _ => s
    end.

(** ** Times *)

Definition updateCTime (x ctime : Z) (s : Metadata) : option Metadata :=
  n ← md_nodes s !! x;
  let s' := put_node x (with_ctime n ctime) s in
  if bool_decide (node_type n = kTrash) && negb (node_ctime n =? ctime) then
    let oldKey := key_of n in
    match trash (md_detached s) !! oldKey with
    | Some _ => Some (set_detached s' (updateTrashFromOldEntry (md_detached s) oldKey (key_of (with_ctime n ctime))))
    | None => Some s'
    end
  else Some s'.

Definition updateCTimeForTrashNode (x newCtime oldTrashtime : Z) (s : Metadata) : option Metadata :=
  n ← md_nodes s !! x;
  let oldKey := TrashPathKey (node_id n) (node_ctime n) oldTrashtime in
  let n := with_ctime n newCtime in
  Some (set_detached (put_node x n s) (updateTrashFromOldEntry (md_detached s) oldKey (key_of n))).

(** ** New nodes *)

(** createNodeWithIdInternal(); a number that is taken is not modelled, it is [None]. *)
Definition new_node (parent : FSNode) (timeStamp : Z) (type : FSNodeType) (inode : Z) (data : NodeData) : FSNode :=
  let inherits := bool_decide (type = kDirectory \/ type = kFile) in
  MkNode inode timeStamp timeStamp timeStamp type
    (if inherits then node_goal parent else DEFAULT_GOAL) 0 0 0
    (if inherits then node_trashtime parent else kDefaultTrashTime) [] data.

Definition owned (parent : FSNode) (uid gid : Z) (copysgid : bool) (n : FSNode) : FSNode :=
  if has (node_mode parent) S_ISGID then
    let n := with_owner n uid (node_gid parent) in
    if copysgid && bool_decide (node_type n = kDirectory) then set_mode n (Z.lor (node_mode n) S_ISGID) else n
  else with_owner n uid gid.

Definition createNode (timeStamp parent : Z) (name : name_t) (type : FSNodeType) (mode umask uid gid : Z)
    (copysgid inheritAcl : bool) (inode : Z) (s : Metadata) : option Metadata :=
  if bool_decide (type = kTrash) then None
  else
    data ← create_data type;
    let s := incrementNodeCounters type s in
    pn ← md_nodes s !! parent;
    parentAcl ← if inheritAcl then AclStorage.get (md_acls s) parent else Some None;
    '(n, acls) ← inherit_permissions pn (new_node pn timeStamp type inode data) parentAcl mode umask (md_acls s);
    let n := owned pn uid gid copysgid n in
    match md_nodes s !! inode with
    | Some _ => None
    | None =>
      let s := put_node inode n (set_acls s acls) in
      nodes ← link goals root timeStamp parent inode name (md_nodes s);
      let s := nodeQuotaUpdate n [(kInodes, 1)] (set_nodes s nodes) in
      Some (if bool_decide (type = kFile) then nodeQuotaUpdate n [(kSize, getSize n)] s else s)
    end.

(** ** Paths *)

(** The names on the way up, as getPathSize() and getPathData() visit them. *)
Fixpoint names_up (nodes : nodes_t) (fuel : nat) (parent child : Z) : option (list name_t) :=
  match fuel with
  | O => None
  | S fuel =>
    pn ← nodes !! parent; _ ← directory_of pn; cn ← nodes !! child;
    let name := getChildName parent cn in
    if parent =? root then Some [name]
    else
      match node_parents pn with
      | [] => Some [name]
      | [(q, _)] => names ← names_up nodes fuel q parent; Some (name :: names)
      | _ => None
      end
  end.

Definition getPathSize (names : list name_t) : Z :=
  match names with
  | [] => 0
  | name :: names =>
    foldl (fun size name => u32 (size + (Z.of_nat (length name) + 1))) (u32 (Z.of_nat (length name))) names
  end.

(** The buffer is written from its end; [size] bytes are left. *)
Definition put_name (st : Z * list Z) (name : name_t) : Z * list Z :=
  let '(size, path) := st in
  let len := Z.of_nat (length name) in
  let '(size, path) :=
    if len <=? size then (size - len, name ++ path)
    else if 0 <? size then (0, drop (Z.to_nat (len - size)) name ++ path)
    else (size, path) in
  if 0 <? size then (size - 1, 47 :: path) else (size, path).

Definition getPathData (names : list name_t) (size : Z) : list Z :=
  let '(size, path) := foldl put_name (size, []) names in replicate (Z.to_nat size) 0 ++ path.

Definition getPath (nodes : nodes_t) (parent child : Z) : option (list Z) :=
  names ← names_up nodes (stats_fuel nodes) parent child;
  Some (getPathData names (Z.min (getPathSize names) kEdgeNameMaxSize)).

(** ** Lengths and owners *)

Definition chunks_of_length (length : Z) : Z :=
  if 0 <? length then u32 (Z.shiftr (length - 1) 26 + 1) else 0.

Definition with_file (n : FSNode) (len : Z) (sessionIds chunks : list Z) : FSNode :=
  with_data n (FileData len sessionIds chunks).

Definition setLength (x len : Z) (eraseFurtherChunks : bool) (s : Metadata) : option Metadata :=
  n ← md_nodes s !! x; '(previousLength, sessionIds, chunks) ← file_of n;
  let s := updateDetachedSpaceUsage n previousLength len s in
  let newSize := Z.to_nat (chunks_of_length len) in
  let n' := with_file n len sessionIds (if eraseFurtherChunks then truncateFileChunks chunks newSize else chunks) in
  let s := if eraseFurtherChunks
           then call ((fun '(_, c) => DeleteFile c (node_goal n)) <$> cut_chunks chunks newSize) s else s in
  let s := nodeQuotaUpdate n [(kSize, getSize n' - getSize n)] (put_node x n' s) in
  nodes ← updateParentStatsForNode root (node_parents n) (getStats goals n') (getStats goals n) (md_nodes s);
  Some (set_nodes s nodes).

(** What a node costs its owners. *)
Definition cost (sign : Z) (n : FSNode) : list (QuotaResource * Z) :=
  if is_file n then [(kInodes, sign); (kSize, sign * getSize n)] else [(kInodes, sign)].

Definition changeUidGid (x uid gid : Z) (s : Metadata) : option Metadata :=
  n ← md_nodes s !! x;
  let s := nodeQuotaUpdate n (cost (-1) n) s in
  let n' := with_owner n uid gid in
  Some (nodeQuotaUpdate n' (cost 1 n) (put_node x n' s)).

(** ** Removed nodes *)

Definition removeNode (timeStamp x : Z) (s : Metadata) : option Metadata :=
  n ← md_nodes s !! x;
  if negb (bool_decide (node_parents n = [])) then Some s
  else
    let s := count CNodes (-1) s in
    acls ← AclStorage.erase (md_acls s) x;
    let s := set_acls s acls in
    let s := if is_dir n then count CDirs (-1) s else s in
    s ← (if is_file n then
          '(_, _, chunks) ← file_of n;
          Some (call ((fun '(_, c) => DeleteFile c (node_goal n)) <$> cut_chunks chunks 0) (count CFiles (-1) s))
         else Some s);
    let s := if bool_decide (node_type n = kSymlink) then count CLinks (-1) s else s in
    let s := nodeQuotaUpdate n (cost (-1) n) (call [ReleaseInode x timeStamp; RemoveXattrs x] s) in
    let s := set_quota s (quota_remove (md_quota s) kInode x) in
    Some (set_nodes s (delete x (md_nodes s))).

Definition unlink (timeStamp parent : Z) (childName : name_t) (child : Z) (s : Metadata) : option Metadata :=
  cn ← md_nodes s !! child;
  path ← (if bool_decide (length (node_parents cn) = 1%nat) && bool_decide (node_type cn = kFile) then
           '(_, sessionIds, _) ← file_of cn;
           if (0 <? node_trashtime cn) || negb (bool_decide (sessionIds = []))
           then getPath (md_nodes s) parent child else Some []
         else Some []);
  nodes ← removeEdge goals root timeStamp parent childName child (md_nodes s);
  let s := set_nodes s nodes in
  cn ← md_nodes s !! child;
  if negb (bool_decide (node_parents cn = [])) then Some s
  else if bool_decide (node_type cn = kFile) then
    '(len, sessionIds, _) ← file_of cn;
    if 0 <? node_trashtime cn then
      let cn := with_ctime (with_type cn kTrash) timeStamp in
      d ← addTrashEntry (md_detached s) (node_id cn) (node_ctime cn) (node_trashtime cn) path;
      Some (count CTrash 1 (count CTrashSpace len (set_detached (put_node child cn s) d)))
    else if negb (bool_decide (sessionIds = [])) then
      d ← addReservedEntry (md_detached s) (node_id cn) path;
      Some (count CReserved 1 (count CReservedSpace len (set_detached (put_node child (with_type cn kReserved) s) d)))
    else removeNode timeStamp child s
  else removeNode timeStamp child s.

(** purge(): -1, 0 and 1 as in the code. *)
Definition purge (timeStamp x : Z) (s : Metadata) : option (Z * Metadata) :=
  n ← md_nodes s !! x;
  match node_type n with
  | kTrash =>
    '(len, sessionIds, _) ← file_of n;
    let s := count CTrash (-1) (count CTrashSpace (- len) s) in
    if negb (bool_decide (sessionIds = [])) then
      let s := count CReserved 1 (count CReservedSpace len (put_node x (with_type n kReserved) s)) in
      Some (0, set_detached s (moveTrashToReservedEntry (md_detached s) (node_id n) (node_ctime n) (node_trashtime n)))
    else
      let s := set_detached s (removeTrashEntry (md_detached s) (node_id n) (node_ctime n) (node_trashtime n)) in
      s ← removeNode timeStamp x (put_node x (with_ctime n timeStamp) s); Some (1, s)
  | kReserved =>
    '(len, _, _) ← file_of n;
    let s := count CReserved (-1) (count CReservedSpace (- len) s) in
    let s := set_detached s (removeReservedEntry (md_detached s) (node_id n)) in
    s ← removeNode timeStamp x (put_node x (with_ctime n timeStamp) s); Some (1, s)
  | _ => Some (-1, s)
  end.

(** ** Names *)

Definition nameCheck (name : name_t) : bool :=
  (0 <? Z.of_nat (length name)) && (Z.of_nat (length name) <=? kMaxFileNameLength)
  && negb (bool_decide (name = [46])) && negb (bool_decide (name = [46; 46]))
  && forallb (fun c => negb (c =? 0) && negb (c =? 47)) name.

Definition isDotOnlySegment (segmentLength dotCount : Z) : bool :=
  (0 <? segmentLength) && (segmentLength =? dotCount) && (segmentLength <=? 2).

Fixpoint skip_slashes (path : list Z) : list Z :=
  match path with c :: rest => if c =? 47 then skip_slashes rest else path | [] => [] end.

(** The loop of validateTrashPath(). *)
Fixpoint valid_parts (path : list Z) (partLength dots : Z) : bool :=
  match path with
  | [] => negb (partLength =? 0) && negb (isDotOnlySegment partLength dots)
  | c :: rest =>
    if c =? 0 then false
    else if c =? 47 then
      negb (partLength =? 0) && negb (isDotOnlySegment partLength dots) && valid_parts rest 0 0
    else
      (partLength + 1 <=? kMaxFileNameLength)
      && valid_parts rest (partLength + 1) (if c =? 46 then dots + 1 else dots)
  end.

Definition validateTrashPath (path : list Z) : bool :=
  match skip_slashes path with [] => false | rest => valid_parts rest 0 0 end.

(** The names between the slashes. *)
Fixpoint segments (path : list Z) : list name_t :=
  match path with
  | [] => [[]]
  | c :: rest =>
    if c =? 47 then [] :: segments rest
    else match segments rest with name :: names => (c :: name) :: names | [] => [[c]] end
  end.

(** The end of undel(): the file leaves its container and is linked. *)
Definition undel_link (timeStamp x parent : Z) (name : name_t) (s : Metadata) : option Metadata :=
  n ← md_nodes s !! x; '(len, _, _) ← file_of n;
  let d := match node_type n with
           | kTrash => removeTrashEntry (md_detached s) (node_id n) (node_ctime n) (node_trashtime n)
           | _ => removeReservedEntry (md_detached s) (node_id n)
           end in
  let s := put_node x (with_ctime (with_type n kFile) timeStamp) (set_detached s d) in
  nodes ← link goals root timeStamp parent x name (md_nodes s);
  Some (count CTrash (-1) (count CTrashSpace (- len) (set_nodes s nodes))).

(** ** The trash time of a node (settrashtime_task.cc) *)

Inductive SetTrashtimeResult := kChanged | kNotChanged | kNotPermitted | kNoAction.
Inductive SetMode := SMODE_SET | SMODE_INCREASE | SMODE_DECREASE.

Definition setTrashtime (uid trashtime : Z) (smode : SetMode) (x timeStamp : Z) (s : Metadata)
  : option (SetTrashtimeResult * Metadata) :=
  n ← md_nodes s !! x;
  if is_file n || is_dir n then
    if negb (has (node_mode n) (Z.shiftl EATTR_NOOWNER EATTR_BIT_OFFSET)) && negb (uid =? 0) && negb (node_uid n =? uid)
    then Some (kNotPermitted, s)
    else
      let set := match smode with
                 | SMODE_SET => negb (node_trashtime n =? trashtime)
                 | SMODE_INCREASE => node_trashtime n <? trashtime
                 | SMODE_DECREASE => trashtime <? node_trashtime n
                 end in
      if set then
        let oldTrashtime := node_trashtime n in
        let s := put_node x (with_trashtime n trashtime) s in
        s ← (if bool_decide (node_type n = kTrash) then updateCTimeForTrashNode x timeStamp oldTrashtime s
             else updateCTime x timeStamp s);
        Some (kChanged, s)
      else Some (kNotChanged, s)
  else Some (kNoAction, s).

End meta.
