(* ===== verification/FsMetaInv.v ===== *)
(** The invariant of the metadata: the tree, the access control lists, the counters of nodes, the usage of quotas and
    the containers of detached files agree with the table of nodes, and the operations on nodes keep it so. *)
From S2P Require Import Prelude Serialization RichACL AclMasks AclStorage Nodes FileSize NodeAcl Trash Quota.
From S2P Require Import FsTree FsTreeInv FsTreeNodes FsMeta.

(** ** Totals over the table of nodes *)

Definition total (m : FSNode -> Z) (nodes : nodes_t) : Z := map_fold (fun _ v acc => v + acc) 0 (m <$> nodes).

Lemma total_insert m x n nodes : nodes !! x = None -> total m (<[x := n]> nodes) = m n + total m nodes.
Proof.
  intros E. unfold total. rewrite fmap_insert. rewrite map_fold_insert_L; [done| |by rewrite lookup_fmap, E].
  intros. lia.
Qed.

Lemma total_delete m x n nodes : nodes !! x = Some n -> total m (delete x nodes) = total m nodes - m n.
Proof.
  intros E. rewrite <-(insert_delete_id nodes x n E) at 2. rewrite total_insert by apply lookup_delete_eq. lia.
Qed.

Lemma total_update m x n n' nodes : nodes !! x = Some n -> total m (<[x := n']> nodes) = total m nodes - m n + m n'.
Proof.
  intros E. rewrite <-insert_delete_eq. rewrite total_insert by apply lookup_delete_eq. rewrite (total_delete m x n) by done. lia.
Qed.

Lemma total_same m nodes nodes' :
  (forall x, m <$> nodes' !! x = m <$> nodes !! x) -> total m nodes' = total m nodes.
Proof. intros H. unfold total. f_equal. apply map_eq. intros x. rewrite !lookup_fmap. apply H. Qed.

(** ** What a node counts for *)

#[global] Instance Count_eq_dec : EqDecision Count.
Proof. solve_decision. Defined.

Definition length_of (n : FSNode) : Z := match node_data n with FileData len _ _ => len | _ => 0 end.

Definition of_type (type : FSNodeType) (n : FSNode) (v : Z) : Z := if decide (node_type n = type) then v else 0.

Definition weight (k : Count) (n : FSNode) : Z :=
  match k with
  | CNodes => 1
  | CDirs => of_type kDirectory n 1
  | CFiles => if is_file n then 1 else 0
  | CLinks => of_type kSymlink n 1
  | CTrash => of_type kTrash n 1
  | CReserved => of_type kReserved n 1
  | CTrashSpace => of_type kTrash n (length_of n)
  | CReservedSpace => of_type kReserved n (length_of n)
  end.

Definition owns (t : QuotaOwnerType) (id uid gid : Z) : bool :=
  match t with kUser => uid =? id | kGroup => gid =? id | kInode => false end.

(** Where a detached file is. *)
Definition where_of (n : FSNode) : option ((Z * Z) + Z) :=
  match node_type n with kTrash => Some (inl (key_of n)) | kReserved => Some (inr (node_id n)) | _ => None end.

Definition used_by (db : QuotaDatabase) (t : QuotaOwnerType) (id : Z) (r : QuotaResource) : Z :=
  limit_of (quota_entry db t id) kUsed r.

Section invariant.
Context (goals : Z -> Goals.Goal).
Notation root := SPECIAL_INODE_ROOT.

Definition charge (t : QuotaOwnerType) (id : Z) (r : QuotaResource) (n : FSNode) : Z :=
  if owns t id (node_uid n) (node_gid n)
  then match r with kInodes => 1 | kSize => if is_file n then getSize goals n else 0 end else 0.

(** Every node but the root has a parent or is detached; a reserved file is open. *)
Record status_ok (x : Z) (n : FSNode) : Prop := MkStatus {
  so_parents : x <> root -> node_parents n = [] <-> is_Some (where_of n);
  so_root : x = root -> where_of n = None;
  so_open : node_type n = kReserved -> exists len sessionIds chunks, file_of n = Some (len, sessionIds, chunks) /\ sessionIds <> [];
}.

(** The counters and the usage are those of the nodes. *)
Record books (c : Counters) (q : QuotaDatabase) (nodes : nodes_t) : Prop := MkBooks {
  bk_counts : forall k, counter_of c k = wrap (count_width k) (total (weight k) nodes);
  bk_used : forall t id r, t <> kInode -> used_by q t id r = u64 (total (charge t id r) nodes);
}.

(** The containers have the detached files. *)
Definition holds (d : Detached) (nodes : nodes_t) : Prop :=
  exists L, keeps d L /\
    forall w, w ∈ (where_ <$> L) <-> exists x n, nodes !! x = Some n /\ where_of n = Some w.

Record meta_ok (s : Metadata) : Prop := MkMetaOk {
  mo_tree : tree_ok goals root (md_nodes s);
  mo_acls : exists m, consistent (MkState (md_nodes s) (md_acls s)) m;
  mo_books : books (md_counters s) (md_quota s) (md_nodes s);
  mo_detached : holds (md_detached s) (md_nodes s);
  mo_status : forall x n, md_nodes s !! x = Some n -> status_ok x n;
}.

(** ** Changes of edges, statistics and times *)

Definition similar (nodes nodes' : nodes_t) : Prop := exists par dirf, related nodes nodes' par dirf.

Lemma similar_Some nodes nodes' x n :
  similar nodes nodes' -> nodes !! x = Some n -> exists n' par dirf, nodes' !! x = Some n' /\ node_change par dirf n n'.
Proof. intros (par & dirf & R) E. destruct (related_Some _ _ _ _ _ _ R E) as (n' & E' & H). eauto 6. Qed.

Lemma similar_back nodes nodes' x n' :
  similar nodes nodes' -> nodes' !! x = Some n' -> exists n par dirf, nodes !! x = Some n /\ node_change par dirf n n'.
Proof. intros (par & dirf & R) E. destruct (related_back _ _ _ _ _ _ R E) as (n & E' & H). eauto 6. Qed.

Section change.
Context (par : list (Z * name_t) -> list (Z * name_t)) (dirf : Directory -> Directory) (n n' : FSNode).
Context (Hch : node_change par dirf n n').

Lemma change_is_file : is_file n' = is_file n.
Proof. unfold is_file. by rewrite (ch_type _ _ _ _ Hch). Qed.

Lemma change_weight k : weight k n' = weight k n.
Proof.
  assert (length_of n' = length_of n) as E by (unfold length_of; rewrite (ch_data _ _ _ _ Hch); by destruct (node_data n)).
  unfold weight, of_type. by rewrite E, change_is_file, (ch_type _ _ _ _ Hch).
Qed.

Lemma change_where : where_of n' = where_of n.
Proof.
  unfold where_of, key_of. rewrite (ch_type _ _ _ _ Hch), (ch_id _ _ _ _ Hch), (ch_trashtime _ _ _ _ Hch).
  destruct (node_type n) eqn:E; try done. by rewrite (ch_ctime _ _ _ _ Hch).
Qed.

Lemma change_file_of : file_of n' = file_of n.
Proof. unfold file_of. rewrite (ch_data _ _ _ _ Hch). by destruct (node_data n). Qed.

(** A file keeps its size. *)
Lemma change_charge t id r : well_typed n -> charge t id r n' = charge t id r n.
Proof.
  intros Hty. unfold charge. rewrite (ch_uid _ _ _ _ Hch), (ch_gid _ _ _ _ Hch), change_is_file.
  destruct (owns _ _ _ _); [|done]. destruct r; [done|]. destruct (is_file n) eqn:Ef; [|done].
  unfold getSize. rewrite (getStats_unchanged goals _ _ _ _ Hch); [done|].
  unfold is_file in Ef. unfold well_typed in Hty. unfold directory_of. by destruct (node_type n), (node_data n).
Qed.

Lemma change_permissions : keeps_permissions n n'.
Proof. split; [apply (ch_id _ _ _ _ Hch)|]. by rewrite (ch_mode _ _ _ _ Hch). Qed.

End change.

Section similar.
Context (nodes nodes' : nodes_t) (Hsim : similar nodes nodes').

Lemma similar_total m :
  (forall x n n' par dirf, nodes !! x = Some n -> node_change par dirf n n' -> m n' = m n) -> total m nodes' = total m nodes.
Proof.
  intros Hm. apply total_same. intros x. destruct Hsim as (par & dirf & R). pose proof (R x) as Rx.
  destruct (nodes !! x) as [n|] eqn:E, (nodes' !! x) as [n'|]; simpl in *; try done. f_equal. by eapply Hm.
Qed.

Lemma similar_books c q :
  (forall x n, nodes !! x = Some n -> well_typed n) -> books c q nodes <-> books c q nodes'.
Proof.
  intros Hty. split; intros [B1 B2]; split.
  - intros k. rewrite B1, (similar_total (weight k)); [done|]. intros. by eapply change_weight.
  - intros t id r Ht. rewrite B2 by done. rewrite (similar_total (charge t id r)); [done|]. intros. eapply change_charge; [done|by eapply Hty].
  - intros k. rewrite B1, (similar_total (weight k)); [done|]. intros. by eapply change_weight.
  - intros t id r Ht. rewrite B2 by done. rewrite (similar_total (charge t id r)); [done|]. intros. eapply change_charge; [done|by eapply Hty].
Qed.

Lemma similar_where w :
  (exists x n, nodes !! x = Some n /\ where_of n = Some w) <-> (exists x n, nodes' !! x = Some n /\ where_of n = Some w).
Proof.
  split; intros (x & n & E & H).
  - destruct (similar_Some _ _ _ _ Hsim E) as (n' & par & dirf & E' & Hch). exists x, n'. by rewrite (change_where _ _ _ _ Hch).
  - destruct (similar_back _ _ _ _ Hsim E) as (n' & par & dirf & E' & Hch). exists x, n'. by rewrite <-(change_where _ _ _ _ Hch).
Qed.

Lemma similar_holds d : holds d nodes -> holds d nodes'.
Proof. intros (L & K & H). exists L. split; [done|]. intros w. by rewrite H, similar_where. Qed.

Lemma similar_consistent acls m : consistent (MkState nodes acls) m -> consistent (MkState nodes' acls) m.
Proof.
  intros [C1 C2 C3]. split; simpl in *; [done|..].
  - intros x n' E. destruct (similar_back _ _ _ _ Hsim E) as (n & par & dirf & E' & Hch). rewrite (ch_id _ _ _ _ Hch). by apply C2.
  - intros x acl E. destruct (C3 x acl E) as (n & En & Ha). destruct (similar_Some _ _ _ _ Hsim En) as (n' & par & dirf & E' & Hch).
    exists n'. split; [done|]. unfold mode_agrees in *. by rewrite (ch_mode _ _ _ _ Hch).
Qed.

End similar.

(** ** The books *)

Lemma counter_bump k d c k' :
  counter_of (bump k d c) k' = if decide (k = k') then wrap (count_width k) (counter_of c k + d) else counter_of c k'.
Proof. destruct c, k, k'; done. Qed.

Lemma wrap_change w a t d t' : a = wrap w t -> t' = t + d -> wrap w (a + d) = wrap w t'.
Proof. intros -> ->. unfold wrap. by rewrite Zplus_mod_idemp_l. Qed.

(** What a list of changes adds to one resource. *)
Definition added (r : QuotaResource) (rs : list (QuotaResource * Z)) : Z :=
  foldr (fun '(r', d) acc => if decide (r' = r) then d + acc else acc) 0 rs.

Lemma used_set db t id r v t' id' r' :
  used_by (quota_set db t id kUsed r v) t' id' r' = if decide ((t, id) = (t', id') /\ r = r') then v else used_by db t' id' r'.
Proof.
  unfold used_by, quota_set, quota_entry, QuotaDatabase in *. destruct (decide ((t, id) = (t', id'))) as [[= <- <-]|Hne].
  - rewrite lookup_insert_eq. destruct (db !! (t, id)) as [[a b u]|]; simpl;
      destruct r, r'; simpl; (rewrite decide_True by done; done) || (rewrite decide_False by (intros [_ ?]; done); done).
  - rewrite lookup_insert_ne by done. rewrite decide_False; [done|]. by intros [? _].
Qed.

Lemma used_update_ug rs : forall db uid gid t id r,
  t <> kInode -> used_by db t id r = u64 (used_by db t id r) ->
  used_by (quota_update_ug db uid gid rs) t id r = u64 (used_by db t id r + (if owns t id uid gid then added r rs else 0)).
Proof.
  induction rs as [|[r0 d] rs IH]; intros db uid gid t id r Ht Hn; simpl.
  { destruct (owns _ _ _ _); by rewrite Z.add_0_r. }
  unfold quota_update_ug in *. cbn [foldl].
  set (db1 := if d =? 0 then db else _).
  assert (used_by db1 t id r = u64 (used_by db t id r + (if owns t id uid gid then if decide (r0 = r) then d else 0 else 0))) as E1.
  { unfold db1. destruct (Z.eqb_spec d 0) as [->|Hd].
    { destruct (owns _ _ _ _), (decide (r0 = r)); by rewrite Z.add_0_r. }
    unfold quota_update. rewrite !used_set. destruct t; [| |done]; simpl.
    - destruct (Z.eqb_spec uid id) as [->|].
      + destruct (decide (r0 = r)) as [->|]; [by rewrite decide_True|].
        rewrite decide_False by (intros [? ?]; simplify_eq; done). by rewrite Z.add_0_r.
      + rewrite decide_False by (intros [? ?]; simplify_eq; done). by rewrite Z.add_0_r.
    - fold (used_by (quota_set db kUser uid kUsed r0 (u64 (limit_of (quota_entry db kUser uid) kUsed r0 + d))) kGroup gid r0).
      rewrite used_set. simpl. destruct (Z.eqb_spec gid id) as [->|].
      + destruct (decide (r0 = r)) as [->|]; [by rewrite decide_True|].
        rewrite decide_False by (intros [? ?]; simplify_eq; done). by rewrite Z.add_0_r.
      + rewrite decide_False by (intros [? ?]; simplify_eq; done). by rewrite Z.add_0_r. }
  rewrite IH; [|done|].
  - rewrite E1. unfold u64, wrap. rewrite Zplus_mod_idemp_l. f_equal. destruct (owns _ _ _ _), (decide (r0 = r)); lia.
  - rewrite E1. unfold u64, wrap. by rewrite Zmod_mod.
Qed.

Lemma cost_charge sign n t id r :
  (if owns t id (node_uid n) (node_gid n) then added r (cost goals sign n) else 0) = sign * charge t id r n.
Proof.
  unfold charge, cost. destruct (owns _ _ _ _); [|lia]. destruct (is_file n), r; simpl; lia.
Qed.

(** The books after a change of the nodes. *)
Lemma books_step c q nodes c' q' nodes' :
  books c q nodes ->
  (forall k, exists d, counter_of c' k = wrap (count_width k) (counter_of c k + d) /\
    total (weight k) nodes' = total (weight k) nodes + d) ->
  (forall t id r, t <> kInode -> exists d, used_by q' t id r = u64 (used_by q t id r + d) /\
    total (charge t id r) nodes' = total (charge t id r) nodes + d) ->
  books c' q' nodes'.
Proof.
  intros [B1 B2] H1 H2. split.
  - intros k. destruct (H1 k) as (d & -> & Ht). by eapply wrap_change.
  - intros t id r Ht. destruct (H2 t id r Ht) as (d & -> & Hc). eapply wrap_change; [by apply B2|done].
Qed.

Lemma books_normal c q nodes k : books c q nodes -> counter_of c k = wrap (count_width k) (counter_of c k + 0).
Proof. intros [B1 _]. rewrite Z.add_0_r, B1. unfold wrap. by rewrite Zmod_mod. Qed.

Lemma books_used_normal c q nodes t id r :
  books c q nodes -> t <> kInode -> used_by q t id r = u64 (used_by q t id r).
Proof. intros [_ B2] Ht. rewrite B2 by done. unfold u64, wrap. by rewrite Zmod_mod. Qed.

(** ** Removed nodes *)

(** The counters of removeNode(): those of detached files are not its own. *)
Definition of_nodes (k : Count) : bool := match k with CNodes | CDirs | CFiles | CLinks => true | _ => false end.

Lemma used_remove_inode db x t id r : t <> kInode -> used_by (quota_remove db kInode x) t id r = used_by db t id r.
Proof.
  intros Ht. unfold used_by, quota_remove, quota_entry, QuotaDatabase in *. by rewrite lookup_delete_ne by (intros ?; simplify_eq).
Qed.

Lemma file_type_data n : well_typed n -> is_file n = true -> exists len sessionIds chunks, node_data n = FileData len sessionIds chunks.
Proof.
  unfold well_typed, is_file. destruct (node_type n), (node_data n) as [len ses ch| | | |]; simpl; try done; intros; eauto.
Qed.

Lemma consistent_delete nodes acls m x :
  consistent (MkState nodes acls) m ->
  exists acls', AclStorage.erase acls x = Some acls' /\ consistent (MkState (delete x nodes) acls') (delete x m).
Proof.
  intros [Hr Hi Ha]. simpl in *. destruct (erase_rep _ _ Hr x) as (acls' & E & Hr'). exists acls'. split; [done|].
  split; simpl; [done|..].
  - intros k y. rewrite lookup_delete_Some. intros [_ H]. by apply Hi.
  - intros k acl. rewrite lookup_delete_Some. intros [Hne H]. destruct (Ha k acl H) as (y & Hy & ?).
    exists y. by rewrite lookup_delete_ne.
Qed.

Lemma removeNode_runs s x n m timeStamp :
  md_nodes s !! x = Some n -> node_parents n = [] -> well_typed n -> consistent (MkState (md_nodes s) (md_acls s)) m ->
  (forall k, counter_of (md_counters s) k = wrap (count_width k) (counter_of (md_counters s) k)) ->
  exists s', removeNode goals timeStamp x s = Some s' /\ md_nodes s' = delete x (md_nodes s) /\
    md_detached s' = md_detached s /\ (exists m', consistent (MkState (md_nodes s') (md_acls s')) m') /\
    (forall k, counter_of (md_counters s') k =
       wrap (count_width k) (counter_of (md_counters s) k - (if of_nodes k then weight k n else 0))) /\
    (forall t id r, t <> kInode -> used_by (md_quota s) t id r = u64 (used_by (md_quota s) t id r) ->
       used_by (md_quota s') t id r = u64 (used_by (md_quota s) t id r - charge t id r n)).
Proof.
  intros En Hp Hty Hcon Hnorm. destruct (consistent_delete _ _ _ x Hcon) as (acls' & Ee & Hcon').
  unfold removeNode. rewrite En. cbn [mbind option_bind]. rewrite bool_decide_true by done. cbn [negb].
  cbn [md_acls count]. rewrite Ee. cbn [mbind option_bind].
  set (s1 := if is_dir n then _ else _).
  assert (exists s2, (if is_file n then '(_, _, chunks) ← file_of n;
      Some (call ((fun '(_, c) => DeleteFile c (node_goal n)) <$> cut_chunks chunks 0) (count CFiles (-1) s1))
      else Some s1) = Some s2 /\ md_nodes s2 = md_nodes s /\ md_detached s2 = md_detached s /\ md_quota s2 = md_quota s /\
      md_acls s2 = acls' /\ md_counters s2 = (if is_file n then bump CFiles (-1) (md_counters s1) else md_counters s1))
    as (s2 & -> & E1 & E2 & E3 & E4 & E5).
  { assert (md_nodes s1 = md_nodes s /\ md_detached s1 = md_detached s /\ md_quota s1 = md_quota s /\ md_acls s1 = acls') as (? & ? & ? & ?)
      by (unfold s1; by destruct (is_dir n)).
    destruct (is_file n) eqn:Ef; [|by exists s1]. destruct (file_type_data n Hty Ef) as (len & ses & ch & Ed).
    unfold file_of. rewrite Ed. cbn [mbind option_bind]. by eexists. }
  cbn [mbind option_bind]. eexists. split; [done|].
  set (s3 := if bool_decide (node_type n = kSymlink) then _ else _).
  assert (md_nodes s3 = md_nodes s /\ md_detached s3 = md_detached s /\ md_quota s3 = md_quota s /\ md_acls s3 = acls') as (F1 & F2 & F3 & F4)
    by (unfold s3; by destruct (bool_decide _)).
  cbn [set_nodes set_quota nodeQuotaUpdate call md_nodes md_detached md_acls md_quota md_counters].
  rewrite F1, F2, F3, F4. split; [done|]. split; [done|]. split; [eauto|]. split.
  - intros k. assert (md_counters s3 = if bool_decide (node_type n = kSymlink) then bump CLinks (-1) (md_counters s2) else md_counters s2) as ->
      by (unfold s3; by destruct (bool_decide _)).
    assert (md_counters s1 = if is_dir n then bump CDirs (-1) (bump CNodes (-1) (md_counters s)) else bump CNodes (-1) (md_counters s)) as Es1
      by (unfold s1; by destruct (is_dir n)).
    rewrite E5, Es1. pose proof (Hnorm k) as Hk. unfold weight, of_type, is_file, is_dir.
    destruct (md_counters s), (node_type n), k; simpl in *; rewrite ?Z.sub_0_r; first [done|exact Hk].
  - intros t id r Ht Hn. rewrite used_remove_inode by done. rewrite used_update_ug by done. rewrite cost_charge. f_equal; lia.
Qed.

(** ** Detached files *)

Definition where_id (w : (Z * Z) + Z) : Z := match w with inl key => key.2 | inr id => id end.

Lemma where_of_id n w : where_of n = Some w -> where_id w = node_id n.
Proof. unfold where_of. destruct (node_type n); try done; by intros [= <-]. Qed.

Definition ids_ok (nodes : nodes_t) : Prop := forall x n, nodes !! x = Some n -> node_id n = x.

Lemma tree_ids nodes : tree_ok goals root nodes -> ids_ok nodes.
Proof. intros Hok x n E. exact (no_id _ _ _ _ _ (to_nodes _ _ _ _ Hok x n E)). Qed.

Lemma tree_typed nodes x n : tree_ok goals root nodes -> nodes !! x = Some n -> well_typed n.
Proof. intros Hok E. exact (no_typed _ _ _ _ _ (to_nodes _ _ _ _ Hok x n E)). Qed.

(** The detached files other than one node. *)
Definition others (nodes : nodes_t) (x : Z) (w : (Z * Z) + Z) : Prop :=
  exists y n, nodes !! y = Some n /\ y <> x /\ where_of n = Some w.

Lemma holds_split d nodes x n w :
  ids_ok nodes -> holds d nodes -> nodes !! x = Some n -> where_of n = Some w ->
  exists h i L, keeps d (Trash.MkEntry w h i :: L) /\ (forall w', w' ∈ (where_ <$> L) <-> others nodes x w').
Proof.
  intros Hid (L & K & H) En Hw. assert (w ∈ (where_ <$> L)) as Hin by (apply H; eauto).
  apply list_elem_of_fmap in Hin as ([w0 h i] & -> & He). simpl in *. apply elem_of_Permutation in He as [L' Hp].
  exists h, i, L'. pose proof (keeps_perm _ _ _ K Hp) as K'. split; [done|]. intros w'.
  pose proof (hf_where _ _ (keeps_head _ _ _ K')) as Hnot. simpl in Hnot.
  assert (w' ∈ (where_ <$> L) <-> w' = w0 \/ w' ∈ (where_ <$> L')) as Hl
    by (rewrite Hp; simpl; by rewrite elem_of_cons).
  split.
  - intros Hw'. destruct (proj1 (H w') (proj2 Hl (or_intror Hw'))) as (y & n0 & Ey & Hy). exists y, n0.
    split; [done|]. split; [|done]. intros ->. congruence.
  - intros (y & n0 & Ey & Hne & Hy). destruct (proj1 Hl (proj2 (H w') ltac:(eauto))) as [->|]; [|done]. exfalso. apply Hne.
    rewrite <-(Hid _ _ Ey), <-(Hid _ _ En), <-(where_of_id _ _ Hy). by apply where_of_id.
Qed.

Lemma holds_others d nodes x n :
  holds d nodes -> nodes !! x = Some n -> where_of n = None ->
  exists L, keeps d L /\ (forall w', w' ∈ (where_ <$> L) <-> others nodes x w').
Proof.
  intros (L & K & H) En Hw. exists L. split; [done|]. intros w'. rewrite H. split.
  - intros (y & n0 & Ey & Hy). exists y, n0. split; [done|]. split; [|done]. intros ->. congruence.
  - intros (y & n0 & Ey & Hne & Hy). eauto.
Qed.

(** A place for the node is free when the node is not among the others. *)
Lemma others_fresh nodes x n w (L : list entry) :
  ids_ok nodes -> node_id n = x -> where_of n = Some w -> (forall w', w' ∈ (where_ <$> L) <-> others nodes x w') -> w ∉ (where_ <$> L).
Proof.
  intros Hids Hid Hw HL Hin. apply HL in Hin as (y & n0 & Ey & Hne & Hy). apply Hne.
  rewrite <-(Hids _ _ Ey), <-(where_of_id _ _ Hy), (where_of_id _ _ Hw). done.
Qed.

Lemma holds_put d nodes x n' L :
  keeps d L -> (forall w', w' ∈ (where_ <$> L) <-> others nodes x w' \/ where_of n' = Some w') -> holds d (<[x := n']> nodes).
Proof.
  intros K H. exists L. split; [done|]. intros w. rewrite H. split.
  - intros [(y & n0 & Ey & Hne & Hy)|Hw]; [exists y, n0; by rewrite lookup_insert_ne|exists x, n'; by rewrite lookup_insert_eq].
  - intros (y & n0 & Ey & Hy). destruct (decide (y = x)) as [->|Hne].
    + rewrite lookup_insert_eq in Ey. injection Ey as <-. by right.
    + rewrite lookup_insert_ne in Ey by done. left. by exists y, n0.
Qed.

Lemma holds_put_cons d nodes x n' w h i L :
  keeps d (Trash.MkEntry w h i :: L) -> (forall w', w' ∈ (where_ <$> L) <-> others nodes x w') -> where_of n' = Some w ->
  holds d (<[x := n']> nodes).
Proof.
  intros K H Hw. eapply holds_put; [exact K|]. intros w'. simpl. rewrite elem_of_cons, H, Hw. naive_solver.
Qed.

Lemma holds_put_none d nodes x n' L :
  keeps d L -> (forall w', w' ∈ (where_ <$> L) <-> others nodes x w') -> where_of n' = None -> holds d (<[x := n']> nodes).
Proof. intros K H Hw. eapply holds_put; [exact K|]. intros w'. rewrite H, Hw. split; [auto|]. by intros [|]. Qed.

Lemma holds_delete d nodes x L :
  keeps d L -> (forall w', w' ∈ (where_ <$> L) <-> others nodes x w') -> holds d (delete x nodes).
Proof.
  intros K H. exists L. split; [done|]. intros w. rewrite H. split.
  - intros (y & n0 & Ey & Hne & Hy). exists y, n0. by rewrite lookup_delete_ne.
  - intros (y & n0 & [Hne Ey]%lookup_delete_Some & Hy). by exists y, n0.
Qed.

(** ** One node changes *)

Lemma put_consistent nodes acls x n n' :
  (exists m, consistent (MkState nodes acls) m) -> nodes !! x = Some n -> keeps_permissions n n' ->
  exists m, consistent (MkState (<[x := n']> nodes) acls) m.
Proof. intros [m Hc] En Hk. exact (kept_ok _ m Hc x n En n' Hk). Qed.

Lemma put_status (nodes : nodes_t) x n' :
  (forall y n, nodes !! y = Some n -> status_ok y n) -> status_ok x n' ->
  forall y n, <[x := n']> nodes !! y = Some n -> status_ok y n.
Proof.
  intros H Hx y n. destruct (decide (y = x)) as [->|]; [rewrite lookup_insert_eq; by intros [= <-]|].
  rewrite lookup_insert_ne by done. apply H.
Qed.

(** The books after a change of one node. *)
Lemma books_put c q nodes x n n' c' q' :
  books c q nodes -> nodes !! x = Some n ->
  (forall k, counter_of c' k = wrap (count_width k) (counter_of c k + (weight k n' - weight k n))) ->
  (forall t id r, t <> kInode -> used_by q' t id r = u64 (used_by q t id r + (charge t id r n' - charge t id r n))) ->
  books c' q' (<[x := n']> nodes).
Proof.
  intros B En H1 H2. eapply books_step; [exact B|..].
  - intros k. eexists. split; [apply H1|]. rewrite (total_update _ x n n') by done. lia.
  - intros t id r Ht. eexists. split; [by apply H2|]. rewrite (total_update _ x n n') by done. lia.
Qed.

Lemma books_delete c q nodes x n c' q' :
  books c q nodes -> nodes !! x = Some n ->
  (forall k, counter_of c' k = wrap (count_width k) (counter_of c k - weight k n)) ->
  (forall t id r, t <> kInode -> used_by q' t id r = u64 (used_by q t id r - charge t id r n)) ->
  books c' q' (delete x nodes).
Proof.
  intros B En H1 H2. eapply books_step; [exact B|..].
  - intros k. exists (- weight k n). split; [rewrite H1; f_equal; lia|]. rewrite (total_delete _ x n) by done. lia.
  - intros t id r Ht. exists (- charge t id r n). split; [rewrite H2 by done; f_equal; lia|]. rewrite (total_delete _ x n) by done. lia.
Qed.

End invariant.
