(* ===== verification/FsCreate.v ===== *)
(** The creation of a node and its record in the changelog: the master creates the node with the mode and the umask of
    the client and records the mode that the node got; a shadow creates the node with the recorded mode and without a
    umask.  Both get the same mode and the same access control list. *)
From S2P Require Import Prelude Serialization RichACL AclMasks AclStorage Nodes FileSize NodeAcl Trash Quota.
From S2P Require Import FsTree FsTreeInv FsTreeNodes FsMeta FsMetaInv.

(** ** Masks *)

Lemma convertMode2Mask_bits x y :
  (forall i, 0 <= i < 3 -> Z.testbit x i = Z.testbit y i) -> convertMode2Mask x = convertMode2Mask y.
Proof.
  intros H. unfold convertMode2Mask. destruct (has_mode x) as (-> & -> & ->), (has_mode y) as (-> & -> & ->).
  by rewrite !H by lia.
Qed.

Lemma convertMode2Mask_shift x y k :
  0 <= k -> (forall i, 0 <= i < k + 3 -> Z.testbit x i = Z.testbit y i) ->
  convertMode2Mask (Z.shiftr x k) = convertMode2Mask (Z.shiftr y k).
Proof. intros Hk H. apply convertMode2Mask_bits. intros i Hi. rewrite !Z.shiftr_spec by lia. apply H. lia. Qed.

(** The mode that a list is equivalent to: the permissions are those of the list. *)
Lemma equivMode_permissions acl mode is_dir :
  ace_list_ acl <> [] ->
  equivMode acl mode is_dir = (fun p => Z.lor (minus mode kStandardPermissionsMask) p) <$> equivMode acl 0 is_dir.
Proof.
  intros Hne. unfold equivMode. destruct (negb _); [done|]. rewrite (bool_decide_false (ace_list_ acl = [])), andb_false_r by done.
  destruct (equiv_loop _ _) as [st|]; [|done]. cbn [mbind option_bind]. destruct (negb _); [done|].
  destruct (if isMasked acl then _ else _) as [[owner group] everyone].
  set (A := Z.shiftl (convertMask2Mode owner) 6). set (B := Z.shiftl (convertMask2Mode group) 3). set (C := convertMask2Mode everyone).
  set (H := minus mode kStandardPermissionsMask). change (minus 0 kStandardPermissionsMask) with 0. rewrite Z.lor_0_l.
  assert (forall i, 0 <= i < 9 -> Z.testbit (Z.lor (Z.lor (Z.lor H A) B) C) i = Z.testbit (Z.lor (Z.lor A B) C) i) as Hb.
  { intros i Hi. rewrite !Z.lor_spec. assert (Z.testbit H i = false) as ->; [|done].
    unfold H, minus. rewrite Z.ldiff_spec. change kStandardPermissionsMask with (Z.ones 9). rewrite Z.ones_spec_low by lia. by rewrite andb_false_r. }
  rewrite (convertMode2Mask_shift (Z.lor (Z.lor (Z.lor H A) B) C) (Z.lor (Z.lor A B) C) 6) by (lia || (intros; apply Hb; lia)).
  rewrite (convertMode2Mask_shift (Z.lor (Z.lor (Z.lor H A) B) C) (Z.lor (Z.lor A B) C) 3) by (lia || (intros; apply Hb; lia)).
  rewrite (convertMode2Mask_bits (Z.lor (Z.lor (Z.lor H A) B) C) (Z.lor (Z.lor A B) C)) by (intros; apply Hb; lia).
  destruct (_ || _); [done|]. simpl. by rewrite !Z.lor_assoc.
Qed.

Lemma convertMode2Mask_testbit z j :
  Z.testbit (convertMode2Mask z) j =
  (Z.testbit z 2 && Z.testbit (perm 2) j) || (Z.testbit z 1 && Z.testbit (perm 1) j) || (Z.testbit z 0 && Z.testbit (perm 0) j).
Proof.
  unfold convertMode2Mask. destruct (has_mode z) as (-> & -> & ->). rewrite !Z.lor_spec.
  change (perm 2) with kPosixModeRead. change (perm 1) with kPosixModeWrite. change (perm 0) with kPosixModeExec.
  by destruct (Z.testbit z 2), (Z.testbit z 1), (Z.testbit z 0); rewrite ?Z.bits_0.
Qed.

(** A mask that was cut to a mode, cut again to what is left of the mode. *)
Lemma mask_cut_again mask x y :
  (forall i, 0 <= i < 3 -> Z.testbit y i = Z.testbit (convertMask2Mode (Z.land mask (convertMode2Mask x))) i) ->
  Z.land mask (convertMode2Mask y) = Z.land mask (convertMode2Mask x).
Proof.
  intros Hy. apply Z.bits_inj'. intros j Hj. rewrite !Z.land_spec. destruct (Z.testbit mask j) eqn:Em; [|done]. cbn [andb].
  assert (forall i, 0 <= i < 3 -> Z.testbit (convertMode2Mask x) j = true -> Z.testbit (perm i) j = true -> Z.testbit y i = true) as Hup.
  { intros i Hi Hx Hp. rewrite Hy, convertMask2Mode_bit by lia. unfold has. apply negb_true_iff, Z.eqb_neq. intros E.
    apply (f_equal (fun z => Z.testbit z j)) in E. rewrite !Z.land_spec, Em, Hx, Hp, Z.bits_0 in E. done. }
  assert (forall i, 0 <= i < 3 -> Z.testbit y i = true -> Z.testbit x i = true) as Hdown.
  { intros i Hi. rewrite Hy by done. intros H. by apply mask_within_mode in H as [_ H]; [|lia]. }
  pose proof (convertMode2Mask_testbit x j) as Ex. rewrite (convertMode2Mask_testbit y j), Ex.
  assert (forall i, 0 <= i < 3 -> Z.testbit y i && Z.testbit (perm i) j = Z.testbit x i && Z.testbit (perm i) j) as Hi.
  { intros i Hi. destruct (Z.testbit (perm i) j) eqn:Ep; [|by rewrite !andb_false_r]. rewrite !andb_true_r.
    destruct (Z.testbit x i) eqn:Exi; [|apply not_true_is_false; intros H; rewrite Hdown in Exi by done; done].
    apply Hup; [done| |done]. rewrite Ex. assert (i = 0 \/ i = 1 \/ i = 2) as [-> | [-> | ->]] by lia; rewrite Exi, Ep; simpl; by rewrite ?orb_true_r. }
  by rewrite !Hi by lia.
Qed.

(** ** The mode of the node *)

Lemma u16_bit x i : 0 <= i -> Z.testbit (u16 x) i = Z.testbit x i && (i <? 16).
Proof.
  intros Hi. unfold u16, wrap. destruct (Z.ltb_spec i 16).
  - rewrite Z.mod_pow2_bits_low by lia. by rewrite andb_true_r.
  - rewrite Z.mod_pow2_bits_high by lia. by rewrite andb_false_r.
Qed.

(** A mode of sixteen bits. *)
Definition is_mode (m : Z) : Prop := u16 m = m.

Lemma is_mode_u16 m : is_mode (u16 m).
Proof. unfold is_mode, u16, wrap. by rewrite Zmod_mod. Qed.

Lemma is_mode_bit m i : is_mode m -> 0 <= i -> Z.testbit m i = Z.testbit m i && (i <? 16).
Proof. unfold is_mode. intros H Hi. rewrite <-H at 1. by apply u16_bit. Qed.

(** Permissions that the mode already respects cut nothing. *)
Lemma cut_nothing M G :
  is_mode M -> (forall i, 0 <= i < 9 -> Z.testbit M i = true -> Z.testbit G i = true) ->
  u16 (Z.land M (Z.lor G (Z.lnot kStandardPermissions))) = M.
Proof.
  intros HM HG. unfold is_mode in HM. rewrite <-HM at 2. f_equal. apply Z.bits_inj'. intros i Hi. rewrite Z.land_spec, Z.lor_spec, Z.lnot_spec by done.
  change kStandardPermissions with (Z.ones 9). destruct (Z.ltb_spec i 9).
  - rewrite Z.ones_spec_low by lia. rewrite orb_false_r. destruct (Z.testbit M i) eqn:E; [|done]. rewrite HG by (done || lia). done.
  - rewrite Z.ones_spec_high by lia. by rewrite orb_true_r, andb_true_r.
Qed.

(** The bits above the permissions are not cut. *)
Lemma cut_high m G i : 0 <= i -> 9 <= i -> Z.testbit (u16 (Z.land m (Z.lor G (Z.lnot kStandardPermissions)))) i = Z.testbit (u16 m) i.
Proof.
  intros Hi Hh. rewrite !u16_bit, Z.land_spec, Z.lor_spec, Z.lnot_spec by done. change kStandardPermissions with (Z.ones 9).
  rewrite Z.ones_spec_high by lia. by rewrite orb_true_r, andb_true_r.
Qed.

Lemma cut_low m G i :
  0 <= i < 9 -> Z.testbit (u16 (Z.land m (Z.lor G (Z.lnot kStandardPermissions)))) i = Z.testbit m i && Z.testbit G i.
Proof.
  intros Hi. rewrite u16_bit, Z.land_spec, Z.lor_spec, Z.lnot_spec by lia. change kStandardPermissions with (Z.ones 9).
  rewrite Z.ones_spec_low by lia. rewrite orb_false_r. rewrite (proj2 (Z.ltb_lt i 16)) by lia. by rewrite andb_true_r.
Qed.

Definition extra_mask (type : FSNodeType) : Z :=
  if bool_decide (type = kDirectory) then kExtraAttributesMask
  else minus kExtraAttributesMask (Z.shiftl EATTR_NOECACHE EATTR_BIT_OFFSET).

Lemma permissions_mask_bit x i : 0 <= i -> Z.testbit (Z.land x kPermissionsMask) i = Z.testbit x i && (i <? 12).
Proof.
  intros Hi. rewrite Z.land_spec. change kPermissionsMask with (Z.ones 12). f_equal. destruct (Z.ltb_spec i 12).
  - by rewrite Z.ones_spec_low by lia.
  - by rewrite Z.ones_spec_high by lia.
Qed.

Lemma extra_mask_low type i : 0 <= i < 12 -> Z.testbit (extra_mask type) i = false.
Proof.
  intros Hi. unfold extra_mask. assert (Z.testbit kExtraAttributesMask i = false) as E.
  { change kExtraAttributesMask with (Z.shiftl 15 12). by rewrite Z.shiftl_spec_low by lia. }
  destruct (bool_decide _); [done|]. unfold minus. by rewrite Z.ldiff_spec, E.
Qed.

(** The mode that a shadow starts with is the mode that the master recorded. *)
Lemma initial_again parent type M mode :
  is_mode M -> (forall i, 12 <= i -> Z.testbit M i = Z.testbit (u16 (initial_mode parent type mode)) i) ->
  u16 (initial_mode parent type (Z.land M kPermissionsMask)) = M.
Proof.
  intros HM Hhigh. apply Z.bits_inj'. intros i Hi. rewrite u16_bit by done. unfold initial_mode. fold (extra_mask type).
  rewrite Z.lor_spec, Z.land_spec, !permissions_mask_bit, Z.land_spec by done.
  destruct (Z.ltb_spec i 12).
  - rewrite extra_mask_low by lia. rewrite andb_true_r, andb_false_r, orb_false_r. change (Z.testbit kPermissionsMask i) with (Z.testbit (Z.ones 12) i).
    rewrite Z.ones_spec_low by lia. rewrite (proj2 (Z.ltb_lt i 16)) by lia. by rewrite !andb_true_r.
  - rewrite Hhigh, u16_bit by lia. unfold initial_mode. fold (extra_mask type). rewrite Z.lor_spec, permissions_mask_bit, Z.land_spec by lia.
    rewrite (proj2 (Z.ltb_ge i 12)) by lia. by rewrite !andb_false_r.
Qed.

(** ** The mode and the list again *)

(** What inherit_permissions() does to the mode: some permissions are cut. *)
Lemma inherit_cuts parent n acl mode umask st n1 st1 :
  inherit_permissions parent n acl mode umask st = Some (n1, st1) ->
  let I := u16 (initial_mode parent (node_type n) mode) in
  exists G, n1 = set_mode n (node_mode n1) /\ node_mode n1 = u16 (Z.land I (Z.lor G (Z.lnot kStandardPermissions))).
Proof.
  intros E I. unfold inherit_permissions in E. change (node_mode (set_mode n (initial_mode parent (node_type n) mode))) with I in E.
  assert (forall m, set_mode (set_mode n (initial_mode parent (node_type n) mode)) m = set_mode n (u16 m)) as Hset.
  { intros m. unfold set_mode. simpl. f_equal. unfold u16, wrap. by rewrite Zmod_mod. }
  destruct acl as [a|].
  - destruct (inheritInode a I umask _) as [G found]. destruct (match found with Some acl => _ | None => _ end) as [st2|]; [|done].
    simpl in E. injection E as <- _. exists G. split; [|done]. apply Hset.
  - injection E as <- _. exists (Z.lnot (Z.land umask kStandardPermissions)). split; [apply Hset|]. simpl. f_equal. unfold minus.
    apply Z.bits_inj'. intros i Hi. rewrite Z.ldiff_spec, !Z.land_spec, Z.lor_spec, !Z.lnot_spec, ?Z.land_spec by done.
    destruct (Z.testbit umask i), (Z.testbit kStandardPermissions i), (Z.testbit I i); done.
Qed.

(** The new mode cut to the old permissions gives the same list. *)
Lemma inheritInode_again dir_acl I umask is_dir G found M :
  is_mode M -> inheritInode dir_acl I umask is_dir = (G, found) ->
  (forall i, 0 <= i < 9 -> Z.testbit M i = Z.testbit I i && Z.testbit G i) ->
  exists G', inheritInode dir_acl M 0 is_dir = (G', found) /\ (forall i, 0 <= i < 9 -> Z.testbit M i = true -> Z.testbit G' i = true).
Proof.
  intros HM E Hlow.
  assert (forall r, found = Some r -> forall i, 0 <= i -> Z.testbit (getMode r) i = true -> Z.testbit I i = true) as Hsub
    by (intros r ->; by apply inherited_mode_within in E as [_ H]).
  unfold inheritInode in *. set (acl := inherit dir_acl is_dir) in *.
  destruct (bool_decide (ace_list_ acl = [])) eqn:Ea.
  { injection E as <- <-. eexists. split; [done|]. intros i Hi. unfold minus. by rewrite Z.ldiff_spec, Z.bits_0, andb_true_r. }
  apply bool_decide_eq_false in Ea. rewrite equivMode_permissions in * by done.
  destruct (equivMode acl 0 is_dir) as [P|]; simpl in E |- *.
  - injection E as <- <-. eexists. split; [done|]. intros i Hi HMi. rewrite Z.land_spec, HMi, Z.lor_spec. cbn [andb].
    assert (Z.testbit P i = true) as ->; [|by rewrite orb_true_r]. rewrite Hlow, !Z.land_spec, Z.lor_spec in HMi by done.
    unfold minus in HMi. rewrite Z.ldiff_spec in HMi. change kStandardPermissionsMask with (Z.ones 9) in HMi.
    rewrite Z.ones_spec_low, andb_false_r in HMi by lia. by destruct (Z.testbit I i), (Z.testbit P i).
  - injection E as EG Ef. set (acl1 := computeMaxMasks _) in *.
    set (r := MkRichACL (Z.land (owner_mask_ acl1) (convertMode2Mask (Z.shiftr I 6))) _ _ _ _) in *.
    assert (forall i, 0 <= i < 9 -> Z.testbit M i = Z.testbit (getMode r) i) as Hget.
    { intros i Hi. rewrite Hlow, <-EG by done. destruct (Z.testbit (getMode r) i) eqn:Eg; [|by rewrite andb_false_r].
      rewrite andb_true_r. by apply (Hsub r); [done|lia|]. }
    assert (forall mask k, 0 <= k <= 6 -> (forall i, 0 <= i < 3 -> Z.testbit (getMode r) (i + k) =
        Z.testbit (convertMask2Mode (Z.land mask (convertMode2Mask (Z.shiftr I k)))) i) ->
      Z.land mask (convertMode2Mask (Z.shiftr M k)) = Z.land mask (convertMode2Mask (Z.shiftr I k))) as Hcut.
    { intros mask k Hk Hbits. apply mask_cut_again. intros i Hi. rewrite Z.shiftr_spec, Hget by lia. by apply Hbits. }
    exists (getMode r). split; [|intros i Hi HMi; by rewrite <-Hget].
    assert (Z.land (owner_mask_ acl1) (convertMode2Mask (Z.shiftr M 6)) = owner_mask_ r) as E1.
    { apply Hcut; [lia|]. intros i Hi. rewrite getMode_bit by lia. rewrite !(proj2 (Z.ltb_ge _ _)) by lia. by rewrite Z.add_simpl_r. }
    assert (Z.land (group_mask_ acl1) (convertMode2Mask (Z.shiftr M 3)) = group_mask_ r) as E2.
    { apply Hcut; [lia|]. intros i Hi. rewrite getMode_bit by lia. rewrite (proj2 (Z.ltb_ge _ 3)), (proj2 (Z.ltb_lt _ 6)) by lia. by rewrite Z.add_simpl_r. }
    assert (Z.land (other_mask_ acl1) (convertMode2Mask M) = other_mask_ r) as E3.
    { apply mask_cut_again. intros i Hi. rewrite Hget, getMode_bit by lia. by rewrite (proj2 (Z.ltb_lt _ 3)) by lia. }
    rewrite E1, E2, E3, <-Ef. done.
Qed.

(** The permissions that a shadow gives to the node, from the recorded mode [M]: that of the node of the master, or
    that mode with the set-group-id bit. *)
Lemma inherit_again parent n acl mode umask st n1 st1 M :
  inherit_permissions parent n acl mode umask st = Some (n1, st1) -> is_mode M ->
  (forall i, 0 <= i -> i <> 10 -> Z.testbit M i = Z.testbit (node_mode n1) i) ->
  inherit_permissions parent n acl (Z.land M kPermissionsMask) 0 st = Some (set_mode n M, st1).
Proof.
  intros E HM Hbits. pose proof (inherit_cuts _ _ _ _ _ _ _ _ E) as (G & _ & Hm1).
  set (I := u16 (initial_mode parent (node_type n) mode)) in *.
  assert (is_mode I) as HI by apply is_mode_u16.
  assert (u16 (initial_mode parent (node_type n) (Z.land M kPermissionsMask)) = M) as Hinit.
  { eapply initial_again; [done|]. intros i Hi. rewrite Hbits, Hm1, cut_high by lia. fold I. by rewrite HI. }
  unfold inherit_permissions in *. change (node_mode (set_mode n (initial_mode parent (node_type n) mode))) with I in E.
  change (node_mode (set_mode n (initial_mode parent (node_type n) (Z.land M kPermissionsMask))))
    with (u16 (initial_mode parent (node_type n) (Z.land M kPermissionsMask))). rewrite Hinit.
  assert (forall m, u16 m = M -> set_mode (set_mode n (initial_mode parent (node_type n) (Z.land M kPermissionsMask))) m = set_mode n M) as Hset.
  { intros m Hm. unfold set_mode. simpl. f_equal. unfold is_mode in HM. congruence. }
  destruct acl as [a|].
  - change (is_directory (set_mode n (initial_mode parent (node_type n) mode))) with (is_directory n) in E.
    change (is_directory (set_mode n (initial_mode parent (node_type n) (Z.land M kPermissionsMask)))) with (is_directory n).
    destruct (inheritInode a I umask (is_directory n)) as [G0 found] eqn:Ei.
    destruct (inheritInode_again _ _ _ _ _ _ M HM Ei) as (G' & -> & HG').
    { intros i Hi. destruct (match found with Some acl => _ | None => _ end); [|done]. simpl in E. injection E as <- _.
      rewrite Hbits by lia. simpl. by rewrite cut_low. }
    change (node_id (set_mode n (initial_mode parent (node_type n) (Z.land M kPermissionsMask)))) with (node_id n).
    change (node_id (set_mode n (initial_mode parent (node_type n) mode))) with (node_id n) in E.
    destruct (match found with Some acl => _ | None => _ end) as [st2|]; [|done]. simpl in E |- *. injection E as _ <-.
    do 2 f_equal. apply Hset. by apply cut_nothing.
  - injection E as <- <-. do 2 f_equal. apply Hset. unfold minus. by rewrite Z.land_0_l, Z.ldiff_0_r.
Qed.
