(* ===== verification/FsMetaSteps.v ===== *)
(** The operations on nodes keep the invariant of the metadata: purge, unlink, the creation of nodes, the return of a
    file from the trash, and the changes of single nodes. *)
From S2P Require Import Prelude Serialization RichACL AclMasks AclStorage Nodes FileSize NodeAcl Trash Quota.
From S2P Require Import FsTree FsTreeInv FsTreeNodes FsTreeEdges FsMeta FsMetaInv.

(** ** Several changes of the counters *)

Definition bumps (bs : list (Count * Z)) (c : Counters) : Counters := foldr (fun '(k, d) => bump k d) c bs.
Definition bumped (bs : list (Count * Z)) (k : Count) : Z :=
  foldr (fun '(k', d) acc => (if decide (k' = k) then d else 0) + acc) 0 bs.

Lemma counter_bumps bs c k :
  counter_of c k = wrap (count_width k) (counter_of c k) ->
  counter_of (bumps bs c) k = wrap (count_width k) (counter_of c k + bumped bs k).
Proof.
  intros Hn. induction bs as [|[k' d] bs IH]; simpl; [by rewrite Z.add_0_r|]. rewrite counter_bump.
  destruct (decide (k' = k)) as [->|].
  - rewrite IH. unfold wrap. rewrite Zplus_mod_idemp_l. f_equal. lia.
  - rewrite IH. done.
Qed.

(** Equality of sums modulo a width. *)
Ltac wraps :=
  unfold u64, u32, wrap in *; rewrite ?Zplus_mod_idemp_l, ?Zplus_mod_idemp_r, ?Zminus_mod_idemp_l; f_equal; lia.

Section steps.
Context (goals : Z -> Goals.Goal).
Notation root := SPECIAL_INODE_ROOT.
Notation meta_ok := (meta_ok goals).
Notation charge := (charge goals).
Notation books := (books goals).

Lemma counts_normal c q nodes : books c q nodes -> forall k, counter_of c k = wrap (count_width k) (counter_of c k).
Proof. intros B k. by rewrite <-(Z.add_0_r (counter_of c k)) at 2; apply (books_normal goals c q nodes). Qed.

Lemma file_not_dir n : well_typed n -> is_file n = true -> directory_of n = None.
Proof. intros Hty Hf. destruct (file_type_data n Hty Hf) as (? & ? & ? & E). unfold directory_of. by rewrite E. Qed.

Lemma where_is_file n : is_Some (where_of n) -> is_file n = true.
Proof. unfold where_of, is_file. destruct (node_type n); try done; by intros [? ?]. Qed.

(** A change that neither the tree nor the statistics see. *)
Lemma put_tree nodes x n n' :
  tree_ok goals root nodes -> nodes !! x = Some n -> node_id n' = node_id n -> node_parents n' = node_parents n ->
  node_goal n' = node_goal n -> node_data n' = node_data n -> well_typed n' -> tree_ok goals root (<[x := n']> nodes).
Proof.
  intros Hok En Hid Hp Hg Hd Hty. eapply node_same_owing; try done.
  - rewrite Hid. by eapply tree_ids.
  - unfold directory_of. by rewrite Hd.
  - unfold getStats, node_stats. by rewrite Hd, Hg.
Qed.

Lemma retype_typed n type : well_typed n -> is_file n = true -> type = kFile \/ type = kTrash \/ type = kReserved -> well_typed (with_type n type).
Proof.
  intros Hty Hf Ht. destruct (file_type_data n Hty Hf) as (? & ? & ? & E). unfold well_typed. simpl. rewrite E.
  by destruct Ht as [-> | [-> | ->]].
Qed.

(** ** purge() *)

Section purge.
Context (s : Metadata) (Hok : meta_ok s) (x : Z) (n : FSNode) (Hn : md_nodes s !! x = Some n).

Lemma node_typed : well_typed n.
Proof. eapply tree_typed; [apply Hok|done]. Qed.

Lemma node_number : node_id n = x.
Proof. by apply (tree_ids goals _ (mo_tree _ _ Hok)). Qed.

Lemma detached_loose : is_Some (where_of n) -> node_parents n = [] /\ x <> root.
Proof.
  intros Hw. pose proof (mo_status _ _ Hok x n Hn) as [S1 S2 _].
  assert (x <> root) as Hr by (intros ->; rewrite S2 in Hw by done; by destruct Hw). split; [by apply S1|done].
Qed.

(** A detached file is removed, after its entry and its share of the counters of detached files. *)
Lemma remove_detached timeStamp c d L :
  is_Some (where_of n) -> keeps d L -> (forall w', w' ∈ (where_ <$> L) <-> others (md_nodes s) x w') ->
  (forall k, counter_of c k = wrap (count_width k) (counter_of (md_counters s) k - (if of_nodes k then 0 else weight k n))) ->
  exists s', removeNode goals timeStamp x
      (put_node x (with_ctime n timeStamp) (MkMeta (md_nodes s) c d (md_acls s) (md_quota s) (md_calls s) (md_version s))) = Some s' /\
    meta_ok s' /\ md_nodes s' = delete x (md_nodes s) /\ md_detached s' = d.
Proof.
  intros Hw K HL Hc. destruct (detached_loose Hw) as [Hp Hr]. pose proof (where_is_file n Hw) as Hf.
  pose proof (mo_books _ _ Hok) as B. destruct (mo_acls _ _ Hok) as [m Hm].
  set (n1 := with_ctime n timeStamp). set (s1 := put_node x n1 _).
  destruct (put_consistent _ _ x n n1 ltac:(eauto) Hn) as [m1 Hm1]; [done|].
  destruct (removeNode_runs goals s1 x n1 m1 timeStamp) as (s' & E & E1 & E2 & E3 & E4 & E5); try done.
  - unfold s1. simpl. by rewrite lookup_insert_eq.
  - exact node_typed.
  - intros k. simpl. rewrite Hc. unfold wrap. by rewrite Zmod_mod.
  - exists s'. split; [done|]. simpl in *. rewrite delete_insert_eq in E1. split; [|split; [done|by rewrite E2]]. split.
    + rewrite E1. eapply delete_tree; try done; [apply Hok|].
      intros d0 Hd0. by rewrite (file_not_dir n node_typed Hf) in Hd0.
    + done.
    + rewrite E1. eapply books_delete; [exact B|done|..].
      * intros k. rewrite E4, Hc. change (weight k n1) with (weight k n).
        destruct (of_nodes k); unfold wrap; rewrite ?Z.sub_0_r, ?Zmod_mod, ?Zminus_mod_idemp_l, ?Z.sub_0_r; done.
      * intros t id r Ht. change (charge t id r n) with (charge t id r n1). rewrite E5; [done|done|].
        by eapply books_used_normal.
    + rewrite E1, E2. by eapply holds_delete.
    + rewrite E1. intros y n0 [_ Ey]%lookup_delete_Some. by apply (mo_status _ _ Hok).
Qed.

Lemma purge_reserved timeStamp :
  node_type n = kReserved ->
  exists s', purge goals timeStamp x s = Some (1, s') /\ meta_ok s' /\ md_nodes s' = delete x (md_nodes s) /\
    reserved (md_detached s') = delete x (reserved (md_detached s)) /\ trash (md_detached s') = trash (md_detached s).
Proof.
  intros Ht. assert (where_of n = Some (inr x)) as Hw by (unfold where_of; by rewrite Ht, node_number).
  destruct (holds_split _ _ x n (inr x) (tree_ids _ _ (mo_tree _ _ Hok)) (mo_detached _ _ Hok) Hn Hw) as (h & i & L & K & HL).
  pose proof (keeps_removeReservedEntry _ _ _ _ _ K) as K'.
  unfold purge. rewrite Hn. cbn [mbind option_bind]. rewrite Ht.
  destruct (file_type_data n node_typed (where_is_file n ltac:(eauto))) as (len & ses & ch & Ed). unfold file_of. rewrite Ed.
  cbn [mbind option_bind]. rewrite node_number.
  destruct (remove_detached timeStamp (bumps [(CReserved, -1); (CReservedSpace, - len)] (md_counters s)) _ L ltac:(eauto) K' HL)
    as (s' & E & H1 & H2 & H3).
  - intros k. rewrite counter_bumps by (eapply counts_normal, mo_books, Hok). f_equal.
    unfold weight, of_type, length_of. rewrite Ht, Ed. destruct k; simpl; lia.
  - exists s'. split; [|split; [done|split; [done|]]].
    + unfold count, set_detached, put_node, set_nodes. cbn [md_nodes md_counters md_detached md_acls md_quota md_calls md_version].
      unfold put_node, set_nodes, bumps in E. cbn [foldr md_nodes md_counters md_detached md_acls md_quota md_calls md_version] in E.
      rewrite E. done.
    + rewrite H3. destruct (keeps_lookup_reserved _ _ _ _ _ K) as [E1 E2]. unfold removeReservedEntry. by rewrite E1, E2.
Qed.

Lemma trash_where : node_type n = kTrash -> where_of n = Some (inl (key_of n)).
Proof. intros Ht. unfold where_of. by rewrite Ht. Qed.

Lemma status_retype type :
  is_Some (where_of n) -> is_Some (where_of (with_type n type)) ->
  (type = kReserved -> exists len sessionIds chunks, file_of n = Some (len, sessionIds, chunks) /\ sessionIds <> []) ->
  status_ok x (with_type n type).
Proof. intros Hw Hw' Ho. destruct (detached_loose Hw) as [Hp Hr]. split; try done. Qed.

(** A file in the trash that is open becomes a reserved file. *)
Lemma purge_open timeStamp len sessionIds chunks :
  node_type n = kTrash -> file_of n = Some (len, sessionIds, chunks) -> sessionIds <> [] ->
  exists s', purge goals timeStamp x s = Some (0, s') /\ meta_ok s' /\
    md_nodes s' = <[x := with_type n kReserved]> (md_nodes s) /\
    trash (md_detached s') = delete (key_of n) (trash (md_detached s)).
Proof.
  intros Ht Hf Hses. pose proof (trash_where Ht) as Hw. pose proof (where_is_file n ltac:(eauto)) as Hfile.
  destruct (holds_split _ _ x n _ (tree_ids _ _ (mo_tree _ _ Hok)) (mo_detached _ _ Hok) Hn Hw) as (h & i & L & K & HL).
  unfold purge. rewrite Hn. cbn [mbind option_bind]. rewrite Ht, Hf. cbn [mbind option_bind].
  rewrite bool_decide_false by done. cbn [negb]. eexists. split; [done|]. set (n' := with_type n kReserved).
  assert (inr (node_id n) ∉ (where_ <$> L)) as Hfresh
    by (eapply (others_fresh (md_nodes s) x n'); [apply (tree_ids goals), Hok|apply node_number|done|done]).
  pose proof (keeps_moveTrashToReservedEntry _ (node_id n) (node_ctime n) (node_trashtime n) h i L K Hfresh) as K'.
  split; [|split; [done|]].
  - split; cbn [set_detached count put_node set_nodes md_nodes md_counters md_detached md_acls md_quota].
    + eapply put_tree; try done; [apply Hok|]. apply retype_typed; [exact node_typed|done|auto].
    + eapply put_consistent; [apply Hok|done|done].
    + eapply books_put; [apply Hok|done|..].
      * intros k. change (bump CReserved 1 _) with (bumps [(CReserved, 1); (CReservedSpace, len); (CTrash, -1); (CTrashSpace, -len)] (md_counters s)).
        rewrite counter_bumps by (eapply counts_normal, mo_books, Hok). f_equal. f_equal.
        unfold weight, of_type, length_of, is_file, n'. simpl. rewrite Ht. unfold file_of in Hf.
        destruct (node_data n); try done. injection Hf as -> -> ->. destruct k; simpl; lia.
      * intros t id r Hti. replace (charge t id r n') with (charge t id r n); [|].
        -- rewrite Z.sub_diag, Z.add_0_r. eapply books_used_normal; [apply Hok|done].
        -- unfold FsMetaInv.charge, is_file, n'. simpl. by rewrite Ht.
    + by eapply holds_put_cons.
    + eapply put_status; [apply Hok|]. apply status_retype; [by eexists|by eexists|]. intros _. by exists len, sessionIds, chunks.
  - simpl. destruct (keeps_lookup_trash _ _ _ _ _ K) as [E1 E2]. unfold moveTrashToReservedEntry. fold (key_of n). by rewrite E1, E2.
Qed.

Lemma purge_closed timeStamp len chunks :
  node_type n = kTrash -> file_of n = Some (len, [], chunks) ->
  exists s', purge goals timeStamp x s = Some (1, s') /\ meta_ok s' /\ md_nodes s' = delete x (md_nodes s) /\
    trash (md_detached s') = delete (key_of n) (trash (md_detached s)).
Proof.
  intros Ht Hf. pose proof (trash_where Ht) as Hw.
  destruct (holds_split _ _ x n _ (tree_ids _ _ (mo_tree _ _ Hok)) (mo_detached _ _ Hok) Hn Hw) as (h & i & L & K & HL).
  pose proof (keeps_removeTrashEntry _ (node_id n) (node_ctime n) (node_trashtime n) h i L K) as K'.
  unfold purge. rewrite Hn. cbn [mbind option_bind]. rewrite Ht, Hf. cbn [mbind option_bind].
  rewrite bool_decide_true by done. cbn [negb].
  destruct (remove_detached timeStamp (bumps [(CTrash, -1); (CTrashSpace, - len)] (md_counters s)) _ L ltac:(eauto) K' HL)
    as (s' & E & H1 & H2 & H3).
  - intros k. rewrite counter_bumps by (eapply counts_normal, mo_books, Hok). f_equal.
    unfold weight, of_type, length_of. rewrite Ht. unfold file_of in Hf. destruct (node_data n); try done.
    injection Hf as -> -> ->. destruct k; simpl; lia.
  - exists s'. split; [|split; [done|split; [done|]]].
    + unfold count, set_detached, put_node, set_nodes. cbn [md_nodes md_counters md_detached md_acls md_quota md_calls md_version].
      unfold put_node, set_nodes, bumps in E. cbn [foldr md_nodes md_counters md_detached md_acls md_quota md_calls md_version] in E.
      rewrite E. done.
    + rewrite H3. destruct (keeps_lookup_trash _ _ _ _ _ K) as [E1 E2]. unfold removeTrashEntry. fold (key_of n). by rewrite E1, E2.
Qed.

End purge.

(** ** A node that has lost its last name *)

Section loose.
Context (s : Metadata) (Htree : tree_ok goals root (md_nodes s)).
Context (Hacls : exists m, consistent (MkState (md_nodes s) (md_acls s)) m).
Context (Hbooks : books (md_counters s) (md_quota s) (md_nodes s)) (Hheld : holds (md_detached s) (md_nodes s)).
Context (x : Z) (n : FSNode) (Hn : md_nodes s !! x = Some n) (Hp : node_parents n = []) (Hroot : x <> root).
Context (Hwhere : where_of n = None).
Context (Hst : forall y m, y <> x -> md_nodes s !! y = Some m -> status_ok y m).

Lemma loose_typed : well_typed n.
Proof. by eapply tree_typed. Qed.

Lemma loose_id : node_id n = x.
Proof. by apply (tree_ids goals _ Htree). Qed.

Lemma loose_status n' : status_ok x n' -> forall y m, <[x := n']> (md_nodes s) !! y = Some m -> status_ok y m.
Proof.
  intros Hx y m. destruct (decide (y = x)) as [->|]; [rewrite lookup_insert_eq; by intros [= <-]|].
  rewrite lookup_insert_ne by done. by apply Hst.
Qed.

Lemma remove_loose timeStamp :
  (forall d, directory_of n = Some d -> entries d = []) ->
  exists s', removeNode goals timeStamp x s = Some s' /\ meta_ok s' /\ md_nodes s' = delete x (md_nodes s).
Proof.
  intros Hd. destruct Hacls as [m Hm].
  destruct (removeNode_runs goals s x n m timeStamp Hn Hp loose_typed Hm) as (s' & E & E1 & E2 & E3 & E4 & E5).
  { intros k. by eapply counts_normal. }
  exists s'. split; [done|]. split; [|done]. split.
  - rewrite E1. by eapply delete_tree.
  - done.
  - rewrite E1. eapply books_delete; [exact Hbooks|done|..].
    + intros k. rewrite E4. f_equal. unfold weight, of_type. unfold where_of in Hwhere.
      destruct k; simpl; try done; by destruct (node_type n).
    + intros t id r Ht. apply E5; [done|]. by eapply books_used_normal.
  - rewrite E1, E2. destruct (holds_others _ _ x n Hheld Hn Hwhere) as (L & K & HL). by eapply holds_delete.
  - rewrite E1. intros y n0 [Hne Ey]%lookup_delete_Some. by apply Hst.
Qed.

(** The file becomes a detached file. *)
Lemma detach_ok n' d c w h i L :
  node_id n' = node_id n -> node_goal n' = node_goal n -> node_data n' = node_data n -> node_parents n' = [] ->
  node_mode n' = node_mode n -> node_uid n' = node_uid n -> node_gid n' = node_gid n ->
  is_file n = true -> well_typed n' -> where_of n' = Some w -> keeps d (Trash.MkEntry w h i :: L) ->
  (forall w', w' ∈ (where_ <$> L) <-> others (md_nodes s) x w') ->
  (forall k, counter_of c k = wrap (count_width k) (counter_of (md_counters s) k + (weight k n' - weight k n))) ->
  (node_type n' = kReserved -> exists len sessionIds chunks, file_of n' = Some (len, sessionIds, chunks) /\ sessionIds <> []) ->
  meta_ok (MkMeta (<[x := n']> (md_nodes s)) c d (md_acls s) (md_quota s) (md_calls s) (md_version s)).
Proof.
  intros E1 E2 E3 E4 E5 E6 E7 Hf Hty Hw K HL Hc Ho. split; simpl.
  - eapply (put_tree _ x n); try done. congruence.
  - eapply put_consistent; [done|done|]. split; [done|by rewrite E5].
  - eapply books_put; [done|done|done|]. intros t id r Ht. replace (charge t id r n') with (charge t id r n).
    + rewrite Z.sub_diag, Z.add_0_r. by eapply books_used_normal.
    + unfold FsMetaInv.charge. rewrite E6, E7, Hf, (where_is_file n') by eauto. unfold getSize, getStats, node_stats. by rewrite E3, E2.
  - by eapply holds_put_cons.
  - apply loose_status. split; [by intros _; rewrite Hw|done|done].
Qed.

Lemma to_trash timeStamp len sessionIds chunks path :
  node_type n = kFile -> file_of n = Some (len, sessionIds, chunks) -> counter (md_detached s) < kMaxIdForTrashOrReservedName ->
  let n' := with_ctime (with_type n kTrash) timeStamp in
  exists d, addTrashEntry (md_detached s) (node_id n') (node_ctime n') (node_trashtime n') path = Some d /\
    meta_ok (count CTrash 1 (count CTrashSpace len (set_detached (put_node x n' s) d))) /\
    path_of <$> trash d !! key_of n' = Some path.
Proof.
  intros Ht Hf Hmax n'. destruct (holds_others _ _ x n Hheld Hn Hwhere) as (L & K & HL).
  assert (where_of n' = Some (inl (key_of n'))) as Hw by done.
  pose proof (others_fresh (md_nodes s) x n' _ L (tree_ids _ _ Htree) loose_id Hw HL) as Hfresh.
  destruct (keeps_addTrashEntry _ L (node_id n') (node_ctime n') (node_trashtime n') path K Hfresh Hmax) as (d & E & K').
  exists d. split; [done|]. split.
  - eapply (detach_ok n' d (bumps [(CTrash, 1); (CTrashSpace, len)] (md_counters s))); try done.
    + unfold is_file. by rewrite Ht.
    + unfold well_typed, n'. simpl. unfold file_of in Hf. by destruct (node_data n).
    + intros k. rewrite counter_bumps by by eapply counts_normal. f_equal. f_equal. unfold weight, of_type, length_of, is_file, n'. simpl. rewrite Ht.
      unfold file_of in Hf. destruct (node_data n); try done. injection Hf as -> -> ->. destruct k; simpl; lia.
  - destruct (keeps_lookup_trash _ _ _ _ _ K') as [E1 _]. unfold key_of. by rewrite E1.
Qed.

Lemma to_reserved len sessionIds chunks path :
  node_type n = kFile -> file_of n = Some (len, sessionIds, chunks) -> sessionIds <> [] ->
  counter (md_detached s) < kMaxIdForTrashOrReservedName ->
  let n' := with_type n kReserved in
  exists d, addReservedEntry (md_detached s) (node_id n') path = Some d /\
    meta_ok (count CReserved 1 (count CReservedSpace len (set_detached (put_node x n' s) d))).
Proof.
  intros Ht Hf Hses Hmax n'. destruct (holds_others _ _ x n Hheld Hn Hwhere) as (L & K & HL).
  assert (where_of n' = Some (inr (node_id n'))) as Hw by done.
  pose proof (others_fresh (md_nodes s) x n' _ L (tree_ids _ _ Htree) loose_id Hw HL) as Hfresh.
  destruct (keeps_addReservedEntry _ L (node_id n') path K Hfresh Hmax) as (d & E & K').
  exists d. split; [done|]. eapply (detach_ok n' d (bumps [(CReserved, 1); (CReservedSpace, len)] (md_counters s))); try done.
  - unfold is_file. by rewrite Ht.
  - unfold well_typed, n'. simpl. unfold file_of in Hf. by destruct (node_data n).
  - intros k. rewrite counter_bumps by by eapply counts_normal. f_equal. f_equal. unfold weight, of_type, length_of, is_file, n'. simpl. rewrite Ht.
    unfold file_of in Hf. destruct (node_data n); try done. injection Hf as -> -> ->. destruct k; simpl; lia.
  - intros _. by exists len, sessionIds, chunks.
Qed.

End loose.

(** ** unlink() *)

(** The names on the way up from a node, for the chain of directories above it. *)
Definition name_in (nodes : nodes_t) (p c : Z) : name_t :=
  match nodes !! c with Some n => getChildName p n | None => [] end.

Fixpoint child_names (nodes : nodes_t) (c : Z) (l : list Z) : list name_t :=
  match l with [] => [] | p :: l => name_in nodes p c :: child_names nodes p l end.

Lemma names_up_chain nodes l : forall fuel parent child,
  tree_ok goals root nodes -> chain nodes parent l -> (length l <= fuel)%nat -> is_Some (nodes !! child) ->
  names_up nodes fuel parent child = Some (child_names nodes child l).
Proof.
  intros fuel parent child Hok H. revert fuel child.
  induction H as [p E|p q name l E H IH]; intros fuel child Hlen [cn Hc]; destruct fuel as [|fuel]; simpl in Hlen; try lia;
    cbn [names_up child_names]; unfold name_in at 1; unfold dir_parents in E; destruct (nodes !! p) as [pn|] eqn:Ep; try done;
    simpl in E; cbn [mbind option_bind]; destruct (directory_of pn) as [d|] eqn:Ed; try done; simpl in E; injection E as E;
    cbn [mbind option_bind]; rewrite Hc; cbn [mbind option_bind]; rewrite E.
  - by destruct (p =? root).
  - destruct (Z.eqb_spec p root) as [->|].
    + destruct (to_root _ _ _ _ Hok) as (r & Er & _ & Hr). congruence.
    + rewrite IH; [done|lia|by eexists].
Qed.

(** Nodes that keep everything but the contents of directories. *)
Definition survives (nodes nodes' : nodes_t) (y : Z) : Prop :=
  forall n, nodes !! y = Some n -> exists n' dirf, nodes' !! y = Some n' /\ node_change id dirf n n'.

Lemma survives_par nodes nodes' par dirf y :
  related nodes nodes' par dirf -> (forall ps, par y ps = ps) -> survives nodes nodes' y.
Proof.
  intros R Hy n En. destruct (related_Some _ _ _ _ _ _ R En) as (n' & E' & Hch). exists n', (dirf y). split; [done|].
  eapply change_ext; [|done|exact Hch]. done.
Qed.

(** The status of nodes whose edges change. *)
Lemma related_status nodes nodes' par dirf x :
  related nodes nodes' par dirf -> (forall y ps, y <> x -> par y ps = ps) ->
  (forall y n, nodes !! y = Some n -> status_ok y n) -> forall y n, y <> x -> nodes' !! y = Some n -> status_ok y n.
Proof.
  intros R Hpar Hst y n' Hne E. destruct (related_back _ _ _ _ _ _ R E) as (n & En & Hch).
  destruct (Hst y n En) as [S1 S2 S3]. split.
  - intros Hr. rewrite (ch_parents _ _ _ _ Hch), Hpar, (change_where _ _ _ _ Hch) by done. by apply S1.
  - intros Hr. rewrite (change_where _ _ _ _ Hch). by apply S2.
  - rewrite (ch_type _ _ _ _ Hch), (change_file_of _ _ _ _ Hch). apply S3.
Qed.

(** A state whose nodes changed in edges only, apart from the status of one node. *)
Lemma similar_rest s nodes' :
  meta_ok s -> similar (md_nodes s) nodes' ->
  (exists m, consistent (MkState nodes' (md_acls s)) m) /\ books (md_counters s) (md_quota s) nodes' /\ holds (md_detached s) nodes'.
Proof.
  intros Hok Hs. split; [destruct (mo_acls _ _ Hok) as [m Hm]; exists m; by eapply similar_consistent|]. split.
  - apply (similar_books goals _ _ Hs); [|apply Hok]. intros x n. eapply tree_typed, Hok.
  - eapply similar_holds; [exact Hs|apply Hok].
Qed.

(** What is left when a name is removed: the other edges, and the other nodes with their parents. *)
Definition unlinked (nodes nodes' : nodes_t) (parent : Z) (name : name_t) (child : Z) : Prop :=
  (forall p nm c, edge nodes' p nm c <-> edge nodes p nm c /\ (p, nm) <> (parent, name)) /\
  (forall y, y <> child -> survives nodes nodes' y).

Lemma removeEdge_rest nodes parent child name cn timeStamp :
  tree_ok goals root nodes -> edge nodes parent name child -> nodes !! child = Some cn -> node_type cn <> kTrash ->
  exists nodes1 cn1 dirf, removeEdge goals root timeStamp parent name child nodes = Some nodes1 /\
    tree_ok goals root nodes1 /\ similar nodes nodes1 /\ unlinked nodes nodes1 parent name child /\
    nodes1 !! child = Some cn1 /\ node_change (erase_first (is_parent parent name)) dirf cn cn1 /\
    (forall d, entries (dirf d) = entries d) /\
    ((forall y n, nodes !! y = Some n -> status_ok y n) -> forall y n, y <> child -> nodes1 !! y = Some n -> status_ok y n).
Proof.
  intros Ht (pn & pd & Ep & Ed & Hin) Hcn Htr.
  destruct (removeEdge_tree goals root _ _ timeStamp parent child name pn pd cn Ht Ep Ed Hin Hcn Htr) as (nodes1 & l & Hl & E & R & T).
  destruct (related_Some _ _ _ _ _ _ R Hcn) as (cn1 & Ecn1 & Hch).
  eapply (change_ext _ _ (erase_first (is_parent parent name)) _) in Hch; [|intros ps; unfold remove_par, just; by rewrite decide_True|done].
  assert (forall y ps, y <> child -> remove_par parent child name y ps = ps) as Hpar
    by (intros y ps Hy; unfold remove_par, just; by rewrite decide_False).
  exists nodes1, cn1, (remove_dir parent child name (is_dir cn) l (getStats goals cn) child).
  split; [done|]. split; [done|]. split; [by eexists _, _|]. split.
  { split.
    - intros p nm c. by eapply removed_edges.
    - intros y Hy. eapply survives_par; [exact R|]. intros ps. by apply Hpar. }
  split; [done|]. split; [done|]. split; [|by eapply related_status].
  assert (parent <> child) as Hne.
  { intros ->. pose proof (chain_not_entry goals root _ _ _ _ _ _ _ _ Ht Hl Ep Ed Hin) as Hnot.
    destruct (chain_head _ _ _ Hl) as [? ->]. set_solver. }
  intros d. unfold remove_dir, on_chain, just. destruct (decide (child = parent)); [done|]. by destruct (decide _).
Qed.

Section unlink.
Context (s : Metadata) (Hok : meta_ok s) (parent child : Z) (name : name_t) (cn : FSNode).
Context (He : edge (md_nodes s) parent name child) (Hcn : md_nodes s !! child = Some cn).
Context (Hempty : forall d, directory_of cn = Some d -> entries d = []).
Context (Hmax : counter (md_detached s) < kMaxIdForTrashOrReservedName).

Lemma linked_where : where_of cn = None.
Proof.
  pose proof (edge_not_root goals root _ _ _ _ _ (mo_tree _ _ Hok) He) as Hr.
  pose proof (mo_status _ _ Hok child cn Hcn) as [S1 _ _].
  destruct (where_of cn) as [w|] eqn:E; [|done]. exfalso.
  apply (edge_nonempty goals root _ _ _ _ _ _ (mo_tree _ _ Hok) Hcn He). apply S1; [done|]. by eexists.
Qed.

Lemma linked_not_trash : node_type cn <> kTrash.
Proof. intros E. pose proof linked_where as H. unfold where_of in H. by rewrite E in H. Qed.

Lemma getPath_runs : exists path, getPath (md_nodes s) parent child = Some path.
Proof.
  destruct He as (pn & pd & Ep & Ed & _). destruct (tree_chain _ _ _ _ _ _ (mo_tree _ _ Hok) Ep ltac:(eauto)) as [l Hl].
  unfold getPath. rewrite (names_up_chain _ l); [by eexists|apply Hok|done| |by eexists].
  apply chain_length in Hl. unfold stats_fuel. lia.
Qed.

Notation removed nodes' := (unlinked (md_nodes s) nodes' parent name child).

Lemma unlinked_put nodes1 n1 n' :
  removed nodes1 -> nodes1 !! child = Some n1 -> directory_of n' = directory_of n1 -> removed (<[child := n']> nodes1).
Proof.
  intros [U1 U2] E Hd. split.
  - intros p nm c. rewrite (put_edges _ _ n1) by done. apply U1.
  - intros y Hy n En. destruct (U2 y Hy n En) as (m & f & Em & Hch). exists m, f. by rewrite lookup_insert_ne.
Qed.

Lemma unlinked_delete nodes1 n1 :
  removed nodes1 -> nodes1 !! child = Some n1 -> (forall d, directory_of n1 = Some d -> entries d = []) -> removed (delete child nodes1).
Proof.
  intros [U1 U2] E Hd. split.
  - intros p nm c. rewrite (delete_edges _ _ n1) by done. apply U1.
  - intros y Hy n En. destruct (U2 y Hy n En) as (m & f & Em & Hch). exists m, f. by rewrite lookup_delete_ne.
Qed.

(** The path that unlink() remembers. *)
Definition wants_path : bool := bool_decide (length (node_parents cn) = 1%nat) && bool_decide (node_type cn = kFile).

Lemma unlink_path :
  exists path, (if wants_path then '(_, sessionIds, _) ← file_of cn;
      if (0 <? node_trashtime cn) || negb (bool_decide (sessionIds = [])) then getPath (md_nodes s) parent child else Some []
    else Some []) = Some path.
Proof.
  unfold wants_path. destruct (bool_decide _) eqn:E1; [|by eexists]. cbn [andb]. destruct (bool_decide (node_type cn = kFile)) eqn:E2; [|by eexists].
  apply bool_decide_eq_true in E2. pose proof (tree_typed _ _ _ _ (mo_tree _ _ Hok) Hcn) as Hty.
  destruct (file_type_data cn Hty) as (len & ses & ch & Ed); [unfold is_file; by rewrite E2|]. unfold file_of. rewrite Ed. cbn [mbind option_bind].
  destruct (_ || _); [apply getPath_runs|by eexists].
Qed.

Lemma unlink_ok timeStamp :
  exists s', unlink goals timeStamp parent name child s = Some s' /\ meta_ok s' /\ removed (md_nodes s').
Proof.
  destruct (removeEdge_rest _ _ _ _ _ timeStamp (mo_tree _ _ Hok) He Hcn linked_not_trash) as (nodes1 & cn1 & dirf & E & T & Hsim & U & Ecn1 & Hch & Hdf & Hst).
  specialize (Hst (mo_status _ _ Hok)).
  assert (forall d, directory_of cn1 = Some d -> entries d = []) as Hd.
  { intros d. rewrite (change_dir_of _ _ _ _ Hch). destruct (directory_of cn) as [d0|] eqn:E0; [|done]. intros [= <-].
    rewrite Hdf. by apply Hempty. }
  destruct unlink_path as [path Epath]. unfold wants_path in Epath. destruct (similar_rest s nodes1 Hok Hsim) as (Ha & Hb & Hh).
  pose proof linked_where as Hw. rewrite <-(change_where _ _ _ _ Hch) in Hw.
  unfold unlink. rewrite Hcn. cbn [mbind option_bind]. rewrite Epath. cbn [mbind option_bind].
  rewrite E. cbn [mbind option_bind]. set (s1 := set_nodes s nodes1). change (md_nodes s1) with nodes1. rewrite Ecn1.
  cbn [mbind option_bind].
  assert (child <> root) as Hr by (eapply (edge_not_root goals root); [apply Hok|exact He]).
  destruct (bool_decide (node_parents cn1 = [])) eqn:Ep; cbn [negb].
  2: { apply bool_decide_eq_false in Ep. exists s1. split; [done|]. split; [|done]. split; try done. intros y n Ey.
       destruct (decide (y = child)) as [->|]; [|by apply (Hst y)]. simpl in Ey. rewrite Ecn1 in Ey. injection Ey as <-.
       split; [|done|]. { intros _. rewrite Hw. split; [done|by intros [? ?]]. }
       intros Et. unfold where_of in Hw. by rewrite Et in Hw. }
  apply bool_decide_eq_true in Ep.
  assert (exists s', removeNode goals timeStamp child s1 = Some s' /\ meta_ok s' /\ removed (md_nodes s')) as Hrem.
  { destruct (remove_loose s1 T Ha Hb Hh child cn1 Ecn1 Ep Hr Hw Hst timeStamp Hd) as (s' & E' & H' & En').
    exists s'. split; [done|]. split; [done|]. rewrite En'. by eapply unlinked_delete. }
  destruct (bool_decide (node_type cn1 = kFile)) eqn:Et; [|done]. apply bool_decide_eq_true in Et.
  destruct (file_type_data cn1) as (len & ses & ch & Edata); [eapply tree_typed; [exact T|done]|unfold is_file; by rewrite Et|].
  assert (file_of cn1 = Some (len, ses, ch)) as Ef by (unfold file_of; by rewrite Edata). rewrite Ef. cbn [mbind option_bind].
  destruct (0 <? node_trashtime cn1).
  - destruct (to_trash s1 T Ha Hb Hh child cn1 Ecn1 Ep Hr Hw Hst timeStamp len ses ch path Et Ef Hmax) as (d & Ed & H' & _).
    rewrite Ed. cbn [mbind option_bind]. eexists. split; [done|]. split; [exact H'|].
    simpl. by eapply unlinked_put.
  - destruct (bool_decide (ses = [])) eqn:Es; cbn [negb]; [done|]. apply bool_decide_eq_false in Es.
    destruct (to_reserved s1 T Ha Hb Hh child cn1 Ecn1 Ep Hr Hw Hst len ses ch path Et Ef Es Hmax) as (d & Ed & H').
    change (node_id (with_type cn1 kReserved)) with (node_id cn1) in Ed. rewrite Ed. cbn [mbind option_bind].
    eexists. split; [done|]. split; [exact H'|]. simpl. by eapply unlinked_put.
Qed.

End unlink.

(** ** Edges of the metadata *)

Definition linked (nodes nodes' : nodes_t) (parent : Z) (name : name_t) (child : Z) : Prop :=
  (forall p nm c, edge nodes' p nm c <-> edge nodes p nm c \/ (p, nm, c) = (parent, name, child)) /\
  (forall y, y <> child -> survives nodes nodes' y) /\
  (forall n, nodes !! child = Some n -> exists n' dirf, nodes' !! child = Some n' /\
     node_change (fun ps => ps ++ [(parent, name)]) dirf n n').

(** A node, detached or new no longer, gets a name; everything but its status is as the invariant says. *)
Lemma link_rest nodes parent child name pn cn timeStamp :
  tree_ok goals root nodes -> nodes !! parent = Some pn -> is_Some (directory_of pn) -> nodes !! child = Some cn ->
  node_type cn <> kTrash -> isNameUsed nodes parent name = false -> child <> root ->
  climbs_to nodes child (stats_fuel nodes) parent = Some false -> (is_dir cn = true -> node_parents cn = []) ->
  exists nodes', link goals root timeStamp parent child name nodes = Some nodes' /\ tree_ok goals root nodes' /\
    similar nodes nodes' /\ linked nodes nodes' parent name child /\
    ((forall y n, y <> child -> nodes !! y = Some n -> status_ok y n) -> forall y n, y <> child -> nodes' !! y = Some n -> status_ok y n).
Proof.
  intros Ht Ep Hd Ec H1 H2 H3 H4 H5. pose proof Hd as [pd Ed].
  destruct (link_tree goals root _ _ timeStamp parent child name pn cn Ht Ep Hd Ec H1 H2 H3 H4 H5) as (nodes' & l & Hl & E & R & T).
  assert (forall y ps, y <> child -> link_par parent child name y ps = ps) as Hpar
    by (intros y ps Hy; unfold link_par, just; by rewrite decide_False).
  exists nodes'. split; [done|]. split; [done|]. split; [by eexists _, _|]. split.
  - split; [intros p nm c; by eapply linked_edges|]. split.
    + intros y Hy. eapply survives_par; [exact R|]. intros ps. by apply Hpar.
    + intros n En. destruct (related_Some _ _ _ _ _ _ R En) as (n' & E' & Hch). eexists n', _. split; [done|].
      eapply change_ext; [|done|exact Hch]. intros ps. unfold link_par, just. by rewrite decide_True.
  - intros Hst y n' Hne Ey. destruct (related_back _ _ _ _ _ _ R Ey) as (n & En & Hch).
    destruct (Hst y n Hne En) as [S1 S2 S3]. split.
    + intros Hr. rewrite (ch_parents _ _ _ _ Hch), Hpar, (change_where _ _ _ _ Hch) by done. by apply S1.
    + intros Hr. rewrite (change_where _ _ _ _ Hch). by apply S2.
    + rewrite (ch_type _ _ _ _ Hch), (change_file_of _ _ _ _ Hch). apply S3.
Qed.

(** ** createNode() *)

Definition creatable (type : FSNodeType) : bool := match type with kTrash | kReserved | kUnknown => false | _ => true end.

Lemma inherit_permissions_mode parent n acl mode umask st n' st' :
  inherit_permissions parent n acl mode umask st = Some (n', st') -> exists mode', n' = set_mode n mode'.
Proof.
  unfold inherit_permissions. destruct acl as [a|]; [|intros [= <- _]; by eexists].
  destruct (inheritInode _ _ _ _) as [m' found]. destruct (match found with Some acl => _ | None => _ end); [|done].
  simpl. intros [= <- _]. by eexists.
Qed.

Section create.
Context (s : Metadata) (Hok : meta_ok s) (parent inode : Z) (name : name_t) (type : FSNodeType) (pn : FSNode).
Context (Hp : md_nodes s !! parent = Some pn) (Hd : is_Some (directory_of pn)).
Context (Hfree : isNameUsed (md_nodes s) parent name = false) (Hnew : md_nodes s !! inode = None) (Huint : is_uint 32 inode).
Context (Htype : creatable type = true).

Lemma owned_fields uid gid copysgid n :
  exists mode uid' gid', owned pn uid gid copysgid n = with_owner (set_mode n mode) uid' gid' /\
    Z.land (u16 mode) kStandardPermissions = Z.land (node_mode n) kStandardPermissions \/
    owned pn uid gid copysgid n = with_owner n uid' gid'.
Proof.
  unfold owned. destruct (has _ _); [|exists 0, uid, gid; by right]. destruct (copysgid && _); [|exists 0, uid, (node_gid pn); by right].
  exists (Z.lor (node_mode n) S_ISGID), uid, (node_gid pn). left. split; [by destruct n|]. rewrite permissions_u16.
  apply Z.bits_inj'. intros i Hi. rewrite !permissions_bit, Z.lor_spec by done. destruct (Z.ltb_spec i 9); [|by rewrite !andb_false_r].
  replace (Z.testbit S_ISGID i) with false; [by rewrite orb_false_r|]. unfold S_ISGID. change 1024 with (2 ^ 10). by rewrite Z.pow2_bits_false by lia.
Qed.

(** What the new node is, apart from its mode and its owners. *)
Record newborn (n : FSNode) : Prop := MkNewborn {
  nb_id : node_id n = inode;
  nb_type : node_type n = type;
  nb_data : create_data type = Some (node_data n);
  nb_parents : node_parents n = [];
}.

Lemma newborn_typed n : newborn n -> well_typed n.
Proof. intros [N1 N2 N3 N4]. unfold well_typed. by rewrite N2, N3. Qed.

Lemma newborn_loose n : newborn n -> loose inode n.
Proof.
  intros Hnb. pose proof (newborn_typed n Hnb) as Hty. destruct Hnb as [N1 N2 N3 N4]. split; try done.
  intros d. unfold directory_of. destruct type; simplify_eq/=; destruct (node_data n); simplify_eq/=; try done; by intros [= <-].
Qed.

Lemma newborn_consistent timeStamp mode umask uid gid copysgid inheritAcl data :
  create_data type = Some data ->
  exists parentAcl n0 acls n,
    (if inheritAcl : bool then AclStorage.get (md_acls s) parent else Some None) = Some parentAcl /\
    inherit_permissions pn (new_node pn timeStamp type inode data) parentAcl mode umask (md_acls s) = Some (n0, acls) /\
    n = owned pn uid gid copysgid n0 /\ newborn n /\ exists m, consistent (MkState (<[inode := n]> (md_nodes s)) acls) m.
Proof.
  intros Ed. destruct (mo_acls _ _ Hok) as [m Hm].
  assert (exists parentAcl, (if inheritAcl then AclStorage.get (md_acls s) parent else Some None) = Some parentAcl) as [parentAcl Ea].
  { destruct inheritAcl; [|by eexists]. rewrite (get_rep _ _ (con_rep _ _ Hm)). by eexists. }
  destruct (inherit_permissions_ok _ m inode (new_node pn timeStamp type inode data) pn parentAcl mode umask Hm Hnew Huint eq_refl)
    as (n0 & acls & Ei & m' & Hm'). simpl in *.
  exists parentAcl, n0, acls, (owned pn uid gid copysgid n0). split; [done|]. split; [done|]. split; [done|].
  destruct (inherit_permissions_mode _ _ _ _ _ _ _ _ Ei) as [mode0 ->].
  destruct (owned_fields uid gid copysgid (set_mode (new_node pn timeStamp type inode data) mode0)) as (mode1 & u & g & Ho).
  split; [by destruct Ho as [[-> _]| ->]; split|].
  destruct (kept_ok _ m' Hm' inode _ (lookup_insert_eq _ _ _) (owned pn uid gid copysgid (set_mode (new_node pn timeStamp type inode data) mode0)))
    as [m2 Hm2]; [destruct Ho as [[-> Hk]| ->]; by split|]. exists m2. simpl in Hm2. by rewrite insert_insert_eq in Hm2.
Qed.

Lemma create_count k n :
  newborn n -> counter_of (md_counters (incrementNodeCounters type s)) k = wrap (count_width k) (counter_of (md_counters s) k + weight k n).
Proof.
  intros [N1 N2 N3 N4]. pose proof (counts_normal _ _ _ (mo_books _ _ Hok) k) as Hk.
  unfold incrementNodeCounters, weight, of_type, is_file. rewrite N2. unfold count. destruct type; try done;
    cbn [md_counters]; destruct (md_counters s); destruct k; simpl in *; rewrite ?Z.add_0_r; done.
Qed.

Lemma create_used t id r n s1 :
  newborn n -> t <> kInode -> md_quota s1 = md_quota s ->
  let s2 := nodeQuotaUpdate n [(kInodes, 1)] s1 in
  used_by (md_quota (if bool_decide (type = kFile) then nodeQuotaUpdate n [(kSize, getSize goals n)] s2 else s2)) t id r =
  u64 (used_by (md_quota s) t id r + charge t id r n).
Proof.
  intros [N1 N2 N3 N4] Ht Eq s2. pose proof (books_used_normal _ _ _ _ t id r (mo_books _ _ Hok) Ht) as Hn.
  assert (used_by (md_quota s2) t id r = u64 (used_by (md_quota s) t id r + (if owns t id (node_uid n) (node_gid n) then added r [(kInodes, 1)] else 0))) as E2
    by (unfold s2, nodeQuotaUpdate; cbn [set_quota md_quota]; rewrite Eq; by apply used_update_ug).
  assert (is_file n = bool_decide (type = kFile)) as Ef.
  { unfold is_file. rewrite N2. destruct type; try done; symmetry; (by apply bool_decide_true) || (by apply bool_decide_false). }
  unfold FsMetaInv.charge. rewrite Ef. destruct (bool_decide (type = kFile)).
  - unfold nodeQuotaUpdate at 1. cbn [set_quota md_quota]. rewrite used_update_ug; [|done|rewrite E2; unfold u64, wrap; by rewrite Zmod_mod].
    rewrite E2. destruct (owns _ _ _ _), r; simpl; wraps.
  - rewrite E2. destruct (owns _ _ _ _), r; simpl; wraps.
Qed.

Lemma new_not_on_chain n :
  newborn n -> climbs_to (<[inode := n]> (md_nodes s)) inode (stats_fuel (<[inode := n]> (md_nodes s))) parent = Some false.
Proof.
  intros Hnb. destruct (tree_chain _ _ _ _ _ _ (mo_tree _ _ Hok) Hp Hd) as [l Hl].
  assert (inode ∉ l) as Hnot by (intros Hin; destruct (chain_dom _ _ _ _ Hl Hin); congruence).
  rewrite (climbs_chain _ inode _ _ l).
  - by rewrite bool_decide_false.
  - eapply chain_ext; [|exact Hl]. intros y Hy. unfold dir_parents. rewrite lookup_insert_ne; [done|set_solver].
  - apply chain_length in Hl. unfold stats_fuel. rewrite map_size_insert_None by done. lia.
Qed.

(** The permissions of the new node. *)
Definition made (timeStamp mode umask uid gid : Z) (copysgid inheritAcl : bool) (n : FSNode) : Prop :=
  exists data parentAcl n0 acls, create_data type = Some data /\
    (if inheritAcl then AclStorage.get (md_acls s) parent else Some None) = Some parentAcl /\
    inherit_permissions pn (new_node pn timeStamp type inode data) parentAcl mode umask (md_acls s) = Some (n0, acls) /\
    n = owned pn uid gid copysgid n0.

(** A node that is not detached. *)
Lemma holds_new d nodes x n : holds d nodes -> nodes !! x = None -> where_of n = None -> holds d (<[x := n]> nodes).
Proof.
  intros (L & K & HL) Hx Hw. exists L. split; [done|]. intros w. rewrite HL. split.
  - intros (y & n1 & Ey & Hy). exists y, n1. split; [|done]. rewrite lookup_insert_ne; [done|congruence].
  - intros (y & n1 & Ey & Hy). destruct (decide (y = x)) as [->|].
    + rewrite lookup_insert_eq in Ey. congruence.
    + rewrite lookup_insert_ne in Ey by done. eauto.
Qed.

Lemma createNode_ok timeStamp mode umask uid gid copysgid inheritAcl :
  exists s' n, createNode goals timeStamp parent name type mode umask uid gid copysgid inheritAcl inode s = Some s' /\ meta_ok s' /\
    newborn n /\ linked (<[inode := n]> (md_nodes s)) (md_nodes s') parent name inode /\
    similar (<[inode := n]> (md_nodes s)) (md_nodes s') /\ made timeStamp mode umask uid gid copysgid inheritAcl n.
Proof.
  assert (exists data, create_data type = Some data) as [data Ed] by (destruct type; try done; by eexists).
  destruct (newborn_consistent timeStamp mode umask uid gid copysgid inheritAcl data Ed) as (pacl & n0 & acls & n & Ea & Ei & Eo & Hnb & m & Hm).
  pose proof (newborn_loose n Hnb) as Hl. pose proof (insert_tree _ _ _ inode n (mo_tree _ _ Hok) Hnew Hl) as Ht.
  assert (parent <> inode) as Hne by congruence.
  assert (inode <> root) as Hr by (intros ->; destruct (to_root _ _ _ _ (mo_tree _ _ Hok)) as (? & ? & _); congruence).
  assert (node_type n <> kTrash) as Htr by (rewrite (nb_type _ Hnb); by destruct type).
  destruct (link_rest (<[inode := n]> (md_nodes s)) parent inode name pn n timeStamp) as (nodes' & E & T & Hsim & Hlk & Hst); try done.
  { by rewrite lookup_insert_ne. } { by rewrite lookup_insert_eq. }
  { apply (name_used goals root _ _ _ _ Ht). intros c He. rewrite (insert_edges _ _ n) in He; [|done|intros d Hdd; by apply (lo_dir _ _ Hl)].
    by apply (name_used goals root _ _ _ _ (mo_tree _ _ Hok)) with (c := c) in Hfree. }
  { by apply new_not_on_chain. } { intros _. apply Hnb. }
  assert (md_nodes (incrementNodeCounters type s) = md_nodes s /\ md_acls (incrementNodeCounters type s) = md_acls s /\
    md_quota (incrementNodeCounters type s) = md_quota s /\ md_detached (incrementNodeCounters type s) = md_detached s) as (I1 & I2 & I3 & I4)
    by (unfold incrementNodeCounters; by destruct type).
  unfold createNode. rewrite bool_decide_false by (by destruct type). rewrite Ed. cbn [mbind option_bind]. rewrite I1, I2, Hp.
  cbn [mbind option_bind]. rewrite Ea. cbn [mbind option_bind]. rewrite Ei. cbn [mbind option_bind]. rewrite Hnew, <-Eo.
  cbn [put_node set_nodes set_acls md_nodes]. rewrite I1, E. cbn [mbind option_bind]. eexists _, n. split; [done|].
  set (s1 := set_nodes _ nodes'). set (s2 := nodeQuotaUpdate n [(kInodes, 1)] s1). set (s3 := if bool_decide _ then _ else s2).
  assert (md_nodes s3 = nodes' /\ md_acls s3 = acls /\ md_detached s3 = md_detached s /\
    md_counters s3 = md_counters (incrementNodeCounters type s)) as (J1 & J2 & J3 & J4)
    by (unfold s3; destruct (bool_decide _); simpl; by rewrite ?I4).
  assert (forall x0 n1, <[inode := n]> (md_nodes s) !! x0 = Some n1 -> well_typed n1) as Hty
    by (intros x0 n1; by eapply tree_typed).
  split; [|split; [done|rewrite J1; split; [done|split; [done|by exists data, pacl, n0, acls]]]]. split.
  - by rewrite J1.
  - rewrite J1, J2. exists m. by eapply similar_consistent.
  - rewrite J1. apply (similar_books goals _ _ Hsim); [done|]. eapply books_step; [apply (mo_books _ _ Hok)|..].
    + intros k. exists (weight k n). rewrite J4, (create_count k n Hnb), total_insert by done. split; [done|lia].
    + intros t id r Hti. exists (charge t id r n). rewrite total_insert by done. split; [|lia]. by apply create_used.
  - rewrite J1, J3. eapply similar_holds; [exact Hsim|]. apply holds_new; [apply Hok|done|]. unfold where_of. rewrite (nb_type _ Hnb). by destruct type.
  - rewrite J1. intros y n1 Ey. destruct (decide (y = inode)) as [->|Hy].
    + destruct Hlk as (_ & _ & Hc). destruct (Hc n (lookup_insert_eq _ _ _)) as (n2 & f & E2 & Hch). assert (n2 = n1) as -> by congruence.
      assert (where_of n1 = None) as Hw by (rewrite (change_where _ _ _ _ Hch); unfold where_of; rewrite (nb_type _ Hnb); by destruct type).
      split; [|done|].
      * intros _. rewrite Hw, (ch_parents _ _ _ _ Hch). split; [|by intros [? ?]]. intros E3. by apply app_nil in E3 as [_ ?].
      * intros Et. unfold where_of in Hw. by rewrite Et in Hw.
    + apply (Hst ltac:(intros y0 n3 Hy0; rewrite lookup_insert_ne by done; apply Hok) y n1 Hy Ey).
Qed.

End create.

(** ** Moves and hard links *)

Lemma survives_dir nodes nodes' x ps : survives nodes nodes' x -> dir_parents nodes x = Some ps -> dir_parents nodes' x = Some ps.
Proof.
  intros Hs E. unfold dir_parents in *. destruct (nodes !! x) as [n|] eqn:En; [|done]. destruct (Hs n En) as (n' & f & E' & Hch).
  rewrite E'. simpl in *. rewrite (change_dir_of _ _ _ _ Hch), (ch_parents _ _ _ _ Hch). by destruct (directory_of n).
Qed.

Lemma survives_chain nodes nodes' p l : chain nodes p l -> (forall x, x ∈ l -> survives nodes nodes' x) -> chain nodes' p l.
Proof.
  induction 1 as [p E|p q name l E H IH]; intros Hs.
  - apply chain_end. eapply survives_dir; [|exact E]. apply Hs. set_solver.
  - eapply chain_up; [eapply survives_dir; [|exact E]; apply Hs; set_solver|]. apply IH. intros x Hx. apply Hs. set_solver.
Qed.

Lemma survives_is_dir nodes nodes' p pn :
  survives nodes nodes' p -> nodes !! p = Some pn -> is_Some (directory_of pn) ->
  exists pn', nodes' !! p = Some pn' /\ is_Some (directory_of pn').
Proof.
  intros Hs Ep [d Ed]. destruct (Hs pn Ep) as (n' & f & E' & Hch). exists n'. split; [done|].
  rewrite (change_dir_of _ _ _ _ Hch), Ed. by eexists.
Qed.

(** A node that gets a name has the status that it should have. *)
Lemma named_status x n : where_of n = None -> node_parents n <> [] -> status_ok x n.
Proof.
  intros Hw Hp. split; [|done|].
  - intros _. rewrite Hw. split; [done|by intros [? ?]].
  - intros Ht. unfold where_of in Hw. by rewrite Ht in Hw.
Qed.

(** A state whose edges changed, apart from the status of a node that has a name. *)
Lemma similar_ok s nodes' x :
  meta_ok s -> similar (md_nodes s) nodes' -> tree_ok goals root nodes' ->
  (forall y n, y <> x -> nodes' !! y = Some n -> status_ok y n) -> (forall n, nodes' !! x = Some n -> status_ok x n) ->
  meta_ok (set_nodes s nodes').
Proof.
  intros Hok Hsim T Hst Hx. destruct (similar_rest s nodes' Hok Hsim) as (Ha & Hb & Hh). split; simpl; try done.
  intros y n Ey. destruct (decide (y = x)) as [->|]; [by apply Hx|by apply (Hst y)].
Qed.

Section move.
Context (s : Metadata) (Hok : meta_ok s) (src dst child : Z) (name_src name_dst : name_t) (dn cn : FSNode) (l : list Z).
Context (He : edge (md_nodes s) src name_src child) (Hcn : md_nodes s !! child = Some cn).
Context (Hdn : md_nodes s !! dst = Some dn) (Hdd : is_Some (directory_of dn)).
Context (Hfree : forall c, ~ edge (md_nodes s) dst name_dst c) (Hl : chain (md_nodes s) dst l) (Hnot : child ∉ l).

Lemma move_ok timeStamp :
  exists nodes1 nodes2, removeEdge goals root timeStamp src name_src child (md_nodes s) = Some nodes1 /\
    link goals root timeStamp dst child name_dst nodes1 = Some nodes2 /\ meta_ok (set_nodes s nodes2) /\
    forall p nm c, edge nodes2 p nm c <->
      (edge (md_nodes s) p nm c /\ (p, nm) <> (src, name_src)) \/ (p, nm, c) = (dst, name_dst, child).
Proof.
  pose proof (mo_tree _ _ Hok) as Ht. pose proof (linked_where s Hok src child name_src cn He Hcn) as Hw.
  pose proof (linked_not_trash s Hok src child name_src cn He Hcn) as Htr.
  destruct (removeEdge_rest _ _ _ _ _ timeStamp Ht He Hcn Htr) as (nodes1 & cn1 & dirf & E & T & Hsim & [U1 U2] & Ecn1 & Hch & Hdf & Hst).
  assert (forall x, x ∈ l -> survives (md_nodes s) nodes1 x) as Hsl by (intros x Hx; apply U2; set_solver).
  pose proof (survives_chain _ _ _ _ Hl Hsl) as Hl1.
  assert (dst ∈ l) as Hdl by (destruct (chain_head _ _ _ Hl) as [? ->]; set_solver).
  destruct (survives_is_dir _ _ dst dn (Hsl dst Hdl) Hdn Hdd) as (dn1 & Edn1 & Hdd1).
  destruct (link_rest nodes1 dst child name_dst dn1 cn1 timeStamp) as (nodes2 & E2 & T2 & Hsim2 & (L1 & L2 & L3) & Hst2); try done.
  - by rewrite (ch_type _ _ _ _ Hch).
  - apply (name_used goals root _ _ _ _ T). intros c [Hc _]%U1. by apply (Hfree c).
  - exact (edge_not_root goals root _ _ _ _ _ Ht He).
  - rewrite (climbs_chain _ _ _ _ _ Hl1); [by rewrite bool_decide_false|]. apply chain_length in Hl1. unfold stats_fuel. lia.
  - intros Hd. rewrite (ch_parents _ _ _ _ Hch).
    assert (is_Some (directory_of cn)) as Hdc.
    { pose proof (tree_typed goals _ _ _ Ht Hcn) as Hty. apply (well_typed_dir) in Hty. unfold is_dir in *. rewrite (ch_type _ _ _ _ Hch) in Hd.
      rewrite Hd in Hty. symmetry in Hty. by apply bool_decide_eq_true in Hty. }
    pose proof (no_single _ _ _ _ _ (to_nodes _ _ _ _ Ht child cn Hcn) Hdc) as Hlen.
    apply (edge_parents goals root _ _ _ _ _ _ Ht Hcn) in He. destruct (node_parents cn) as [|e [|e' ps]]; simpl in *; [set_solver| |lia].
    apply list_elem_of_singleton in He as <-. assert (is_parent src name_src (src, name_src) = true) as -> by by apply is_parent_true. done.
  - exists nodes1, nodes2. split; [done|]. split; [done|]. split.
    + apply (similar_ok s nodes2 child Hok); [|done|by apply Hst2; intros y n Hy; apply Hst; [apply Hok|]|].
      * destruct Hsim as (? & ? & R1), Hsim2 as (? & ? & R2). eexists _, _. by eapply related_compose.
      * intros n2 En2. destruct (L3 cn1 Ecn1) as (n' & f & En' & Hch'). assert (n' = n2) as -> by congruence. apply named_status.
        -- by rewrite (change_where _ _ _ _ Hch'), (change_where _ _ _ _ Hch).
        -- rewrite (ch_parents _ _ _ _ Hch'). by intros [_ ?]%app_nil.
    + intros p nm c. rewrite L1, U1. done.
Qed.

End move.

(** A hard link. *)
Lemma link_ok s parent child name pn cn timeStamp :
  meta_ok s -> md_nodes s !! parent = Some pn -> is_Some (directory_of pn) -> md_nodes s !! child = Some cn ->
  is_dir cn = false -> where_of cn = None -> isNameUsed (md_nodes s) parent name = false ->
  exists nodes', link goals root timeStamp parent child name (md_nodes s) = Some nodes' /\ meta_ok (set_nodes s nodes') /\
    forall p nm c, edge nodes' p nm c <-> edge (md_nodes s) p nm c \/ (p, nm, c) = (parent, name, child).
Proof.
  intros Hok Ep Hd Ec Hnd Hw Hfree. pose proof (mo_tree _ _ Hok) as Ht.
  assert (directory_of cn = None) as Hcd.
  { pose proof (tree_typed goals _ _ _ Ht Ec) as Hty. apply well_typed_dir in Hty. rewrite Hnd in Hty. symmetry in Hty.
    apply bool_decide_eq_false in Hty. by apply eq_None_not_Some. }
  destruct (link_rest (md_nodes s) parent child name pn cn timeStamp) as (nodes' & E & T & Hsim & (L1 & L2 & L3) & Hst); try done.
  - intros Et. unfold where_of in Hw. by rewrite Et in Hw.
  - intros ->. destruct (to_root _ _ _ _ Ht) as (r & Er & [d Hr] & _). congruence.
  - destruct (tree_chain _ _ _ _ _ _ Ht Ep Hd) as [l Hl]. rewrite (climbs_chain _ _ _ _ _ Hl) by (apply chain_length in Hl; unfold stats_fuel; lia).
    f_equal. apply bool_decide_false. intros Hin. destruct (chain_is_dir _ _ _ _ Hl Hin) as (m & Em & [d Hm]). congruence.
  - by rewrite Hnd.
  - exists nodes'. split; [done|]. split; [|done]. apply (similar_ok s nodes' child Hok Hsim T); [by apply Hst; intros; eapply mo_status|].
    intros n En. destruct (L3 cn Ec) as (n' & f & En' & Hch). assert (n' = n) as -> by congruence. apply named_status.
    + by rewrite (change_where _ _ _ _ Hch).
    + rewrite (ch_parents _ _ _ _ Hch). by intros [_ ?]%app_nil.
Qed.

End steps.
