(* ===== verification/FsMetaFields.v ===== *)
(** Changes of single nodes keep the invariant of the metadata: times, owners, lengths, open files, the target of a
    symbolic link, the return of a file from the trash. *)
From S2P Require Import Prelude Serialization RichACL AclMasks AclStorage Nodes FileSize NodeAcl Trash Quota.
From S2P Require Import FsTree FsTreeInv FsTreeNodes FsTreeEdges FsMeta FsMetaInv FsMetaSteps.

Section fields.
Context (goals : Z -> Goals.Goal).
Notation root := SPECIAL_INODE_ROOT.
Notation meta_ok := (meta_ok goals).
Notation charge := (charge goals).
Notation books := (books goals).

(** The books do not see a change that keeps the type, the owners and the size. *)
Lemma books_same c q nodes x n n' :
  books c q nodes -> nodes !! x = Some n -> node_type n' = node_type n -> node_uid n' = node_uid n ->
  node_gid n' = node_gid n -> length_of n' = length_of n -> getSize goals n' = getSize goals n -> books c q (<[x := n']> nodes).
Proof.
  intros B En E1 E2 E3 E4 E5. eapply books_put; [exact B|done|..].
  - intros k. replace (weight k n') with (weight k n) by (unfold weight, of_type, is_file; by rewrite E1, E4).
    rewrite Z.sub_diag. by eapply books_normal.
  - intros t id r Ht. replace (charge t id r n') with (charge t id r n) by (unfold FsMetaInv.charge, is_file; by rewrite E1, E2, E3, E5).
    rewrite Z.sub_diag, Z.add_0_r. by eapply books_used_normal.
Qed.

Lemma holds_same d nodes x n n' :
  holds d nodes -> nodes !! x = Some n -> where_of n' = where_of n -> holds d (<[x := n']> nodes).
Proof.
  intros (L & K & HL) En Hw. exists L. split; [done|]. intros w. rewrite HL. split; intros (y & m & Ey & Hy).
  - destruct (decide (y = x)) as [->|]; [exists x, n'; rewrite lookup_insert_eq; split; [done|]; rewrite Hw; congruence|].
    exists y, m. by rewrite lookup_insert_ne.
  - destruct (decide (y = x)) as [->|]; [|rewrite lookup_insert_ne in Ey by done; eauto].
    rewrite lookup_insert_eq in Ey. injection Ey as <-. exists x, n. by rewrite <-Hw.
Qed.

Lemma status_same x n n' :
  status_ok x n -> node_parents n' = node_parents n -> where_of n' = where_of n -> node_type n' = node_type n -> file_of n' = file_of n -> status_ok x n'.
Proof. intros [S1 S2 S3] E1 E2 E3 E4. split; rewrite ?E1, ?E2, ?E3, ?E4; done. Qed.

(** A change that nothing but the access control lists sees. *)
Record quiet (n n' : FSNode) : Prop := MkQuiet {
  qt_id : node_id n' = node_id n;
  qt_type : node_type n' = node_type n;
  qt_uid : node_uid n' = node_uid n;
  qt_gid : node_gid n' = node_gid n;
  qt_parents : node_parents n' = node_parents n;
  qt_class : class_of (node_data n') = class_of (node_data n);
  qt_dir : directory_of n' = directory_of n;
  qt_file : file_of n' = file_of n;
  qt_stats : getStats goals n' = getStats goals n;
  qt_where : where_of n' = where_of n;
}.

Lemma file_of_length n n' : file_of n' = file_of n -> length_of n' = length_of n.
Proof. unfold file_of, length_of. destruct (node_data n), (node_data n'); try done; by intros [= -> _ _]. Qed.

Lemma quiet_ok s x n n' acls :
  meta_ok s -> md_nodes s !! x = Some n -> quiet n n' -> (exists m, consistent (MkState (<[x := n']> (md_nodes s)) acls) m) ->
  meta_ok (set_acls (put_node x n' s) acls).
Proof.
  intros Hok En [Q1 Q2 Q4 Q5 Q6 Q7 Q9 Q10 Q11 Q8] Ha. pose proof (tree_typed goals _ x n (mo_tree _ _ Hok) En) as Hty. split; simpl.
  - eapply (node_same_owing goals root _ _ x n); try done; [apply Hok| |].
    + rewrite Q1. by eapply (tree_ids goals); [apply Hok|].
    + unfold well_typed in *. by rewrite Q2, Q7.
  - done.
  - eapply books_same; [apply Hok|done|done|done|done| |].
    + by apply file_of_length.
    + unfold getSize. by rewrite Q11.
  - eapply holds_same; [apply Hok|done|done].
  - eapply put_status; [apply Hok|]. eapply status_same; [by apply (mo_status _ _ Hok)|done..].
Qed.

Lemma quiet_same s x n n' :
  meta_ok s -> md_nodes s !! x = Some n -> quiet n n' -> keeps_permissions n n' -> meta_ok (put_node x n' s).
Proof.
  intros Hok En Hq Hk. pose proof (quiet_ok s x n n' (md_acls s) Hok En Hq) as H. apply H.
  eapply put_consistent; [apply Hok|done|done].
Qed.

Lemma quiet_atime n t : quiet n (with_atime n t).
Proof. by split. Qed.

Lemma quiet_mtime n t : quiet n (with_mtime n t).
Proof. by split. Qed.

Lemma quiet_mode n m : quiet n (set_mode n m).
Proof. by split. Qed.

(** ** Times *)

(** A file in the trash changes its key. *)
Lemma trash_moves s x n n' :
  meta_ok s -> md_nodes s !! x = Some n -> node_type n = kTrash -> node_id n' = node_id n -> node_type n' = kTrash ->
  node_uid n' = node_uid n -> node_gid n' = node_gid n -> node_goal n' = node_goal n -> node_mode n' = node_mode n ->
  node_parents n' = node_parents n -> node_data n' = node_data n ->
  meta_ok (set_detached (put_node x n' s) (updateTrashFromOldEntry (md_detached s) (key_of n) (key_of n'))).
Proof.
  intros Hok En Ht Hid Ht' Hu Hg Hgo Hm Hp Hd.
  assert (where_of n = Some (inl (key_of n))) as Hw by (unfold where_of; by rewrite Ht).
  assert (where_of n' = Some (inl (key_of n'))) as Hw' by (unfold where_of; by rewrite Ht').
  pose proof (tree_ids goals _ (mo_tree _ _ Hok) x n En) as Hx.
  destruct (holds_split _ _ x n _ (tree_ids _ _ (mo_tree _ _ Hok)) (mo_detached _ _ Hok) En Hw) as (h & i & L & K & HL).
  pose proof (others_fresh _ x n' _ L (tree_ids _ _ (mo_tree _ _ Hok)) ltac:(congruence) Hw' HL) as Hf.
  assert ((key_of n').2 = (key_of n).2) as Hk by (simpl; congruence).
  pose proof (keeps_updateTrashFromOldEntry _ (key_of n) (key_of n') h i L K Hf Hk) as K'.
  split; simpl.
  - eapply (put_tree goals _ x n); try done; [apply Hok|]. unfold well_typed. rewrite Ht', Hd, <-Ht. eapply (tree_typed goals _ x n); [apply Hok|done].
  - eapply put_consistent; [apply Hok|done|]. split; [done|by rewrite Hm].
  - eapply books_same; [apply Hok|done|congruence|done|done| |].
    + unfold length_of. by rewrite Hd.
    + unfold getSize, getStats, node_stats. by rewrite Hd, Hgo.
  - by eapply holds_put_cons.
  - eapply put_status; [apply Hok|]. pose proof (mo_status _ _ Hok x n En) as [S1 S2 S3]. split.
    + intros Hr. rewrite Hw', Hp. rewrite Hw in S1. split; [by eexists|]. intros _. apply S1; [done|by eexists].
    + intros Hr. rewrite S2 in Hw by done. done.
    + congruence.
Qed.

Lemma updateCTime_ok s x n ctime :
  meta_ok s -> md_nodes s !! x = Some n ->
  exists s', updateCTime x ctime s = Some s' /\ meta_ok s' /\ md_nodes s' = <[x := with_ctime n ctime]> (md_nodes s).
Proof.
  intros Hok En. unfold updateCTime. rewrite En. cbn [mbind option_bind].
  destruct (bool_decide (node_type n = kTrash) && negb (node_ctime n =? ctime)) eqn:E.
  - apply andb_true_iff in E as [Ht%bool_decide_eq_true _].
    assert (where_of n = Some (inl (key_of n))) as Hw by (unfold where_of; by rewrite Ht).
    destruct (holds_split _ _ x n _ (tree_ids _ _ (mo_tree _ _ Hok)) (mo_detached _ _ Hok) En Hw) as (h & i & L & K & HL).
    destruct (keeps_lookup_trash _ _ _ _ _ K) as [E1 _]. rewrite E1. eexists. split; [done|]. split; [|done]. by apply trash_moves.
  - eexists. split; [done|]. split; [|done]. eapply quiet_same; [done|done| |done]. split; try done.
    unfold where_of, key_of. simpl. destruct (node_type n) eqn:Ht; try done. rewrite bool_decide_true in E by done. simpl in E.
    apply negb_false_iff, Z.eqb_eq in E. by rewrite E.
Qed.

(** ** Owners *)

Lemma changeUidGid_ok s x n uid gid :
  meta_ok s -> md_nodes s !! x = Some n ->
  exists s', changeUidGid goals x uid gid s = Some s' /\ meta_ok s' /\ md_nodes s' = <[x := with_owner n uid gid]> (md_nodes s).
Proof.
  intros Hok En. unfold changeUidGid. rewrite En. cbn [mbind option_bind]. eexists. split; [done|]. split; [|done].
  split; cbn [nodeQuotaUpdate set_quota put_node set_nodes md_nodes md_acls md_counters md_quota md_detached].
  - eapply (put_tree goals _ x n); try done; [apply Hok|]. eapply (tree_typed goals _ x n); [apply Hok|done].
  - eapply put_consistent; [apply Hok|done|done].
  - eapply books_put; [apply Hok|done|..].
    + intros k. change (weight k (with_owner n uid gid)) with (weight k n). rewrite Z.sub_diag. eapply books_normal, Hok.
    + intros t id r Ht. pose proof (books_used_normal _ _ _ _ t id r (mo_books _ _ Hok) Ht) as Hn.
      rewrite used_update_ug; [|done|rewrite used_update_ug by done; unfold u64, wrap; by rewrite Zmod_mod].
      rewrite used_update_ug by done. rewrite (cost_charge goals (-1) n).
      pose proof (cost_charge goals 1 (with_owner n uid gid) t id r) as Hc. change (cost goals 1 (with_owner n uid gid)) with (cost goals 1 n) in Hc.
      rewrite Hc. wraps.
  - eapply holds_same; [apply Hok|done|done].
  - eapply put_status; [apply Hok|]. eapply status_same; [by apply (mo_status _ _ Hok)|done..].
Qed.

(** ** Open files *)

Lemma with_file_stats n len ses ses' ch :
  file_of n = Some (len, ses, ch) -> getStats goals (with_file n len ses' ch) = getStats goals n.
Proof. unfold file_of, getStats, node_stats. destruct (node_data n); try done. by intros [= -> -> ->]. Qed.

Lemma sessions_ok s x n len ses ses' ch :
  meta_ok s -> md_nodes s !! x = Some n -> file_of n = Some (len, ses, ch) -> (node_type n = kReserved -> ses' <> []) ->
  meta_ok (put_node x (with_file n len ses' ch) s).
Proof.
  intros Hok En Hf Hr. assert (node_data n = FileData len ses ch) as Ed by (unfold file_of in Hf; destruct (node_data n); congruence).
  split; simpl.
  - eapply (node_same_owing goals root _ _ x n); [apply Hok|done|exact (tree_ids goals _ (mo_tree _ _ Hok) x n En)| |done|unfold directory_of; by rewrite Ed|by eapply with_file_stats].
    pose proof (tree_typed goals _ x n (mo_tree _ _ Hok) En) as Hty. unfold well_typed in *. rewrite Ed in Hty. done.
  - eapply put_consistent; [apply Hok|done|done].
  - eapply books_same; [apply Hok|done|done|done|done| |].
    + unfold length_of. by rewrite Ed.
    + unfold getSize. by rewrite (with_file_stats n len ses ses' ch Hf).
  - eapply holds_same; [apply Hok|done|done].
  - eapply put_status; [apply Hok|]. pose proof (mo_status _ _ Hok x n En) as [S1 S2 S3]. split; [done|done|].
    intros Ht. exists len, ses', ch. split; [done|by apply Hr].
Qed.

(** ** Lengths *)

Lemma length_counts s n prev len c' k :
  meta_ok s -> forall n', node_type n' = node_type n -> length_of n = prev -> length_of n' = len ->
  c' = md_counters (updateDetachedSpaceUsage n prev len s) ->
  counter_of c' k = wrap (count_width k) (counter_of (md_counters s) k + (weight k n' - weight k n)).
Proof.
  intros Hok n' Ht E1 E2 ->. pose proof (counts_normal goals _ _ _ (mo_books _ _ Hok) k) as Hk.
  assert (forall d, wrap 64 (d + u64 (len - prev)) = wrap 64 (d + (len - prev))) as Hu by (intros d; wraps).
  unfold updateDetachedSpaceUsage, weight, of_type, is_file. rewrite Ht, E1, E2.
  destruct (Z.eqb_spec prev len) as [->|Hne].
  - rewrite !Z.sub_diag. destruct k; rewrite Z.add_0_r; done.
  - destruct (node_type n), k; cbn [count md_counters]; rewrite ?counter_bump; simpl; rewrite ?Z.sub_diag, ?Z.add_0_r; first [done|apply Hu].
Qed.

Lemma similar_stats nodes nodes' : same_but_stats nodes nodes' -> similar nodes nodes'.
Proof. intros (dirf & R & _). by eexists _, _. Qed.

Lemma status_stats nodes nodes' :
  same_but_stats nodes nodes' -> (forall y n, nodes !! y = Some n -> status_ok y n) -> forall y n, nodes' !! y = Some n -> status_ok y n.
Proof.
  intros (dirf & R & _) Hst y n' Ey. destruct (related_back _ _ _ _ _ _ R Ey) as (n & En & Hch).
  eapply status_same; [by apply Hst|apply (ch_parents _ _ _ _ Hch)|by eapply change_where|apply (ch_type _ _ _ _ Hch)|by eapply change_file_of].
Qed.

(** A change of the statistics alone. *)
Lemma stats_change_ok c d acls q calls v nodes nodes' :
  tree_ok goals root nodes' -> same_but_stats nodes nodes' -> (forall y n, nodes !! y = Some n -> well_typed n) ->
  (exists m, consistent (MkState nodes acls) m) -> books c q nodes -> holds d nodes ->
  (forall y n, nodes !! y = Some n -> status_ok y n) -> meta_ok (MkMeta nodes' c d acls q calls v).
Proof.
  intros T S Hty [m Hm] B H Hst. pose proof (similar_stats _ _ S) as Hsim. split; simpl; [done|..].
  - exists m. by eapply similar_consistent.
  - by apply (similar_books goals _ _ Hsim).
  - by eapply similar_holds.
  - by eapply status_stats.
Qed.

Lemma setLength_ok s x n len erase prev ses ch :
  meta_ok s -> md_nodes s !! x = Some n -> is_file n = true -> file_of n = Some (prev, ses, ch) ->
  exists s' n', setLength goals x len erase s = Some s' /\ meta_ok s' /\
    file_of n' = Some (len, ses, if erase then truncateFileChunks ch (Z.to_nat (chunks_of_length len)) else ch) /\
    same_but_stats (<[x := n']> (md_nodes s)) (md_nodes s').
Proof.
  intros Hok En Hfile Hf. assert (node_data n = FileData prev ses ch) as Ed by (unfold file_of in Hf; destruct (node_data n); congruence).
  unfold setLength. rewrite En. cbn [mbind option_bind]. rewrite Hf. cbn [mbind option_bind].
  set (n' := with_file n len ses _).
  assert (well_typed n') as Hty by (pose proof (tree_typed goals _ x n (mo_tree _ _ Hok) En) as Hty; unfold well_typed in *; rewrite Ed in Hty; done).
  destruct (file_change_tree goals root (md_nodes s) x n n' (mo_tree _ _ Hok) En) as (nodes' & E & S & T); try done.
  { exact (tree_ids goals _ (mo_tree _ _ Hok) x n En). } { unfold directory_of. by rewrite Ed. }
  set (s1 := updateDetachedSpaceUsage n prev len s).
  assert (md_nodes s1 = md_nodes s /\ md_acls s1 = md_acls s /\ md_quota s1 = md_quota s /\ md_detached s1 = md_detached s) as (I1 & I2 & I3 & I4)
    by (unfold s1, updateDetachedSpaceUsage; destruct (_ =? _); [done|]; by destruct (node_type n)).
  set (s2 := if erase then call _ s1 else s1).
  assert (md_nodes s2 = md_nodes s /\ md_acls s2 = md_acls s /\ md_quota s2 = md_quota s /\ md_detached s2 = md_detached s /\ md_counters s2 = md_counters s1)
    as (J1 & J2 & J3 & J4 & J5) by (unfold s2; by destruct erase).
  cbn [nodeQuotaUpdate set_quota put_node set_nodes md_nodes]. rewrite J1, E. cbn [mbind option_bind]. eexists _, n'. split; [done|].
  split; [|split; [done|done]]. unfold nodeQuotaUpdate, set_quota, put_node, set_nodes.
  cbn [md_counters md_detached md_acls md_quota md_calls md_version]. rewrite J2, J3, J4, J5.
  eapply stats_change_ok; [exact T|exact S|..].
  - intros y m Ey. destruct (decide (y = x)) as [->|]; [rewrite lookup_insert_eq in Ey; congruence|].
    rewrite lookup_insert_ne in Ey by done. eapply tree_typed; [apply Hok|done].
  - eapply put_consistent; [apply Hok|done|done].
  - eapply books_put; [apply Hok|done|..].
    + intros k. eapply (length_counts s n prev len); try done. unfold length_of. by rewrite Ed.
    + intros t id r Ht. rewrite used_update_ug; [|done|by eapply books_used_normal; [apply Hok|]]. f_equal. f_equal.
      unfold FsMetaInv.charge. change (node_uid n') with (node_uid n). change (node_gid n') with (node_gid n).
      change (is_file n') with (is_file n). rewrite Hfile. destruct (owns _ _ _ _), r; simpl; lia.
  - eapply holds_same; [apply Hok|done|done].
  - eapply put_status; [apply Hok|]. pose proof (mo_status _ _ Hok x n En) as [S1 S2 S3]. split; [done|done|].
    intros Ht. destruct (S3 Ht) as (? & ? & ? & Hf' & Hne). simplify_eq. by eexists _, _, _.
Qed.

(** ** Devices and symbolic links *)

Lemma rdev_ok s x n r rdev :
  meta_ok s -> md_nodes s !! x = Some n -> node_data n = DeviceData r -> meta_ok (put_node x (with_data n (DeviceData rdev)) s).
Proof.
  intros Hok En Ed. eapply quiet_same; [done|done| |done].
  split; try done; unfold directory_of, file_of, getStats, node_stats; simpl; by rewrite Ed.
Qed.

(** The target of a new symbolic link, with the length that the directories above it get. *)
Lemma symlink_target_ok s x n dir name path :
  meta_ok s -> md_nodes s !! x = Some n -> node_data n = SymlinkData [] 0 -> node_parents n = [(dir, name)] ->
  Z.of_nat (length path) < 65536 ->
  let n' := with_data n (SymlinkData path (u16 (Z.of_nat (length path)))) in
  exists nodes', addStats root dir (MkStats 0 0 0 0 0 (Z.of_nat (length path)) 0 0) (<[x := n']> (md_nodes s)) = Some nodes' /\
    meta_ok (set_nodes s nodes') /\ same_but_stats (<[x := n']> (md_nodes s)) nodes'.
Proof.
  intros Hok En Ed Hp Hlen n'. pose proof (tree_typed goals _ x n (mo_tree _ _ Hok) En) as Hty.
  assert (well_typed n') as Hty' by (unfold well_typed in *; rewrite Ed in Hty; done).
  destruct (file_change_tree goals root (md_nodes s) x n n' (mo_tree _ _ Hok) En) as (nodes' & E & S & T); try done.
  { exact (tree_ids goals _ (mo_tree _ _ Hok) x n En). } { unfold directory_of. by rewrite Ed. }
  assert (stats_sub (getStats goals n') (getStats goals n) = MkStats 0 0 0 0 0 (Z.of_nat (length path)) 0 0) as Es.
  { unfold getStats, node_stats, stats_sub, stats_op. rewrite Ed. simpl. rewrite Z.sub_0_r. f_equal.
    assert (u16 (Z.of_nat (length path)) = Z.of_nat (length path)) as -> by (apply Z.mod_small; lia). rewrite Z.sub_0_r. apply Z.mod_small. lia. }
  rewrite Hp in E. unfold updateParentStatsForNode, addSubStats in E. simpl in E. rewrite Es in E.
  exists nodes'. split; [done|]. split; [|done]. unfold set_nodes. eapply stats_change_ok; [exact T|exact S|..].
  - intros y m Ey. destruct (decide (y = x)) as [->|]; [rewrite lookup_insert_eq in Ey; congruence|].
    rewrite lookup_insert_ne in Ey by done. eapply tree_typed; [apply Hok|done].
  - eapply put_consistent; [apply Hok|done|done].
  - assert (is_file n = false) as Hnf by (unfold well_typed in Hty; rewrite Ed in Hty; unfold is_file; by destruct (node_type n)).
    eapply books_put; [apply Hok|done|..].
    + intros k. replace (weight k n') with (weight k n) by (unfold weight, of_type, length_of, is_file; simpl; by rewrite Ed).
      rewrite Z.sub_diag. eapply books_normal, Hok.
    + intros t id r Ht. replace (charge t id r n') with (charge t id r n)
        by (unfold FsMetaInv.charge; change (is_file n') with (is_file n); by rewrite Hnf).
      rewrite Z.sub_diag, Z.add_0_r. eapply books_used_normal; [apply Hok|done].
  - eapply holds_same; [apply Hok|done|done].
  - eapply put_status; [apply Hok|]. eapply status_same; [by apply (mo_status _ _ Hok)|done..|]. unfold file_of. by rewrite Ed.
Qed.

(** ** Trash times and paths *)

Lemma setTrashtime_ok s uid trashtime smode x n timeStamp :
  meta_ok s -> md_nodes s !! x = Some n ->
  exists r s', setTrashtime uid trashtime smode x timeStamp s = Some (r, s') /\ meta_ok s' /\ (r <> kChanged -> s' = s).
Proof.
  intros Hok En. unfold setTrashtime. rewrite En. cbn [mbind option_bind].
  destruct (is_file n || is_dir n); [|by eexists _, _]. destruct (_ && _); [by eexists _, _|].
  destruct (match smode with SMODE_SET => _ | SMODE_INCREASE => _ | SMODE_DECREASE => _ end); [|by eexists _, _].
  set (n1 := with_trashtime n trashtime). destruct (bool_decide (node_type n = kTrash)) eqn:Et.
  - apply bool_decide_eq_true in Et. unfold updateCTimeForTrashNode. cbn [put_node set_nodes md_nodes]. rewrite lookup_insert_eq.
    cbn [mbind option_bind]. eexists _, _. split; [done|]. split; [|done].
    pose proof (trash_moves s x n (with_ctime n1 timeStamp) Hok En Et) as H. unfold put_node, set_nodes, set_detached in *.
    cbn [md_nodes md_detached md_counters md_acls md_quota md_calls md_version] in *. rewrite insert_insert_eq. by apply H.
  - apply bool_decide_eq_false in Et.
    assert (meta_ok (put_node x n1 s)) as Hok1.
    { eapply quiet_same; [done|done| |done]. split; try done. unfold where_of. simpl. by destruct (node_type n). }
    destruct (updateCTime_ok (put_node x n1 s) x n1 timeStamp Hok1) as (s' & E & H & _); [by simpl; rewrite lookup_insert_eq|].
    rewrite E. by eexists _, _.
Qed.

Lemma trash_path_ok s x n path :
  meta_ok s -> md_nodes s !! x = Some n -> node_type n = kTrash -> counter (md_detached s) < kMaxIdForTrashOrReservedName ->
  meta_ok (set_detached s (updateTrashNameEntry (md_detached s) (node_id n) (node_ctime n) (node_trashtime n) path)).
Proof.
  intros Hok En Ht Hmax. assert (where_of n = Some (inl (key_of n))) as Hw by (unfold where_of; by rewrite Ht).
  destruct (holds_split _ _ x n _ (tree_ids _ _ (mo_tree _ _ Hok)) (mo_detached _ _ Hok) En Hw) as (h & i & L & K & HL).
  pose proof (keeps_updateTrashNameEntry _ (node_id n) (node_ctime n) (node_trashtime n) path h i L K Hmax) as K'.
  destruct Hok as [H1 H2 H3 H4 H5]. split; simpl; try done. rewrite <-(insert_id _ _ _ En). by eapply holds_put_cons.
Qed.

(** ** A file returns from the trash *)

Lemma undel_link_ok s x n parent name pn timeStamp :
  meta_ok s -> md_nodes s !! x = Some n -> node_type n = kTrash -> md_nodes s !! parent = Some pn -> is_Some (directory_of pn) ->
  isNameUsed (md_nodes s) parent name = false ->
  exists s', undel_link goals timeStamp x parent name s = Some s' /\ meta_ok s' /\
    linked (<[x := with_ctime (with_type n kFile) timeStamp]> (md_nodes s)) (md_nodes s') parent name x.
Proof.
  intros Hok En Ht Ep Hd Hfree. set (n1 := with_ctime (with_type n kFile) timeStamp).
  assert (where_of n = Some (inl (key_of n))) as Hw by (unfold where_of; by rewrite Ht).
  pose proof (where_is_file n ltac:(eauto)) as Hfile. pose proof (tree_typed goals _ x n (mo_tree _ _ Hok) En) as Hty.
  destruct (detached_loose goals s Hok x n En ltac:(eauto)) as [Hp Hr].
  destruct (file_type_data n Hty Hfile) as (len & ses & ch & Ed). assert (file_of n = Some (len, ses, ch)) as Hf by (unfold file_of; by rewrite Ed).
  assert (well_typed n1) as Hty1 by (unfold well_typed; simpl; by rewrite Ed).
  pose proof (put_tree goals _ x n n1 (mo_tree _ _ Hok) En eq_refl eq_refl eq_refl eq_refl Hty1) as Ht1.
  assert (parent <> x) as Hne.
  { intros ->. assert (pn = n) as -> by congruence. unfold directory_of in Hd. rewrite Ed in Hd. by destruct Hd. }
  assert (is_dir n1 = false) as Hnd by done.
  assert (directory_of n1 = directory_of n) as Hdd by reflexivity.
  destruct (link_rest goals (<[x := n1]> (md_nodes s)) parent x name pn n1 timeStamp) as (nodes' & E & T & Hsim & Hlk & Hst); try done.
  { by rewrite lookup_insert_ne. } { by rewrite lookup_insert_eq. }
  { apply (name_used goals root _ _ _ _ Ht1). intros c He. rewrite (put_edges _ _ n) in He by done.
    by apply (name_used goals root _ _ _ _ (mo_tree _ _ Hok)) with (c := c) in Hfree. }
  { destruct (tree_chain goals root _ _ parent pn Ht1) as [l Hl]; [by rewrite lookup_insert_ne|done|].
    rewrite (climbs_chain _ _ _ _ _ Hl) by (apply chain_length in Hl; unfold stats_fuel; lia). f_equal. apply bool_decide_false. intros Hin.
    destruct (chain_is_dir _ _ _ _ Hl Hin) as (m & Em & Hm). rewrite lookup_insert_eq in Em. injection Em as <-. rewrite Hdd in Hm.
    unfold directory_of in Hm. rewrite Ed in Hm. by destruct Hm. }
  destruct (holds_split _ _ x n _ (tree_ids _ _ (mo_tree _ _ Hok)) (mo_detached _ _ Hok) En Hw) as (h & i & L & K & HL).
  pose proof (keeps_removeTrashEntry _ (node_id n) (node_ctime n) (node_trashtime n) h i L K) as K'.
  unfold undel_link. rewrite En. cbn [mbind option_bind]. rewrite Hf. cbn [mbind option_bind]. rewrite Ht.
  cbn [put_node set_nodes set_detached md_nodes]. fold n1. rewrite E. cbn [mbind option_bind]. eexists. split; [done|]. split; [|done].
  split; cbn [count set_nodes md_nodes md_acls md_counters md_quota md_detached].
  - done.
  - destruct (put_consistent _ _ x n n1 (mo_acls _ _ Hok) En ltac:(done)) as [m Hm]. exists m. by eapply similar_consistent.
  - apply (similar_books goals _ _ Hsim); [intros y m; by eapply tree_typed|]. eapply books_put; [apply Hok|done|..].
    + intros k. change (bump CTrash _ _) with (bumps [(CTrash, -1); (CTrashSpace, - len)] (md_counters s)).
      rewrite counter_bumps by (eapply counts_normal, mo_books, Hok). f_equal. f_equal.
      unfold weight, of_type, length_of, is_file, n1. simpl. rewrite Ht, Ed. destruct k; simpl; lia.
    + intros t id r Hti. replace (charge t id r n1) with (charge t id r n) by (unfold FsMetaInv.charge, is_file, n1; simpl; by rewrite Ht).
      rewrite Z.sub_diag, Z.add_0_r. eapply books_used_normal; [apply Hok|done].
  - eapply similar_holds; [exact Hsim|]. by eapply holds_put_none.
  - intros y m Ey. destruct (decide (y = x)) as [->|Hy].
    + destruct Hlk as (_ & _ & Hc). destruct (Hc n1 (lookup_insert_eq _ _ _)) as (n2 & f & E2 & Hch). assert (n2 = m) as -> by congruence.
      assert (where_of m = None) as Hwm by by rewrite (change_where _ _ _ _ Hch). split; [|done|].
      * intros _. rewrite Hwm, (ch_parents _ _ _ _ Hch). split; [|by intros [? ?]]. intros E3. by apply app_nil in E3 as [_ ?].
      * intros Etm. unfold where_of in Hwm. by rewrite Etm in Hwm.
    + apply (Hst ltac:(intros y0 n3 Hy0; rewrite lookup_insert_ne by done; apply Hok) y m Hy Ey).
Qed.

End fields.
