(* ===== verification/FsOps.v ===== *)
(** The operations on the file system (src/master/filesystem_operations.cc): requests of clients on the master, the
    changelog that the master writes, and the operations with which a shadow applies its entries.

    An operation ends with a status or a result; it may have changed the metadata in both cases, and it may have
    written entries of the changelog.  [None] is a failed assertion, a pointer that leads nowhere or a recursion that
    does not end.  The time of a request is that of its context; the numbers of new inodes, which the pool of inodes
    hands out, are arguments.  The fences of bulk operations (canMutateFileChunks() and canTruncateFileChunks()) are open
    in this backend and left out. *)
From S2P Require Import Prelude Serialization RichACL AclMasks AclStorage Nodes FileSize AclPosix NodeAcl Trash Quota FsTree DirQuota FsMeta.

Inductive fs_status :=
  | STATUS_OK | ERROR_EPERM | ERROR_ENOTDIR | ERROR_ENOENT | ERROR_EACCES | ERROR_EEXIST | ERROR_EINVAL
  | ERROR_ENOTEMPTY | ERROR_EROFS | ERROR_MISMATCH | ERROR_QUOTA | ERROR_CANTCREATEPATH | ERROR_NOSPACE | ERROR_ENOTSUP
  | ERROR_ENOATTR | ERROR_INDEXTOOBIG | ERROR_WAITING | ERROR_NOTDONE.

#[global] Instance fs_status_eq_dec : EqDecision fs_status.
Proof. solve_decision. Defined.

(** The entries of the changelog. *)
Inductive LogEntry :=
  | CREATE (parent : Z) (name : name_t) (type : FSNodeType) (mode uid gid rdev inode : Z)
  | UNLINK (parent : Z) (name : name_t) (inode : Z)
  | MOVE (parent_src : Z) (name_src : name_t) (parent_dst : Z) (name_dst : name_t) (inode : Z)
  | LINK (inode parent : Z) (name : name_t)
  | SYMLINK (parent : Z) (name : name_t) (path : list Z) (uid gid inode : Z)
  | PURGE (inode : Z)
  | UNDEL (inode : Z)
  | SETPATH (inode : Z) (path : list Z)
  | ACQUIRE (inode sessionid : Z)
  | RELEASE (inode sessionid : Z)
  | ATTR (inode mode uid gid atime mtime : Z)
  | LENGTH (inode length : Z) (eraseFurtherChunks : bool)
  | ACCESS (inode : Z)
  | SETTRASHTIME (inode uid trashtime smode : Z)
  | SETRICHACL (inode : Z) (acl_string : list Z)
  | SETACL (inode : Z) (type : AclType) (acl_string : list Z)
  | DELETEACL (inode : Z) (type : AclType)
  | SETQUOTA (record : SetQuota).

(** ** Operations *)

Definition Op (A : Type) : Type := Metadata -> option ((fs_status + A) * Metadata * list (Z * LogEntry)).

#[global] Instance op_ret : MRet Op := fun A x s => Some (inr x, s, []).

#[global] Instance op_bind : MBind Op := fun A B f m s =>
  match m s with
  | None => None
  | Some (inl e, s, log) => Some (inl e, s, log)
  | Some (inr x, s, log) =>
    match f x s with None => None | Some (r, s, log') => Some (r, s, log ++ log') end
  end.

Definition throw {A} (e : fs_status) : Op A := fun s => Some (inl e, s, []).
Definition require (b : bool) (e : fs_status) : Op unit := if b then mret tt else throw e.
Definition reads {A} (f : Metadata -> option A) : Op A := fun s => match f s with Some x => Some (inr x, s, []) | None => None end.
Definition effect (f : Metadata -> option Metadata) : Op unit := fun s => match f s with Some s => Some (inr tt, s, []) | None => None end.
Definition modify {A} (f : Metadata -> option (A * Metadata)) : Op A := fun s =>
  match f s with Some (x, s) => Some (inr x, s, []) | None => None end.

(** ** Contexts *)

Record Session := MkSession { rootinode : Z; sesflags : Z }.
Record User := MkUser { user_uid : Z; user_gids : list Z }.
Record Context := MkCtx { ts : Z; isPersonalityMaster : bool; session : option Session; user : option User }.

Definition getForRestore (ts : Z) : Context := MkCtx ts false None None.
Definition getForRestoreWithUidGid (ts uid gid : Z) : Context := MkCtx ts false None (Some (MkUser uid [gid])).
Definition getForMaster (ts : Z) : Context := MkCtx ts true None None.

Definition SESFLAG_MAPALL : Z := 16.
Definition SESFLAG_CASEINSENSITIVE : Z := 128.
Definition MODE_MASK_W : Z := 2.
Definition MODE_MASK_EMPTY : Z := 0.

Definition isCaseInsensitive (cx : Context) : bool :=
  match session cx with Some ses => has (sesflags ses) SESFLAG_CASEINSENSITIVE | None => false end.

(** The session and the user, when permissions can be checked. *)
Definition checks_permissions (cx : Context) : option (Session * User) :=
  match isPersonalityMaster cx, session cx, user cx with true, Some ses, Some u => Some (ses, u) | _, _, _ => None end.

(** changeLog() on the master; other servers count the version. *)
Definition changeLog (cx : Context) (e : LogEntry) : Op unit := fun s =>
  Some (inr tt, increaseMetadataVersion s, if isPersonalityMaster cx then [(ts cx, e)] else []).

Definition next_version : Op unit := effect (fun s => Some (increaseMetadataVersion s)).

Definition node (x : Z) : Op FSNode := reads (fun s => md_nodes s !! x).

Inductive SessionType := AnySession | NotMeta | OnlyMeta.

Inductive OperationMode := ReadWrite | ReadOnly.

Definition verifySession (operationMode : OperationMode) (cx : Context) (sessionType : SessionType) : Op unit :=
  match session cx with
  | None => mret tt
  | Some ses =>
    if has (sesflags ses) SESFLAG_READONLY && match operationMode with ReadWrite => true | ReadOnly => false end
    then throw ERROR_EROFS
    else if (rootinode ses =? 0) && match sessionType with NotMeta => true | _ => false end then throw ERROR_ENOENT
    else if negb (rootinode ses =? 0) && match sessionType with OnlyMeta => true | _ => false end then throw ERROR_EPERM
    else mret tt
  end.

Inductive ExpectedNodeType := ExpectAny | ExpectDirectory | ExpectNotDirectory | ExpectFile | ExpectFileOrDirectory.

Definition is_detached (n : FSNode) : bool := match node_type n with kTrash | kReserved => true | _ => false end.

(** The node that the session sees under the number. *)
Definition candidate (cx : Context) (inode : Z) : Op Z :=
  match session cx with
  | None => found ← reads (fun s => Some (md_nodes s !! inode)); match found with Some _ => mret inode | None => throw ERROR_ENOENT end
  | Some ses =>
    if (rootinode ses =? SPECIAL_INODE_ROOT) || (rootinode ses =? 0) then
      found ← reads (fun s => Some (md_nodes s !! inode));
      match found with
      | None => throw ERROR_ENOENT
      | Some n => if (rootinode ses =? 0) && negb (is_detached n) then throw ERROR_EPERM else mret inode
      end
    else
      rootNode ← reads (fun s => Some (md_nodes s !! rootinode ses));
      match rootNode with
      | None => throw ERROR_ENOENT
      | Some rn =>
        if negb (is_dir rn) then throw ERROR_ENOENT
        else if (inode =? SPECIAL_INODE_ROOT) || (inode =? rootinode ses) then mret (rootinode ses)
        else
          found ← reads (fun s => Some (md_nodes s !! inode));
          match found with
          | None => throw ERROR_ENOENT
          | Some n =>
            if is_detached n then mret inode
            else below ← reads (fun s => isAncestor (md_nodes s) (rootinode ses) inode); _ ← require below ERROR_EPERM; mret inode
          end
      end
  end.

Definition expected (type : ExpectedNodeType) (n : FSNode) : Op unit :=
  match type with
  | ExpectAny => mret tt
  | ExpectDirectory => require (is_dir n) ERROR_ENOTDIR
  | ExpectNotDirectory => require (negb (is_dir n)) ERROR_EPERM
  | ExpectFile => require (is_file n) ERROR_EPERM
  | ExpectFileOrDirectory => require (is_file n || is_dir n) ERROR_EPERM
  end.

Definition set_sensitivity (insensitive : bool) (d : Directory) : Directory :=
  MkDirectory (entries d) (lowerCaseEntries d) insensitive (dir_stats d) (nlink d).

(** The entries of a directory follow the session that uses it. *)
Definition adapt_case (insensitive : bool) (x : Z) (s : Metadata) : Metadata :=
  set_nodes s (upd x (upd_dir (fun d =>
    if Bool.eqb (caseInsensitive d) insensitive then d else updateLowerCaseEntries (set_sensitivity insensitive d)))
    (md_nodes s)).

Definition check_access (cx : Context) (x : Z) (modeMask : Z) : Op unit :=
  match checks_permissions cx with
  | None => mret tt
  | Some (ses, u) =>
    allowed ← reads (fun s => n ← md_nodes s !! x;
      NodeAcl.access (MkContext (sesflags ses) (user_uid u) (user_gids u)) n modeMask (md_acls s));
    require allowed ERROR_EACCES
  end.

Definition getNodeForOperation (cx : Context) (type : ExpectedNodeType) (modeMask inode : Z) : Op Z :=
  x ← candidate cx inode;
  n ← node x;
  _ ← expected type n;
  _ ← check_access cx x modeMask;
  _ ← (match session cx with
       | Some _ => if is_dir n then effect (fun s => Some (adapt_case (isCaseInsensitive cx) x s)) else mret tt
       | None => mret tt
       end);
  mret x.

(** uid() and gid() *)
Definition uid_of (cx : Context) : Op Z := reads (fun _ => user_uid <$> user cx).
Definition gid_of (cx : Context) : Op Z := reads (fun _ => u ← user cx; head (user_gids u)).

Section ops.
Context (goals : Z -> Goals.Goal).

Definition look (dir : Z) (name : name_t) : Op (option Z) := reads (fun s => Some (FsTree.lookup (md_nodes s) dir name)).
Definition free_name (dir : Z) (name : name_t) : Op unit :=
  used ← reads (fun s => Some (isNameUsed (md_nodes s) dir name)); require (negb used) ERROR_EEXIST.

(** The stored name, in a directory that is not case sensitive. *)
Definition base_name (dir : Z) (name : name_t) : Op name_t :=
  n ← node dir; d ← reads (fun _ => directory_of n);
  if caseInsensitive d then
    resolved ← reads (fun s => Some (getBaseStoredChildName (md_nodes s) dir d name));
    mret (if bool_decide (resolved = []) then name else resolved)
  else mret name.

Definition checkQuotaUgDir (uid gid dir : Z) (resources : list (QuotaResource * Z)) : Op unit :=
  exceeded ← reads (fun s => Some (quota_exceeded_ug (md_quota s) uid gid resources));
  _ ← require (negb exceeded) ERROR_QUOTA;
  exceeded ← reads (fun s => quota_exceeded_dir (md_nodes s) (md_quota s) dir resources);
  require (negb exceeded) ERROR_QUOTA.

Definition sticky (cx : Context) (parent child : Z) : Op unit :=
  pn ← node parent; cn ← node child; uid ← uid_of cx; require (stickyAccess pn cn uid) ERROR_EPERM.

(** ** New nodes *)

Definition is_special (type : FSNodeType) : bool :=
  match type with kFile | kSocket | kFifo | kBlockDev | kCharDev => true | _ => false end.

Definition set_rdev (x : Z) (type : FSNodeType) (rdev : Z) (s : Metadata) : option Metadata :=
  match type with
  | kBlockDev | kCharDev =>
    n ← md_nodes s !! x;
    match node_data n with DeviceData _ => Some (put_node x (with_data n (DeviceData rdev)) s) | _ => None end
  | _ => Some s
  end.

Definition set_case (x : Z) (insensitive : bool) (s : Metadata) : Metadata :=
  set_nodes s (upd x (upd_dir (set_sensitivity insensitive)) (md_nodes s)).

Definition log_create (cx : Context) (parent : Z) (name : name_t) (type : FSNodeType) (uid gid rdev x : Z) : Op unit :=
  n ← node x; changeLog cx (CREATE parent name type (Z.land (node_mode n) kPermissionsMask) uid gid rdev x).

Definition mknod (cx : Context) (parent : Z) (name : name_t) (type : FSNodeType) (mode umask rdev inode : Z) : Op Z :=
  _ ← verifySession ReadWrite cx NotMeta;
  _ ← require (is_special type) ERROR_EINVAL;
  dir ← getNodeForOperation cx ExpectDirectory MODE_MASK_W parent;
  _ ← require (nameCheck name) ERROR_EINVAL;
  _ ← free_name dir name;
  uid ← uid_of cx; gid ← gid_of cx;
  _ ← checkQuotaUgDir uid gid dir [(kInodes, 1)];
  _ ← effect (fun s => Some (set_case dir (isCaseInsensitive cx) s));
  _ ← effect (createNode goals (ts cx) dir name type mode umask uid gid false true inode);
  _ ← effect (set_rdev inode type rdev);
  _ ← log_create cx dir name type uid gid rdev inode;
  mret inode.

(** [depleted] tells whether the option that forbids new directories on a full disk applies. *)
Definition mkdir (cx : Context) (depleted : bool) (parent : Z) (name : name_t) (mode umask : Z) (copysgid : bool)
    (inode : Z) : Op Z :=
  _ ← verifySession ReadWrite cx NotMeta;
  dir ← getNodeForOperation cx ExpectDirectory MODE_MASK_W parent;
  _ ← require (nameCheck name) ERROR_EINVAL;
  _ ← free_name dir name;
  uid ← uid_of cx; gid ← gid_of cx;
  _ ← checkQuotaUgDir uid gid dir [(kInodes, 1)];
  _ ← require (negb depleted) ERROR_NOSPACE;
  _ ← effect (fun s => Some (set_case dir (isCaseInsensitive cx) s));
  _ ← effect (createNode goals (ts cx) dir name kDirectory mode umask uid gid copysgid true inode);
  _ ← log_create cx dir name kDirectory uid gid 0 inode;
  mret inode.

Definition applyCreate (ts parent : Z) (name : name_t) (type : FSNodeType) (mode uid gid rdev inode : Z) : Op unit :=
  _ ← require (is_special type || bool_decide (type = kDirectory)) ERROR_EINVAL;
  found ← reads (fun s => Some (md_nodes s !! parent));
  match found with
  | None => throw ERROR_ENOENT
  | Some workDir =>
    _ ← require (is_dir workDir) ERROR_ENOTDIR;
    _ ← free_name parent name;
    _ ← effect (createNode goals ts parent name type mode 0 uid gid false true inode);
    _ ← effect (set_rdev inode type rdev);
    next_version
  end.

(** ** Symbolic links *)

(** getCanonicalPath(): the stored names along the path; the result is the error or the path. *)
Fixpoint canonical (insensitive : bool) (current : Z) (names : list name_t) (result : list Z) : Op (option (list Z)) :=
  match names with
  | [] => mret (Some result)
  | [] :: names => canonical insensitive current names result
  | name :: names =>
    n ← node current;
    if negb (is_dir n) then mret None
    else
      _ ← effect (fun s => Some (adapt_case insensitive current s));
      n ← node current; d ← reads (fun _ => directory_of n);
      baseName ← (if insensitive then reads (fun s => Some (getBaseStoredChildName (md_nodes s) current d name)) else mret name);
      if insensitive && bool_decide (baseName = []) then mret None
      else
        child ← look current baseName;
        match child with
        | None => mret None
        | Some child =>
          canonical insensitive child names ((if bool_decide (result = []) then [] else result ++ [47]) ++ baseName)
        end
  end.

Definition getCanonicalPath (cx : Context) (path : list Z) : Op (option (list Z)) :=
  r ← reads (fun _ => rootinode <$> session cx);
  found ← reads (fun s => Some (md_nodes s !! r));
  match found with
  | Some n => if is_dir n then canonical (isCaseInsensitive cx) r (segments path) [] else mret None
  | None => mret None
  end.

Definition set_path (x : Z) (path : list Z) (s : Metadata) : option Metadata :=
  n ← md_nodes s !! x;
  match node_data n with
  | SymlinkData _ _ => Some (put_node x (with_data n (SymlinkData path (u16 (Z.of_nat (length path))))) s)
  | _ => None
  end.

Definition symlink (cx : Context) (parent : Z) (name : name_t) (path : list Z) (inode : Z) : Op Z :=
  _ ← verifySession ReadWrite cx NotMeta;
  dir ← getNodeForOperation cx ExpectDirectory MODE_MASK_W parent;
  n ← node dir; d ← reads (fun _ => directory_of n);
  basePath ← (if caseInsensitive d then resolved ← getCanonicalPath cx path; mret (default path resolved) else mret path);
  _ ← require (negb (bool_decide (basePath = [])) && forallb (fun c => negb (c =? 0)) basePath) ERROR_EINVAL;
  _ ← require (nameCheck name) ERROR_EINVAL;
  _ ← free_name dir name;
  uid ← uid_of cx; gid ← gid_of cx;
  _ ← (if isPersonalityMaster cx then checkQuotaUgDir uid gid dir [(kInodes, 1)] else mret tt);
  _ ← effect (createNode goals (ts cx) dir name kSymlink kStandardPermissions 0 uid gid false false inode);
  _ ← effect (set_path inode basePath);
  _ ← effect (fun s =>
    nodes ← addStats SPECIAL_INODE_ROOT dir (MkStats 0 0 0 0 0 (Z.of_nat (length basePath)) 0 0) (md_nodes s);
    Some (set_nodes s nodes));
  _ ← changeLog cx (SYMLINK dir name basePath uid gid inode);
  mret inode.

(** ** Removed names *)

Definition unlink_op (cx : Context) (parent : Z) (name : name_t) : Op unit :=
  _ ← verifySession ReadWrite cx NotMeta;
  dir ← getNodeForOperation cx ExpectDirectory MODE_MASK_W parent;
  baseName ← base_name dir name;
  _ ← require (nameCheck baseName) ERROR_EINVAL;
  found ← look dir baseName;
  match found with
  | None => throw ERROR_ENOENT
  | Some child =>
    _ ← sticky cx dir child;
    cn ← node child;
    _ ← require (negb (is_dir cn)) ERROR_EPERM;
    _ ← changeLog cx (UNLINK dir baseName child);
    effect (unlink goals (ts cx) dir baseName child)
  end.

Definition is_empty_dir (n : FSNode) : bool :=
  match directory_of n with Some d => bool_decide (entries d = []) | None => true end.

Definition rmdir (cx : Context) (parent : Z) (name : name_t) : Op unit :=
  _ ← verifySession ReadWrite cx NotMeta;
  dir ← getNodeForOperation cx ExpectDirectory MODE_MASK_W parent;
  _ ← require (nameCheck name) ERROR_EINVAL;
  found ← look dir name;
  match found with
  | None => throw ERROR_ENOENT
  | Some child =>
    _ ← sticky cx dir child;
    cn ← node child;
    _ ← require (is_dir cn) ERROR_ENOTDIR;
    _ ← require (is_empty_dir cn) ERROR_ENOTEMPTY;
    _ ← changeLog cx (UNLINK dir name child);
    effect (unlink goals (ts cx) dir name child)
  end.

Definition applyUnlink (ts parent : Z) (name : name_t) (inode : Z) : Op unit :=
  found ← reads (fun s => Some (md_nodes s !! parent));
  match found with
  | None => throw ERROR_ENOENT
  | Some workDir =>
    _ ← require (is_dir workDir) ERROR_ENOTDIR;
    found ← look parent name;
    match found with
    | None => throw ERROR_ENOENT
    | Some child =>
      cn ← node child;
      _ ← require (node_id cn =? inode) ERROR_MISMATCH;
      _ ← require (negb (is_dir cn && negb (is_empty_dir cn))) ERROR_ENOTEMPTY;
      _ ← effect (unlink goals ts parent name child);
      next_version
    end
  end.

(** ** Moves and hard links *)

(** What the source brings and what the destination takes away: inodes and size. *)
Definition moved_in (n : FSNode) : Z * Z :=
  match node_type n, directory_of n with
  | kDirectory, Some d => (st_inodes (dir_stats d), st_size (dir_stats d))
  | kFile, _ => (1, getSize goals n)
  | _, _ => (1, 1)
  end.

Definition move_quota (dst src : Z) (source : FSNode) (replaced : option FSNode) : Op unit :=
  let '(i1, s1) := moved_in source in
  let '(i2, s2) := match replaced with Some n => moved_in n | None => (0, 0) end in
  exceeded ← reads (fun s => quota_exceeded_dir_move (md_nodes s) (md_quota s) dst src [(kInodes, i1 - i2); (kSize, s1 - s2)]);
  require (negb exceeded) ERROR_QUOTA.

(** [inode] is the number that the changelog has; the master does not use it. *)
Definition rename (cx : Context) (parent_src : Z) (name_src : name_t) (parent_dst : Z) (name_dst : name_t) (inode : Z)
  : Op Z :=
  _ ← verifySession ReadWrite cx AnySession;
  dst ← getNodeForOperation cx ExpectDirectory MODE_MASK_W parent_dst;
  src ← getNodeForOperation cx ExpectDirectory MODE_MASK_W parent_src;
  baseSrc ← base_name src name_src;
  baseDst ← base_name dst name_dst;
  _ ← require (nameCheck baseSrc) ERROR_EINVAL;
  found ← look src baseSrc;
  match found with
  | None => throw ERROR_ENOENT
  | Some child =>
    _ ← (match checks_permissions cx with Some _ => sticky cx src child | None => mret tt end);
    _ ← require (isPersonalityMaster cx || (child =? inode)) ERROR_MISMATCH;
    cn ← node child;
    below ← (if is_dir cn then reads (fun s => isAncestor (md_nodes s) child dst) else mret false);
    _ ← require (negb below) ERROR_EINVAL;
    _ ← require (nameCheck baseDst) ERROR_EINVAL;
    replaced ← look dst baseDst;
    if bool_decide (replaced = Some child) then mret child
    else
      rn ← (match replaced with
            | None => mret None
            | Some y =>
              n ← node y;
              _ ← require (negb (is_dir n && negb (is_empty_dir n))) ERROR_ENOTEMPTY;
              _ ← (match checks_permissions cx with Some _ => sticky cx dst y | None => mret tt end);
              mret (Some n)
            end);
      _ ← move_quota dst src cn rn;
      _ ← (match replaced with Some y => effect (unlink goals (ts cx) dst baseDst y) | None => mret tt end);
      _ ← effect (fun s => nodes ← removeEdge goals SPECIAL_INODE_ROOT (ts cx) src baseSrc child (md_nodes s); Some (set_nodes s nodes));
      _ ← effect (fun s => nodes ← FsTree.link goals SPECIAL_INODE_ROOT (ts cx) dst child baseDst (md_nodes s); Some (set_nodes s nodes));
      _ ← changeLog cx (MOVE src baseSrc dst baseDst child);
      mret child
  end.

Definition link_op (cx : Context) (inode_src parent_dst : Z) (name_dst : name_t) : Op unit :=
  _ ← verifySession ReadWrite cx NotMeta;
  dst ← getNodeForOperation cx ExpectDirectory MODE_MASK_W parent_dst;
  src ← getNodeForOperation cx ExpectNotDirectory MODE_MASK_EMPTY inode_src;
  n ← node src;
  _ ← require (negb (is_detached n)) ERROR_ENOENT;
  _ ← require (nameCheck name_dst) ERROR_EINVAL;
  _ ← free_name dst name_dst;
  _ ← effect (fun s => nodes ← FsTree.link goals SPECIAL_INODE_ROOT (ts cx) dst src name_dst (md_nodes s); Some (set_nodes s nodes));
  changeLog cx (LINK src dst name_dst).

(** ** The trash *)

Definition setTrashPath (cx : Context) (inode : Z) (path : list Z) : Op unit :=
  _ ← verifySession ReadWrite cx OnlyMeta;
  x ← getNodeForOperation cx ExpectAny MODE_MASK_EMPTY inode;
  n ← node x;
  _ ← require (bool_decide (node_type n = kTrash)) ERROR_ENOENT;
  _ ← require (negb (bool_decide (path = [])) && forallb (fun c => negb (c =? 0)) path) ERROR_EINVAL;
  _ ← effect (fun s => Some (set_detached s
        (updateTrashNameEntry (md_detached s) (node_id n) (node_ctime n) (node_trashtime n) path)));
  changeLog cx (SETPATH x path).

(** The loop of undel() over the names of the path; [fresh] are the numbers for new directories.  The assertion that
    only the master makes directories is that of the master server. *)
Fixpoint undel_walk (cx : Context) (x parent : Z) (isNew : bool) (names : list name_t) (fresh : list Z) : Op unit :=
  match names with
  | [] => reads (fun _ => None)
  | [name] => _ ← free_name parent name; effect (undel_link goals (ts cx) x parent name)
  | name :: names =>
    found ← (if isNew then mret None else look parent name);
    match found with
    | Some y =>
      n ← node y;
      _ ← require (is_dir n) ERROR_CANTCREATEPATH;
      undel_walk cx x y false names fresh
    | None =>
      match fresh with
      | [] => reads (fun _ => None)
      | y :: fresh =>
        _ ← effect (createNode goals (ts cx) parent name kDirectory kUndelDirectoryMode 0 0 0 false false y);
        _ ← reads (fun _ => if isPersonalityMaster cx then Some tt else None);
        _ ← log_create cx parent name kDirectory 0 0 0 y;
        undel_walk cx x y true names fresh
      end
    end
  end.

Definition stored_path (n : FSNode) (s : Metadata) : option (list Z) :=
  match node_type n with
  | kTrash => path_of <$> trash (md_detached s) !! key_of n
  | kReserved => path_of <$> reserved (md_detached s) !! node_id n
  | _ => None
  end.

Definition undel_node (cx : Context) (x : Z) (fresh : list Z) : Op unit :=
  n ← node x;
  path ← reads (stored_path n);
  _ ← require (validateTrashPath path) ERROR_CANTCREATEPATH;
  undel_walk cx x SPECIAL_INODE_ROOT false (segments (skip_slashes path)) fresh.

(** The end of operations that record their success: a status that is not OK is counted on a shadow, too. *)
Definition recorded (cx : Context) (e : LogEntry) (m : Op unit) : Op unit := fun s =>
  match m s with
  | None => None
  | Some (inr _, s, log) =>
    match changeLog cx e s with Some (r, s, log') => Some (r, s, log ++ log') | None => None end
  | Some (inl e, s, log) => Some (inl e, if isPersonalityMaster cx then s else increaseMetadataVersion s, log)
  end.

Definition undel (cx : Context) (inode : Z) (fresh : list Z) : Op unit :=
  _ ← verifySession ReadWrite cx OnlyMeta;
  x ← getNodeForOperation cx ExpectAny MODE_MASK_EMPTY inode;
  n ← node x;
  _ ← require (bool_decide (node_type n = kTrash)) ERROR_ENOENT;
  recorded cx (UNDEL x) (undel_node cx x fresh).

Definition purge_op (cx : Context) (inode : Z) : Op unit :=
  _ ← verifySession ReadWrite cx OnlyMeta;
  x ← getNodeForOperation cx ExpectAny MODE_MASK_EMPTY inode;
  n ← node x;
  _ ← require (bool_decide (node_type n = kTrash)) ERROR_ENOENT;
  _ ← effect (fun s => snd <$> purge goals (ts cx) x s);
  changeLog cx (PURGE x).

(** ** Open files *)

Definition acquire (cx : Context) (inode sessionid : Z) : Op unit :=
  found ← reads (fun s => Some (md_nodes s !! inode));
  match found with
  | None => throw ERROR_ENOENT
  | Some n =>
    _ ← require (is_file n) ERROR_EPERM;
    '(len, sessionIds, chunks) ← reads (fun _ => file_of n);
    _ ← require (negb (existsb (Z.eqb sessionid) sessionIds)) ERROR_EINVAL;
    _ ← effect (fun s => Some (put_node inode (with_file n len (sessionIds ++ [sessionid]) chunks) s));
    changeLog cx (ACQUIRE inode sessionid)
  end.

Definition release (cx : Context) (inode sessionid : Z) : Op unit :=
  found ← reads (fun s => Some (md_nodes s !! inode));
  match found with
  | None => throw ERROR_ENOENT
  | Some n =>
    _ ← require (is_file n) ERROR_EPERM;
    '(len, sessionIds, chunks) ← reads (fun _ => file_of n);
    _ ← require (existsb (Z.eqb sessionid) sessionIds) ERROR_EINVAL;
    let rest := erase_first (Z.eqb sessionid) sessionIds in
    _ ← effect (fun s => Some (put_node inode (with_file n len rest chunks) s));
    _ ← (if bool_decide (node_type n = kReserved) && bool_decide (rest = [])
         then effect (fun s => snd <$> purge goals (ts cx) inode s) else mret tt);
    changeLog cx (RELEASE inode sessionid)
  end.

(** ** The cleaners of the master *)

(** The first entry of the trash: the keys are ordered by time and number. *)
Definition key_before (a b : Z * Z) : bool := (a.1 <? b.1) || ((a.1 =? b.1) && (a.2 <? b.2)).

Definition first_key (keys : list (Z * Z)) : option (Z * Z) :=
  foldr (fun k acc => match acc with Some k' => Some (if key_before k' k then k' else k) | None => Some k end) None keys.

Definition first_of (xs : list Z) : option Z :=
  foldr (fun x acc => match acc with Some y => Some (Z.min x y) | None => Some x end) None xs.

(** The answers of the watchdog to the calls of expired(), by their number. *)
Definition Watchdog : Type := nat -> bool.

(** One round of the loop of doEmptyTrash(), after [calls] calls of the watchdog; [None] leaves the loop. *)
Definition empty_trash_round (expired : Watchdog) (timeStamp : Z) (calls : nat) : Op (option nat) :=
  first ← reads (fun s => Some (first_key (map_to_list (trash (md_detached s))).*1));
  match first with
  | None => mret None
  | Some key =>
    if negb (key.1 <? timeStamp) then mret None
    else
      found ← reads (fun s => Some (md_nodes s !! key.2));
      match found with
      | None => _ ← effect (fun s => Some (set_detached s (removeTrashEntryByKey (md_detached s) key))); mret (Some calls)
      | Some n =>
        _ ← reads (fun _ => if bool_decide (node_type n = kTrash) then Some tt else None);
        _ ← effect (fun s => snd <$> purge goals timeStamp key.2 s);
        _ ← changeLog (getForMaster timeStamp) (PURGE (node_id n));
        mret (if expired calls then None else Some (S calls))
      end
  end.

Fixpoint rounds (round : nat -> Op (option nat)) (fuel calls : nat) : Op unit :=
  match fuel with
  | O => reads (fun _ => None)
  | S fuel => next ← round calls; match next with Some calls => rounds round fuel calls | None => mret tt end
  end.

(** Every round removes a file, so that there are no more rounds than files. *)
Definition doEmptyTrash (expired : Watchdog) (timeStamp : Z) : Op unit := fun s =>
  rounds (empty_trash_round expired timeStamp) (S (base.size (trash (md_detached s)))) 0 s.

Fixpoint release_all (timeStamp inode : Z) (sessionIds : list Z) : Op unit :=
  match sessionIds with
  | [] => mret tt
  | sessionid :: sessionIds => fun s =>
    match release (getForMaster timeStamp) inode sessionid s with
    | None => None
    | Some (_, s, log) =>
      match release_all timeStamp inode sessionIds s with Some (r, s, log') => Some (r, s, log ++ log') | None => None end
    end
  end.

Definition empty_reserved_round (expired : Watchdog) (timeStamp : Z) (calls : nat) : Op (option nat) :=
  first ← reads (fun s => Some (first_of (map_to_list (reserved (md_detached s))).*1));
  match first with
  | None => mret None
  | Some x =>
    if expired calls then mret None
    else
      found ← reads (fun s => Some (md_nodes s !! x));
      match found with
      | None => _ ← effect (fun s => Some (set_detached s (removeReservedEntry (md_detached s) x))); mret (Some (S calls))
      | Some n =>
        _ ← reads (fun _ => if bool_decide (node_type n = kReserved) then Some tt else None);
        '(_, sessionIds, _) ← reads (fun _ => file_of n);
        _ ← reads (fun _ => if bool_decide (sessionIds = []) then None else Some tt);
        _ ← release_all timeStamp (node_id n) sessionIds;
        mret (Some (S calls))
      end
  end.

Definition doEmptyReserved (expired : Watchdog) (timeStamp : Z) : Op unit := fun s =>
  rounds (empty_reserved_round expired timeStamp) (S (base.size (reserved (md_detached s)))) 0 s.

(** ** Attributes and lengths *)

Definition SET_MODE_FLAG : Z := 2.
Definition SET_UID_FLAG : Z := 4.
Definition SET_GID_FLAG : Z := 8.
Definition SET_MTIME_NOW_FLAG : Z := 16.
Definition SET_MTIME_FLAG : Z := 32.
Definition SET_ATIME_FLAG : Z := 64.
Definition SET_ATIME_NOW_FLAG : Z := 128.

Inductive SugidClearMode := ClearNever | ClearAlways | ClearOsx | ClearBsd | ClearExt | ClearSfs.

(** The bits that chown clears: of the mode of the node and of the new mode. *)
Definition both_cleared : Z * Z := (62463, 1023).  (* 0171777 and 01777 *)
Definition suid_cleared : Z * Z := (63487, 2047).  (* 0173777 and 03777 *)

Definition sugid_masks (mode : SugidClearMode) (uid : Z) (setmask attrgid : Z) (n : FSNode) : option (Z * Z) :=
  let by_exec := if has (node_mode n) 8 then Some both_cleared else Some suid_cleared in
  match mode with
  | ClearNever => None
  | ClearAlways => Some both_cleared
  | ClearOsx => if uid =? 0 then None else Some both_cleared
  | ClearBsd => if negb (uid =? 0) && has setmask SET_GID_FLAG && negb (node_gid n =? attrgid) then Some both_cleared else None
  | ClearExt => if is_dir n then None else by_exec
  | ClearSfs => if is_dir n then (if uid =? 0 then None else Some both_cleared) else by_exec
  end.

Definition setattr_checks (cx : Context) (ses : Session) (u : User) (x : Z) (n : FSNode) (setmask attruid attrgid : Z) : Op unit :=
  let uid := user_uid u in
  let cx' := MkContext (sesflags ses) uid (user_gids u) in
  _ ← require (negb (negb (uid =? 0) && has (sesflags ses) SESFLAG_MAPALL && has setmask (Z.lor SET_UID_FLAG SET_GID_FLAG))) ERROR_EPERM;
  _ ← (if negb (has (node_mode n) (Z.shiftl EATTR_NOOWNER EATTR_BIT_OFFSET)) && negb (uid =? 0) && negb (uid =? node_uid n) then
         _ ← require (negb (has setmask (Z.lor SET_MODE_FLAG (Z.lor SET_UID_FLAG SET_GID_FLAG)))) ERROR_EPERM;
         _ ← require (negb (has setmask SET_ATIME_FLAG && negb (has setmask SET_ATIME_NOW_FLAG))) ERROR_EPERM;
         _ ← require (negb (has setmask SET_MTIME_FLAG && negb (has setmask SET_MTIME_NOW_FLAG))) ERROR_EPERM;
         if has setmask (Z.lor SET_ATIME_NOW_FLAG SET_MTIME_NOW_FLAG) then
           allowed ← reads (fun s => NodeAcl.access cx' n MODE_MASK_W (md_acls s)); require allowed ERROR_EACCES
         else mret tt
       else mret tt);
  _ ← require (negb (negb (uid =? 0) && negb (uid =? attruid) && has setmask SET_UID_FLAG)) ERROR_EPERM;
  require (has (sesflags ses) SESFLAG_IGNOREGID
           || negb (negb (uid =? 0) && has setmask SET_GID_FLAG && negb (existsb (Z.eqb attrgid) (user_gids u)))) ERROR_EPERM.

Definition changes_owner (setmask : Z) : bool := has setmask (Z.lor SET_UID_FLAG SET_GID_FLAG).

(** The mode that chown leaves, and the new mode that chmod gets. *)
Definition cleared_modes (clear : SugidClearMode) (uid setmask attrmode attrgid : Z) (n : FSNode) : Z * Z :=
  let attrmode := if changes_owner setmask && has setmask SET_MODE_FLAG
                  then Z.lor attrmode (Z.land (node_mode n) 3072) else attrmode in
  if has (node_mode n) 3072 && changes_owner setmask then
    match sugid_masks clear uid setmask attrgid n with
    | Some (m1, m2) => (Z.land (node_mode n) m1, Z.land attrmode m2)
    | None => (node_mode n, attrmode)
    end
  else (node_mode n, attrmode).

Definition set_times (x : Z) (timeStamp setmask attratime attrmtime : Z) (s : Metadata) : option Metadata :=
  n ← md_nodes s !! x;
  let n := if has setmask SET_ATIME_NOW_FLAG then with_atime n timeStamp
           else if has setmask SET_ATIME_FLAG then with_atime n attratime else n in
  let n := if has setmask SET_MTIME_NOW_FLAG then with_mtime n timeStamp
           else if has setmask SET_MTIME_FLAG then with_mtime n attrmtime else n in
  Some (put_node x n s).

Definition sync_acl (x : Z) (s : Metadata) : option Metadata :=
  n ← md_nodes s !! x; acls ← syncAclWithMode n (md_acls s); Some (set_acls s acls).

Definition setAttr (cx : Context) (inode setmask attrmode attruid attrgid attratime attrmtime : Z)
    (clear : SugidClearMode) : Op unit :=
  _ ← verifySession ReadWrite cx NotMeta;
  x ← getNodeForOperation cx ExpectAny MODE_MASK_EMPTY inode;
  n ← node x;
  ses ← reads (fun _ => session cx); u ← reads (fun _ => user cx);
  _ ← setattr_checks cx ses u x n setmask attruid attrgid;
  let '(mode, attrmode) := cleared_modes clear (user_uid u) setmask attrmode attrgid n in
  _ ← effect (fun s => Some (put_node x (set_mode n mode) s));
  _ ← (if has setmask SET_MODE_FLAG then
         _ ← effect (fun s => Some (put_node x
               (set_mode n (Z.lor (Z.land attrmode kPermissionsMask) (Z.land mode kExtraAttributesMask))) s));
         effect (sync_acl x)
       else mret tt);
  _ ← (if changes_owner setmask
       then effect (changeUidGid goals x (if has setmask SET_UID_FLAG then attruid else node_uid n)
                      (if has setmask SET_GID_FLAG then attrgid else node_gid n)) else mret tt);
  _ ← effect (set_times x (ts cx) setmask attratime attrmtime);
  n ← node x;
  _ ← changeLog cx (ATTR (node_id n) (Z.land (node_mode n) kPermissionsMask) (node_uid n) (node_gid n) (node_atime n) (node_mtime n));
  effect (updateCTime x (ts cx)).

Definition applyAttr (ts inode mode uid gid atime mtime : Z) : Op unit :=
  found ← reads (fun s => Some (md_nodes s !! inode));
  match found with
  | None => throw ERROR_ENOENT
  | Some n =>
    _ ← require (mode <=? kPermissionsMask) ERROR_EINVAL;
    _ ← effect (fun s => Some (put_node inode (set_mode n (Z.lor mode (Z.land (node_mode n) kExtraAttributesMask))) s));
    _ ← effect (sync_acl inode);
    _ ← (if (node_uid n =? uid) && (node_gid n =? gid) then mret tt else effect (changeUidGid goals inode uid gid));
    n ← node inode;
    _ ← effect (fun s => Some (put_node inode (with_mtime (with_atime n atime) mtime) s));
    _ ← effect (updateCTime inode ts);
    next_version
  end.

Definition set_mtime (x mtime : Z) (s : Metadata) : option Metadata :=
  n ← md_nodes s !! x; Some (put_node x (with_mtime n mtime) s).

Definition doSetLength (cx : Context) (inode len : Z) : Op unit :=
  _ ← verifySession ReadWrite cx AnySession;
  x ← getNodeForOperation cx ExpectFile MODE_MASK_EMPTY inode;
  _ ← effect (setLength goals x len true);
  _ ← changeLog cx (LENGTH inode len true);
  _ ← effect (set_mtime x (ts cx));
  effect (updateCTime x (ts cx)).

Definition applyLength (ts inode len : Z) (eraseFurtherChunks : bool) : Op unit :=
  found ← reads (fun s => Some (md_nodes s !! inode));
  match found with
  | None => throw ERROR_ENOENT
  | Some n =>
    _ ← require (is_file n) ERROR_EINVAL;
    _ ← effect (setLength goals inode len eraseFurtherChunks);
    _ ← effect (set_mtime inode ts);
    _ ← effect (updateCTime inode ts);
    next_version
  end.

End ops.
