(* ===== verification/FsAttrOps.v ===== *)
(** The operations on access control lists, quotas, times of access and trash times
    (src/master/filesystem_operations.cc, src/master/filesystem_quota.cc), as in FsOps.v. *)
From S2P Require Import Prelude Serialization RichACL AclMasks AclPosix AclStorage Nodes FileSize NodeAcl Trash.
From S2P Require Import AclText Quota FsTree FsMeta FsOps.

(** ** Access control lists *)

Definition status_of (st : NodeAcl.status) : fs_status :=
  match st with
  | OK => STATUS_OK | EPERM => ERROR_EPERM | ENOTSUP => ERROR_ENOTSUP | EINVAL => ERROR_EINVAL | ENOATTR => ERROR_ENOATTR
  | ENOENT => ERROR_ENOENT
  end.

(** The functions of NodeAcl.v set the ctime of the node alone; here the entry of a file in the trash follows. *)
Definition change_acl (change : FSNode -> AclStorage -> option (NodeAcl.status * FSNode * AclStorage)) (x timeStamp : Z) : Op unit :=
  n ← node x;
  result ← reads (fun s => change n (md_acls s));
  match result with
  | (OK, n', acls) =>
    _ ← effect (fun s => Some (put_node x (NodeAcl.set_ctime n' (node_ctime n)) (set_acls s acls)));
    effect (updateCTime x timeStamp)
  | (st, _, _) => throw (status_of st)
  end.

Definition setRichAcl (cx : Context) (inode : Z) (acl : RichACL) : Op unit :=
  _ ← verifySession ReadWrite cx NotMeta;
  x ← getNodeForOperation cx ExpectAny MODE_MASK_EMPTY inode;
  recorded cx (SETRICHACL x (AclText.toString acl)) (change_acl (fun n st => NodeAcl.setAcl n acl (ts cx) st) x (ts cx)).

Definition setAcl_op (cx : Context) (inode : Z) (type : AclType) (acl : Posix.AccessControlList) : Op unit :=
  _ ← verifySession ReadWrite cx NotMeta;
  x ← getNodeForOperation cx ExpectAny MODE_MASK_EMPTY inode;
  recorded cx (SETACL x (match type with kAccess => kAccess | _ => kDefault end) (PosixText.toString acl))
    (change_acl (fun n st => setPosixAcl n type acl (ts cx) st) x (ts cx)).

Definition deleteAcl_op (cx : Context) (inode : Z) (type : AclType) : Op unit :=
  _ ← verifySession ReadWrite cx NotMeta;
  x ← getNodeForOperation cx ExpectAny MODE_MASK_EMPTY inode;
  recorded cx (DELETEACL x type) (change_acl (fun n st => NodeAcl.deleteAcl n type (ts cx) st) x (ts cx)).

(** The entries of lists have their text, which is read first. *)
Definition applySetRichAcl (ts inode : Z) (acl_string : list Z) : Op unit :=
  match AclText.fromString acl_string with
  | None => throw ERROR_EINVAL
  | Some acl =>
    found ← reads (fun s => Some (md_nodes s !! inode));
    match found with
    | None => throw ERROR_ENOENT
    | Some _ => _ ← change_acl (fun n st => NodeAcl.setAcl n acl ts st) inode ts; next_version
    end
  end.

Definition applySetAcl (ts inode : Z) (type : AclType) (acl_string : list Z) : Op unit :=
  match PosixText.fromString acl_string with
  | None => throw ERROR_EINVAL
  | Some acl =>
    found ← reads (fun s => Some (md_nodes s !! inode));
    match found, type with
    | None, _ => throw ERROR_ENOENT
    | Some _, kRichACL => throw ERROR_EINVAL
    | Some _, _ => _ ← change_acl (fun n st => setPosixAcl n type acl ts st) inode ts; next_version
    end
  end.

(** ** Quotas *)

Fixpoint record_quotas (cx : Context) (records : list SetQuota) : Op unit :=
  match records with
  | [] => mret tt
  | r :: records => _ ← changeLog cx (SETQUOTA r); record_quotas cx records
  end.

Definition quotaSet (cx : Context) (entries : list QuotaEntry) : Op unit :=
  ses ← reads (fun _ => session cx);
  u ← reads (fun _ => user cx);
  result ← reads (fun s => Some (fs_quota_set (fun x => bool_decide (is_Some (md_nodes s !! x))) (sesflags ses) (user_uid u)
                                   entries (md_quota s)));
  match result with
  | (QOK, db, records) => _ ← effect (fun s => Some (set_quota s db)); record_quotas cx records
  | (QEROFS, _, _) => throw ERROR_EROFS
  | (QEPERM, _, _) => throw ERROR_EPERM
  | (QEINVAL, _, _) => throw ERROR_EINVAL
  end.

Definition applySetQuota (r : SetQuota) : Op unit :=
  result ← reads (fun s => Some (fs_apply_setquota r (md_quota s)));
  match result with
  | (QOK, db) => _ ← effect (fun s => Some (set_quota s db)); next_version
  | _ => throw ERROR_EINVAL
  end.

(** ** Times of access *)

(** [disabled] is the configuration option NO_ATIME. *)
Definition fs_update_atime (disabled : bool) (cx : Context) (x : Z) : Op unit :=
  n ← node x;
  if negb disabled && negb (node_atime n =? ts cx) then
    _ ← effect (fun s => Some (put_node x (with_atime n (ts cx)) s));
    changeLog cx (ACCESS (node_id n))
  else mret tt.

Definition readlink (disabled : bool) (cx : Context) (inode : Z) : Op (list Z) :=
  _ ← verifySession ReadOnly cx NotMeta;
  x ← getNodeForOperation cx ExpectAny MODE_MASK_EMPTY inode;
  n ← node x;
  _ ← require (bool_decide (node_type n = kSymlink)) ERROR_EINVAL;
  path ← reads (fun _ => match node_data n with SymlinkData path _ => Some path | _ => None end);
  _ ← fs_update_atime disabled cx x;
  mret path.

Definition kMaxChunkIndex : Z := 2147483647.

(** readChunk() without automatic repair: the chunk and the length of the file. *)
Definition readChunk (disabled : bool) (timeStamp inode index : Z) : Op (Z * Z) :=
  found ← reads (fun s => Some (md_nodes s !! inode));
  match found with
  | None => throw ERROR_ENOENT
  | Some n =>
    _ ← require (is_file n) ERROR_EPERM;
    _ ← require (index <=? kMaxChunkIndex) ERROR_INDEXTOOBIG;
    '(len, _, chunks) ← reads (fun _ => file_of n);
    _ ← fs_update_atime disabled (getForMaster timeStamp) inode;
    mret (getFileChunkId chunks index, len)
  end.

Definition applyAccess (ts inode : Z) : Op unit :=
  found ← reads (fun s => Some (md_nodes s !! inode));
  match found with
  | None => throw ERROR_ENOENT
  | Some n => _ ← effect (fun s => Some (put_node inode (with_atime n ts) s)); next_version
  end.

(** ** Trash times *)

Definition SMODE_TMASK : Z := 3.
Definition SMODE_RMASK : Z := 4.
Definition SMODE_ISVALID (smode : Z) : bool := negb (Z.land smode SMODE_TMASK =? 3) && (smode <=? 7).

(** The cases of the switch; the fourth value is not valid. *)
Definition smode_of (smode : Z) : SetMode :=
  match Z.land smode SMODE_TMASK with 0 => SMODE_SET | 1 => SMODE_INCREASE | _ => SMODE_DECREASE end.

#[global] Instance SetTrashtimeResult_eq_dec : EqDecision SetTrashtimeResult.
Proof. solve_decision. Defined.

(** The numbers of the results; 3 is the size of the statistics. *)
Definition result_code (r : SetTrashtimeResult) : Z := match r with kChanged => 0 | kNotChanged => 1 | kNotPermitted => 2 | kNoAction => 4 end.

Definition applySetTrashTime (cx : Context) (inode trashtime smode master_result : Z) : Op unit :=
  _ ← require (SMODE_ISVALID smode) ERROR_EINVAL;
  _ ← verifySession ReadWrite cx AnySession;
  x ← getNodeForOperation cx ExpectAny MODE_MASK_EMPTY inode;
  n ← node x;
  _ ← require (is_dir n || is_file n) ERROR_EPERM;
  uid ← uid_of cx;
  result ← modify (setTrashtime uid trashtime (smode_of smode) x (ts cx));
  _ ← next_version;
  require (master_result =? result_code result) ERROR_MISMATCH.
