(* ===== verification/FsRestore.v ===== *)
(** The replay of the changelog on a shadow (src/master/restore.cc): the operation that applies an entry, and the whole
    log.  The fields of entries are values, except access control lists, which have their text; the text of whole entries is
    in Changelog.v. *)
From S2P Require Import Prelude Serialization RichACL AclPosix AclStorage Nodes NodeAcl Quota FsTree FsMeta FsOps FsAttrOps.

Section restore.
Context (goals : Z -> Goals.Goal).

Definition restore_line (ts : Z) (e : LogEntry) : Op unit :=
  let cx := getForRestore ts in
  match e with
  | CREATE parent name type mode uid gid rdev inode => applyCreate goals ts parent name type mode uid gid rdev inode
  | UNLINK parent name inode => applyUnlink goals ts parent name inode
  | MOVE parent_src name_src parent_dst name_dst inode => _ ← rename goals cx parent_src name_src parent_dst name_dst inode; mret tt
  | LINK inode parent name => link_op goals cx inode parent name
  | SYMLINK parent name path uid gid inode =>
    _ ← symlink goals (getForRestoreWithUidGid ts uid gid) parent name path inode; mret tt
  | PURGE inode => purge_op goals cx inode
  | UNDEL inode => undel goals cx inode []
  | SETPATH inode path => setTrashPath cx inode path
  | ACQUIRE inode sessionid => acquire cx inode sessionid
  | RELEASE inode sessionid => release goals cx inode sessionid
  | ATTR inode mode uid gid atime mtime => applyAttr goals ts inode mode uid gid atime mtime
  | LENGTH inode len eraseFurtherChunks => applyLength goals ts inode len eraseFurtherChunks
  | ACCESS inode => applyAccess ts inode
  | SETTRASHTIME inode uid trashtime smode => applySetTrashTime (getForRestoreWithUidGid ts uid 0) inode trashtime smode (result_code kChanged)
  | SETRICHACL inode acl_string => applySetRichAcl ts inode acl_string
  | SETACL inode type acl_string => applySetAcl ts inode type acl_string
  | DELETEACL inode type => deleteAcl_op cx inode type
  | SETQUOTA record => applySetQuota record
  end.

(** A shadow stops at the first entry whose status is not OK. *)
Fixpoint replay_log (log : list (Z * LogEntry)) (s : Metadata) : option Metadata :=
  match log with
  | [] => Some s
  | (ts, e) :: log =>
    match restore_line ts e s with Some (inr _, s, _) => replay_log log s | _ => None end
  end.

End restore.
