(* ===== verification/Changelog.v ===== *)
(** The text of the changelog: the lines that changeLog() formats and changelog() writes (src/master/filesystem_operations.cc,
    src/master/changelog.cc, escapeName() of src/master/filesystem_node.cc), and the macros and functions with which
    src/master/restore.cc reads a line, applies it and checks the version of the metadata.

    A text is the list of its characters; a C string is the text before its final zero, so [*ptr] at the end is zero, and
    reading behind the zero is [Beyond].  Lines of operations that the library does not model are [Outside]. *)
From Stdlib Require Import String Ascii.
From S2P Require Import Prelude Serialization Text RichACL AclPosix AclText AclStorage Nodes NodeAcl Quota FsTree FsMeta.
From S2P Require Import FsOps FsAttrOps FsRestore.

(** ** Writing *)

Definition hexDigit (x : Z) : Z := if x <? 10 then chr "0" + x else chr "A" + (x - 10).

Definition is_escaped (c : Z) : bool :=
  (c <? 32) || (127 <=? c) || (c =? chr ",") || (c =? chr "%") || (c =? chr "(") || (c =? chr ")").

Definition escape_char (c : Z) : list Z :=
  if is_escaped c then [chr "%"; hexDigit (Z.land (Z.shiftr c 4) 15); hexDigit (Z.land c 15)] else [c].

Definition escapeName (name : list Z) : list Z := concat (escape_char <$> name).

Definition acl_char (type : AclType) : Z := match type with kAccess => chr "a" | kDefault => chr "d" | kRichACL => chr "r" end.

(** The formats of the calls of changeLog(). *)
Definition entry_text (e : LogEntry) : list Z :=
  match e with
  | CREATE parent name type mode uid gid rdev inode =>
    txt "CREATE" ++ txt "(" ++ dec parent ++ txt "," ++ escapeName name ++ txt "," ++ [type_code type] ++ txt "," ++ dec mode ++ txt "," ++
    dec uid ++ txt "," ++ dec gid ++ txt "," ++ dec rdev ++ txt ")" ++ txt ":" ++ dec inode
  | UNLINK parent name inode => txt "UNLINK" ++ txt "(" ++ dec parent ++ txt "," ++ escapeName name ++ txt ")" ++ txt ":" ++ dec inode
  | MOVE parent_src name_src parent_dst name_dst inode =>
    txt "MOVE" ++ txt "(" ++ dec parent_src ++ txt "," ++ escapeName name_src ++ txt "," ++ dec parent_dst ++ txt "," ++
    escapeName name_dst ++ txt ")" ++ txt ":" ++ dec inode
  | LINK inode parent name => txt "LINK" ++ txt "(" ++ dec inode ++ txt "," ++ dec parent ++ txt "," ++ escapeName name ++ txt ")"
  | SYMLINK parent name path uid gid inode =>
    txt "SYMLINK" ++ txt "(" ++ dec parent ++ txt "," ++ escapeName name ++ txt "," ++ escapeName path ++ txt "," ++ dec uid ++ txt "," ++
    dec gid ++ txt ")" ++ txt ":" ++ dec inode
  | PURGE inode => txt "PURGE" ++ txt "(" ++ dec inode ++ txt ")"
  | UNDEL inode => txt "UNDEL" ++ txt "(" ++ dec inode ++ txt ")"
  | SETPATH inode path => txt "SETPATH" ++ txt "(" ++ dec inode ++ txt "," ++ escapeName path ++ txt ")"
  | ACQUIRE inode sessionid => txt "ACQUIRE" ++ txt "(" ++ dec inode ++ txt "," ++ dec sessionid ++ txt ")"
  | RELEASE inode sessionid => txt "RELEASE" ++ txt "(" ++ dec inode ++ txt "," ++ dec sessionid ++ txt ")"
  | ATTR inode mode uid gid atime mtime =>
    txt "ATTR" ++ txt "(" ++ dec inode ++ txt "," ++ dec mode ++ txt "," ++ dec uid ++ txt "," ++ dec gid ++ txt "," ++ dec atime ++
    txt "," ++ dec mtime ++ txt ")"
  | LENGTH inode length erase =>
    txt "LENGTH" ++ txt "(" ++ dec inode ++ txt "," ++ dec length ++ txt "," ++ dec (if erase then 1 else 0) ++ txt ")"
  | ACCESS inode => txt "ACCESS" ++ txt "(" ++ dec inode ++ txt ")"
  | SETTRASHTIME inode uid trashtime smode =>
    txt "SETTRASHTIME" ++ txt "(" ++ dec inode ++ txt "," ++ dec uid ++ txt "," ++ dec trashtime ++ txt "," ++ dec smode ++ txt ")"
  | SETRICHACL inode acl_string => txt "SETRICHACL" ++ txt "(" ++ dec inode ++ txt "," ++ acl_string ++ txt ")"
  | SETACL inode type acl_string =>
    txt "SETACL" ++ txt "(" ++ dec inode ++ txt "," ++ [match type with kAccess => chr "a" | _ => chr "d" end] ++ txt "," ++ acl_string ++ txt ")"
  | DELETEACL inode type => txt "DELETEACL" ++ txt "(" ++ dec inode ++ txt "," ++ [acl_char type] ++ txt ")"
  | SETQUOTA r =>
    txt "SETQUOTA" ++ txt "(" ++ [rec_rigor r] ++ txt "," ++ [rec_resource r] ++ txt "," ++ [rec_owner r] ++ txt "," ++ dec (rec_id r) ++
    txt "," ++ dec (rec_limit r) ++ txt ")"
  end.

Definition kMaxLogLineSize : Z := 200000.
Definition kMaxTimestampSize : Z := 20.
Definition kMaxEntrySize : Z := kMaxLogLineSize - kMaxTimestampSize.

(** changeLog(): vsnprintf() leaves out what does not fit into the buffer. *)
Definition log_text (ts : Z) (e : LogEntry) : list Z := dec ts ++ txt "|" ++ take (Z.to_nat (kMaxEntrySize - 1)) (entry_text e).

(** changelog(): a line of the file. *)
Definition changelog (version : Z) (entry : list Z) : list Z := dec version ++ txt ": " ++ entry ++ [10].

(** The file, from a version on; every entry takes the next version. *)
Fixpoint changelog_file (version : Z) (log : list (Z * LogEntry)) : list Z :=
  match log with
  | [] => []
  | (ts, e) :: log => changelog version (log_text ts e) ++ changelog_file (u64 (version + 1)) log
  end.

(** ** Reading *)

Inductive parsed (A : Type) :=
  | Parsed (x : A) (rest : list Z)
  | Refused
  | Beyond.
Arguments Parsed {A}.
Arguments Refused {A}.
Arguments Beyond {A}.

Definition Parser (A : Type) : Type := list Z -> parsed A.

#[global] Instance parser_ret : MRet Parser := fun A x p => Parsed x p.
#[global] Instance parser_bind : MBind Parser := fun A B f m p =>
  match m p with Parsed x rest => f x rest | Refused => Refused | Beyond => Beyond end.

Definition refuse {A} : Parser A := fun _ => Refused.

(** EAT *)
Definition eat (c : Z) : Parser unit := fun p => match p with x :: p => if x =? c then Parsed tt p else Refused | [] => Refused end.

Definition peek : Parser Z := fun p => Parsed (match p with c :: _ => c | [] => 0 end) p.

(** [type = *ptr; ptr++], and GETCHAR, which does not move over the final zero. *)
Definition next_char : Parser Z := fun p => match p with c :: p => Parsed c p | [] => Beyond end.
Definition getchar : Parser Z := fun p => match p with c :: p => Parsed c p | [] => Parsed 0 [] end.

Definition getu64 : Parser Z := fun p => let '(x, p) := strtoull p in Parsed x p.
Definition getu32 : Parser Z := fun p => let '(x, p) := strtoull p in Parsed (u32 x) p.
Definition getu8 : Parser Z := fun p => let '(x, p) := strtoull p in Parsed (u8 x) p.

Definition hex_value (c : Z) : option Z :=
  if (chr "0" <=? c) && (c <=? chr "9") then Some (c - chr "0")
  else if (chr "A" <=? c) && (c <=? chr "F") then Some (c - chr "A" + 10) else None.

Definition push (c : Z) (r : parsed (list Z)) : parsed (list Z) := match r with Parsed l p => Parsed (c :: l) p | r => r end.

(** The loop of GETNAME and GETPATH: [more] tells whether the buffer takes a character number [i]. *)
Fixpoint unescape (more : nat -> bool) (stop : Z) (i : nat) (p : list Z) : parsed (list Z) :=
  match p with
  | [] => if more i then Beyond else Parsed [] []
  | c :: q =>
    if (c =? stop) || negb (more i) then Parsed [] p
    else if c =? chr "%" then
      match q with
      | [] => Beyond
      | [_] => Refused
      | h1 :: h2 :: q =>
        match hex_value h1, hex_value h2 with
        | Some h1, Some h2 => push (u8 (h1 * 16 + h2)) (unescape more stop (S i) q)
        | _, _ => Refused
        end
      end
    else push c (unescape more stop (S i) q)
  end.

(** A buffer as a C string. *)
Fixpoint c_str (l : list Z) : list Z := match l with c :: l => if c =? 0 then [] else c :: c_str l | [] => [] end.

Definition getname (stop : Z) : Parser (list Z) := fun p =>
  match unescape (fun i => (i <? 255)%nat) stop 0 p with Parsed l p => Parsed (c_str l) p | r => r end.
Definition getpath (stop : Z) : Parser (list Z) := fun p =>
  match unescape (fun _ => true) stop 0 p with Parsed l p => Parsed (c_str l) p | r => r end.

(** static_cast<FSNodeType>(); a value that is none of the types is an unknown type. *)
Definition type_of_char (c : Z) : FSNodeType := default kUnknown (type_of_code c).

Section restore.
Context (goals : Z -> Goals.Goal).

Definition do_access (ts : Z) : Parser (Op unit) :=
  _ ← eat (chr "("); inode ← getu32; _ ← eat (chr ")"); mret (applyAccess ts inode).

Definition do_acquire (ts : Z) : Parser (Op unit) :=
  _ ← eat (chr "("); inode ← getu32; _ ← eat (chr ","); cuid ← getu32; _ ← eat (chr ")");
  mret (acquire (getForRestore ts) inode cuid).

Definition do_attr (ts : Z) : Parser (Op unit) :=
  _ ← eat (chr "("); inode ← getu32; _ ← eat (chr ","); mode ← getu32; _ ← eat (chr ","); uid ← getu32; _ ← eat (chr ","); gid ← getu32;
  _ ← eat (chr ","); atime ← getu32; _ ← eat (chr ","); mtime ← getu32; _ ← eat (chr ")");
  mret (applyAttr goals ts inode mode uid gid atime mtime).

Definition do_create (ts : Z) : Parser (Op unit) :=
  _ ← eat (chr "("); parent ← getu32; _ ← eat (chr ","); name ← getname (chr ","); _ ← eat (chr ","); type ← next_char; _ ← eat (chr ",");
  mode ← getu32; _ ← eat (chr ","); uid ← getu32; _ ← eat (chr ","); gid ← getu32; _ ← eat (chr ","); rdev ← getu32; _ ← eat (chr ")");
  _ ← eat (chr ":"); inode ← getu32;
  mret (applyCreate goals ts parent name (type_of_char type) mode uid gid rdev inode).

Definition do_link (ts : Z) : Parser (Op unit) :=
  _ ← eat (chr "("); inode ← getu32; _ ← eat (chr ","); parent ← getu32; _ ← eat (chr ","); name ← getname (chr ")"); _ ← eat (chr ")");
  mret (link_op goals (getForRestore ts) inode parent name).

(** Old entries have no flag and always delete further chunks. *)
Definition do_length (ts : Z) : Parser (Op unit) :=
  _ ← eat (chr "("); inode ← getu32; _ ← eat (chr ","); length ← getu64; c ← peek;
  erase ← (if c =? chr ")" then mret 1 else _ ← eat (chr ","); getu32);
  _ ← eat (chr ")"); mret (applyLength goals ts inode length (negb (erase =? 0))).

Definition do_move (ts : Z) : Parser (Op unit) :=
  _ ← eat (chr "("); parent_src ← getu32; _ ← eat (chr ","); name_src ← getname (chr ","); _ ← eat (chr ","); parent_dst ← getu32;
  _ ← eat (chr ","); name_dst ← getname (chr ")"); _ ← eat (chr ")"); _ ← eat (chr ":"); inode ← getu32;
  mret (_ ← rename goals (getForRestore ts) parent_src name_src parent_dst name_dst inode; mret tt).

Definition do_purge (ts : Z) : Parser (Op unit) :=
  _ ← eat (chr "("); inode ← getu32; _ ← eat (chr ")"); mret (purge_op goals (getForRestore ts) inode).

Definition do_release (ts : Z) : Parser (Op unit) :=
  _ ← eat (chr "("); inode ← getu32; _ ← eat (chr ","); cuid ← getu32; _ ← eat (chr ")");
  mret (release goals (getForRestore ts) inode cuid).

Definition do_setpath (ts : Z) : Parser (Op unit) :=
  _ ← eat (chr "("); inode ← getu32; _ ← eat (chr ","); path ← getpath (chr ")"); _ ← eat (chr ")");
  mret (setTrashPath (getForRestore ts) inode path).

(** Old entries have the result of the master. *)
Definition do_settrashtime (ts : Z) : Parser (Op unit) :=
  _ ← eat (chr "("); inode ← getu32; _ ← eat (chr ","); uid ← getu32; _ ← eat (chr ","); trashtime ← getu32; _ ← eat (chr ",");
  smode ← getu8; _ ← eat (chr ")"); c ← peek;
  ci ← (if c =? chr ":" then _ ← eat (chr ":"); getu32 else mret (result_code kChanged));
  mret (applySetTrashTime (getForRestoreWithUidGid ts uid 0) inode trashtime smode ci).

Definition do_deleteacl (ts : Z) : Parser (Op unit) :=
  _ ← eat (chr "("); inode ← getu32; _ ← eat (chr ","); c ← getchar; _ ← eat (chr ")");
  if c =? chr "d" then mret (deleteAcl_op (getForRestore ts) inode kDefault)
  else if c =? chr "a" then mret (deleteAcl_op (getForRestore ts) inode kAccess)
  else if c =? chr "r" then mret (deleteAcl_op (getForRestore ts) inode kRichACL)
  else refuse.

(** No type but two is taken by applySetAcl(), after it looked for the node. *)
Definition do_setacl (ts : Z) : Parser (Op unit) :=
  _ ← eat (chr "("); inode ← getu32; _ ← eat (chr ","); c ← getchar; _ ← eat (chr ","); text ← getpath (chr ")"); _ ← eat (chr ")");
  mret (applySetAcl ts inode (if c =? chr "d" then kDefault else if c =? chr "a" then kAccess else kRichACL) text).

Definition do_setrichacl (ts : Z) : Parser (Op unit) :=
  _ ← eat (chr "("); inode ← getu32; _ ← eat (chr ","); text ← getpath (chr ")"); _ ← eat (chr ")");
  mret (applySetRichAcl ts inode text).

Definition do_setquota (ts : Z) : Parser (Op unit) :=
  _ ← eat (chr "("); rigor ← getchar; _ ← eat (chr ","); resource ← getchar; _ ← eat (chr ","); ownerType ← getchar; _ ← eat (chr ",");
  ownerId ← getu32; _ ← eat (chr ","); limit ← getu64; _ ← eat (chr ")");
  mret (applySetQuota (MkSetQuota rigor resource ownerType ownerId limit)).

Definition do_symlink (ts : Z) : Parser (Op unit) :=
  _ ← eat (chr "("); parent ← getu32; _ ← eat (chr ","); name ← getname (chr ","); _ ← eat (chr ","); path ← getpath (chr ","); _ ← eat (chr ",");
  uid ← getu32; _ ← eat (chr ","); gid ← getu32; _ ← eat (chr ")"); _ ← eat (chr ":"); inode ← getu32;
  mret (_ ← symlink goals (getForRestoreWithUidGid ts uid gid) parent name path inode; mret tt).

Definition do_undel (ts : Z) : Parser (Op unit) :=
  _ ← eat (chr "("); inode ← getu32; _ ← eat (chr ")"); mret (undel goals (getForRestore ts) inode []).

Definition do_unlink (ts : Z) : Parser (Op unit) :=
  _ ← eat (chr "("); parent ← getu32; _ ← eat (chr ","); name ← getname (chr ")"); _ ← eat (chr ")"); _ ← eat (chr ":"); inode ← getu32;
  mret (applyUnlink goals ts parent name inode).

(** The commands in the order in which restore_line() compares them; without a function those outside the library. *)
Definition commands : list (list Z * option (Z -> Parser (Op unit))) :=
  [(txt "ACCESS", Some do_access); (txt "ATTR", Some do_attr); (txt "APPEND", None); (txt "ACQUIRE", Some do_acquire);
   (txt "AQUIRE", Some do_acquire); (txt "CHECKSUM", None); (txt "CLONE", None); (txt "CREATE", Some do_create); (txt "CUSTOMER", None);
   (txt "CLRLCK", None); (txt "DELETEACL", Some do_deleteacl); (txt "FLCKINODE", None); (txt "FLCK", None); (txt "INCVERSION", None);
   (txt "LENGTH", Some do_length); (txt "LINK", Some do_link); (txt "MOVE", Some do_move); (txt "NEXTCHUNKID", None);
   (txt "PURGE", Some do_purge); (txt "RELEASE", Some do_release); (txt "REPAIR", None); (txt "RMPLOCK", None); (txt "SESSION", None);
   (txt "SETACL", Some do_setacl); (txt "SETEATTR", None); (txt "SETGOAL", None); (txt "SETPATH", Some do_setpath);
   (txt "SETQUOTA", Some do_setquota); (txt "SETTRASHTIME", Some do_settrashtime); (txt "SETXATTR", None); (txt "SNAPSHOT", None);
   (txt "SYMLINK", Some do_symlink); (txt "SETRICHACL", Some do_setrichacl); (txt "TRUNC", None); (txt "UNLINK", Some do_unlink);
   (txt "UNDEL", Some do_undel); (txt "UNLOCK", None); (txt "WRITE", None)].

(** strncmp(ptr, word, strlen(word)) == 0: what follows the word. *)
Fixpoint after_word (word p : list Z) : option (list Z) :=
  match word, p with
  | [], _ => Some p
  | c :: word, x :: p => if x =? c then after_word word p else None
  | _, [] => None
  end.

Inductive line_result :=
  | Runs (op : Op unit)
  | NotParsed
  | UnknownEntry
  | ReadsBeyond
  | Outside.

Fixpoint find_command (table : list (list Z * option (Z -> Parser (Op unit)))) (ts : Z) (p : list Z) : line_result :=
  match table with
  | [] => UnknownEntry
  | (word, f) :: table =>
    match after_word word p, f with
    | None, _ => find_command table ts p
    | Some _, None => Outside
    | Some p, Some f => match f ts p with Parsed op _ => Runs op | Refused => NotParsed | Beyond => ReadsBeyond end
    end
  end.

(** restore_line() up to the call of the operation. *)
Definition parse_line (line : list Z) : line_result :=
  match (_ ← eat (chr ":"); _ ← eat (chr " "); ts ← getu32; _ ← eat (chr "|"); mret ts) line with
  | Parsed ts p => find_command commands ts p
  | Refused => NotParsed
  | Beyond => ReadsBeyond
  end.

(** ** Versions *)

(** The static variables of restore(). *)
Record Restorer := MkRestorer { nextFsVersion : Z; currentFsVersion : Z }.

Definition restore_reset : Restorer := MkRestorer 0 0.

Inductive restore_status :=
  | RestoreOK
  | RestoreFailed (status : fs_status)
  | ParseError
  | UnknownCommand
  | ChangelogInconsistent
  | VersionMismatch.

(** restore(); [ignore] is the rigor that ignores entries that cannot be parsed. *)
Definition restore (ignore : bool) (newLogVersion : Z) (line : list Z) (r : Restorer) (s : Metadata)
  : option (restore_status * Restorer * Metadata) :=
  let r := if (currentFsVersion r =? 0) || (nextFsVersion r =? 0) then MkRestorer (md_version s) (u64 (md_version s - 1)) else r in
  if newLogVersion <? currentFsVersion r then Some (RestoreOK, r, s)
  else if nextFsVersion r <=? newLogVersion then
    if newLogVersion =? currentFsVersion r then Some (RestoreOK, r, s)
    else if u64 (currentFsVersion r + 1) <? newLogVersion then Some (ChangelogInconsistent, r, s)
    else
      match parse_line line with
      | ReadsBeyond | Outside => None
      | NotParsed => Some (if ignore then RestoreOK else ParseError, r, s)
      | UnknownEntry => Some (UnknownCommand, r, s)
      | Runs op =>
        match op s with
        | None => None
        | Some (inl e, s, _) => Some (RestoreFailed e, r, s)
        | Some (inr _, s, _) =>
          if u64 (newLogVersion + 1) =? md_version s then Some (RestoreOK, MkRestorer (md_version s) newLogVersion, s)
          else Some (VersionMismatch, MkRestorer (md_version s) (currentFsVersion r), s)
        end
      end
  else Some (RestoreOK, MkRestorer (nextFsVersion r) newLogVersion, s).

(** The lines of a file; std::getline() is not good() for a last line that does not end. *)
Fixpoint lines (line text : list Z) : list (list Z) :=
  match text with
  | [] => []
  | c :: text => if c =? 10 then reverse line :: lines [] text else lines (c :: line) text
  end.

(** load_changelog(); an exception is [None]. *)
Fixpoint load_lines (ls : list (list Z)) (r : Restorer) (s : Metadata) : option (Restorer * Metadata) :=
  match ls with
  | [] => Some (r, s)
  | line :: ls =>
    '(id, rest) ← stoull line;
    if id <? md_version s then load_lines ls r s
    else
      '(status, r, s) ← restore true id (c_str rest) r s;
      match status with RestoreOK => load_lines ls r s | _ => None end
  end.

Definition load_changelog (text : list Z) (r : Restorer) (s : Metadata) : option (Restorer * Metadata) :=
  if 0 <? md_version s then load_lines (lines [] text) r s else None.

End restore.
