(* ===== verification/ChangelogText.v ===== *)
(** What is written into the changelog is read back: the text of an entry whose fields have the width of their types runs
    the operation that replays the entry. *)
From Stdlib Require Import String Ascii.
From S2P Require Import Prelude Serialization Text RichACL AclPosix AclText AclStorage Nodes NodeAcl Quota FsTree FsMeta.
From S2P Require Import FsOps FsAttrOps FsRestore Changelog.

(** ** Entries that fit *)

Definition byte (c : Z) : Prop := 0 < c < 256.

(** A name as nameCheck() takes it. *)
Definition name_fits (name : list Z) : Prop := (length name <= 255)%nat /\ Forall byte name.

(** A character that no reader treats in a special way. *)
Definition is_plain (c : Z) : bool := (33 <=? c) && (c <=? 126) && negb (c =? chr ")") && negb (c =? chr "%").

Definition fields_fit (e : LogEntry) : Prop :=
  match e with
  | CREATE parent name type mode uid gid rdev inode =>
    is_uint 32 parent /\ name_fits name /\ type_of_code (type_code type) = Some type /\ 32 <= type_code type /\ is_uint 32 mode /\ is_uint 32 uid /\
    is_uint 32 gid /\ is_uint 32 rdev /\ is_uint 32 inode
  | UNLINK parent name inode => is_uint 32 parent /\ name_fits name /\ is_uint 32 inode
  | MOVE parent_src name_src parent_dst name_dst inode =>
    is_uint 32 parent_src /\ name_fits name_src /\ is_uint 32 parent_dst /\ name_fits name_dst /\ is_uint 32 inode
  | LINK inode parent name => is_uint 32 inode /\ is_uint 32 parent /\ name_fits name
  | SYMLINK parent name path uid gid inode =>
    is_uint 32 parent /\ name_fits name /\ Forall byte path /\ is_uint 32 uid /\ is_uint 32 gid /\ is_uint 32 inode
  | PURGE inode | UNDEL inode | ACCESS inode => is_uint 32 inode
  | SETPATH inode path => is_uint 32 inode /\ Forall byte path
  | ACQUIRE inode sessionid | RELEASE inode sessionid => is_uint 32 inode /\ is_uint 32 sessionid
  | ATTR inode mode uid gid atime mtime =>
    is_uint 32 inode /\ is_uint 32 mode /\ is_uint 32 uid /\ is_uint 32 gid /\ is_uint 32 atime /\ is_uint 32 mtime
  | LENGTH inode length _ => is_uint 32 inode /\ is_uint 64 length
  | SETTRASHTIME inode uid trashtime smode => is_uint 32 inode /\ is_uint 32 uid /\ is_uint 32 trashtime /\ is_uint 8 smode
  | SETRICHACL inode acl_string => is_uint 32 inode /\ forallb is_plain acl_string = true
  | SETACL inode type acl_string => is_uint 32 inode /\ type <> kRichACL /\ forallb is_plain acl_string = true
  | DELETEACL inode _ => is_uint 32 inode
  | SETQUOTA r =>
    is_plain (rec_rigor r) = true /\ is_plain (rec_resource r) = true /\ is_plain (rec_owner r) = true /\ is_uint 32 (rec_id r) /\ is_uint 64 (rec_limit r)
  end.

Definition entry_fits (e : LogEntry) : Prop := fields_fit e /\ Z.of_nat (length (entry_text e)) < kMaxEntrySize.

(** ** Characters *)

Definition all_bytes : list Z := seqZ 0 256.

Lemma in_all_bytes c : byte c -> c ∈ all_bytes.
Proof. unfold byte. intros H. apply elem_of_seqZ. lia. Qed.

Definition escape_back (c : Z) : bool :=
  match escape_char c with
  | [x] => (x =? c) && (32 <=? c) && negb (c =? chr "%") && negb (c =? chr ",") && negb (c =? chr ")")
  | [x; h1; h2] => (x =? chr "%") && (32 <=? h1) && (32 <=? h2) &&
    match hex_value h1, hex_value h2 with Some a, Some b => u8 (a * 16 + b) =? c | _, _ => false end
  | _ => false
  end.

Lemma escape_back_all : forallb escape_back all_bytes = true.
Proof. vm_compute. reflexivity. Qed.

Lemma escape_back_ok c : byte c -> escape_back c = true.
Proof. intros H. apply (proj1 (forallb_forall _ _) escape_back_all). by apply list_elem_of_In, in_all_bytes. Qed.

(** One character through escapeName() and the loop of GETNAME and GETPATH. *)
Lemma unescape_char more stop i c p :
  byte c -> stop = chr "," \/ stop = chr ")" -> more i = true -> unescape more stop i (escape_char c ++ p) = push c (unescape more stop (S i) p).
Proof.
  intros Hc Hstop Hm. pose proof (escape_back_ok c Hc) as H. unfold escape_back in H.
  destruct (escape_char c) as [|x [|h1 [|h2 [|? ?]]]]; try done.
  - apply andb_true_iff in H as [[[[->%Z.eqb_eq _]%andb_true_iff H1%negb_true_iff]%andb_true_iff H2%negb_true_iff]%andb_true_iff H3%negb_true_iff].
    cbn [app unescape]. rewrite Hm, H1. by destruct Hstop as [-> | ->]; rewrite ?H2, ?H3.
  - apply andb_true_iff in H as [[[->%Z.eqb_eq _]%andb_true_iff _]%andb_true_iff H]. cbn [app unescape].
    assert ((chr "%" =? stop) = false) as -> by (by destruct Hstop as [-> | ->]). rewrite Hm, Z.eqb_refl. cbn [orb negb].
    destruct (hex_value h1), (hex_value h2); try done. by apply Z.eqb_eq in H as ->.
Qed.

Lemma unescape_escape more stop p name : stop = chr "," \/ stop = chr ")" -> Forall byte name -> forall i,
  (forall k, (i <= k < i + length name)%nat -> more k = true) ->
  unescape more stop i (escapeName name ++ stop :: p) = Parsed name (stop :: p).
Proof.
  intros Hstop. induction 1 as [|c name Hc H IH]; intros i Hm.
  - cbn [escapeName fmap list_fmap concat app unescape]. by rewrite Z.eqb_refl.
  - change (escapeName (c :: name)) with (escape_char c ++ escapeName name). rewrite <-app_assoc, unescape_char; [|done|done|apply Hm; simpl; lia].
    rewrite IH; [done|]. intros k Hk. apply Hm. simpl. lia.
Qed.

Lemma unescape_plain p text : forallb is_plain text = true -> forall i,
  unescape (fun _ => true) (chr ")") i (text ++ chr ")" :: p) = Parsed text (chr ")" :: p).
Proof.
  induction text as [|c text IH]; intros H i; cbn [app unescape]; [done|]. cbn [forallb] in H. apply andb_true_iff in H as [Hc H].
  unfold is_plain in Hc. apply andb_true_iff in Hc as [[_ H1%negb_true_iff]%andb_true_iff H2%negb_true_iff]. rewrite H1, H2. cbn [orb negb].
  by rewrite IH.
Qed.

Lemma c_str_id l : Forall (fun c => 0 < c) l -> c_str l = l.
Proof. induction 1 as [|c l Hc H IH]; cbn [c_str]; [done|]. by rewrite (proj2 (Z.eqb_neq c 0)), IH by lia. Qed.

Lemma bytes_positive l : Forall byte l -> Forall (fun c => 0 < c) l.
Proof. intros H. eapply Forall_impl; [exact H|]. by intros c []. Qed.

Lemma plain_positive l : forallb is_plain l = true -> Forall (fun c => 0 < c) l.
Proof. intros H. apply Forall_forall. intros c Hc%list_elem_of_In. pose proof (proj1 (forallb_forall _ _) H c Hc) as Hp. unfold is_plain in Hp. lia. Qed.

(** ** Fields *)

Section fields.
Context {B : Type} (f : unit -> Parser B) (g : Z -> Parser B) (h : list Z -> Parser B).

Lemma read_eat c p : (eat c ≫= f) (c :: p) = f tt p.
Proof. unfold mbind, parser_bind, eat. by rewrite Z.eqb_refl. Qed.

Lemma read_u64 x p : is_uint 64 x -> starts_digit p = false -> (getu64 ≫= g) (dec x ++ p) = g x p.
Proof. intros Hx Hp. unfold mbind, parser_bind, getu64. by rewrite strtoull_dec. Qed.

Lemma read_u32 x p : is_uint 32 x -> starts_digit p = false -> (getu32 ≫= g) (dec x ++ p) = g x p.
Proof.
  unfold is_uint. intros Hx Hp. unfold mbind, parser_bind, getu32. rewrite strtoull_dec; [|unfold is_uint; lia|done].
  unfold u32, wrap. by rewrite Z.mod_small by lia.
Qed.

Lemma read_u8 x p : is_uint 8 x -> starts_digit p = false -> (getu8 ≫= g) (dec x ++ p) = g x p.
Proof.
  unfold is_uint. intros Hx Hp. unfold mbind, parser_bind, getu8. rewrite strtoull_dec; [|unfold is_uint; lia|done].
  unfold u8, wrap. by rewrite Z.mod_small by lia.
Qed.

Lemma read_name stop name p : stop = chr "," \/ stop = chr ")" -> name_fits name -> (getname stop ≫= h) (escapeName name ++ stop :: p) = h name (stop :: p).
Proof.
  intros Hstop [Hlen Hb]. unfold mbind, parser_bind, getname. rewrite unescape_escape; [|done|done|].
  - by rewrite c_str_id by (by apply bytes_positive).
  - intros k Hk. apply Nat.ltb_lt. lia.
Qed.

Lemma read_path stop path p : stop = chr "," \/ stop = chr ")" -> Forall byte path -> (getpath stop ≫= h) (escapeName path ++ stop :: p) = h path (stop :: p).
Proof. intros Hstop Hb. unfold mbind, parser_bind, getpath. rewrite unescape_escape by done. by rewrite c_str_id by (by apply bytes_positive). Qed.

Lemma read_plain text p : forallb is_plain text = true -> (getpath (chr ")") ≫= h) (text ++ chr ")" :: p) = h text (chr ")" :: p).
Proof. intros Ht. unfold mbind, parser_bind, getpath. rewrite unescape_plain by done. by rewrite c_str_id by (by apply plain_positive). Qed.

End fields.

(** ** The text of access control lists is plain *)

Lemma digits_plain x : 0 <= x -> forallb is_plain (dec x) = true.
Proof.
  intros Hx. apply forallb_forall. intros c Hc%list_elem_of_In. pose proof (proj1 (Forall_forall _ _) (dec_digits x Hx) c Hc) as Hd.
  unfold is_digit in Hd. unfold is_plain. change (chr ")") with 41. change (chr "%") with 37. lia.
Qed.

Lemma flags_plain table m : forallb is_plain table.*1 = true -> forallb is_plain (write_flags table m) = true.
Proof.
  intros Ht. apply forallb_forall. intros c Hc%list_elem_of_In. pose proof (proj1 (Forall_forall _ _) (write_flags_chars table m) c Hc) as Hin.
  apply (proj1 (forallb_forall _ _) Ht). by apply list_elem_of_In.
Qed.

Lemma identifier_plain a : 0 <= ace_id a -> forallb is_plain (writeIdentifier a) = true.
Proof.
  intros Hid. unfold writeIdentifier. repeat match goal with |- context [if ?b then _ else _] => destruct b end; try done;
    rewrite forallb_app, digits_plain by done; done.
Qed.

Lemma ace_plain a : ace_printable a = true -> forallb is_plain (ace_toString a) = true.
Proof.
  intros H. unfold ace_printable in H. apply andb_true_iff in H as [[[Ht _]%andb_true_iff _]%andb_true_iff Hid].
  assert (0 <= ace_id a) as Hid' by (destruct (has (ace_flags a) kSpecialWho); lia).
  assert (forallb is_plain (writeType (ace_type a)) = true) as Htype.
  { unfold writeType. destruct (ace_type a =? kAccessAllowedAceType); [done|]. destruct (ace_type a =? kAccessDeniedAceType); done. }
  unfold ace_toString, writeMask, writeAceFlags. rewrite !forallb_app, !flags_plain, Htype, identifier_plain by done. done.
Qed.

Lemma acl_plain acl : acl_printable acl = true -> forallb is_plain (AclText.toString acl) = true.
Proof.
  intros H. unfold acl_printable in H. apply andb_true_iff in H as [_ H]. unfold AclText.toString, writeACLFlags, writeMask.
  rewrite !forallb_app, !flags_plain by done. simpl. induction (ace_list_ acl) as [|a l IH]; [done|]. cbn [forallb] in H.
  apply andb_true_iff in H as [Ha H]. cbn [fmap list_fmap concat]. by rewrite forallb_app, ace_plain, IH.
Qed.

Lemma mask_plain m : 0 <= m -> is_plain (PosixText.accessMaskToChar m) = true.
Proof.
  intros Hm. unfold PosixText.accessMaskToChar. destruct (Z.ltb_spec 7 m); [done|]. unfold is_plain.
  change (chr "0") with 48. change (chr ")") with 41. change (chr "%") with 37. lia.
Qed.

Lemma named_plain e : PosixTextProofs.entry_printable e -> forallb is_plain (PosixText.named_toString e) = true.
Proof.
  intros ([Ht|Ht] & Hid & Hr); unfold PosixText.named_toString; rewrite Ht, !forallb_app, digits_plain by lia; cbn [forallb];
    rewrite mask_plain by lia; done.
Qed.

Lemma posix_plain acl : PosixTextProofs.posix_printable acl -> forallb is_plain (PosixText.toString acl) = true.
Proof.
  intros (Hb & _ & _ & Hes & _). destruct acl as [l basic]. cbn [Posix.list_ Posix.basic_permissions_] in *. unfold PosixText.toString.
  assert (forallb is_plain (concat (PosixText.named_toString <$> l)) = true) as Hl.
  { induction Hes as [|e l He Hes IH]; [done|]. cbn [fmap list_fmap concat]. by rewrite forallb_app, named_plain, IH. }
  assert (forall x, 0 <= Z.land x 15) as Hn by (intros x; apply Z.land_nonneg; by right).
  assert (0 <= Z.shiftr basic 12) as Hm by (apply Z.shiftr_nonneg, Hb).
  rewrite !forallb_app. cbn [Posix.list_]. rewrite Hl. cbn [forallb]. rewrite !mask_plain by apply Hn.
  destruct (negb _); [|done]. rewrite forallb_app. cbn [forallb]. by rewrite mask_plain by apply Hm.
Qed.

(** ** Lines *)

Section lines.
Context (goals : Z -> Goals.Goal).

Lemma read_char {B} (g : Z -> Parser B) c p : (getchar ≫= g) (c :: p) = g c p.
Proof. done. Qed.

Lemma read_next {B} (g : Z -> Parser B) c p : (next_char ≫= g) (c :: p) = g c p.
Proof. done. Qed.

Lemma read_peek {B} (g : Z -> Parser B) c p : (peek ≫= g) (c :: p) = g c (c :: p).
Proof. done. Qed.

(** What a command makes of its text. *)
Definition outcome (r : parsed (Op unit)) : line_result :=
  match r with Parsed op _ => Runs op | Refused => NotParsed | Beyond => ReadsBeyond end.

Lemma comma : chr "," = chr "," \/ chr "," = chr ")".
Proof. by left. Qed.

Lemma bracket : chr ")" = chr "," \/ chr ")" = chr ")".
Proof. by right. Qed.

Ltac show_separators := repeat match goal with
  | |- context [txt "(" ++ ?p] => change (txt "(" ++ p) with (chr "(" :: p)
  | |- context [txt "," ++ ?p] => change (txt "," ++ p) with (chr "," :: p)
  | |- context [txt ")" ++ ?p] => change (txt ")" ++ p) with (chr ")" :: p)
  | |- context [txt ":" ++ ?p] => change (txt ":" ++ p) with (chr ":" :: p)
  | |- context [[?c] ++ ?p] => change ([c] ++ p) with (c :: p)
  | |- context [txt ")"] => change (txt ")") with [chr ")"]
  end.

(** One field of a line. *)
Ltac read_one := first
  [ rewrite read_eat | rewrite read_u32 by done | rewrite read_u64 by done | rewrite read_u8 by done
  | rewrite (read_name _ _ _ _ comma) by done | rewrite (read_name _ _ _ _ bracket) by done
  | rewrite (read_path _ _ _ _ comma) by done | rewrite (read_path _ _ _ _ bracket) by done
  | rewrite read_plain by done | rewrite read_next | rewrite read_char | rewrite read_peek ]; cbv beta.
Ltac read_line := show_separators; cbv beta; repeat read_one.

(** The command of a line, which reads what follows the word. *)
Ltac command f := match goal with |- find_command _ ?ts (_ ++ ?p) = ?r => change (outcome (f ts p) = r) end;
  unfold do_access, do_acquire, do_attr, do_create, do_link, do_length, do_move, do_purge, do_release, do_setpath, do_settrashtime, do_deleteacl,
    do_setacl, do_setrichacl, do_setquota, do_symlink, do_undel, do_unlink.

Lemma entry_runs ts e : fields_fit e -> find_command (commands goals) ts (entry_text e) = Runs (restore_line goals ts e).
Proof.
  destruct e; cbn [fields_fit entry_text restore_line]; intros H; destruct_and?.
  - rewrite <-(app_nil_r (dec inode)). command (do_create goals). read_line. unfold type_of_char. match goal with H : type_of_code _ = _ |- _ => by rewrite H end.
  - rewrite <-(app_nil_r (dec inode)). command (do_unlink goals). by read_line.
  - rewrite <-(app_nil_r (dec inode)). command (do_move goals). by read_line.
  - command (do_link goals). by read_line.
  - rewrite <-(app_nil_r (dec inode)). command (do_symlink goals). by read_line.
  - command (do_purge goals). by read_line.
  - command (do_undel goals). by read_line.
  - command do_setpath. by read_line.
  - command do_acquire. by read_line.
  - command (do_release goals). by read_line.
  - command (do_attr goals). by read_line.
  - command (do_length goals). read_line. destruct eraseFurtherChunks; by read_line.
  - command do_access. by read_line.
  - command do_settrashtime. by read_line.
  - command do_setrichacl. by read_line.
  - command do_setacl. read_line. by destruct type.
  - command do_deleteacl. read_line. by destruct type.
  - command do_setquota. read_line. by destruct record.
Qed.

Lemma line_runs ts e : is_uint 32 ts -> entry_fits e -> parse_line goals (txt ": " ++ log_text ts e) = Runs (restore_line goals ts e).
Proof.
  intros Hts [He Hlen]. unfold log_text. rewrite take_ge by (unfold kMaxEntrySize, kMaxLogLineSize, kMaxTimestampSize in *; lia).
  unfold parse_line. change (txt ": " ++ ?p) with (chr ":" :: chr " " :: p). change (txt "|" ++ ?p) with (chr "|" :: p). rewrite !read_eat, read_u32, read_eat by done.
  by apply entry_runs.
Qed.

End lines.

(** ** The end of a line is its only character of that kind *)

Definition visible (c : Z) : Prop := 32 <= c.

Lemma visible_plain l : forallb is_plain l = true -> Forall visible l.
Proof.
  intros H. apply Forall_forall. intros c Hc%list_elem_of_In. pose proof (proj1 (forallb_forall _ _) H c Hc) as Hp. unfold is_plain in Hp. unfold visible. lia.
Qed.

Lemma visible_dec w x : is_uint w x -> Forall visible (dec x).
Proof. intros [Hx _]. by apply visible_plain, digits_plain. Qed.

Lemma visible_txt s : forallb (fun c => 32 <=? c) (txt s) = true -> Forall visible (txt s).
Proof. intros H. apply Forall_forall. intros c Hc%list_elem_of_In. apply Z.leb_le. by apply (proj1 (forallb_forall _ _) H). Qed.

Lemma visible_escape name : Forall byte name -> Forall visible (escapeName name).
Proof.
  induction 1 as [|c name Hc H IH]; [constructor|]. change (escapeName (c :: name)) with (escape_char c ++ escapeName name). apply Forall_app. split; [|done].
  pose proof (escape_back_ok c Hc) as Hb. unfold escape_back in Hb. destruct (escape_char c) as [|x [|h1 [|h2 [|? ?]]]]; try done; repeat constructor; unfold visible;
    change (chr "%") with 37 in Hb; lia.
Qed.

Lemma visible_name name : name_fits name -> Forall visible (escapeName name).
Proof. intros [_ H]. by apply visible_escape. Qed.

Lemma visible_char c : is_plain c = true -> Forall visible [c].
Proof. intros H. apply visible_plain. simpl. by rewrite H. Qed.

Lemma visible_one c : 32 <= c -> Forall visible [c].
Proof. by repeat constructor. Qed.

Create HintDb visible.

Ltac visible_parts := repeat match goal with |- Forall visible (_ ++ _) => apply Forall_app; split end; eauto with visible.

#[export] Hint Resolve visible_dec visible_escape visible_name visible_char visible_one visible_plain : visible.
#[export] Hint Extern 1 (Forall visible (txt _)) => apply visible_txt; vm_compute; reflexivity : visible.

Lemma entry_visible e : fields_fit e -> Forall visible (entry_text e).
Proof.
  destruct e; cbn [fields_fit entry_text]; intros H; destruct_and?; visible_parts.
  all: try (destruct eraseFurtherChunks; by apply (visible_dec 8)). all: destruct type; by apply visible_one.
Qed.

Lemma log_text_visible ts e : is_uint 32 ts -> entry_fits e -> Forall visible (log_text ts e).
Proof.
  intros Hts [He _]. unfold log_text. visible_parts. by apply Forall_take, entry_visible.
Qed.

Lemma lines_acc l rest : Forall visible l -> forall acc, lines acc (l ++ 10 :: rest) = (reverse acc ++ l) :: lines [] rest.
Proof.
  induction 1 as [|c l Hc H IH]; intros acc; cbn [app lines]; [by rewrite app_nil_r|]. unfold visible in Hc.
  rewrite (proj2 (Z.eqb_neq c 10)) by lia. rewrite IH. f_equal. rewrite reverse_cons, <-app_assoc. done.
Qed.

(** The first line of a file. *)
Lemma lines_changelog v ts e rest :
  is_uint 64 v -> is_uint 32 ts -> entry_fits e ->
  lines [] (changelog v (log_text ts e) ++ rest) = (dec v ++ txt ": " ++ log_text ts e) :: lines [] rest.
Proof.
  intros Hv Hts He. unfold changelog. rewrite <-!app_assoc. change ([10] ++ rest) with (10 :: rest).
  assert (dec v ++ txt ": " ++ log_text ts e ++ 10 :: rest = (dec v ++ txt ": " ++ log_text ts e) ++ 10 :: rest) as -> by (by rewrite <-!app_assoc).
  rewrite lines_acc; [done|]. visible_parts. by apply log_text_visible.
Qed.

Lemma visible_c_str l : Forall visible l -> c_str l = l.
Proof. intros H. apply c_str_id. eapply Forall_impl; [exact H|]. unfold visible. lia. Qed.
