(* ===== verification/Tasks.v ===== *)
(** Jobs that the master works off in small steps (src/master/task_manager.h and .cc), and the two kinds of tasks that
    change the tree and the nodes: recursive removal (src/master/recursive_remove_task.h and .cc) and the change of trash
    times (src/master/settrashtime_task.h and .cc).

    A job is a queue of tasks.  A step executes the first task, which may put tasks in front of the queue.  The callback
    of a job is what the step returns when the job ends.  The names of jobs and the statistics that a client gets are
    not modelled. *)
From S2P Require Import Prelude Serialization RichACL AclStorage Nodes NodeAcl Quota FsTree FsMeta FsOps FsAttrOps.

(** What a task promises the manager: execute() with the tasks for the front of the queue, and isFinished(). *)
Class Task (T : Type) := MkTask {
  execute : Z -> T -> Op (T * list T);
  task_finished : T -> bool;
}.

Definition catch {A} (m : Op A) : Op (fs_status + A) := fun s =>
  match m s with Some (r, s, log) => Some (inr r, s, log) | None => None end.

Record Job (T : Type) := MkJob { job_id : Z; tasks_ : list T }.
Arguments MkJob {T}.
Arguments job_id {T}.
Arguments tasks_ {T}.

Record TaskManager (T : Type) := MkManager { job_list_ : list (Job T); next_job_id_ : Z }.
Arguments MkManager {T}.
Arguments job_list_ {T}.
Arguments next_job_id_ {T}.

Section manager.
Context {T : Type} `{Task T}.

Definition no_jobs : TaskManager T := MkManager [] 0.

Definition job_finished (j : Job T) : bool := match tasks_ j with [] => true | _ => false end.

(** finalize(): the queue is cleared, the status goes to the callback. *)
Definition finalize (j : Job T) (status : fs_status) : Job T * option fs_status := (MkJob (job_id j) [], Some status).

(** finalizeTask() for the executed task [t], which has [pushed] before it and [rest] behind it. *)
Definition finalizeTask (j : Job T) (pushed : list T) (t : T) (rest : list T) : Job T * option fs_status :=
  if task_finished t && (length (pushed ++ t :: rest) <=? 1)%nat then finalize j STATUS_OK
  else if task_finished t then (MkJob (job_id j) (pushed ++ rest), None)
  else (MkJob (job_id j) (pushed ++ t :: rest), None).

Definition processTask (ts : Z) (j : Job T) : Op (Job T * option fs_status) :=
  match tasks_ j with
  | [] => mret (j, None)
  | t :: rest =>
    result ← catch (execute ts t);
    match result with
    | inl e => mret (finalize j e)
    | inr (t, pushed) => mret (finalizeTask j pushed t rest)
    end
  end.

(** The first steps of a new job. *)
Fixpoint batch (n : nat) (ts : Z) (j : Job T) : Op (Job T * option fs_status) :=
  match n with
  | O => mret (j, None)
  | S n => '(j, done) ← processTask ts j; if job_finished j then mret (j, done) else batch n ts j
  end.

Definition submitTask (taskid ts : Z) (initial_batch_size : nat) (task : T) (tm : TaskManager T) : Op (fs_status * TaskManager T) :=
  '(j, done) ← batch initial_batch_size ts (MkJob taskid [task]);
  match done with
  | Some status => _ ← reads (fun _ => if job_finished j then Some tt else None); mret (status, tm)
  | None => mret (ERROR_WAITING, MkManager (job_list_ tm ++ [j]) (next_job_id_ tm))
  end.

Definition reserveJobId (tm : TaskManager T) : Z * TaskManager T :=
  (next_job_id_ tm, MkManager (job_list_ tm) (u32 (next_job_id_ tm + 1))).

(** The loop of processJobs() at the job with the number [k]; [n] steps are made before the watchdog or the limit ends
    the round.  The result has the statuses that callbacks got. *)
Fixpoint process_jobs (n : nat) (ts : Z) (k : nat) (jobs : list (Job T)) : Op (list (Job T) * list (Z * fs_status)) :=
  match n with
  | O => mret (jobs, [])
  | S n =>
    match jobs !! k with
    | None => mret (jobs, [])
    | Some j =>
      if job_finished j then
        let jobs := delete k jobs in
        process_jobs n ts (if (k =? length jobs)%nat then 0%nat else k) jobs
      else
        '(j, done) ← processTask ts j;
        let jobs := <[k := j]> jobs in
        '(jobs, answers) ← process_jobs n ts (if (S k =? length jobs)%nat then 0%nat else S k) jobs;
        mret (jobs, match done with Some status => (job_id j, status) :: answers | None => answers end)
    end
  end.

Definition processJobs (ts : Z) (n : nat) (tm : TaskManager T) : Op (TaskManager T * list (Z * fs_status)) :=
  '(jobs, answers) ← process_jobs n ts 0 (job_list_ tm);
  mret (MkManager jobs (next_job_id_ tm), answers).

Fixpoint cancel (id : Z) (jobs : list (Job T)) : bool * list (Job T) :=
  match jobs with
  | [] => (false, [])
  | j :: jobs =>
    if job_id j =? id then (true, (finalize j ERROR_NOTDONE).1 :: jobs)
    else let '(found, jobs) := cancel id jobs in (found, j :: jobs)
  end.

Definition cancelJob (id : Z) (tm : TaskManager T) : bool * TaskManager T :=
  let '(found, jobs) := cancel id (job_list_ tm) in (found, MkManager jobs (next_job_id_ tm)).

End manager.

(** ** Tasks *)

(** The names that are left to remove from a directory. *)
Record RemoveTask := MkRemove { subtask_ : list name_t; parent_ : Z; context_ : Context; repeat_counter_ : Z }.

Record SetTrashtimeTask := MkSetTrashtime { inode_list_ : list Z; uid_ : Z; trashtime_ : Z; smode_ : Z }.

Definition kMaxRepeatCounter : Z := 3.
Definition kInitialTaskBatchSize : nat := 1000.

Section tasks.
Context (goals : Z -> Goals.Goal).

(** retrieveNodes(): the node of the first name. *)
Definition retrieveNodes (t : RemoveTask) (name : name_t) : Op Z :=
  found ← reads (fun s => Some (md_nodes s !! parent_ t));
  match found with
  | None => throw ERROR_ENOENT
  | Some wd =>
    allowed ← reads (fun s => ses ← session (context_ t); u ← user (context_ t);
      NodeAcl.access (MkContext (sesflags ses) (user_uid u) (user_gids u)) wd MODE_MASK_W (md_acls s));
    _ ← require allowed ERROR_EACCES;
    _ ← reads (fun _ => directory_of wd);
    child ← look (parent_ t) name;
    match child with
    | None => throw ERROR_ENOENT
    | Some child => _ ← sticky (context_ t) (parent_ t) child; mret child
    end
  end.

Definition entry_names (n : FSNode) : list name_t := match directory_of n with Some d => (entries d).*1 | None => [] end.

Definition remove_execute (timeStamp : Z) (t : RemoveTask) : Op (RemoveTask * list RemoveTask) :=
  match subtask_ t with
  | [] => reads (fun _ => None)
  | name :: rest =>
    child ← retrieveNodes t name;
    n ← node child;
    if is_dir n && negb (is_empty_dir n) then
      _ ← require (repeat_counter_ t + 1 <? kMaxRepeatCounter) ERROR_ENOTEMPTY;
      mret (MkRemove (name :: rest) (parent_ t) (context_ t) (repeat_counter_ t + 1), [MkRemove (entry_names n) child (context_ t) 0])
    else
      _ ← changeLog (getForMaster timeStamp) (UNLINK (parent_ t) name child);
      _ ← effect (unlink goals timeStamp (parent_ t) name child);
      mret (MkRemove rest (parent_ t) (context_ t) 0, [])
  end.

Definition remove_finished (t : RemoveTask) : bool := bool_decide (subtask_ t = []).

Definition getDirectoryChildInodes (n : FSNode) : list Z := match directory_of n with Some d => (entries d).*2 | None => [] end.

Definition trashtime_execute (timeStamp : Z) (t : SetTrashtimeTask) : Op (SetTrashtimeTask * list SetTrashtimeTask) :=
  match inode_list_ t with
  | [] => reads (fun _ => None)
  | inode :: rest =>
    found ← reads (fun s => Some (md_nodes s !! inode));
    match found with
    | None => throw ERROR_EINVAL
    | Some n =>
      let recursive := has (smode_ t) SMODE_RMASK in
      let t' := MkSetTrashtime rest (uid_ t) (trashtime_ t) (smode_ t) in
      result ← modify (setTrashtime (uid_ t) (trashtime_ t) (smode_of (smode_ t)) inode timeStamp);
      match result with
      | kNoAction => mret (t', [])
      | _ =>
        let inodes := if is_dir n && recursive then getDirectoryChildInodes n else [] in
        let pushed := match inodes with [] => [] | _ => [MkSetTrashtime inodes (uid_ t) (trashtime_ t) (smode_ t)] end in
        _ ← require (recursive || negb (bool_decide (result = kNotPermitted))) ERROR_EPERM;
        _ ← (if bool_decide (result = kChanged)
             then changeLog (getForMaster timeStamp) (SETTRASHTIME inode (uid_ t) (trashtime_ t) (smode_ t)) else mret tt);
        mret (t', pushed)
      end
    end
  end.

Definition trashtime_finished (t : SetTrashtimeTask) : bool := bool_decide (inode_list_ t = []).

(** The classes that are derived from Task. *)
Definition AnyTask : Type := RemoveTask + SetTrashtimeTask.

#[global] Instance any_task : Task AnyTask := {|
  execute ts t :=
    match t with
    | inl t => '(t, pushed) ← remove_execute ts t; mret (inl t, inl <$> pushed)
    | inr t => '(t, pushed) ← trashtime_execute ts t; mret (inr t, inr <$> pushed)
    end;
  task_finished t := match t with inl t => remove_finished t | inr t => trashtime_finished t end;
|}.

(** ** The requests that start jobs *)

Definition recursiveRemove (cx : Context) (parent : Z) (name : name_t) (job : Z) (tm : TaskManager AnyTask)
  : Op (fs_status * TaskManager AnyTask) :=
  _ ← verifySession ReadWrite cx NotMeta;
  wd ← getNodeForOperation cx ExpectDirectory MODE_MASK_W parent;
  child ← look wd name;
  match child with
  | None => throw ERROR_ENOENT
  | Some _ => submitTask job (ts cx) kInitialTaskBatchSize (inl (MkRemove [name] wd cx 0)) tm
  end.

Definition setTrashTime (cx : Context) (inode trashtime smode : Z) (tm : TaskManager AnyTask) : Op (fs_status * TaskManager AnyTask) :=
  _ ← require (SMODE_ISVALID smode) ERROR_EINVAL;
  _ ← verifySession ReadWrite cx AnySession;
  x ← getNodeForOperation cx ExpectAny MODE_MASK_EMPTY inode;
  n ← node x;
  _ ← require (is_dir n || is_file n) ERROR_EPERM;
  uid ← uid_of cx;
  let '(id, tm) := reserveJobId tm in
  submitTask id (ts cx) kInitialTaskBatchSize (inr (MkSetTrashtime [x] uid trashtime smode)) tm.

End tasks.
