(* ===== verification/FsKinds.v ===== *)
(** Operations never make a directory of another node or another node of a directory: every node that is there after an
    operation was there before, of the same kind, or has one of the numbers that the operation got for new nodes. *)
From S2P Require Import Prelude Serialization RichACL AclMasks AclPosix AclStorage Nodes FileSize NodeAcl Trash.
From S2P Require Import Quota FsTree DirQuota FsMeta FsOps FsAttrOps Tasks.

Definition dirlike (n : FSNode) : bool := match node_data n with DirectoryData _ => true | _ => false end.

Definition shape (nodes : nodes_t) : gmap Z bool := dirlike <$> nodes.

Lemma dirlike_spec n : dirlike n = true <-> is_Some (directory_of n).
Proof. unfold dirlike, directory_of. destruct (node_data n); split; try done; try (by intros [? ?]); by eexists. Qed.

(** ** The table of nodes *)

Lemma shape_upd x f nodes : (forall n, dirlike (f n) = dirlike n) -> shape (upd x f nodes) = shape nodes.
Proof.
  intros Hf. apply map_eq. intros y. unfold shape, upd. rewrite !lookup_fmap. destruct (decide (x = y)) as [<-|].
  - rewrite lookup_alter_eq. destruct (nodes !! x); [|done]. simpl. by rewrite Hf.
  - by rewrite lookup_alter_ne.
Qed.

Lemma dirlike_upd_dir f n : dirlike (upd_dir f n) = dirlike n.
Proof. unfold dirlike, upd_dir. by destruct (node_data n) eqn:E; simpl; rewrite ?E. Qed.

Lemma shape_put x n n' nodes : nodes !! x = Some n -> dirlike n' = dirlike n -> shape (<[x := n']> nodes) = shape nodes.
Proof. intros E Hd. unfold shape. rewrite fmap_insert, Hd. apply insert_id. by rewrite lookup_fmap, E. Qed.

Lemma foldl_shape {A} (f : option nodes_t -> A -> option nodes_t) l : forall nodes nodes',
  (forall x, f None x = None) -> (forall nodes x nodes', f (Some nodes) x = Some nodes' -> shape nodes' = shape nodes) ->
  foldl f (Some nodes) l = Some nodes' -> shape nodes' = shape nodes.
Proof.
  intros nodes nodes' Hnone Hf. revert nodes. assert (foldl f None l = None) as Hn by (induction l; simpl; [done|by rewrite Hnone]).
  induction l as [|x l IH]; intros nodes H; simpl in *; [by injection H as ->|]. rewrite Hnone in Hn.
  destruct (f (Some nodes) x) as [nodes1|] eqn:E; [|congruence]. rewrite (IH Hn nodes1) by done. by eapply Hf.
Qed.

Lemma change_stats_shape change root fuel : forall p nodes nodes', change_stats change root fuel p nodes = Some nodes' -> shape nodes' = shape nodes.
Proof.
  induction fuel as [|fuel IH]; intros p nodes nodes' H; [done|]. cbn [change_stats] in H. destruct (nodes !! p) as [n|] eqn:E; [|by injection H as ->].
  apply bind_Some in H as (d & _ & H). set (nodes1 := upd p _ nodes) in H.
  assert (shape nodes1 = shape nodes) as E1 by (apply shape_upd; intros; apply dirlike_upd_dir). destruct (p =? root); [by injection H as <-|].
  rewrite <-E1. eapply foldl_shape; [| |exact H]; [by intros [q nm]|]. intros nodes2 [q nm] nodes3. apply IH.
Qed.

(** Steps on the table that keep the kinds. *)
Ltac keep_shape :=
  repeat match goal with
  | H : (_ ≫= _) = Some _ |- _ => apply bind_Some in H as (? & ? & H)
  | H : Some _ = Some _ |- _ => injection H as H
  | H : None = Some _ |- _ => discriminate H
  | H : (let '(_, _) := ?x in _) = Some _ |- _ => destruct x
  | H : (if ?b then _ else _) = Some _ |- _ => destruct b
  end; subst; cbn [md_nodes set_nodes put_node set_detached set_acls set_quota count call nodeQuotaUpdate increaseMetadataVersion].

Ltac shape_step := first
  [ reflexivity | eassumption
  | rewrite shape_upd by (intros; first [apply dirlike_upd_dir|reflexivity])
  | match goal with H : shape ?a = _ |- context [shape ?a] => rewrite H end
  | match goal with H : change_stats _ _ _ _ _ = Some _ |- _ => apply change_stats_shape in H end
  | match goal with |- context [if ?b then _ else _] => destruct b end ].

Lemma addStats_shape root p st nodes nodes' : addStats root p st nodes = Some nodes' -> shape nodes' = shape nodes.
Proof. apply change_stats_shape. Qed.

Lemma link_shape goals root t p c name nodes nodes' : link goals root t p c name nodes = Some nodes' -> shape nodes' = shape nodes.
Proof. unfold link, addStats. intros H. keep_shape; repeat shape_step. Qed.

Lemma removeEdge_shape goals root t p name c nodes nodes' : removeEdge goals root t p name c nodes = Some nodes' -> shape nodes' = shape nodes.
Proof. unfold removeEdge, subStats. intros H. keep_shape; repeat shape_step. Qed.

(** ** The metadata *)

Ltac split_if H := match type of H with (if ?b then _ else _) = _ => destruct b end.

Definition kinds_kept (s s' : Metadata) : Prop := shape (md_nodes s') ⊆ shape (md_nodes s).

Lemma kinds_refl s s' : shape (md_nodes s') = shape (md_nodes s) -> kinds_kept s s'.
Proof. unfold kinds_kept. by intros ->. Qed.

#[export] Instance kinds_preorder : PreOrder kinds_kept.
Proof. split; [intros s; by apply kinds_refl|]. unfold kinds_kept. intros s1 s2 s3 H1 H2. by etransitivity. Qed.

Lemma kinds_put x n n' s s' :
  md_nodes s !! x = Some n -> md_nodes s' = <[x := n']> (md_nodes s) -> dirlike n' = dirlike n -> kinds_kept s s'.
Proof. intros E E' Hd. apply kinds_refl. rewrite E'. by apply (shape_put x n). Qed.

Lemma kinds_delete s s' x : md_nodes s' = delete x (md_nodes s) -> kinds_kept s s'.
Proof. intros E. unfold kinds_kept, shape. rewrite E, fmap_delete. apply delete_subseteq. Qed.

Section kinds.
Context (goals : Z -> Goals.Goal).
Notation root := SPECIAL_INODE_ROOT.

Lemma updateCTime_kinds x t s s' : updateCTime x t s = Some s' -> kinds_kept s s'.
Proof.
  unfold updateCTime. intros H. apply bind_Some in H as (n & En & H). assert (kinds_kept s (put_node x (with_ctime n t) s)) as K by (by eapply kinds_put).
  split_if H; [|by injection H as <-]. destruct (trash _ !! _); by injection H as <-.
Qed.

Lemma setTrashtime_kinds uid tt m x t s r s' : setTrashtime uid tt m x t s = Some (r, s') -> kinds_kept s s'.
Proof.
  unfold setTrashtime. intros H. apply bind_Some in H as (n & En & H). split_if H; [|by injection H as <- <-].
  split_if H; [by injection H as <- <-|]. split_if H; [|by injection H as <- <-].
  apply bind_Some in H as (s1 & H & [= <- <-]). etransitivity; [by eapply (kinds_put x n (with_trashtime n tt) s (put_node x (with_trashtime n tt) s))|].
  split_if H; [|by eapply updateCTime_kinds]. unfold updateCTimeForTrashNode in H. apply bind_Some in H as (n1 & En1 & [= <-]).
  by eapply kinds_put.
Qed.

Lemma removeNode_kinds t x s s' : removeNode goals t x s = Some s' -> kinds_kept s s'.
Proof.
  unfold removeNode. intros H. apply bind_Some in H as (n & En & H). split_if H; [by injection H as <-|].
  apply bind_Some in H as (acls & _ & H). apply bind_Some in H as (s1 & H1 & [= <-]). apply (kinds_delete _ _ x).
  cbn [md_nodes set_nodes set_quota nodeQuotaUpdate call]. f_equal.
  destruct (is_file n); [apply bind_Some in H1 as ([[? ?] ?] & _ & [= <-])|injection H1 as <-]; destruct (is_dir n), (bool_decide _); done.
Qed.

Lemma set_nodes_kinds s nodes : shape nodes = shape (md_nodes s) -> kinds_kept s (set_nodes s nodes).
Proof. exact (kinds_refl s (set_nodes s nodes)). Qed.

Lemma unlink_kinds t p name c s s' : unlink goals t p name c s = Some s' -> kinds_kept s s'.
Proof.
  unfold unlink. intros H. apply bind_Some in H as (cn0 & _ & H). apply bind_Some in H as (path & _ & H).
  apply bind_Some in H as (nodes & E & H). apply removeEdge_shape in E. etransitivity; [by apply (set_nodes_kinds s nodes)|].
  apply bind_Some in H as (cn & En & H). split_if H; [by injection H as <-|]. split_if H; [|by eapply removeNode_kinds].
  apply bind_Some in H as ([[len ses] ch] & _ & H). split_if H; [|split_if H; [|by eapply removeNode_kinds]];
    apply bind_Some in H as (d & _ & [= <-]); by eapply (kinds_put c cn).
Qed.

Lemma purge_kinds t x s r s' : purge goals t x s = Some (r, s') -> kinds_kept s s'.
Proof.
  unfold purge. intros H. apply bind_Some in H as (n & En & H). destruct (node_type n); try by injection H as <- <-.
  - apply bind_Some in H as ([[len ses] ch] & _ & H). split_if H; [injection H as <- <-; by eapply (kinds_put x n)|].
    apply bind_Some in H as (s1 & H & [= <- <-]). apply removeNode_kinds in H. etransitivity; [|exact H]. by eapply (kinds_put x n).
  - apply bind_Some in H as ([[len ses] ch] & _ & H).
    apply bind_Some in H as (s1 & H & [= <- <-]). apply removeNode_kinds in H. etransitivity; [|exact H]. by eapply (kinds_put x n).
Qed.

Lemma undel_link_kinds t x p name s s' : undel_link goals t x p name s = Some s' -> kinds_kept s s'.
Proof.
  unfold undel_link. intros H. apply bind_Some in H as (n & En & H). apply bind_Some in H as ([[len ses] ch] & _ & H).
  apply bind_Some in H as (nodes & E & [= <-]). apply link_shape in E. unfold kinds_kept. cbn [md_nodes set_nodes count]. rewrite E.
  by eapply (kinds_put x n).
Qed.

Lemma dirlike_file n len ses ch l2 s2 c2 : file_of n = Some (len, ses, ch) -> dirlike (with_file n l2 s2 c2) = dirlike n.
Proof. unfold file_of, dirlike. simpl. by destruct (node_data n). Qed.

Lemma setLength_kinds x len e s s' : setLength goals x len e s = Some s' -> kinds_kept s s'.
Proof.
  unfold setLength. intros H. apply bind_Some in H as (n & En & H). apply bind_Some in H as ([[prev ses] ch] & Ef & H).
  apply bind_Some in H as (nodes & E & [= <-]). apply kinds_refl. cbn [md_nodes set_nodes]. unfold updateParentStatsForNode in E.
  apply foldl_shape in E; [|by intros [q nm]|intros nodes1 [q nm] nodes2; apply addStats_shape]. rewrite E.
  cbn [md_nodes nodeQuotaUpdate set_quota put_node set_nodes]. rewrite (shape_put x n); [|..|by eapply dirlike_file].
  - destruct e; cbn [md_nodes call]; unfold updateDetachedSpaceUsage; destruct (_ =? _), (node_type n); done.
  - destruct e; cbn [md_nodes call]; unfold updateDetachedSpaceUsage; destruct (_ =? _), (node_type n); done.
Qed.

Lemma changeUidGid_kinds x uid gid s s' : changeUidGid goals x uid gid s = Some s' -> kinds_kept s s'.
Proof. unfold changeUidGid. intros H. apply bind_Some in H as (n & En & [= <-]). by eapply (kinds_put x n). Qed.

Lemma createNode_kinds t p name type mode umask uid gid c i x s s' :
  createNode goals t p name type mode umask uid gid c i x s = Some s' ->
  forall y b, y <> x -> shape (md_nodes s') !! y = Some b -> shape (md_nodes s) !! y = Some b.
Proof.
  unfold createNode. destruct (bool_decide (type = kTrash)); [done|]. intros H y b Hy. apply bind_Some in H as (data & _ & H). apply bind_Some in H as (pn & _ & H).
  apply bind_Some in H as (pacl & _ & H). apply bind_Some in H as ([n acls] & _ & H). destruct (md_nodes _ !! x); [done|].
  apply bind_Some in H as (nodes & E & [= <-]). apply link_shape in E. intros Hb.
  assert (shape nodes !! y = Some b) as Hb' by (by destruct (bool_decide _)). rewrite E in Hb'. unfold shape in Hb'.
  cbn [md_nodes put_node set_nodes set_acls] in Hb'. rewrite fmap_insert, lookup_insert_ne in Hb' by done.
  unfold incrementNodeCounters in Hb'. by destruct type.
Qed.

End kinds.

(** ** Operations *)

(** Nodes that were not there have numbers of [C]. *)
Definition within {A} (C : Z -> Prop) (m : Op A) : Prop :=
  forall s r s' log, m s = Some (r, s', log) ->
    forall x b, shape (md_nodes s') !! x = Some b -> shape (md_nodes s) !! x = Some b \/ C x.

Lemma within_still {A} C (m : Op A) : (forall s r s' log, m s = Some (r, s', log) -> kinds_kept s s') -> within C m.
Proof. intros H s r s' log E x b Hb. left. eapply lookup_weaken; [exact Hb|]. by eapply H. Qed.

Lemma op_within_bind {A B} C (m : Op A) (f : A -> Op B) : within C m -> (forall x, within C (f x)) -> within C (m ≫= f).
Proof.
  intros Hm Hf s r s' log E x b Hb. unfold mbind, op_bind in E. destruct (m s) as [[[[e|y] s1] log1]|] eqn:E1; [|..|done].
  - injection E as <- <- <-. by eapply Hm.
  - destruct (f y s1) as [[[r2 s2] log2]|] eqn:E2; [|done]. injection E as <- <- <-. destruct (Hf y _ _ _ _ E2 x b Hb) as [H|H]; [|by right].
    by eapply Hm.
Qed.

Lemma op_within_ret {A} C (x : A) : within C (mret x : Op A).
Proof. apply within_still. intros s r s' log [= <- <- <-]. done. Qed.

Lemma op_within_throw {A} C e : within C (throw (A := A) e).
Proof. apply within_still. intros s r s' log [= <- <- <-]. done. Qed.

Lemma within_reads {A} C (f : Metadata -> option A) : within C (reads f).
Proof. apply within_still. unfold reads. intros s r s' log. destruct (f s); [|done]. by intros [= <- <- <-]. Qed.

Lemma within_require C b e : within C (require b e).
Proof. destruct b; [apply op_within_ret|apply op_within_throw]. Qed.

Lemma within_effect C f : (forall s s', f s = Some s' -> kinds_kept s s') -> within C (effect f).
Proof. intros H. apply within_still. unfold effect. intros s r s' log. destruct (f s) eqn:E; [|done]. intros [= <- <- <-]. by apply H. Qed.

Lemma within_modify {A} C (f : Metadata -> option (A * Metadata)) : (forall s r s', f s = Some (r, s') -> kinds_kept s s') -> within C (modify f).
Proof. intros H. apply within_still. unfold modify. intros s r s' log. destruct (f s) as [[x s1]|] eqn:E; [|done]. intros [= <- <- <-]. by eapply H. Qed.

Lemma within_changeLog C cx e : within C (changeLog cx e).
Proof. apply within_still. intros s r s' log [= <- <- <-]. by apply kinds_refl. Qed.

Lemma within_catch {A} C (m : Op A) : within C m -> within C (catch m).
Proof.
  intros H s r s' log E x b Hb. unfold catch in E. destruct (m s) as [[[r1 s1] log1]|] eqn:E1; [|done]. injection E as <- <- <-. by eapply H.
Qed.

Lemma within_recorded C cx e m : within C m -> within C (recorded cx e m).
Proof.
  intros H s r s' log E x b Hb. unfold recorded in E. destruct (m s) as [[[[err|y] s1] log1]|] eqn:E1; [|..|done].
  - injection E as <- <- <-. eapply H; [exact E1|]. by destruct (isPersonalityMaster cx).
  - unfold changeLog in E. injection E as <- <- <-. by eapply H.
Qed.

Create HintDb within.
#[export] Hint Resolve op_within_ret op_within_throw within_reads within_require within_changeLog : within.

(** The structure of an operation. *)
Ltac within_step := first
  [ solve [auto with within]
  | apply op_within_bind; [|intros]
  | apply within_recorded
  | match goal with
    | |- within _ (match ?x with _ => _ end) => destruct x
    | |- within _ (let '(_, _) := ?x in _) => destruct x
    end ].
Ltac within_op := repeat within_step.

(** An operation that changes no kind at all, in a table of kinds for which [P] holds. *)
Definition steady {A} (P : gmap Z bool -> Prop) (m : Op A) : Prop :=
  forall s r s' log, P (shape (md_nodes s)) -> m s = Some (r, s', log) -> shape (md_nodes s') = shape (md_nodes s).

Lemma steady_within {A} C (m : Op A) : steady (fun _ => True) m -> within C m.
Proof. intros H. apply within_still. intros s r s' log E. apply kinds_refl. by eapply H. Qed.

Lemma steady_bind {A B} P (m : Op A) (f : A -> Op B) : steady P m -> (forall x, steady P (f x)) -> steady P (m ≫= f).
Proof.
  intros Hm Hf s r s' log HP E. unfold mbind, op_bind in E. destruct (m s) as [[[[e|y] s1] log1]|] eqn:E1; [|..|done].
  - injection E as <- <- <-. by eapply Hm.
  - destruct (f y s1) as [[[r2 s2] log2]|] eqn:E2; [|done]. injection E as <- <- <-. pose proof (Hm _ _ _ _ HP E1) as Hs.
    rewrite <-Hs. eapply Hf; [by rewrite Hs|exact E2].
Qed.

(** The kind of a node that was read is known. *)
Lemma steady_node {B} P x (f : FSNode -> Op B) :
  (forall n, steady (fun sh => P sh /\ sh !! x = Some (dirlike n)) (f n)) -> steady P (node x ≫= f).
Proof.
  intros Hf s r s' log HP E. unfold mbind, op_bind, node, reads in E. destruct (md_nodes s !! x) as [n|] eqn:En; [|done].
  destruct (f n s) as [[[r2 s2] log2]|] eqn:E2; [|done]. injection E as <- <- <-. eapply Hf; [|exact E2]. split; [done|].
  unfold shape. by rewrite lookup_fmap, En.
Qed.

Lemma steady_found {B} P x (f : option FSNode -> Op B) :
  steady P (f None) -> (forall n, steady (fun sh => P sh /\ sh !! x = Some (dirlike n)) (f (Some n))) ->
  steady P (reads (fun s => Some (md_nodes s !! x)) ≫= f).
Proof.
  intros H0 Hf s r s' log HP E. unfold mbind, op_bind, reads in E. destruct (md_nodes s !! x) as [n|] eqn:En.
  - destruct (f (Some n) s) as [[[r2 s2] log2]|] eqn:E2; [|done]. injection E as <- <- <-. eapply Hf; [|exact E2]. split; [done|].
    unfold shape. by rewrite lookup_fmap, En.
  - destruct (f None s) as [[[r2 s2] log2]|] eqn:E2; [|done]. injection E as <- <- <-. by eapply H0.
Qed.

Lemma steady_value {A B} P (v : Metadata -> option A) (f : A -> Op B) :
  (forall s x, v s = Some x -> steady P (f x)) -> steady P (reads v ≫= f).
Proof.
  intros Hf s r s' log HP E. unfold mbind, op_bind, reads in E. destruct (v s) as [x|] eqn:Ev; [|done].
  destruct (f x s) as [[[r2 s2] log2]|] eqn:E2; [|done]. injection E as <- <- <-. by eapply Hf.
Qed.

Lemma steady_pure {A} P (m : Op A) : (forall s r s' log, m s = Some (r, s', log) -> md_nodes s' = md_nodes s) -> steady P m.
Proof. intros H s r s' log _ E. by rewrite (H _ _ _ _ E). Qed.

Lemma steady_ret {A} P (x : A) : steady P (mret x : Op A).
Proof. apply steady_pure. by intros s r s' log [= <- <- <-]. Qed.

Lemma steady_throw {A} P e : steady P (throw (A := A) e).
Proof. apply steady_pure. by intros s r s' log [= <- <- <-]. Qed.

Lemma steady_reads {A} P (f : Metadata -> option A) : steady P (reads f).
Proof. apply steady_pure. unfold reads. intros s r s' log. destruct (f s); [|done]. by intros [= <- <- <-]. Qed.

Lemma steady_require P b e : steady P (require b e).
Proof. destruct b; [apply steady_ret|apply steady_throw]. Qed.

Lemma steady_changeLog P cx e : steady P (changeLog cx e).
Proof. apply steady_pure. by intros s r s' log [= <- <- <-]. Qed.

Lemma steady_effect P f : (forall s s', P (shape (md_nodes s)) -> f s = Some s' -> shape (md_nodes s') = shape (md_nodes s)) -> steady P (effect f).
Proof. intros H s r s' log HP E. unfold effect in E. destruct (f s) as [s1|] eqn:E1; [|done]. injection E as <- <- <-. by apply H. Qed.

Lemma shape_insert x n nodes b : shape nodes !! x = Some b -> dirlike n = b -> shape (<[x := n]> nodes) = shape nodes.
Proof. intros E <-. unfold shape in *. rewrite fmap_insert. by apply insert_id. Qed.

(** A node is replaced by one of the same kind. *)
Lemma steady_put (P : gmap Z bool -> Prop) x n (f : Metadata -> Metadata) :
  (forall sh, P sh -> sh !! x = Some (dirlike n)) -> (forall s, md_nodes (f s) = <[x := n]> (md_nodes s)) -> steady P (effect (fun s => Some (f s))).
Proof. intros HP Hf. apply steady_effect. intros s s' H [= <-]. rewrite Hf. by eapply shape_insert; [apply HP|]. Qed.

#[export] Hint Resolve steady_ret steady_throw steady_reads steady_require steady_changeLog : within.

Ltac steady_step := first
  [ solve [auto with within]
  | apply steady_node; intros
  | apply steady_found; [|intros]
  | apply steady_value; intros
  | apply steady_bind; [|intros]
  | match goal with
    | |- steady _ (match ?x with _ => _ end) => destruct x eqn:?
    | |- steady _ (let '(_, _) := ?x in _) => destruct x eqn:?
    end ].
Ltac steady_op := repeat steady_step.
