(* ===== verification/FsKindsOps.v ===== *)
(** The requests keep the kinds of nodes (as FsKinds.v has it), and what that means for the tasks that wait. *)
From S2P Require Import Prelude Serialization RichACL AclMasks AclPosix AclStorage Nodes FileSize NodeAcl Trash.
From S2P Require Import Quota FsTree DirQuota FsMeta FsOps FsAttrOps Tasks FsKinds.

Lemma updateCTime_shape x t s s' : updateCTime x t s = Some s' -> shape (md_nodes s') = shape (md_nodes s).
Proof.
  unfold updateCTime. intros H. apply bind_Some in H as (n & En & H).
  assert (md_nodes s' = <[x := with_ctime n t]> (md_nodes s)) as -> by (split_if H; [destruct (trash _ !! _)|]; by injection H as <-).
  by apply (shape_put x n).
Qed.

(** ** Access control lists *)

(** Only the mode and the ctime differ. *)
Definition same_but_mode (n n' : FSNode) : Prop :=
  exists mode, NodeAcl.set_ctime n' (node_ctime n) =
    MkNode (node_id n) (node_ctime n) (node_mtime n) (node_atime n) (node_type n) (node_goal n) mode
      (node_uid n) (node_gid n) (node_trashtime n) (node_parents n) (node_data n).

Ltac solve_same := intros; simplify_eq; eexists; reflexivity.

Lemma setAcl_same acl t n acls a n' acls' : NodeAcl.setAcl n acl t acls = Some (a, n', acls') -> same_but_mode n n'.
Proof.
  unfold NodeAcl.setAcl. destruct (negb _); [solve_same|]. destruct (equivMode _ _ _).
  - destruct (erase _ _); [|done]. cbn [mbind option_bind]. solve_same.
  - destruct (isAutoSetMode acl); destruct (set _ _ _); try done; cbn [mbind option_bind]; solve_same.
Qed.

Lemma setPosixAcl_same type acl t n acls a n' acls' : setPosixAcl n type acl t acls = Some (a, n', acls') -> same_but_mode n n'.
Proof.
  unfold setPosixAcl. destruct type; [..|solve_same]; (destruct (_ && _); [solve_same|]); destruct (get _ _); try done;
    cbn [mbind option_bind]; destruct (set _ _ _); try done; cbn [mbind option_bind]; solve_same.
Qed.

Lemma deleteAcl_same type t n acls a n' acls' : NodeAcl.deleteAcl n type t acls = Some (a, n', acls') -> same_but_mode n n'.
Proof.
  unfold NodeAcl.deleteAcl. destruct type; [|destruct (is_directory n); [|solve_same]|];
    try (destruct (get _ _) as [[|]|]; try done; cbn [mbind option_bind]);
    try (destruct (bool_decide _)); try (destruct (erase _ _)); try (destruct (set _ _ _)); try done; cbn [mbind option_bind]; solve_same.
Qed.

Lemma same_dirlike n n' : same_but_mode n n' -> dirlike n' = dirlike n.
Proof. intros [mode H]. unfold dirlike. change (node_data n') with (node_data (NodeAcl.set_ctime n' (node_ctime n))). by rewrite H. Qed.

Lemma steady_change_acl P change x t :
  (forall n acls a n' acls', change n acls = Some (a, n', acls') -> same_but_mode n n') -> steady P (change_acl change x t).
Proof.
  intros H. unfold change_acl. apply steady_node. intros n. apply steady_value. intros s [[a n'] acls] E. apply H, same_dirlike in E.
  destruct a; auto with within. apply steady_bind; [|intros; apply steady_effect; intros ? ? _; apply updateCTime_shape].
  apply steady_effect. intros ? ? ? ?. destruct_and?. simplify_eq. by eapply shape_insert.
Qed.

(** ** Steps of requests *)

Section ops.
Context (goals : Z -> Goals.Goal).

Lemma steady_ctime P x t : steady P (effect (updateCTime x t)).
Proof. apply steady_effect. intros s s' _. apply updateCTime_shape. Qed.

Lemma steady_owner P x uid gid : steady P (effect (changeUidGid goals x uid gid)).
Proof.
  apply steady_effect. intros s s' _ H. unfold changeUidGid in H. apply bind_Some in H as (n & En & [= <-]). by apply (shape_put x n).
Qed.

Lemma steady_sync P x : steady P (effect (sync_acl x)).
Proof.
  apply steady_effect. intros s s' _ H. unfold sync_acl in H. apply bind_Some in H as (n & En & H). by apply bind_Some in H as (acls & _ & [= <-]).
Qed.

Lemma steady_times P x t m a b : steady P (effect (set_times x t m a b)).
Proof.
  apply steady_effect. intros s s' _ H. unfold set_times in H. apply bind_Some in H as (n & En & [= <-]). apply (shape_put x n); [done|].
  repeat match goal with |- context [if ?c then _ else _] => destruct c end; done.
Qed.

Lemma steady_mtime P x t : steady P (effect (set_mtime x t)).
Proof. apply steady_effect. intros s s' _ H. unfold set_mtime in H. apply bind_Some in H as (n & En & [= <-]). by apply (shape_put x n). Qed.

Lemma steady_case P x b : steady P (effect (fun s => Some (adapt_case b x s))).
Proof. apply steady_effect. intros s s' _ [= <-]. apply shape_upd. intros. apply dirlike_upd_dir. Qed.

Lemma steady_set_case P x b : steady P (effect (fun s => Some (set_case x b s))).
Proof. apply steady_effect. intros s s' _ [= <-]. apply shape_upd. intros. apply dirlike_upd_dir. Qed.

Lemma steady_detached P f : steady P (effect (fun s => Some (set_detached s (f s)))).
Proof. apply steady_effect. by intros s s' _ [= <-]. Qed.

Lemma steady_link P t p c name :
  steady P (effect (fun s => nodes ← FsTree.link goals SPECIAL_INODE_ROOT t p c name (md_nodes s); Some (set_nodes s nodes))).
Proof. apply steady_effect. intros s s' _ H. apply bind_Some in H as (nodes & E & [= <-]). by eapply link_shape. Qed.

Lemma steady_edge P t p c name :
  steady P (effect (fun s => nodes ← removeEdge goals SPECIAL_INODE_ROOT t p name c (md_nodes s); Some (set_nodes s nodes))).
Proof. apply steady_effect. intros s s' _ H. apply bind_Some in H as (nodes & E & [= <-]). by eapply removeEdge_shape. Qed.

Lemma steady_stats P p st :
  steady P (effect (fun s => nodes ← addStats SPECIAL_INODE_ROOT p st (md_nodes s); Some (set_nodes s nodes))).
Proof. apply steady_effect. intros s s' _ H. apply bind_Some in H as (nodes & E & [= <-]). by eapply addStats_shape. Qed.

Lemma steady_rdev P x type rdev : steady P (effect (set_rdev x type rdev)).
Proof.
  apply steady_effect. intros s s' _ H. unfold set_rdev in H. destruct type; try (by injection H as <-);
    apply bind_Some in H as (n & En & H); destruct (node_data n) eqn:Ed; try done; injection H as <-; apply (shape_put x n); try done;
    unfold dirlike; by rewrite Ed.
Qed.

Lemma steady_path P x path : steady P (effect (set_path x path)).
Proof.
  apply steady_effect. intros s s' _ H. unfold set_path in H. apply bind_Some in H as (n & En & H). destruct (node_data n) eqn:Ed; try done.
  injection H as <-. apply (shape_put x n); [done|]. unfold dirlike. by rewrite Ed.
Qed.

End ops.

#[export] Hint Resolve steady_ctime steady_owner steady_sync steady_times steady_mtime steady_case steady_set_case steady_detached steady_link
  steady_edge steady_stats steady_rdev steady_path : within.

Section requests.
Context (goals : Z -> Goals.Goal).

Lemma steady_uid P cx : steady P (uid_of cx).
Proof. apply steady_reads. Qed.

Lemma steady_gid P cx : steady P (gid_of cx).
Proof. apply steady_reads. Qed.

Lemma steady_read_node P x : steady P (node x).
Proof. apply steady_reads. Qed.

Lemma steady_session P mode cx type : steady P (verifySession mode cx type).
Proof. unfold verifySession. steady_op. Qed.

Lemma steady_candidate P cx inode : steady P (candidate cx inode).
Proof. unfold candidate. steady_op. Qed.

Lemma steady_access P cx x mask : steady P (check_access cx x mask).
Proof. unfold check_access. steady_op. Qed.

Lemma steady_expected P type n : steady P (expected type n).
Proof. unfold expected. steady_op. Qed.

Hint Resolve steady_uid steady_gid steady_read_node steady_session steady_candidate steady_access steady_expected : within.

Lemma steady_getNode P cx type mask inode : steady P (getNodeForOperation cx type mask inode).
Proof. unfold getNodeForOperation. steady_op. Qed.

Lemma steady_base P dir name : steady P (base_name dir name).
Proof. unfold base_name. steady_op. Qed.

Lemma steady_quota P uid gid dir rs : steady P (checkQuotaUgDir uid gid dir rs).
Proof. unfold checkQuotaUgDir. steady_op. Qed.

Lemma steady_sticky P cx p c : steady P (sticky cx p c).
Proof. unfold sticky, uid_of. steady_op. Qed.

Lemma steady_look P dir name : steady P (look dir name).
Proof. unfold look. steady_op. Qed.

Lemma steady_free P dir name : steady P (free_name dir name).
Proof. unfold free_name. steady_op. Qed.

Lemma steady_move P dst src cn rn : steady P (move_quota goals dst src cn rn).
Proof. unfold move_quota. steady_op. Qed.

Hint Resolve steady_look : within.

Lemma steady_canonical b names : forall P x result, steady P (canonical b x names result).
Proof. induction names; intros; cbn [canonical]; steady_op. Qed.

Lemma steady_getCanonical P cx path : steady P (getCanonicalPath cx path).
Proof. unfold getCanonicalPath. steady_op. apply steady_canonical. Qed.

Lemma steady_log_create P cx p name type uid gid rdev x : steady P (log_create cx p name type uid gid rdev x).
Proof. unfold log_create. steady_op. Qed.

Hint Resolve steady_getNode steady_base steady_quota steady_sticky steady_look steady_free steady_move steady_getCanonical steady_log_create : within.

Lemma steady_setattr_checks P cx ses u x n a b c : steady P (setattr_checks cx ses u x n a b c).
Proof. unfold setattr_checks. steady_op. Qed.

Hint Resolve steady_setattr_checks : within.

(** A node that was read is put back, changed. *)
Ltac put_back := apply steady_effect; intros ? ? ? ?; destruct_and?; simplify_eq; eapply shape_insert; [eassumption|];
  first [reflexivity | by eapply dirlike_file].

Lemma steady_setAttr cx inode a b c d e f g : steady (fun _ => True) (setAttr goals cx inode a b c d e f g).
Proof. unfold setAttr. steady_op; put_back. Qed.

Lemma steady_setTrashPath cx inode path : steady (fun _ => True) (setTrashPath cx inode path).
Proof. unfold setTrashPath. steady_op. Qed.

Lemma steady_acquire cx inode sid : steady (fun _ => True) (acquire cx inode sid).
Proof. unfold acquire. steady_op; put_back. Qed.

Lemma steady_atime P disabled cx x : steady P (fs_update_atime disabled cx x).
Proof. unfold fs_update_atime. steady_op; put_back. Qed.

Hint Resolve steady_atime : within.

Lemma steady_readlink disabled cx inode : steady (fun _ => True) (readlink disabled cx inode).
Proof. unfold readlink. steady_op. Qed.

Lemma steady_readChunk disabled t inode i : steady (fun _ => True) (readChunk disabled t inode i).
Proof. unfold readChunk. steady_op. Qed.

Lemma steady_quotas P cx rs : steady P (record_quotas cx rs).
Proof. induction rs; cbn [record_quotas]; steady_op. Qed.

Hint Resolve steady_quotas : within.

Lemma steady_quotaSet cx es : steady (fun _ => True) (quotaSet cx es).
Proof. unfold quotaSet. steady_op; by apply steady_effect; intros ? ? ? [= <-]. Qed.

(** ** Requests *)

Lemma steady_recorded P cx e m : steady P m -> steady P (recorded cx e m).
Proof.
  intros H s r s' log HP E. unfold recorded in E. destruct (m s) as [[[[err|y] s1] log1]|] eqn:E1; [|..|done].
  - injection E as <- <- <-. rewrite <-(H _ _ _ _ HP E1). by destruct (isPersonalityMaster cx).
  - unfold changeLog in E. injection E as <- <- <-. rewrite <-(H _ _ _ _ HP E1). done.
Qed.

Lemma steady_setRichAcl cx inode acl : steady (fun _ => True) (setRichAcl cx inode acl).
Proof. unfold setRichAcl. steady_op. apply steady_recorded, steady_change_acl. apply setAcl_same. Qed.

Lemma steady_setAcl cx inode type acl : steady (fun _ => True) (setAcl_op cx inode type acl).
Proof. unfold setAcl_op. steady_op. apply steady_recorded, steady_change_acl. apply setPosixAcl_same. Qed.

Lemma steady_deleteAcl cx inode type : steady (fun _ => True) (deleteAcl_op cx inode type).
Proof. unfold deleteAcl_op. steady_op. apply steady_recorded, steady_change_acl. apply deleteAcl_same. Qed.

Lemma steady_all {A} C (m : Op A) : (forall P, steady P m) -> within C m.
Proof. intros H. apply steady_within, H. Qed.

Hint Extern 2 (within _ _) => solve [apply steady_all; intros; auto with within] : within.
Hint Resolve unlink_kinds setLength_kinds undel_link_kinds : within.

Lemma within_unlink C t p name c : within C (effect (unlink goals t p name c)).
Proof. apply within_effect. intros. by eapply unlink_kinds. Qed.

Lemma within_purge C t x : within C (effect (fun s => snd <$> purge goals t x s)).
Proof.
  apply within_effect. intros s s' H. destruct (purge goals t x s) as [[r s1]|] eqn:E; [|done]. injection H as <-. by eapply purge_kinds.
Qed.

Lemma within_setLength C x len e : within C (effect (setLength goals x len e)).
Proof. apply within_effect. intros. by eapply setLength_kinds. Qed.

Lemma within_undel_link C t x p name : within C (effect (undel_link goals t x p name)).
Proof. apply within_effect. intros. by eapply undel_link_kinds. Qed.

Lemma within_create (C : Z -> Prop) t p name type mode umask uid gid c i x :
  C x -> within C (effect (createNode goals t p name type mode umask uid gid c i x)).
Proof.
  intros HC s r s' log E y b Hb. unfold effect in E. destruct (createNode _ _ _ _ _ _ _ _ _ _ _ _ s) as [s1|] eqn:E1; [|done].
  injection E as <- <- <-. destruct (decide (y = x)) as [->|]; [by right|]. left. by eapply createNode_kinds.
Qed.

Hint Resolve within_unlink within_purge within_setLength within_undel_link within_create : within.

Lemma within_mknod cx p name type mode umask rdev x : within (eq x) (mknod goals cx p name type mode umask rdev x).
Proof. unfold mknod. within_op. Qed.

Lemma within_mkdir cx depleted p name mode umask c x : within (eq x) (mkdir goals cx depleted p name mode umask c x).
Proof. unfold mkdir. within_op. Qed.

Lemma within_symlink cx p name path x : within (eq x) (symlink goals cx p name path x).
Proof. unfold symlink. within_op. Qed.

Lemma within_unlink_op C cx p name : within C (unlink_op goals cx p name).
Proof. unfold unlink_op. within_op. Qed.

Lemma within_rmdir C cx p name : within C (rmdir goals cx p name).
Proof. unfold rmdir. within_op. Qed.

Lemma within_rename C cx p name q name' x : within C (rename goals cx p name q name' x).
Proof. unfold rename. within_op. Qed.

Lemma within_link C cx x p name : within C (link_op goals cx x p name).
Proof. unfold link_op. within_op. Qed.

Lemma within_purge_op C cx x : within C (purge_op goals cx x).
Proof. unfold purge_op. within_op. Qed.

Lemma within_doSetLength C cx x len : within C (doSetLength goals cx x len).
Proof. unfold doSetLength. within_op. Qed.

Lemma within_release C cx x sid : within C (release goals cx x sid).
Proof.
  apply within_still. intros s r s' log E. unfold release, mbind, op_bind, reads, effect, changeLog in E.
  destruct (md_nodes s !! x) as [n|] eqn:En; [|by injection E as <- <- <-]. destruct (is_file n); cbn in E; [|by injection E as <- <- <-].
  destruct (file_of n) as [[[len ses] ch]|] eqn:Ef; [|done]. destruct (existsb _ ses); cbn in E; [|by injection E as <- <- <-].
  set (s1 := put_node x (with_file n len (erase_first (Z.eqb sid) ses) ch) s) in *.
  assert (kinds_kept s s1) as K by (eapply (kinds_put x n _ s s1 En eq_refl); by eapply dirlike_file).
  match type of E with context [if ?b then _ else _] => destruct b end; cbn in E.
  - destruct (purge goals (ts cx) x s1) as [[r2 s2]|] eqn:E2; [|done]. injection E as <- <- <-. etransitivity; [exact K|]. exact (purge_kinds goals _ _ _ _ _ E2).
  - injection E as <- <- <-. exact K.
Qed.

Hint Resolve within_release : within.

Lemma within_undel_walk (C : Z -> Prop) cx x names : forall p b fresh,
  Forall C fresh -> within C (undel_walk goals cx x p b names fresh).
Proof.
  induction names as [|name names IH]; intros p b fresh HC; cbn [undel_walk]; [apply within_reads|].
  destruct names as [|name2 names]; [within_op|]. apply op_within_bind; [destruct b; auto with within|]. intros [y|].
  - within_op; by apply IH.
  - destruct HC as [|y fresh Hy HC]; [apply within_reads|]. within_op; by apply IH.
Qed.

Lemma within_undel cx x fresh : within (fun y => y ∈ fresh) (undel goals cx x fresh).
Proof.
  unfold undel. within_op. unfold undel_node. within_op. apply within_undel_walk. by apply Forall_forall.
Qed.

Lemma within_rounds C round fuel : (forall calls, within C (round calls)) -> forall calls, within C (rounds round fuel calls).
Proof. intros H. induction fuel as [|fuel IH]; intros calls; cbn [rounds]; within_op; done. Qed.

Lemma within_release_all C t x sids : within C (release_all goals t x sids).
Proof.
  induction sids as [|sid sids IH]; cbn [release_all]; [apply op_within_ret|]. intros s r s' log E y b Hb.
  destruct (release _ _ _ _ s) as [[[r1 s1] log1]|] eqn:E1; [|done]. destruct (release_all _ _ _ _ s1) as [[[r2 s2] log2]|] eqn:E2; [|done].
  injection E as <- <- <-. destruct (IH _ _ _ _ E2 y b Hb) as [H|H]; [|by right]. by eapply within_release.
Qed.

Lemma within_emptyTrash C expired t : within C (doEmptyTrash goals expired t).
Proof.
  intros s. apply (within_rounds C (empty_trash_round goals expired t)). intros calls. unfold empty_trash_round. within_op.
Qed.

Lemma within_emptyReserved C expired t : within C (doEmptyReserved goals expired t).
Proof.
  intros s. apply (within_rounds C (empty_reserved_round goals expired t)). intros calls. unfold empty_reserved_round. within_op.
  apply within_release_all.
Qed.

End requests.
