(* ===== verification/FsOpsRead.v ===== *)
(** The parts of the operations that only read: sessions, nodes, names, permissions and quotas.  On a state that
    satisfies the invariant they return, and they leave the state and the changelog as they are. *)
From S2P Require Import Prelude Serialization RichACL AclMasks AclStorage Nodes FileSize NodeAcl Trash Quota.
From S2P Require Import FsTree FsTreeInv FsTreeNodes FsTreeEdges DirQuota FsMeta FsMetaInv FsMetaSteps FsOps.

(** The operation ends with an error or with a result that satisfies [P], and nothing changes. *)
Definition reading {A} (m : Op A) (s : Metadata) (P : A -> Prop) : Prop :=
  exists r, m s = Some (r, s, []) /\ match r with inl _ => True | inr x => P x end.

Lemma bind_pure {A B} (m : Op A) (f : A -> Op B) s x :
  m s = Some (inr x, s, []) -> (m ≫= f) s = f x s.
Proof. intros E. unfold mbind, op_bind. rewrite E. destruct (f x s) as [[[r s'] log]|]; done. Qed.

Lemma bind_error {A B} (m : Op A) (f : A -> Op B) s e : m s = Some (inl e, s, []) -> (m ≫= f) s = Some (inl e, s, []).
Proof. intros E. unfold mbind, op_bind. by rewrite E. Qed.

(** An effect, and what follows it. *)
Lemma bind_effect {A B} (m : Op A) (f : A -> Op B) s x s' log r s'' log' :
  m s = Some (inr x, s', log) -> f x s' = Some (r, s'', log') -> (m ≫= f) s = Some (r, s'', log ++ log').
Proof. intros E1 E2. unfold mbind, op_bind. by rewrite E1, E2. Qed.

Lemma reading_bind {A B} (m : Op A) (f : A -> Op B) s P Q :
  reading m s P -> (forall x, P x -> reading (f x) s Q) -> reading (m ≫= f) s Q.
Proof.
  intros ([e|x] & E & H) Hf.
  - exists (inl e). split; [|done]. by apply bind_error.
  - destruct (Hf x H) as (r & E' & H'). exists r. split; [|done]. by rewrite (bind_pure m f s x E).
Qed.

Lemma reading_result {A} (m : Op A) s P : reading m s P -> reading m s (fun x => m s = Some (inr x, s, []) /\ P x).
Proof. intros (r & E & H). exists r. split; [done|]. destruct r; [done|]. by split. Qed.

Lemma reading_weaken {A} (m : Op A) s (P Q : A -> Prop) : reading m s P -> (forall x, P x -> Q x) -> reading m s Q.
Proof. intros (r & E & H) Hw. exists r. split; [done|]. destruct r; auto. Qed.

Lemma reading_ret {A} (x : A) s (P : A -> Prop) : P x -> reading (mret x) s P.
Proof. intros H. by exists (inr x). Qed.

Lemma reading_throw {A} e s (P : A -> Prop) : reading (throw e) s P.
Proof. by exists (inl e). Qed.

Lemma reading_require b e s : reading (require b e) s (fun _ => b = true).
Proof. unfold require. destruct b; [by apply reading_ret|apply reading_throw]. Qed.

Lemma reading_reads {A} (f : Metadata -> option A) s x : f s = Some x -> reading (reads f) s (fun y => y = x).
Proof. intros E. exists (inr x). unfold reads. by rewrite E. Qed.

Lemma reading_node x n s : md_nodes s !! x = Some n -> reading (node x) s (fun y => y = n).
Proof. intros E. by apply reading_reads. Qed.

Section read.
Context (goals : Z -> Goals.Goal).
Notation root := SPECIAL_INODE_ROOT.
Context (s : Metadata) (Hok : meta_ok goals s).

Lemma reading_session mode cx type : reading (verifySession mode cx type) s (fun _ => True).
Proof.
  unfold verifySession. destruct (session cx); [|by apply reading_ret].
  destruct (_ && _); [apply reading_throw|]. destruct (_ && _); [apply reading_throw|].
  destruct (_ && _); [apply reading_throw|by apply reading_ret].
Qed.

(** isAncestor() ends for every node. *)
Lemma isAncestor_runs a x n : md_nodes s !! x = Some n -> exists b, isAncestor (md_nodes s) a x = Some b.
Proof.
  intros En. unfold isAncestor. rewrite En. cbn [mbind option_bind].
  assert (forall (ps : list (Z * name_t)) (b : bool), (forall p nm, (p, nm) ∈ ps -> exists pn d, md_nodes s !! p = Some pn /\ directory_of pn = Some d) ->
    exists b', foldl (fun acc '(p, _) => found ← acc; if found : bool then Some true else climbs_to (md_nodes s) a (stats_fuel (md_nodes s)) p)
      (Some b) ps = Some b') as H.
  { induction ps as [|[p nm] ps IH]; intros b Hp; [by eexists|]. cbn [foldl mbind option_bind].
    destruct b; [apply IH; intros q nq Hq; apply (Hp q nq); set_solver|].
    destruct (Hp p nm) as (pn & d & Ep & Ed); [set_solver|].
    destruct (tree_chain _ _ _ _ _ _ (mo_tree _ _ Hok) Ep ltac:(eauto)) as [l Hl].
    rewrite (climbs_chain _ a _ _ l Hl) by (apply chain_length in Hl; unfold stats_fuel; lia).
    apply IH. intros q nq Hq. apply (Hp q nq). set_solver. }
  apply H. intros p nm Hin. destruct (no_back _ _ _ _ _ (to_nodes _ _ _ _ (mo_tree _ _ Hok) x n En) p nm Hin) as (pn & d & Ep & Ed & _). eauto.
Qed.

Lemma reading_candidate cx inode : reading (candidate cx inode) s (fun x => is_Some (md_nodes s !! x)).
Proof.
  unfold candidate. destruct (session cx) as [ses|].
  2: { eapply reading_bind; [by apply reading_reads|]. intros found ->. destruct (md_nodes s !! inode) eqn:E; [|apply reading_throw].
       apply reading_ret. by eexists. }
  destruct (_ || _).
  { eapply reading_bind; [by apply reading_reads|]. intros found ->. destruct (md_nodes s !! inode) eqn:E; [|apply reading_throw].
    destruct (_ && _); [apply reading_throw|]. apply reading_ret. by eexists. }
  eapply reading_bind; [by apply reading_reads|]. intros found ->. destruct (md_nodes s !! rootinode ses) as [rn|] eqn:Er; [|apply reading_throw].
  destruct (negb _); [apply reading_throw|]. destruct (_ || _); [apply reading_ret; by eexists|].
  eapply reading_bind; [by apply reading_reads|]. intros found ->. destruct (md_nodes s !! inode) as [n|] eqn:E; [|apply reading_throw].
  destruct (is_detached n); [apply reading_ret; by eexists|]. destruct (isAncestor_runs (rootinode ses) inode n E) as [b Eb].
  eapply reading_bind; [by apply reading_reads|]. intros b' ->. eapply reading_bind; [apply reading_require|]. intros _ _.
  apply reading_ret. by eexists.
Qed.

(** The type that getNodeForOperation() requires. *)
Definition expects (type : ExpectedNodeType) (n : FSNode) : Prop :=
  match type with
  | ExpectAny => True
  | ExpectDirectory => is_dir n = true
  | ExpectNotDirectory => is_dir n = false
  | ExpectFile => is_file n = true
  | ExpectFileOrDirectory => is_file n || is_dir n = true
  end.

Lemma reading_expected type n : reading (expected type n) s (fun _ => expects type n).
Proof.
  destruct type; simpl; [by apply reading_ret|..]; (eapply reading_weaken; [apply reading_require|]); intros x; simpl; try done.
  by intros ?%negb_true_iff.
Qed.

(** The assertion on the mode holds, so that a check of permissions returns. *)
Lemma access_runs cx x n modeMask : md_nodes s !! x = Some n -> exists b, NodeAcl.access cx n modeMask (md_acls s) = Some b.
Proof.
  intros En. destruct (mo_acls _ _ Hok) as [m Hm]. unfold NodeAcl.access. destruct (_ || _); [by eexists|].
  rewrite (tree_ids goals _ (mo_tree _ _ Hok) x n En). rewrite (get_rep _ _ (con_rep _ _ Hm)). cbn [mbind option_bind].
  destruct (m !! x) as [acl|] eqn:E; [|by eexists]. destruct (con_agrees _ _ Hm x acl E) as (n' & En' & Ha). simpl in En'.
  assert (n' = n) as -> by congruence. rewrite Ha. by eexists.
Qed.

Lemma reading_access cx x n modeMask : md_nodes s !! x = Some n -> reading (check_access cx x modeMask) s (fun _ => True).
Proof.
  intros En. unfold check_access. destruct (checks_permissions cx) as [[ses u]|]; [|by apply reading_ret].
  destruct (access_runs (MkContext (sesflags ses) (user_uid u) (user_gids u)) x n modeMask En) as [b Eb].
  eapply reading_bind; [apply (reading_reads _ _ b); by rewrite En|]. intros b' ->. eapply reading_weaken; [apply reading_require|done].
Qed.

(** Directories are case sensitive, and a session that is, too, leaves them so. *)
Lemma upd_dir_id (f : Directory -> Directory) x :
  (forall d, caseInsensitive d = false -> f d = d) -> upd x (upd_dir f) (md_nodes s) = md_nodes s.
Proof.
  intros Hf. apply alter_id. intros n En. unfold upd_dir. destruct (node_data n) as [|d| | |] eqn:Ed; try done.
  rewrite Hf; [by destruct n; simpl in *; subst|]. eapply (do_sensitive goals no_debt (md_nodes s) x).
  eapply (no_dir _ _ _ _ _ (to_nodes _ _ _ _ (mo_tree _ _ Hok) x n En)). unfold directory_of. by rewrite Ed.
Qed.

Lemma set_nodes_id : set_nodes s (md_nodes s) = s.
Proof. by destruct s. Qed.

Lemma adapt_case_id x : adapt_case false x s = s.
Proof. unfold adapt_case. rewrite upd_dir_id; [apply set_nodes_id|]. intros d ->. done. Qed.

Lemma set_case_id x : set_case x false s = s.
Proof. unfold set_case. rewrite upd_dir_id; [apply set_nodes_id|]. intros d Hd. unfold set_sensitivity. destruct d. simpl in *. by subst. Qed.

Lemma reading_getNode cx type modeMask inode :
  isCaseInsensitive cx = false ->
  reading (getNodeForOperation cx type modeMask inode) s
    (fun x => candidate cx inode s = Some (inr x, s, []) /\ exists n, md_nodes s !! x = Some n /\ expects type n).
Proof.
  intros Hcase. unfold getNodeForOperation. eapply reading_bind; [apply reading_result, reading_candidate|]. intros x [Hx [n En]].
  eapply reading_bind; [by apply reading_node|]. intros n' ->. eapply reading_bind; [apply reading_expected|]. intros ? Hfit. simpl in Hfit.
  eapply reading_bind; [by eapply reading_access|]. intros _ _. apply (reading_bind _ _ _ (fun _ => True)); [|intros _ _; apply reading_ret; eauto].
  destruct (session cx); [|by apply reading_ret]. destruct (is_dir n); [|by apply reading_ret].
  exists (inr tt). unfold effect. rewrite Hcase, adapt_case_id. done.
Qed.

(** A directory that getNodeForOperation() found. *)
Lemma is_dir_directory x n : md_nodes s !! x = Some n -> is_dir n = true -> is_Some (directory_of n).
Proof.
  intros En Hd. pose proof (tree_typed goals _ _ _ (mo_tree _ _ Hok) En) as Hty. apply well_typed_dir in Hty. rewrite Hd in Hty.
  symmetry in Hty. by apply bool_decide_eq_true in Hty.
Qed.

Lemma reading_look dir name : reading (look dir name) s (fun r => r = FsTree.lookup (md_nodes s) dir name).
Proof. by apply reading_reads. Qed.

Lemma reading_free dir name : reading (free_name dir name) s (fun _ => isNameUsed (md_nodes s) dir name = false).
Proof.
  eapply reading_bind; [by apply reading_reads|]. intros u ->. eapply reading_weaken; [apply reading_require|]. intros x. by intros ?%negb_true_iff.
Qed.

Lemma dir_sensitive x n d : md_nodes s !! x = Some n -> directory_of n = Some d -> caseInsensitive d = false.
Proof. intros En Ed. exact (do_sensitive _ _ _ _ _ (no_dir _ _ _ _ _ (to_nodes _ _ _ _ (mo_tree _ _ Hok) x n En) d Ed)). Qed.

Lemma reading_base_name dir n name :
  md_nodes s !! dir = Some n -> is_dir n = true -> reading (base_name dir name) s (fun r => r = name).
Proof.
  intros En Hd. destruct (is_dir_directory _ _ En Hd) as [d Ed]. eapply reading_bind; [by apply reading_node|]. intros n' ->.
  eapply reading_bind; [by apply reading_reads|]. intros d' ->. rewrite (dir_sensitive _ _ _ En Ed). by apply reading_ret.
Qed.

(** ** Quotas *)

(** Every chain of directories ends at the root. *)
Lemma chain_last p l : chain (md_nodes s) p l -> list.last l = Some root.
Proof.
  induction 1 as [p E|p q name l E H IH].
  - simpl. f_equal. unfold dir_parents in E. destruct (md_nodes s !! p) as [n|] eqn:En; [|done]. simpl in E.
    destruct (directory_of n) as [d|] eqn:Ed; [|done]. injection E as Hp. destruct (decide (p = root)) as [|Hr]; [done|]. exfalso.
    pose proof (mo_status _ _ Hok p n En) as [S1 _ _]. apply (S1 Hr) in Hp.
    pose proof (tree_typed goals _ _ _ (mo_tree _ _ Hok) En) as Hty. pose proof (where_is_file n Hp) as Hf.
    by rewrite (file_not_dir n Hty Hf) in Ed.
  - destruct (chain_head _ _ _ H) as [l' ->]. exact IH.
Qed.

Lemma reading_quota uid gid dir n resources :
  md_nodes s !! dir = Some n -> is_dir n = true -> reading (checkQuotaUgDir uid gid dir resources) s (fun _ => True).
Proof.
  intros En Hd. destruct (tree_chain _ _ _ _ _ _ (mo_tree _ _ Hok) En (is_dir_directory _ _ En Hd)) as [l Hl].
  unfold checkQuotaUgDir. eapply reading_bind; [by apply reading_reads|]. intros e ->. eapply reading_bind; [apply reading_require|]. intros _ _.
  eapply reading_bind; [|intros; eapply reading_weaken; [apply reading_require|done]]. apply reading_reads.
  unfold quota_exceeded_dir. rewrite En. cbn [mbind option_bind]. rewrite Hd. apply (exceeded_up_chain _ _ _ _ _ _ l []); try done.
  - by rewrite app_nil_r.
  - apply chain_length in Hl. unfold stats_fuel. lia.
  - destruct (chain_head _ _ _ Hl) as [? ->]. done.
Qed.

Lemma reading_move_quota dst src source replaced dn sn :
  md_nodes s !! dst = Some dn -> is_dir dn = true -> md_nodes s !! src = Some sn -> is_dir sn = true ->
  reading (move_quota goals dst src source replaced) s (fun _ => True).
Proof.
  intros Ed Hd Es Hs. destruct (tree_chain _ _ _ _ _ _ (mo_tree _ _ Hok) Ed (is_dir_directory _ _ Ed Hd)) as [ld Hld].
  destruct (tree_chain _ _ _ _ _ _ (mo_tree _ _ Hok) Es (is_dir_directory _ _ Es Hs)) as [ls Hls].
  unfold move_quota. destruct (moved_in goals source) as [i1 s1].
  destruct (match replaced with Some n => moved_in goals n | None => (0, 0) end) as [i2 s2].
  eapply reading_bind; [|intros; eapply reading_weaken; [apply reading_require|done]]. apply reading_reads.
  by eapply exceeded_move_chain; [exact Hls|exact Hld|eapply chain_last|eapply chain_last].
Qed.

Lemma reading_sticky cx u parent child pn cn :
  user cx = Some u -> md_nodes s !! parent = Some pn -> md_nodes s !! child = Some cn -> reading (sticky cx parent child) s (fun _ => True).
Proof.
  intros Hu Ep Ec. eapply reading_bind; [by apply reading_node|]. intros n ->. eapply reading_bind; [by apply reading_node|]. intros n ->.
  eapply reading_bind; [apply (reading_reads _ _ (user_uid u)); by rewrite Hu|]. intros v ->. eapply reading_weaken; [apply reading_require|done].
Qed.

End read.
