(* ===== verification/FsReplay.v ===== *)
(** Every operation of the master keeps the invariant, and the changelog that it writes brings a shadow to the same
    state: the lemmas, operation by operation. *)
From S2P Require Import Prelude Serialization RichACL AclMasks AclStorage Nodes FileSize NodeAcl Trash Quota.
From S2P Require Import FsTree FsTreeInv FsTreeNodes FsTreeEdges DirQuota FsMeta FsMetaInv FsCreate FsMetaSteps.
From S2P Require Import FsMetaFields FsOps FsAttrOps FsRestore FsOpsRead.

(** ** The version of the metadata *)

Lemma increase_set_nodes s nodes : set_nodes (increaseMetadataVersion s) nodes = increaseMetadataVersion (set_nodes s nodes).
Proof. done. Qed.

Lemma increase_ok goals s : meta_ok goals s -> meta_ok goals (increaseMetadataVersion s).
Proof. intros [H1 H2 H3 H4 H5]. by split. Qed.

Section versions.
Context (goals : Z -> Goals.Goal).

Lemma removeNode_version timeStamp x s :
  removeNode goals timeStamp x (increaseMetadataVersion s) = increaseMetadataVersion <$> removeNode goals timeStamp x s.
Proof.
  unfold removeNode. change (md_nodes (increaseMetadataVersion s)) with (md_nodes s). destruct (md_nodes s !! x) as [n|]; [|done].
  cbn [mbind option_bind]. destruct (negb _); [done|].
  change (md_acls (count CNodes (-1) (increaseMetadataVersion s))) with (md_acls (count CNodes (-1) s)).
  destruct (erase _ _); [|done]. cbn [mbind option_bind]. destruct (is_dir n), (is_file n), (bool_decide (node_type n = kSymlink)); try done;
    destruct (file_of n) as [[[? ?] ?]|]; done.
Qed.

Lemma unlink_version timeStamp parent name child s :
  unlink goals timeStamp parent name child (increaseMetadataVersion s) = increaseMetadataVersion <$> unlink goals timeStamp parent name child s.
Proof.
  unfold unlink. change (md_nodes (increaseMetadataVersion s)) with (md_nodes s). destruct (md_nodes s !! child) as [cn|]; [|done].
  cbn [mbind option_bind]. destruct (if bool_decide _ && _ then _ else _) as [path|]; [|done]. cbn [mbind option_bind].
  destruct (removeEdge _ _ _ _ _ _ _) as [nodes|]; [|done]. cbn [mbind option_bind]. rewrite increase_set_nodes. set (s1 := set_nodes s nodes).
  change (md_nodes (increaseMetadataVersion s1)) with (md_nodes s1). destruct (md_nodes s1 !! child) as [n|]; [|done]. cbn [mbind option_bind].
  destruct (negb _); [done|]. destruct (bool_decide (node_type n = kFile)); [|apply removeNode_version].
  destruct (file_of n) as [[[len ses] ch]|]; [|done]. cbn [mbind option_bind].
  change (md_detached (increaseMetadataVersion s1)) with (md_detached s1).
  destruct (0 <? node_trashtime n); [by destruct (addTrashEntry _ _ _ _ _)|].
  destruct (negb _); [by destruct (addReservedEntry _ _ _)|apply removeNode_version].
Qed.

Lemma updateCTime_version x ctime s : updateCTime x ctime (increaseMetadataVersion s) = increaseMetadataVersion <$> updateCTime x ctime s.
Proof.
  unfold updateCTime. change (md_nodes (increaseMetadataVersion s)) with (md_nodes s). destruct (md_nodes s !! x) as [n|]; [|done].
  cbn [mbind option_bind]. change (md_detached (increaseMetadataVersion s)) with (md_detached s). destruct (_ && _); [|done].
  by destruct (trash (md_detached s) !! key_of n).
Qed.

Lemma set_mtime_version x mtime s : set_mtime x mtime (increaseMetadataVersion s) = increaseMetadataVersion <$> set_mtime x mtime s.
Proof. unfold set_mtime. change (md_nodes (increaseMetadataVersion s)) with (md_nodes s). by destruct (md_nodes s !! x). Qed.

End versions.

(** ** New nodes *)

Lemma is_mode_sgid m : is_mode m -> is_mode (Z.lor m S_ISGID).
Proof.
  unfold is_mode, u16, wrap. intros H. change (2 ^ 16) with 65536 in *. apply Z.mod_small.
  assert (0 <= m < 65536) as [H0 H1] by (rewrite <-H; apply Z.mod_pos_bound; lia). split; [by apply Z.lor_nonneg|].
  change 65536 with (2 ^ 16). destruct (decide (m = 0)) as [->|]; [done|]. apply Z.log2_lt_pow2.
  - assert (0 <= Z.lor m S_ISGID) by (by apply Z.lor_nonneg). assert (Z.lor m S_ISGID <> 0); [|lia]. intros E. apply Z.lor_eq_0_iff in E as [? ?]. done.
  - rewrite Z.log2_lor by done. apply Z.max_lub_lt; [|done]. apply Z.log2_lt_pow2; lia.
Qed.

Section create_again.
Context (goals : Z -> Goals.Goal).
Context (s : Metadata) (Hok : meta_ok goals s) (parent inode : Z) (name : name_t) (type : FSNodeType) (pn : FSNode).
Context (Hp : md_nodes s !! parent = Some pn) (Hd : is_Some (directory_of pn)).
Context (Hfree : isNameUsed (md_nodes s) parent name = false) (Hnew : md_nodes s !! inode = None) (Huint : is_uint 32 inode).
Context (Htype : creatable type = true).

(** The node that a shadow makes from the mode that the master recorded. *)
Lemma owned_again n n0 acl mode umask uid gid copysgid st st1 :
  inherit_permissions pn n acl mode umask st = Some (n0, st1) ->
  let n' := owned pn uid gid copysgid n0 in
  inherit_permissions pn n acl (Z.land (node_mode n') kPermissionsMask) 0 st = Some (set_mode n (node_mode n'), st1) /\
  owned pn uid gid false (set_mode n (node_mode n')) = n'.
Proof.
  intros Ei n'. destruct (inherit_cuts _ _ _ _ _ _ _ _ Ei) as (G & E0 & Em). assert (is_mode (node_mode n0)) as Hm by (rewrite Em; apply is_mode_u16).
  assert (node_mode n' = node_mode n0 \/ node_mode n' = Z.lor (node_mode n0) S_ISGID) as Hn'.
  { unfold n', owned. destruct (has _ _); [|by left]. destruct (copysgid && _); [|by left]. right. simpl. by apply is_mode_sgid. }
  assert (is_mode (node_mode n')) as Hm' by (destruct Hn' as [-> | ->]; [done|by apply is_mode_sgid]).
  split.
  - eapply inherit_again; [done|done|]. intros i Hi Hne. destruct Hn' as [-> | ->]; [done|]. rewrite Z.lor_spec.
    change S_ISGID with (2 ^ 10). rewrite Z.pow2_bits_false by lia. apply orb_false_r.
  - unfold is_mode in Hm'. unfold n' at 2. revert Hm'. unfold n', owned. rewrite E0. destruct (has (node_mode pn) S_ISGID); simpl.
    + destruct (copysgid && _); simpl; intros Hm'; unfold with_owner, set_mode; simpl in *; f_equal; try done; by rewrite Hm'.
    + intros Hm'. unfold with_owner, set_mode; simpl in *; f_equal; try done; by rewrite Hm'.
Qed.

Lemma createNode_again timeStamp mode umask uid gid copysgid inheritAcl :
  inheritAcl = true \/ AclStorage.get (md_acls s) parent = Some None ->
  exists s' n, createNode goals timeStamp parent name type mode umask uid gid copysgid inheritAcl inode s = Some s' /\ meta_ok goals s' /\
    md_nodes s' !! inode = Some n /\ (type <> kDirectory -> create_data type = Some (node_data n)) /\ node_type n = type /\
    node_parents n = [(parent, name)] /\
    (forall p nm c, edge (md_nodes s') p nm c <-> edge (md_nodes s) p nm c \/ (p, nm, c) = (parent, name, inode)) /\
    (forall y, y <> inode -> survives (md_nodes s) (md_nodes s') y /\ (md_nodes s !! y = None -> md_nodes s' !! y = None)) /\
    createNode goals timeStamp parent name type (Z.land (node_mode n) kPermissionsMask) 0 uid gid false true inode s = Some s'.
Proof.
  intros Hinh. destruct (createNode_ok goals s Hok parent inode name type pn Hp Hd Hfree Hnew Huint Htype timeStamp mode umask uid gid copysgid inheritAcl)
    as (s' & n & E & Hs' & Hnb & (L1 & L2 & L3) & Hsim & data & acl & n0 & acls & Ed & Ea & Ei & En).
  destruct (L3 n) as (n' & dirf & En' & Hch); [by rewrite lookup_insert_eq|]. exists s', n'. split; [done|]. split; [done|]. split; [done|].
  assert (loose inode n) as Hl by (eapply newborn_loose; eassumption). destruct Hnb as [N1 N2 N3 N4].
  split; [|split; [|split; [|split; [|split]]]].
  - intros Hnd. rewrite (ch_data _ _ _ _ Hch), N3. f_equal. destruct (node_data n) as [|d| | |] eqn:En0; try done.
    exfalso. destruct type; simpl in N3; congruence.
  - by rewrite (ch_type _ _ _ _ Hch).
  - by rewrite (ch_parents _ _ _ _ Hch), N4.
  - intros p nm c. by rewrite L1, (insert_edges _ _ n) by (done || apply Hl).
  - intros y Hy. split; [intros m Em; apply L2; [done|]; by rewrite lookup_insert_ne|]. intros Ey. destruct Hsim as (par & f & R).
    destruct (md_nodes s' !! y) as [m|] eqn:Em; [|done]. destruct (related_back _ _ _ _ _ _ R Em) as (m0 & Em0 & _).
    rewrite lookup_insert_ne in Em0 by done. congruence.
  - assert (AclStorage.get (md_acls s) parent = Some acl) as Eg.
    { destruct inheritAcl; [done|]. destruct Hinh as [|Hg]; [done|]. rewrite Hg. by injection Ea as <-. }
    destruct (owned_again _ _ _ _ _ uid gid copysgid _ _ Ei) as [Ei' Eo]. rewrite <-En in Ei', Eo. rewrite (ch_mode _ _ _ _ Hch).
    unfold createNode in E |- *. destruct (bool_decide (type = kTrash)); [done|]. rewrite Ed in E |- *. cbn [mbind option_bind] in E |- *.
    assert (md_nodes (incrementNodeCounters type s) = md_nodes s /\ md_acls (incrementNodeCounters type s) = md_acls s) as [Hi1 Hi2]
      by (destruct type; done). rewrite Hi1, Hi2 in E |- *.
    rewrite Hp in E |- *. cbn [mbind option_bind] in E |- *. rewrite Eg. rewrite Ea in E. cbn [mbind option_bind] in E |- *. rewrite Ei'. rewrite Ei in E. cbn [mbind option_bind] in E |- *.
    rewrite <-En in E. by rewrite Eo.
Qed.

End create_again.
