(* ===== verification/FsServe.v ===== *)
(** What each operation of the master does: it ends with an error and changes nothing, or it keeps the invariant and
    writes entries of the changelog that bring a shadow to the same state. *)
From S2P Require Import Prelude Serialization RichACL AclMasks AclStorage Nodes FileSize NodeAcl Trash Quota.
From S2P Require Import FsTree FsTreeInv FsTreeNodes FsTreeEdges DirQuota FsMeta FsMetaInv FsCreate FsMetaSteps.
From S2P Require Import FsMetaFields FsOps FsAttrOps FsRestore FsOpsRead FsReplay.

(** ** Running operations *)

Lemma op_bind_run {A B} (m : Op A) (f : A -> Op B) s :
  (m ≫= f) s = match m s with
               | None => None
               | Some (inl e, s, log) => Some (inl e, s, log)
               | Some (inr x, s, log) => match f x s with None => None | Some (r, s, log') => Some (r, s, log ++ log') end
               end.
Proof. done. Qed.

Lemma op_ret_run {A} (x : A) s : (mret x : Op A) s = Some (inr x, s, []).
Proof. done. Qed.

Lemma reads_run {A} (f : Metadata -> option A) s : reads f s = match f s with Some x => Some (inr x, s, []) | None => None end.
Proof. done. Qed.

Lemma effect_run f s : effect f s = match f s with Some s => Some (inr tt, s, []) | None => None end.
Proof. done. Qed.

Lemma modify_run {A} (f : Metadata -> option (A * Metadata)) s :
  modify f s = match f s with Some (x, s) => Some (inr x, s, []) | None => None end.
Proof. done. Qed.

Lemma require_run b e s : require b e s = Some (if b then inr tt else inl e, s, []).
Proof. by destruct b. Qed.

Lemma throw_run {A} e s : throw (A := A) e s = Some (inl e, s, []).
Proof. done. Qed.

Ltac run := repeat progress (rewrite ?op_bind_run, ?op_ret_run, ?reads_run, ?effect_run, ?modify_run, ?require_run, ?throw_run; cbn [app negb andb mbind option_bind]).

Section served.
Context (goals : Z -> Goals.Goal).
Notation meta_ok := (meta_ok goals).

(** An operation that was served: [s'] and the entries follow, a shadow gets to [s']. *)
Definition done_with {A} (m : Op A) (s : Metadata) (r : A) (s' : Metadata) (log : list (Z * LogEntry)) : Prop :=
  m s = Some (inr r, s', log) /\ meta_ok s' /\ replay_log goals log s = Some s'.

Definition ends {A} (m : Op A) (s : Metadata) (Q : A -> Metadata -> Prop) : Prop :=
  (exists e, m s = Some (inl e, s, [])) \/ (exists r s' log, done_with m s r s' log /\ Q r s').

Definition served {A} (m : Op A) (s : Metadata) : Prop := ends m s (fun _ _ => True).

Lemma ends_read {A B} (m : Op A) (f : A -> Op B) s P Q :
  reading m s P -> (forall x, P x -> ends (f x) s Q) -> ends (m ≫= f) s Q.
Proof.
  intros ([e|x] & E & H) Hf.
  - left. exists e. by apply bind_error.
  - destruct (Hf x H) as [[e He]|(r & s' & log & [H1 H2] & HQ)].
    + left. exists e. by rewrite (bind_pure _ _ _ _ E).
    + right. exists r, s', log. split; [|done]. split; [|done]. by rewrite (bind_pure _ _ _ _ E).
Qed.

Lemma served_read {A B} (m : Op A) (f : A -> Op B) s P :
  reading m s P -> (forall x, P x -> served (f x) s) -> served (m ≫= f) s.
Proof. apply ends_read. Qed.

Lemma ends_throw {A} e s (Q : A -> Metadata -> Prop) : ends (throw e) s Q.
Proof. left. by exists e. Qed.

Lemma ends_served {A} (m : Op A) s Q : ends m s Q -> served m s.
Proof. intros [H|(r & s' & log & H & _)]; [by left|]. right. by exists r, s', log. Qed.

Lemma ends_one {A} (m : Op A) s (Q : A -> Metadata -> Prop) r s' t e :
  m s = Some (inr r, s', [(t, e)]) -> meta_ok s' -> restore_line goals t e s = Some (inr tt, s', []) -> Q r s' -> ends m s Q.
Proof. intros E Hok H HQ. right. exists r, s', [(t, e)]. split; [|done]. split; [done|]. split; [done|]. simpl. by rewrite H. Qed.

Lemma served_throw {A} e s : served (throw (A := A) e) s.
Proof. apply ends_throw. Qed.

Lemma replay_app log log' s s1 : replay_log goals log s = Some s1 -> replay_log goals (log ++ log') s = replay_log goals log' s1.
Proof.
  revert s. induction log as [|[t e] log IH]; intros s H; simpl in *; [by injection H as ->|].
  destruct (restore_line goals t e s) as [[[[|] s2] l2]|]; try done. by apply IH.
Qed.

(** One entry of the changelog. *)
Lemma served_one {A} (m : Op A) s r s' t e :
  m s = Some (inr r, s', [(t, e)]) -> meta_ok s' -> restore_line goals t e s = Some (inr tt, s', []) -> served m s.
Proof. intros E Hok H. by eapply ends_one. Qed.

Lemma served_none {A} (m : Op A) s r : m s = Some (inr r, s, []) -> meta_ok s -> served m s.
Proof. intros E Hok. right. by exists r, s, []. Qed.

End served.

(** A request reads its session, a node, a condition. *)
Ltac read_session := eapply ends_read; [apply reading_session|]; intros _ _.
Ltac read_require H := eapply ends_read; [apply reading_require|]; intros ? H; simpl in H.
Ltac read_node x n Hx En Hf :=
  eapply ends_read; [eapply reading_getNode; [eassumption|done]|]; intros x (Hx & n & En & Hf); simpl in Hf.
Ltac read_at En := eapply ends_read; [by apply (reading_node _ _ _ En)|]; intros ? ->.

Section serve.
Context (goals : Z -> Goals.Goal).
Notation root := SPECIAL_INODE_ROOT.
Notation meta_ok := (meta_ok goals).
Notation served := (served goals).

(** The context of a request of a client. *)
Record serving (cx : Context) (u : User) (g : Z) : Prop := MkServing {
  sv_master : isPersonalityMaster cx = true;
  sv_sensitive : isCaseInsensitive cx = false;
  sv_user : user cx = Some u;
  sv_group : head (user_gids u) = Some g;
}.

Lemma changeLog_master cx e s :
  isPersonalityMaster cx = true -> changeLog cx e s = Some (inr tt, increaseMetadataVersion s, [(ts cx, e)]).
Proof. intros H. unfold changeLog. by rewrite H. Qed.

Lemma changeLog_restore cx e s : isPersonalityMaster cx = false -> changeLog cx e s = Some (inr tt, increaseMetadataVersion s, []).
Proof. intros H. unfold changeLog. by rewrite H. Qed.

(** A shadow finds every node that it is told. *)
Lemma getNode_restore cx type modeMask x n s :
  session cx = None -> isPersonalityMaster cx = false -> md_nodes s !! x = Some n -> expects type n ->
  getNodeForOperation cx type modeMask x s = Some (inr x, s, []).
Proof.
  intros H1 H2 En Hf. unfold getNodeForOperation, candidate, check_access, checks_permissions, node. rewrite H1, H2. run. rewrite En. run.
  rewrite En. run. assert (expected type n s = Some (inr tt, s, [])) as ->; [|done].
  destruct type; simpl in *; by rewrite ?Hf.
Qed.

Lemma free_name_run dir name s : isNameUsed (md_nodes s) dir name = false -> free_name dir name s = Some (inr tt, s, []).
Proof. intros H. unfold free_name. run. by rewrite H. Qed.

Lemma node_run x n s : md_nodes s !! x = Some n -> node x s = Some (inr n, s, []).
Proof. intros H. unfold node, reads. by rewrite H. Qed.

Lemma directory_is_dir s x n : meta_ok s -> md_nodes s !! x = Some n -> is_Some (directory_of n) -> is_dir n = true.
Proof. intros Hok En Hd. rewrite (well_typed_dir n) by (eapply (tree_typed goals); [apply Hok|done]). by apply bool_decide_eq_true. Qed.

(** ** New nodes *)

Section create.
Context (s : Metadata) (Hok : meta_ok s) (parent inode : Z) (name : name_t) (type : FSNodeType) (pn : FSNode).
Context (Hp : md_nodes s !! parent = Some pn) (Hd : is_dir pn = true).
Context (Hfree : isNameUsed (md_nodes s) parent name = false) (Hnew : md_nodes s !! inode = None) (Huint : is_uint 32 inode).
Context (Htype : is_special type || bool_decide (type = kDirectory) = true).

Lemma special_creatable : creatable type = true.
Proof. by destruct type. Qed.

Lemma create_logged timeStamp mode umask uid gid copysgid inheritAcl rdev :
  inheritAcl = true \/ AclStorage.get (md_acls s) parent = Some None ->
  exists s1 s' n, createNode goals timeStamp parent name type mode umask uid gid copysgid inheritAcl inode s = Some s1 /\
    set_rdev inode type rdev s1 = Some s' /\ meta_ok s' /\ md_nodes s' !! inode = Some n /\ node_type n = type /\
    (forall p nm c, edge (md_nodes s') p nm c <-> edge (md_nodes s) p nm c \/ (p, nm, c) = (parent, name, inode)) /\
    (forall y, y <> inode -> survives (md_nodes s) (md_nodes s') y /\ (md_nodes s !! y = None -> md_nodes s' !! y = None)) /\
    applyCreate goals timeStamp parent name type (Z.land (node_mode n) kPermissionsMask) uid gid rdev inode s
      = Some (inr tt, increaseMetadataVersion s', []).
Proof.
  intros Hinh. destruct (createNode_again goals s Hok parent inode name type pn Hp (is_dir_directory _ _ Hok _ _ Hp Hd) Hfree Hnew Huint
    special_creatable timeStamp mode umask uid gid copysgid inheritAcl Hinh) as (s1 & n & E & Hs1 & En & Hdata & Ht & Hps & He & Hsv & Eagain).
  assert (exists s' n', set_rdev inode type rdev s1 = Some s' /\ meta_ok s' /\ md_nodes s' !! inode = Some n' /\ node_type n' = type /\
    node_mode n' = node_mode n /\ (forall p nm c, edge (md_nodes s') p nm c <-> edge (md_nodes s1) p nm c) /\
    (forall y, y <> inode -> md_nodes s' !! y = md_nodes s1 !! y)) as (s' & n' & Er & Hs' & En' & Ht' & Hm' & He' & Ho').
  { assert (forall r, node_data n = DeviceData r -> exists s' n', (n0 ← md_nodes s1 !! inode;
        match node_data n0 with DeviceData _ => Some (put_node inode (with_data n0 (DeviceData rdev)) s1) | _ => None end) = Some s' /\
        meta_ok s' /\ md_nodes s' !! inode = Some n' /\ node_type n' = type /\ node_mode n' = node_mode n /\
        (forall p nm c, edge (md_nodes s') p nm c <-> edge (md_nodes s1) p nm c) /\ (forall y, y <> inode -> md_nodes s' !! y = md_nodes s1 !! y)) as Hdev.
    { intros r Hr. rewrite En. cbn [mbind option_bind]. rewrite Hr. eexists _, _. split; [done|]. split; [by eapply rdev_ok|].
      unfold put_node, set_nodes. simpl. split; [apply lookup_insert_eq|]. split; [done|]. split; [done|]. split.
      - intros p nm c. apply (put_edges _ _ n); [done|]. unfold directory_of. by rewrite Hr.
      - intros y Hy. by apply lookup_insert_ne. }
    destruct type; try (by exists s1, n); (eapply Hdev; specialize (Hdata ltac:(done)); simpl in Hdata; by injection Hdata as <-). }
  exists s1, s', n'. do 5 (split; [done|]). split; [intros p nm c; by rewrite He', He|]. split.
  { intros y Hy. destruct (Hsv y Hy) as [S1 S2]. split; [intros m Em|]; rewrite Ho' by done; auto. }
  unfold applyCreate. rewrite Htype, Hm'. run. rewrite Hp. run. rewrite Hd. run. rewrite free_name_run by done. run. rewrite Eagain. run. by rewrite Er.
Qed.

End create.

Lemma mknod_served cx u g parent name type mode umask rdev inode s :
  serving cx u g -> meta_ok s -> md_nodes s !! inode = None -> is_uint 32 inode -> served (mknod goals cx parent name type mode umask rdev inode) s.
Proof.
  intros [C1 C2 C3 C4] Hok Hnew Huint. unfold mknod. eapply served_read; [apply reading_session|]. intros _ _.
  eapply served_read; [apply reading_require|]. intros ? Hty. simpl in Hty. eapply served_read; [by apply (reading_getNode goals)|].
  intros dir (_ & pn & Hp & Hd). simpl in Hd. eapply served_read; [apply reading_require|]. intros _ _.
  eapply served_read; [apply reading_free|]. intros ? Hfree. simpl in Hfree.
  eapply served_read; [apply (reading_reads _ _ (user_uid u)); by rewrite C3|]. intros uid ->.
  eapply served_read; [apply (reading_reads _ _ g); by rewrite C3|]. intros gid ->.
  eapply served_read; [by eapply (reading_quota goals)|]. intros _ _.
  destruct (create_logged s Hok dir inode name type pn Hp Hd Hfree Hnew Huint ltac:(by rewrite Hty) (ts cx) mode umask (user_uid u) g false true rdev)
    as (s1 & s' & n & E1 & E2 & Hs' & En & _ & _ & _ & Ea); [by left|]. pose proof (Ea : restore_line goals _ (CREATE _ _ _ _ _ _ _ _) _ = _) as Ea'.
  eapply served_one; [|by apply increase_ok|exact Ea']. rewrite C2. run. rewrite (set_case_id goals) by done. rewrite E1. run. rewrite E2. run.
  unfold log_create. run. rewrite (node_run _ _ _ En). run. by rewrite changeLog_master.
Qed.

Lemma mkdir_served cx u g depleted parent name mode umask copysgid inode s :
  serving cx u g -> meta_ok s -> md_nodes s !! inode = None -> is_uint 32 inode ->
  served (mkdir goals cx depleted parent name mode umask copysgid inode) s.
Proof.
  intros [C1 C2 C3 C4] Hok Hnew Huint. unfold mkdir. eapply served_read; [apply reading_session|]. intros _ _.
  eapply served_read; [by apply (reading_getNode goals)|].
  intros dir (_ & pn & Hp & Hd). simpl in Hd. eapply served_read; [apply reading_require|]. intros _ _.
  eapply served_read; [apply reading_free|]. intros ? Hfree. simpl in Hfree.
  eapply served_read; [apply (reading_reads _ _ (user_uid u)); by rewrite C3|]. intros uid ->.
  eapply served_read; [apply (reading_reads _ _ g); by rewrite C3|]. intros gid ->.
  eapply served_read; [by eapply (reading_quota goals)|]. intros _ _. eapply served_read; [apply reading_require|]. intros _ _.
  destruct (create_logged s Hok dir inode name kDirectory pn Hp Hd Hfree Hnew Huint eq_refl (ts cx) mode umask (user_uid u) g copysgid true 0)
    as (s1 & s' & n & E1 & [= <-] & Hs' & En & _ & _ & _ & Ea); [by left|]. pose proof (Ea : restore_line goals _ (CREATE _ _ _ _ _ _ _ _) _ = _) as Ea'.
  eapply served_one; [|by apply increase_ok|exact Ea']. rewrite C2. run. rewrite (set_case_id goals) by done. rewrite E1. run.
  unfold log_create. run. rewrite (node_run _ _ _ En). run. by rewrite changeLog_master.
Qed.

(** ** Removed names *)

Lemma look_edge s dir name child :
  meta_ok s -> FsTree.lookup (md_nodes s) dir name = Some child ->
  edge (md_nodes s) dir name child /\ exists cn, md_nodes s !! child = Some cn.
Proof.
  intros Hok H. pose proof (mo_tree _ _ Hok) as Ht. assert (edge (md_nodes s) dir name child) as He by (by apply (lookup_edge goals root no_debt)).
  split; [done|]. by apply (edge_child goals root no_debt _ dir name child Ht).
Qed.

Lemma empty_entries cn : is_empty_dir cn = true -> forall d, directory_of cn = Some d -> entries d = [].
Proof. unfold is_empty_dir. intros H d Ed. rewrite Ed in H. by apply bool_decide_eq_true in H. Qed.

Lemma removable s x n : meta_ok s -> md_nodes s !! x = Some n -> (is_dir n = true -> is_empty_dir n = true) -> is_empty_dir n = true.
Proof.
  intros Hok En Hempty. destruct (is_dir n) eqn:Edir; [by apply Hempty|]. unfold is_empty_dir. destruct (directory_of n) as [d|] eqn:Ed; [|done].
  by rewrite (directory_is_dir s x n) in Edir.
Qed.

(** unlink() and its entry. *)
Lemma unlink_logged s parent child name pn cn timeStamp :
  meta_ok s -> md_nodes s !! parent = Some pn -> is_dir pn = true -> FsTree.lookup (md_nodes s) parent name = Some child ->
  md_nodes s !! child = Some cn -> (is_dir cn = true -> is_empty_dir cn = true) ->
  counter (md_detached s) < kMaxIdForTrashOrReservedName ->
  exists s', unlink goals timeStamp parent name child s = Some s' /\ meta_ok s' /\
    restore_line goals timeStamp (UNLINK parent name child) s = Some (inr tt, increaseMetadataVersion s', []).
Proof.
  intros Hok Ep Hd El Ec Hempty Hmax. destruct (look_edge _ _ _ _ Hok El) as [He _].
  assert (is_empty_dir cn = true) as Hem by (by apply (removable s child)).
  destruct (unlink_ok goals s Hok parent child name cn He Ec (empty_entries _ Hem) Hmax timeStamp) as (s' & E & Hs' & _).
  exists s'. split; [done|]. split; [done|]. cbn [restore_line]. unfold applyUnlink. run. rewrite Ep. run. rewrite Hd. run. unfold look. run.
  rewrite El. run. rewrite (node_run _ _ _ Ec). run. rewrite (tree_ids goals _ (mo_tree _ _ Hok) _ _ Ec), Z.eqb_refl. run.
  rewrite Hem, andb_false_r. run. rewrite E. done.
Qed.

Lemma unlink_served cx u g parent name s :
  serving cx u g -> meta_ok s -> counter (md_detached s) < kMaxIdForTrashOrReservedName -> served (unlink_op goals cx parent name) s.
Proof.
  intros [C1 C2 C3 C4] Hok Hmax. unfold unlink_op. read_session. read_node dir pn Hx Ep Hd.
  eapply served_read; [by eapply (reading_base_name goals)|]. intros ? ->. read_require Hname.
  eapply served_read; [apply reading_look|]. intros found ->. destruct (FsTree.lookup _ _ _) as [child|] eqn:El; [|apply served_throw].
  destruct (look_edge _ _ _ _ Hok El) as [He [cn Ec]]. eapply served_read; [by eapply reading_sticky|]. intros _ _. read_at Ec.
  read_require Hnd. apply negb_true_iff in Hnd.
  destruct (unlink_logged s dir child name pn cn (ts cx) Hok Ep Hd El Ec) as (s' & E & Hs' & Ea); [by rewrite Hnd|done|].
  eapply served_one; [|by apply increase_ok|exact Ea]. run. rewrite changeLog_master by done. run. by rewrite unlink_version, E.
Qed.

Lemma rmdir_served cx u g parent name s :
  serving cx u g -> meta_ok s -> counter (md_detached s) < kMaxIdForTrashOrReservedName -> served (rmdir goals cx parent name) s.
Proof.
  intros [C1 C2 C3 C4] Hok Hmax. unfold rmdir. read_session. read_node dir pn Hx Ep Hd. read_require Hname.
  eapply served_read; [apply reading_look|]. intros found ->. destruct (FsTree.lookup _ _ _) as [child|] eqn:El; [|apply served_throw].
  destruct (look_edge _ _ _ _ Hok El) as [He [cn Ec]]. eapply served_read; [by eapply reading_sticky|]. intros _ _. read_at Ec.
  read_require Hnd. read_require Hem.
  destruct (unlink_logged s dir child name pn cn (ts cx) Hok Ep Hd El Ec) as (s' & E & Hs' & Ea); [done|done|].
  eapply served_one; [|by apply increase_ok|exact Ea]. run. rewrite changeLog_master by done. run. by rewrite unlink_version, E.
Qed.

(** ** Symbolic links *)

Lemma symlink_runs s dir name path pn uid gid inode timeStamp :
  meta_ok s -> md_nodes s !! dir = Some pn -> is_dir pn = true -> isNameUsed (md_nodes s) dir name = false ->
  md_nodes s !! inode = None -> is_uint 32 inode -> Z.of_nat (length path) < 65536 ->
  exists s1 s2 nodes3, createNode goals timeStamp dir name kSymlink kStandardPermissions 0 uid gid false false inode s = Some s1 /\
    set_path inode path s1 = Some s2 /\
    addStats root dir (MkStats 0 0 0 0 0 (Z.of_nat (length path)) 0 0) (md_nodes s2) = Some nodes3 /\ meta_ok (set_nodes s2 nodes3).
Proof.
  intros Hok Ep Hd Hfree Hnew Huint Hlen.
  destruct (createNode_ok goals s Hok dir inode name kSymlink pn Ep (is_dir_directory _ _ Hok _ _ Ep Hd) Hfree Hnew Huint eq_refl timeStamp
    kStandardPermissions 0 uid gid false false) as (s1 & n & E & Hs1 & [N1 N2 N3 N4] & (L1 & L2 & L3) & _).
  destruct (L3 n) as (n' & dirf & En' & Hch); [by rewrite lookup_insert_eq|].
  assert (node_data n' = SymlinkData [] 0) as Hdata by (rewrite (ch_data _ _ _ _ Hch); simpl in N3; by injection N3 as <-).
  destruct (symlink_target_ok goals s1 inode n' dir name path Hs1 En' Hdata) as (nodes3 & E3 & Hok3 & _);
    [by rewrite (ch_parents _ _ _ _ Hch), N4|done|].
  eexists s1, _, nodes3. split; [done|]. unfold set_path. rewrite En'. cbn [mbind option_bind]. rewrite Hdata. split; [done|]. by split.
Qed.

Lemma symlink_served cx u g parent name path inode s :
  serving cx u g -> meta_ok s -> md_nodes s !! inode = None -> is_uint 32 inode -> Z.of_nat (length path) < 65536 ->
  served (symlink goals cx parent name path inode) s.
Proof.
  intros [C1 C2 C3 C4] Hok Hnew Huint Hlen. unfold symlink. read_session. read_node dir pn Hx Ep Hd. read_at Ep.
  destruct (is_dir_directory goals s Hok _ _ Ep Hd) as [d Ed].
  eapply served_read; [by apply reading_reads|]. intros ? ->. pose proof (dir_sensitive goals s Hok _ _ _ Ep Ed) as Hsens. rewrite Hsens.
  eapply served_read; [by apply (reading_ret path _ (eq path))|]. intros ? <-. read_require Hpath. read_require Hname.
  eapply served_read; [apply reading_free|]. intros ? Hfree. simpl in Hfree.
  eapply served_read; [apply (reading_reads _ _ (user_uid u)); by rewrite C3|]. intros uid ->.
  eapply served_read; [apply (reading_reads _ _ g); by rewrite C3|]. intros gid ->.
  rewrite C1. eapply served_read; [by eapply (reading_quota goals)|]. intros _ _.
  destruct (symlink_runs s dir name path pn (user_uid u) g inode (ts cx) Hok Ep Hd Hfree Hnew Huint Hlen) as (s1 & s2 & nodes3 & E1 & E2 & E3 & Hok').
  eapply (served_one goals _ s _ _ (ts cx) (SYMLINK dir name path (user_uid u) g inode)); [|by apply increase_ok; exact Hok'|].
  - run. rewrite E1. run. rewrite E2. run. rewrite E3. run. rewrite changeLog_master by done. by run.
  - cbn [restore_line]. unfold symlink. run. unfold verifySession. cbn [session getForRestoreWithUidGid]. run.
    rewrite (getNode_restore _ _ _ _ pn) by done. run. rewrite (node_run _ _ _ Ep). run. rewrite Ed, Hsens. run. rewrite Hpath, Hname.
    rewrite free_name_run by done. unfold uid_of, gid_of. run. cbn [getForRestoreWithUidGid user isPersonalityMaster ts fmap option_fmap option_map user_uid user_gids head mbind option_bind].
    run. rewrite E1. run. rewrite E2. run. rewrite E3. run. rewrite changeLog_restore by done. by run.
Qed.

(** ** Hard links *)

Lemma link_served cx u g inode_src parent_dst name_dst s :
  serving cx u g -> meta_ok s -> served (link_op goals cx inode_src parent_dst name_dst) s.
Proof.
  intros [C1 C2 C3 C4] Hok. unfold link_op. read_session. read_node dst dn Hx Ed Hd. read_node src xn Hy Es Hs. read_at Es.
  read_require Hdet. read_require Hname. eapply served_read; [apply reading_free|]. intros ? Hfree. simpl in Hfree.
  assert (where_of xn = None) as Hw by (unfold where_of; unfold is_detached in Hdet; destruct (node_type xn); done).
  destruct (link_ok goals s dst src name_dst dn xn (ts cx) Hok Ed (is_dir_directory _ _ Hok _ _ Ed Hd) Es Hs Hw Hfree) as (nodes' & E & Hok' & _).
  eapply (served_one goals _ s _ _ (ts cx) (LINK src dst name_dst)); [|by apply increase_ok; exact Hok'|].
  - run. rewrite E. run. by rewrite changeLog_master.
  - cbn [restore_line]. unfold link_op. run. unfold verifySession. cbn [session getForRestore]. run.
    rewrite (getNode_restore _ _ _ _ dn) by done. run. rewrite (getNode_restore _ _ _ _ xn) by done. run. rewrite (node_run _ _ _ Es). run.
    rewrite Hdet, Hname, free_name_run by done. run. cbn [getForRestore ts]. rewrite E. by run.
Qed.

(** ** Moves *)

Lemma base_name_run s dir name n :
  meta_ok s -> md_nodes s !! dir = Some n -> is_dir n = true -> base_name dir name s = Some (inr name, s, []).
Proof.
  intros Hok En Hd. destruct (is_dir_directory _ _ Hok _ _ En Hd) as [d Ed]. unfold base_name. run. rewrite (node_run _ _ _ En). run.
  rewrite Ed. run. by rewrite (dir_sensitive _ _ Hok _ _ _ En Ed).
Qed.

Section rename.
Context (s : Metadata) (Hok : meta_ok s) (src dst child : Z) (name_src name_dst : name_t) (dn cn : FSNode) (l : list Z).
Context (replaced : option Z).
Context (Hchild : FsTree.lookup (md_nodes s) src name_src = Some child) (Hcn : md_nodes s !! child = Some cn).
Context (Hdn : md_nodes s !! dst = Some dn) (Hdd : is_dir dn = true) (Hl : chain (md_nodes s) dst l) (Hnot : child ∉ l).
Context (Hrep : FsTree.lookup (md_nodes s) dst name_dst = replaced) (Hne : replaced <> Some child).
Context (Hempty : forall y n, replaced = Some y -> md_nodes s !! y = Some n -> is_dir n = true -> is_empty_dir n = true).
Context (Hmax : counter (md_detached s) < kMaxIdForTrashOrReservedName).

(** The state after the destination was removed. *)
Lemma replaced_runs timeStamp :
  exists s1, match replaced with Some y => unlink goals timeStamp dst name_dst y s | None => Some s end = Some s1 /\ meta_ok s1 /\
    (forall p nm c, edge (md_nodes s1) p nm c <-> edge (md_nodes s) p nm c /\ (p, nm) <> (dst, name_dst)) /\
    (forall x, x = child \/ x ∈ l -> survives (md_nodes s) (md_nodes s1) x).
Proof.
  destruct replaced as [y|].
  - destruct (look_edge _ _ _ _ Hok Hrep) as [He [yn Ey]].
    assert (is_empty_dir yn = true) as Hem by (apply (removable s y); try done; exact (Hempty y yn eq_refl Ey)).
    destruct (unlink_ok goals s Hok dst y name_dst yn He Ey (empty_entries _ Hem) Hmax timeStamp) as (s1 & E & Hs1 & U1 & U2).
    exists s1. split; [done|]. split; [done|]. split; [done|]. intros x Hx. apply U2. intros ->. destruct Hx as [->|Hx]; [done|].
    destruct He as (pn & pd & Ep & Ed & Hin). by eapply (chain_not_entry goals root no_debt _ _ _ _ _ _ _ (mo_tree _ _ Hok) Hl Ep Ed Hin).
  - exists s. split; [done|]. split; [done|]. split; [|intros x _ m Em; exists m, id; split; [done|]; destruct m as [? ? ? ? ? ? ? ? ? ? ? [| | | |]]; by split].
    intros p nm c. split; [|tauto]. intros He. split; [done|]. intros [= -> ->]. apply (lookup_edge goals root no_debt) in He; [|apply Hok]. congruence.
Qed.

Lemma rename_runs timeStamp :
  exists s1 nodes2 nodes3, match replaced with Some y => unlink goals timeStamp dst name_dst y s | None => Some s end = Some s1 /\
    removeEdge goals root timeStamp src name_src child (md_nodes s1) = Some nodes2 /\
    FsTree.link goals root timeStamp dst child name_dst nodes2 = Some nodes3 /\ meta_ok (set_nodes s1 nodes3) /\
    forall p nm c, edge nodes3 p nm c <->
      (edge (md_nodes s) p nm c /\ (p, nm) <> (src, name_src) /\ (p, nm) <> (dst, name_dst)) \/ (p, nm, c) = (dst, name_dst, child).
Proof.
  destruct (replaced_runs timeStamp) as (s1 & E1 & Hs1 & He1 & Hsv). destruct (look_edge _ _ _ _ Hok Hchild) as [He _].
  assert (dst ∈ l) as Hdl by (destruct (chain_head _ _ _ Hl) as [? ->]; set_solver).
  destruct (Hsv child (or_introl eq_refl) cn Hcn) as (cn1 & ? & Ecn1 & _).
  destruct (survives_is_dir _ _ dst dn (Hsv dst (or_intror Hdl)) Hdn (is_dir_directory _ _ Hok _ _ Hdn Hdd)) as (dn1 & Edn1 & Hdd1).
  assert ((src, name_src) <> (dst, name_dst)) as Hpos.
  { intros [= E2 E3]. subst src name_src. congruence. }
  destruct (move_ok goals s1 Hs1 src dst child name_src name_dst dn1 cn1 l) with (timeStamp := timeStamp) as (nodes2 & nodes3 & E2 & E3 & Hok3 & He3); try done.
  - by apply He1.
  - intros c Hc. apply He1 in Hc as [_ Hc]. done.
  - eapply survives_chain; [exact goals|exact Hl|]. intros z Hz. apply Hsv. by right.
  - exists s1, nodes2, nodes3. do 4 (split; [done|]). intros p nm c. rewrite He3, He1. tauto.
Qed.

(** The shadow makes the same checks, but for those of permissions. *)
Lemma rename_logged timeStamp srcn rn :
  md_nodes s !! src = Some srcn -> is_dir srcn = true -> nameCheck name_src = true -> nameCheck name_dst = true ->
  match replaced with
  | None => rn = None
  | Some y => exists n, rn = Some n /\ md_nodes s !! y = Some n /\ (is_dir n = true -> is_empty_dir n = true)
  end ->
  move_quota goals dst src cn rn s = Some (inr tt, s, []) ->
  exists s1 nodes2 nodes3, match replaced with Some y => unlink goals timeStamp dst name_dst y s | None => Some s end = Some s1 /\
    removeEdge goals root timeStamp src name_src child (md_nodes s1) = Some nodes2 /\
    FsTree.link goals root timeStamp dst child name_dst nodes2 = Some nodes3 /\ meta_ok (set_nodes s1 nodes3) /\
    (forall p nm c, edge nodes3 p nm c <->
      (edge (md_nodes s) p nm c /\ (p, nm) <> (src, name_src) /\ (p, nm) <> (dst, name_dst)) \/ (p, nm, c) = (dst, name_dst, child)) /\
    restore_line goals timeStamp (MOVE src name_src dst name_dst child) s
      = Some (inr tt, increaseMetadataVersion (set_nodes s1 nodes3), []).
Proof.
  intros Es Hs Hn1 Hn2 Hrn Hq. destruct (rename_runs timeStamp) as (s1 & nodes2 & nodes3 & E1 & E2 & E3 & Hok3 & He3).
  exists s1, nodes2, nodes3. do 5 (split; [done|]).
  assert ((if is_dir cn then reads (fun s0 => isAncestor (md_nodes s0) child dst) else mret false : Op bool) s = Some (inr false, s, [])) as Hb.
  { destruct (is_dir cn); [|done]. run. rewrite (isAncestor_chain _ _ _ _ _ _ _ (mo_tree _ _ Hok) Hl). rewrite bool_decide_false; [done|].
    destruct (chain_head _ _ _ Hl) as [? ->]. set_solver. }
  cbn [restore_line]. unfold rename. run. unfold verifySession. cbn [session getForRestore]. run.
  rewrite (getNode_restore _ _ _ _ dn) by done. run. rewrite (getNode_restore _ _ _ _ srcn) by done. run.
  rewrite (base_name_run _ _ _ srcn) by done. run. rewrite (base_name_run _ _ _ dn) by done. run. rewrite Hn1. run. unfold look. run.
  rewrite Hchild. run. cbn [checks_permissions getForRestore isPersonalityMaster]. run. rewrite Z.eqb_refl. cbn [orb]. run.
  rewrite (node_run _ _ _ Hcn). run. rewrite Hb. run. rewrite Hn2. run. rewrite Hrep, bool_decide_false by done. run.
  destruct replaced as [y|].
  - destruct Hrn as (yn & -> & Ey & Hem). run. rewrite (node_run _ _ _ Ey). run.
    replace (is_dir yn && negb (is_empty_dir yn)) with false by (destruct (is_dir yn); [by rewrite Hem|done]). run. rewrite Hq. run.
    cbn [getForRestore ts]. rewrite E1. run. rewrite E2. run. cbn [set_nodes md_nodes]. rewrite E3. run. by rewrite changeLog_restore.
  - subst rn. run. rewrite Hq. injection E1 as <-. run. cbn [getForRestore ts]. rewrite E2. run. cbn [set_nodes md_nodes]. rewrite E3. run.
    by rewrite changeLog_restore.
Qed.

End rename.

(** A directory is not moved into itself. *)
Definition into_itself (cx : Context) (parent_src : Z) (name_src : name_t) (parent_dst : Z) (s : Metadata) : Prop :=
  exists src dst, candidate cx parent_src s = Some (inr src, s, []) /\ candidate cx parent_dst s = Some (inr dst, s, []) /\
    FsTree.lookup (md_nodes s) src name_src = Some dst.

(** Edges as lookup() finds them. *)
Lemma edges_lookup s s' src name_src dst name_dst child :
  meta_ok s -> meta_ok s' ->
  (forall p nm c, edge (md_nodes s') p nm c <->
    (edge (md_nodes s) p nm c /\ (p, nm) <> (src, name_src) /\ (p, nm) <> (dst, name_dst)) \/ (p, nm, c) = (dst, name_dst, child)) ->
  forall p nm, FsTree.lookup (md_nodes s') p nm =
    if decide ((p, nm) = (dst, name_dst)) then Some child
    else if decide ((p, nm) = (src, name_src)) then None else FsTree.lookup (md_nodes s) p nm.
Proof.
  intros Hok Hok' He p nm. apply option_eq. intros c. rewrite (lookup_edge goals root no_debt) by apply Hok'. rewrite He.
  destruct (decide ((p, nm) = (dst, name_dst))) as [[= -> ->]|H1]; [naive_solver|].
  destruct (decide ((p, nm) = (src, name_src))) as [[= -> ->]|H2]; [naive_solver|].
  rewrite (lookup_edge goals root no_debt) by apply Hok. naive_solver.
Qed.

(** The node that is replaced, when it can be. *)
Lemma reading_replaced cx u dst dn replaced s :
  meta_ok s -> user cx = Some u -> md_nodes s !! dst = Some dn -> (forall y, replaced = Some y -> exists n, md_nodes s !! y = Some n) ->
  reading (match replaced with
           | None => mret None
           | Some y =>
             n ← node y;
             _ ← require (negb (is_dir n && negb (is_empty_dir n))) ERROR_ENOTEMPTY;
             _ ← (match checks_permissions cx with Some _ => sticky cx dst y | None => mret tt end);
             mret (Some n)
           end) s (fun rn => match replaced with
    | None => rn = None
    | Some y => exists n, rn = Some n /\ md_nodes s !! y = Some n /\ (is_dir n = true -> is_empty_dir n = true)
    end).
Proof.
  intros Hok Hu Ed Hex. destruct replaced as [y|]; [|by apply reading_ret]. destruct (Hex y eq_refl) as [n En].
  eapply reading_bind; [by apply (reading_node _ _ _ En)|]. intros ? ->. eapply reading_bind; [apply reading_require|]. intros ? Hempty. simpl in Hempty.
  apply (reading_bind _ _ _ (fun _ => True)).
  { destruct (checks_permissions cx); [by eapply reading_sticky|by apply reading_ret]. }
  intros _ _. apply reading_ret. exists n. split; [done|]. split; [done|]. intros Hdir. rewrite Hdir in Hempty. by destruct (is_empty_dir n).
Qed.

(** The names after a rename. *)
Definition renamed (cx : Context) (parent_src : Z) (name_src : name_t) (parent_dst : Z) (name_dst : name_t) (s : Metadata)
    (child : Z) (s' : Metadata) : Prop :=
  exists src dst, candidate cx parent_src s = Some (inr src, s, []) /\ candidate cx parent_dst s = Some (inr dst, s, []) /\
    FsTree.lookup (md_nodes s) src name_src = Some child /\
    if decide (FsTree.lookup (md_nodes s) dst name_dst = Some child) then s' = s
    else forall p nm, FsTree.lookup (md_nodes s') p nm =
      if decide ((p, nm) = (dst, name_dst)) then Some child
      else if decide ((p, nm) = (src, name_src)) then None else FsTree.lookup (md_nodes s) p nm.

Lemma rename_ends cx u g parent_src name_src parent_dst name_dst inode s :
  serving cx u g -> meta_ok s -> counter (md_detached s) < kMaxIdForTrashOrReservedName ->
  ~ into_itself cx parent_src name_src parent_dst s ->
  ends goals (rename goals cx parent_src name_src parent_dst name_dst inode) s (renamed cx parent_src name_src parent_dst name_dst s).
Proof.
  intros [C1 C2 C3 C4] Hok Hmax Hself. unfold rename. read_session. read_node dst dn Hx Ed Hd. read_node src srcn Hy Es Hs.
  eapply ends_read; [by eapply (reading_base_name goals)|]. intros ? ->. eapply ends_read; [by eapply (reading_base_name goals)|]. intros ? ->.
  read_require Hname. eapply ends_read; [apply reading_look|]. intros found ->.
  destruct (FsTree.lookup (md_nodes s) src name_src) as [child|] eqn:El; [|apply ends_throw].
  destruct (look_edge _ _ _ _ Hok El) as [He [cn Ec]]. apply (ends_read goals _ _ _ (fun _ => True)).
  { destruct (checks_permissions cx); [by eapply reading_sticky|by apply reading_ret]. }
  intros _ _. rewrite C1. read_require Hm. read_at Ec.
  destruct (tree_chain _ _ _ _ _ _ (mo_tree _ _ Hok) Ed (is_dir_directory _ _ Hok _ _ Ed Hd)) as [l Hl].
  set (below := if is_dir cn then reads _ else _ : Op bool).
  assert (below s = Some (inr (bool_decide (child ∈ tail l) && is_dir cn), s, [])) as Hbelow.
  { unfold below. destruct (is_dir cn); [|by rewrite andb_false_r]. run. by rewrite (isAncestor_chain _ _ _ _ _ _ _ (mo_tree _ _ Hok) Hl), andb_true_r. }
  eapply ends_read; [eexists; split; [exact Hbelow|]; by instantiate (1 := fun b => b = _)|]. intros ? ->. read_require Hnb.
  assert (child ∉ l) as Hnot.
  { destruct (chain_head _ _ _ Hl) as [l' ->]. simpl in Hnb. intros Hin. apply elem_of_cons in Hin as [->|Hin]; [apply Hself; by exists src, dst|].
    destruct (chain_is_dir _ _ _ child Hl) as (m & Em & Hmd); [by right|]. assert (m = cn) as -> by congruence.
    by rewrite (directory_is_dir _ _ _ Hok Ec Hmd), bool_decide_true in Hnb. }
  read_require Hname2. eapply ends_read; [apply reading_look|]. intros replaced Hrep.
  destruct (bool_decide (replaced = Some child)) eqn:Esame; [|apply bool_decide_eq_false in Esame].
  { apply bool_decide_eq_true in Esame. right. exists child, s, []. split; [done|]. exists src, dst. rewrite decide_True by congruence. done. }
  eapply ends_read; [eapply (reading_replaced cx u dst dn replaced s); try done|].
  { intros y ->. symmetry in Hrep. by destruct (look_edge _ _ _ _ Hok Hrep). }
  intros rn Hrn. eapply ends_read; [by apply reading_result, (reading_move_quota goals s Hok dst src cn rn dn srcn)|]. intros [] [Hq _].
  destruct (rename_logged s Hok src dst child name_src name_dst dn cn l replaced El Ec Ed Hd Hl Hnot (eq_sym Hrep) Esame)
    with (timeStamp := ts cx) (srcn := srcn) (rn := rn) as (s1 & nodes2 & nodes3 & E1 & E2 & E3 & Hok3 & He3 & Ea); try done.
  { intros y n -> Ey. destruct Hrn as (n' & _ & Ey' & Hem). assert (n' = n) as -> by congruence. exact Hem. }
  eapply ends_one; [|by apply increase_ok; exact Hok3|exact Ea|].
  2: { exists src, dst. do 3 (split; [done|]). rewrite decide_False by congruence. by apply (edges_lookup s (set_nodes s1 nodes3)). }
  run.
  assert ((match replaced with Some y => effect (unlink goals (ts cx) dst name_dst y) | None => mret tt end) s = Some (inr tt, s1, [])) as ->
    by (destruct replaced; run; [by rewrite E1|by injection E1 as <-]).
  run. rewrite E2. run. cbn [set_nodes md_nodes]. rewrite E3. run. by rewrite changeLog_master.
Qed.

End serve.
