(* ===== verification/FsServeFiles.v ===== *)
(** The operations on files, served as in FsServe.v: the trash, open files, lengths, owners and attributes. *)
From S2P Require Import Prelude Serialization RichACL AclMasks AclStorage Nodes FileSize NodeAcl Trash Quota.
From S2P Require Import FsTree FsTreeInv FsTreeNodes FsTreeEdges DirQuota FsMeta FsMetaInv FsCreate FsMetaSteps.
From S2P Require Import FsMetaFields FsOps FsAttrOps FsRestore FsOpsRead FsReplay FsServe.

Section files.
Context (goals : Z -> Goals.Goal).
Notation root := SPECIAL_INODE_ROOT.
Notation meta_ok := (meta_ok goals).
Notation served := (served goals).

(** ** The trash *)

Lemma setTrashPath_served cx u g inode path s :
  serving cx u g -> meta_ok s -> counter (md_detached s) < kMaxIdForTrashOrReservedName -> served (setTrashPath cx inode path) s.
Proof.
  intros [C1 C2 C3 C4] Hok Hmax. unfold setTrashPath. read_session. read_node x n Hx En Hf. read_at En. read_require Ht. read_require Hpath.
  pose proof Ht as Ht'. apply bool_decide_eq_true in Ht'. pose proof (trash_path_ok goals s x n path Hok En Ht' Hmax) as Hok'.
  eapply (served_one goals _ s _ _ (ts cx) (SETPATH x path)); [|by apply increase_ok; exact Hok'|].
  - run. by rewrite changeLog_master.
  - cbn [restore_line]. unfold setTrashPath. run. unfold verifySession. cbn [session getForRestore]. run.
    rewrite (getNode_restore _ _ _ _ n) by done. run. rewrite (node_run _ _ _ En). run. rewrite Ht, Hpath. by run.
Qed.

(** purge() of a file in the trash, open or not. *)
Lemma purge_trash s x n timeStamp :
  meta_ok s -> md_nodes s !! x = Some n -> node_type n = kTrash ->
  exists r s', purge goals timeStamp x s = Some (r, s') /\ meta_ok s' /\ trash (md_detached s') = delete (key_of n) (trash (md_detached s)).
Proof.
  intros Hok En Ht. assert (is_file n = true) as Hfile by (unfold is_file; by rewrite Ht).
  destruct (file_type_data n (tree_typed goals _ _ _ (mo_tree _ _ Hok) En) Hfile) as (len & ses & ch & Ed).
  assert (file_of n = Some (len, ses, ch)) as Hf by (unfold file_of; by rewrite Ed).
  destruct ses as [|y ses].
  - destruct (purge_closed goals s Hok x n En timeStamp len ch Ht Hf) as (s' & E & H1 & _ & H2). by exists 1, s'.
  - destruct (purge_open goals s Hok x n En timeStamp len (y :: ses) ch Ht Hf) as (s' & E & H1 & _ & H2); [done|]. by exists 0, s'.
Qed.

Lemma purge_restored s x n timeStamp r s' :
  md_nodes s !! x = Some n -> node_type n = kTrash -> purge goals timeStamp x s = Some (r, s') ->
  restore_line goals timeStamp (PURGE x) s = Some (inr tt, increaseMetadataVersion s', []).
Proof.
  intros En Ht E. cbn [restore_line]. unfold purge_op. run. unfold verifySession. cbn [session getForRestore]. run.
  rewrite (getNode_restore _ _ _ _ n) by done. run. rewrite (node_run _ _ _ En). run. rewrite Ht. cbn [bool_decide]. run.
  cbn [getForRestore ts]. rewrite E. cbn [fmap option_fmap option_map snd]. by run.
Qed.

Lemma purge_served cx u g inode s : serving cx u g -> meta_ok s -> served (purge_op goals cx inode) s.
Proof.
  intros [C1 C2 C3 C4] Hok. unfold purge_op. read_session. read_node x n Hx En Hf. read_at En. read_require Ht. apply bool_decide_eq_true in Ht.
  destruct (purge_trash s x n (ts cx) Hok En Ht) as (r & s' & E & Hok' & _).
  eapply (served_one goals _ s _ _ (ts cx) (PURGE x)); [|by apply increase_ok; exact Hok'|by eapply purge_restored].
  run. rewrite E. cbn [fmap option_fmap option_map snd]. run. by rewrite changeLog_master.
Qed.

(** ** Open files *)

Lemma acquire_served cx inode sessionid s : isPersonalityMaster cx = true -> meta_ok s -> served (acquire cx inode sessionid) s.
Proof.
  intros C1 Hok. unfold acquire. eapply served_read; [by apply reading_reads|]. intros ? ->. destruct (md_nodes s !! inode) as [n|] eqn:En; [|apply served_throw].
  read_require Hfile. destruct (file_type_data n (tree_typed goals _ _ _ (mo_tree _ _ Hok) En) Hfile) as (len & ses & ch & Ed).
  assert (file_of n = Some (len, ses, ch)) as Hf by (unfold file_of; by rewrite Ed).
  eapply served_read; [by apply reading_reads|]. intros ? ->. cbn beta iota. read_require Hses.
  assert (meta_ok (put_node inode (with_file n len (ses ++ [sessionid]) ch) s)) as Hok' by (eapply sessions_ok; try done; by intros _ [_ ?]%app_nil).
  eapply (served_one goals _ s _ _ (ts cx) (ACQUIRE inode sessionid)); [|by apply increase_ok; exact Hok'|].
  - run. by rewrite changeLog_master.
  - cbn [restore_line]. unfold acquire. run. rewrite En. run. rewrite Hfile. run. rewrite Hf. run. rewrite Hses. by run.
Qed.

Lemma set_nodes_ext s1 s2 nodes1 nodes2 :
  nodes1 = nodes2 -> md_counters s1 = md_counters s2 -> md_detached s1 = md_detached s2 -> md_acls s1 = md_acls s2 ->
  md_quota s1 = md_quota s2 -> md_calls s1 = md_calls s2 -> md_version s1 = md_version s2 -> set_nodes s1 nodes1 = set_nodes s2 nodes2.
Proof. unfold set_nodes. by intros -> -> -> -> -> -> ->. Qed.

(** What removeNode() looks at. *)
Lemma removeNode_put s x n1 n2 timeStamp :
  node_type n2 = node_type n1 -> node_parents n2 = node_parents n1 -> node_goal n2 = node_goal n1 -> node_uid n2 = node_uid n1 ->
  node_gid n2 = node_gid n1 -> snd <$> file_of n2 = snd <$> file_of n1 -> cost goals (-1) n2 = cost goals (-1) n1 ->
  removeNode goals timeStamp x (put_node x n2 s) = removeNode goals timeStamp x (put_node x n1 s) \/ node_parents n1 <> [].
Proof.
  intros Ht Hp Hg Hu Hgi Hf Hc. destruct (decide (node_parents n1 = [])) as [Hp1|]; [left|by right]. rewrite Hp1 in Hp.
  unfold removeNode. cbn [put_node set_nodes md_nodes]. rewrite !lookup_insert_eq. cbn [mbind option_bind]. rewrite Hp, Hp1.
  rewrite bool_decide_true by done. cbn [negb]. change (md_acls (count CNodes (-1) (put_node x n2 s))) with (md_acls (count CNodes (-1) (put_node x n1 s))).
  destruct (erase _ x) as [acls|]; [|done]. cbn [mbind option_bind]. unfold is_dir, is_file, nodeQuotaUpdate. rewrite Ht, Hg, Hc, Hu, Hgi.
  destruct (file_of n1) as [[[l1 e1] c1]|], (file_of n2) as [[[l2 e2] c2]|]; try done; [injection Hf as ->|]; cbn [mbind option_bind];
    destruct (bool_decide (node_type n1 = kDirectory)), (bool_decide (node_type n1 = kSymlink)),
      (match node_type n1 with kFile | kTrash | kReserved => true | _ => false end); cbn [mbind option_bind]; try done;
    apply f_equal, set_nodes_ext; try reflexivity; (transitivity (delete x (md_nodes s)); [apply delete_insert_eq|symmetry; apply delete_insert_eq]).
Qed.

(** The file that purge() removes may have lost its last session already. *)
Lemma purge_reserved_sessions s x n timeStamp len ses ses' ch :
  md_nodes s !! x = Some n -> node_type n = kReserved -> node_parents n = [] -> file_of n = Some (len, ses, ch) ->
  purge goals timeStamp x (put_node x (with_file n len ses' ch) s) = purge goals timeStamp x s.
Proof.
  intros En Ht Hp Hf. assert (node_data n = FileData len ses ch) as Ed by (unfold file_of in Hf; destruct (node_data n); congruence).
  unfold purge. cbn [put_node set_nodes md_nodes]. rewrite lookup_insert_eq, En. cbn [mbind option_bind]. cbn [with_file with_data node_type].
  rewrite Ht, Hf. unfold file_of at 1. cbn [with_data node_data mbind option_bind].
  set (s2 := set_detached (count CReserved (-1) (count CReservedSpace (- len) s)) (removeReservedEntry (md_detached s) (node_id n))).
  destruct (removeNode_put s2 x (with_ctime n timeStamp) (with_ctime (with_file n len ses' ch) timeStamp) timeStamp) as [E|]; try done.
  - unfold file_of. cbn [with_ctime with_file with_data node_data]. by rewrite Ed.
  - unfold cost, getSize. change (getStats goals (with_ctime (with_file n len ses' ch) timeStamp)) with (getStats goals (with_file n len ses' ch)).
    by rewrite (with_file_stats goals n len ses ses' ch Hf).
  - transitivity (removeNode goals timeStamp x (put_node x (with_ctime (with_file n len ses' ch) timeStamp) s2) ≫= fun s => Some (1, s));
      [|by rewrite E].
    apply (f_equal (fun o => o ≫= fun s => Some (1, s))), f_equal. unfold s2, put_node, set_nodes.
    cbn [set_detached count md_nodes md_counters md_detached md_acls md_quota md_calls md_version]. by rewrite insert_insert_eq.
Qed.

Lemma release_runs s inode n len ses ch sessionid timeStamp :
  meta_ok s -> md_nodes s !! inode = Some n -> file_of n = Some (len, ses, ch) -> existsb (Z.eqb sessionid) ses = true ->
  let rest := erase_first (Z.eqb sessionid) ses in
  exists s', (if bool_decide (node_type n = kReserved) && bool_decide (rest = [])
              then snd <$> purge goals timeStamp inode (put_node inode (with_file n len rest ch) s)
              else Some (put_node inode (with_file n len rest ch) s)) = Some s' /\ meta_ok s' /\
    (node_type n = kReserved -> rest = [] -> md_nodes s' = delete inode (md_nodes s) /\
       reserved (md_detached s') = delete inode (reserved (md_detached s)) /\ trash (md_detached s') = trash (md_detached s)).
Proof.
  intros Hok En Hf Hin rest. destruct (bool_decide (node_type n = kReserved)) eqn:Et.
  - apply bool_decide_eq_true in Et. destruct (bool_decide (rest = [])) eqn:Er; cbn [andb].
    + apply bool_decide_eq_true in Er. destruct (detached_loose goals s Hok inode n En) as [Hp _]; [unfold where_of; rewrite Et; by eexists|].
      rewrite (purge_reserved_sessions s inode n timeStamp len ses rest ch En Et Hp Hf).
      destruct (purge_reserved goals s Hok inode n En timeStamp Et) as (s' & -> & Hok' & H1 & H2 & H3). by exists s'.
    + apply bool_decide_eq_false in Er. eexists. split; [done|]. split; [by eapply sessions_ok|]. done.
  - apply bool_decide_eq_false in Et. cbn [andb]. eexists. split; [done|]. split; [by eapply sessions_ok|]. done.
Qed.

(** release() on the master and on a shadow. *)
Lemma release_done cx s inode n len ses ch sessionid s' :
  md_nodes s !! inode = Some n -> is_file n = true -> file_of n = Some (len, ses, ch) -> existsb (Z.eqb sessionid) ses = true ->
  (let rest := erase_first (Z.eqb sessionid) ses in
   if bool_decide (node_type n = kReserved) && bool_decide (rest = [])
   then snd <$> purge goals (ts cx) inode (put_node inode (with_file n len rest ch) s)
   else Some (put_node inode (with_file n len rest ch) s)) = Some s' ->
  release goals cx inode sessionid s
    = Some (inr tt, increaseMetadataVersion s', if isPersonalityMaster cx then [(ts cx, RELEASE inode sessionid)] else []).
Proof.
  intros En Hfile Hf Hin E. cbv zeta in E. unfold release. run. rewrite En. run. rewrite Hfile. run. rewrite Hf. run. rewrite Hin. run.
  set (r := erase_first _ ses) in *. destruct (bool_decide _ && bool_decide _); run.
  - rewrite E. run. unfold changeLog. run. done.
  - injection E as <-. unfold changeLog. run. done.
Qed.

Lemma release_served cx inode sessionid s : isPersonalityMaster cx = true -> meta_ok s -> served (release goals cx inode sessionid) s.
Proof.
  intros C1 Hok. destruct (md_nodes s !! inode) as [n|] eqn:En.
  2: { unfold release. eapply served_read; [by apply reading_reads|]. intros ? ->. rewrite En. apply served_throw. }
  destruct (is_file n) eqn:Hfile.
  2: { unfold release. eapply served_read; [by apply reading_reads|]. intros ? ->. rewrite En. read_require H. congruence. }
  destruct (file_type_data n (tree_typed goals _ _ _ (mo_tree _ _ Hok) En) Hfile) as (len & ses & ch & Ed).
  assert (file_of n = Some (len, ses, ch)) as Hf by (unfold file_of; by rewrite Ed).
  destruct (existsb (Z.eqb sessionid) ses) eqn:Hin.
  - destruct (release_runs s inode n len ses ch sessionid (ts cx) Hok En Hf Hin) as (s' & E & Hok' & _).
    eapply (served_one goals _ s _ _ (ts cx) (RELEASE inode sessionid)); [|by apply increase_ok; exact Hok'|].
    + rewrite (release_done cx s inode n len ses ch sessionid s') by done. by rewrite C1.
    + cbn [restore_line]. by rewrite (release_done (getForRestore (ts cx)) s inode n len ses ch sessionid s').
  - unfold release. eapply served_read; [by apply reading_reads|]. intros ? ->. rewrite En. read_require H. rewrite Hf.
    eapply served_read; [by apply reading_reads|]. intros ? ->. cbn beta iota. read_require H1. congruence.
Qed.

(** ** Lengths *)

(** Only a directory is seen under another number. *)
Lemma candidate_file cx inode x s n :
  candidate cx inode s = Some (inr x, s, []) -> md_nodes s !! x = Some n -> is_dir n = false -> x = inode.
Proof.
  intros H En Hd. unfold candidate in H. revert H. destruct (session cx) as [ses|].
  2: { run. destruct (md_nodes s !! inode); run; congruence. }
  destruct (_ || _).
  { run. destruct (md_nodes s !! inode); run; [|congruence]. destruct (_ && _); run; congruence. }
  run. destruct (md_nodes s !! rootinode ses) as [rn|] eqn:Er; run; [|congruence]. destruct (is_dir rn) eqn:Ern; run; [|congruence].
  destruct (_ || _); run; [intros [= <-]; congruence|]. destruct (md_nodes s !! inode) as [m|]; run; [|congruence].
  destruct (is_detached m); run; [congruence|]. destruct (isAncestor _ _ _) as [b|]; run; [|congruence]. destruct b; run; congruence.
Qed.

(** A change of times that follows another change. *)
Lemma touched s x n t :
  meta_ok s -> md_nodes s !! x = Some n ->
  exists s1 s2, set_mtime x t s = Some s1 /\ updateCTime x t s1 = Some s2 /\ meta_ok s2.
Proof.
  intros Hok En. unfold set_mtime. rewrite En. cbn [mbind option_bind].
  assert (meta_ok (put_node x (with_mtime n t) s)) as Hok1 by (eapply quiet_same; [done|done|apply quiet_mtime|done]).
  destruct (updateCTime_ok goals _ x (with_mtime n t) t Hok1) as (s2 & E & Hok2 & _); [apply lookup_insert_eq|]. by eexists _, s2.
Qed.

Lemma setLength_served cx u g inode len s : serving cx u g -> meta_ok s -> served (doSetLength goals cx inode len) s.
Proof.
  intros [C1 C2 C3 C4] Hok. unfold doSetLength. read_session. read_node x n Hx En Hfile.
  pose proof (tree_typed goals _ _ _ (mo_tree _ _ Hok) En) as Hty.
  assert (x = inode) as -> by (eapply candidate_file; [done|done|]; rewrite well_typed_dir, (file_not_dir n Hty Hfile) by done; by apply bool_decide_eq_false).
  destruct (file_type_data n Hty Hfile) as (prev & ses & ch & Ed).
  assert (file_of n = Some (prev, ses, ch)) as Hf by (unfold file_of; by rewrite Ed).
  destruct (setLength_ok goals s inode n len true prev ses ch Hok En Hfile Hf) as (s1 & n' & E1 & Hok1 & _ & Hsame).
  assert (exists n1, md_nodes s1 !! inode = Some n1) as [n1 En1].
  { destruct (similar_stats _ _ Hsame) as (par & dirf & R). destruct (related_Some _ _ _ _ inode n' R) as (n1 & ? & _); [apply lookup_insert_eq|eauto]. }
  destruct (touched s1 inode n1 (ts cx) Hok1 En1) as (s2 & s3 & E2 & E3 & Hok3).
  eapply (served_one goals _ s _ _ (ts cx) (LENGTH inode len true)); [|by apply increase_ok; exact Hok3|].
  - run. rewrite E1. run. rewrite changeLog_master by done. run. rewrite set_mtime_version, E2. cbn [fmap option_fmap option_map]. run.
    by rewrite updateCTime_version, E3.
  - cbn [restore_line]. unfold applyLength, next_version. run. rewrite En. run. rewrite Hfile. run. rewrite E1. run. rewrite E2. run. rewrite E3. by run.
Qed.

(** ** Owners *)

Definition more_used (r : QuotaResource) (delta : Z) (l : Limits) : Limits :=
  set_limit l kUsed r (u64 (limit_of l kUsed r + delta)).

Lemma update_entry (db : gmap (QuotaOwnerType * Z) Limits) t id r delta l :
  db !! (t, id) = Some l -> quota_update db t id kUsed r delta = <[(t, id) := more_used r delta l]> db.
Proof. intros E. unfold quota_update, quota_set, quota_entry, QuotaDatabase in *. by rewrite E. Qed.

(** The usage of the owners, as the entries have it. *)
Lemma update_ug_entries rs : forall (db : gmap (QuotaOwnerType * Z) Limits) uid gid a b,
  db !! (kUser, uid) = Some a -> db !! (kGroup, gid) = Some b ->
  quota_update_ug db uid gid rs
    = <[(kUser, uid) := foldl (fun l '(r, delta) => if delta =? 0 then l else more_used r delta l) a rs]>
        (<[(kGroup, gid) := foldl (fun l '(r, delta) => if delta =? 0 then l else more_used r delta l) b rs]> db).
Proof.
  unfold quota_update_ug, QuotaDatabase in *. induction rs as [|[r delta] rs IH]; intros db uid gid a b Ea Eb; cbn [foldl].
  { rewrite (insert_id (M := gmap _) db _ b) by done. by rewrite insert_id. }
  destruct (delta =? 0); [by apply IH|]. rewrite (update_entry db _ _ _ _ a) by done.
  rewrite (update_entry _ kGroup _ _ _ b) by (by rewrite lookup_insert_ne).
  rewrite (IH _ _ _ (more_used r delta a) (more_used r delta b)); [|by rewrite lookup_insert_ne, lookup_insert_eq|by rewrite lookup_insert_eq].
  rewrite insert_insert_eq. rewrite (insert_insert_ne _ (kGroup, gid) (kUser, uid)) by done. by rewrite insert_insert_eq.
Qed.

Definition used_normal (l : Limits) : Prop := forall r, limit_of l kUsed r = u64 (limit_of l kUsed r).

Lemma more_used_back r d l : used_normal l -> more_used r d (more_used r (- d) l) = l.
Proof.
  intros H. specialize (H r). destruct l as [a b [i z]]. unfold more_used, set_limit, limit_of in *. destruct r; simpl in *; do 2 f_equal; rewrite H at 2;
    unfold u64, wrap; rewrite Zplus_mod_idemp_l; f_equal; lia.
Qed.

Lemma more_used_swap r r' d d' l : r <> r' -> more_used r d (more_used r' d' l) = more_used r' d' (more_used r d l).
Proof. destruct l as [a b [i z]], r, r'; done. Qed.

Lemma cost_undo n l :
  used_normal l ->
  foldl (fun l '(r, delta) => if delta =? 0 then l else more_used r delta l)
    (foldl (fun l '(r, delta) => if delta =? 0 then l else more_used r delta l) l (cost goals (-1) n)) (cost goals 1 n) = l.
Proof.
  intros Hl. unfold cost. destruct (is_file n); cbn [foldl]; [|by apply more_used_back].
  change (-1 =? 0) with false. change (1 =? 0) with false. cbn iota. set (z := getSize goals n).
  replace (-1 * z) with (- z) by lia. replace (1 * z) with z by lia. destruct (Z.eqb_spec (- z) 0), (Z.eqb_spec z 0); try lia; [by apply more_used_back|].
  rewrite (more_used_swap kInodes kSize) by done. rewrite (more_used_back kInodes 1) by done. by apply more_used_back.
Qed.

(** There are fewer nodes than a counter of 64 bits can count. *)
Lemma nodes_bound s : meta_ok s -> Z.of_nat (base.size (md_nodes s)) < 2 ^ 64.
Proof.
  intros Hok. destruct (mo_acls _ _ Hok) as [m Hm]. assert (Z.of_nat (base.size (md_nodes s)) <= 2 ^ 32); [|lia]. apply keys_size; [lia|].
  intros k [n Hk]. by apply (con_ids _ _ Hm k n).
Qed.

Lemma total_bound w (nodes : nodes_t) : (forall n, 0 <= w n <= 1) -> 0 <= total w nodes <= Z.of_nat (base.size nodes).
Proof.
  intros Hw. induction nodes as [|x n nodes E IH] using map_ind; [done|]. rewrite total_insert, map_size_insert_None by done.
  specialize (Hw n). lia.
Qed.

(** The owners of a node have entries. *)
Lemma owner_entry s x n t id :
  meta_ok s -> md_nodes s !! x = Some n -> t <> kInode -> owns t id (node_uid n) (node_gid n) = true ->
  exists l, (md_quota s : gmap _ _) !! (t, id) = Some l /\ used_normal l.
Proof.
  intros Hok En Ht Hown. destruct (mo_books _ _ Hok) as [_ B]. unfold used_by, quota_entry, QuotaDatabase in B.
  destruct ((md_quota s : gmap _ _) !! (t, id)) as [l|] eqn:El.
  - exists l. split; [done|]. intros r. specialize (B t id r Ht). rewrite El in B. simpl in B. rewrite B. unfold u64, wrap. by rewrite Zmod_mod.
  - exfalso. specialize (B t id kInodes Ht). rewrite El in B. simpl in B.
    assert (forall m, 0 <= charge goals t id kInodes m <= 1) as Hc by (intros m; unfold charge; destruct (owns t id (node_uid m) (node_gid m)); lia).
    pose proof (total_bound _ (md_nodes s) Hc) as Hb. pose proof (total_bound _ (delete x (md_nodes s)) Hc) as Hb'.
    rewrite (total_delete _ x n) in Hb' by done. unfold charge at 2 in Hb'. rewrite Hown in Hb'. cbn iota in Hb'. pose proof (nodes_bound s Hok).
    unfold u64, wrap in B. rewrite Z.mod_small in B by lia. cbn in B. lia.
Qed.

(** A change to the same owners changes nothing. *)
Lemma changeUidGid_same s x n :
  meta_ok s -> md_nodes s !! x = Some n -> changeUidGid goals x (node_uid n) (node_gid n) s = Some s.
Proof.
  intros Hok En. unfold changeUidGid. rewrite En. cbn [mbind option_bind]. f_equal.
  destruct (owner_entry s x n kUser (node_uid n) Hok En) as (a & Ea & Na); [done|apply Z.eqb_refl|].
  destruct (owner_entry s x n kGroup (node_gid n) Hok En) as (b & Eb & Nb); [done|apply Z.eqb_refl|].
  assert (with_owner n (node_uid n) (node_gid n) = n) as -> by (by destruct n).
  unfold nodeQuotaUpdate, put_node. cbn [set_quota set_nodes md_quota md_nodes].
  assert (quota_update_ug (quota_update_ug (md_quota s) (node_uid n) (node_gid n) (cost goals (-1) n)) (node_uid n) (node_gid n) (cost goals 1 n)
    = md_quota s) as Hq.
  { unfold QuotaDatabase in *. rewrite (update_ug_entries (cost goals (-1) n) (md_quota s) _ _ a b) by done.
    erewrite update_ug_entries; [|by rewrite lookup_insert_eq|by rewrite lookup_insert_ne, lookup_insert_eq].
    rewrite !cost_undo by done. rewrite (insert_insert_ne _ (kGroup, _) (kUser, _)) by done. rewrite !insert_insert_eq.
    rewrite (insert_id _ (kGroup, _) b) by done. by rewrite insert_id. }
  unfold set_quota. cbn [md_nodes md_counters md_detached md_acls md_quota md_calls md_version]. rewrite Hq, insert_id by done. by destruct s.
Qed.

(** ** Attributes *)

Lemma reading_checks cx ses u x n setmask attruid attrgid s :
  meta_ok s -> md_nodes s !! x = Some n -> reading (setattr_checks cx ses u x n setmask attruid attrgid) s (fun _ => True).
Proof.
  intros Hok En. unfold setattr_checks. eapply reading_bind; [apply reading_require|]. intros _ _. apply (reading_bind _ _ _ (fun _ => True)).
  - destruct (_ && _); [|by apply reading_ret]. do 3 (eapply reading_bind; [apply reading_require|]; intros _ _).
    destruct (has _ _); [|by apply reading_ret].
    destruct (access_runs goals s Hok (MkContext (sesflags ses) (user_uid u) (user_gids u)) x n MODE_MASK_W En) as [b Eb].
    eapply reading_bind; [by apply reading_reads|]. intros ? ->. eapply reading_weaken; [apply reading_require|done].
  - intros _ _. eapply reading_bind; [apply reading_require|]. intros _ _. eapply reading_weaken; [apply reading_require|done].
Qed.

(** chown keeps the permissions and the extra attributes. *)
Lemma cleared_bits clear uid setmask attrmode attrgid n i :
  0 <= i < 9 \/ 12 <= i < 16 ->
  Z.testbit (cleared_modes clear uid setmask attrmode attrgid n).1 i = Z.testbit (node_mode n) i.
Proof.
  intros Hi. unfold cleared_modes. destruct (_ && _); [|done].
  assert (Z.testbit 62463 i = true /\ Z.testbit 63487 i = true) as [H1 H2].
  { assert (i = 0 \/ i = 1 \/ i = 2 \/ i = 3 \/ i = 4 \/ i = 5 \/ i = 6 \/ i = 7 \/ i = 8 \/ i = 12 \/ i = 13 \/ i = 14 \/ i = 15) as Hc by lia.
    repeat destruct Hc as [-> | Hc]; try done. by subst. }
  destruct (sugid_masks _ _ _ _ _) as [[m1 m2]|] eqn:E; [|done]. simpl. rewrite Z.land_spec.
  assert (m1 = 62463 \/ m1 = 63487) as [-> | ->]; [|by rewrite H1, andb_true_r|by rewrite H2, andb_true_r].
  revert E. unfold sugid_masks, both_cleared, suid_cleared. destruct clear; repeat case_match; intros; simplify_eq; tauto.
Qed.

Lemma extra_bit x i : 0 <= i -> Z.testbit (Z.land x kExtraAttributesMask) i = Z.testbit x i && ((12 <=? i) && (i <? 16)).
Proof.
  intros Hi. rewrite Z.land_spec. f_equal. change kExtraAttributesMask with (Z.shiftl (Z.ones 4) 12). destruct (Z.leb_spec 12 i).
  - rewrite Z.shiftl_spec by lia. destruct (Z.ltb_spec i 16); [rewrite Z.ones_spec_low by lia|rewrite Z.ones_spec_high by lia]; done.
  - by rewrite Z.shiftl_spec_low by lia.
Qed.

(** The permissions of one mode with the extra attributes of another. *)
Lemma mode_parts m a b :
  (forall i, 0 <= i < 12 -> Z.testbit m i = Z.testbit a i) -> (forall i, 12 <= i < 16 -> Z.testbit m i = Z.testbit b i) ->
  u16 (Z.lor (Z.land a kPermissionsMask) (Z.land b kExtraAttributesMask)) = u16 m.
Proof.
  intros Ha Hb. apply Z.bits_inj'. intros i Hi. rewrite !u16_bit, Z.lor_spec, permissions_mask_bit, extra_bit by done.
  destruct (Z.ltb_spec i 12), (Z.leb_spec 12 i), (Z.ltb_spec i 16); try lia; rewrite ?andb_false_r, ?andb_true_r, ?orb_false_r; try done.
  - by rewrite Ha.
  - by rewrite Hb by lia.
Qed.

Lemma set_mode_u16 n m m' : u16 m = u16 m' -> set_mode n m = set_mode n m'.
Proof. intros H. unfold set_mode. by rewrite H. Qed.

(** The mode is replaced, and the list follows it. *)
Lemma mode_synced s x n a :
  meta_ok s -> md_nodes s !! x = Some n ->
  let n' := set_mode n (Z.lor (Z.land a kPermissionsMask) (Z.land (node_mode n) kExtraAttributesMask)) in
  exists s', sync_acl x (put_node x n' s) = Some s' /\ meta_ok s' /\ md_nodes s' = <[x := n']> (md_nodes s).
Proof.
  intros Hok En n'. destruct (mo_acls _ _ Hok) as [m Hm]. destruct (change_mode_ok _ m Hm x n En a) as (n1 & st & E & Hc).
  unfold change_mode in E. fold n' in E. simpl in E. destruct (syncAclWithMode n' (md_acls s)) as [st'|] eqn:Es; [|done]. injection E as <- <-.
  exists (set_acls (put_node x n' s) st'). split; [|split; [|done]].
  - unfold sync_acl. cbn [put_node set_nodes md_nodes md_acls]. rewrite lookup_insert_eq. cbn [mbind option_bind]. by rewrite Es.
  - eapply quiet_ok; [done|done|apply quiet_mode|exact Hc].
Qed.

(** The new mode, on the master and from the recorded mode on a shadow. *)
Lemma attr_mode s x n setmask mode attrmode :
  meta_ok s -> md_nodes s !! x = Some n ->
  (forall i, 0 <= i < 9 \/ 12 <= i < 16 -> Z.testbit mode i = Z.testbit (node_mode n) i) ->
  has setmask SET_MODE_FLAG = true \/ acl_ (md_acls s) !! x = None ->
  exists s1 m, (if has setmask SET_MODE_FLAG then
      _ ← effect (fun s => Some (put_node x
            (set_mode n (Z.lor (Z.land attrmode kPermissionsMask) (Z.land mode kExtraAttributesMask))) s));
      effect (sync_acl x)
    else mret tt) (put_node x (set_mode n mode) s) = Some (inr tt, s1, []) /\ meta_ok s1 /\
    md_nodes s1 = <[x := set_mode n m]> (md_nodes s) /\
    sync_acl x (put_node x (set_mode n (Z.lor (Z.land (u16 m) kPermissionsMask) (Z.land (node_mode n) kExtraAttributesMask))) s) = Some s1.
Proof.
  intros Hok En Hbits Hacl. destruct (has setmask SET_MODE_FLAG) eqn:Eset.
  - set (m := Z.lor (Z.land attrmode kPermissionsMask) (Z.land mode kExtraAttributesMask)).
    assert (forall i, 12 <= i < 16 -> Z.testbit m i = Z.testbit (node_mode n) i) as Hhigh.
    { intros i Hi. unfold m. rewrite Z.lor_spec, permissions_mask_bit, extra_bit, Hbits by lia.
      rewrite (proj2 (Z.ltb_ge i 12)), (proj2 (Z.leb_le 12 i)), (proj2 (Z.ltb_lt i 16)) by lia. by rewrite andb_false_r, andb_true_r. }
    assert (forall i, 0 <= i < 12 -> Z.testbit m i = Z.testbit attrmode i) as Hlow.
    { intros i Hi. unfold m. rewrite Z.lor_spec, permissions_mask_bit, extra_bit by lia.
      rewrite (proj2 (Z.ltb_lt i 12)), (proj2 (Z.leb_gt 12 i)) by lia. by rewrite andb_false_r, andb_true_r, orb_false_r. }
    assert (set_mode n (Z.lor (Z.land (u16 m) kPermissionsMask) (Z.land (node_mode n) kExtraAttributesMask)) = set_mode n m) as Esh.
    { apply set_mode_u16, mode_parts; [|done]. intros i Hi. rewrite u16_bit by lia. rewrite (proj2 (Z.ltb_lt i 16)) by lia. by rewrite andb_true_r. }
    assert (set_mode n (Z.lor (Z.land attrmode kPermissionsMask) (Z.land (node_mode n) kExtraAttributesMask)) = set_mode n m) as Em
      by (by apply set_mode_u16, mode_parts).
    destruct (mode_synced s x n attrmode Hok En) as (s1 & E & Hok1 & Hn1). rewrite Em in E, Hn1. exists s1, m. rewrite Esh. split; [|done]. run.
    replace (put_node x (set_mode n m) (put_node x (set_mode n mode) s)) with (put_node x (set_mode n m) s); [by rewrite E|].
    unfold put_node, set_nodes. cbn [md_nodes md_counters md_detached md_acls md_quota md_calls md_version]. by rewrite insert_insert_eq.
  - destruct Hacl as [|Hacl]; [done|]. exists (put_node x (set_mode n mode) s), mode. split; [done|]. split; [|split; [done|]].
    + eapply quiet_same; [done|done|apply quiet_mode|]. split; [done|]. cbn [set_mode node_mode]. rewrite permissions_u16.
      apply Z.bits_inj'. intros i Hi. rewrite !permissions_bit by done. destruct (Z.ltb_spec i 9); [|by rewrite !andb_false_r]. by rewrite Hbits by lia.
    + assert (set_mode n (Z.lor (Z.land (u16 mode) kPermissionsMask) (Z.land (node_mode n) kExtraAttributesMask)) = set_mode n mode) as ->.
      { apply set_mode_u16, mode_parts; [|intros i Hi; apply Hbits; lia].
        intros i Hi. rewrite u16_bit by lia. rewrite (proj2 (Z.ltb_lt i 16)) by lia. by rewrite andb_true_r. }
      unfold sync_acl. cbn [put_node set_nodes md_nodes md_acls]. rewrite lookup_insert_eq. cbn [mbind option_bind].
      unfold syncAclWithMode, storage_setMode. cbn [set_mode node_id]. rewrite (tree_ids goals _ (mo_tree _ _ Hok) x n En), Hacl. done.
Qed.

(** The new owners. *)
Lemma attr_owner s x n setmask attruid attrgid :
  meta_ok s -> md_nodes s !! x = Some n ->
  exists s1 uid gid, (if changes_owner setmask
      then effect (changeUidGid goals x (if has setmask SET_UID_FLAG then attruid else node_uid n)
                     (if has setmask SET_GID_FLAG then attrgid else node_gid n)) else mret tt) s = Some (inr tt, s1, []) /\ meta_ok s1 /\
    md_nodes s1 = <[x := with_owner n uid gid]> (md_nodes s) /\
    (if (node_uid n =? uid) && (node_gid n =? gid) then mret tt else effect (changeUidGid goals x uid gid)) s = Some (inr tt, s1, []).
Proof.
  intros Hok En. destruct (changes_owner setmask).
  - set (uid := if has setmask SET_UID_FLAG then _ else _). set (gid := if has setmask SET_GID_FLAG then _ else _).
    destruct (changeUidGid_ok goals s x n uid gid Hok En) as (s1 & E & Hok1 & Hn1). exists s1, uid, gid. split; [run; by rewrite E|].
    split; [done|]. split; [done|]. destruct (Z.eqb_spec (node_uid n) uid), (Z.eqb_spec (node_gid n) gid); cbn [andb]; run; try (by rewrite E).
    assert (Some s = Some s1) as [= ->]; [|done]. rewrite <-E, <-(changeUidGid_same s x n Hok En). congruence.
  - exists s, (node_uid n), (node_gid n). split; [done|]. split; [done|]. split; [|by rewrite !Z.eqb_refl].
    assert (with_owner n (node_uid n) (node_gid n) = n) as -> by (by destruct n). by rewrite insert_id.
Qed.

(** The new times. *)
Lemma attr_times s x n timeStamp setmask attratime attrmtime :
  meta_ok s -> md_nodes s !! x = Some n ->
  exists s1 n1, set_times x timeStamp setmask attratime attrmtime s = Some s1 /\ meta_ok s1 /\ md_nodes s1 !! x = Some n1 /\
    node_id n1 = node_id n /\ node_mode n1 = node_mode n /\ node_uid n1 = node_uid n /\ node_gid n1 = node_gid n /\
    s1 = put_node x (with_mtime (with_atime n (node_atime n1)) (node_mtime n1)) s.
Proof.
  intros Hok En. unfold set_times. rewrite En. cbn [mbind option_bind]. set (n1 := if has setmask SET_MTIME_NOW_FLAG then _ else _).
  assert (n1 = with_mtime (with_atime n (node_atime n1)) (node_mtime n1)) as E1.
  { destruct n. unfold n1. repeat destruct (has _ _); done. }
  exists (put_node x n1 s), n1. split; [done|]. split; [|split; [apply lookup_insert_eq|]].
  - eapply quiet_same; [done|done|rewrite E1; by split|by rewrite E1].
  - rewrite E1. repeat split.
Qed.

(** A shadow gets the list of the node only from its mode: without a new mode, the node must have no list. *)
Lemma setAttr_served cx u g ses inode setmask attrmode attruid attrgid attratime attrmtime clear s :
  serving cx u g -> session cx = Some ses -> meta_ok s ->
  has setmask SET_MODE_FLAG = true \/ (forall x, candidate cx inode s = Some (inr x, s, []) -> acl_ (md_acls s) !! x = None) ->
  served (setAttr goals cx inode setmask attrmode attruid attrgid attratime attrmtime clear) s.
Proof.
  intros [C1 C2 C3 C4] Hses Hok Hacl. unfold setAttr. read_session. read_node x n Hx En Hf. read_at En.
  eapply served_read; [by apply (reading_reads _ _ ses)|]. intros ? ->. eapply served_read; [by apply (reading_reads _ _ u)|]. intros ? ->.
  eapply served_read; [by eapply reading_checks|]. intros _ _.
  pose proof (fun i => cleared_bits clear (user_uid u) setmask attrmode attrgid n i) as Hbits.
  destruct (cleared_modes clear (user_uid u) setmask attrmode attrgid n) as [mode am]. cbn [fst] in Hbits.
  destruct (attr_mode s x n setmask mode am Hok En Hbits) as (s1 & m & E1 & Hok1 & Hn1 & R1); [destruct Hacl; [by left|right; auto]|].
  destruct (attr_owner s1 x (set_mode n m) setmask attruid attrgid Hok1) as (s2 & uid & gid & E2 & Hok2 & Hn2 & R2); [rewrite Hn1; apply lookup_insert_eq|].
  destruct (attr_times s2 x (with_owner (set_mode n m) uid gid) (ts cx) setmask attratime attrmtime Hok2)
    as (s3 & n3 & E3 & Hok3 & En3 & F1 & F2 & F3 & F4 & R3); [rewrite Hn2; apply lookup_insert_eq|].
  cbn [with_owner set_mode node_id node_mode node_uid node_gid] in F1, F2, F3, F4.
  destruct (updateCTime_ok goals s3 x n3 (ts cx) Hok3 En3) as (s4 & E4 & Hok4 & _).
  pose proof (tree_ids goals _ (mo_tree _ _ Hok) x n En) as Hid.
  eapply (served_one goals _ s _ _ (ts cx) (ATTR x (Z.land (u16 m) kPermissionsMask) uid gid (node_atime n3) (node_mtime n3)));
    [|by apply increase_ok; exact Hok4|].
  - run. rewrite E1. cbn [set_mode node_uid node_gid] in E2. run. rewrite E2. run. rewrite E3. run. rewrite (node_run _ _ _ En3). run.
    rewrite changeLog_master by done. run. rewrite updateCTime_version, E4. cbn [fmap option_fmap option_map]. by rewrite F1, F2, F3, F4, Hid.
  - cbn [restore_line]. unfold applyAttr, next_version. run. rewrite En. run.
    assert (Z.land (u16 m) kPermissionsMask <=? kPermissionsMask = true) as ->.
    { change kPermissionsMask with (Z.ones 12). rewrite Z.land_ones by lia. apply Z.leb_le. pose proof (Z.mod_pos_bound (u16 m) (2 ^ 12)).
      change (Z.ones 12) with (2 ^ 12 - 1). lia. }
    run. rewrite R1. run. cbn [set_mode node_uid node_gid] in R2. rewrite R2. run.
    rewrite (node_run x (with_owner (set_mode n m) uid gid)) by (rewrite Hn2; apply lookup_insert_eq). run. rewrite <-R3, E4. by run.
Qed.

End files.
