(* ===== verification/FsServeTrash.v ===== *)
(** undel(), served as in FsServe.v, and the cleaners of the trash and of reserved files. *)
From S2P Require Import Prelude Serialization RichACL AclMasks AclStorage Nodes FileSize NodeAcl Trash Quota.
From S2P Require Import FsTree FsTreeInv FsTreeNodes FsTreeEdges DirQuota FsMeta FsMetaInv FsCreate FsMetaSteps.
From S2P Require Import FsMetaFields FsOps FsAttrOps FsRestore FsOpsRead FsReplay FsServe FsServeFiles.

(** Nodes that stay, with their types, their names and their keys in the trash. *)
Definition lasting (nodes nodes' : nodes_t) : Prop :=
  (forall y m, nodes !! y = Some m ->
     exists m', nodes' !! y = Some m' /\ node_type m' = node_type m /\ (node_type m = kTrash -> key_of m' = key_of m)) /\
  (forall p nm c, edge nodes p nm c -> edge nodes' p nm c).

Lemma lasting_refl nodes : lasting nodes nodes.
Proof. split; [|done]. intros y m Em. by exists m. Qed.

Lemma lasting_trans n1 n2 n3 : lasting n1 n2 -> lasting n2 n3 -> lasting n1 n3.
Proof.
  intros [A1 A2] [B1 B2]. split; [|auto]. intros y m Em. destruct (A1 y m Em) as (m' & Em' & T & K).
  destruct (B1 y m' Em') as (m'' & Em'' & T' & K'). exists m''. split; [done|]. split; [congruence|]. intros H. rewrite K', K; congruence.
Qed.

Lemma survives_lasting nodes nodes' y m :
  survives nodes nodes' y -> nodes !! y = Some m ->
  exists m', nodes' !! y = Some m' /\ node_type m' = node_type m /\ (node_type m = kTrash -> key_of m' = key_of m).
Proof.
  intros Hs Em. destruct (Hs m Em) as (m' & dirf & Em' & Hch). exists m'. split; [done|]. split; [by apply Hch|]. intros Ht. unfold key_of.
  by rewrite (ch_id _ _ _ _ Hch), (ch_trashtime _ _ _ _ Hch), (ch_ctime _ _ _ _ Hch Ht).
Qed.

(** The directory of a path below which the first directory is missing has no list. *)
Fixpoint spared (s : Metadata) (parent : Z) (names : list name_t) : Prop :=
  match names with
  | name :: (_ :: _) as names =>
    match FsTree.lookup (md_nodes s) parent name with Some y => spared s y names | None => acl_ (md_acls s) !! parent = None end
  | _ => True
  end.

Section trash.
Context (goals : Z -> Goals.Goal).
Notation root := SPECIAL_INODE_ROOT.
Notation meta_ok := (meta_ok goals).
Notation served := (served goals).

(** A node that inherits no list leaves the lists and the trash as they are. *)
Lemma createNode_rest timeStamp parent name type mode umask uid gid copysgid inode s s' :
  createNode goals timeStamp parent name type mode umask uid gid copysgid false inode s = Some s' ->
  md_acls s' = md_acls s /\ md_detached s' = md_detached s.
Proof.
  unfold createNode. destruct (bool_decide (type = kTrash)); [done|]. destruct (create_data type) as [data|]; [|done]. cbn [mbind option_bind].
  assert (md_acls (incrementNodeCounters type s) = md_acls s /\ md_detached (incrementNodeCounters type s) = md_detached s) as [Ha Hd] by (by destruct type).
  destruct (md_nodes _ !! parent) as [pn|]; [|done]. cbn [mbind option_bind inherit_permissions]. destruct (md_nodes _ !! inode); [done|].
  destruct (FsTree.link _ _ _ _ _ _ _) as [nodes|]; [|done]. cbn [mbind option_bind]. rewrite <-Ha, <-Hd. intros [= <-]. by destruct (bool_decide _).
Qed.

Lemma no_acl s x : acl_ (md_acls s) !! x = None -> AclStorage.get (md_acls s) x = Some None.
Proof. intros E. unfold AclStorage.get. by rewrite E. Qed.

(** A node that does not exist has no list. *)
Lemma fresh_acl s x : meta_ok s -> md_nodes s !! x = None -> acl_ (md_acls s) !! x = None.
Proof.
  intros Hok Hx. destruct (mo_acls _ _ Hok) as [m Hm]. pose proof (rep_map _ _ (con_rep _ _ Hm)) as R. simpl in R. rewrite R. destruct (m !! x) as [acl|] eqn:E; [|done].
  destruct (con_agrees _ _ Hm x acl E) as (n & En & _). simpl in En. congruence.
Qed.

(** A missing directory of the path. *)
Lemma undel_directory s parent name pn y timeStamp :
  meta_ok s -> acl_ (md_acls s) !! parent = None -> md_nodes s !! parent = Some pn -> is_dir pn = true -> isNameUsed (md_nodes s) parent name = false ->
  md_nodes s !! y = None -> is_uint 32 y ->
  exists s' n, createNode goals timeStamp parent name kDirectory kUndelDirectoryMode 0 0 0 false false y s = Some s' /\ meta_ok s' /\ acl_ (md_acls s') !! y = None /\
    md_nodes s' !! y = Some n /\ is_dir n = true /\ edge (md_nodes s') parent name y /\ (forall nm c, ~ edge (md_nodes s') y nm c) /\
    lasting (md_nodes s) (md_nodes s') /\ (forall z, z <> y -> md_nodes s !! z = None -> md_nodes s' !! z = None) /\
    md_detached s' = md_detached s /\
    restore_line goals timeStamp (CREATE parent name kDirectory (Z.land (node_mode n) kPermissionsMask) 0 0 0 y) s
      = Some (inr tt, increaseMetadataVersion s', []).
Proof.
  intros Hok Hplain Ep Hd Hfree Hnew Huint.
  destruct (create_logged goals s Hok parent y name kDirectory pn Ep Hd Hfree Hnew Huint eq_refl timeStamp kUndelDirectoryMode 0 0 0 false false 0)
    as (s1 & s' & n & E1 & [= <-] & Hok' & En & Ht & He & Hsv & Ea); [right; by apply no_acl|].
  destruct (createNode_rest _ _ _ _ _ _ _ _ _ _ _ _ E1) as [Hacl Hdet]. exists s1, n. split; [done|]. split; [done|]. split; [rewrite Hacl; by apply fresh_acl|].
  split; [done|]. split; [unfold is_dir; by rewrite Ht|]. split; [apply He; by right|]. split.
  { intros nm c Hc. apply He in Hc as [(? & ? & ? & _)|[= -> -> ->]]; congruence. }
  split; [split; [|intros p nm c Hc; apply He; by left]|split; [|done]].
  - intros z m Em. eapply survives_lasting; [|exact Em]. apply Hsv. congruence.
  - intros z Hz. by apply Hsv.
Qed.

Lemma lasting_dir nodes nodes' y n : lasting nodes nodes' -> nodes !! y = Some n -> exists n', nodes' !! y = Some n' /\ is_dir n' = is_dir n.
Proof. intros [L _] En. destruct (L y n En) as (n' & En' & Ht & _). exists n'. split; [done|]. unfold is_dir. by rewrite Ht. Qed.

(** The walk of undel() from a directory: it ends before it made anything, or the entries that it writes let a shadow
    find the directories that it made. *)
Definition walked (cx : Context) (x parent : Z) (isNew : bool) (names : list name_t) (fresh : list Z) (s : Metadata) : Prop :=
  (isNew = false /\ exists e, undel_walk goals cx x parent isNew names fresh s = Some (inl e, s, [])) \/
  exists s1 s2 log, undel_walk goals cx x parent isNew names fresh s = Some (inr tt, s2, log) /\ meta_ok s1 /\ meta_ok s2 /\
    replay_log goals log s = Some s1 /\ lasting (md_nodes s) (md_nodes s1) /\ md_detached s1 = md_detached s /\
    undel_walk goals (getForRestore (ts cx)) x parent false names [] s1 = Some (inr tt, s2, []).

(** One step of the walk on a shadow. *)
Lemma walk_shadow cx x parent name names y n s :
  names <> [] -> FsTree.lookup (md_nodes s) parent name = Some y -> md_nodes s !! y = Some n -> is_dir n = true ->
  undel_walk goals cx x parent false (name :: names) [] s = undel_walk goals cx x y false names [] s.
Proof.
  intros Hne El En Hd. destruct names as [|name' names]; [done|]. set (ns := name' :: names) in *. cbn [undel_walk]. unfold ns at 1. cbn iota. fold ns.
  run. unfold look. run. rewrite El. run. rewrite (node_run _ _ _ En). run. rewrite Hd. run. by destruct (undel_walk _ _ _ _ _ _ _ _) as [[[? ?] ?]|].
Qed.

Lemma walk_last cx x parent isNew name fresh s n pn :
  meta_ok s -> md_nodes s !! x = Some n -> node_type n = kTrash -> md_nodes s !! parent = Some pn -> is_dir pn = true ->
  (isNew = true -> forall nm c, ~ edge (md_nodes s) parent nm c) -> walked cx x parent isNew [name] fresh s.
Proof.
  intros Hok En Ht Ep Hd Hnew. unfold walked. cbn [undel_walk]. destruct (isNameUsed (md_nodes s) parent name) eqn:Eu.
  - left. destruct isNew.
    { exfalso. assert (isNameUsed (md_nodes s) parent name = false); [|congruence].
      apply (name_used goals root no_debt); [apply Hok|]. intros c. by apply Hnew. }
    split; [done|]. eexists. unfold free_name. run. by rewrite Eu.
  - right. destruct (undel_link_ok goals s x n parent name pn (ts cx) Hok En Ht Ep (is_dir_directory _ _ Hok _ _ Ep Hd) Eu) as (s2 & E & Hok2 & _).
    exists s, s2, []. run. rewrite free_name_run by done. run. cbn [getForRestore ts]. rewrite E. do 4 (split; [done|]). by split; [apply lasting_refl|].
Qed.

Lemma lasting_lookup s s1 p nm c :
  meta_ok s -> meta_ok s1 -> lasting (md_nodes s) (md_nodes s1) -> FsTree.lookup (md_nodes s) p nm = Some c ->
  FsTree.lookup (md_nodes s1) p nm = Some c.
Proof.
  intros Hok Hok1 [_ L] H. apply (lookup_edge goals root no_debt); [apply Hok1|]. apply L. apply (lookup_edge goals root no_debt) in H; [done|apply Hok].
Qed.

(** The walk goes into a directory that is there. *)
Lemma walk_into cx x parent name names fresh y yn s :
  meta_ok s -> names <> [] -> FsTree.lookup (md_nodes s) parent name = Some y -> md_nodes s !! y = Some yn -> is_dir yn = true ->
  walked cx x y false names fresh s -> walked cx x parent false (name :: names) fresh s.
Proof.
  intros Hok Hne El Ey Hd Hw. unfold walked.
  assert (undel_walk goals cx x parent false (name :: names) fresh s = undel_walk goals cx x y false names fresh s) as ->.
  { destruct names as [|name' names]; [done|]. set (ns := name' :: names) in *. cbn [undel_walk]. unfold ns at 1. cbn iota. fold ns.
    run. unfold look. run. rewrite El. run. rewrite (node_run _ _ _ Ey). run. rewrite Hd. run. by destruct (undel_walk _ _ _ _ _ _ _ _) as [[[? ?] ?]|]. }
  destruct Hw as [[_ [e E]]|(s1 & s2 & log & E & Hok1 & Hok2 & R & L & D & W)]; [left; eauto|]. right. exists s1, s2, log. do 6 (split; [done|]).
  destruct (lasting_dir _ _ _ _ L Ey) as (yn1 & Ey1 & Hd1). erewrite walk_shadow; [exact W|done|exact (lasting_lookup s s1 _ _ _ Hok Hok1 L El)|exact Ey1|congruence].
Qed.

(** The walk makes a directory. *)
Lemma walk_make cx x parent isNew name names fresh y s s' n :
  isPersonalityMaster cx = true -> meta_ok s' -> names <> [] -> (isNew = true \/ FsTree.lookup (md_nodes s) parent name = None) ->
  createNode goals (ts cx) parent name kDirectory kUndelDirectoryMode 0 0 0 false false y s = Some s' ->
  md_nodes s' !! y = Some n -> is_dir n = true -> edge (md_nodes s') parent name y -> lasting (md_nodes s) (md_nodes s') ->
  md_detached s' = md_detached s ->
  restore_line goals (ts cx) (CREATE parent name kDirectory (Z.land (node_mode n) kPermissionsMask) 0 0 0 y) s
    = Some (inr tt, increaseMetadataVersion s', []) ->
  walked cx x y true names fresh (increaseMetadataVersion s') -> walked cx x parent isNew (name :: names) (y :: fresh) s.
Proof.
  intros C1 Hok' Hne Hnone Ec En Hd He L D Ea [[? _]|(s1 & s2 & log & E & Hok1 & Hok2 & R & L1 & D1 & W)]; [done|]. right.
  exists s1, s2, ((ts cx, CREATE parent name kDirectory (Z.land (node_mode n) kPermissionsMask) 0 0 0 y) :: log).
  split; [|split; [done|split; [done|]]].
  - destruct names as [|name' names]; [done|]. set (ns := name' :: names) in *. cbn [undel_walk]. unfold ns at 1. cbn iota. fold ns. run.
    assert ((if isNew then mret None else look parent name : Op (option Z)) s = Some (inr None, s, [])) as ->.
    { destruct isNew; [done|]. destruct Hnone as [|Hnone]; [done|]. unfold look. run. by rewrite Hnone. }
    run. rewrite Ec. run. rewrite C1. run. unfold log_create. run. rewrite (node_run _ _ _ En). run. rewrite changeLog_master by done. run.
    rewrite E. done.
  - split; [cbn [replay_log]; by rewrite Ea|]. split; [by eapply lasting_trans|]. split; [by rewrite D1|].
    destruct (lasting_dir _ _ _ _ L1 En) as (n1 & En1 & Hd1). erewrite walk_shadow; [exact W|done| |exact En1|congruence].
    eapply (lasting_lookup (increaseMetadataVersion s')); [by apply increase_ok|done|done|]. apply (lookup_edge goals root no_debt); [apply Hok'|done].
Qed.

Lemma walk_ok cx x names : forall parent (isNew : bool) fresh s n pn,
  isPersonalityMaster cx = true -> meta_ok s -> (if isNew then acl_ (md_acls s) !! parent = None else spared s parent names) ->
  md_nodes s !! x = Some n -> node_type n = kTrash -> md_nodes s !! parent = Some pn -> is_dir pn = true -> names <> [] -> (length names <= S (length fresh))%nat -> NoDup fresh ->
  (forall y, y ∈ fresh -> md_nodes s !! y = None /\ is_uint 32 y) -> (isNew = true -> forall nm c, ~ edge (md_nodes s) parent nm c) ->
  walked cx x parent isNew names fresh s.
Proof.
  induction names as [|name names IH]; intros parent isNew fresh s n pn C1 Hok Hplain En Ht Ep Hd Hne Hlen Hnd Hfresh Hnew; [done|].
  destruct (decide (names = [])) as [->|Hnames]; [by eapply walk_last|].
  destruct (if isNew then None else FsTree.lookup (md_nodes s) parent name) as [y|] eqn:El.
  - destruct isNew; [done|]. destruct (look_edge _ _ _ _ _ Hok El) as [_ [yn Ey]]. destruct (is_dir yn) eqn:Hyd.
    + eapply walk_into; try done. destruct names as [|name' names]; [done|]. cbn [spared] in Hplain. rewrite El in Hplain.
      by eapply (IH y false fresh s n yn); try done; simpl in Hlen |- *; lia.
    + left. split; [done|]. eexists. destruct names as [|name' names]; [done|]. set (ns := name' :: names) in *. cbn [undel_walk]. unfold ns at 1. cbn iota.
      run. unfold look. run. rewrite El. run. rewrite (node_run _ _ _ Ey). run. by rewrite Hyd.
  - destruct fresh as [|y fresh]; [destruct names; [done|]; simpl in Hlen; lia|]. apply NoDup_cons in Hnd as [Hy Hnd].
    assert (isNew = true \/ FsTree.lookup (md_nodes s) parent name = None) as Hnone by (destruct isNew; tauto).
    assert (isNameUsed (md_nodes s) parent name = false) as Hfree.
    { apply (name_used goals root no_debt); [apply Hok|]. destruct Hnone as [Hn|Hn]; [intros c; by apply Hnew|].
      apply (lookup_no_edge goals root no_debt); [apply Hok|done]. }
    destruct (Hfresh y) as [Ey Hu]; [set_solver|]. assert (acl_ (md_acls s) !! parent = None) as Hlist.
    { destruct isNew; [done|]. destruct names as [|name' names]; [done|]. cbn [spared] in Hplain. by rewrite El in Hplain. }
    destruct (undel_directory s parent name pn y (ts cx) Hok Hlist Ep Hd Hfree Ey Hu)
      as (s' & yn & Ec & Hok' & Hplain' & Eyn & Hyd & He & Hno & L & Hother & D & Ea).
    destruct L as [L1 L2]. destruct (L1 x n En) as (n' & En' & Ht' & _).
    eapply walk_make; try done. apply (IH y true fresh (increaseMetadataVersion s') n' yn); try done; [by apply increase_ok|congruence|simpl in Hlen; lia|].
    intros z Hz. destruct (Hfresh z) as [Ez Huz]; [set_solver|]. split; [|done]. apply Hother; [set_solver|done].
Qed.

Lemma segments_nonempty path : segments path <> [].
Proof. destruct path as [|c path]; [done|]. simpl. destruct (c =? 47); [done|]. by destruct (segments path). Qed.

(** A file in the trash has a path. *)
Lemma trash_entry s x n :
  meta_ok s -> md_nodes s !! x = Some n -> node_type n = kTrash -> exists path, stored_path n s = Some path.
Proof.
  intros Hok En Ht. assert (where_of n = Some (inl (key_of n))) as Hw by (unfold where_of; by rewrite Ht).
  destruct (holds_split _ _ x n _ (tree_ids _ _ (mo_tree _ _ Hok)) (mo_detached _ _ Hok) En Hw) as (h & i & L & K & _).
  apply keeps_lookup_trash in K as [K _]. unfold stored_path. rewrite Ht, K. by eexists.
Qed.

Lemma undel_node_walk cx x fresh s n path :
  md_nodes s !! x = Some n -> stored_path n s = Some path ->
  undel_node goals cx x fresh s =
    if validateTrashPath path then undel_walk goals cx x root false (segments (skip_slashes path)) fresh s else Some (inl ERROR_CANTCREATEPATH, s, []).
Proof.
  intros En Hp. unfold undel_node. run. rewrite (node_run _ _ _ En). run. rewrite Hp. run. destruct (validateTrashPath path); [|done].
  by destruct (undel_walk _ _ _ _ _ _ _ _) as [[[? ?] ?]|].
Qed.

(** Numbers for the directories that may be missing. *)
Record supplied (fresh : list Z) (s : Metadata) : Prop := MkSupplied {
  su_distinct : NoDup fresh;
  su_new : forall y, y ∈ fresh -> md_nodes s !! y = None /\ is_uint 32 y;
  su_enough : forall x n path, md_nodes s !! x = Some n -> stored_path n s = Some path ->
    (length (segments (skip_slashes path)) <= S (length fresh))%nat;
}.

(** The directories that undel() makes inherit no list, those of a shadow do. *)
Definition no_list_above (cx : Context) (inode : Z) (s : Metadata) : Prop := forall x n path,
  candidate cx inode s = Some (inr x, s, []) -> md_nodes s !! x = Some n -> stored_path n s = Some path ->
  spared s root (segments (skip_slashes path)).

Lemma undel_served cx u g inode fresh s :
  serving cx u g -> meta_ok s -> no_list_above cx inode s -> supplied fresh s -> served (undel goals cx inode fresh) s.
Proof.
  intros [C1 C2 C3 C4] Hok Hplain [F1 F2 F3]. unfold undel. read_session. read_node x n Hx En Hf. read_at En. read_require Htr.
  pose proof Htr as Ht. apply bool_decide_eq_true in Ht. destruct (trash_entry s x n Hok En Ht) as [path Hpath].
  pose proof (undel_node_walk cx x fresh s n path En Hpath) as Eu.
  destruct (validateTrashPath path) eqn:Ev; [|left; eexists; unfold recorded; by rewrite Eu, C1].
  destruct (to_root _ _ _ _ (mo_tree _ _ Hok)) as (rn & Er & Hrd & _).
  destruct (walk_ok cx x (segments (skip_slashes path)) root false fresh s n rn) as [[_ [e E]]|(s1 & s2 & log & E & Hok1 & Hok2 & R & L & D & W)];
    try done; [by eapply Hplain|by eapply directory_is_dir|apply segments_nonempty|by apply (F3 x n)|left; exists e; unfold recorded; by rewrite Eu, E, C1|].
  right. exists tt, (increaseMetadataVersion s2), (log ++ [(ts cx, UNDEL x)]). split; [|done]. split; [|split; [by apply increase_ok|]].
  - unfold recorded. rewrite Eu, E. by rewrite changeLog_master.
  - destruct L as [L _]. destruct (L x n En) as (n1 & En1 & Ht1 & Hk1). assert (stored_path n1 s1 = Some path) as Hpath1.
    { unfold stored_path in *. rewrite Ht in Hpath. rewrite Ht1, Ht, D, Hk1 by done. done. }
    rewrite (replay_app goals log [(ts cx, UNDEL x)] s s1 R). cbn [replay_log restore_line]. unfold undel. run. unfold verifySession. cbn [session getForRestore]. run.
    rewrite (getNode_restore _ _ _ _ n1) by done. run. rewrite (node_run _ _ _ En1). run. rewrite Ht1, Htr. run.
    unfold recorded. rewrite (undel_node_walk _ _ _ _ n1 path) by done. by rewrite Ev, W.
Qed.

(** ** The cleaners *)

(** Rounds that each make a measure smaller and keep an invariant. *)
Lemma rounds_end (round : nat -> Op (option nat)) (measure : Metadata -> nat) (J : nat -> Metadata -> Prop) (Q : Metadata -> Prop) :
  (forall calls s, meta_ok s -> J calls s ->
     exists next s' log, round calls s = Some (inr next, s', log) /\ meta_ok s' /\ replay_log goals log s = Some s' /\
       match next with Some calls' => J calls' s' /\ (measure s' < measure s)%nat | None => Q s' end) ->
  forall fuel calls s, meta_ok s -> J calls s -> (measure s < fuel)%nat ->
  exists s' log, rounds round fuel calls s = Some (inr tt, s', log) /\ meta_ok s' /\ replay_log goals log s = Some s' /\ Q s'.
Proof.
  intros Hround. induction fuel as [|fuel IH]; intros calls s Hok HJ Hm; [lia|]. cbn [rounds]. run.
  destruct (Hround calls s Hok HJ) as ([calls'|] & s1 & log1 & E & Hok1 & R1 & H); rewrite E; run.
  - destruct H as [HJ1 Hlt]. destruct (IH calls' s1 Hok1 HJ1) as (s' & log & E' & Hok' & R' & HQ); [lia|]. rewrite E'.
    exists s', (log1 ++ log). split_and!; [done|done|by rewrite (replay_app goals log1 log s s1 R1)|done].
  - exists s1, log1. rewrite app_nil_r. done.
Qed.

Lemma first_key_spec keys :
  match first_key keys with None => keys = [] | Some k => k ∈ keys /\ forall k', k' ∈ keys -> k.1 <= k'.1 end.
Proof.
  induction keys as [|k keys IH]; [done|]. cbn [first_key foldr]. change (foldr _ None keys) with (first_key keys).
  destruct (first_key keys) as [k0|].
  - destruct IH as [Hin Hmin]. unfold key_before. destruct (Z.ltb_spec k0.1 k.1); cbn [orb].
    + split; [set_solver|]. intros k' [->|Hk]%elem_of_cons; [lia|by apply Hmin].
    + destruct (Z.eqb_spec k0.1 k.1), (k0.2 <? k.2); cbn [andb]; (split; [set_solver|]); intros k' [->|Hk]%elem_of_cons; try lia;
        specialize (Hmin k' Hk); lia.
  - rewrite IH. split; [set_solver|]. intros k' [->|?]%elem_of_cons; [lia|set_solver].
Qed.

Lemma first_of_spec xs : match first_of xs with None => xs = [] | Some x => x ∈ xs end.
Proof.
  induction xs as [|x xs IH]; [done|]. cbn [first_of foldr]. change (foldr _ None xs) with (first_of xs). destruct (first_of xs) as [y|]; [|set_solver].
  destruct (Z.min_spec x y) as [[_ ->]|[_ ->]]; set_solver.
Qed.

Lemma keys_elem `{Countable K} {A} (m : gmap K A) k : k ∈ (map_to_list m).*1 <-> is_Some (m !! k).
Proof.
  rewrite list_elem_of_fmap. split.
  - intros ([k' v] & -> & Hin). apply elem_of_map_to_list in Hin. eauto.
  - intros [v E]. exists (k, v). split; [done|]. by apply elem_of_map_to_list.
Qed.

(** An entry of the trash is that of a file. *)
Lemma trash_file s key h :
  meta_ok s -> trash (md_detached s) !! key = Some h -> exists n, md_nodes s !! key.2 = Some n /\ node_type n = kTrash /\ key_of n = key.
Proof.
  intros Hok E. destruct (mo_detached _ _ Hok) as (L & K & HL). assert (inl key ∈ (where_ <$> L)) as Hin.
  { destruct (decide (inl key ∈ (where_ <$> L))) as [|Hn]; [done|]. apply not_in_where in Hn. rewrite (kp_trash _ _ K) in E. congruence. }
  apply HL in Hin as (x & n & En & Hw). unfold where_of in Hw. destruct (node_type n) eqn:Ht; try done. injection Hw as <-. exists n.
  assert ((key_of n).2 = x) as -> by (exact (tree_ids goals _ (mo_tree _ _ Hok) x n En)). done.
Qed.

Lemma reserved_file s x h :
  meta_ok s -> reserved (md_detached s) !! x = Some h -> exists n, md_nodes s !! x = Some n /\ node_type n = kReserved.
Proof.
  intros Hok E. destruct (mo_detached _ _ Hok) as (L & K & HL). assert (inr x ∈ (where_ <$> L)) as Hin.
  { destruct (decide (inr x ∈ (where_ <$> L))) as [|Hn]; [done|]. apply not_in_reserved in Hn. rewrite (kp_reserved _ _ K) in E. congruence. }
  apply HL in Hin as (y & n & En & Hw). unfold where_of in Hw. destruct (node_type n) eqn:Ht; try done. injection Hw as Hw. exists n.
  assert (node_id n = y) as Hy by (exact (tree_ids goals _ (mo_tree _ _ Hok) y n En)). subst. done.
Qed.

Lemma delete_one `{Countable K} {A} (m : gmap K A) k v : m !! k = Some v -> base.size m = (1 + base.size (delete k m))%nat.
Proof.
  intros Hk. rewrite map_size_delete_Some by done. assert (base.size m <> 0)%nat; [|lia]. intros E. apply map_size_empty_inv in E. by subst.
Qed.

Definition none_expired (timeStamp : Z) (s : Metadata) : Prop := forall key h, trash (md_detached s) !! key = Some h -> timeStamp <= key.1.

(** [k] entries of the trash were removed, all of them expired. *)
Definition trash_removed (timeStamp : Z) (s : Metadata) (k : nat) (s' : Metadata) : Prop :=
  (forall key, timeStamp <= key.1 -> trash (md_detached s') !! key = trash (md_detached s) !! key) /\
  trash (md_detached s') ⊆ trash (md_detached s) /\
  base.size (trash (md_detached s)) = (k + base.size (trash (md_detached s')))%nat.

Lemma trash_round expired timeStamp calls s :
  meta_ok s ->
  (empty_trash_round goals expired timeStamp calls s = Some (inr None, s, []) /\ none_expired timeStamp s) \/
  (exists s' log, empty_trash_round goals expired timeStamp calls s = Some (inr (if expired calls then None else Some (S calls)), s', log) /\
     meta_ok s' /\ replay_log goals log s = Some s' /\ trash_removed timeStamp s 1 s').
Proof.
  intros Hok. unfold empty_trash_round. run. pose proof (first_key_spec (map_to_list (trash (md_detached s))).*1) as Hfirst.
  destruct (first_key _) as [key|].
  2: { left. split; [done|]. intros key h E. assert (key ∈ (map_to_list (trash (md_detached s))).*1) as Hin by (apply keys_elem; eauto).
       rewrite Hfirst in Hin. set_solver. }
  destruct Hfirst as [Hin Hmin]. apply keys_elem in Hin as [h Eh]. destruct (Z.ltb_spec key.1 timeStamp); run.
  2: { left. split; [done|]. intros key' h' E'. specialize (Hmin key' ltac:(apply keys_elem; eauto)). lia. }
  right. destruct (trash_file s key h Hok Eh) as (n & En & Ht & Hk). rewrite En. run. rewrite bool_decide_true by done. run.
  destruct (purge_trash goals s key.2 n timeStamp Hok En Ht) as (r & s' & E & Hok' & Htr). rewrite E. cbn [fmap option_fmap option_map snd]. run.
  assert (node_id n = key.2) as -> by (exact (tree_ids goals _ (mo_tree _ _ Hok) _ n En)).
  rewrite changeLog_master by done. run. eexists _, _. split; [done|]. split; [by apply increase_ok|]. split.
  - cbn [replay_log getForMaster ts]. by rewrite (purge_restored goals s key.2 n timeStamp r s').
  - unfold trash_removed. cbn [increaseMetadataVersion md_detached]. rewrite Htr, Hk. split_and!.
    + intros key' Hk'. apply lookup_delete_ne. intros ->. lia.
    + apply delete_subseteq.
    + by eapply delete_one.
Qed.

(** All sessions of a reserved file are closed; the last one removes it. *)
Lemma release_all_ok timeStamp x ses : forall s n len ch,
  meta_ok s -> md_nodes s !! x = Some n -> node_type n = kReserved -> file_of n = Some (len, ses, ch) -> ses <> [] ->
  exists s' log, release_all goals timeStamp x ses s = Some (inr tt, s', log) /\ meta_ok s' /\ replay_log goals log s = Some s' /\
    reserved (md_detached s') = delete x (reserved (md_detached s)) /\ trash (md_detached s') = trash (md_detached s).
Proof.
  induction ses as [|sid ses IH]; intros s n len ch Hok En Ht Hf Hne; [done|].
  assert (existsb (Z.eqb sid) (sid :: ses) = true) as Hin by (simpl; by rewrite Z.eqb_refl).
  assert (is_file n = true) as Hfile by (unfold is_file; by rewrite Ht).
  destruct (release_runs goals s x n len (sid :: ses) ch sid timeStamp Hok En Hf Hin) as (s1 & E & Hok1 & Hlast). cbv zeta in E, Hlast.
  assert (erase_first (Z.eqb sid) (sid :: ses) = ses) as Her by (simpl; by rewrite Z.eqb_refl).
  pose proof (release_done goals (getForMaster timeStamp) s x n len _ ch sid s1 En Hfile Hf Hin E) as Em.
  pose proof (release_done goals (getForRestore timeStamp) s x n len _ ch sid s1 En Hfile Hf Hin E) as Er. cbn [getForMaster getForRestore isPersonalityMaster ts] in Em, Er.
  rewrite Her in E, Hlast. cbn [release_all]. rewrite Em. destruct (decide (ses = [])) as [->|Hses].
  - destruct (Hlast Ht eq_refl) as (_ & Hres & Htr). cbn [release_all]. run. eexists _, _. split; [done|]. split; [by apply increase_ok|].
    split; [cbn [replay_log restore_line]; by rewrite Er|done].
  - rewrite (bool_decide_false (ses = [])), andb_false_r in E by done. injection E as <-. set (n' := with_file n len ses ch) in *.
    destruct (IH (increaseMetadataVersion (put_node x n' s)) n' len ch) as (s' & log & E' & Hok' & R' & Hres & Htr); try done; [by apply increase_ok|apply lookup_insert_eq|].
    rewrite E'. eexists _, _. split; [done|]. split; [done|]. split; [|done]. cbn [app replay_log restore_line]. by rewrite Er.
Qed.

(** [k] reserved files were closed. *)
Definition reserved_removed (s : Metadata) (k : nat) (s' : Metadata) : Prop :=
  trash (md_detached s') = trash (md_detached s) /\ reserved (md_detached s') ⊆ reserved (md_detached s) /\
  base.size (reserved (md_detached s)) = (k + base.size (reserved (md_detached s')))%nat.

Lemma reserved_round expired timeStamp calls s :
  meta_ok s ->
  (empty_reserved_round goals expired timeStamp calls s = Some (inr None, s, []) /\ (reserved (md_detached s) = ∅ \/ expired calls = true)) \/
  (exists s' log, empty_reserved_round goals expired timeStamp calls s = Some (inr (Some (S calls)), s', log) /\ expired calls = false /\
     meta_ok s' /\ replay_log goals log s = Some s' /\ reserved_removed s 1 s').
Proof.
  intros Hok. unfold empty_reserved_round. run. pose proof (first_of_spec (map_to_list (reserved (md_detached s))).*1) as Hfirst.
  destruct (first_of _) as [x|].
  2: { left. split; [done|]. left. apply map_eq. intros x. rewrite lookup_empty. apply eq_None_not_Some. intros Hx. apply keys_elem in Hx.
       rewrite Hfirst in Hx. set_solver. }
  destruct (expired calls) eqn:Ex; [left; split; [done|by right]|].
  apply keys_elem in Hfirst as [h Eh]. right. destruct (reserved_file s x h Hok Eh) as (n & En & Ht). run. rewrite En. run.
  rewrite bool_decide_true by done. run. destruct (so_open _ _ (mo_status _ _ Hok x n En) Ht) as (len & ses & ch & Hf & Hses). rewrite Hf. run.
  rewrite bool_decide_false by done. run. assert (node_id n = x) as -> by (exact (tree_ids goals _ (mo_tree _ _ Hok) _ n En)).
  destruct (release_all_ok timeStamp x ses s n len ch Hok En Ht Hf Hses) as (s' & log & E & Hok' & R & Hres & Htr). rewrite E. run.
  eexists s', _. split; [done|]. split; [done|]. split; [done|]. rewrite app_nil_r. split; [done|].
  unfold reserved_removed. rewrite Hres. split_and!; [done|apply delete_subseteq|by eapply delete_one].
Qed.

End trash.
