(* ===== verification/FsServeAttr.v ===== *)
(** The operations of FsAttrOps.v, served as in FsServe.v. *)
From S2P Require Import Prelude Serialization RichACL AclMasks AclPosix AclStorage Nodes FileSize NodeAcl Trash.
From S2P Require Import Quota FsTree FsTreeInv FsTreeNodes FsTreeEdges DirQuota FsMeta FsMetaInv FsCreate.
From S2P Require Import FsMetaSteps FsMetaFields FsOps FsAttrOps FsRestore FsOpsRead FsReplay FsServe Tasks.
From S2P Require Import AclText FsKinds FsKindsOps.

Section attr.
Context (goals : Z -> Goals.Goal).
Notation root := SPECIAL_INODE_ROOT.
Notation meta_ok := (meta_ok goals).
Notation served := (served goals).

(** ** Access control lists *)

(** A change of the list of a node ends, and the node changes in its mode and its ctime only. *)
Definition fair (change : FSNode -> AclStorage -> option (NodeAcl.status * FSNode * AclStorage)) : Prop :=
  forall s m x n, consistent s m -> st_nodes s !! x = Some n ->
    exists a n' acls', change n (st_acls s) = Some (a, n', acls') /\
      (exists m', consistent (MkState (<[x := n']> (st_nodes s)) acls') m') /\ quiet goals n (NodeAcl.set_ctime n' (node_ctime n)).

Lemma same_but_mode_quiet n n' : same_but_mode n n' -> quiet goals n (NodeAcl.set_ctime n' (node_ctime n)).
Proof. intros [mode ->]. by split. Qed.

Lemma fair_intro change :
  (forall s m x n, consistent s m -> st_nodes s !! x = Some n -> goes_well s x (change n (st_acls s))) ->
  (forall n acls a n' acls', change n acls = Some (a, n', acls') -> same_but_mode n n') -> fair change.
Proof.
  intros H1 H2 s m x n Hm En. destruct (H1 s m x n Hm En) as (a & n' & acls' & E & H). exists a, n', acls'. split; [done|].
  split; [done|]. eapply same_but_mode_quiet, H2, E.
Qed.

Lemma setAcl_fair acl t : fair (fun n st => NodeAcl.setAcl n acl t st).
Proof. apply fair_intro; [intros; by eapply setAcl_ok|apply setAcl_same]. Qed.

Lemma setPosixAcl_fair type acl t : fair (fun n st => setPosixAcl n type acl t st).
Proof. apply fair_intro; [intros; by eapply setPosixAcl_ok|apply setPosixAcl_same]. Qed.

Lemma deleteAcl_fair type t : fair (fun n st => NodeAcl.deleteAcl n type t st).
Proof. apply fair_intro; [intros; by eapply deleteAcl_ok|apply deleteAcl_same]. Qed.

Lemma change_acl_ok change x n t s :
  fair change -> meta_ok s -> md_nodes s !! x = Some n ->
  (exists e, change_acl change x t s = Some (inl e, s, [])) \/
  (exists s', change_acl change x t s = Some (inr tt, s', []) /\ meta_ok s').
Proof.
  intros Hf Hok En. destruct (mo_acls _ _ Hok) as [m Hm]. destruct (Hf _ m x n Hm En) as (a & n' & acls & E & [m' Hm'] & Hq).
  cbn [st_nodes st_acls] in *. unfold change_acl. run. rewrite (node_run _ _ _ En). run. rewrite E. cbn iota beta.
  destruct a; [right|left; eexists; by run..]. run. set (n1 := NodeAcl.set_ctime n' (node_ctime n)) in *.
  assert (meta_ok (put_node x n1 (set_acls s acls))) as Hok1.
  { apply (quiet_ok goals s x n n1 acls); try done. rewrite <-(insert_insert_eq (md_nodes s) x n1 n').
    eapply put_consistent; [by eexists|by rewrite lookup_insert_eq|done]. }
  destruct (updateCTime_ok goals _ x n1 t Hok1) as (s2 & E2 & Hok2 & _); [apply lookup_insert_eq|]. exists s2. by rewrite E2.
Qed.

Lemma acl_served cx u g inode change (e : Z -> LogEntry) s :
  serving cx u g -> meta_ok s -> fair change ->
  (forall x n s', md_nodes s !! x = Some n -> change_acl change x (ts cx) s = Some (inr tt, s', []) ->
     restore_line goals (ts cx) (e x) s = Some (inr tt, increaseMetadataVersion s', [])) ->
  served (_ ← verifySession ReadWrite cx NotMeta; x ← getNodeForOperation cx ExpectAny MODE_MASK_EMPTY inode;
          recorded cx (e x) (change_acl change x (ts cx))) s.
Proof.
  intros [C1 C2 C3 C4] Hok Hf R. read_session. read_node x n Hx En Ht.
  destruct (change_acl_ok change x n (ts cx) s Hf Hok En) as [[err E]|(s' & E & Hok')].
  - left. exists err. unfold recorded. by rewrite E, C1.
  - eapply (served_one goals _ s tt (increaseMetadataVersion s') (ts cx) (e x)); [|by apply increase_ok|by eapply R].
    unfold recorded. by rewrite E, changeLog_master.
Qed.

Lemma setRichAcl_served cx u g inode acl s :
  serving cx u g -> meta_ok s -> AclText.fromString (AclText.toString acl) = Some acl -> served (setRichAcl cx inode acl) s.
Proof.
  intros Hcx Hok Hp. eapply (acl_served cx u g inode _ (fun x => SETRICHACL x _)); [done|done|apply setAcl_fair|].
  intros x n s' En E. cbn [restore_line]. unfold applySetRichAcl, next_version. rewrite Hp. run. rewrite En. run. rewrite E. by run.
Qed.

Lemma setAcl_served cx u g inode type acl s :
  serving cx u g -> meta_ok s -> PosixText.fromString (PosixText.toString acl) = Some acl -> served (setAcl_op cx inode type acl) s.
Proof.
  intros Hcx Hok Hp. eapply (acl_served cx u g inode _ (fun x => SETACL x _ _)); [done|done|apply setPosixAcl_fair|].
  intros x n s' En E. cbn [restore_line]. unfold applySetAcl, next_version. rewrite Hp. run. rewrite En. destruct type; run; try by rewrite E.
  unfold change_acl in E. revert E. run. by rewrite (node_run _ _ _ En).
Qed.

Lemma deleteAcl_served cx u g inode type s : serving cx u g -> meta_ok s -> served (deleteAcl_op cx inode type) s.
Proof.
  intros Hcx Hok. eapply (acl_served cx u g inode _ (fun x => DELETEACL x type)); [done|done|apply deleteAcl_fair|].
  intros x n s' En E. cbn [restore_line]. unfold deleteAcl_op. run. unfold verifySession. cbn [session getForRestore]. run.
  rewrite (getNode_restore _ _ _ _ n) by done. run. unfold recorded. cbn [ts getForRestore]. by rewrite E.
Qed.

(** ** Quotas *)

Lemma used_limit_set db t id rigor r v t' id' r' :
  rigor <> kUsed -> used_by (quota_set db t id rigor r v) t' id' r' = used_by db t' id' r'.
Proof.
  intros Hr. unfold used_by, quota_set, quota_entry, QuotaDatabase in *. destruct (decide ((t, id) = (t', id'))) as [[= <- <-]|Hne].
  - rewrite lookup_insert_eq. simpl. destruct (default no_limits _), rigor; try done.
  - by rewrite lookup_insert_ne.
Qed.

Lemma used_removeEmpty db t id t' id' r' : used_by (quota_removeEmpty db t id) t' id' r' = used_by db t' id' r'.
Proof.
  unfold quota_removeEmpty, used_by, quota_entry, QuotaDatabase in *. destruct (db !! (t, id)) as [l|] eqn:E; [|done].
  destruct (decide (l = no_limits)) as [->|]; [|done]. destruct (decide ((t, id) = (t', id'))) as [[= <- <-]|Hne]; [by rewrite lookup_delete_eq, E|by rewrite lookup_delete_ne].
Qed.

Lemma quota_books c db e nodes : q_rigor e <> kUsed -> books goals c db nodes -> books goals c (apply_entry db e) nodes.
Proof.
  intros He [B1 B2]. split; [done|]. intros t id r Ht. unfold apply_entry. rewrite used_removeEmpty, used_limit_set by done. by apply B2.
Qed.

Lemma quotas_ok entries : forall s,
  Forall (fun e => q_rigor e <> kUsed) entries -> meta_ok s -> meta_ok (set_quota s (foldl apply_entry (md_quota s) entries)).
Proof.
  induction entries as [|e entries IH]; intros s H Hok; [by destruct s|]. inversion H as [|? ? He Hr]; subst.
  apply (IH (set_quota s (apply_entry (md_quota s) e)) Hr).
  destruct Hok as [H1 H2 H3 H4 H5]. split; simpl; try done. by apply quota_books.
Qed.

Definition bump_version (k : nat) (s : Metadata) : Metadata := Nat.iter k increaseMetadataVersion s.

Lemma bump_version_ok k s : meta_ok s -> meta_ok (bump_version k s).
Proof. intros Hok. induction k; [done|]. by apply increase_ok. Qed.

Lemma record_quotas_run cx rs : forall s,
  isPersonalityMaster cx = true ->
  record_quotas cx rs s = Some (inr tt, bump_version (length rs) s, (fun r => (ts cx, SETQUOTA r)) <$> rs).
Proof.
  induction rs as [|r rs IH]; intros s C1; [done|]. cbn [record_quotas]. run. rewrite changeLog_master by done. run. rewrite IH by done.
  unfold bump_version. cbn [length]. by rewrite Nat.iter_succ_r.
Qed.

Lemma replay_quotas t entries : forall s,
  Forall (fun e => q_rigor e <> kUsed) entries ->
  replay_log goals ((fun r => (t, SETQUOTA r)) <$> (record_of <$> entries)) s
    = Some (bump_version (length entries) (set_quota s (foldl apply_entry (md_quota s) entries))).
Proof.
  induction entries as [|e entries IH]; intros s H; [by destruct s|]. inversion H as [|? ? He Hr]; subst. cbn [fmap list_fmap replay_log restore_line].
  unfold applySetQuota, next_version. run. assert (fs_apply_setquota (record_of e) (md_quota s) = (QOK, apply_entry (md_quota s) e)) as ->.
  { destruct e as [[] id [] [] limit]; done. }
  run. unfold list_fmap in IH. rewrite IH by done. unfold bump_version. cbn [length]. by rewrite Nat.iter_succ_r.
Qed.

Lemma quotaSet_served cx u g entries s :
  serving cx u g -> is_Some (session cx) -> meta_ok s -> Forall (fun e => q_rigor e <> kUsed) entries -> served (quotaSet cx entries) s.
Proof.
  intros [C1 C2 C3 C4] [ses Hses] Hok He. unfold quotaSet, fs_quota_set. rewrite Hses, C3.
  eapply ends_read; [by apply reading_reads|]. intros ? ->. eapply ends_read; [by apply reading_reads|]. intros ? ->.
  eapply ends_read; [by apply reading_reads|]. intros ? ->. cbn beta iota.
  destruct (negb _); [apply served_throw|]. destruct (_ && _); [apply served_throw|]. destruct (existsb _ entries); [apply served_throw|].
  right. eexists _, _, _. split; [|done]. split; [run; by rewrite record_quotas_run|]. rewrite length_fmap.
  split; [by apply bump_version_ok, quotas_ok|by apply replay_quotas].
Qed.

(** ** Times of access *)

Lemma atime_served {A} disabled cx x n (r : A) s :
  isPersonalityMaster cx = true -> meta_ok s -> md_nodes s !! x = Some n -> served (_ ← fs_update_atime disabled cx x; mret r) s.
Proof.
  intros C1 Hok En. destruct (negb disabled && negb (node_atime n =? ts cx)) eqn:Ha.
  - assert (node_id n = x) as Hid by (by eapply (tree_ids goals); [apply Hok|]).
    assert (meta_ok (put_node x (with_atime n (ts cx)) s)) as Hok' by (eapply quiet_same; [done|done|apply quiet_atime|done]).
    eapply (served_one goals _ s _ _ (ts cx) (ACCESS x)); [|by apply increase_ok; exact Hok'|].
    + unfold fs_update_atime. run. rewrite (node_run _ _ _ En). run. rewrite Ha. run. rewrite changeLog_master, Hid by done. by run.
    + cbn [restore_line]. unfold applyAccess, next_version. run. rewrite En. by run.
  - eapply served_none; [|done]. unfold fs_update_atime. run. rewrite (node_run _ _ _ En). run. rewrite Ha. by run.
Qed.

Lemma readlink_served disabled cx u g inode s : serving cx u g -> meta_ok s -> served (readlink disabled cx inode) s.
Proof.
  intros [C1 C2 C3 C4] Hok. unfold readlink. read_session. read_node x n Hx En Hf. read_at En. read_require Ht.
  apply bool_decide_eq_true in Ht. pose proof (tree_typed goals _ _ _ (mo_tree _ _ Hok) En) as Hty. unfold well_typed in Hty. rewrite Ht in Hty.
  destruct (node_data n); try done. eapply ends_read; [by apply reading_reads|]. intros ? ->. by eapply atime_served.
Qed.

Lemma readChunk_served disabled t inode index s : meta_ok s -> served (readChunk disabled t inode index) s.
Proof.
  intros Hok. unfold readChunk. eapply ends_read; [by apply reading_reads|]. intros ? ->. destruct (md_nodes s !! inode) as [n|] eqn:En; [|apply served_throw].
  read_require Hfile. read_require Hi. destruct (file_type_data n (tree_typed goals _ _ _ (mo_tree _ _ Hok) En) Hfile) as (len & ses & ch & Ed).
  assert (file_of n = Some (len, ses, ch)) as Hf by (unfold file_of; by rewrite Ed). rewrite Hf.
  eapply ends_read; [by apply reading_reads|]. intros ? ->. cbn beta iota. by eapply atime_served.
Qed.

End attr.
