(* ===== verification/FsServeTasks.v ===== *)
(** The steps of jobs (Tasks.v), served as in FsServe.v: every step of every waiting task ends, keeps the invariant and is
    followed by a shadow, and the tasks that are left are fit for the next step. *)
From S2P Require Import Prelude Serialization RichACL AclMasks AclStorage Nodes FileSize NodeAcl Trash Quota.
From S2P Require Import FsTree FsTreeInv FsTreeNodes FsTreeEdges DirQuota FsMeta FsMetaInv FsCreate FsMetaSteps.
From S2P Require Import FsMetaFields FsOps FsAttrOps FsRestore FsOpsRead FsReplay FsServe Tasks FsKinds FsKindsOps.

(** ** The numbers of paths in the trash *)

Lemma getOrAdd_counter d h : counter (getOrAdd d h).2 <= counter d + 1.
Proof. unfold getOrAdd. destruct (_ !! _); simpl; [lia|]. destruct (_ <=? _); lia. Qed.

Lemma addTrashEntry_counter d x c t path d' : addTrashEntry d x c t path = Some d' -> counter d' <= counter d + 1.
Proof.
  unfold addTrashEntry. cbn [new_handle]. intros H. apply bind_Some in H as (h & _ & H).
  match type of H with context [getOrAdd ?d ?h] => pose proof (getOrAdd_counter d h) as Hc; destruct (getOrAdd d h) as [i d2] end.
  injection H as <-. exact Hc.
Qed.

Lemma addReservedEntry_counter d x path d' : addReservedEntry d x path = Some d' -> counter d' <= counter d + 1.
Proof.
  unfold addReservedEntry. cbn [new_handle]. intros H. apply bind_Some in H as (h & _ & H).
  match type of H with context [getOrAdd ?d ?h] => pose proof (getOrAdd_counter d h) as Hc; destruct (getOrAdd d h) as [i d2] end.
  injection H as <-. exact Hc.
Qed.

Lemma removeNode_detached goals t x s s' : removeNode goals t x s = Some s' -> md_detached s' = md_detached s.
Proof.
  unfold removeNode. intros H. apply bind_Some in H as (n & En & H). split_if H; [by injection H as <-|].
  apply bind_Some in H as (acls & _ & H). apply bind_Some in H as (s1 & H1 & [= <-]).
  cbn [md_detached set_nodes set_quota nodeQuotaUpdate call].
  destruct (is_file n); [apply bind_Some in H1 as ([[? ?] ?] & _ & [= <-])|injection H1 as <-]; destruct (is_dir n), (bool_decide _); done.
Qed.

Lemma unlink_counter goals t p name c s s' : unlink goals t p name c s = Some s' -> counter (md_detached s') <= counter (md_detached s) + 1.
Proof.
  unfold unlink. intros H. apply bind_Some in H as (cn0 & _ & H). apply bind_Some in H as (path & _ & H).
  apply bind_Some in H as (nodes & E & H). apply bind_Some in H as (cn & En & H). split_if H; [injection H as <-; simpl; lia|].
  split_if H; [|apply removeNode_detached in H; rewrite H; simpl; lia].
  apply bind_Some in H as ([[len ses] ch] & _ & H). split_if H; [|split_if H; [|apply removeNode_detached in H; rewrite H; simpl; lia]];
    apply bind_Some in H as (d & Hd & [= <-]); [by apply addTrashEntry_counter in Hd|by apply addReservedEntry_counter in Hd].
Qed.

Lemma updateTrash_counter d k k' : counter (updateTrashFromOldEntry d k k') = counter d.
Proof. unfold updateTrashFromOldEntry. by destruct (trash d !! k). Qed.

Lemma setTrashtime_counter uid v m x t s r s' : setTrashtime uid v m x t s = Some (r, s') -> counter (md_detached s') = counter (md_detached s).
Proof.
  unfold setTrashtime. intros H. apply bind_Some in H as (n & En & H). split_if H; [|by injection H as <- <-].
  split_if H; [by injection H as <- <-|]. split_if H; [|by injection H as <- <-]. apply bind_Some in H as (s1 & H & [= <- <-]).
  split_if H; [unfold updateCTimeForTrashNode in H|unfold updateCTime in H]; apply bind_Some in H as (n1 & En1 & H).
  - injection H as <-. apply updateTrash_counter.
  - split_if H; [destruct (trash _ !! _)|]; injection H as <-; try done. apply updateTrash_counter.
Qed.

(** ** Tasks that can be executed *)

Definition removable (s : Metadata) (t : RemoveTask) : Prop :=
  subtask_ t <> [] /\ (exists u g, serving (context_ t) u g) /\ is_Some (session (context_ t)) /\
  (forall b, shape (md_nodes s) !! parent_ t = Some b -> b = true).

Definition settable (t : SetTrashtimeTask) : Prop := inode_list_ t <> [] /\ SMODE_ISVALID (smode_ t) = true.

Definition task_ok (s : Metadata) (t : AnyTask) : Prop := match t with inl t => removable s t | inr t => settable t end.

Definition job_ok (s : Metadata) (j : Job AnyTask) : Prop := Forall (task_ok s) (tasks_ j).

(** What [k] steps may change. *)
Definition stepped (k : Z) (s s' : Metadata) : Prop := kinds_kept s s' /\ counter (md_detached s') <= counter (md_detached s) + k.

Lemma stepped_refl s : stepped 0 s s.
Proof. split; [done|lia]. Qed.

Lemma stepped_trans k l s1 s2 s3 : stepped k s1 s2 -> stepped l s2 s3 -> stepped (k + l) s1 s3.
Proof. intros [K1 C1] [K2 C2]. split; [by etransitivity|lia]. Qed.

Lemma stepped_le k l s s' : stepped k s s' -> k <= l -> stepped l s s'.
Proof. intros [K C] H. split; [done|lia]. Qed.

Lemma task_ok_kept s s' t : kinds_kept s s' -> task_ok s t -> task_ok s' t.
Proof. intros K. destruct t as [t|t]; [|done]. intros (H1 & H2 & H3 & H4). split_and!; try done. intros b Hb. eapply H4, lookup_weaken; [exact Hb|exact K]. Qed.

Lemma job_ok_kept s s' j : kinds_kept s s' -> job_ok s j -> job_ok s' j.
Proof. intros K H. eapply Forall_impl; [exact H|]. intros t. by apply task_ok_kept. Qed.

Section tasks.
Context (goals : Z -> Goals.Goal).
Notation meta_ok := (meta_ok goals).

Lemma reading_retrieve t name s :
  meta_ok s -> removable s t ->
  reading (retrieveNodes t name) s (fun child => exists wd cn, md_nodes s !! parent_ t = Some wd /\ is_dir wd = true /\
    FsTree.lookup (md_nodes s) (parent_ t) name = Some child /\ md_nodes s !! child = Some cn).
Proof.
  intros Hok (_ & (u & g & [C1 C2 C3 C4]) & [ses Hses] & Hdir). unfold retrieveNodes.
  eapply reading_bind; [by apply reading_reads|]. intros ? ->. destruct (md_nodes s !! parent_ t) as [wd|] eqn:Ew; [|apply reading_throw].
  assert (dirlike wd = true) as Hw by (apply Hdir; unfold shape; by rewrite lookup_fmap, Ew). apply dirlike_spec in Hw. destruct Hw as [d Hd].
  destruct (access_runs goals s Hok (MkContext (sesflags ses) (user_uid u) (user_gids u)) (parent_ t) wd MODE_MASK_W Ew) as [b Eb].
  eapply reading_bind; [apply (reading_reads _ _ b); by rewrite Hses, C3|]. intros ? ->. eapply reading_bind; [apply reading_require|]. intros _ _.
  eapply reading_bind; [apply (reading_reads _ _ d); done|]. intros ? ->. eapply reading_bind; [apply reading_look|]. intros ? ->.
  destruct (FsTree.lookup _ _ _) as [child|] eqn:El; [|apply reading_throw]. destruct (look_edge goals _ _ _ _ Hok El) as [He [cn Ec]].
  eapply reading_bind; [by eapply reading_sticky|]. intros _ _. apply reading_ret. exists wd, cn. split_and!; try done.
  by eapply directory_is_dir.
Qed.

(** A step of a removal. *)
Lemma remove_step t timeStamp s :
  meta_ok s -> removable s t -> counter (md_detached s) < kMaxIdForTrashOrReservedName ->
  ends goals (remove_execute goals timeStamp t) s (fun r s' => stepped 1 s s' /\
    (remove_finished r.1 = false -> removable s' r.1) /\ Forall (removable s') r.2).
Proof.
  intros Hok Ht Hmax. pose proof Ht as (Hne & Hcx & Hses & Hdir). unfold remove_execute. destruct (subtask_ t) as [|name rest] eqn:Esub; [done|].
  eapply ends_read; [by apply reading_retrieve|]. intros child (wd & cn & Ew & Hw & El & Ec). read_at Ec. cbn beta.
  destruct (is_dir cn && negb (is_empty_dir cn)) eqn:Hfull.
  - read_require Hrep. right. eexists _, s, []. split; [split; [by run|done]|]. apply andb_true_iff in Hfull as [Hcd Hne2].
    split; [eapply stepped_le; [apply stepped_refl|lia]|]. split; [intros _; by split_and!|]. constructor; [|done].
    destruct (is_dir_directory goals s Hok child cn Ec Hcd) as [d Hd]. split_and!; try done.
    + unfold entry_names, is_empty_dir in *. rewrite Hd in *. destruct (entries d); [by rewrite bool_decide_true in Hne2|done].
    + unfold shape. rewrite lookup_fmap. simpl. rewrite Ec. intros b [= <-]. apply dirlike_spec. by eexists.
  - destruct (unlink_logged goals s (parent_ t) child name wd cn timeStamp Hok Ew Hw El Ec) as (s' & E & Hs' & Ea); [|done|].
    { intros Hcd. rewrite Hcd in Hfull. by destruct (is_empty_dir cn). }
    assert (kinds_kept s (increaseMetadataVersion s')) as K by (exact (unlink_kinds goals _ _ _ _ _ _ E)).
    eapply (ends_one goals); [|by apply increase_ok|exact Ea|].
    + run. rewrite changeLog_master by done. run. rewrite unlink_version, E. cbn [fmap option_fmap option_map]. by run.
    + split; [split; [done|]; exact (unlink_counter goals _ _ _ _ _ _ E)|]. split; [|done]. intros Hf. cbn [fst] in *.
      split_and!; try done; [by apply bool_decide_eq_false in Hf|]. intros b Hb. eapply Hdir, lookup_weaken; [exact Hb|exact K].
Qed.

(** A step of a change of trash times. *)
Lemma trashtime_step t timeStamp s :
  meta_ok s -> settable t ->
  ends goals (trashtime_execute timeStamp t) s (fun r s' => stepped 1 s s' /\
    (trashtime_finished r.1 = false -> settable r.1) /\ Forall settable r.2).
Proof.
  intros Hok [Hne Hmode]. unfold trashtime_execute. destruct (inode_list_ t) as [|inode rest] eqn:Elist; [done|].
  eapply ends_read; [by apply reading_reads|]. intros ? ->. destruct (md_nodes s !! inode) as [n|] eqn:En; [|apply ends_throw].
  destruct (setTrashtime_ok goals s (uid_ t) (trashtime_ t) (smode_of (smode_ t)) inode n timeStamp Hok En) as (r & s' & E & Hok' & Hsame).
  set (inodes := if is_dir n && has (smode_ t) SMODE_RMASK then getDirectoryChildInodes n else []).
  assert (stepped 1 s (increaseMetadataVersion s') /\ stepped 1 s s') as [K K0].
  { pose proof (setTrashtime_kinds _ _ _ _ _ _ _ _ E). apply setTrashtime_counter in E. split; (split; [done|]); simpl; lia. }
  assert (Forall settable (match inodes with [] => [] | _ => [MkSetTrashtime inodes (uid_ t) (trashtime_ t) (smode_ t)] end)) as Hp
    by (destruct inodes; [done|by constructor]).
  assert (trashtime_finished (MkSetTrashtime rest (uid_ t) (trashtime_ t) (smode_ t)) = false ->
    settable (MkSetTrashtime rest (uid_ t) (trashtime_ t) (smode_ t))) as Hs by (intros Hf; split; [by apply bool_decide_eq_false in Hf|done]).
  destruct (decide (r = kChanged)) as [->|Hr].
  - eapply (ends_one goals); [|by apply increase_ok; exact Hok'| |].
    + run. rewrite E. run. rewrite orb_true_r. run. rewrite bool_decide_true by done. rewrite changeLog_master by done. by run.
    + cbn [restore_line ts getForMaster]. unfold applySetTrashTime, next_version. run. rewrite Hmode. run. unfold verifySession. cbn [session getForRestoreWithUidGid]. run.
      rewrite (getNode_restore _ _ _ _ n) by done. run. rewrite (node_run _ _ _ En). run.
      assert (is_dir n || is_file n = true) as ->.
      { unfold setTrashtime in E. rewrite En in E. cbn [mbind option_bind] in E. rewrite orb_comm. by destruct (is_file n || is_dir n). }
      run. unfold uid_of. run. cbn [user getForRestoreWithUidGid fmap option_fmap option_map user_uid ts]. run. rewrite E. by run.
    + by split.
  - rewrite (Hsame Hr) in *. destruct (decide (r = kNoAction)) as [->|Hr2].
    + right. eexists _, s, []. split; [split; [run; rewrite E; by run|done]|]. by split.
    + destruct (has (smode_ t) SMODE_RMASK || negb (bool_decide (r = kNotPermitted))) eqn:Hperm.
      * right. eexists _, s, []. split; [split; [|done]|].
        { run. rewrite E. destruct r; try (by destruct Hr); try (by destruct Hr2); run; rewrite Hperm; run; rewrite bool_decide_false by done; by run. }
        by split.
      * left. exists ERROR_EPERM. run. rewrite E. destruct r; try done; run; rewrite Hperm; by run.
Qed.

(** ** The manager *)

(** An operation that always succeeds. *)
Definition going {A} (m : Op A) (s : Metadata) (Q : A -> Metadata -> Prop) : Prop :=
  exists r s' log, done_with goals m s r s' log /\ Q r s'.

Lemma going_ret {A} (x : A) s (Q : A -> Metadata -> Prop) : meta_ok s -> Q x s -> going (mret x) s Q.
Proof. intros Hok HQ. by exists x, s, []. Qed.

Lemma going_bind {A B} (m : Op A) (f : A -> Op B) s P Q :
  going m s P -> (forall x s1, meta_ok s1 -> P x s1 -> going (f x) s1 Q) -> going (m ≫= f) s Q.
Proof.
  intros (x & s1 & log1 & (E1 & Hok1 & R1) & HP) Hf. destruct (Hf x s1 Hok1 HP) as (y & s2 & log2 & (E2 & Hok2 & R2) & HQ).
  exists y, s2, (log1 ++ log2). split; [|done]. split_and!; [|done|by rewrite (replay_app goals _ _ _ _ R1)].
  rewrite op_bind_run, E1. by rewrite E2.
Qed.

Lemma going_weaken {A} (m : Op A) s (P Q : A -> Metadata -> Prop) : going m s P -> (forall x s1, P x s1 -> Q x s1) -> going m s Q.
Proof. intros (x & s1 & log & H & HP) HQ. exists x, s1, log. split; [done|]. by apply HQ. Qed.

Lemma going_served {A} (m : Op A) s Q : going m s Q -> served goals m s.
Proof. intros (r & s' & log & H & _). right. by exists r, s', log. Qed.

Lemma going_catch {A} (m : Op A) s (Q : A -> Metadata -> Prop) :
  meta_ok s -> ends goals m s Q -> going (catch m) s (fun r s' => match r with inl _ => s' = s | inr x => Q x s' end).
Proof.
  intros Hok [[e E]|(r & s' & log & (E & Hok' & R) & HQ)].
  - exists (inl e), s, []. split; [|done]. split; [|done]. unfold catch. by rewrite E.
  - exists (inr r), s', log. split; [|done]. split; [|done]. unfold catch. by rewrite E.
Qed.

Notation execute := (@execute AnyTask (any_task goals)).
Notation task_finished := (@task_finished AnyTask (any_task goals)).
Notation processTask := (@processTask AnyTask (any_task goals)).
Notation batch := (@batch AnyTask (any_task goals)).
Notation submitTask := (@submitTask AnyTask (any_task goals)).
Notation process_jobs := (@process_jobs AnyTask (any_task goals)).

Lemma ends_after {A B} (m : Op A) (f : A -> Op B) (g : A -> B) s (P : A -> Metadata -> Prop) (Q : B -> Metadata -> Prop) :
  ends goals m s P -> (forall x s1, f x s1 = Some (inr (g x), s1, [])) -> (forall x s1, P x s1 -> Q (g x) s1) -> ends goals (m ≫= f) s Q.
Proof.
  intros [[e E]|(r & s' & log & (E & Hok' & R) & HP)] Hf HQ; [left; exists e; by apply bind_error|right].
  exists (g r), s', log. split; [|by apply HQ]. split; [|done]. rewrite op_bind_run, E, Hf. by rewrite app_nil_r.
Qed.

(** What a step leaves: the task itself, when it is not finished, and the tasks that it put before it. *)
Definition left_over (s s' : Metadata) (r : AnyTask * list AnyTask) : Prop :=
  stepped 1 s s' /\ (task_finished r.1 = false -> task_ok s' r.1) /\ Forall (task_ok s') r.2.

Lemma execute_step ts t s :
  meta_ok s -> task_ok s t -> counter (md_detached s) < kMaxIdForTrashOrReservedName ->
  ends goals (execute ts t) s (fun r s' => left_over s s' r).
Proof.
  intros Hok Ht Hmax. destruct t as [t|t]; cbn [Tasks.execute any_task].
  - apply (ends_after _ _ (fun r => (inl r.1, inl <$> r.2)) s _ _ (remove_step t ts s Hok Ht Hmax)); [by intros []|].
    intros r s1 (K & Hf & Hp). split; [done|]. split; [done|]. by apply Forall_fmap.
  - apply (ends_after _ _ (fun r => (inr r.1, inr <$> r.2)) s _ _ (trashtime_step t ts s Hok Ht)); [by intros []|].
    intros r s1 (K & Hf & Hp). split; [done|]. split; [done|]. by apply Forall_fmap.
Qed.

(** A job that waits has tasks; the callback is called when the last one is gone. *)
Definition answered (j j' : Job AnyTask) (done : option fs_status) : Prop :=
  job_id j' = job_id j /\ (tasks_ j <> [] -> done = None <-> tasks_ j' <> []).

Lemma finalizeTask_ok s s' j pushed t rest :
  left_over s s' (t, pushed) -> Forall (task_ok s) rest -> tasks_ j <> [] ->
  let r := @finalizeTask AnyTask (any_task goals) j pushed t rest in job_ok s' r.1 /\ answered j r.1 r.2.
Proof.
  intros (K & Hf & Hp) Hr Hj. apply (Forall_impl _ (task_ok s')) in Hr; [|intros ?; by apply task_ok_kept, K].
  unfold finalizeTask. cbn [fst snd] in *. destruct (task_finished t) eqn:Ef; cbn [andb].
  - rewrite length_app. cbn [length]. destruct (Nat.leb_spec (length pushed + S (length rest)) 1) as [Hl|Hl]; cbn [fst snd finalize].
    + split; [constructor|]. split; [done|]. by split.
    + split; [by apply Forall_app|]. split; [done|]. intros _. split; [|done]. cbn [tasks_]. intros _ [-> ->]%app_nil. simpl in Hl. lia.
  - split; [apply Forall_app; split; [done|]; constructor; [by apply Hf|done]|]. split; [done|]. intros _. split; [|done]. cbn [tasks_ fst snd]. intros _. by destruct pushed.
Qed.

Lemma processTask_going ts j s :
  meta_ok s -> job_ok s j -> counter (md_detached s) < kMaxIdForTrashOrReservedName ->
  going (processTask ts j) s (fun r s' => stepped 1 s s' /\ job_ok s' r.1 /\ answered j r.1 r.2).
Proof.
  intros Hok Hj Hmax. unfold Tasks.processTask. destruct (tasks_ j) as [|t rest] eqn:Ej.
  - apply going_ret; [done|]. split; [apply (stepped_le 0 1); [apply stepped_refl|lia]|]. split; [done|]. split; [done|]. by rewrite Ej.
  - unfold job_ok in Hj. rewrite Ej in Hj. apply Forall_cons in Hj as [Ht Hr].
    eapply going_bind; [by apply going_catch, execute_step|]. intros [e|[t' pushed]] s1 Hok1 H.
    + subst s1. apply going_ret; [done|]. split; [apply (stepped_le 0 1); [apply stepped_refl|lia]|]. split; [constructor|]. by split.
    + apply going_ret; [done|]. split; [apply H|]. eapply finalizeTask_ok; [done..|]. by rewrite Ej.
Qed.

Lemma batch_going n ts : forall j s,
  meta_ok s -> job_ok s j -> counter (md_detached s) + Z.of_nat n <= kMaxIdForTrashOrReservedName ->
  going (batch n ts j) s (fun r s' => stepped (Z.of_nat n) s s' /\ job_ok s' r.1 /\ answered j r.1 r.2).
Proof.
  induction n as [|n IH]; intros j s Hok Hj Hmax; cbn [Tasks.batch].
  - apply going_ret; [done|]. split; [apply stepped_refl|]. split; [done|]. by split.
  - eapply going_bind; [apply processTask_going; [done..|lia]|]. intros [j1 d1] s1 Hok1 (K & Hj1 & Hid & Ha). cbn [fst snd] in *.
    destruct (job_finished j1) eqn:Ef.
    + apply going_ret; [done|]. split; [eapply stepped_le; [exact K|lia]|]. split; [done|]. by split.
    + assert (tasks_ j1 <> []) as Hne by (unfold job_finished in Ef; by destruct (tasks_ j1)).
      eapply going_weaken; [apply IH; [done..|destruct K; lia]|]. intros [j2 d2] s2 (K2 & Hj2 & Hid2 & Ha2). cbn [fst snd] in *.
      split; [eapply stepped_le; [by eapply stepped_trans|lia]|]. split; [done|]. split; [congruence|]. intros _. by apply Ha2.
Qed.

Definition manager_ok (s : Metadata) (tm : TaskManager AnyTask) : Prop := Forall (job_ok s) (job_list_ tm).

Lemma manager_ok_kept s s' tm : kinds_kept s s' -> manager_ok s tm -> manager_ok s' tm.
Proof. intros K H. eapply Forall_impl; [exact H|]. intros j. by apply job_ok_kept. Qed.

Lemma submitTask_going id ts n t tm s :
  meta_ok s -> task_ok s t -> manager_ok s tm -> counter (md_detached s) + Z.of_nat n <= kMaxIdForTrashOrReservedName ->
  going (submitTask id ts n t tm) s (fun r s' => stepped (Z.of_nat n) s s' /\ manager_ok s' r.2).
Proof.
  intros Hok Ht Hm Hmax. unfold Tasks.submitTask.
  eapply going_bind; [apply batch_going; [done|by repeat constructor|done]|]. intros [j d] s1 Hok1 (K & Hj & Hid & Ha). cbn [fst snd tasks_] in *.
  destruct d as [st|].
  - destruct (tasks_ j) as [|t1 ts1] eqn:Ej; [|by destruct (Ha ltac:(done)) as [_ Hn]; discriminate Hn].
    apply (going_bind _ _ s1 (fun _ s2 => s2 = s1)).
    { exists tt, s1, []. split; [|done]. split; [|done]. rewrite reads_run. unfold job_finished. by rewrite Ej. }
    intros _ s2 Hok2 ->. apply going_ret; [done|]. split; [done|]. by eapply manager_ok_kept; [apply K|].
  - apply going_ret; [done|]. split; [done|]. apply Forall_app. split; [by eapply manager_ok_kept; [apply K|]|]. by constructor.
Qed.

Lemma process_jobs_going n ts : forall k jobs s,
  meta_ok s -> Forall (job_ok s) jobs -> counter (md_detached s) + Z.of_nat n <= kMaxIdForTrashOrReservedName ->
  going (process_jobs n ts k jobs) s (fun r s' => stepped (Z.of_nat n) s s' /\ Forall (job_ok s') r.1).
Proof.
  induction n as [|n IH]; intros k jobs s Hok Hj Hmax; cbn [Tasks.process_jobs].
  { apply going_ret; [done|]. split; [apply stepped_refl|done]. }
  destruct (jobs !! k) as [j|] eqn:Ek; [|apply going_ret; [done|]; split; [eapply stepped_le; [apply stepped_refl|lia]|done]].
  pose proof (proj1 (Forall_lookup _ _) Hj k j Ek) as Hjk. destruct (job_finished j).
  - eapply going_weaken; [apply IH; [done|by apply Forall_delete|lia]|]. intros r s' [K H]. split; [eapply stepped_le; [exact K|lia]|done].
  - eapply going_bind; [apply processTask_going; [done..|lia]|]. intros [j1 d1] s1 Hok1 (K & Hj1 & _). cbn [fst snd] in *.
    eapply going_bind.
    + apply IH; [done| |destruct K; lia]. apply Forall_insert; [|done]. eapply Forall_impl; [exact Hj|]. intros j0. by apply job_ok_kept, K.
    + intros [jobs' answers] s2 Hok2 [K2 H2]. apply going_ret; [done|]. split; [|done]. eapply stepped_le; [by eapply stepped_trans|lia].
Qed.

Lemma processJobs_going ts n tm s :
  meta_ok s -> manager_ok s tm -> counter (md_detached s) + Z.of_nat n <= kMaxIdForTrashOrReservedName ->
  going (@processJobs AnyTask (any_task goals) ts n tm) s (fun r s' => stepped (Z.of_nat n) s s' /\ manager_ok s' r.1).
Proof.
  intros Hok Hm Hmax. unfold processJobs. eapply going_bind; [by apply process_jobs_going|]. intros [jobs answers] s1 Hok1 H. by apply going_ret.
Qed.

Lemma cancel_ok s id jobs : Forall (job_ok s) jobs -> Forall (job_ok s) (cancel id jobs).2.
Proof.
  induction 1 as [|j jobs Hj H IH]; cbn [cancel]; [constructor|]. destruct (job_id j =? id); [by repeat constructor|].
  destruct (cancel id jobs). by constructor.
Qed.

Lemma cancelJob_ok s id tm : manager_ok s tm -> manager_ok s (cancelJob id tm).2.
Proof. intros H. unfold cancelJob, manager_ok in *. apply (cancel_ok s id) in H. by destruct (cancel id (job_list_ tm)). Qed.

(** ** The requests *)

Lemma ends_going {A} (m : Op A) s Q : going m s Q -> ends goals m s Q.
Proof. intros (r & s' & log & H & HQ). right. by exists r, s', log. Qed.

Definition room (n : nat) (s : Metadata) : Prop := counter (md_detached s) + Z.of_nat n <= kMaxIdForTrashOrReservedName.

Lemma recursiveRemove_ends cx u g parent name job tm s :
  serving cx u g -> is_Some (session cx) -> meta_ok s -> manager_ok s tm -> room kInitialTaskBatchSize s ->
  ends goals (recursiveRemove goals cx parent name job tm) s (fun r s' => manager_ok s' r.2).
Proof.
  intros Hcx Hses Hok Hm Hroom. pose proof (sv_sensitive _ _ _ Hcx) as Hcase. unfold recursiveRemove. read_session. read_node x wd Hx Ew Hw.
  eapply ends_read; [apply reading_look|]. intros ? ->. destruct (FsTree.lookup _ _ _) as [child|]; [|apply ends_throw].
  apply ends_going. eapply going_weaken; [apply submitTask_going; [done| |done|exact Hroom]|by intros ? ? []].
  split_and!; [done|by eexists _, _|done|]. unfold shape. rewrite lookup_fmap. cbn [parent_]. rewrite Ew. intros b [= <-]. apply dirlike_spec.
  by apply (is_dir_directory goals s Hok x).
Qed.

Lemma setTrashTime_ends cx u g inode trashtime smode tm s :
  serving cx u g -> meta_ok s -> manager_ok s tm -> room kInitialTaskBatchSize s ->
  ends goals (setTrashTime goals cx inode trashtime smode tm) s (fun r s' => manager_ok s' r.2).
Proof.
  intros Hcx Hok Hm Hroom. pose proof (sv_sensitive _ _ _ Hcx) as Hcase. unfold setTrashTime. read_require Hmode. read_session. read_node y n Hy En Hn. read_at En. read_require Hkind.
  eapply ends_read; [apply (reading_reads _ _ (user_uid u)); by rewrite (sv_user _ _ _ Hcx)|]. intros ? ->. cbn [reserveJobId].
  apply ends_going. eapply going_weaken; [apply submitTask_going; [done|by split|done|exact Hroom]|by intros ? ? []].
Qed.

End tasks.
