(* ===== verification/FsHistory.v ===== *)
(** Histories of a master: the new file system, the requests that clients make, the steps of jobs and the cleaners, in any
    order, with the changelog that they write.  The theorems about all histories are in FsTheorems.v. *)
From S2P Require Import Prelude Serialization RichACL AclMasks AclPosix AclStorage Nodes FileSize NodeAcl Trash.
From S2P Require Import Quota FsTree FsTreeInv FsTreeNodes FsTreeEdges DirQuota FsMeta FsMetaInv FsCreate.
From S2P Require Import FsMetaSteps FsMetaFields FsOps FsAttrOps FsRestore Tasks FsKinds FsKindsOps FsOpsRead.
From S2P Require Import AclText FsReplay FsServe FsServeFiles FsServeTrash FsServeAttr FsServeTasks.

(** fs_new(): the root directory alone. *)
Definition new_root (time : Z) : FSNode :=
  MkNode SPECIAL_INODE_ROOT time time time kDirectory DEFAULT_GOAL 511 0 0 kDefaultTrashTime [] (DirectoryData new_directory).

Definition fs_new (time : Z) : Metadata :=
  MkMeta {[SPECIAL_INODE_ROOT := new_root time]} (MkCounters 1 1 0 0 0 0 0 0) no_detached empty_storage
    (quota_update_ug ∅ 0 0 [(kInodes, 1)]) [] 1.

(** The metadata and the jobs that wait. *)
Record Master := MkMaster { ms_meta : Metadata; ms_jobs : TaskManager AnyTask }.

Definition new_master (time : Z) : Master := MkMaster (fs_new time) no_jobs.

(** [disabled] is the configuration option NO_ATIME. *)
Inductive request :=
  | Mknod (parent : Z) (name : name_t) (type : FSNodeType) (mode umask rdev inode : Z)
  | Mkdir (depleted : bool) (parent : Z) (name : name_t) (mode umask : Z) (copysgid : bool) (inode : Z)
  | Symlink (parent : Z) (name : name_t) (path : list Z) (inode : Z)
  | Unlink (parent : Z) (name : name_t)
  | Rmdir (parent : Z) (name : name_t)
  | Rename (parent_src : Z) (name_src : name_t) (parent_dst : Z) (name_dst : name_t) (inode : Z)
  | Link (inode_src parent_dst : Z) (name_dst : name_t)
  | SetTrashPath (inode : Z) (path : list Z)
  | Undel (inode : Z) (fresh : list Z)
  | Purge (inode : Z)
  | Acquire (inode sessionid : Z)
  | Release (inode sessionid : Z)
  | SetAttr (inode setmask attrmode attruid attrgid attratime attrmtime : Z) (clear : SugidClearMode)
  | SetLength (inode len : Z)
  | SetRichAcl (inode : Z) (acl : RichACL)
  | SetPosixAcl (inode : Z) (type : AclType) (acl : Posix.AccessControlList)
  | DeleteAcl (inode : Z) (type : AclType)
  | SetQuotas (entries : list QuotaEntry)
  | Readlink (disabled : bool) (inode : Z)
  | ReadChunk (disabled : bool) (inode index : Z)
  | ReserveJob
  | RecursiveRemove (parent : Z) (name : name_t) (job : Z)
  | SetTrashTime (inode trashtime smode : Z)
  | CancelJob (job : Z)
  | ProcessJobs (steps : nat)
  | EmptyTrash (expired : Watchdog)
  | EmptyReserved (expired : Watchdog).

(** A request that has nothing to do with jobs. *)
Definition unchanged {A} (tm : TaskManager AnyTask) (m : Op A) : Op (TaskManager AnyTask) := _ ← m; mret tm.

Section history.
Context (goals : Z -> Goals.Goal).
Notation root := SPECIAL_INODE_ROOT.
Notation meta_ok := (meta_ok goals).
Notation served := (served goals).

Definition serve (cx : Context) (r : request) (tm : TaskManager AnyTask) : Op (TaskManager AnyTask) :=
  match r with
  | Mknod parent name type mode umask rdev inode => unchanged tm (mknod goals cx parent name type mode umask rdev inode)
  | Mkdir depleted parent name mode umask copysgid inode =>
    unchanged tm (mkdir goals cx depleted parent name mode umask copysgid inode)
  | Symlink parent name path inode => unchanged tm (symlink goals cx parent name path inode)
  | Unlink parent name => unchanged tm (unlink_op goals cx parent name)
  | Rmdir parent name => unchanged tm (rmdir goals cx parent name)
  | Rename parent_src name_src parent_dst name_dst inode =>
    unchanged tm (rename goals cx parent_src name_src parent_dst name_dst inode)
  | Link inode_src parent_dst name_dst => unchanged tm (link_op goals cx inode_src parent_dst name_dst)
  | SetTrashPath inode path => unchanged tm (setTrashPath cx inode path)
  | Undel inode fresh => unchanged tm (undel goals cx inode fresh)
  | Purge inode => unchanged tm (purge_op goals cx inode)
  | Acquire inode sessionid => unchanged tm (acquire cx inode sessionid)
  | Release inode sessionid => unchanged tm (release goals cx inode sessionid)
  | SetAttr inode setmask attrmode attruid attrgid attratime attrmtime clear =>
    unchanged tm (setAttr goals cx inode setmask attrmode attruid attrgid attratime attrmtime clear)
  | SetLength inode len => unchanged tm (doSetLength goals cx inode len)
  | SetRichAcl inode acl => unchanged tm (setRichAcl cx inode acl)
  | SetPosixAcl inode type acl => unchanged tm (setAcl_op cx inode type acl)
  | DeleteAcl inode type => unchanged tm (deleteAcl_op cx inode type)
  | SetQuotas entries => unchanged tm (quotaSet cx entries)
  | Readlink disabled inode => unchanged tm (readlink disabled cx inode)
  | ReadChunk disabled inode index => unchanged tm (readChunk disabled (ts cx) inode index)
  | ReserveJob => mret (reserveJobId tm).2
  | RecursiveRemove parent name job => '(_, tm) ← recursiveRemove goals cx parent name job tm; mret tm
  | SetTrashTime inode trashtime smode => '(_, tm) ← setTrashTime goals cx inode trashtime smode tm; mret tm
  | CancelJob job => let '(found, tm) := cancelJob job tm in _ ← require found ERROR_EINVAL; mret tm
  | ProcessJobs steps => '(tm, _) ← @processJobs _ (any_task goals) (ts cx) steps tm; mret tm
  | EmptyTrash expired => unchanged tm (doEmptyTrash goals expired (ts cx))
  | EmptyReserved expired => unchanged tm (doEmptyReserved goals expired (ts cx))
  end.

(** A client that the master serves: it has a user with a group, and its session is case sensitive.  (In
    directories that ignore case two names of one file lead to the edge of the first, so that the theorems do not hold there.) *)
Definition client (cx : Context) : Prop := exists u g, serving cx u g.

(** The number that the pool of inodes hands out: it is in no use, and the pool detains the numbers of nodes that were
    removed, so that no removal waits for the entries of that number. *)
Definition unused (inode : Z) (s : Metadata) : Prop := md_nodes s !! inode = None /\ is_uint 32 inode.

Definition not_waiting (inode : Z) (tm : TaskManager AnyTask) : Prop :=
  Forall (fun j => Forall (fun t => match t with inl t => parent_ t <> inode | inr _ => True end) (tasks_ j)) (job_list_ tm).

(** The table of paths of detached files has numbers left. *)
Definition names_left (s : Metadata) : Prop := counter (md_detached s) < kMaxIdForTrashOrReservedName.

(** What the rest of the server gives a request: new numbers of inodes, numbers for the names of detached files, a session
    where the operation reads it. *)
Definition environment (cx : Context) (r : request) (s : Metadata) (tm : TaskManager AnyTask) : Prop :=
  match r with
  | Mknod _ _ _ _ _ _ inode | Mkdir _ _ _ _ _ _ inode | Symlink _ _ _ inode => unused inode s /\ not_waiting inode tm
  | Unlink _ _ | Rmdir _ _ | SetTrashPath _ _ | Rename _ _ _ _ _ => names_left s
  | Undel _ fresh => supplied fresh s /\ Forall (fun inode => not_waiting inode tm) fresh
  | SetAttr _ _ _ _ _ _ _ _ | SetQuotas _ => is_Some (session cx)
  | RecursiveRemove _ _ _ => is_Some (session cx) /\ room kInitialTaskBatchSize s
  | SetTrashTime _ _ _ => room kInitialTaskBatchSize s
  | ProcessJobs steps => room steps s
  | _ => True
  end.

(** The requests that the code treats as it means to.  The others are accepted by the code too, but
    - a symlink whose target has 65536 bytes or more breaks the statistics (its length is kept in 16 bits);
    - a directory that is moved into itself makes rename() run forever ([rename_into_itself] of FsDivergence);
    - undel() makes a missing directory below one with a list without a list, and a shadow gives it one
      ([undel_inherits_on_shadow]);
    - setAttr() without a mode on a node with a list leaves the list, and a shadow changes it ([chown_changes_shadow_acl]);
    - of a list with kAutoSetMode, or with bits that no letter stands for, the changelog keeps only a part
      ([auto_set_mode_lost]), and so does it of a POSIX list that its text does not give back;
    - quotaSet() takes entries that set the usage of an owner, and a shadow stops at their records. *)
Definition sound (cx : Context) (r : request) (s : Metadata) : Prop :=
  match r with
  | Symlink _ _ path _ => Z.of_nat (length path) < 65536
  | Rename parent_src name_src parent_dst _ _ => ~ into_itself cx parent_src name_src parent_dst s
  | Undel inode _ => no_list_above cx inode s
  | SetAttr inode setmask _ _ _ _ _ _ =>
      has setmask SET_MODE_FLAG = true \/ forall x, candidate cx inode s = Some (inr x, s, []) -> acl_ (md_acls s) !! x = None
  | SetRichAcl _ acl => acl_printable acl = true
  | SetPosixAcl _ _ acl => PosixTextProofs.posix_printable acl
  | SetQuotas entries => Forall (fun e => q_rigor e <> kUsed) entries
  | _ => True
  end.

Definition allowed (cx : Context) (r : request) (s : Metadata) (tm : TaskManager AnyTask) : Prop := environment cx r s tm /\ sound cx r s.

(** A master at work: requests one after the other, and the entries of the changelog. *)
Inductive history : Master -> list (Z * LogEntry) -> Master -> Prop :=
  | history_nil m : history m [] m
  | history_cons s tm cx r res s1 log1 log m :
      client cx -> allowed cx r s tm -> serve cx r tm s = Some (res, s1, log1) ->
      history (MkMaster s1 (match res with inr tm1 => tm1 | inl _ => tm end)) log m -> history (MkMaster s tm) (log1 ++ log) m.

(** ** Lemmas *)

Lemma served_runs {A} (m : Op A) s r s' log : m s = Some (inr r, s', log) -> meta_ok s' -> replay_log goals log s = Some s' -> served m s.
Proof. intros E Hok R. right. by exists r, s', log. Qed.

(** Waiting jobs stay fit when a request makes at most nodes that no job waits for. *)
Lemma jobs_within {A} (C : Z -> Prop) (m : Op A) s r s' log tm :
  within C m -> (forall x, C x -> not_waiting x tm) -> m s = Some (r, s', log) -> manager_ok s tm -> manager_ok s' tm.
Proof.
  intros Hw HC E Hm. apply Forall_forall. intros j Hj. pose proof (proj1 (Forall_forall _ _) Hm j Hj) as Hjob.
  apply Forall_forall. intros [t|t] Ht; pose proof (proj1 (Forall_forall _ _) Hjob _ Ht) as Hok; [|done].
  destruct Hok as (H1 & H2 & H3 & H4). split_and!; try done. intros b Hb. destruct (Hw _ _ _ _ E _ _ Hb) as [Hold|Hc]; [by apply H4|].
  exfalso. pose proof (proj1 (Forall_forall _ _) (HC _ Hc) j Hj) as Hn. by apply (proj1 (Forall_forall _ _) Hn _ Ht).
Qed.

(** A request is served, and the jobs that wait are fit for their next steps. *)
Definition served_jobs (m : Op (TaskManager AnyTask)) (s : Metadata) : Prop := ends goals m s (fun tm s' => manager_ok s' tm).

Lemma unchanged_served {A} (C : Z -> Prop) (m : Op A) s tm :
  manager_ok s tm -> (forall x, C x -> not_waiting x tm) -> within C m -> served m s -> served_jobs (unchanged tm m) s.
Proof.
  intros Hm HC Hw [[e E]|(r & s' & log & (E & Hok & R) & _)]; unfold unchanged.
  - left. exists e. by apply bind_error.
  - right. exists tm, s', log. split; [|by eapply jobs_within]. split; [|done]. rewrite op_bind_run, E, op_ret_run. by rewrite app_nil_r.
Qed.

(** A request that makes no nodes. *)
Lemma unchanged_kept {A} (m : Op A) s tm :
  manager_ok s tm -> within (fun _ => False) m -> served m s -> served_jobs (unchanged tm m) s.
Proof. intros Hm. by apply unchanged_served. Qed.

Lemma unchanged_steady {A} (m : Op A) s tm :
  manager_ok s tm -> steady (fun _ => True) m -> served m s -> served_jobs (unchanged tm m) s.
Proof. intros Hm Hs. apply unchanged_kept; [done|]. by apply steady_within. Qed.

Lemma served_jobs_after {A} (m : Op A) (f : A -> Op (TaskManager AnyTask)) (g : A -> TaskManager AnyTask) s :
  ends goals m s (fun r s' => manager_ok s' (g r)) -> (forall x s1, f x s1 = Some (inr (g x), s1, [])) -> served_jobs (m ≫= f) s.
Proof. intros H Hf. by eapply (ends_after goals _ _ g). Qed.

(** The trash cleaner removes [k] entries: all that expired, or as many as the watchdog let it. *)
Lemma emptied expired timeStamp s :
  meta_ok s ->
  exists s' log, doEmptyTrash goals expired timeStamp s = Some (inr tt, s', log) /\ meta_ok s' /\ replay_log goals log s = Some s' /\
    exists k, trash_removed timeStamp s k s' /\ (forall j, (S j < k)%nat -> expired j = false) /\
      (none_expired timeStamp s' \/ exists j, k = S j /\ expired j = true).
Proof.
  intros Hok. unfold doEmptyTrash.
  apply (rounds_end goals _ (fun s => base.size (trash (md_detached s)))
    (fun calls s' => trash_removed timeStamp s calls s' /\ forall j, (j < calls)%nat -> expired j = false)); [|done| |lia].
  2: { split; [|lia]. split_and!; [done|done|lia]. }
  intros calls s0 Hok0 [(H1 & H2 & H3) Hj].
  destruct (trash_round goals expired timeStamp calls s0 Hok0) as [[E Hn]|(s1 & log1 & E & Hok1 & R & K1 & K2 & K3)].
  - exists None, s0, []. split_and!; try done. exists calls. split; [done|]. split; [|by left]. intros j ?. apply Hj. lia.
  - assert (trash_removed timeStamp s (S calls) s1) as HK.
    { split_and!; [intros key Hk; by rewrite K1, H1|by etransitivity|lia]. }
    exists (if expired calls then None else Some (S calls)), s1, log1. destruct (expired calls) eqn:Ex; split_and!; try done.
    + exists (S calls). split; [done|]. split; [intros j ?; apply Hj; lia|]. right. eauto.
    + intros j Hlt. destruct (decide (j = calls)) as [->|]; [done|]. apply Hj. lia.
    + lia.
Qed.

Lemma closed expired timeStamp s :
  meta_ok s ->
  exists s' log, doEmptyReserved goals expired timeStamp s = Some (inr tt, s', log) /\ meta_ok s' /\ replay_log goals log s = Some s' /\
    exists k, reserved_removed s k s' /\ (forall j, (j < k)%nat -> expired j = false) /\
      (reserved (md_detached s') = ∅ \/ expired k = true).
Proof.
  intros Hok. unfold doEmptyReserved.
  apply (rounds_end goals _ (fun s => base.size (reserved (md_detached s)))
    (fun calls s' => reserved_removed s calls s' /\ forall j, (j < calls)%nat -> expired j = false)); [|done| |lia].
  2: { split; [|lia]. split_and!; [done|done|lia]. }
  intros calls s0 Hok0 [(H1 & H2 & H3) Hj].
  destruct (reserved_round goals expired timeStamp calls s0 Hok0) as [[E Hn]|(s1 & log1 & E & Ex & Hok1 & R & K1 & K2 & K3)].
  - exists None, s0, []. split_and!; try done. by exists calls.
  - assert (reserved_removed s (S calls) s1) as HK.
    { split_and!; [by rewrite K1|by etransitivity|lia]. }
    exists (Some (S calls)), s1, log1. split_and!; try done.
    + intros j Hlt. destruct (decide (j = calls)) as [->|]; [done|]. apply Hj. lia.
    + lia.
Qed.

Lemma request_served cx r s tm :
  client cx -> meta_ok s -> manager_ok s tm -> allowed cx r s tm -> served_jobs (serve cx r tm) s.
Proof.
  intros (u & g & Hcx) Hok Hm Ha. pose proof (sv_master _ _ _ Hcx) as Hmaster. destruct Ha as [Ha Hs]. destruct r; cbn [serve environment sound] in *.
  - destruct Ha as [[? ?] ?]. eapply unchanged_served; [done| |apply within_mknod|by eapply mknod_served]. by intros ? <-.
  - destruct Ha as [[? ?] ?]. eapply unchanged_served; [done| |apply within_mkdir|by eapply mkdir_served]. by intros ? <-.
  - destruct Ha as [[? ?] ?]. eapply unchanged_served; [done| |apply within_symlink|by eapply symlink_served]. by intros ? <-.
  - apply unchanged_kept; [done|apply within_unlink_op|by eapply unlink_served].
  - apply unchanged_kept; [done|apply within_rmdir|by eapply rmdir_served].
  - apply unchanged_kept; [done|apply within_rename|by eapply ends_served, rename_ends].
  - apply unchanged_kept; [done|apply within_link|by eapply link_served].
  - apply unchanged_steady; [done|apply steady_setTrashPath|by eapply setTrashPath_served].
  - destruct Ha as [? Hw]. eapply unchanged_served; [done| |apply within_undel|by eapply undel_served].
    intros x Hx. by eapply (proj1 (Forall_forall _ _) Hw).
  - apply unchanged_kept; [done|apply within_purge_op|by eapply purge_served].
  - apply unchanged_steady; [done|apply steady_acquire|by apply acquire_served].
  - apply unchanged_kept; [done|apply within_release|by apply release_served].
  - destruct Ha as [ses Hses]. apply unchanged_steady; [done|apply steady_setAttr|by eapply setAttr_served].
  - apply unchanged_kept; [done|apply within_doSetLength|by eapply setLength_served].
  - apply unchanged_steady; [done|apply steady_setRichAcl|]. eapply setRichAcl_served; [done|done|by apply fromString_toString].
  - apply unchanged_steady; [done|apply steady_setAcl|]. eapply setAcl_served; [done|done|by apply PosixTextProofs.posix_fromString_toString].
  - apply unchanged_steady; [done|apply steady_deleteAcl|by eapply deleteAcl_served].
  - apply unchanged_steady; [done|apply steady_quotaSet|by eapply quotaSet_served].
  - apply unchanged_steady; [done|apply steady_readlink|by eapply readlink_served].
  - apply unchanged_steady; [done|apply steady_readChunk|by apply readChunk_served].
  - right. by exists (reserveJobId tm).2, s, [].
  - destruct Ha. eapply (served_jobs_after _ _ snd); [by eapply recursiveRemove_ends|by intros []].
  - eapply (served_jobs_after _ _ snd); [by eapply setTrashTime_ends|by intros []].
  - pose proof (cancelJob_ok s job tm Hm) as Hc. destruct (cancelJob job tm) as [found tm']. unfold served_jobs. read_require Hf.
    right. by exists tm', s, [].
  - eapply (served_jobs_after _ _ fst); [|by intros []]. apply ends_going. eapply going_weaken; [by apply processJobs_going|]. by intros ? ? [].
  - apply unchanged_kept; [done|apply within_emptyTrash|]. destruct (emptied expired (ts cx) s Hok) as (s' & log & E & Hok' & R & _). by eapply served_runs.
  - apply unchanged_kept; [done|apply within_emptyReserved|]. destruct (closed expired (ts cx) s Hok) as (s' & log & E & Hok' & R & _). by eapply served_runs.
Qed.

(** What every state of a history satisfies. *)
Definition master_ok (m : Master) : Prop := meta_ok (ms_meta m) /\ manager_ok (ms_meta m) (ms_jobs m).

Lemma history_ok m log m' : history m log m' -> master_ok m -> master_ok m' /\ replay_log goals log (ms_meta m) = Some (ms_meta m').
Proof.
  induction 1 as [m|s tm cx r res s1 log1 log m Hcx Ha E H IH]; intros [Hok Hm]; [done|]. cbn [ms_meta ms_jobs] in *.
  destruct (request_served cx r s tm Hcx Hok Hm Ha) as [[e E']|(tm' & s' & log' & (E' & Hok' & R) & Hm')]; rewrite E' in E; injection E as <- <- <-.
  - by apply IH.
  - destruct (IH (conj Hok' Hm')) as [H2 R2]. split; [done|]. by rewrite (replay_app goals log' log s s' R).
Qed.

(** ** The new file system *)

Lemma new_nodes time x n : ({[root := new_root time]} : nodes_t) !! x = Some n -> x = root /\ n = new_root time.
Proof. intros [-> ->]%lookup_singleton_Some. done. Qed.

Lemma fs_new_tree time : tree_ok goals root (md_nodes (fs_new time)).
Proof.
  assert (md_nodes (fs_new time) !! root = Some (new_root time)) as Er by apply lookup_singleton_eq. split.
  - exists (new_root time). split; [done|]. split; [by eexists|done].
  - intros x n [-> ->]%new_nodes. split; try done.
    + apply NoDup_nil_2.
    + intros p nm Hin. simpl in Hin. set_solver.
    + simpl. lia.
    + intros _. exists [root]. apply chain_end. unfold dir_parents. by rewrite Er.
    + intros d [= <-]. split; try done; [apply NoDup_nil_2|]. intros nm c Hin. simpl in Hin. set_solver.
Qed.

Lemma fs_new_ok time : meta_ok (fs_new time).
Proof.
  split.
  - apply fs_new_tree.
  - exists ∅. split; simpl; [apply represents_empty| |]; [|intros id acl; by rewrite lookup_empty].
    intros id n [-> ->]%new_nodes. split; [done|]. by vm_compute.
  - split.
    + intros k. unfold fs_new. cbn [md_nodes md_counters]. rewrite <-insert_empty, total_insert by apply lookup_empty. by destruct k.
    + intros t id r Ht. unfold fs_new. cbn [md_nodes md_quota]. rewrite <-insert_empty, total_insert by apply lookup_empty.
      rewrite used_update_ug by (by destruct r). f_equal. unfold charge, used_by, quota_entry, quota_get. cbn [new_root node_uid node_gid].
      destruct (owns t id 0 0), r; done.
  - exists []. split; [apply keeps_empty|]. intros w. split; [set_solver|]. intros (x & n & [-> ->]%new_nodes & Hw). done.
  - intros x n [-> ->]%new_nodes. by split.
Qed.

Lemma new_master_ok time : master_ok (new_master time).
Proof. split; [apply fs_new_ok|constructor]. Qed.

(** What the theorems use of a history that starts with a new file system. *)
Lemma reached time log s tm : history (new_master time) log (MkMaster s tm) -> meta_ok s /\ manager_ok s tm /\ replay_log goals log (fs_new time) = Some s.
Proof. intros H. by destruct (history_ok _ _ _ H (new_master_ok time)) as [[H1 H2] H3]. Qed.

End history.
