(* ===== verification/FsVersions.v ===== *)
(** The version of the metadata: on the master a request adds to it the number of entries that it writes into the
    changelog; on a shadow an entry adds one to it or, when a file is moved to itself, nothing. *)
From S2P Require Import Prelude Serialization RichACL AclMasks AclPosix AclStorage Nodes FileSize NodeAcl Trash.
From S2P Require Import Quota FsTree DirQuota FsMeta FsOps FsAttrOps FsRestore Tasks FsKinds FsHistory.

Definition same_version (s s' : Metadata) : Prop := md_version s' = md_version s.

Definition version_after (n : nat) (v : Z) : Z := Nat.iter n (fun v => u64 (v + 1)) v.

Lemma version_after_add n k v : version_after (n + k) v = version_after k (version_after n v).
Proof. unfold version_after. rewrite Nat.add_comm. apply Nat.iter_add. Qed.

Lemma version_after_exact n v : 0 <= v -> v + Z.of_nat n < 2 ^ 64 -> version_after n v = v + Z.of_nat n.
Proof.
  intros Hv. induction n as [|n IH]; intros H; [simpl; lia|]. change (version_after (S n) v) with (u64 (version_after n v + 1)).
  rewrite IH by lia. unfold u64, wrap. rewrite Z.mod_small; lia.
Qed.

(** ** Steps *)

#[export] Instance version_preorder : PreOrder same_version.
Proof. split; [done|]. unfold same_version. intros s1 s2 s3 -> ->. done. Qed.

Ltac version_step H :=
  repeat first
    [ match type of H with
      | (_ ≫= _) = Some _ => apply bind_Some in H as (? & ? & H)
      | (_ <$> _) = Some _ => apply fmap_Some in H as (? & ? & ->)
      | Some (_, _) = Some _ => injection H as <- <-
      | Some _ = Some _ => injection H as <-
      | None = Some _ => discriminate H
      | match ?x with _ => _ end = Some _ => destruct x eqn:?
      end ].

Section steps.
Context (goals : Z -> Goals.Goal).

Lemma updateCTime_keeps_version x t s s' : updateCTime x t s = Some s' -> same_version s s'.
Proof. unfold updateCTime. intros H. by version_step H. Qed.

Lemma setTrashtime_keeps_version uid tt m x t s r s' : setTrashtime uid tt m x t s = Some (r, s') -> same_version s s'.
Proof.
  unfold setTrashtime. intros H. version_step H; try done. match goal with H : (if _ then _ else _) = Some _ |- _ => rename H into Hs end.
  version_step Hs; [|by apply updateCTime_keeps_version in Hs]. unfold updateCTimeForTrashNode in Hs. by version_step Hs.
Qed.

Lemma removeNode_keeps_version t x s s' : removeNode goals t x s = Some s' -> same_version s s'.
Proof.
  unfold removeNode. intros H. version_step H; try done. match goal with H : (if _ then _ else _) = Some _ |- _ => rename H into Hs end.
  version_step Hs; destruct (is_dir _), (bool_decide (node_type _ = _)); done.
Qed.

Lemma unlink_keeps_version t p name c s s' : unlink goals t p name c s = Some s' -> same_version s s'.
Proof. unfold unlink. intros H. version_step H; try done; by apply removeNode_keeps_version in H. Qed.

Lemma purge_keeps_version t x s r s' : purge goals t x s = Some (r, s') -> same_version s s'.
Proof. unfold purge. intros H. version_step H; try done; by match goal with H : removeNode _ _ _ _ = Some _ |- _ => apply removeNode_keeps_version in H end. Qed.

Lemma undel_link_keeps_version t x p name s s' : undel_link goals t x p name s = Some s' -> same_version s s'.
Proof. unfold undel_link. intros H. by version_step H. Qed.

Lemma setLength_keeps_version x len e s s' : setLength goals x len e s = Some s' -> same_version s s'.
Proof.
  unfold setLength. intros H. version_step H. unfold same_version, updateDetachedSpaceUsage. cbn [md_version set_nodes nodeQuotaUpdate set_quota put_node].
  repeat match goal with |- context [if ?c then _ else _] => destruct c | |- context [match node_type ?n with _ => _ end] => destruct (node_type n) end; done.
Qed.

Lemma changeUidGid_keeps_version x uid gid s s' : changeUidGid goals x uid gid s = Some s' -> same_version s s'.
Proof. unfold changeUidGid. intros H. by version_step H. Qed.

Lemma createNode_keeps_version t p name type mode umask uid gid c i x s s' :
  createNode goals t p name type mode umask uid gid c i x s = Some s' -> same_version s s'.
Proof.
  unfold createNode. intros H. version_step H; unfold incrementNodeCounters; destruct type; done.
Qed.

End steps.

(** ** Operations *)

(** Neither the version nor the log. *)
Definition quiet {A} (m : Op A) : Prop := forall s r s' log, m s = Some (r, s', log) -> same_version s s' /\ log = [].

(** On the master: the version counts the entries. *)
Definition counted {A} (m : Op A) : Prop :=
  forall s r s' log, m s = Some (r, s', log) -> md_version s' = version_after (length log) (md_version s).

(** On a shadow: no entry, and one version at most. *)
Definition once {A} (m : Op A) : Prop :=
  forall s r s' log, m s = Some (r, s', log) -> md_version s' = md_version s \/ md_version s' = u64 (md_version s + 1).

Lemma quiet_bind {A B} (m : Op A) (f : A -> Op B) : quiet m -> (forall x, quiet (f x)) -> quiet (m ≫= f).
Proof.
  intros Hm Hf s r s' log E. unfold mbind, op_bind in E. destruct (m s) as [[[[e|y] s1] log1]|] eqn:E1; [|..|done].
  - injection E as <- <- <-. by eapply Hm.
  - destruct (f y s1) as [[[r2 s2] log2]|] eqn:E2; [|done]. injection E as <- <- <-. destruct (Hm _ _ _ _ E1) as [H1 ->].
    destruct (Hf _ _ _ _ _ E2) as [H2 ->]. split; [by etransitivity|done].
Qed.

Lemma quiet_counted {A} (m : Op A) : quiet m -> counted m.
Proof. intros H s r s' log E. by destruct (H _ _ _ _ E) as [? ->]. Qed.

Lemma quiet_once {A} (m : Op A) : quiet m -> once m.
Proof. intros H s r s' log E. left. by destruct (H _ _ _ _ E). Qed.

Lemma counted_bind {A B} (m : Op A) (f : A -> Op B) : counted m -> (forall x, counted (f x)) -> counted (m ≫= f).
Proof.
  intros Hm Hf s r s' log E. unfold mbind, op_bind in E. destruct (m s) as [[[[e|y] s1] log1]|] eqn:E1; [|..|done].
  - injection E as <- <- <-. by eapply Hm.
  - destruct (f y s1) as [[[r2 s2] log2]|] eqn:E2; [|done]. injection E as <- <- <-.
    rewrite length_app, version_after_add, <-(Hm _ _ _ _ E1). by eapply Hf.
Qed.

Lemma once_before {A B} (m : Op A) (f : A -> Op B) : quiet m -> (forall x, once (f x)) -> once (m ≫= f).
Proof.
  intros Hm Hf s r s' log E. unfold mbind, op_bind in E. destruct (m s) as [[[[e|y] s1] log1]|] eqn:E1; [|..|done].
  - injection E as <- <- <-. left. by destruct (Hm _ _ _ _ E1).
  - destruct (f y s1) as [[[r2 s2] log2]|] eqn:E2; [|done]. injection E as <- <- <-. destruct (Hm _ _ _ _ E1) as [<- _]. by eapply Hf.
Qed.

Lemma once_after {A B} (m : Op A) (f : A -> Op B) : once m -> (forall x, quiet (f x)) -> once (m ≫= f).
Proof.
  intros Hm Hf s r s' log E. unfold mbind, op_bind in E. destruct (m s) as [[[[e|y] s1] log1]|] eqn:E1; [|..|done].
  - injection E as <- <- <-. by eapply Hm.
  - destruct (f y s1) as [[[r2 s2] log2]|] eqn:E2; [|done]. injection E as <- <- <-. destruct (Hf _ _ _ _ _ E2) as [-> _]. by eapply Hm.
Qed.

Lemma quiet_ret {A} (x : A) : quiet (mret x : Op A).
Proof. by intros s r s' log [= <- <- <-]. Qed.

Lemma quiet_throw {A} e : quiet (throw (A := A) e).
Proof. by intros s r s' log [= <- <- <-]. Qed.

Lemma quiet_reads {A} (f : Metadata -> option A) : quiet (reads f).
Proof. unfold reads. intros s r s' log. destruct (f s); [|done]. by intros [= <- <- <-]. Qed.

Lemma quiet_require b e : quiet (require b e).
Proof. destruct b; [apply quiet_ret|apply quiet_throw]. Qed.

Lemma quiet_effect f : (forall s s', f s = Some s' -> same_version s s') -> quiet (effect f).
Proof. intros H. unfold effect. intros s r s' log. destruct (f s) eqn:E; [|done]. intros [= <- <- <-]. split; [by apply H|done]. Qed.

Lemma quiet_modify {A} (f : Metadata -> option (A * Metadata)) : (forall s r s', f s = Some (r, s') -> same_version s s') -> quiet (modify f).
Proof.
  intros H. unfold modify. intros s r s' log. destruct (f s) as [[x s1]|] eqn:E; [|done]. intros [= <- <- <-]. split; [by eapply H|done].
Qed.

Lemma quiet_some f : (forall s, same_version s (f s)) -> quiet (effect (fun s => Some (f s))).
Proof. intros H. apply quiet_effect. by intros s s' [= <-]. Qed.

Lemma counted_changeLog cx e : isPersonalityMaster cx = true -> counted (changeLog cx e).
Proof. intros H s r s' log [= <- <- <-]. by rewrite H. Qed.

Lemma once_changeLog cx e : once (changeLog cx e).
Proof. intros s r s' log [= <- <- <-]. by right. Qed.

Lemma once_next : once next_version.
Proof. intros s r s' log [= <- <- <-]. by right. Qed.

Lemma counted_recorded cx e m : isPersonalityMaster cx = true -> counted m -> counted (recorded cx e m).
Proof.
  intros Hm H s r s' log E. unfold recorded in E. rewrite Hm in E. destruct (m s) as [[[[err|y] s1] log1]|] eqn:E1; [|..|done].
  - injection E as <- <- <-. by eapply H.
  - unfold changeLog in E. rewrite Hm in E. injection E as <- <- <-. rewrite length_app, version_after_add, <-(H _ _ _ _ E1). done.
Qed.

Lemma once_recorded cx e m : quiet m -> once (recorded cx e m).
Proof.
  intros H s r s' log E. unfold recorded in E. destruct (m s) as [[[[err|y] s1] log1]|] eqn:E1; [|..|done]; destruct (H _ _ _ _ E1) as [<- _].
  - injection E as <- <- <-. destruct (isPersonalityMaster cx); [by left|by right].
  - unfold changeLog in E. injection E as <- <- <-. by right.
Qed.

Lemma counted_catch {A} (m : Op A) : counted m -> counted (catch m).
Proof. intros H s r s' log E. unfold catch in E. destruct (m s) as [[[r1 s1] log1]|] eqn:E1; [|done]. injection E as <- <- <-. by eapply H. Qed.

Create HintDb version.
#[export] Hint Resolve quiet_ret quiet_throw quiet_reads quiet_require once_changeLog once_next : version.
#[export] Hint Resolve updateCTime_keeps_version unlink_keeps_version setLength_keeps_version changeUidGid_keeps_version undel_link_keeps_version createNode_keeps_version : version.
#[export] Hint Extern 1 (quiet (effect (fun s => Some _))) => solve [apply quiet_some; reflexivity] : version.
#[export] Hint Extern 2 (quiet (effect _)) => solve [apply quiet_effect; eauto with version] : version.
#[export] Hint Extern 3 (quiet (effect _)) =>
  solve [apply quiet_effect; let H := fresh in intros ? ? H; version_step H; done] : version.

(** The structure of an operation. *)
Ltac quiet_step := first
  [ solve [auto with version]
  | apply quiet_bind; [|intros]
  | match goal with
    | |- quiet (match ?x with _ => _ end) => destruct x eqn:?
    | |- quiet (let '(_, _) := ?x in _) => destruct x eqn:?
    end ].
Ltac quiet_op := repeat quiet_step.

Ltac once_step := first
  [ solve [auto with version]
  | apply once_before; [solve [quiet_op]|intros]
  | apply once_after; [|intros; solve [quiet_op]]
  | apply once_recorded
  | match goal with
    | |- once (match ?x with _ => _ end) => destruct x eqn:?
    | |- once (let '(_, _) := ?x in _) => destruct x eqn:?
    end
  | solve [apply quiet_once; quiet_op] ].
Ltac once_op := repeat once_step.

Ltac counted_step := first
  [ solve [auto with version]
  | solve [apply quiet_counted; auto with version]
  | apply counted_bind; [|intros]
  | apply counted_recorded; [assumption|]
  | match goal with
    | |- counted (match ?x with _ => _ end) => destruct x eqn:?
    | |- counted (let '(_, _) := ?x in _) => destruct x eqn:?
    end ].
Ltac counted_op := repeat counted_step.
#[export] Hint Extern 1 (counted (changeLog _ _)) => solve [apply counted_changeLog; first [assumption|reflexivity]] : version.

Section ops.
Context (goals : Z -> Goals.Goal).

Lemma quiet_uid cx : quiet (uid_of cx).
Proof. apply quiet_reads. Qed.

Lemma quiet_gid cx : quiet (gid_of cx).
Proof. apply quiet_reads. Qed.

Lemma quiet_node x : quiet (node x).
Proof. apply quiet_reads. Qed.

Lemma quiet_session mode cx type : quiet (verifySession mode cx type).
Proof. unfold verifySession. quiet_op. Qed.

Hint Resolve quiet_uid quiet_gid quiet_node quiet_session : version.

Lemma quiet_getNode cx type mask inode : quiet (getNodeForOperation cx type mask inode).
Proof. unfold getNodeForOperation, candidate, expected, check_access. quiet_op. Qed.

Lemma quiet_base dir name : quiet (base_name dir name).
Proof. unfold base_name. quiet_op. Qed.

Lemma quiet_quota uid gid dir rs : quiet (checkQuotaUgDir uid gid dir rs).
Proof. unfold checkQuotaUgDir. quiet_op. Qed.

Lemma quiet_sticky cx p c : quiet (sticky cx p c).
Proof. unfold sticky. quiet_op. Qed.

Lemma quiet_look dir name : quiet (look dir name).
Proof. apply quiet_reads. Qed.

Lemma quiet_free dir name : quiet (free_name dir name).
Proof. unfold free_name. quiet_op. Qed.

Lemma quiet_move dst src cn rn : quiet (move_quota goals dst src cn rn).
Proof. unfold move_quota. quiet_op. Qed.

Hint Resolve quiet_getNode quiet_base quiet_quota quiet_sticky quiet_look quiet_free quiet_move : version.

Lemma quiet_canonical b names : forall x result, quiet (canonical b x names result).
Proof. induction names; intros; cbn [canonical]; quiet_op. Qed.

Hint Resolve quiet_canonical : version.

Lemma quiet_getCanonical cx path : quiet (getCanonicalPath cx path).
Proof. unfold getCanonicalPath. quiet_op. Qed.

Lemma quiet_setattr_checks cx ses u x n a b c : quiet (setattr_checks cx ses u x n a b c).
Proof. unfold setattr_checks. quiet_op. Qed.

Lemma quiet_purge t x : quiet (effect (fun s => snd <$> purge goals t x s)).
Proof. apply quiet_effect. intros s s' H. apply fmap_Some in H as ([r s1] & H & ->). by eapply purge_keeps_version. Qed.

Lemma quiet_trashtime uid tt m x t : quiet (modify (setTrashtime uid tt m x t)).
Proof. apply quiet_modify. intros. by eapply setTrashtime_keeps_version. Qed.

Lemma quiet_sync x : quiet (effect (sync_acl x)).
Proof. apply quiet_effect. unfold sync_acl. intros s s' H. by version_step H. Qed.

Lemma quiet_times x t m a b : quiet (effect (set_times x t m a b)).
Proof. apply quiet_effect. unfold set_times. intros s s' H. by version_step H. Qed.

Lemma quiet_set_mtime x t : quiet (effect (set_mtime x t)).
Proof. apply quiet_effect. unfold set_mtime. intros s s' H. by version_step H. Qed.

Lemma quiet_rdev x type rdev : quiet (effect (set_rdev x type rdev)).
Proof. apply quiet_effect. unfold set_rdev. intros s s' H. by version_step H. Qed.

Lemma quiet_path x path : quiet (effect (set_path x path)).
Proof. apply quiet_effect. unfold set_path. intros s s' H. by version_step H. Qed.

Lemma quiet_change_acl change x t : quiet (change_acl change x t).
Proof. unfold change_acl. quiet_op. Qed.

Hint Resolve quiet_getCanonical quiet_setattr_checks quiet_purge quiet_trashtime quiet_sync quiet_times quiet_set_mtime quiet_rdev quiet_path
  quiet_change_acl : version.

(** ** Entries on a shadow *)

Lemma quiet_undel_walk cx x names : forall p b, quiet (undel_walk goals cx x p b names []).
Proof.
  induction names as [|name names IH]; intros p b; cbn [undel_walk]; [apply quiet_reads|]. destruct names as [|name2 names]; [quiet_op|].
  apply quiet_bind; [destruct b; auto with version|]. intros [y|]; [|apply quiet_reads]. quiet_op; apply IH.
Qed.

Hint Resolve quiet_undel_walk : version.

Lemma restore_line_once ts e : once (restore_line goals ts e).
Proof.
  destruct e; cbn [restore_line].
  - unfold applyCreate. once_op.
  - unfold applyUnlink. once_op.
  - unfold rename. once_op.
  - unfold link_op. once_op.
  - unfold symlink. once_op.
  - unfold purge_op. once_op.
  - unfold undel, undel_node. once_op. quiet_op.
  - unfold setTrashPath. once_op.
  - unfold acquire. once_op.
  - unfold release. once_op.
  - unfold applyAttr. once_op.
  - unfold applyLength. once_op.
  - unfold applyAccess. once_op.
  - unfold applySetTrashTime. once_op.
  - unfold applySetRichAcl. once_op.
  - unfold applySetAcl. once_op.
  - unfold deleteAcl_op. once_op.
  - unfold applySetQuota. once_op.
Qed.

(** ** Requests on the master *)

Lemma counted_log_create cx p name type uid gid rdev x : isPersonalityMaster cx = true -> counted (log_create cx p name type uid gid rdev x).
Proof. intros. unfold log_create. counted_op. Qed.

Hint Resolve counted_log_create : version.

Lemma counted_undel_walk cx x names : isPersonalityMaster cx = true -> forall p b fresh, counted (undel_walk goals cx x p b names fresh).
Proof.
  intros Hm. induction names as [|name names IH]; intros p b fresh; cbn [undel_walk]; [counted_op|]. destruct names as [|name2 names]; [counted_op|].
  apply counted_bind; [destruct b; apply quiet_counted; auto with version|]. intros [y|]; [counted_op; apply IH|].
  destruct fresh as [|y fresh]; counted_op; apply IH.
Qed.

Lemma counted_quotas cx rs : isPersonalityMaster cx = true -> counted (record_quotas cx rs).
Proof. intros Hm. induction rs; cbn [record_quotas]; counted_op; done. Qed.

Lemma counted_atime disabled cx x : isPersonalityMaster cx = true -> counted (fs_update_atime disabled cx x).
Proof. intros Hm. unfold fs_update_atime. counted_op. Qed.

Lemma counted_release cx x sid : isPersonalityMaster cx = true -> counted (release goals cx x sid).
Proof. intros Hm. unfold release. counted_op. Qed.

Lemma counted_rounds round fuel : (forall calls, counted (round calls)) -> forall calls, counted (rounds round fuel calls).
Proof. intros H. induction fuel as [|fuel IH]; intros calls; cbn [rounds]; counted_op; done. Qed.

Lemma counted_release_all t x sids : counted (release_all goals t x sids).
Proof.
  induction sids as [|sid sids IH]; cbn [release_all]; [counted_op|]. intros s r s' log E.
  destruct (release _ _ _ _ s) as [[[r1 s1] log1]|] eqn:E1; [|done]. destruct (release_all _ _ _ _ s1) as [[[r2 s2] log2]|] eqn:E2; [|done].
  injection E as <- <- <-. rewrite length_app, version_after_add. rewrite (IH _ _ _ _ E2). f_equal. by eapply counted_release in E1.
Qed.

Hint Resolve counted_undel_walk counted_quotas counted_atime counted_release_all : version.

Lemma counted_emptyTrash expired t : counted (doEmptyTrash goals expired t).
Proof. intros s. apply counted_rounds. intros calls. unfold empty_trash_round. counted_op. Qed.

Lemma counted_emptyReserved expired t : counted (doEmptyReserved goals expired t).
Proof. intros s. apply counted_rounds. intros calls. unfold empty_reserved_round. counted_op. Qed.

(** ** Jobs *)

Lemma counted_execute t k : counted (@execute _ (any_task goals) t k).
Proof.
  destruct k as [k|k]; cbn [execute any_task].
  - unfold remove_execute, retrieveNodes. counted_op.
  - unfold trashtime_execute. counted_op.
Qed.

Lemma counted_processTask t j : counted (@processTask _ (any_task goals) t j).
Proof.
  unfold processTask. destruct (tasks_ j); [counted_op|]. apply counted_bind; [apply counted_catch, counted_execute|]. intros [e|[k pushed]]; counted_op.
Qed.

Hint Resolve counted_processTask : version.

Lemma counted_batch n t : forall j, counted (@batch _ (any_task goals) n t j).
Proof. induction n as [|n IH]; intros j; cbn [batch]; counted_op; apply IH. Qed.

Hint Resolve counted_batch : version.

Lemma counted_submitTask id t n k tm : counted (@submitTask _ (any_task goals) id t n k tm).
Proof. unfold submitTask. counted_op. Qed.

Lemma counted_process_jobs n t : forall k jobs, counted (@process_jobs _ (any_task goals) n t k jobs).
Proof.
  induction n as [|n IH]; intros k jobs; cbn [process_jobs]; [counted_op|]. destruct (jobs !! k) as [j|]; [|counted_op].
  destruct (job_finished j); [apply IH|]. apply counted_bind; [apply counted_processTask|]. intros [j' fin]. apply counted_bind; [apply IH|].
  intros [jobs' answers]. counted_op.
Qed.

Hint Resolve counted_submitTask counted_process_jobs : version.

Lemma serve_counted cx r tm : isPersonalityMaster cx = true -> counted (serve goals cx r tm).
Proof.
  intros Hm. destruct r; cbn [serve]; unfold unchanged.
  - unfold mknod. counted_op.
  - unfold mkdir. counted_op.
  - unfold symlink. counted_op.
  - unfold unlink_op. counted_op.
  - unfold rmdir. counted_op.
  - unfold rename. counted_op.
  - unfold link_op. counted_op.
  - unfold setTrashPath. counted_op.
  - unfold undel, undel_node. counted_op.
  - unfold purge_op. counted_op.
  - unfold acquire. counted_op.
  - unfold release. counted_op.
  - unfold setAttr. counted_op.
  - unfold doSetLength. counted_op.
  - unfold setRichAcl. counted_op.
  - unfold setAcl_op. counted_op.
  - unfold deleteAcl_op. counted_op.
  - unfold quotaSet. counted_op.
  - unfold readlink. counted_op.
  - unfold readChunk. counted_op.
  - counted_op.
  - unfold recursiveRemove. counted_op.
  - unfold setTrashTime. counted_op.
  - counted_op.
  - unfold processJobs. counted_op.
  - counted_op. apply counted_emptyTrash.
  - counted_op. apply counted_emptyReserved.
Qed.

Lemma history_version m log m' : history goals m log m' -> md_version (ms_meta m') = version_after (length log) (md_version (ms_meta m)).
Proof.
  induction 1 as [m|s tm cx r res s1 log1 log m Hcx Ha E H IH]; [done|]. destruct Hcx as (u & g & Hcx). pose proof (FsServe.sv_master _ _ _ Hcx) as Hm.
  rewrite length_app, version_after_add, IH. f_equal. cbn [ms_meta] in *. by eapply serve_counted.
Qed.

(** ** The replay *)

Lemma replay_at_most log : forall s s',
  replay_log goals log s = Some s' -> 0 <= md_version s -> md_version s + Z.of_nat (length log) < 2 ^ 64 ->
  md_version s <= md_version s' <= md_version s + Z.of_nat (length log).
Proof.
  induction log as [|[t e] log IH]; intros s s' R H0 H; cbn [replay_log length] in *; [injection R as <-; lia|].
  destruct (restore_line goals t e s) as [[[[err|[]] s1] l]|] eqn:E; try done.
  destruct (restore_line_once _ _ _ _ _ _ E) as [E1|E1]; [apply IH in R; lia|]. unfold u64, wrap in E1. rewrite Z.mod_small in E1 by lia.
  apply IH in R; lia.
Qed.

(** When the version at the end is right, it was right after every entry. *)
Lemma replay_step t e log s s' :
  replay_log goals ((t, e) :: log) s = Some s' -> 0 <= md_version s -> md_version s' < 2 ^ 64 ->
  md_version s' = md_version s + Z.of_nat (length ((t, e) :: log)) ->
  exists s1 l, restore_line goals t e s = Some (inr tt, s1, l) /\ replay_log goals log s1 = Some s' /\ md_version s1 = md_version s + 1.
Proof.
  cbn [replay_log length]. intros R H0 Hb Hv. destruct (restore_line goals t e s) as [[[[err|[]] s1] l]|] eqn:E; try done.
  exists s1, l. split_and!; try done. destruct (restore_line_once _ _ _ _ _ _ E) as [E1|E1].
  - apply replay_at_most in R; lia.
  - rewrite E1. unfold u64, wrap. rewrite Z.mod_small; lia.
Qed.

End ops.
