(* ===== verification/FsTheorems.v ===== *)
(** What the file system promises: theorems about every state that a master reaches from a new file system. *)
From S2P Require Import Prelude Serialization RichACL AclMasks AclPosix AclStorage Nodes FileSize NodeAcl Trash.
From S2P Require Import Quota FsTree FsTreeInv FsTreeNodes FsTreeEdges DirQuota FsMeta FsMetaInv FsCreate.
From S2P Require Import FsMetaSteps FsMetaFields FsOps FsAttrOps FsRestore Tasks FsOpsRead FsReplay FsServe.
From S2P Require Import FsServeFiles FsServeTrash FsServeTasks FsHistory.

(** ** A sample *)

Definition sample_goals (id : Z) : Goals.Goal := Goals.MkGoal [] [].
Definition sample_client (time : Z) : Context := MkCtx time true (Some (MkSession 1 0)) (Some (MkUser 0 [0])).
Definition a_name : name_t := [97].
Definition d_name : name_t := [100].

Lemma sample_client_ok time : client (sample_client time).
Proof. by exists (MkUser 0 [0]), 0. Qed.

Ltac sample_unused := split; [split; [split; [vm_compute; reflexivity|by vm_compute]|constructor]|done].

Ltac sample_step cx r := eapply (history_cons _ _ _ cx r); [apply sample_client_ok| |vm_compute; reflexivity|].

Definition sample_log : list (Z * LogEntry) :=
  [(10, CREATE 1 d_name kDirectory 493 0 0 0 2)] ++ [(11, CREATE 2 a_name kFile 420 0 0 0 3)] ++ [(12, LENGTH 3 100 true)] ++
  [(13, LINK 3 1 a_name)] ++ [(14, MOVE 1 a_name 2 d_name 3)] ++ [(15, ACQUIRE 3 7)] ++
  [(16, SETTRASHTIME 2 0 600 4); (16, SETTRASHTIME 3 0 600 4)] ++ [(17, UNLINK 2 a_name 3)] ++ [(18, UNLINK 2 d_name 3)] ++
  [(19, CREATE 2 a_name kDirectory 493 0 0 0 4)] ++ [(20, CREATE 4 a_name kFile 420 0 0 0 5)] ++ [(21, UNLINK 4 a_name 5); (21, UNLINK 2 a_name 4)] ++ [].

(** A directory with a file that gets a second name, is renamed, opened, has its trash time changed and loses both names;
    then a directory with a file that are removed together. *)
Lemma sample_history :
  exists s tm n, history sample_goals (new_master 0) sample_log (MkMaster s tm) /\ base.size (trash (md_detached s)) = 2%nat /\
    md_nodes s !! 2 = Some n /\ is_dir n = true.
Proof.
  eexists _, _, _. split.
  - sample_step (sample_client 10) (Mkdir false 1 d_name 493 0 false 2); [sample_unused|].
    sample_step (sample_client 11) (Mknod 2 a_name kFile 420 0 0 3); [sample_unused|].
    sample_step (sample_client 12) (SetLength 3 100); [done|].
    sample_step (sample_client 13) (Link 3 1 a_name); [done|].
    sample_step (sample_client 14) (Rename 1 a_name 2 d_name 0).
    { split; [vm_compute; reflexivity|]. intros (src & dst & H1 & H2 & H3). vm_compute in H1, H2. assert (src = 1) as -> by congruence.
      assert (dst = 2) as -> by congruence. vm_compute in H3. congruence. }
    sample_step (sample_client 15) (Acquire 3 7); [done|].
    sample_step (sample_client 16) (SetTrashTime 2 600 4); [by split; vm_compute|].
    sample_step (sample_client 17) (Unlink 2 a_name); [by split; vm_compute|].
    sample_step (sample_client 18) (Unlink 2 d_name); [by split; vm_compute|].
    sample_step (sample_client 19) (Mkdir false 2 a_name 493 0 false 4); [sample_unused|].
    sample_step (sample_client 20) (Mknod 4 a_name kFile 420 0 0 5); [sample_unused|].
    sample_step (sample_client 21) (RecursiveRemove 2 a_name 0); [split; [split; [by eexists|by vm_compute]|done]|].
    apply history_nil.
  - split; [vm_compute; reflexivity|]. split; vm_compute; reflexivity.
Qed.

(** ** Theorems *)

Section theorems.
Context (goals : Z -> Goals.Goal).
Notation root := SPECIAL_INODE_ROOT.

(** C1: a shadow that replays the entries of a master, from the new file system on, gets exactly the metadata of the master:
    nodes, counters, the trash, the lists, quotas, the calls to other components and the version.  The entries carry lists as
    text.  This holds for every history of requests of case-sensitive sessions, steps of jobs and rounds of the cleaners, of
    which each is [allowed]: it is none of those that the code does not treat as it means to ([sound]: a directory moved into
    itself, undel that makes a directory below one with a list, setAttr without a mode on a node with a list, targets of
    65536 bytes or more, lists that their text does not give back, quota entries that set a usage), and the server has
    numbers for new inodes and names ([environment]). *)
Theorem shadow_follows time log s tm :
  history goals (new_master time) log (MkMaster s tm) -> replay_log goals log (fs_new time) = Some s.
Proof. intros H. by destruct (reached goals _ _ _ _ H) as (_ & _ & R). Qed.

(** C4: in every state that a master reaches, every request that is [allowed] returns: no assertion fails, no pointer leads
    nowhere, no loop runs on.  A request that ends with an error has changed nothing and written nothing.  Left out are the
    requests of sessions without case and those that are not [sound], of which the rename of a directory into itself does
    run on; and the server has numbers for new inodes and names left ([environment]). *)
Theorem requests_never_fail time log s tm cx r :
  history goals (new_master time) log (MkMaster s tm) -> client cx -> allowed cx r s tm ->
  exists res s' log', serve goals cx r tm s = Some (res, s', log') /\ (forall e, res = inl e -> s' = s /\ log' = []).
Proof.
  intros H Hcx Ha. destruct (reached goals _ _ _ _ H) as (Hok & Hm & _).
  destruct (request_served goals cx r s tm Hcx Hok Hm Ha) as [[e E]|(r' & s' & log' & (E & _) & _)].
  - exists (inl e), s, []. split; [done|]. by intros e' [= <-].
  - exists (inr r'), s', log'. by split.
Qed.

(** What every node of the tree satisfies. *)
Lemma node_in_tree s x n :
  meta_ok goals s -> md_nodes s !! x = Some n ->
  well_typed n /\ node_id n = x /\
  (forall p nm, (p, nm) ∈ node_parents n <-> FsTree.lookup (md_nodes s) p nm = Some x) /\
  (is_dir n = true -> (length (node_parents n) <= 1)%nat) /\
  (node_parents n = [] <-> x = root \/ node_type n = kTrash \/ node_type n = kReserved) /\
  (is_dir n = true -> exists l, chain (md_nodes s) x l /\ list.last l = Some root).
Proof.
  intros Hok En. pose proof (to_nodes _ _ _ _ (mo_tree _ _ Hok) x n En) as [N1 N2 N3 N4 N5 N6 N7].
  split; [done|]. split; [done|]. split.
  { intros p nm. rewrite <-(edge_parents goals root no_debt) by (done || apply Hok). symmetry. apply (lookup_edge goals root no_debt), Hok. }
  split; [intros Hd; apply N5; by eapply is_dir_directory|]. split.
  - destruct (mo_status _ _ Hok x n En) as [S1 S2 _]. unfold where_of in *. destruct (decide (x = root)) as [->|Hr].
    + destruct (to_root _ _ _ _ (mo_tree _ _ Hok)) as (r & Er & _ & Hp). assert (r = n) as -> by congruence. tauto.
    + rewrite S1 by done. destruct (node_type n); split; try (intros [? ?]; done); try (intros [? | [? | ?]]; done); intros _; try (by eexists); tauto.
  - intros Hd. destruct (N6 (is_dir_directory _ _ Hok _ _ En Hd)) as [l Hl]. exists l. split; [done|]. by eapply chain_last.
Qed.

Lemma reserved_named s x n :
  meta_ok goals s -> md_nodes s !! x = Some n -> node_type n = kReserved -> is_Some (reserved (md_detached s) !! x).
Proof.
  intros Hok En Ht. assert (node_id n = x) as Hid by (exact (tree_ids goals _ (mo_tree _ _ Hok) x n En)).
  assert (where_of n = Some (inr x)) as Hw by (unfold where_of; by rewrite Ht, Hid).
  destruct (holds_split _ _ x n _ (tree_ids _ _ (mo_tree _ _ Hok)) (mo_detached _ _ Hok) En Hw) as (h & i & L & K & _).
  apply keeps_lookup_reserved in K as [K _]. by rewrite K.
Qed.

(** C6: the books of every state that a history of [allowed] requests of case-sensitive sessions reaches are right: the
    counters count the nodes and the space in the trash, the usage of each user and group is that of their nodes, and a
    directory has the statistics and the link count of its entries.  A symlink whose target has 65536 bytes or more, which
    is not [sound], would break the statistics. *)
Theorem accounting time log s tm :
  history goals (new_master time) log (MkMaster s tm) ->
  (forall k, counter_of (md_counters s) k = wrap (count_width k) (total (weight k) (md_nodes s))) /\
  (forall t id r, t <> kInode -> used_by (md_quota s) t id r = u64 (total (charge goals t id r) (md_nodes s))) /\
  (forall x n d, md_nodes s !! x = Some n -> directory_of n = Some d ->
     dir_stats d = sum_stats goals (md_nodes s) (entries d) /\ nlink d = u32 (2 + subdirs (md_nodes s) (entries d))).
Proof.
  intros H. destruct (reached goals _ _ _ _ H) as [Hok _]. destruct (mo_books _ _ Hok) as [B1 B2].
  split; [done|]. split; [done|]. intros x n d En Ed.
  destruct (no_dir _ _ _ _ _ (to_nodes _ _ _ _ (mo_tree _ _ Hok) x n En) d Ed) as [_ _ _ Hs Hl]. split; [|done].
  rewrite Hs. apply sum_stats_normal.
Qed.

(** C13: the nodes of every state that a history reaches form one tree.  Each node has the data of its type and its number.
    A name is in a directory just when the node has it; a directory has at most one name.  A node has no name just when it is
    the root or a file in the trash or reserved.  From every directory the parents lead to the root.  The names of the trash
    and the reserved names are those of detached files: every file in the trash has its name under its time and number,
    every reserved file under its number, and there is no other name.  The histories are those of case-sensitive sessions,
    with the requests that [allowed] takes. *)
Theorem tree_well_formed time log s tm :
  history goals (new_master time) log (MkMaster s tm) ->
  (forall x n, md_nodes s !! x = Some n ->
    well_typed n /\ node_id n = x /\
    (forall p nm, (p, nm) ∈ node_parents n <-> FsTree.lookup (md_nodes s) p nm = Some x) /\
    (is_dir n = true -> (length (node_parents n) <= 1)%nat) /\
    (node_parents n = [] <-> x = root \/ node_type n = kTrash \/ node_type n = kReserved) /\
    (is_dir n = true -> exists l, chain (md_nodes s) x l /\ list.last l = Some root)) /\
  (forall key, is_Some (trash (md_detached s) !! key) <->
    exists n, md_nodes s !! key.2 = Some n /\ node_type n = kTrash /\ key_of n = key) /\
  (forall x, is_Some (reserved (md_detached s) !! x) <-> exists n, md_nodes s !! x = Some n /\ node_type n = kReserved).
Proof.
  intros H. destruct (reached goals _ _ _ _ H) as [Hok _]. split; [intros x n En; by apply node_in_tree|]. split.
  - intros key. split; [intros [h Eh]; by eapply trash_file|]. intros (n & En & Ht & Hk).
    assert (where_of n = Some (inl key)) as Hw by (unfold where_of; by rewrite Ht, Hk).
    destruct (holds_split _ _ _ n _ (tree_ids _ _ (mo_tree _ _ Hok)) (mo_detached _ _ Hok) En Hw) as (h & i & L & K & _).
    apply keeps_lookup_trash in K as [K _]. by rewrite K.
  - intros x. split; [intros [h Eh]; by eapply reserved_file|]. intros (n & En & Ht). by apply reserved_named with n.
Qed.

(** C24: the trash cleaner ends and removes only entries whose time is over: the entries that expire at the time of the round
    or later stay, and no entry is new.  With [k] entries removed, either no expired entry is left, or the watchdog expired
    at its [k]-th call, which is the one after the last removal; its earlier calls said no. *)
Theorem trash_emptied time log s tm expired timeStamp :
  history goals (new_master time) log (MkMaster s tm) ->
  exists s' log' k, doEmptyTrash goals expired timeStamp s = Some (inr tt, s', log') /\
    (forall key, timeStamp <= key.1 -> trash (md_detached s') !! key = trash (md_detached s) !! key) /\
    trash (md_detached s') ⊆ trash (md_detached s) /\
    base.size (trash (md_detached s)) = (k + base.size (trash (md_detached s')))%nat /\
    (forall j, (S j < k)%nat -> expired j = false) /\
    ((forall key, is_Some (trash (md_detached s') !! key) -> timeStamp <= key.1) \/ exists j, k = S j /\ expired j = true).
Proof.
  intros H. destruct (reached goals _ _ _ _ H) as [Hok _].
  destruct (emptied goals expired timeStamp s Hok) as (s' & log' & E & _ & _ & k & (H1 & H2 & H3) & H4 & H5). exists s', log', k.
  split_and!; try done. destruct H5 as [H5|H5]; [left|by right]. intros key [h Eh]. by eapply H5.
Qed.


(** C14: rename gives the node its new name and takes the old one; every other name leads where it led.  When both names
    lead to the same node, nothing happens. *)
Theorem rename_spec time log s tm cx parent_src name_src parent_dst name_dst inode child s' log' :
  history goals (new_master time) log (MkMaster s tm) -> client cx -> names_left s -> ~ into_itself cx parent_src name_src parent_dst s ->
  rename goals cx parent_src name_src parent_dst name_dst inode s = Some (inr child, s', log') ->
  renamed cx parent_src name_src parent_dst name_dst s child s'.
Proof.
  intros H (u & g & Hcx) Hleft Hself E. destruct (reached goals _ _ _ _ H) as [Hok _].
  destruct (rename_ends goals cx u g parent_src name_src parent_dst name_dst inode s Hcx Hok Hleft Hself) as [[e E']|(r & s2 & log2 & (E' & _) & HQ)].
  - congruence.
  - by rewrite E' in E; injection E as <- <- _.
Qed.

(** C26: the quotas of a move are those of the directories that the node gets below and was not below: the move is refused
    just when one of the directories from the destination to the root that the source is not below exceeds its limit. *)
Theorem move_quota_exact time log s tm src dst an bn resources :
  history goals (new_master time) log (MkMaster s tm) -> md_nodes s !! src = Some an -> is_dir an = true -> md_nodes s !! dst = Some bn -> is_dir bn = true ->
  exists above_src above_dst, chain (md_nodes s) src above_src /\ chain (md_nodes s) dst above_dst /\
    quota_exceeded_dir_move (md_nodes s) (md_quota s) dst src resources =
      Some (existsb (tested (md_nodes s) (md_quota s) resources) (List.filter (fun p => negb (bool_decide (p ∈ above_src))) above_dst)).
Proof.
  intros H Ea Ha Eb Hb. destruct (reached goals _ _ _ _ H) as [Hok _]. pose proof (mo_tree _ _ Hok) as T.
  destruct (tree_chain _ _ _ _ _ _ T Ea (is_dir_directory _ _ Hok _ _ Ea Ha)) as [la Hla].
  destruct (tree_chain _ _ _ _ _ _ T Eb (is_dir_directory _ _ Hok _ _ Eb Hb)) as [lb Hlb]. exists la, lb. split; [done|]. split; [done|].
  by eapply exceeded_move_chain; [exact Hla|exact Hlb|eapply chain_last|eapply chain_last].
Qed.

End theorems.

(** ** Witnesses *)

Lemma shadow_follows_witness :
  exists s tm, history sample_goals (new_master 0) sample_log (MkMaster s tm) /\ replay_log sample_goals sample_log (fs_new 0) = Some s.
Proof.
  destruct sample_history as (s & tm & n & H & _). exists s, tm. split; [exact H|]. apply (shadow_follows sample_goals 0 sample_log s tm H).
Defined.

Lemma requests_never_fail_witness :
  exists s tm, history sample_goals (new_master 0) sample_log (MkMaster s tm) /\
    exists res s' log', serve sample_goals (sample_client 22) (SetLength 3 4096) tm s = Some (res, s', log') /\
      (forall e, res = inl e -> s' = s /\ log' = []).
Proof.
  destruct sample_history as (s & tm & n & H & _). exists s, tm. split; [exact H|].
  apply (requests_never_fail sample_goals 0 sample_log s tm (sample_client 22) (SetLength 3 4096) H (sample_client_ok 22) (conj I I)).
Defined.

Lemma accounting_witness :
  exists s tm, history sample_goals (new_master 0) sample_log (MkMaster s tm) /\ trashNodes (md_counters s) = wrap 32 (total (weight CTrash) (md_nodes s)).
Proof.
  destruct sample_history as (s & tm & n & H & _). exists s, tm. split; [exact H|]. exact (proj1 (accounting sample_goals 0 sample_log s tm H) CTrash).
Defined.

Lemma tree_well_formed_witness :
  exists s tm n, history sample_goals (new_master 0) sample_log (MkMaster s tm) /\ md_nodes s !! 2 = Some n /\
    (exists l, chain (md_nodes s) 2 l /\ list.last l = Some SPECIAL_INODE_ROOT) /\
    forall key, is_Some (trash (md_detached s) !! key) -> exists n, md_nodes s !! key.2 = Some n.
Proof.
  destruct sample_history as (s & tm & n & H & _ & En & Hd). exists s, tm, n. split; [exact H|]. split; [exact En|].
  destruct (tree_well_formed sample_goals 0 sample_log s tm H) as (Hn & Ht & _). split.
  - destruct (Hn 2 n En) as (_ & _ & _ & _ & _ & Hl). exact (Hl Hd).
  - intros key Hk. destruct (proj1 (Ht key) Hk) as (n1 & E1 & _). exists n1. exact E1.
Defined.

(** The watchdog expires after the first file. *)
Definition impatient : Watchdog := fun _ => true.

Lemma trash_emptied_witness :
  exists s tm, history sample_goals (new_master 0) sample_log (MkMaster s tm) /\ base.size (trash (md_detached s)) = 2%nat /\
    exists s' log' k, doEmptyTrash sample_goals impatient 1000000 s = Some (inr tt, s', log') /\
      (forall key, 1000000 <= key.1 -> trash (md_detached s') !! key = trash (md_detached s) !! key) /\
      trash (md_detached s') ⊆ trash (md_detached s) /\
      base.size (trash (md_detached s)) = (k + base.size (trash (md_detached s')))%nat /\
      (forall j, (S j < k)%nat -> impatient j = false) /\
      ((forall key, is_Some (trash (md_detached s') !! key) -> 1000000 <= key.1) \/ exists j, k = S j /\ impatient j = true).
Proof.
  destruct sample_history as (s & tm & n & H & Hsize & _). exists s, tm. split; [exact H|]. split; [exact Hsize|].
  apply (trash_emptied sample_goals 0 sample_log s tm impatient 1000000 H).
Defined.


(** The state after a request that is served. *)
Definition after (cx : Context) (r : request) (s : Metadata) : Metadata :=
  match serve sample_goals cx r no_jobs s with Some (_, s', _) => s' | None => s end.

Definition with_directory : Metadata := after (sample_client 10) (Mkdir false 1 d_name 493 0 false 2) (fs_new 0).

Lemma with_directory_history : history sample_goals (new_master 0) ([(10, CREATE 1 d_name kDirectory 493 0 0 0 2)] ++ []) (MkMaster with_directory no_jobs).
Proof.
  sample_step (sample_client 10) (Mkdir false 1 d_name 493 0 false 2); [sample_unused|].
  apply history_nil.
Qed.

Lemma rename_spec_witness :
  exists s' log', rename sample_goals (sample_client 11) 1 d_name 1 a_name 0 with_directory = Some (inr 2, s', log') /\
    renamed (sample_client 11) 1 d_name 1 a_name with_directory 2 s'.
Proof.
  assert (exists s' log', rename sample_goals (sample_client 11) 1 d_name 1 a_name 0 with_directory = Some (inr 2, s', log')) as (s' & log' & E)
    by (eexists _, _; vm_compute; reflexivity).
  exists s', log'. split; [exact E|].
  apply (rename_spec sample_goals 0 _ with_directory no_jobs (sample_client 11) 1 d_name 1 a_name 0 2 s' log' with_directory_history (sample_client_ok 11)).
  - vm_compute. reflexivity.
  - intros (src & dst & H1 & H2 & H3). vm_compute in H1, H2. assert (src = 1) as -> by congruence. assert (dst = 1) as -> by congruence.
    vm_compute in H3. congruence.
  - exact E.
Defined.

Lemma move_quota_exact_witness :
  exists above_src above_dst, chain (md_nodes with_directory) 1 above_src /\ chain (md_nodes with_directory) 2 above_dst /\
    quota_exceeded_dir_move (md_nodes with_directory) (md_quota with_directory) 2 1 [(kInodes, 1)] =
      Some (existsb (tested (md_nodes with_directory) (md_quota with_directory) [(kInodes, 1)]) (List.filter (fun p => negb (bool_decide (p ∈ above_src))) above_dst)).
Proof.
  eapply (move_quota_exact sample_goals 0 _ with_directory no_jobs 1 2 _ _ [(kInodes, 1)] with_directory_history); vm_compute; reflexivity.
Defined.
