(* ===== verification/FsPaths.v ===== *)
(** Paths of files in the trash: how unlink() writes them, how undel() reads them. *)
From S2P Require Import Prelude Serialization RichACL AclMasks AclStorage Nodes FileSize NodeAcl Trash Quota.
From S2P Require Import FsTree FsTreeInv FsTreeNodes FsTreeEdges DirQuota FsMeta FsMetaInv FsCreate FsMetaSteps.
From S2P Require Import FsMetaFields FsOps FsAttrOps FsRestore FsOpsRead FsReplay FsServe FsServeFiles.
From S2P Require Import FsServeTrash Tasks FsHistory FsTheorems.

(** ** Valid paths *)

Definition plain_char (c : Z) : bool := negb (c =? 0) && negb (c =? 47).
Definition dots_in (name : name_t) : Z := Z.of_nat (length (List.filter (Z.eqb 46) name)).

Lemma dots_bound name : dots_in name <= Z.of_nat (length name).
Proof. unfold dots_in. induction name as [|c name IH]; [done|]. cbn [List.filter]. destruct (46 =? c); cbn [length]; lia. Qed.

(** The names that only have dots. *)
Lemma dot_only name :
  isDotOnlySegment (Z.of_nat (length name)) (dots_in name) = bool_decide (name = [46]) || bool_decide (name = [46; 46]).
Proof.
  unfold isDotOnlySegment, dots_in. destruct name as [|a [|b [|c name]]]; cbn [List.filter length].
  - done.
  - destruct (Z.eqb_spec 46 a) as [<-|Ha]; [done|]. cbn. rewrite !bool_decide_false; [done|congruence..].
  - destruct (Z.eqb_spec 46 a) as [<-|Ha], (Z.eqb_spec 46 b) as [<-|Hb]; try done; cbn; rewrite !bool_decide_false; done || congruence.
  - rewrite (bool_decide_false (_ = [46])), (bool_decide_false (_ = [46; 46])) by congruence. rewrite !andb_false_iff. right. apply Z.leb_gt. lia.
Qed.

(** A name so far, which the loop has seen to be plain and short. *)
Lemma name_check_plain name :
  forallb plain_char name = true -> Z.of_nat (length name) <= kMaxFileNameLength ->
  nameCheck name = negb (Z.of_nat (length name) =? 0) && negb (isDotOnlySegment (Z.of_nat (length name)) (dots_in name)).
Proof.
  intros Hp Hl. unfold nameCheck. rewrite dot_only. fold plain_char. change (forallb _ name) with (forallb plain_char name). rewrite Hp, andb_true_r.
  rewrite (proj2 (Z.leb_le _ _) Hl), andb_true_r, negb_orb, andb_assoc. f_equal. f_equal. destruct name; [done|]. cbn [length].
  rewrite (proj2 (Z.ltb_lt _ _)) by lia. symmetry. apply negb_true_iff, Z.eqb_neq. lia.
Qed.

Lemma name_check_long name rest : kMaxFileNameLength < Z.of_nat (length name) -> nameCheck (name ++ rest) = false.
Proof.
  intros H. unfold nameCheck. rewrite (proj2 (Z.leb_gt (Z.of_nat (length (name ++ rest))) kMaxFileNameLength)) by (rewrite length_app; lia).
  by rewrite andb_false_r.
Qed.

Lemma name_check_zero name rest : nameCheck (name ++ 0 :: rest) = false.
Proof. unfold nameCheck. rewrite forallb_app. cbn [forallb]. cbn. by rewrite !andb_false_r. Qed.

Lemma valid_parts_names path : forall name,
  forallb plain_char name = true -> Z.of_nat (length name) <= kMaxFileNameLength ->
  valid_parts path (Z.of_nat (length name)) (dots_in name) =
    match segments path with seg :: segs => nameCheck (name ++ seg) && forallb nameCheck segs | [] => false end.
Proof.
  induction path as [|c path IH]; intros name Hp Hl; cbn [valid_parts segments].
  { rewrite app_nil_r, name_check_plain by done. by rewrite andb_true_r. }
  destruct (Z.eqb_spec c 0) as [->|H0].
  { change (0 =? 47) with false. cbn iota. destruct (segments path) as [|seg segs]; [by rewrite name_check_zero|]. by rewrite name_check_zero. }
  destruct (Z.eqb_spec c 47) as [->|H47].
  - rewrite app_nil_r, name_check_plain by done. f_equal. change (valid_parts path 0 0) with (valid_parts path (Z.of_nat (length (A := Z) [])) (dots_in [])). rewrite (IH [] eq_refl ltac:(done)). destruct (segments path) as [|seg segs] eqn:E; [|done].
    by apply segments_nonempty in E.
  - assert (forallb plain_char (name ++ [c]) = true) as Hp'.
    { rewrite forallb_app, Hp. cbn [forallb]. unfold plain_char. by rewrite (proj2 (Z.eqb_neq c 0)), (proj2 (Z.eqb_neq c 47)). }
    assert (dots_in (name ++ [c]) = if c =? 46 then dots_in name + 1 else dots_in name) as Hd.
    { unfold dots_in. rewrite List.filter_app, length_app. cbn [List.filter]. rewrite (Z.eqb_sym 46 c). destruct (c =? 46); cbn [length]; lia. }
    assert (Z.of_nat (length (name ++ [c])) = Z.of_nat (length name) + 1) as Hlen by (rewrite length_app; cbn [length]; lia).
    destruct (segments path) as [|seg segs] eqn:E; [by apply segments_nonempty in E|].
    assert (name ++ c :: seg = (name ++ [c]) ++ seg) as -> by (by rewrite <-app_assoc).
    destruct (Z.leb_spec (Z.of_nat (length name) + 1) kMaxFileNameLength); cbn [andb].
    + rewrite <-Hd, <-Hlen. apply (IH (name ++ [c]) Hp'). lia.
    + rewrite name_check_long by lia. done.
Qed.

Lemma validate_names path : validateTrashPath path = forallb nameCheck (segments (skip_slashes path)).
Proof.
  unfold validateTrashPath. destruct (skip_slashes path) as [|c rest] eqn:E; [done|].
  etransitivity; [exact (valid_parts_names (c :: rest) [] eq_refl ltac:(done))|].
  destruct (segments (c :: rest)) as [|seg segs] eqn:Es; [by apply segments_nonempty in Es|]. done.
Qed.

(** C28: undel() accepts a stored path just when every name between its slashes is a name that a client may use: not
    empty, at most 255 bytes long, neither [.] nor [..], and without zero bytes. *)
Theorem trash_path_names path : validateTrashPath path = forallb nameCheck (segments (skip_slashes path)).
Proof. apply validate_names. Qed.

(** ** The path of a file *)

(** The names, the last one first, with a slash before each. *)
Definition absolute (names : list name_t) : list Z := foldr (fun name path => path ++ 47 :: name) [] names.

(** The path from the root, without the first slash. *)
Definition joined (names : list name_t) : list Z := tail (absolute names).

Definition last_bytes (k : Z) (l : list Z) : list Z := drop (Z.to_nat (Z.of_nat (length l) - k)) l.

Lemma last_bytes_app k a b :
  0 <= k -> last_bytes k (a ++ b) = if Z.of_nat (length b) <=? k then last_bytes (k - Z.of_nat (length b)) a ++ b else last_bytes k b.
Proof.
  intros Hk. unfold last_bytes. rewrite length_app. destruct (Z.leb_spec (Z.of_nat (length b)) k).
  - rewrite drop_app_le by lia. f_equal. f_equal. lia.
  - rewrite drop_app_ge by lia. f_equal. lia.
Qed.

(** The buffer is filled from its end. *)
Lemma put_name_spec r path name :
  0 <= r -> put_name (r, path) name =
    (Z.max 0 (r - (Z.of_nat (length name) + 1)), last_bytes (Z.min r (Z.of_nat (length name) + 1)) (47 :: name) ++ path).
Proof.
  intros Hr. unfold put_name. set (len := Z.of_nat (length name)). assert (0 <= len) by lia.
  assert (Z.of_nat (length (47 :: name)) = len + 1) as Hlen by (cbn [length]; lia). unfold last_bytes. rewrite Hlen.
  destruct (Z.leb_spec len r); [destruct (Z.ltb_spec 0 (r - len))|destruct (Z.ltb_spec 0 r)].
  - rewrite Z.min_r, Z.max_r by lia. replace (Z.to_nat (len + 1 - (len + 1))) with 0%nat by lia. cbn [drop app]. f_equal. lia.
  - rewrite Z.min_l, Z.max_l by lia. replace (Z.to_nat (len + 1 - r)) with 1%nat by lia. cbn [drop app]. f_equal. lia.
  - change (0 <? 0) with false. cbn iota. rewrite Z.min_l, Z.max_l by lia. f_equal. f_equal.
    replace (Z.to_nat (len + 1 - r)) with (S (Z.to_nat (len - r))) by lia. done.
  - rewrite (proj2 (Z.ltb_ge 0 r)) by lia. rewrite Z.min_l, Z.max_l by lia. f_equal; [lia|]. rewrite drop_ge by (cbn [length]; lia). done.
Qed.

Lemma put_names names : forall r path, 0 <= r ->
  foldl put_name (r, path) names =
    (Z.max 0 (r - Z.of_nat (length (absolute names))), last_bytes (Z.min r (Z.of_nat (length (absolute names)))) (absolute names) ++ path).
Proof.
  induction names as [|name names IH]; intros r path Hr; cbn [foldl absolute foldr].
  { unfold last_bytes. cbn [length drop app]. rewrite Z.min_r, Z.max_r by lia. rewrite drop_nil. f_equal. lia. }
  rewrite put_name_spec by done. fold (absolute names). rewrite IH by lia. rewrite length_app. cbn [length]. set (a := Z.of_nat (length (absolute names))).
  set (len := Z.of_nat (length name)). f_equal; [lia|]. rewrite last_bytes_app by lia. cbn [length].
  destruct (Z.leb_spec (Z.of_nat (S (length name))) (Z.min r (Z.of_nat (length (absolute names) + S (length name))))) as [H|H].
  - rewrite (Z.min_r r (len + 1)) by lia. rewrite app_assoc. f_equal.
    unfold last_bytes at 2. cbn [length]. replace (Z.to_nat (Z.of_nat (S (length name)) - (len + 1))) with 0%nat by lia. cbn [drop].
    f_equal. f_equal. lia.
  - rewrite (Z.min_l r (len + 1)) by lia. replace (Z.max 0 (r - (len + 1))) with 0 by lia. rewrite (Z.min_l 0) by lia.
    unfold last_bytes at 1. rewrite drop_ge by lia. cbn [app]. f_equal. f_equal. lia.
Qed.

Lemma getPathSize_spec name names :
  getPathSize (name :: names) = u32 (Z.of_nat (length (absolute (name :: names))) - 1).
Proof.
  assert (forall names r, foldl (fun size name => u32 (size + (Z.of_nat (length name) + 1))) (u32 r) names =
    u32 (r + Z.of_nat (length (absolute names)))) as H.
  { clear. induction names as [|name names IH]; intros r; cbn [foldl absolute foldr]; [cbn [length]; f_equal; lia|].
    assert (u32 (u32 r + (Z.of_nat (length name) + 1)) = u32 (r + (Z.of_nat (length name) + 1))) as -> by (unfold u32, wrap; apply Zplus_mod_idemp_l).
    fold (absolute names). rewrite IH, length_app. cbn [length]. f_equal. lia. }
  unfold getPathSize. rewrite H. cbn [absolute foldr]. fold (absolute names). rewrite length_app. cbn [length]. f_equal. lia.
Qed.

Lemma absolute_slash name names : exists rest, absolute (name :: names) = 47 :: rest.
Proof.
  revert name. induction names as [|name' names IH]; intros name; [by exists name|]. destruct (IH name') as [rest E].
  cbn [absolute foldr]. cbn [absolute foldr] in E. rewrite E. by eexists.
Qed.

Lemma getPathData_length names size : 0 <= size -> Z.of_nat (length (getPathData names size)) = size.
Proof.
  intros Hs. unfold getPathData. rewrite put_names by done. rewrite !length_app, length_replicate. unfold last_bytes. rewrite length_drop. cbn [length]. lia.
Qed.

Lemma getPathData_suffix name names :
  Z.of_nat (length (joined (name :: names))) < 2 ^ 32 ->
  getPathData (name :: names) (Z.min (getPathSize (name :: names)) kEdgeNameMaxSize) = last_bytes kEdgeNameMaxSize (joined (name :: names)).
Proof.
  unfold joined. destruct (absolute_slash name names) as [rest E]. rewrite getPathSize_spec, E. cbn [tail length]. intros Hl.
  unfold u32, wrap. rewrite Z.mod_small by lia. replace (Z.of_nat (S (length rest)) - 1) with (Z.of_nat (length rest)) by lia.
  unfold getPathData. rewrite put_names, E by (unfold kEdgeNameMaxSize; lia). cbn [length]. unfold kEdgeNameMaxSize.
  rewrite Z.max_l by lia. cbn [Z.to_nat replicate app]. rewrite app_nil_r. unfold last_bytes. cbn [length].
  replace (Z.to_nat (Z.of_nat (S (length rest)) - Z.min (Z.min (Z.of_nat (length rest)) 65535) (Z.of_nat (S (length rest)))))
    with (S (Z.to_nat (Z.of_nat (length rest) - 65535))) by lia. done.
Qed.

(** From a directory down, through directories. *)
Fixpoint walk_down (nodes : nodes_t) (x : Z) (names : list name_t) (y : Z) : Prop :=
  match names with
  | [] => x = y
  | name :: names => exists z zn, FsTree.lookup nodes x name = Some z /\ nodes !! z = Some zn /\ is_dir zn = true /\ walk_down nodes z names y
  end.

Lemma walk_down_app nodes names : forall x y name z zn,
  walk_down nodes x names y -> FsTree.lookup nodes y name = Some z -> nodes !! z = Some zn -> is_dir zn = true ->
  walk_down nodes x (names ++ [name]) z.
Proof.
  induction names as [|name' names IH]; intros x y name z zn; cbn [walk_down app].
  - intros -> El Ez Hd. by exists z, zn.
  - intros (w & wn & H1 & H2 & H3 & H4) El Ez Hd. exists w, wn. split; [done|]. split; [done|]. split; [done|]. by eapply IH.
Qed.

Section paths.
Context (goals : Z -> Goals.Goal).
Notation root := SPECIAL_INODE_ROOT.
Notation meta_ok := (meta_ok goals).

Lemma single_name dir n name : node_parents n = [(dir, name)] -> getChildName dir n = name.
Proof. intros E. unfold getChildName. rewrite E. cbn [List.find]. by rewrite Z.eqb_refl. Qed.

(** The names on the way up are those on the way down. *)
Lemma names_up_walk s p l :
  meta_ok s -> chain (md_nodes s) p l ->
  exists names, walk_down (md_nodes s) root names p /\
    forall child cn fuel, md_nodes s !! child = Some cn -> (length l <= fuel)%nat ->
      names_up (md_nodes s) fuel p child = Some (getChildName p cn :: reverse names).
Proof.
  intros Hok H. induction H as [p E|p q name l E H IH].
  - exists []. assert (p = root) as -> by (pose proof (chain_last goals s Hok p [p] (chain_end _ _ E)) as H; by injection H).
    split; [done|]. intros child cn [|fuel] Ec Hf; [simpl in Hf; lia|]. cbn [names_up]. unfold dir_parents in E.
    destruct (md_nodes s !! root) as [rn|]; [|done]. cbn [mbind option_bind] in E |- *. destruct (directory_of rn); [|done]. cbn [mbind option_bind].
    rewrite Ec. done.
  - destruct IH as (names & Hw & Hup). unfold dir_parents in E. destruct (md_nodes s !! p) as [pn|] eqn:Ep; [|done].
    cbn [mbind option_bind] in E. destruct (directory_of pn) as [d|] eqn:Ed; [|done]. injection E as Hp.
    assert (FsTree.lookup (md_nodes s) q name = Some p) as El.
    { apply (lookup_edge goals root no_debt); [apply Hok|]. apply (edge_parents goals root no_debt _ _ _ _ pn); [apply Hok|done|]. rewrite Hp. set_solver. }
    exists (names ++ [name]). split.
    + eapply walk_down_app; [exact Hw|exact El|exact Ep|]. eapply directory_is_dir; [exact Hok|exact Ep|]. by rewrite Ed.
    + intros child cn [|fuel] Ec Hf; [simpl in Hf; lia|]. cbn [names_up]. rewrite Ep. cbn [mbind option_bind]. rewrite Ed. cbn [mbind option_bind]. rewrite Ec.
      cbn [mbind option_bind]. assert (p <> root) as Hr.
      { intros ->. destruct (to_root _ _ _ _ (mo_tree _ _ Hok)) as (rn & Er & _ & Hrp). congruence. }
      rewrite (proj2 (Z.eqb_neq p root)) by done. rewrite Hp. rewrite (Hup p pn fuel Ep) by (simpl in Hf; lia). cbn [mbind option_bind].
      by rewrite (single_name q pn name Hp), reverse_app.
Qed.

(** C27: the path that unlink() stores for a file is the path that leads to it from the root, or its last 65535 bytes when
    it is longer; it never needs more room than an entry of the trash has. *)
Theorem getPath_bounded time log s tm dir child cn name :
  history goals (new_master time) log (MkMaster s tm) -> md_nodes s !! child = Some cn -> (dir, name) ∈ node_parents cn ->
  exists down path, walk_down (md_nodes s) root down dir /\ getPath (md_nodes s) dir child = Some path /\
    Z.of_nat (length path) <= kEdgeNameMaxSize /\
    let full := joined (getChildName dir cn :: reverse down) in
    Z.of_nat (length full) < 2 ^ 32 -> path = last_bytes kEdgeNameMaxSize full.
Proof.
  intros H Ec Hin. destruct (reached goals _ _ _ _ H) as [Hok _].
  destruct (no_back _ _ _ _ _ (to_nodes _ _ _ _ (mo_tree _ _ Hok) child cn Ec) dir name Hin) as (pn & d & Ep & Ed & _).
  destruct (tree_chain _ _ _ _ _ _ (mo_tree _ _ Hok) Ep ltac:(eauto)) as [l Hl]. destruct (names_up_walk s dir l Hok Hl) as (down & Hw & Hup).
  specialize (Hup child cn (stats_fuel (md_nodes s)) Ec). exists down. eexists. split; [done|]. unfold getPath.
  rewrite Hup by (apply chain_length in Hl; unfold stats_fuel; lia). cbn [mbind option_bind]. split; [done|]. split.
  - rewrite getPathData_length; [lia|]. rewrite getPathSize_spec. unfold u32, wrap, kEdgeNameMaxSize.
    pose proof (Z.mod_pos_bound (Z.of_nat (length (absolute (getChildName dir cn :: reverse down))) - 1) (2 ^ 32)). lia.
  - intros Hfull. by apply getPathData_suffix.
Qed.

(** ** Removed and restored *)

Lemma segments_app p q : segments (p ++ 47 :: q) = segments p ++ segments q.
Proof.
  induction p as [|c p IH]; [done|]. cbn [segments app]. destruct (c =? 47); [by rewrite IH|]. rewrite IH.
  destruct (segments p) as [|name names] eqn:E; [by apply segments_nonempty in E|done].
Qed.

Lemma nameCheck_plain name : nameCheck name = true -> name <> [] /\ forallb plain_char name = true.
Proof.
  unfold nameCheck. rewrite !andb_true_iff. intros [[[[H1 _] _] _] H2]. split; [|exact H2]. intros ->. done.
Qed.

Lemma segments_plain name : forallb plain_char name = true -> segments name = [name].
Proof.
  induction name as [|c name IH]; [done|]. cbn [forallb segments]. unfold plain_char at 1. rewrite !andb_true_iff. intros [[_ Hc] Hn].
  apply negb_true_iff in Hc. rewrite Hc, IH by done. done.
Qed.

Lemma joined_cons name name' names : joined (name :: name' :: names) = joined (name' :: names) ++ 47 :: name.
Proof.
  unfold joined. destruct (absolute_slash name' names) as [rest E]. change (absolute (name :: name' :: names)) with (absolute (name' :: names) ++ 47 :: name).
  by rewrite E.
Qed.

(** The names of a joined path, and no slash before them. *)
Lemma joined_names names :
  names <> [] -> forallb nameCheck names = true ->
  segments (joined names) = reverse names /\ exists c rest, joined names = c :: rest /\ (c =? 47) = false.
Proof.
  induction names as [|name names IH]; [done|]. intros _. cbn [forallb]. rewrite andb_true_iff. intros [Hn Hns].
  destruct (nameCheck_plain name Hn) as [Hne Hp]. destruct names as [|name' names].
  - unfold joined. cbn [absolute foldr tail app]. split; [by apply segments_plain|]. destruct name as [|c name]; [done|]. exists c, name. split; [done|].
    cbn [forallb] in Hp. unfold plain_char at 1 in Hp. rewrite !andb_true_iff in Hp. destruct Hp as [[_ Hc] _]. by apply negb_true_iff in Hc.
  - rewrite joined_cons. destruct (IH ltac:(done) Hns) as (H1 & c & rest & E & Hc). split.
    + by rewrite segments_app, H1, (segments_plain name), (reverse_cons _ name) by done.
    + rewrite E. by exists c, (rest ++ 47 :: name).
Qed.

Lemma joined_segments names :
  names <> [] -> forallb nameCheck names = true -> segments (skip_slashes (joined names)) = reverse names.
Proof. intros H1 H2. destruct (joined_names names H1 H2) as (H3 & c & rest & E & Hc). rewrite E in *. cbn [skip_slashes]. by rewrite Hc. Qed.

(** unlink() of the only name of a file that the trash keeps. *)
Lemma unlink_trashed s dir name child cn timeStamp :
  meta_ok s -> md_nodes s !! child = Some cn -> node_type cn = kFile -> node_parents cn = [(dir, name)] -> 0 < node_trashtime cn ->
  names_left s ->
  exists s1 n1 path, unlink goals timeStamp dir name child s = Some s1 /\ meta_ok s1 /\ unlinked (md_nodes s) (md_nodes s1) dir name child /\
    md_nodes s1 !! child = Some n1 /\ node_type n1 = kTrash /\ getPath (md_nodes s) dir child = Some path /\ stored_path n1 s1 = Some path.
Proof.
  intros Hok Ec Ht Hp Htt Hmax. pose proof (tree_typed goals _ _ _ (mo_tree _ _ Hok) Ec) as Hty.
  assert (edge (md_nodes s) dir name child) as He by (apply (edge_parents goals root no_debt _ _ _ _ cn); [apply Hok|done|rewrite Hp; set_solver]).
  assert (is_file cn = true) as Hfile by (unfold is_file; by rewrite Ht).
  destruct (unlink_ok goals s Hok dir child name cn He Ec ltac:(intros d Hd; by rewrite (file_not_dir cn Hty Hfile) in Hd) Hmax timeStamp) as (s1 & E & Hok1 & U).
  destruct (getPath_runs goals s Hok dir child name cn He Ec) as [path Epath].
  destruct (removeEdge_rest goals _ _ _ _ _ timeStamp (mo_tree _ _ Hok) He Ec ltac:(congruence)) as (nodes1 & cn1 & dirf & Er & T & Hsim & _ & Ecn1 & Hch & _ & Hst).
  specialize (Hst (mo_status _ _ Hok)). destruct (similar_rest goals s nodes1 Hok Hsim) as (Ha & Hb & Hh).
  destruct (file_type_data cn Hty Hfile) as (len & ses & ch & Edata).
  assert (file_of cn1 = Some (len, ses, ch)) as Hf1 by (unfold file_of; rewrite (ch_data _ _ _ _ Hch), Edata; done).
  assert (node_parents cn1 = []) as Hp1.
  { rewrite (ch_parents _ _ _ _ Hch), Hp. cbn [erase_first is_parent]. rewrite Z.eqb_refl, bool_decide_true by done. done. }
  destruct (to_trash goals (set_nodes s nodes1) T Ha Hb Hh child cn1 Ecn1 Hp1 (edge_not_root goals root no_debt _ _ _ _ (mo_tree _ _ Hok) He)
    ltac:(unfold where_of; by rewrite (ch_type _ _ _ _ Hch), Ht) Hst timeStamp len ses ch path ltac:(by rewrite (ch_type _ _ _ _ Hch)) Hf1 Hmax) as (d & Ed & _ & Hpath).
  exists s1, (with_ctime (with_type cn1 kTrash) timeStamp), path. split; [done|]. split; [done|]. split; [done|].
  assert (file_of cn = Some (len, ses, ch)) as Hf by (unfold file_of; by rewrite Edata).
  unfold unlink in E. rewrite Ec in E. cbn [mbind option_bind] in E. rewrite Hp, Ht, Hf in E.
  rewrite (bool_decide_true (length _ = 1%nat)), (bool_decide_true (kFile = kFile)) in E by done. cbn [mbind option_bind andb] in E.
  rewrite (proj2 (Z.ltb_lt 0 _) Htt) in E. cbn [orb] in E. rewrite Epath in E. cbn [mbind option_bind] in E. rewrite Er in E. cbn [mbind option_bind] in E.
  cbn [set_nodes md_nodes] in E. rewrite Ecn1 in E. cbn [mbind option_bind] in E. rewrite Hp1, (ch_type _ _ _ _ Hch), Ht, Hf1 in E.
  rewrite (bool_decide_true ([] = [])), (bool_decide_true (kFile = kFile)) in E by done. cbn [negb mbind option_bind] in E.
  rewrite (ch_trashtime _ _ _ _ Hch), (proj2 (Z.ltb_lt 0 _) Htt) in E.
  rewrite Ed in E. cbn [mbind option_bind] in E. injection E as <-. split; [apply lookup_insert_eq|]. done.
Qed.

(** The directories on the way are still there. *)
Lemma walk_unlinked s s1 dir name child cn names : forall x y,
  meta_ok s -> meta_ok s1 -> md_nodes s !! child = Some cn -> is_dir cn = false -> unlinked (md_nodes s) (md_nodes s1) dir name child ->
  edge (md_nodes s) dir name child -> walk_down (md_nodes s) x names y -> walk_down (md_nodes s1) x names y.
Proof.
  induction names as [|nm names IH]; intros x y Hok Hok1 Ec Hnd U He; [done|]. cbn [walk_down]. intros (z & zn & El & Ez & Hd & Hw).
  assert (z <> child) as Hz by congruence. destruct U as [U1 U2]. destruct (U2 z Hz zn Ez) as (zn1 & dirf & Ez1 & Hch). exists z, zn1.
  split; [|split; [done|split; [|by eapply IH]]].
  - apply (lookup_edge goals root no_debt); [apply Hok1|]. apply U1. apply (lookup_edge goals root no_debt) in El; [|apply Hok]. split; [done|].
    intros [= -> ->]. by apply Hz, (edge_unique goals root no_debt (md_nodes s) dir name _ _ (mo_tree _ _ Hok)).
  - unfold is_dir in *. by rewrite (ch_type _ _ _ _ Hch).
Qed.

Lemma walk_found cx c name s names : forall x y,
  walk_down (md_nodes s) x names y -> undel_walk goals cx c x false (names ++ [name]) [] s = undel_walk goals cx c y false [name] [] s.
Proof.
  induction names as [|nm names IH]; intros x y; cbn [walk_down app]; [by intros ->|]. intros (z & zn & El & Ez & Hd & Hw).
  rewrite (walk_shadow goals cx c x nm (names ++ [name]) z zn s) by (done || by destruct names). by apply IH.
Qed.

(** undel() of a file whose directories are there. *)
Lemma undel_found s x n dir dn name down timeStamp cx :
  meta_ok s -> md_nodes s !! x = Some n -> node_type n = kTrash -> md_nodes s !! dir = Some dn -> is_Some (directory_of dn) ->
  FsTree.lookup (md_nodes s) dir name = None -> walk_down (md_nodes s) root down dir -> forallb nameCheck (name :: reverse down) = true ->
  stored_path n s = Some (joined (name :: reverse down)) -> ts cx = timeStamp ->
  exists s2 n2, undel_node goals cx x [] s = Some (inr tt, s2, []) /\ meta_ok s2 /\ md_nodes s2 !! x = Some n2 /\ node_type n2 = kFile /\
    forall p nm c, edge (md_nodes s2) p nm c <-> edge (md_nodes s) p nm c \/ (p, nm, c) = (dir, name, x).
Proof.
  intros Hok En Ht Ed Hdd Hfree Hw Hnames Hst <-. assert (isNameUsed (md_nodes s) dir name = false) as Hused by (unfold isNameUsed; by rewrite Hfree).
  destruct (undel_link_ok goals s x n dir name dn (ts cx) Hok En Ht Ed Hdd Hused) as (s2 & E & Hok2 & L1 & L2 & L3).
  destruct (L3 _ (lookup_insert_eq _ _ _)) as (n2 & dirf & En2 & Hch). exists s2, n2.
  split; [|split; [done|split; [done|split; [by rewrite (ch_type _ _ _ _ Hch)|]]]].
  - rewrite (undel_node_walk goals cx x [] s n _ En Hst), validate_names, joined_segments by done. rewrite reverse_cons, reverse_involutive.
    replace (forallb nameCheck (down ++ [name])) with true.
    + rewrite (walk_found cx x name s down root dir Hw). cbn [undel_walk]. rewrite op_bind_run, free_name_run by done. by rewrite effect_run, E.
    + symmetry. apply forallb_forall. intros nm Hin. apply (proj1 (forallb_forall _ _) Hnames). apply list_elem_of_In. apply list_elem_of_In in Hin.
      rewrite elem_of_cons, elem_of_reverse. set_solver.
  - intros p nm c. rewrite L1, (put_edges _ _ n) by done. done.
Qed.

(** C15: undel() undoes unlink().  A file with one name is removed and restored; when the names on its path are valid and
    the path fits into an entry of the trash, every name of the file system leads where it led before, and the node is an
    ordinary file again. *)
Theorem undel_restores time log s tm dir name child cn names timeStamp cx :
  history goals (new_master time) log (MkMaster s tm) -> md_nodes s !! child = Some cn -> node_type cn = kFile -> node_parents cn = [(dir, name)] ->
  0 < node_trashtime cn -> names_left s -> names_up (md_nodes s) (stats_fuel (md_nodes s)) dir child = Some names ->
  forallb nameCheck names = true -> Z.of_nat (length (joined names)) <= kEdgeNameMaxSize ->
  exists s1 s2 n2, unlink goals timeStamp dir name child s = Some s1 /\ FsTree.lookup (md_nodes s1) dir name = None /\
    undel_node goals cx child [] s1 = Some (inr tt, s2, []) /\ md_nodes s2 !! child = Some n2 /\ node_type n2 = kFile /\
    forall p nm, FsTree.lookup (md_nodes s2) p nm = FsTree.lookup (md_nodes s) p nm.
Proof.
  intros H Ec Ht Hp Htt Hleft Hup Hnames Hlen. destruct (reached goals _ _ _ _ H) as [Hok _]. pose proof (mo_tree _ _ Hok) as T.
  assert (edge (md_nodes s) dir name child) as He by (apply (edge_parents goals root no_debt _ _ _ _ cn); [done|done|rewrite Hp; set_solver]).
  destruct (unlink_trashed s dir name child cn timeStamp Hok Ec Ht Hp Htt Hleft) as (s1 & n1 & path & E1 & Hok1 & U & En1 & Ht1 & Epath & Hst).
  pose proof He as (dn & dd & Edn & Edd & _). destruct (tree_chain _ _ _ _ _ _ T Edn ltac:(eauto)) as [l Hl].
  destruct (names_up_walk s dir l Hok Hl) as (down & Hw & Hups). rewrite (Hups child cn _ Ec) in Hup by (apply chain_length in Hl; unfold stats_fuel; lia).
  rewrite (single_name dir cn name Hp) in Hup. injection Hup as <-.
  assert (path = joined (name :: reverse down)) as ->.
  { unfold getPath in Epath. rewrite (Hups child cn _ Ec) in Epath by (apply chain_length in Hl; unfold stats_fuel; lia).
    rewrite (single_name dir cn name Hp) in Epath. injection Epath as <-. rewrite getPathData_suffix by (unfold kEdgeNameMaxSize in Hlen; lia).
    unfold last_bytes. by replace (Z.to_nat _) with 0%nat by lia. }
  destruct U as [U1 U2]. assert (is_dir cn = false) as Hnd by (unfold is_dir; by rewrite Ht). assert (dir <> child) as Hdc.
  { intros ->. assert (is_dir dn = true) by (by eapply directory_is_dir; [|exact Edn|rewrite Edd]). congruence. }
  destruct (survives_is_dir _ _ dir dn (U2 dir Hdc) Edn ltac:(eauto)) as (dn1 & Edn1 & Hdd1).
  assert (FsTree.lookup (md_nodes s1) dir name = None) as Hnone.
  { apply (lookup_no_edge goals root no_debt); [apply Hok1|]. intros c Hc. by apply U1 in Hc as [_ ?]. }
  destruct (undel_found s1 child n1 dir dn1 name down (ts cx) cx) as (s2 & n2 & E2 & Hok2 & En2 & Ht2 & He2); try done.
  { exact (walk_unlinked s s1 dir name child cn down root dir Hok Hok1 Ec Hnd (conj U1 U2) He Hw). }
  exists s1, s2, n2. do 5 (split; [done|]). intros p nm. apply option_eq. intros c. rewrite !(lookup_edge goals root no_debt) by (apply Hok || apply Hok2).
  rewrite He2, U1. split.
  - intros [[? _]|[= -> -> ->]]; done.
  - intros Hc. destruct (decide ((p, nm) = (dir, name))) as [[= -> ->]|]; [right|by left]. f_equal.
    by apply (edge_unique goals root no_debt (md_nodes s) dir name _ _ (mo_tree _ _ Hok)).
Qed.

End paths.

(** ** Witnesses *)

(** A file in a directory. *)
Definition with_file_below : Metadata := after (sample_client 11) (Mknod 2 a_name kFile 420 0 0 3) with_directory.

Definition file_log : list (Z * LogEntry) :=
  [(10, CREATE 1 d_name kDirectory 493 0 0 0 2)] ++ [(11, CREATE 2 a_name kFile 420 0 0 0 3)] ++ [].

Lemma file_history : history sample_goals (new_master 0) file_log (MkMaster with_file_below no_jobs).
Proof.
  sample_step (sample_client 10) (Mkdir false 1 d_name 493 0 false 2); [sample_unused|].
  sample_step (sample_client 11) (Mknod 2 a_name kFile 420 0 0 3); [sample_unused|].
  apply history_nil.
Qed.

Definition the_file : FSNode := default (new_root 0) (md_nodes with_file_below !! 3).

Lemma getPath_bounded_witness :
  exists down path, walk_down (md_nodes with_file_below) SPECIAL_INODE_ROOT down 2 /\ getPath (md_nodes with_file_below) 2 3 = Some path /\
    Z.of_nat (length path) <= kEdgeNameMaxSize.
Proof.
  assert (md_nodes with_file_below !! 3 = Some the_file) as En by (vm_compute; reflexivity).
  assert ((2, a_name) ∈ node_parents the_file) as Hin by (apply list_elem_of_In; vm_compute; by left).
  destruct (getPath_bounded sample_goals 0 file_log with_file_below no_jobs 2 3 the_file a_name file_history En Hin) as (down & path & H1 & H2 & H3 & _).
  exists down, path. split; [exact H1|]. split; [exact H2|exact H3].
Defined.

Lemma undel_restores_witness :
  exists s1 s2 n2, unlink sample_goals 12 2 a_name 3 with_file_below = Some s1 /\ FsTree.lookup (md_nodes s1) 2 a_name = None /\
    undel_node sample_goals (sample_client 13) 3 [] s1 = Some (inr tt, s2, []) /\ md_nodes s2 !! 3 = Some n2 /\ node_type n2 = kFile /\
    forall p nm, FsTree.lookup (md_nodes s2) p nm = FsTree.lookup (md_nodes with_file_below) p nm.
Proof.
  apply (undel_restores sample_goals 0 file_log with_file_below no_jobs 2 a_name 3 the_file [a_name; d_name] 12 (sample_client 13) file_history);
    try (vm_compute; reflexivity). vm_compute. discriminate.
Defined.
