(* ===== verification/FsDivergence.v ===== *)
(** Requests that the code does not treat as it means to; the theorems of FsTheorems.v leave them out ([allowed]).  For each,
    what the code does instead, on every state that a history reaches. *)
From S2P Require Import Prelude Serialization RichACL AclMasks AclText AclStorage Nodes FileSize NodeAcl Trash Quota.
From S2P Require Import FsTree FsTreeInv FsTreeNodes FsTreeEdges DirQuota FsMeta FsMetaInv FsCreate FsMetaSteps.
From S2P Require Import FsMetaFields FsOps FsAttrOps FsRestore FsOpsRead FsReplay FsServe FsServeFiles.
From S2P Require Import FsServeTrash FsServeAttr Tasks FsHistory FsTheorems.

(** What an operation that returned has read before. *)
Lemma read_inv {A B} (m : Op A) (f : A -> Op B) s P r s' log :
  reading m s P -> (m ≫= f) s = Some (inr r, s', log) -> exists x, P x /\ f x s = Some (inr r, s', log).
Proof.
  intros ([e|x] & E & H) Hf.
  - by rewrite (bind_error m f s e E) in Hf.
  - rewrite (bind_pure m f s x E) in Hf. eauto.
Qed.

(** ** A directory that is moved into itself *)

(** link() up to the call of addStats(). *)
Definition link_edges (parent child : Z) (name : name_t) (nodes : nodes_t) : option nodes_t :=
  pn ← nodes !! parent; d ← directory_of pn; cn ← nodes !! child;
  let nodes := upd parent (upd_dir (fun d =>
    let d := with_entries d ((name, child) :: entries d) in
    if caseInsensitive d then with_lower d ((hstringToLowerCase name, child) :: lowerCaseEntries d) else d)) nodes in
  let nodes := upd child (fun n => with_parents n (node_parents n ++ [(parent, name)])) nodes in
  Some (if is_dir cn then upd parent (upd_dir (fun d => with_nlink d (u32 (nlink d + 1)))) nodes else nodes).

Lemma link_stuck goals root timeStamp parent child name nodes nodes1 :
  link_edges parent child name nodes = Some nodes1 -> (forall stats, addStats root parent stats nodes1 = None) ->
  FsTree.link goals root timeStamp parent child name nodes = None.
Proof.
  unfold link_edges, FsTree.link. intros E H. destruct (nodes !! parent) as [pn|]; [|done]. cbn [mbind option_bind] in *.
  destruct (directory_of pn); [|done]. cbn [mbind option_bind] in *. destruct (nodes !! child) as [cn|]; [|done].
  cbv zeta in *. cbn [mbind option_bind] in *. injection E as <-. destruct (_ !! child) as [cn1|]; [|done]. cbn [mbind option_bind]. by rewrite H.
Qed.

(** The recursion over the parents of a directory that is its own parent. *)
Lemma own_parent_never_ends change root x name fuel : forall (nodes : nodes_t) n d,
  nodes !! x = Some n -> directory_of n = Some d -> node_parents n = [(x, name)] -> x <> root -> change_stats change root fuel x nodes = None.
Proof.
  induction fuel as [|fuel IH]; intros nodes n d En Ed Hp Hr; [done|]. cbn [change_stats]. rewrite En. cbn [mbind option_bind]. rewrite Ed.
  cbn [mbind option_bind]. rewrite (proj2 (Z.eqb_neq x root)) by done. rewrite Hp. cbn [foldl mbind option_bind].
  assert (node_data n = DirectoryData d) as Hd by (unfold directory_of in Ed; destruct (node_data n); congruence).
  eapply (IH _ (with_data n (DirectoryData (with_stats d (change (dir_stats d)))))); [|done|done|done].
  unfold upd. rewrite lookup_alter_eq, En. unfold upd_dir. cbn [fmap option_fmap option_map]. by rewrite Hd.
Qed.

(** A directory without a parent that gets itself as parent. *)
Lemma own_parent_edges x n d name (nodes : nodes_t) :
  nodes !! x = Some n -> directory_of n = Some d -> is_dir n = true -> node_parents n = [] ->
  exists nodes' n' d', link_edges x x name nodes = Some nodes' /\ nodes' !! x = Some n' /\ directory_of n' = Some d' /\
    node_parents n' = [(x, name)].
Proof.
  intros En Ed Hd Hp. assert (node_data n = DirectoryData d) as Hdata by (unfold directory_of in Ed; destruct (node_data n); congruence).
  unfold link_edges. rewrite En. cbn [mbind option_bind]. rewrite Ed. cbn [mbind option_bind]. rewrite Hd.
  eexists _, _, _. split; [reflexivity|]. split; [unfold upd; rewrite !lookup_alter_eq, En; reflexivity|].
  assert (forall f n0 d0, node_data n0 = DirectoryData d0 -> node_data (upd_dir f n0) = DirectoryData (f d0)) as Hdir
    by (intros f n0 d0 E0; unfold upd_dir; by rewrite E0).
  assert (forall f n0, node_parents (upd_dir f n0) = node_parents n0) as Hpar by (intros f n0; unfold upd_dir; by destruct (node_data n0)).
  split; [|rewrite Hpar; unfold with_parents; cbn [node_parents]; by rewrite Hpar, Hp].
  unfold directory_of. erewrite Hdir; [reflexivity|]. unfold with_parents. cbn [node_data]. by apply Hdir.
Qed.

(** ** The text of a list *)

(** The list that the text of [acl] gives back: kAutoSetMode has no letter. *)
Definition without_auto (acl : RichACL) : RichACL := with_flags acl (minus (flags_ acl) kAutoSetMode).

Lemma write_flags_same keep table : forall m m',
  Forall (fun x => Z.land x.2 keep = x.2) table -> Z.land m keep = Z.land m' keep -> write_flags table m = write_flags table m'.
Proof.
  induction table as [|[c f] table IH]; intros m m' Ht Hm; [done|]. apply Forall_cons in Ht as [Hf Ht]. cbn [snd write_flags] in *.
  assert (Z.land m f = Z.land m' f) as Ef by (rewrite <-Hf, !(Z.land_comm f), !Z.land_assoc, Hm; done).
  unfold has. rewrite Ef. destruct (negb _); [|by apply IH]. f_equal. apply IH; [done|]. unfold minus.
  apply Z.bits_inj'. intros i Hi. apply (f_equal (fun z => Z.testbit z i)) in Hm. rewrite !Z.land_spec in Hm.
  rewrite !Z.land_spec, !Z.ldiff_spec. destruct (Z.testbit keep i); rewrite ?andb_true_r, ?andb_false_r in *; [by rewrite Hm|done].
Qed.

Lemma text_without_auto acl : AclText.toString (without_auto acl) = AclText.toString acl.
Proof.
  unfold AclText.toString, without_auto, with_flags. cbn [flags_ owner_mask_ group_mask_ other_mask_ ace_list_]. f_equal.
  unfold writeACLFlags. apply (write_flags_same 223); [by repeat constructor|]. apply Z.bits_inj'. intros i Hi. rewrite !Z.land_spec.
  destruct (Z.ltb_spec i 8).
  2: { replace (Z.testbit 223 i) with false; [by rewrite !andb_false_r|]. symmetry. apply (Z.bits_above_log2 223); [lia|]. simpl. lia. }
  unfold u8, wrap, minus. rewrite !Z.mod_pow2_bits_low, Z.ldiff_spec by lia. change kAutoSetMode with (2 ^ 5).
  destruct (decide (i = 5)) as [->|]; [by rewrite !andb_false_r|]. by rewrite Z.pow2_bits_false, andb_true_r by lia.
Qed.

(** The status and the mode that setAcl() gives. *)
Lemma setAcl_result n acl t st a n' st' :
  NodeAcl.setAcl n acl t st = Some (a, n', st') ->
  a = (if checkInheritFlags acl (is_directory n) then OK else ENOTSUP) /\
  (a = OK -> node_mode n' = match equivMode acl (node_mode n) (is_directory n) with
    | Some mode => u16 (with_permissions (node_mode n) mode)
    | None => if isAutoSetMode acl then node_mode n else u16 (with_permissions (node_mode n) (getMode acl))
    end).
Proof.
  unfold NodeAcl.setAcl. destruct (checkInheritFlags acl (is_directory n)); cbn [negb]; [|by intros [= <- <- <-]].
  destruct (equivMode acl (node_mode n) (is_directory n)) as [mode|].
  - destruct (erase st (node_id n)) as [st1|]; [|done]. by intros [= <- <- <-].
  - destruct (isAutoSetMode acl).
    + destruct (AclStorage.set st _ _) as [st1|]; [|done]. by intros [= <- <- <-].
    + destruct (AclStorage.set st _ _) as [st1|]; [|done]. by intros [= <- <- <-].
Qed.

(** A list with kAutoSetMode has no equivalent mode. *)
Lemma auto_no_equiv acl mode is_dir : isAutoSetMode acl = true -> equivMode acl mode is_dir = None.
Proof.
  intros H. unfold equivMode. replace (minus (flags_ acl) (Z.lor kWriteThrough kMasked) =? 0) with false; [done|]. symmetry.
  apply Z.eqb_neq. intros E. apply (f_equal (fun z => Z.testbit z 5)) in E. unfold minus in E. rewrite Z.ldiff_spec, Z.bits_0 in E.
  unfold isAutoSetMode in H. change kAutoSetMode with (2 ^ 5) in H. rewrite has_bit in H by lia. by rewrite H in E.
Qed.

Lemma change_acl_inv change x t s s' log n :
  md_nodes s !! x = Some n -> change_acl change x t s = Some (inr tt, s', log) ->
  log = [] /\ exists n' n2, change n (md_acls s) = Some (OK, n', md_acls s') /\ md_nodes s' !! x = Some n2 /\ node_mode n2 = node_mode n'.
Proof.
  intros En. unfold change_acl. run. rewrite (node_run _ _ _ En). run. destruct (change n (md_acls s)) as [[[[] n'] acls]|]; run; try done.
  unfold updateCTime. cbn [put_node set_nodes md_nodes]. rewrite lookup_insert_eq. cbn [mbind option_bind].
  intros E. assert (exists d, s' = set_detached (put_node x (with_ctime (NodeAcl.set_ctime n' (node_ctime n)) t)
      (put_node x (NodeAcl.set_ctime n' (node_ctime n)) (set_acls s acls))) d /\ log = []) as (d & -> & ->).
  { revert E. destruct (_ && _); [destruct (trash _ !! _)|]; intros [= <- <-]; by eexists. }
  split; [done|]. exists n', (with_ctime (NodeAcl.set_ctime n' (node_ctime n)) t). split; [done|]. split; [apply lookup_insert_eq|done].
Qed.

Section divergence.
Context (goals : Z -> Goals.Goal).
Notation root := SPECIAL_INODE_ROOT.
Notation meta_ok := (meta_ok goals).

(** The old name is removed, and link() does not return. *)
Lemma self_move_stuck s p name x n name' timeStamp :
  meta_ok s -> md_nodes s !! x = Some n -> is_dir n = true -> FsTree.lookup (md_nodes s) p name = Some x ->
  exists nodes1 nodes2, removeEdge goals root timeStamp p name x (md_nodes s) = Some nodes1 /\ link_edges x x name' nodes1 = Some nodes2 /\
    forall change fuel, change_stats change root fuel x nodes2 = None.
Proof.
  intros Hok En Hd El. destruct (look_edge goals _ _ _ _ Hok El) as [He _]. pose proof (mo_tree _ _ Hok) as T.
  pose proof (proj1 (edge_parents goals root no_debt _ _ _ _ _ T En) He) as Hin.
  assert (x <> root) as Hr.
  { intros ->. destruct (to_root _ _ _ _ T) as (r & Er & _ & Hp). assert (r = n) as -> by congruence. rewrite Hp in Hin. set_solver. }
  assert (node_parents n = [(p, name)]) as Hp.
  { destruct (to_nodes _ _ _ _ T x n En) as [_ _ _ _ N5 _ _]. specialize (N5 (is_dir_directory _ _ Hok _ _ En Hd)).
    destruct (node_parents n) as [|e [|e' l]]; simpl in N5; [set_solver| |lia]. f_equal. set_solver. }
  destruct (removeEdge_rest goals (md_nodes s) p x name n timeStamp T He En) as (nodes1 & n1 & f & E1 & T1 & _ & _ & En1 & Hch & _).
  { unfold is_dir in Hd. apply bool_decide_eq_true in Hd. by rewrite Hd. }
  assert (node_parents n1 = []) as Hp1.
  { rewrite (ch_parents _ _ _ _ Hch), Hp. unfold is_parent. simpl. by rewrite Z.eqb_refl, bool_decide_true. }
  assert (is_dir n1 = true) as Hd1 by (unfold is_dir; by rewrite (ch_type _ _ _ _ Hch)).
  destruct (is_dir_directory _ _ Hok _ _ En Hd) as [d Ed]. pose proof (change_dir_of _ _ _ _ Hch) as Ed1. rewrite Ed in Ed1.
  destruct (own_parent_edges x n1 _ name' nodes1 En1 Ed1 Hd1 Hp1) as (nodes2 & n2 & d2 & E2 & En2 & Ed2 & Hp2).
  exists nodes1, nodes2. split; [done|]. split; [done|]. intros change fuel. by eapply own_parent_never_ends.
Qed.

(** C35: rename lets a directory be moved into itself.  isAncestor() never counts a directory as its own ancestor, on any
    reachable tree.  The move then takes the old name away and makes the directory its own parent, and the recursion of
    addStats() over the parents does not end, however deep it goes.  So a rename of a directory into itself, under a name
    that is free there, never returns with success: it fails one of the checks, or it does not end. *)
Theorem rename_into_itself time log s tm p name x n name' :
  history goals (new_master time) log (MkMaster s tm) ->
  md_nodes s !! x = Some n -> is_dir n = true -> FsTree.lookup (md_nodes s) p name = Some x ->
  isAncestor (md_nodes s) x x = Some false /\
  (forall timeStamp, exists nodes1 nodes2,
    removeEdge goals root timeStamp p name x (md_nodes s) = Some nodes1 /\ link_edges x x name' nodes1 = Some nodes2 /\
    forall change fuel, change_stats change root fuel x nodes2 = None) /\
  (forall cx parent_src parent_dst inode, client cx -> candidate cx parent_src s = Some (inr p, s, []) ->
    candidate cx parent_dst s = Some (inr x, s, []) -> FsTree.lookup (md_nodes s) x name' = None ->
    match rename goals cx parent_src name parent_dst name' inode s with Some (inr _, _, _) => False | _ => True end).
Proof.
  intros H En Hd El. destruct (reached goals _ _ _ _ H) as [Hok _]. split; [|split].
  - destruct (tree_chain _ _ _ _ _ _ (mo_tree _ _ Hok) En (is_dir_directory _ _ Hok _ _ En Hd)) as [l Hl].
    rewrite (isAncestor_chain _ _ _ _ _ _ _ (mo_tree _ _ Hok) Hl). f_equal. apply bool_decide_eq_false.
    pose proof (chain_NoDup _ _ _ Hl) as Hnd. destruct (chain_head _ _ _ Hl) as [l' ->]. by apply NoDup_cons in Hnd as [? _].
  - intros timeStamp. by eapply self_move_stuck.
  - intros cx ps pd inode (u & g & [C1 C2 C3 C4]) Hcs Hcd Hfree. destruct (rename _ _ _ _ _ _ _ _) as [[[[e|c] s'] log']|] eqn:E; [done| |done].
    unfold rename in E.
    apply (read_inv _ _ _ _ _ _ _ (reading_session s _ _ _)) in E as (z1 & _ & E).
    apply (read_inv _ _ _ _ _ _ _ (reading_getNode goals s Hok cx _ _ _ C2)) in E as (dst & (Hx & dn & Edn & Hdd) & E).
    apply (read_inv _ _ _ _ _ _ _ (reading_getNode goals s Hok cx _ _ _ C2)) in E as (src & (Hy & srcn & Esn & Hsd) & E).
    assert (dst = x) as -> by congruence. assert (src = p) as -> by congruence. assert (dn = n) as -> by congruence. simpl in Hsd.
    apply (read_inv _ _ _ _ _ _ _ (reading_base_name goals s Hok _ _ _ Esn Hsd)) in E as (z2 & -> & E).
    apply (read_inv _ _ _ _ _ _ _ (reading_base_name goals s Hok _ _ _ En Hd)) in E as (z3 & -> & E).
    apply (read_inv _ _ _ _ _ _ _ (reading_require _ _ s)) in E as (z4 & _ & E).
    apply (read_inv _ _ _ _ _ _ _ (reading_look s _ _)) in E as (z5 & -> & E). rewrite El in E.
    apply (read_inv _ _ _ (fun _ => True)) in E as (z6 & _ & E); [|destruct (checks_permissions cx); [by eapply reading_sticky|by apply reading_ret]].
    apply (read_inv _ _ _ _ _ _ _ (reading_require _ _ s)) in E as (z7 & _ & E).
    apply (read_inv _ _ _ _ _ _ _ (reading_node _ _ s En)) in E as (z8 & -> & E).
    rewrite Hd in E. destruct (isAncestor_runs goals s Hok x x n En) as [b Eb].
    apply (read_inv _ _ _ (fun _ => True)) in E as (z9 & _ & E); [|eapply reading_weaken; [by apply reading_reads|done]].
    apply (read_inv _ _ _ _ _ _ _ (reading_require _ _ s)) in E as (z10 & _ & E).
    apply (read_inv _ _ _ _ _ _ _ (reading_require _ _ s)) in E as (z14 & _ & E).
    apply (read_inv _ _ _ _ _ _ _ (reading_look s _ _)) in E as (z11 & -> & E). rewrite Hfree in E. rewrite bool_decide_false in E by done.
    apply (read_inv _ _ _ (fun r => r = None)) in E as (z12 & -> & E); [|by apply reading_ret]. cbv beta in E.
    apply (read_inv _ _ _ _ _ _ _ (reading_move_quota goals s Hok x p n None n srcn En Hd Esn Hsd)) in E as (z13 & _ & E).
    destruct (self_move_stuck s p name x n name' (ts cx) Hok En Hd El) as (nodes1 & nodes2 & E1 & E2 & Hstuck).
    revert E. run. rewrite E1. run. cbn [set_nodes md_nodes]. rewrite (link_stuck _ _ _ _ _ _ _ _ E2); [done|]. intros st. apply Hstuck.
Qed.

(** C36: the text of a list has no letter for kAutoSetMode, so that a shadow does not do what the master did.  When setRichAcl()
    of a list with that flag succeeds, the master keeps the mode of the node; the recorded text is that of the list without the
    flag, and a shadow that replays it takes the permissions from the list: from its equivalent mode, or from its masks.  (The
    list has otherwise nothing that the text does not say.) *)
Theorem auto_set_mode_lost time log s tm cx inode acl s1 log1 :
  history goals (new_master time) log (MkMaster s tm) -> client cx ->
  isAutoSetMode acl = true -> acl_printable (without_auto acl) = true -> setRichAcl cx inode acl s = Some (inr tt, s1, log1) ->
  exists x n n1 s2 n2, log1 = [(ts cx, SETRICHACL x (AclText.toString acl))] /\
    AclText.fromString (AclText.toString acl) = Some (without_auto acl) /\ md_nodes s !! x = Some n /\
    md_nodes s1 !! x = Some n1 /\ node_mode n1 = node_mode n /\
    replay_log goals log1 s = Some s2 /\ md_nodes s2 !! x = Some n2 /\
    node_mode n2 = u16 (with_permissions (node_mode n)
      (default (getMode acl) (equivMode (without_auto acl) (node_mode n) (is_directory n)))).
Proof.
  intros H (u & g & [C1 C2 C3 C4]) Hauto Hp E. destruct (reached goals _ _ _ _ H) as [Hok _]. unfold setRichAcl in E.
  apply (read_inv _ _ _ _ _ _ _ (reading_session s _ _ _)) in E as (z1 & _ & E).
  apply (read_inv _ _ _ _ _ _ _ (reading_getNode goals s Hok cx _ _ _ C2)) in E as (x & (_ & n & En & _) & E).
  unfold recorded in E. destruct (change_acl _ x (ts cx) s) as [[[[e|[]] s'] log']|] eqn:Ec; [done| |done].
  rewrite changeLog_master in E by done. injection E as <- <-. apply (change_acl_inv _ _ _ _ _ _ _ En) in Ec as (-> & n' & n1 & Ea & En1 & Hm1).
  apply setAcl_result in Ea as [Hst Hmode]. specialize (Hmode eq_refl). rewrite auto_no_equiv, Hauto in Hmode by done.
  assert (AclText.fromString (AclText.toString acl) = Some (without_auto acl)) as Htext.
  { rewrite <-text_without_auto. by apply fromString_toString. }
  destruct (change_acl_ok goals _ x n (ts cx) s (setAcl_fair goals (without_auto acl) (ts cx)) Hok En) as [[e E2]|(s2 & E2 & _)].
  { exfalso. destruct (mo_acls _ _ Hok) as [m Hm]. destruct (setAcl_ok _ m Hm x n En (without_auto acl) (ts cx)) as (a & n3 & st3 & E3 & _).
    cbn [st_acls] in E3. pose proof (setAcl_result _ _ _ _ _ _ _ E3) as [Ha _].
    change (checkInheritFlags (without_auto acl)) with (checkInheritFlags acl) in Ha. rewrite <-Hst in Ha. subst a.
    revert E2. unfold change_acl. run. rewrite (node_run _ _ _ En). run. rewrite E3. run. by destruct (updateCTime _ _ _). }
  pose proof (change_acl_inv _ _ _ _ _ _ _ En E2) as (_ & n3 & n2 & Ea2 & En2 & Hm2).
  apply setAcl_result in Ea2 as [_ Hmode2]. specialize (Hmode2 eq_refl).
  exists x, n, n1, (increaseMetadataVersion s2), n2. split; [done|]. split; [done|]. split; [done|]. split; [done|].
  split; [by rewrite Hm1|]. split; [|split; [done|]].
  - cbn [app replay_log restore_line]. unfold applySetRichAcl, next_version. rewrite Htext. run. rewrite En. run. by rewrite E2.
  - rewrite Hm2, Hmode2. destruct (equivMode (without_auto acl) _ _); [done|].
    replace (isAutoSetMode (without_auto acl)) with false; [done|]. unfold isAutoSetMode, without_auto, with_flags. cbn [flags_].
    change kAutoSetMode with (2 ^ 5). rewrite has_bit by lia. unfold wrap, minus. rewrite Z.mod_pow2_bits_low, Z.ldiff_spec by lia.
    by rewrite Z.pow2_bits_true, andb_false_r by lia.
Qed.

(** ** Attributes *)

Lemma updateCTime_run x t s n :
  md_nodes s !! x = Some n ->
  exists s', updateCTime x t s = Some s' /\ md_acls s' = md_acls s /\ md_nodes s' !! x = Some (with_ctime n t).
Proof.
  intros En. unfold updateCTime. rewrite En. cbn [mbind option_bind].
  destruct (_ && _); [destruct (trash _ !! _)|]; eexists; (split; [done|]); (split; [done|]); apply lookup_insert_eq.
Qed.

Lemma changeUidGid_run x uid gid s n :
  md_nodes s !! x = Some n ->
  exists s', changeUidGid goals x uid gid s = Some s' /\ md_acls s' = md_acls s /\ md_nodes s' !! x = Some (with_owner n uid gid).
Proof.
  intros En. unfold changeUidGid. rewrite En. cbn [mbind option_bind]. eexists. split; [done|]. split; [done|]. apply lookup_insert_eq.
Qed.

(** The owner may change, and nothing else that matters here. *)
Lemma owner_run (change : bool) x uid gid s n :
  md_nodes s !! x = Some n ->
  exists s' n', (if change then effect (changeUidGid goals x uid gid) else mret tt) s = Some (inr tt, s', []) /\ md_acls s' = md_acls s /\
    md_nodes s' !! x = Some n' /\ node_id n' = node_id n /\ node_mode n' = node_mode n /\ is_directory n' = is_directory n.
Proof.
  intros En. destruct change; [|by exists s, n]. destruct (changeUidGid_run x uid gid s n En) as (s' & E & Ha & En').
  exists s', (with_owner n uid gid). run. by rewrite E.
Qed.

(** setAttr() without a new mode. *)
Lemma setAttr_keeps cx u ses inode setmask attrmode attruid attrgid attratime attrmtime clear s s1 log1 :
  meta_ok s -> isPersonalityMaster cx = true -> isCaseInsensitive cx = false -> user cx = Some u -> session cx = Some ses ->
  has setmask SET_MODE_FLAG = false ->
  setAttr goals cx inode setmask attrmode attruid attrgid attratime attrmtime clear s = Some (inr tt, s1, log1) ->
  exists x n n1 mode, candidate cx inode s = Some (inr x, s, []) /\ md_nodes s !! x = Some n /\ md_nodes s1 !! x = Some n1 /\
    md_acls s1 = md_acls s /\ (forall i, 0 <= i < 9 \/ 12 <= i < 16 -> Z.testbit mode i = Z.testbit (node_mode n) i) /\
    node_mode n1 = u16 mode /\ is_directory n1 = is_directory n /\
    exists uid gid atime mtime, log1 = [(ts cx, ATTR x (Z.land (u16 mode) kPermissionsMask) uid gid atime mtime)].
Proof.
  intros Hok C1 C2 C3 Hses Hset E. unfold setAttr in E.
  apply (read_inv _ _ _ _ _ _ _ (reading_session s _ _ _)) in E as (z1 & _ & E).
  apply (read_inv _ _ _ _ _ _ _ (reading_getNode goals s Hok cx _ _ _ C2)) in E as (x & (Hx & n & En & _) & E).
  apply (read_inv _ _ _ _ _ _ _ (reading_node _ _ s En)) in E as (z2 & -> & E).
  apply (read_inv _ _ _ (fun r => r = ses)) in E as (z3 & -> & E); [|by apply reading_reads].
  apply (read_inv _ _ _ (fun r => r = u)) in E as (z4 & -> & E); [|by apply reading_reads].
  apply (read_inv _ _ _ _ _ _ _ (reading_checks goals cx ses u x n setmask attruid attrgid s Hok En)) in E as (z5 & _ & E).
  pose proof (fun i => cleared_bits goals clear (user_uid u) setmask attrmode attrgid n i) as Hbits.
  destruct (cleared_modes clear (user_uid u) setmask attrmode attrgid n) as [mode am]. cbn [fst] in Hbits. rewrite Hset in E.
  revert E. run. set (sA := put_node x (set_mode n mode) s).
  destruct (owner_run (changes_owner setmask) x (if has setmask SET_UID_FLAG then attruid else node_uid n)
    (if has setmask SET_GID_FLAG then attrgid else node_gid n) sA (set_mode n mode)) as (sB & nB & EB & HaB & HnB & HiB & HmB & HdB); [apply lookup_insert_eq|].
  rewrite EB. run. unfold set_times. rewrite HnB. cbn [mbind option_bind]. set (nC := if has setmask SET_MTIME_NOW_FLAG then _ else _).
  assert (node_id nC = node_id nB /\ node_mode nC = node_mode nB /\ is_directory nC = is_directory nB) as (HiC & HmC & HdC)
    by (unfold nC; repeat destruct (has _ _); done).
  run. rewrite (node_run x nC) by apply lookup_insert_eq. run. rewrite changeLog_master by done. run. rewrite updateCTime_version.
  destruct (updateCTime_run x (ts cx) (put_node x nC sB) nC) as (sD & ED & HaD & HnD); [apply lookup_insert_eq|]. rewrite ED.
  cbn [fmap option_fmap option_map]. intros [= <- <-]. exists x, n, (with_ctime nC (ts cx)), mode. split; [done|]. split; [done|]. split; [done|].
  split; [change (md_acls sD = md_acls s); rewrite HaD; change (md_acls sB = md_acls s); by rewrite HaB|]. split; [done|].
  split; [change (node_mode nC = u16 mode); by rewrite HmC, HmB|]. split; [change (is_directory nC = is_directory n); by rewrite HdC, HdB|].
  eexists _, _, _, _. rewrite HmC, HmB, HiC, HiB. cbn [set_mode node_id node_mode]. by rewrite (tree_ids goals _ (mo_tree _ _ Hok) x n En).
Qed.

(** applyAttr() of the recorded mode. *)
Lemma applyAttr_syncs s x n mode t uid gid atime mtime :
  meta_ok s -> md_nodes s !! x = Some n -> (forall i, 12 <= i < 16 -> Z.testbit mode i = Z.testbit (node_mode n) i) ->
  exists s', applyAttr goals t x (Z.land (u16 mode) kPermissionsMask) uid gid atime mtime s = Some (inr tt, s', []) /\
    forall acl, AclStorage.get (md_acls s) x = Some (Some acl) -> AclStorage.get (md_acls s') x = Some (Some (setMode acl (u16 mode) (is_directory n))).
Proof.
  intros Hok En Hbits. unfold applyAttr, next_version. run. rewrite En. run.
  assert (Z.land (u16 mode) kPermissionsMask <=? kPermissionsMask = true) as ->.
  { change kPermissionsMask with (Z.ones 12). rewrite Z.land_ones by lia. apply Z.leb_le. pose proof (Z.mod_pos_bound (u16 mode) (2 ^ 12)).
    change (Z.ones 12) with (2 ^ 12 - 1). lia. }
  run. assert (set_mode n (Z.lor (Z.land (u16 mode) kPermissionsMask) (Z.land (node_mode n) kExtraAttributesMask)) = set_mode n mode) as ->.
  { apply set_mode_u16, mode_parts; [|done]. intros i Hi. rewrite u16_bit by lia. rewrite (proj2 (Z.ltb_lt i 16)) by lia. by rewrite andb_true_r. }
  destruct (mo_acls _ _ Hok) as [m Hm]. pose proof (tree_ids goals _ (mo_tree _ _ Hok) x n En) as Hid.
  destruct (setMode_rep _ _ (con_rep _ _ Hm) x (u16 mode) (is_directory n) (consistent_size _ _ Hm)) as (acls & Es & Hr). cbn [st_acls] in Es.
  set (n1 := set_mode n mode). set (sA := set_acls (put_node x n1 s) acls).
  assert (sync_acl x (put_node x n1 s) = Some sA) as ->.
  { unfold sync_acl. cbn [put_node set_nodes md_nodes md_acls]. rewrite lookup_insert_eq. cbn [mbind option_bind]. unfold syncAclWithMode.
    change (node_id n1) with (node_id n). change (node_mode n1) with (u16 mode). change (is_directory n1) with (is_directory n). by rewrite Hid, Es. }
  run. assert ((if (node_uid n =? uid) && (node_gid n =? gid) then mret tt else effect (changeUidGid goals x uid gid)) sA =
    (if negb ((node_uid n =? uid) && (node_gid n =? gid)) then effect (changeUidGid goals x uid gid) else mret tt) sA) as -> by by destruct (_ && _).
  destruct (owner_run (negb ((node_uid n =? uid) && (node_gid n =? gid))) x uid gid sA n1) as (sB & nB & EB & HaB & HnB & _); [apply lookup_insert_eq|].
  rewrite EB. run. rewrite (node_run x nB) by done. run.
  destruct (updateCTime_run x t (put_node x (with_mtime (with_atime nB atime) mtime) sB) (with_mtime (with_atime nB atime) mtime)) as (sD & ED & HaD & _);
    [apply lookup_insert_eq|]. rewrite ED. run. eexists. split; [done|]. intros acl Hacl. change (AclStorage.get (md_acls sD) x = Some (Some (setMode acl (u16 mode) (is_directory n)))).
  rewrite HaD. change (AclStorage.get (md_acls sB) x = Some (Some (setMode acl (u16 mode) (is_directory n)))). rewrite HaB.
  pose proof (get_rep _ _ (con_rep _ _ Hm) x) as Hg. cbn [st_acls] in Hg. rewrite Hacl in Hg. injection Hg as Hg.
  change (AclStorage.get acls x = Some (Some (setMode acl (u16 mode) (is_directory n)))). rewrite (get_rep _ _ Hr). by rewrite lookup_alter_eq, <-Hg.
Qed.

(** C37: a shadow changes a list that the master keeps.  Whenever setAttr() without a new mode succeeds, whatever it sets, the
    master leaves every list as it is, while the shadow, which applies the recorded mode with applyAttr(), sets the masks of the
    node's list from the mode and adds the flags kMasked and kWriteThrough; the lists differ if those flags were not all set. *)
Theorem chown_changes_shadow_acl time log s tm cx inode setmask attrmode attruid attrgid attratime attrmtime clear s1 log1 :
  history goals (new_master time) log (MkMaster s tm) -> client cx -> is_Some (session cx) -> has setmask SET_MODE_FLAG = false ->
  setAttr goals cx inode setmask attrmode attruid attrgid attratime attrmtime clear s = Some (inr tt, s1, log1) ->
  exists x n1 s2, candidate cx inode s = Some (inr x, s, []) /\ md_nodes s1 !! x = Some n1 /\ md_acls s1 = md_acls s /\
    replay_log goals log1 s = Some s2 /\
    forall acl, AclStorage.get (md_acls s) x = Some (Some acl) ->
      AclStorage.get (md_acls s2) x = Some (Some (setMode acl (node_mode n1) (is_directory n1))) /\
      (Z.lor (flags_ acl) (Z.lor kMasked kWriteThrough) <> flags_ acl -> AclStorage.get (md_acls s2) x <> AclStorage.get (md_acls s1) x).
Proof.
  intros H (u & g & [C1 C2 C3 C4]) [ses Hses] Hset E. destruct (reached goals _ _ _ _ H) as [Hok _].
  destruct (setAttr_keeps cx u ses _ _ _ _ _ _ _ _ _ _ _ Hok C1 C2 C3 Hses Hset E)
    as (x & n & n1 & mode & Hx & En & En1 & Ha & Hbits & Hmode & Hdir & uid & gid & atime & mtime & ->).
  destruct (applyAttr_syncs s x n mode (ts cx) uid gid atime mtime Hok En) as (s2 & E2 & Hacls); [intros i Hi; apply Hbits; lia|].
  exists x, n1, s2. split; [done|]. split; [done|]. split; [done|]. split; [cbn [replay_log restore_line]; by rewrite E2|].
  intros acl Hacl. specialize (Hacls acl Hacl). rewrite Hmode, Hdir. split; [done|]. intros Hf. rewrite Hacls, Ha, Hacl. intros [= Heq].
  apply Hf. by apply (f_equal flags_) in Heq.
Qed.

(** ** Directories that undel() makes *)

(** A directory that undel() makes, or that a shadow makes for its entry, and its list. *)
Lemma make_directory s parent pn name y t (inheritAcl : bool) :
  meta_ok s -> md_nodes s !! parent = Some pn -> is_dir pn = true -> FsTree.lookup (md_nodes s) parent name = None -> unused y s ->
  exists s1 n1 parentAcl n0, createNode goals t parent name kDirectory kUndelDirectoryMode 0 0 0 false inheritAcl y s = Some s1 /\
    md_nodes s1 !! y = Some n1 /\ (if inheritAcl then AclStorage.get (md_acls s) parent else Some None) = Some parentAcl /\
    inherit_permissions pn (new_node pn t kDirectory y (DirectoryData new_directory)) parentAcl kUndelDirectoryMode 0 (md_acls s) = Some (n0, md_acls s1) /\
    node_mode n1 = node_mode n0.
Proof.
  intros Hok Ep Hd Hfree [Hnew Huint].
  assert (isNameUsed (md_nodes s) parent name = false) as Hfree' by (unfold isNameUsed; rewrite Hfree; by apply bool_decide_eq_false; intros [? ?]).
  destruct (createNode_ok goals s Hok parent y name kDirectory pn Ep (is_dir_directory _ _ Hok _ _ Ep Hd) Hfree' Hnew Huint eq_refl t kUndelDirectoryMode 0 0 0 false inheritAcl)
    as (s1 & n & E & _ & _ & (_ & _ & L3) & _ & data & pacl & n0 & acls & Ed & Ea & Ei & En).
  destruct (L3 n) as (n1 & f & En1 & Hch); [by rewrite lookup_insert_eq|]. simpl in Ed. injection Ed as <-.
  exists s1, n1, pacl, n0. split; [done|]. split; [done|]. split; [done|].
  assert (node_mode n = node_mode n0) as Hm by (rewrite En; unfold owned; by destruct (has _ _)).
  split; [|by rewrite (ch_mode _ _ _ _ Hch)]. rewrite Ei. do 2 f_equal. unfold createNode in E. rewrite bool_decide_false in E by done.
  cbn [create_data mbind option_bind] in E. change (md_nodes (incrementNodeCounters kDirectory s)) with (md_nodes s) in E.
  change (md_acls (incrementNodeCounters kDirectory s)) with (md_acls s) in E. rewrite Ep in E. cbn [mbind option_bind] in E.
  rewrite Ea in E. cbn [mbind option_bind] in E. rewrite Ei in E. cbn [mbind option_bind] in E. rewrite Hnew in E.
  destruct (FsTree.link _ _ _ _ _ _ _) as [nodes'|]; [|done]. cbn [mbind option_bind] in E. by injection E as <-.
Qed.

(** The recorded mode is that of undel(). *)
Lemma undel_mode pn : Z.land (u16 (initial_mode pn kDirectory kUndelDirectoryMode)) kPermissionsMask = kUndelDirectoryMode.
Proof.
  apply Z.bits_inj'. intros i Hi. rewrite permissions_mask_bit, u16_bit by done. unfold initial_mode. rewrite bool_decide_true by done.
  rewrite Z.lor_spec, permissions_mask_bit, Z.land_spec by done. destruct (Z.ltb_spec i 12).
  - replace (Z.testbit kExtraAttributesMask i) with false; [rewrite (proj2 (Z.ltb_lt i 16)) by lia; by rewrite andb_false_r, orb_false_r, !andb_true_r|].
    symmetry. assert (i = 0 \/ i = 1 \/ i = 2 \/ i = 3 \/ i = 4 \/ i = 5 \/ i = 6 \/ i = 7 \/ i = 8 \/ i = 9 \/ i = 10 \/ i = 11) as Hc by lia.
    destruct_or! Hc; by subst i.
  - rewrite andb_false_r. symmetry. apply (Z.bits_above_log2 493); [lia|]. simpl. lia.
Qed.

(** One step of the walk of undel(). *)
Lemma undel_walk_step cx x parent name last names y fresh :
  undel_walk goals cx x parent false (name :: last :: names) (y :: fresh) =
    (found ← look parent name;
     match found with
     | Some z => n ← node z; _ ← require (is_dir n) ERROR_CANTCREATEPATH; undel_walk goals cx x z false (last :: names) (y :: fresh)
     | None =>
       _ ← effect (createNode goals (ts cx) parent name kDirectory kUndelDirectoryMode 0 0 0 false false y);
       _ ← reads (fun _ => if isPersonalityMaster cx then Some tt else None);
       _ ← log_create cx parent name kDirectory 0 0 0 y;
       undel_walk goals cx x y true (last :: names) fresh
     end).
Proof. reflexivity. Qed.


(** ** Quotas of a move *)

(** The replaced node counts as one byte. *)
Lemma move_quota_refuses s src dst srcn dn d source replaced entry :
  meta_ok s -> md_nodes s !! src = Some srcn -> is_dir srcn = true -> md_nodes s !! dst = Some dn -> directory_of dn = Some d ->
  dst <> src -> isAncestor (md_nodes s) dst src = Some false ->
  node_type source = kFile -> getSize goals source = 0 -> node_type replaced <> kFile -> node_type replaced <> kDirectory ->
  quota_get (md_quota s) kInode dst = Some entry -> 0 < limit_of entry kHard kSize < 2 ^ 64 - 1 -> st_size (dir_stats d) = 0 ->
  move_quota goals dst src source (Some replaced) s = Some (inl ERROR_QUOTA, s, []).
Proof.
  intros Hok Es Hs Ed Hd Hne Hanc Hts Hzero Htr1 Htr2 Hq [Hl1 Hl2] Hsize.
  pose proof (mo_tree _ _ Hok) as T. destruct (tree_chain _ _ _ _ _ _ T Es (is_dir_directory _ _ Hok _ _ Es Hs)) as [la Hla].
  destruct (tree_chain _ _ _ _ _ _ T Ed (ltac:(by eexists))) as [lb Hlb]. rewrite (isAncestor_chain _ _ _ _ _ _ _ T Hla) in Hanc.
  injection Hanc as Hanc%bool_decide_eq_false. unfold move_quota, moved_in. rewrite Hts, Hzero.
  replace (match node_type replaced, directory_of replaced with
    | kDirectory, Some d0 => (st_inodes (dir_stats d0), st_size (dir_stats d0))
    | kFile, _ => (1, getSize goals replaced)
    | _, _ => (1, 1)
    end) with (1, 1) by (by destruct (node_type replaced)).
  run. rewrite (exceeded_move_chain _ _ _ src dst root la lb) by (done || by eapply chain_last). run.
  assert (existsb (tested (md_nodes s) (md_quota s) [(kInodes, 1 - 1); (kSize, 0 - 1)]) (List.filter (fun z => negb (bool_decide (z ∈ la))) lb) = true) as ->;
    [|done].
  apply existsb_exists. exists dst. split.
  - apply filter_In. destruct (chain_head _ _ _ Hlb) as [lb' ->]. split; [by left|]. rewrite bool_decide_false; [done|].
    destruct (chain_head _ _ _ Hla) as [la' ->]. simpl in Hanc. intros [->|?]%elem_of_cons; done.
  - unfold tested, test_dir_quota_noparents. rewrite Ed. pose proof (directory_is_dir goals s dst dn Hok Ed (ltac:(by eexists))) as Hdir.
    unfold is_dir in Hdir. apply bool_decide_eq_true in Hdir. rewrite Hdir. unfold directory_of in Hd. destruct (node_data dn) as [|d0| | |]; try done.
    injection Hd as ->. rewrite (tree_ids goals _ T dst dn Ed), Hq. cbn [existsb]. rewrite Hsize. change (u64 (0 + (0 - 1))) with (2 ^ 64 - 1).
    rewrite (proj2 (Z.eqb_neq (limit_of entry kHard kSize) 0)), (proj2 (Z.ltb_lt (limit_of entry kHard kSize) _)) by lia. simpl. by rewrite orb_true_r.
Qed.

(** C39: rename refuses to replace a node that is neither a file nor a directory by an empty file, in a directory that holds no bytes
    and whose hard limit for the size is below the greatest number, when the file comes from elsewhere.  The replaced node counts as one
    byte, although its statistics have none: the size would be -1, which is taken as a number without sign and exceeds the limit, so
    that the test of the quotas refuses the move.  So every such rename ends with an error and changes nothing. *)
Theorem rename_over_pipe_refused time log s tm cx parent_src name_src parent_dst name_dst inode src dst srcn dn d x y source replaced entry :
  history goals (new_master time) log (MkMaster s tm) -> client cx -> names_left s ->
  candidate cx parent_src s = Some (inr src, s, []) -> md_nodes s !! src = Some srcn -> is_dir srcn = true ->
  candidate cx parent_dst s = Some (inr dst, s, []) -> md_nodes s !! dst = Some dn -> directory_of dn = Some d ->
  FsTree.lookup (md_nodes s) src name_src = Some x -> md_nodes s !! x = Some source -> node_type source = kFile -> getSize goals source = 0 ->
  FsTree.lookup (md_nodes s) dst name_dst = Some y -> md_nodes s !! y = Some replaced ->
  node_type replaced <> kFile -> node_type replaced <> kDirectory ->
  dst <> src -> isAncestor (md_nodes s) dst src = Some false ->
  quota_get (md_quota s) kInode dst = Some entry -> 0 < limit_of entry kHard kSize < 2 ^ 64 - 1 -> st_size (dir_stats d) = 0 ->
  move_quota goals dst src source (Some replaced) s = Some (inl ERROR_QUOTA, s, []) /\
  exists e, rename goals cx parent_src name_src parent_dst name_dst inode s = Some (inl e, s, []).
Proof.
  intros H (u & g & Hcx) Hleft Hcs Es Hs Hcd Ed Hd Elx Ex Hts Hzero Ely Ey Htr1 Htr2 Hne Hanc Hq Hl Hsize.
  destruct (reached goals _ _ _ _ H) as [Hok _].
  assert (move_quota goals dst src source (Some replaced) s = Some (inl ERROR_QUOTA, s, [])) as Hmq by by eapply move_quota_refuses.
  split; [done|]. pose proof (directory_is_dir goals s dst dn Hok Ed (ltac:(by eexists))) as Hdir.
  assert (is_dir source = false) as Hfile by (unfold is_dir; by rewrite Hts).
  destruct (rename_ends goals cx u g parent_src name_src parent_dst name_dst inode s Hcx Hok Hleft) as [[e E]|(r & s' & log' & (E & _) & _)];
    [|by exists e|].
  { intros (src' & dst' & H1 & H2 & H3). assert (src' = src) as -> by congruence. assert (dst' = dst) as -> by congruence.
    assert (x = dst) as -> by congruence. assert (dn = source) as -> by congruence. congruence. }
  exfalso. destruct Hcx as [C1 C2 C3 C4]. unfold rename in E.
  apply (read_inv _ _ _ _ _ _ _ (reading_session s _ _ _)) in E as (z1 & _ & E).
  apply (read_inv _ _ _ _ _ _ _ (reading_getNode goals s Hok cx _ _ _ C2)) in E as (dst' & (Hx & _) & E).
  apply (read_inv _ _ _ _ _ _ _ (reading_getNode goals s Hok cx _ _ _ C2)) in E as (src' & (Hy & _) & E).
  assert (dst' = dst) as -> by congruence. assert (src' = src) as -> by congruence.
  apply (read_inv _ _ _ _ _ _ _ (reading_base_name goals s Hok _ _ _ Es Hs)) in E as (z2 & -> & E).
  apply (read_inv _ _ _ _ _ _ _ (reading_base_name goals s Hok _ _ _ Ed Hdir)) in E as (z3 & -> & E).
  apply (read_inv _ _ _ _ _ _ _ (reading_require _ _ s)) in E as (z4 & _ & E).
  apply (read_inv _ _ _ _ _ _ _ (reading_look s _ _)) in E as (z5 & -> & E). rewrite Elx in E.
  apply (read_inv _ _ _ (fun _ => True)) in E as (z6 & _ & E); [|destruct (checks_permissions cx); [by eapply reading_sticky|by apply reading_ret]].
  apply (read_inv _ _ _ _ _ _ _ (reading_require _ _ s)) in E as (z7 & _ & E).
  apply (read_inv _ _ _ _ _ _ _ (reading_node _ _ s Ex)) in E as (z8 & -> & E). rewrite Hfile in E.
  apply (read_inv _ _ _ (fun r => r = false)) in E as (z9 & -> & E); [|by apply reading_ret].
  apply (read_inv _ _ _ _ _ _ _ (reading_require _ _ s)) in E as (z10 & _ & E).
  apply (read_inv _ _ _ _ _ _ _ (reading_require _ _ s)) in E as (z14 & _ & E).
  apply (read_inv _ _ _ _ _ _ _ (reading_look s _ _)) in E as (z11 & -> & E). rewrite Ely in E.
  rewrite bool_decide_false in E by congruence.
  apply (read_inv _ _ _ (fun r => r = Some replaced)) in E as (z12 & -> & E).
  - by rewrite (bind_error _ _ _ _ Hmq) in E.
  - eapply reading_bind; [by apply reading_node|]. intros ? ->.
    eapply reading_bind; [apply reading_require|]. intros ? _.
    eapply reading_bind; [destruct (checks_permissions cx); [by eapply reading_sticky|by apply reading_ret]|]. intros ? _. by apply reading_ret.
Qed.

End divergence.

(** ** Samples *)

Definition node_at (x : Z) (s : Metadata) : FSNode := default (new_root 0) (md_nodes s !! x).

Lemma rename_into_itself_witness :
  isAncestor (md_nodes with_directory) 2 2 = Some false /\
  match rename sample_goals (sample_client 11) 1 d_name 2 a_name 0 with_directory with Some (inr _, _, _) => False | _ => True end.
Proof.
  destruct (rename_into_itself sample_goals 0 _ with_directory no_jobs 1 d_name 2 (node_at 2 with_directory) a_name with_directory_history)
    as (H1 & _ & H3).
  - vm_compute. reflexivity.
  - vm_compute. reflexivity.
  - vm_compute. reflexivity.
  - split; [exact H1|]. apply H3; [apply sample_client_ok|vm_compute; reflexivity..].
Defined.

(** As the client for macOS sends lists: the mode is to be kept. *)
Definition auto_acl : RichACL := MkRichACL 0 0 0 kAutoSetMode [make_ace kAccessAllowedAceType 0 kPosixModeRead 2000].

Lemma auto_set_mode_lost_witness :
  exists s1 log1 x n n1 s2 n2, setRichAcl (sample_client 11) 2 auto_acl with_directory = Some (inr tt, s1, log1) /\
    md_nodes with_directory !! x = Some n /\ md_nodes s1 !! x = Some n1 /\ node_mode n1 = node_mode n /\
    replay_log sample_goals log1 with_directory = Some s2 /\ md_nodes s2 !! x = Some n2 /\
    node_mode n2 = u16 (with_permissions (node_mode n)
      (default (getMode auto_acl) (equivMode (without_auto auto_acl) (node_mode n) (is_directory n)))).
Proof.
  assert (exists s1 log1, setRichAcl (sample_client 11) 2 auto_acl with_directory = Some (inr tt, s1, log1)) as (s1 & log1 & E)
    by (eexists _, _; vm_compute; reflexivity).
  destruct (auto_set_mode_lost sample_goals 0 _ with_directory no_jobs (sample_client 11) 2 auto_acl s1 log1 with_directory_history
    (sample_client_ok 11)) as (x & n & n1 & s2 & n2 & _ & _ & H1 & H2 & H3 & H4 & H5 & H6).
  - vm_compute. reflexivity.
  - vm_compute. reflexivity.
  - exact E.
  - exists s1, log1, x, n, n1, s2, n2. split_and!; assumption.
Defined.

(** The directory 2 with a list. *)
Definition directory_with_acl : Metadata := after (sample_client 11) (SetRichAcl 2 user_acl) with_directory.

Lemma directory_with_acl_history :
  history sample_goals (new_master 0) ([(10, CREATE 1 d_name kDirectory 493 0 0 0 2)] ++ [(11, SETRICHACL 2 (AclText.toString user_acl))] ++ [])
    (MkMaster directory_with_acl no_jobs).
Proof.
  sample_step (sample_client 10) (Mkdir false 1 d_name 493 0 false 2); [sample_unused|].
  sample_step (sample_client 11) (SetRichAcl 2 user_acl); [by split; vm_compute|].
  apply history_nil.
Qed.

Lemma chown_changes_shadow_acl_witness :
  exists s1 log1 s2, setAttr sample_goals (sample_client 12) 2 SET_UID_FLAG 0 5 0 0 0 ClearNever directory_with_acl = Some (inr tt, s1, log1) /\
    replay_log sample_goals log1 directory_with_acl = Some s2 /\ AclStorage.get (md_acls s2) 2 <> AclStorage.get (md_acls s1) 2.
Proof.
  assert (exists s1 log1, setAttr sample_goals (sample_client 12) 2 SET_UID_FLAG 0 5 0 0 0 ClearNever directory_with_acl = Some (inr tt, s1, log1))
    as (s1 & log1 & E) by (eexists _, _; vm_compute; reflexivity).
  destruct (chown_changes_shadow_acl sample_goals 0 _ directory_with_acl no_jobs (sample_client 12) 2 SET_UID_FLAG 0 5 0 0 0 ClearNever s1 log1
    directory_with_acl_history (sample_client_ok 12)) as (x & n1 & s2 & H1 & _ & _ & H4 & H5).
  - by eexists.
  - vm_compute. reflexivity.
  - exact E.
  - assert (candidate (sample_client 12) 2 directory_with_acl = Some (inr 2, directory_with_acl, [])) as H2 by (vm_compute; reflexivity).
    rewrite H2 in H1. injection H1 as <-. exists s1, log1, s2. split; [exact E|]. split; [exact H4|].
    apply (proj2 (H5 user_acl ltac:(vm_compute; reflexivity))). vm_compute. discriminate.
Defined.

(** A list whose entries directories inherit, and the root with it. *)
Definition inherited_acl : RichACL :=
  MkRichACL 127 1 1 kMasked [make_ace kAccessAllowedAceType (Z.lor kFileInheritAce kDirectoryInheritAce) kPosixModeRead 2000;
    make_ace kAccessAllowedAceType kSpecialWho 127 kOwnerSpecialId].

Definition root_with_acl : Metadata := after (sample_client 11) (SetRichAcl 1 inherited_acl) with_directory.

Lemma root_with_acl_history :
  history sample_goals (new_master 0) ([(10, CREATE 1 d_name kDirectory 493 0 0 0 2)] ++ [(11, SETRICHACL 1 (AclText.toString inherited_acl))] ++ [])
    (MkMaster root_with_acl no_jobs).
Proof.
  sample_step (sample_client 10) (Mkdir false 1 d_name 493 0 false 2); [sample_unused|].
  sample_step (sample_client 11) (SetRichAcl 1 inherited_acl); [by split; vm_compute|].
  apply history_nil.
Qed.

(** What a directory below the root inherits. *)
Definition undel_inherits : Z * option RichACL :=
  inheritInode inherited_acl (u16 (initial_mode (node_at 1 root_with_acl) kDirectory kUndelDirectoryMode)) 0 true.


(** A directory with a pipe and a limit for its size, next to an empty file. *)
Definition limit_entry : QuotaEntry := MkEntry kInode 2 kHard kSize 1000000.

Definition limited_directory : Metadata :=
  after (sample_client 13) (SetQuotas [limit_entry])
    (after (sample_client 12) (Mknod 1 a_name kFile 420 0 0 4) (after (sample_client 11) (Mknod 2 a_name kFifo 420 0 0 3) with_directory)).

Lemma limited_directory_history :
  exists log, history sample_goals (new_master 0) log (MkMaster limited_directory no_jobs).
Proof.
  eexists. sample_step (sample_client 10) (Mkdir false 1 d_name 493 0 false 2); [sample_unused|].
  sample_step (sample_client 11) (Mknod 2 a_name kFifo 420 0 0 3); [sample_unused|].
  sample_step (sample_client 12) (Mknod 1 a_name kFile 420 0 0 4); [sample_unused|].
  sample_step (sample_client 13) (SetQuotas [limit_entry]); [split; [by eexists|by repeat constructor]|].
  apply history_nil.
Qed.

Lemma rename_over_pipe_refused_witness :
  exists e, rename sample_goals (sample_client 14) 1 a_name 2 a_name 0 limited_directory = Some (inl e, limited_directory, []).
Proof.
  destruct limited_directory_history as [log H].
  apply (rename_over_pipe_refused sample_goals 0 log limited_directory no_jobs (sample_client 14) 1 a_name 2 a_name 0 1 2
    (node_at 1 limited_directory) (node_at 2 limited_directory) (default new_directory (directory_of (node_at 2 limited_directory))) 4 3
    (node_at 4 limited_directory) (node_at 3 limited_directory) (default no_limits (quota_get (md_quota limited_directory) kInode 2)) H
    (sample_client_ok 14)); try (vm_compute; reflexivity); vm_compute.
  - discriminate.
  - discriminate.
  - discriminate.
  - split; reflexivity.
Defined.
