(* ===== verification/ChangelogReplay.v ===== *)
(** What a server gets from the file of the changelog: together with the metadata that was saved at some time, exactly the
    metadata that the master had. *)
From Stdlib Require Import String Ascii.
From S2P Require Import Prelude Serialization Text RichACL AclMasks AclPosix AclText AclStorage Nodes FileSize NodeAcl Trash Quota.
From S2P Require Import FsTree FsMeta FsOps FsAttrOps FsRestore Tasks FsHistory FsTheorems FsDivergence FsVersions.
From S2P Require Import Changelog ChangelogText.

(** An entry of the log that can be written. *)
Definition record_fits (x : Z * LogEntry) : Prop := is_uint 32 x.1 /\ entry_fits x.2.

(** The variables of restore() before an entry with the version [v]: new, or as the entry before left them. *)
Definition restorer_ok (r : Restorer) (v : Z) : Prop := r = restore_reset \/ r = MkRestorer v (v - 1).

Section load.
Context (goals : Z -> Goals.Goal).

Lemma u64_small x : is_uint 64 x -> u64 x = x.
Proof. unfold is_uint, u64, wrap. intros H. by rewrite Z.mod_small. Qed.

(** An entry with the version of the metadata runs, and the versions move on. *)
Lemma restore_one ts e r s s1 l :
  record_fits (ts, e) -> restorer_ok r (md_version s) -> 1 <= md_version s -> md_version s + 1 < 2 ^ 64 ->
  restore_line goals ts e s = Some (inr tt, s1, l) -> md_version s1 = md_version s + 1 ->
  restore goals true (md_version s) (txt ": " ++ log_text ts e) r s = Some (RestoreOK, MkRestorer (md_version s1) (md_version s1 - 1), s1).
Proof.
  intros [Hts He] Hr H1 Hb E Hv. unfold restore. set (v := md_version s) in *. rewrite (u64_small (v - 1)) by (unfold is_uint; lia).
  assert ((if (currentFsVersion r =? 0) || (nextFsVersion r =? 0) then MkRestorer v (v - 1) else r) = MkRestorer v (v - 1)) as ->
    by (destruct Hr as [-> | ->]; [done|by destruct (_ || _)]). cbn [currentFsVersion nextFsVersion].
  rewrite (proj2 (Z.ltb_ge v (v - 1))), (proj2 (Z.leb_le v v)), (proj2 (Z.eqb_neq v (v - 1))) by lia. rewrite (u64_small (v - 1 + 1)) by (unfold is_uint; lia).
  rewrite (proj2 (Z.ltb_ge (v - 1 + 1) v)) by lia. rewrite line_runs by done. rewrite E, u64_small by (unfold is_uint; lia).
  rewrite Hv, Z.eqb_refl. repeat f_equal. lia.
Qed.

Lemma stoull_line v ts e : is_uint 64 v -> stoull (dec v ++ txt ": " ++ log_text ts e) = Some (v, txt ": " ++ log_text ts e).
Proof. intros Hv. by apply stoull_dec. Qed.

Lemma line_c_str ts e : record_fits (ts, e) -> c_str (txt ": " ++ log_text ts e) = txt ": " ++ log_text ts e.
Proof. intros [Hts He]. apply visible_c_str. visible_parts. by apply log_text_visible. Qed.

(** The lines of entries that the metadata already has. *)
Lemma load_skips log : forall v text r s,
  Forall record_fits log -> 0 <= v -> v + Z.of_nat (length log) <= md_version s -> md_version s < 2 ^ 64 ->
  load_lines goals (lines [] (changelog_file v log ++ text)) r s = load_lines goals (lines [] text) r s.
Proof.
  induction log as [|[ts e] log IH]; intros v text r s H H0 Hv Hb; [done|]. apply Forall_cons in H as [[Hts He] H]. cbn [changelog_file length fst snd] in *.
  rewrite <-app_assoc, lines_changelog by (try done; unfold is_uint; lia). cbn [load_lines]. rewrite stoull_line by (unfold is_uint; lia). cbn [mbind option_bind].
  rewrite (proj2 (Z.ltb_lt v (md_version s))) by lia. rewrite u64_small by (unfold is_uint; lia). apply IH; [done|lia|lia|done].
Qed.

(** The lines of the entries that follow. *)
Lemma load_runs log : forall r s s',
  Forall record_fits log -> restorer_ok r (md_version s) -> 1 <= md_version s -> md_version s' < 2 ^ 64 ->
  replay_log goals log s = Some s' -> md_version s' = md_version s + Z.of_nat (length log) ->
  exists r', load_lines goals (lines [] (changelog_file (md_version s) log)) r s = Some (r', s').
Proof.
  induction log as [|[ts e] log IH]; intros r s s' H Hr H1 Hb R Hv.
  { injection R as <-. by exists r. }
  apply replay_step in R as (s1 & l & E & R & Hv1); [|lia|done|done]. apply Forall_cons in H as [He H]. cbn [changelog_file length] in *.
  pose proof He as [Hts Hfit]. rewrite lines_changelog by (try done; unfold is_uint; lia). cbn [load_lines]. rewrite stoull_line by (unfold is_uint; lia).
  cbn [mbind option_bind]. rewrite (proj2 (Z.ltb_ge (md_version s) (md_version s))) by lia. rewrite line_c_str by done.
  rewrite (restore_one ts e r s s1 l) by (done || lia). cbn [mbind option_bind]. rewrite u64_small by (unfold is_uint; lia). rewrite <-Hv1.
  apply IH; [done|by right|lia|done|done|lia].
Qed.

Lemma changelog_file_app log1 log2 : forall v, 0 <= v -> v + Z.of_nat (length log1) < 2 ^ 64 ->
  changelog_file v (log1 ++ log2) = changelog_file v log1 ++ changelog_file (v + Z.of_nat (length log1)) log2.
Proof.
  induction log1 as [|[ts e] log1 IH]; intros v H0 Hb; cbn [app changelog_file length] in *; [f_equal; lia|].
  rewrite u64_small by (unfold is_uint; lia). rewrite IH by lia. rewrite <-app_assoc. do 3 f_equal. lia.
Qed.

(** C2: a server that starts with the metadata that the master had at some time and loads the file of the changelog, from the
    first entry on, gets exactly the metadata that the master has at the end: the lines of older entries are skipped, every
    other line is parsed and applied, and after every one the version is the expected one.  The history is one of [allowed]
    requests of case-sensitive sessions, so that lists are those that their text gives back.  The fields of the entries have
    the width of their types, names and paths have no zero byte, and every line fits into the buffer ([record_fits]); there
    are fewer than 2^64 - 1 entries. *)
Theorem changelog_restores time log1 m log2 s tm :
  history goals (new_master time) log1 m -> history goals m log2 (MkMaster s tm) ->
  Forall record_fits (log1 ++ log2) -> Z.of_nat (length (log1 ++ log2)) < 2 ^ 64 - 1 ->
  exists r, load_changelog goals (changelog_file 1 (log1 ++ log2)) restore_reset (ms_meta m) = Some (r, s).
Proof.
  intros Hh1 Hh2 Hfit Hlen. rewrite length_app in Hlen. apply Forall_app in Hfit as [Hf1 Hf2].
  pose proof (history_version goals _ _ _ Hh1) as Hv1. rewrite version_after_exact in Hv1 by (cbn [ms_meta new_master fs_new md_version]; lia).
  change (md_version (ms_meta (new_master time))) with 1 in Hv1.
  pose proof (history_version goals _ _ _ Hh2) as Hv2. rewrite version_after_exact in Hv2 by lia. cbn [ms_meta] in Hv2.
  destruct (history_ok goals _ _ _ Hh1 (new_master_ok goals time)) as [Hok _]. destruct (history_ok goals _ _ _ Hh2 Hok) as [_ R]. cbn [ms_meta] in R.
  unfold load_changelog. rewrite (proj2 (Z.ltb_lt 0 _)) by lia. rewrite changelog_file_app, load_skips by (done || lia). rewrite <-Hv1.
  apply load_runs; [done|by left|lia|lia|done|done].
Qed.

End load.

(** ** A sample *)

(** A name with characters that are escaped: a space, a comma, a percent sign, a bracket and a byte above 127. *)
Definition odd_name : name_t := [32; 44; 37; 41; 195].

Definition later_log : list (Z * LogEntry) :=
  [(11, CREATE 2 odd_name kFile 420 0 0 0 3)] ++ [(12, SETRICHACL 3 (AclText.toString user_acl))] ++ [(13, SYMLINK 1 odd_name [47; 44; 10] 0 0 4)] ++
  [(14, UNLINK 2 odd_name 3)] ++ [].

Lemma later_history :
  exists s tm, history sample_goals (MkMaster with_directory no_jobs) later_log (MkMaster s tm) /\ base.size (trash (md_detached s)) = 1%nat.
Proof.
  eexists _, _. split.
  - sample_step (sample_client 11) (Mknod 2 odd_name kFile 420 0 0 3); [sample_unused|].
    sample_step (sample_client 12) (SetRichAcl 3 user_acl); [by split; vm_compute|].
    sample_step (sample_client 13) (Symlink 1 odd_name [47; 44; 10] 4); [sample_unused|].
    sample_step (sample_client 14) (Unlink 2 odd_name); [by split; vm_compute|].
    apply history_nil.
  - vm_compute. reflexivity.
Qed.

Ltac fits := repeat first [apply Forall_cons; split | apply Forall_nil; exact I | split]; vm_compute; try (reflexivity || congruence); lia.

Lemma later_fits : Forall record_fits ([(10, CREATE 1 d_name kDirectory 493 0 0 0 2)] ++ later_log).
Proof. unfold later_log. fits. Qed.

Lemma changelog_restores_witness :
  exists s r, load_changelog sample_goals (changelog_file 1 ([(10, CREATE 1 d_name kDirectory 493 0 0 0 2)] ++ later_log)) restore_reset
    (ms_meta (MkMaster with_directory no_jobs)) = Some (r, s) /\ base.size (trash (md_detached s)) = 1%nat.
Proof.
  destruct later_history as (s & tm & H & Hsize).
  destruct (changelog_restores sample_goals 0 [(10, CREATE 1 d_name kDirectory 493 0 0 0 2)] (MkMaster with_directory no_jobs) later_log s tm) as [r E].
  - exact with_directory_history.
  - exact H.
  - exact later_fits.
  - by vm_compute.
  - exists s, r. split; [exact E|exact Hsize].
Defined.
